(* ===== verification/_CoqProject ===== *)
-Q . S2P
Prelude.v
Text.v
Json.v
Apply.v
KeyCodec.v
Quantity.v
Replay.v
Watch.v
WorkerHistory.v
RedbWatch.v
Reconstruct.v
PodLifecycle.v
PodActor.v
PodActorSpec.v
WorkQueue.v
StaleResource.v
StatusMerge.v
StatusRegistry.v
ResourceSemantics.v
LogApply.v
RedbStore.v
Selectors.v
ResourceShape.v
ResourceIndex.v
NodeSubnets.v
SqliteState.v
CommittedApply.v
Rbac.v
Authorizer.v
ListScope.v
WatchCache.v
Scheduler.v
Preemption.v
SchedAdapter.v
SchedService.v
NodeRouting.v
Commands.v
EntryApply.v
Materialize.v
PodRebase.v
MaterializeSpec.v
EntryExamples.v
StatusStamps.v
SnapshotCapture.v
SnapshotRestore.v
SnapshotPages.v
SnapshotSpec.v
SnapshotExamples.v
LogDatabase.v
LeaderEntries.v
SnapshotConverge.v
