(* ===== verification/Prelude.v ===== *)
(** * klights: a verification development of the cluster runtime's core logic

    klights is a Kubernetes distribution in one process: an API server over a
    replicated store, watch delivery, controllers, and a kubelet on every node.
    This library translates the logic that decides, as opposed to the code that
    talks to the network, the disk or containerd, into executable definitions,
    and proves what those decisions guarantee.

    ** How the parts interact

    A write is a command.  The leader materializes it, against the database it has,
    into an entry of the replicated log: a template of mutations without resource
    versions, conditions included.  Each node applies the committed entries to its
    database, which stamps the template with the next version, checks the
    conditions, merges statuses, keeps the index tables, and answers a repeated or
    rejected entry from a ledger; a worker's entries carry the position of its
    outbox stream.  A
    member that is too far behind receives a snapshot of the database instead of
    the entries it missed.  Every
    write appends rows to a durable watch log with event identifiers and
    resource versions.  A watcher (a controller, a kubelet, a worker node)
    resumes from a replay position and is served pages of the log, or told that
    its position has expired because retention discarded what it needs.  A
    request passes the authorizer chain first, and its selectors restrict what it
    lists and watches; informer caches keep the selected objects current.  Watch
    events feed the work queue of the controllers and the lifecycle actors of
    the kubelet, one per pod name.  The scheduler reads nodes and pods as JSON
    objects, adds up the quantities of their specs, and places a pod on a fitting
    node or makes room for it by evicting pods of lower priority.

    ** Files

    - [Prelude] (this file): machine integers, results, options as the source
      tests them, tactics and hint databases.
    - [Text]: the string operations of the Rust standard library the source
      uses (trimming, splitting, prefixes, decimal numbers).
    - [Json]: [serde_json] values, their pointers and ordered objects.
    - [Apply]: klights-cluster-core/src/apply.rs, preconditions, the decisions of
      a write, and the comparison of bodies.
    - [KeyCodec]: klights-cluster-datastore/src/redb/key_codec.rs and the index
      and watermark keys of that adapter, as byte strings.
    - [Quantity]: klights-types/src/quantity.rs, Kubernetes quantities.
    - [Replay]: klights-cluster-core/src/replay.rs and, of
      klights-cluster-store/src, durable_recovery.rs, raw_watch_history.rs and
      replay_retention.rs: replay positions, pages and retention floors.
    - [Watch]: klights-watch event values and targets the histories share.
    - [WorkerHistory]: klights-kubelet/src/worker_store/watch.rs, the bounded
      in-memory history of a worker node.
    - [RedbWatch]: the watch log of the redb adapter in
      klights-cluster-datastore/src/redb (insertion, garbage collection with
      floors, positioned reads).
    - [Reconstruct]: klights-cluster-datastore/src/position_membership.rs.
    - [PodLifecycle]: klights-kubelet/src/pod_lifecycle_core, the messages,
      actions and state of a pod, with the runtime observations they carry.
    - [PodActor]: the decision function [handle] of
      klights-kubelet/src/pod_lifecycle_actor/actor.rs, arm by arm.
    - [PodActorSpec]: the theorems about it.
    - [WorkQueue]: klights-controllers/src/workqueue.rs and
      dispatcher_runtime.rs, as interleavings of locked sections.
    - [StaleResource]: klights-cluster-core/src/stale_resource.rs, what a stale
      write of a whole object may not overwrite.
    - [StatusMerge]: klights-types/src/pod_status_merge.rs, the policy of every
      status write of a pod.
    - [StatusRegistry]: klights-cluster-core/src/status.rs, the merge profile of
      every kind, over [StatusMerge] for pods.
    - [ResourceSemantics]: klights-types/src/resource_semantics.rs, what a write
      to a resource may change of its status, and the deletion marks of a pod.
    - [LogApply]: klights-cluster-core/src/log_apply.rs, the mutations of a log
      entry, their tagged form, live templates, stream positions.
    - [RedbStore]: the resource transactions of the redb adapter
      (redb/ordinary_mutations/resources.rs, update_status, mutation_helpers.rs)
      over [KeyCodec], [Apply] and [ResourceSemantics].
    - [Selectors]: klights-types/src/label_selector.rs and field_selector.rs.
    - [ResourceShape], [ResourceIndex]: of klights-cluster-datastore/src/sqlite,
      scope.rs and resource_shape.rs, selector_index.rs and owner_ref_index.rs.
    - [NodeSubnets]: the CIDR values of klights-types/src/network.rs and the
      allocation of node subnets in the SQLite state machine.
    - [SqliteState]: sqlite/live_apply/state there, each mutation on the tables.
    - [CommittedApply]: sqlite/live_apply/coordinator.rs there, the transaction
      that applies a committed entry, over all of the above.
    - [NodeRouting]: the dataplane values of klights-types/src/network.rs and
      klights-cluster-store/src/topology.rs, and node_projection.rs of
      klights-cluster-core.
    - [Commands]: klights-cluster-core/src/command.rs and outbox.rs, the commands,
      the operations of an outbox, subjects and delivery errors.
    - [Materialize]: sqlite/embedded/mod.rs of klights-cluster-datastore, the entry
      of each command and of each delivery of an outbox.
    - [EntryApply], [MaterializeSpec], [PodRebase], [StatusStamps]: the theorems
      about entries between building and applying; [EntryExamples]: the runs that
      mark their edge.
    - [SnapshotCapture]: of klights-cluster-datastore/src/sqlite/recovery,
      snapshot.rs, capture.rs and the joining of pages in store.rs, and the writer
      of the envelope in klights-replication/src/snapshot.rs.
    - [SnapshotRestore]: the checks of an envelope in
      klights-cluster-store/src/durable_recovery.rs and the transaction of
      sqlite/recovery/restore.rs.
    - [SnapshotPages], [SnapshotSpec]: the theorems about both;
      [SnapshotExamples]: runs of what a snapshot does not carry.
    - [LogDatabase], [LeaderEntries], [SnapshotConverge]: no code of their own; the
      databases that members reach by applying entries and installing snapshots,
      that the builders of [Materialize] write the entries this asks for, and what
      two members share after a snapshot.
    - [Rbac]: klights-auth/src/rbac_rule_evaluator.rs, rules and their coverage.
    - [Authorizer]: the identities, requests, policy stores, authorizers and
      chain of klights-auth/src, and the escalation admission of
      k8s-native-service/src/current/rbac_admission.rs.  [RbacPolicyStore] with
      its laws is the interface between the stores and their clients.
    - [ListScope]: no code of its own; the composition of the authorizers, which
      read the text of a field selector, with the parser that applies it.
    - [WatchCache]: klights-watch/src/cache.rs and filter.rs.
    - [Scheduler]: of klights-controllers/src/scheduler, types.rs, predicates.rs
      and scoring.rs, the typed view of nodes and pods, filters and scores.
    - [Preemption]: preemption.rs and the pipeline of engine.rs there.
    - [SchedAdapter]: adapter.rs there and the entry points of engine.rs on JSON.
    - [SchedService]: service.rs and placement.rs there, over the interface
      [PodPorts] of the ports, which [SchedService.Memory] implements in memory.

    ** What the theorems show

    - Quantities: a recognised text is parsed to the value it denotes in the
      resource's unit, rounded up and capped at [i64::MAX]; parsing the canonical
      text of a quantity gives it back; the effective resource of a pod is exact
      while the container sum stays within [i64], and wraps beyond.
    - Replay: a cursor represents what it started from and every event through
      its own identifier; a validated page holds only new rows and continues the
      cursor; a cursor that retention classifies as available has missed nothing
      pruned; reading page after page delivers every unseen row once and in
      order.  The worker history and the redb log refine the unbounded log, with
      one gap of the redb log for composite cursors stated as a theorem.
    - Reconstruction: undoing the unseen rows equals replaying forward the rows
      the cursor has seen.
    - Pod actor, over every sequence of messages: operations have consecutive
      identifiers and one is in flight at a time; a result is accepted at most
      once; a terminating pod always has its stop or finalization in flight; the
      deletion timer acts once; the waiting replacement starts when the old pod
      is finalized.  Two concrete runs show where a command or a late runtime
      event defeats the last two.
    - Work queue, over every interleaving: reconciles of a key are serialised,
      and a key made ready can always still be reconciled; a concrete
      interleaving shows a retry that is lost.
    - Materialization and committed apply, where an entry is built from one database
      and applied to another: each position of an outbox stream takes effect once
      and in order whatever leaders build and the log delivers; a conditional write
      whose object has moved on changes nothing; the entry of an ordinary command
      never fails in a way that stops a node; a creation takes effect once, as it
      was written; the stamped status updates of a Pod take effect in the order of
      their stamps, between collections of the ledger; rebasing a stale Pod
      metadata update is a three-way merge.  Concrete runs show the commands and
      interleavings these theorems leave out.
    - Committed apply: a rejected entry changes the ledger and its position only and is answered
      the same way again; an entry uses at most one resource version and writes
      no other; the index tables stay exact, so an indexed list is answered as if
      every body were decoded; the subnets of nodes are disjoint and allocation
      fails only when the range is full.
    - Snapshots: the pages of a capture hold every row once, in order, for any page
      limit, and restoring them over any database gives the captured one back.
      Whatever well-formed entries a member has applied and snapshots it has
      installed, its database can be sent to every other member; and a member that
      installed a snapshot agrees with the sender after any further entries, because
      applying an entry reads only what a snapshot carries.
      Runs show the three things that are not carried: answers of the ledger,
      creation versions whose event is gone, and metadata rows outside the header.
    - redb store: the transactions refine a map from identities to versioned
      bodies; the watch log rebuilds the tables; the identity and owner indexes
      are exact; a conditional write loses no update.  Keys are decoded to what
      they were made from, scans are exact and the indexes are in LIST order for
      components of at most 255 bytes.  Concrete runs show a stale read by owner
      and a conditional delete that removes a newer version.
    - Apply rules: comparing bodies without copying agrees with the reference;
      the tagged form of a mutation loses nothing; every builder authors a valid
      template.
    - Status registry: a stale write loses no field and no condition type of the
      live status; the two network conditions of a node stay together; a write to
      a resource cannot write its status.
    - Stale writes: a bound pod stays bound, with one true PodScheduled condition
      and its stored status; stored finalizers and user metadata are kept.
    - Status writes: the merged conditions and fields are exactly the writer's
      and those it neither owns nor mentions; a finished pod stays finished, and a
      stale snapshot does not hide a container that is known to run.
    - Selectors: parsing undoes printing, for label selectors in order and for
      field selectors up to the parser's sorting; unescaping accepts exactly the
      escaped texts.
    - Authorization: rules that cover other rules grant at least as much, so an
      accepted role or binding gives its author nothing new; the chain fails
      closed; bootstrap tokens are confined to CSRs and discovery; lists granted
      by name or by node return only those names or that node's pods.  The
      binding check fails open when the role cannot be read.
    - Watch cache: well formed after any operations; a scope filled by LIST and
      kept by WATCH lists exactly the matching objects of the store.
    - Scheduler: a pod is placed on a best fitting node whenever one fits; else
      only by evicting pods of lower priority whose absence lets it fit, on the
      node that loses least; a fitting node is not overcommitted.  Composed with
      the extraction from JSON, a placement is sound for the stored objects, and
      the typed view is well formed whatever the objects are.  The service binds a
      pod only to a node that the lists it has just read accept, plans a wave with
      the pods placed before in it, and marks victims without losing their state;
      runs in memory show a planned pod rejected, a recreated pod marked, and a
      binding that stays when its eviction fails.

    ** Conventions, bounds and fuel

    A machine integer is a [Z]; where the width matters the wrap-around, the
    saturation or the checked failure is written out, and theorems that need a
    bound state it (for instance, fewer than 2^64 operations of one actor).
    Recursion is structural where it can be, and takes fuel elsewhere:
    - [PodActor.handle_fuel], for the call of [handle] to itself:
      [PodActorSpec.handle_terminates] proves that depth two is always enough;
    - [Replay.read_pages], a reader that asks for pages until one is empty: one
      more than the length of the log, which [Replay.paged_replay_complete]
      proves is enough;
    - [Preemption.victim_loop], which takes one candidate away per round: the
      number of candidates, beyond which [Preemption.victim_loop_fuel] proves that
      nothing changes;
    - [Quantity.decimal_power_scale_loop], a division by ten until one is left:
      as many steps as the value has binary digits;
    - [SnapshotCapture.page_loop], [fill_operations] and [drain], a reader of pages:
      the number of tables, the page limit and the number of rows, which
      [SnapshotPages.serialized] proves are enough;
    - splitting and trimming in [Text]: the length of the string, of which every
      step removes at least one byte.
    The version counter of [CommittedApply] is a [Z] that stays below [i64::MAX];
    [EntryApply.ready] asks for room in the event identifiers;
    [RedbStore] wraps it and its theorems assume room.  A stored body is a value
    and not its text.
    Code outside the repository is an argument: the RFC 7396 merge (of which one
    theorem assumes that a patch without [metadata.uid] keeps it), the wire codec
    of stored answers (of which theorems assume the round trip on errors, or that
    encoding succeeds), the JSON text of a voter list (of which the snapshot
    theorems assume the round trip), the log position and membership of openraft in
    a snapshot, fresh UUIDs, base64 and chrono's parser and formatter in
    the stores; the JSON printer and the
    RFC 3339 parser of the actor are arbitrary functions, so its theorems hold
    for any of them; so are the text of a JSON float in a field selector and the
    decoders of stored roles; time is the argument [now]; a cancellation token is the
    list of cancelled operations.  The ports of the scheduling service are a class
    over any state of the world, so its theorems hold for every interleaving with
    other writers that an instance describes.

    ** What is not modelled

    Asynchronous plumbing (mailboxes, timers, wake-ups of sleeping workers,
    tracing), storage engines beyond the statements that are used, network and
    host calls, generated wire types, and the crates that consist of them.  Not
    yet modelled but within reach: the queries behind the read ports of the SQLite
    adapter, the recovery and live committed apply of the redb adapter,
    and the membership records of klights-cluster-core. *)

From stdpp Require Export base gmap strings list option numbers.
From Stdlib Require Export ZArith Lia Bool Ascii String.
From stdpp Require Export list.

#[global] Set Default Proof Using "Type".

Declare Scope rs_scope.
Delimit Scope rs_scope with rs.

(** ** Machine integers

    A w-bit integer is a [Z]; the operations of the source that observe the
    width are written out here. *)

Definition i64_min : Z := -9223372036854775808.
Definition i64_max : Z := 9223372036854775807.
Definition i32_min : Z := -2147483648.
Definition i32_max : Z := 2147483647.
Definition u32_max : Z := 4294967295.
Definition u64_max : Z := 18446744073709551615.

Definition in_i64 (z : Z) : Prop := (i64_min <= z <= i64_max)%Z.
Definition in_u64 (z : Z) : Prop := (0 <= z <= u64_max)%Z.
Definition in_u32 (z : Z) : Prop := (0 <= z <= u32_max)%Z.

(** [u64] addition with wrap-around ([wrapping_add], or [+] of a release build). *)
Definition wrapping_add_u64 (x y : Z) : Z := ((x + y) mod 18446744073709551616)%Z.
Definition wrapping_mul_u64 (x y : Z) : Z := ((x * y) mod 18446744073709551616)%Z.
Definition wrapping_add_u32 (x y : Z) : Z := ((x + y) mod 4294967296)%Z.

(** [i64] arithmetic of a release build: two's complement wrap-around. *)
Definition wrap_i64 (z : Z) : Z :=
  ((z + 9223372036854775808) mod 18446744073709551616 - 9223372036854775808)%Z.

Definition saturating_i64 (z : Z) : Z := Z.max i64_min (Z.min i64_max z).

Definition checked_u32 (z : Z) : option Z :=
  if ((0 <=? z) && (z <=? u32_max))%Z then Some z else None.

Definition checked_i32 (z : Z) : option Z :=
  if ((i32_min <=? z) && (z <=? i32_max))%Z then Some z else None.

Definition checked_i64 (z : Z) : option Z :=
  if ((i64_min <=? z) && (z <=? i64_max))%Z then Some z else None.

(** ** Result *)

Inductive result (E A : Type) : Type :=
| Ok (a : A)
| Err (e : E).
Arguments Ok {E A} a.
Arguments Err {E A} e.

Definition result_bind {E A B} (r : result E A) (k : A -> result E B) : result E B :=
  match r with Ok a => k a | Err e => Err e end.

(** The [?] operator. *)
Notation "'let?' x := r 'in' k" := (result_bind r (fun x => k))
  (at level 10, x name, r at level 100, k at level 200) : rs_scope.
Notation "'try?' r 'in' k" := (result_bind r (fun _ => k))
  (at level 10, r at level 100, k at level 200) : rs_scope.

Definition is_ok {E A} (r : result E A) : bool :=
  match r with Ok _ => true | Err _ => false end.

Definition is_err {E A} (r : result E A) : bool := negb (is_ok r).

Definition ok_or {E A} (o : option A) (e : E) : result E A :=
  match o with Some a => Ok a | None => Err e end.

(** ** Options, as the source tests them *)

Definition opt_is_some {A} (o : option A) : bool := match o with Some _ => true | None => false end.
Definition opt_is_none {A} (o : option A) : bool := negb (opt_is_some o).
Definition is_some_and {A} (o : option A) (p : A -> bool) : bool :=
  match o with Some a => p a | None => false end.
Definition is_none_or {A} (o : option A) (p : A -> bool) : bool :=
  match o with Some a => p a | None => true end.
Definition opt_filter {A} (p : A -> bool) (o : option A) : option A :=
  match o with Some a => if p a then Some a else None | None => None end.
Definition or_else {A} (o o' : option A) : option A :=
  match o with Some _ => o | None => o' end.

Definition unwrap_or {A} (d : A) (o : option A) : A :=
  match o with Some a => a | None => d end.

Definition opt_eqb {A} (eqb : A -> A -> bool) (x y : option A) : bool :=
  match x, y with
  | Some a, Some b => eqb a b
  | None, None => true
  | _, _ => false
  end.

Notation "x =?s y" := (String.eqb x y) (at level 70) : rs_scope.
Notation "x =?os y" := (opt_eqb String.eqb x y) (at level 70) : rs_scope.
Open Scope rs_scope.

(** ** Collections *)

(** [iter().map(..).collect::<HashMap<..>>()]: later entries replace earlier ones. *)
Definition collect_map {A} (l : list (string * A)) : gmap string A :=
  fold_left (fun m kv => <[kv.1 := kv.2]> m) l ∅.

(** ** Tactics *)

(** Destruct the innermost scrutinee of a [match] or [if], in the goal or in a
    hypothesis, keeping the equation. *)
Ltac case_inner e :=
  match e with
  | context [match ?e' with _ => _ end] => case_inner e'
  | _ => let E := fresh "E" in destruct e eqn:E
  end.

Ltac split_match :=
  match goal with
  | |- context [match ?e with _ => _ end] => case_inner e
  end.

Ltac split_match_in H :=
  match type of H with
  | context [match ?e with _ => _ end] => case_inner e
  end.

(** Turn the boolean tests of the source into propositions. *)
Ltac to_prop :=
  repeat match goal with
  | H : is_true _ |- _ => unfold is_true in H
  | H : (_ && _) = true |- _ => apply andb_true_iff in H; destruct H
  | H : (_ && _) = false |- _ => apply andb_false_iff in H
  | H : (_ || _) = false |- _ => apply orb_false_iff in H; destruct H
  | H : (_ || _) = true |- _ => apply orb_true_iff in H
  | H : negb _ = true |- _ => apply negb_true_iff in H
  | H : negb _ = false |- _ => apply negb_false_iff in H
  | H : (_ =? _)%Z = true |- _ => apply Z.eqb_eq in H
  | H : (_ =? _)%Z = false |- _ => apply Z.eqb_neq in H
  | H : (_ <=? _)%Z = true |- _ => apply Z.leb_le in H
  | H : (_ <=? _)%Z = false |- _ => apply Z.leb_gt in H
  | H : (_ <? _)%Z = true |- _ => apply Z.ltb_lt in H
  | H : (_ <? _)%Z = false |- _ => apply Z.ltb_ge in H
  | H : String.eqb _ _ = true |- _ => apply String.eqb_eq in H
  | H : String.eqb _ _ = false |- _ => apply String.eqb_neq in H
  end.

(** Split the disjunctions of tests that [to_prop] leaves. *)
Ltac split_or :=
  to_prop;
  repeat (match goal with
          | H : _ = true \/ _ = true |- _ => destruct H
          | H : _ = false \/ _ = false |- _ => destruct H
          end; to_prop).

(** Case analysis on every test, closing the contradictory branches. *)
Ltac crush :=
  repeat first [split_match | progress simplify_eq/= | progress to_prop]; try done; try lia.

Create HintDb klights.
Create Rewrite HintDb klights.

(** ** Shared lemmas *)

Lemma opt_eqb_spec {A} (eqb : A -> A -> bool)
    (Heqb : forall x y, eqb x y = true <-> x = y) (x y : option A) :
  opt_eqb eqb x y = true <-> x = y.
Proof.
  destruct x, y; simpl; rewrite ?Heqb; split; intros; congruence.
Qed.

Lemma string_eqb_iff (x y : string) : (x =?s y) = true <-> x = y.
Proof. apply String.eqb_eq. Qed.

Lemma opt_string_eqb_iff (x y : option string) : (x =?os y) = true <-> x = y.
Proof. apply opt_eqb_spec, string_eqb_iff. Qed.

Lemma opt_string_eqb_refl (x : option string) : (x =?os x) = true.
Proof. by apply opt_string_eqb_iff. Qed.

Lemma unwrap_or_Some {A} (d a : A) : unwrap_or d (Some a) = a.
Proof. done. Qed.

Lemma wrapping_add_u64_small x y :
  in_u64 (x + y) -> wrapping_add_u64 x y = (x + y)%Z.
Proof. unfold in_u64, wrapping_add_u64, u64_max. intros. apply Z.mod_small. lia. Qed.

Lemma wrap_i64_range z : in_i64 (wrap_i64 z).
Proof.
  unfold in_i64, wrap_i64, i64_min, i64_max.
  pose proof (Z.mod_pos_bound (z + 9223372036854775808) 18446744073709551616). lia.
Qed.

Lemma wrap_i64_small z : in_i64 z -> wrap_i64 z = z.
Proof.
  unfold in_i64, wrap_i64, i64_min, i64_max. intros.
  rewrite Z.mod_small; lia.
Qed.

Lemma saturating_i64_small z : in_i64 z -> saturating_i64 z = z.
Proof. unfold in_i64, saturating_i64. lia. Qed.

Lemma checked_u32_small z : in_u32 z -> checked_u32 z = Some z.
Proof.
  unfold in_u32, checked_u32. intros [??].
  by rewrite (proj2 (Z.leb_le _ _)), (proj2 (Z.leb_le _ _)).
Qed.

Lemma checked_i64_range z v : checked_i64 z = Some v -> in_i64 v.
Proof.
  unfold checked_i64. destruct (_ && _) eqn:H; [|done]. intros [= <-].
  apply andb_true_iff in H as [?%Z.leb_le ?%Z.leb_le]. done.
Qed.

Lemma checked_i64_small z : in_i64 z -> checked_i64 z = Some z.
Proof.
  unfold in_i64, checked_i64. intros [??].
  by rewrite (proj2 (Z.leb_le _ _)), (proj2 (Z.leb_le _ _)).
Qed.

Lemma collect_map_lookup {A} (l : list (string * A)) k v : collect_map l !! k = Some v -> (k, v) ∈ l.
Proof.
  unfold collect_map. induction l as [|[k' w] l IH] using rev_ind; [done|].
  rewrite fold_left_app, elem_of_app. cbn [fold_left fst snd]. destruct (decide (k' = k)) as [->|Hne].
  - rewrite lookup_insert_eq. intros [= ->]. right. by left.
  - rewrite lookup_insert_ne by done. intros H. left. by apply IH.
Qed.

Lemma collect_map_is_Some {A} (l : list (string * A)) k v : (k, v) ∈ l -> is_Some (collect_map l !! k).
Proof.
  unfold collect_map. induction l as [|[k' w] l IH] using rev_ind; [by intros ?%not_elem_of_nil|].
  rewrite fold_left_app, elem_of_app. cbn [fold_left fst snd]. destruct (decide (k' = k)) as [->|Hne].
  - rewrite lookup_insert_eq. eauto.
  - rewrite lookup_insert_ne by done. intros [H|[=]%list_elem_of_singleton]; [by apply IH|congruence].
Qed.

Lemma collect_map_fmap {A B} (f : A -> B) l :
  collect_map ((fun kv : string * A => (kv.1, f kv.2)) <$> l) = f <$> collect_map l.
Proof.
  unfold collect_map. induction l as [|kv l IH] using rev_ind; [cbn; by rewrite (fmap_empty (M := gmap string))|].
  rewrite fmap_app, !fold_left_app, IH. cbn [fmap list_fmap fold_left fst snd]. by rewrite fmap_insert.
Qed.

#[export] Hint Resolve opt_string_eqb_refl String.eqb_refl : klights.
#[export] Hint Rewrite String.eqb_refl opt_string_eqb_refl : klights.
