(* ===== verification/Text.v ===== *)
(** * Text: the operations of Rust's [str] the sources use

    A [str] is its sequence of UTF-8 bytes, a [string] here.  Searching,
    splitting and stripping work on bytes, which for valid UTF-8 agrees with
    working on characters; [trim] removes the characters with the Unicode
    White_Space property, recognised by their encodings. *)

From S2P Require Import Prelude.

Local Open Scope string_scope.
Local Open Scope rs_scope.

Abbreviation bytes_of := String.list_ascii_of_string.
Abbreviation str_of := String.string_of_list_ascii.

Definition is_empty (s : string) : bool :=
  match s with EmptyString => true | _ => false end.

(** Length in bytes. *)
Definition str_len (s : string) : Z := Z.of_nat (String.length s).

(** ** Prefixes, suffixes, search *)

Fixpoint strip_prefix (p s : string) : option string :=
  match p, s with
  | EmptyString, _ => Some s
  | String a p', String b s' => if Ascii.eqb a b then strip_prefix p' s' else None
  | String _ _, EmptyString => None
  end.

Definition starts_with (p s : string) : bool := opt_is_some (strip_prefix p s).

(** [s.strip_suffix(suf)]. *)
Fixpoint strip_suffix (suf s : string) : option string :=
  if s =?s suf then Some EmptyString
  else match s with
       | EmptyString => None
       | String c s' => String c <$> strip_suffix suf s'
       end.

Definition ends_with (suf s : string) : bool := opt_is_some (strip_suffix suf s).

(** [s.split_once(sep)]: the text before and after the first occurrence. *)
Fixpoint split_once (sep s : string) : option (string * string) :=
  match strip_prefix sep s with
  | Some rest => Some (EmptyString, rest)
  | None =>
      match s with
      | EmptyString => None
      | String c s' =>
          match split_once sep s' with
          | Some (a, b) => Some (String c a, b)
          | None => None
          end
      end
  end.

Definition contains (sub s : string) : bool := opt_is_some (split_once sub s).

(** [s.split(sep)] for a non-empty [sep]; each piece consumes at least one
    byte of the input, so its length bounds the recursion. *)
Fixpoint split_fuel (fuel : nat) (sep s : string) : list string :=
  match fuel with
  | O => [s]
  | S fuel' =>
      match split_once sep s with
      | Some (a, b) => a :: split_fuel fuel' sep b
      | None => [s]
      end
  end.

Definition split (sep s : string) : list string := split_fuel (String.length s) sep s.

(** ** Characters *)

Definition is_ascii_digit (c : ascii) : bool :=
  let n := Ascii.N_of_ascii c in ((48 <=? n) && (n <=? 57))%N.

Definition all_chars (p : ascii -> bool) (s : string) : bool := forallb p (bytes_of s).
Definition any_char (p : ascii -> bool) (s : string) : bool := existsb p (bytes_of s).

Definition lower_ascii (c : ascii) : ascii :=
  let n := Ascii.N_of_ascii c in
  if ((65 <=? n) && (n <=? 90))%N then Ascii.ascii_of_N (n + 32) else c.

Fixpoint to_ascii_lowercase (s : string) : string :=
  match s with
  | EmptyString => EmptyString
  | String c s' => String (lower_ascii c) (to_ascii_lowercase s')
  end.

Definition eq_ignore_ascii_case (a b : string) : bool :=
  to_ascii_lowercase a =?s to_ascii_lowercase b.

(** ** Whitespace *)

(** Number of bytes of the white-space character a byte sequence starts with
    (0 when it starts with another character): U+0009..U+000D, U+0020, U+0085,
    U+00A0, U+1680, U+2000..U+200A, U+2028, U+2029, U+202F, U+205F, U+3000. *)
Definition ws_len (l : list N) : nat :=
  match l with
  | a :: l1 =>
      if ((9 <=? a) && (a <=? 13) || (a =? 32))%N then 1
      else match l1 with
           | b :: l2 =>
               if ((a =? 194) && ((b =? 133) || (b =? 160)))%N then 2
               else match l2 with
                    | c :: _ =>
                        if (((a =? 225) && (b =? 154) && (c =? 128))
                            || ((a =? 226) && (b =? 128)
                                && (((128 <=? c) && (c <=? 138)) || (c =? 168)
                                    || (c =? 169) || (c =? 175)))
                            || ((a =? 226) && (b =? 129) && (c =? 159))
                            || ((a =? 227) && (b =? 128) && (c =? 128)))%N
                        then 3 else 0
                    | [] => 0
                    end
           | [] => 0
           end
  | [] => 0
  end.

(** The same test at the end of the text: [l] is read backwards. *)
Definition ws_len_rev (l : list N) : nat :=
  match l with
  | a :: b :: c :: _ =>
      match ws_len [a] with
      | 0 => match ws_len [b; a] with
             | 2 => 2
             | _ => match ws_len [c; b; a] with 3 => 3 | _ => 0 end
             end
      | n => n
      end
  | [a; b] => match ws_len [a] with
              | 0 => match ws_len [b; a] with 2 => 2 | _ => 0 end
              | n => n
              end
  | [a] => ws_len [a]
  | [] => 0
  end.

Fixpoint trim_fuel (fuel : nat) (ws : list N -> nat) (l : list ascii) : list ascii :=
  match fuel with
  | O => l
  | S fuel' =>
      match ws (Ascii.N_of_ascii <$> take 3 l) with
      | O => l
      | n => trim_fuel fuel' ws (drop n l)
      end
  end.

Definition trim_start (s : string) : string :=
  let l := bytes_of s in str_of (trim_fuel (length l) ws_len l).

Definition trim_end (s : string) : string :=
  let l := rev (bytes_of s) in str_of (rev (trim_fuel (length l) ws_len_rev l)).

(** [str::trim]. *)
Definition trim (s : string) : string := trim_end (trim_start s).

(** [s.trim_end_matches(c)] for a one-byte character. *)
Fixpoint trim_end_matches (c : ascii) (s : string) : string :=
  match s with
  | EmptyString => EmptyString
  | String a s' =>
      let t := trim_end_matches c s' in
      if is_empty t && Ascii.eqb a c then EmptyString else String a t
  end.

(** ** Byte order ([str::cmp]) *)

Definition str_leb (a b : string) : bool :=
  match String.compare a b with Gt => false | _ => true end.

Lemma ascii_compare_spec a b : Ascii.compare a b = (Ascii.N_of_ascii a ?= Ascii.N_of_ascii b)%N.
Proof. done. Qed.

Lemma str_compare_refl s : String.compare s s = Eq.
Proof. induction s; simpl; [done|]. by rewrite ascii_compare_spec, N.compare_refl. Qed.

Lemma str_compare_eq a b : String.compare a b = Eq <-> a = b.
Proof. split; [apply String.compare_eq_iff|]. intros ->. apply str_compare_refl. Qed.

Lemma str_compare_trans a b c x :
  String.compare a b = x -> String.compare b c = x -> String.compare a c = x.
Proof.
  revert b c. induction a as [|a1 a IH]; intros [|b1 b] [|c1 c]; simpl; try (by intros <-).
  rewrite !ascii_compare_spec.
  destruct (N.compare_spec (Ascii.N_of_ascii a1) (Ascii.N_of_ascii b1)),
    (N.compare_spec (Ascii.N_of_ascii b1) (Ascii.N_of_ascii c1)),
    (N.compare_spec (Ascii.N_of_ascii a1) (Ascii.N_of_ascii c1));
    try lia; try (by intros <-); try (by apply IH); try (intros; congruence).
Qed.

Lemma str_leb_refl a : str_leb a a = true.
Proof. unfold str_leb. by rewrite str_compare_refl. Qed.

Lemma str_leb_total a b : str_leb a b = true \/ str_leb b a = true.
Proof.
  unfold str_leb. rewrite (String.compare_antisym b a).
  destruct (String.compare a b); simpl; auto.
Qed.

Lemma str_leb_antisym a b : str_leb a b = true -> str_leb b a = true -> a = b.
Proof.
  unfold str_leb. rewrite (String.compare_antisym b a).
  destruct (String.compare a b) eqn:E; simpl; try done. by intros; apply str_compare_eq.
Qed.

Lemma str_leb_trans a b c : str_leb a b = true -> str_leb b c = true -> str_leb a c = true.
Proof.
  unfold str_leb. intros H1 H2.
  destruct (String.compare a b) eqn:E1; try done;
    destruct (String.compare b c) eqn:E2; try done.
  - apply str_compare_eq in E1. subst. by rewrite E2.
  - apply str_compare_eq in E1. subst. by rewrite E2.
  - apply str_compare_eq in E2. subst. by rewrite E1.
  - by rewrite (str_compare_trans _ _ _ _ E1 E2).
Qed.

(** ** Integers as text *)

Definition digit_char (d : Z) : ascii := Ascii.ascii_of_N (48 + Z.to_N d).

Definition digit_value (c : ascii) : Z := Z.of_N (Ascii.N_of_ascii c) - 48.

(** Decimal digits of a non-negative integer, least significant first. *)
Fixpoint digits_fuel (fuel : nat) (n : Z) : list Z :=
  match fuel with
  | O => [n]
  | S fuel' => if (n <? 10)%Z then [n] else (n mod 10)%Z :: digits_fuel fuel' (n / 10)
  end.

Definition digits (n : Z) : list Z := rev (digits_fuel (Z.to_nat (Z.log2 n)) n).

(** [to_string] of an integer. *)
Definition to_string (z : Z) : string :=
  if (z <? 0)%Z then String "-" (str_of (digit_char <$> digits (- z)))
  else str_of (digit_char <$> digits z).

(** Value of a sequence of digits, accumulated from the left. *)
Definition value_of_digits (acc : Z) (ds : list Z) : Z :=
  fold_left (fun v d => v * 10 + d)%Z ds acc.

(** [str::parse::<i32>] and [str::parse::<i64>], the sign and digits; [None] on an empty or non-digit
    text or a value out of range. *)
Definition parse_unsigned (s : string) : option Z :=
  if is_empty s then None
  else if all_chars is_ascii_digit s
       then Some (value_of_digits 0 (digit_value <$> bytes_of s))
       else None.

Definition parse_i32 (s : string) : option Z :=
  match s with
  | String "-" rest => v ← parse_unsigned rest; checked_i32 (- v)
  | String "+" rest => v ← parse_unsigned rest; checked_i32 v
  | _ => v ← parse_unsigned s; checked_i32 v
  end.

Definition parse_i64 (s : string) : option Z :=
  match s with
  | String "-" rest => v ← parse_unsigned rest; checked_i64 (- v)
  | String "+" rest => v ← parse_unsigned rest; checked_i64 v
  | _ => v ← parse_unsigned s; checked_i64 v
  end.

(** ** Lemmas *)

#[local] Arguments String.append !_ _ : simpl nomatch.
#[local] Arguments ws_len : simpl never.
#[local] Arguments ws_len_rev : simpl never.

Lemma strip_prefix_Some p s r : strip_prefix p s = Some r <-> s = p +:+ r.
Proof.
  revert s. induction p as [|a p IH]; intros [|b s]; simpl.
  1-3: split; intros; congruence.
  destruct (Ascii.eqb_spec a b) as [->|]; [rewrite IH|]; split; intros; congruence.
Qed.

Lemma str_app_length a b : String.length (a +:+ b) = (String.length a + String.length b)%nat.
Proof. induction a; simpl; congruence. Qed.

Lemma str_app_nil_r a : a +:+ "" = a.
Proof. induction a; simpl; congruence. Qed.

Lemma str_app_assoc a b c : (a +:+ b) +:+ c = a +:+ (b +:+ c).
Proof. induction a; simpl; congruence. Qed.

Lemma bytes_of_app a b : bytes_of (a +:+ b) = (bytes_of a ++ bytes_of b)%list.
Proof. induction a; simpl; congruence. Qed.

Lemma str_of_app a b : str_of (a ++ b)%list = str_of a +:+ str_of b.
Proof. induction a; simpl; congruence. Qed.

Lemma bytes_of_length s : length (bytes_of s) = String.length s.
Proof. induction s; simpl; congruence. Qed.

Lemma strip_suffix_Some suf s r : strip_suffix suf s = Some r <-> s = r +:+ suf.
Proof.
  revert r. induction s as [|c s IH]; intros r.
  - change (strip_suffix suf "") with (if "" =?s suf then Some "" else None).
    destruct (String.eqb_spec "" suf) as [<-|Hne].
    + split; [by intros [= <-]|]. destruct r; simpl; congruence.
    + split; intros; [congruence|]. destruct r; simpl in *; congruence.
  - change (strip_suffix suf (String c s)) with
      (if String c s =?s suf then Some "" else String c <$> strip_suffix suf s).
    destruct (String.eqb_spec (String c s) suf) as [<-|Hne].
    + split; [by intros [= <-]|]. intros Heq.
      destruct r; [done|]. apply (f_equal String.length) in Heq.
      rewrite str_app_length in Heq. simpl in Heq. lia.
    + split.
      * intros (r' & Hr & ->)%fmap_Some. apply IH in Hr. by subst.
      * destruct r as [|c' r]; intros Hs; [by destruct Hne|].
        injection Hs as -> Hs. apply IH in Hs. by rewrite Hs.
Qed.

Lemma str_app_inj_r a b x y :
  String.length x = String.length y -> a +:+ x = b +:+ y -> a = b /\ x = y.
Proof.
  intros Hlen Heq.
  assert (Ha : String.length a = String.length b).
  { apply (f_equal String.length) in Heq. rewrite !str_app_length in Heq. lia. }
  revert b Ha Heq. induction a as [|c a IH]; intros [|d b]; simpl; try done; [lia..|].
  intros [=] [= -> Heq]. by destruct (IH b) as [-> ->].
Qed.

Lemma strip_suffix_other suf suf' t :
  String.length suf = String.length suf' -> suf <> suf' -> strip_suffix suf (t +:+ suf') = None.
Proof.
  intros Hlen Hne. destruct (strip_suffix _ _) as [r|] eqn:E; [|done].
  apply strip_suffix_Some in E. apply str_app_inj_r in E as [_ ?]; congruence.
Qed.

Lemma strip_suffix_app suf t : strip_suffix suf (t +:+ suf) = Some t.
Proof. by apply strip_suffix_Some. Qed.

Lemma all_chars_app p a b : all_chars p (a +:+ b) = all_chars p a && all_chars p b.
Proof. unfold all_chars. by rewrite bytes_of_app, forallb_app. Qed.

Lemma any_char_none p q s :
  all_chars q s = true -> (forall c, q c = true -> p c = false) -> any_char p s = false.
Proof.
  unfold any_char, all_chars. intros Hq Hpq. apply not_true_iff_false. intros Hp.
  apply existsb_exists in Hp as (c & Hin & Hc).
  rewrite forallb_forall in Hq. specialize (Hpq c (Hq c Hin)). congruence.
Qed.

(** A separator is looked for past a text without its first character. *)
Lemma split_once_skip c sep k s :
  any_char (Ascii.eqb c) k = false ->
  split_once (String c sep) (k +:+ s) = prod_map (String.append k) id <$> split_once (String c sep) s.
Proof.
  unfold any_char. induction k as [|d k IH]; simpl.
  - by destruct (split_once _ s) as [[]|].
  - intros [Hc Hk]%orb_false_iff. rewrite Hc, IH by done. by destruct (split_once _ s) as [[]|].
Qed.

Lemma split_once_None_head c sep s :
  any_char (Ascii.eqb c) s = false -> split_once (String c sep) s = None.
Proof. intros H. rewrite <- (str_app_nil_r s). by rewrite split_once_skip. Qed.

Lemma split_once_None_char c s :
  any_char (Ascii.eqb c) s = false -> split_once (String c "") s = None.
Proof. apply split_once_None_head. Qed.

Lemma strip_prefix_app p s : strip_prefix p (p +:+ s) = Some s.
Proof. by apply strip_prefix_Some. Qed.

Lemma split_once_app c sep k r :
  any_char (Ascii.eqb c) k = false ->
  split_once (String c sep) (k +:+ String c sep +:+ r) = Some (k, r).
Proof.
  intros Hk. rewrite split_once_skip by done.
  assert (Hs : split_once (String c sep) (String c sep +:+ r) = Some ("", r)).
  { pose proof (strip_prefix_app (String c sep) r) as Hp. simpl in Hp |- *. by rewrite Hp. }
  rewrite Hs. simpl. by rewrite str_app_nil_r.
Qed.

Lemma split_fuel_Some fuel sep s a b :
  split_once sep s = Some (a, b) -> split_fuel (S fuel) sep s = a :: split_fuel fuel sep b.
Proof. intros H. cbn [split_fuel]. by rewrite H. Qed.

Lemma split_fuel_None fuel sep s : split_once sep s = None -> split_fuel fuel sep s = [s].
Proof. intros H. destruct fuel; cbn [split_fuel]; by rewrite ?H. Qed.

(** Splitting undoes joining, for pieces without the separating character. *)
Lemma split_fuel_join c l fuel :
  l <> [] -> Forall (fun s => any_char (Ascii.eqb c) s = false) l -> (length l <= S fuel)%nat ->
  split_fuel fuel (String c "") (String.concat (String c "") l) = l.
Proof.
  revert l. induction fuel as [|fuel IH]; intros [|s [|s' l]] Hne Hl Hlen; try done; simpl in Hlen; try lia.
  - apply Forall_cons in Hl as [Hs _]. by apply split_fuel_None, split_once_None_char.
  - apply Forall_cons in Hl as [Hs Hl].
    change (String.concat (String c "") (s :: s' :: l))
      with (s +:+ String c "" +:+ String.concat (String c "") (s' :: l)).
    erewrite split_fuel_Some by (by apply split_once_app). f_equal. apply IH; [done..|simpl; lia].
Qed.

Lemma concat_length c l : (length l <= S (String.length (String.concat (String c "") l)))%nat.
Proof.
  induction l as [|s [|s' l] IH]; [simpl; lia..|].
  change (String.concat (String c "") (s :: s' :: l))
    with (s +:+ String c "" +:+ String.concat (String c "") (s' :: l)).
  rewrite !str_app_length. cbn [length String.length] in *. lia.
Qed.

Lemma split_join c l :
  l <> [] -> Forall (fun s => any_char (Ascii.eqb c) s = false) l ->
  split (String c "") (String.concat (String c "") l) = l.
Proof. intros. apply split_fuel_join; [done..|apply concat_length]. Qed.

(** *** Digit strings *)

Definition is_digit_Z (d : Z) : Prop := (0 <= d < 10)%Z.

Lemma digit_Z_cases d :
  is_digit_Z d -> d ∈ [0; 1; 2; 3; 4; 5; 6; 7; 8; 9]%Z.
Proof. unfold is_digit_Z. intros. rewrite !elem_of_cons. lia. Qed.

Lemma digit_value_char d : is_digit_Z d -> digit_value (digit_char d) = d.
Proof.
  intros Hd%digit_Z_cases. rewrite !elem_of_cons in Hd.
  destruct_or?; subst; try done. by apply not_elem_of_nil in Hd.
Qed.

Lemma digit_char_is_digit d : is_digit_Z d -> is_ascii_digit (digit_char d) = true.
Proof.
  intros Hd%digit_Z_cases. rewrite !elem_of_cons in Hd.
  destruct_or?; subst; try done. by apply not_elem_of_nil in Hd.
Qed.

Lemma value_of_digits_snoc acc l d :
  value_of_digits acc (l ++ [d])%list = (value_of_digits acc l * 10 + d)%Z.
Proof. unfold value_of_digits. by rewrite fold_left_app. Qed.

Lemma value_of_digits_bound l :
  Forall is_digit_Z l -> (0 <= value_of_digits 0 l < 10 ^ Z.of_nat (length l))%Z.
Proof.
  induction l as [|d l IH] using rev_ind; [by simpl|].
  rewrite Forall_app, Forall_singleton. intros [Hl Hd]. specialize (IH Hl).
  rewrite value_of_digits_snoc, length_app. simpl.
  rewrite Nat2Z.inj_add, Z.pow_add_r by lia. unfold is_digit_Z in Hd.
  change (10 ^ Z.of_nat 1)%Z with 10%Z. lia.
Qed.

Lemma digits_fuel_spec fuel n :
  (0 <= n < 10 ^ (Z.of_nat fuel + 1))%Z ->
  Forall is_digit_Z (digits_fuel fuel n)
  /\ value_of_digits 0 (rev (digits_fuel fuel n)) = n
  /\ digits_fuel fuel n <> [].
Proof.
  revert n. induction fuel as [|fuel IH]; intros n Hn.
  - simpl in *. unfold is_digit_Z. repeat split; try done. repeat constructor; lia.
  - simpl. destruct (Z.ltb_spec n 10).
    + repeat split; try done. repeat constructor; lia.
    + assert (Hdiv : (0 <= n / 10 < 10 ^ (Z.of_nat fuel + 1))%Z).
      { split; [apply Z.div_pos; lia|]. apply Z.div_lt_upper_bound; [lia|].
        rewrite <- Z.pow_succ_r by lia. replace (Z.succ _) with (Z.of_nat (S fuel) + 1)%Z by lia.
        lia. }
      destruct (IH _ Hdiv) as (H1 & H2 & H3). repeat split; try done.
      * constructor; [|done]. apply Z.mod_pos_bound. lia.
      * simpl. rewrite value_of_digits_snoc, H2.
        pose proof (Z.div_mod n 10). lia.
Qed.

Lemma digits_spec n :
  (0 <= n)%Z ->
  Forall is_digit_Z (digits n) /\ value_of_digits 0 (digits n) = n /\ digits n <> [].
Proof.
  intros Hn. unfold digits.
  destruct (digits_fuel_spec (Z.to_nat (Z.log2 n)) n) as (H1 & H2 & H3).
  { split; [done|]. rewrite Z2Nat.id by apply Z.log2_nonneg.
    destruct (Z.eq_dec n 0%Z) as [->|]; [done|].
    eapply Z.lt_le_trans; [apply Z.log2_spec; lia|].
    rewrite <- Z.add_1_r. apply Z.pow_le_mono_l. lia. }
  repeat split; [by apply Forall_rev|done|].
  intros H. apply (f_equal (@rev Z)) in H. by rewrite rev_involutive in H.
Qed.

(** The text of a sequence of digits. *)
Definition digit_text (l : list Z) : string := str_of (digit_char <$> l).

Lemma to_string_nonneg n : (0 <= n)%Z -> to_string n = digit_text (digits n).
Proof. intros. unfold to_string. by destruct (Z.ltb_spec n 0%Z); [lia|]. Qed.

Lemma digit_text_digits l :
  Forall is_digit_Z l -> all_chars is_ascii_digit (digit_text l) = true.
Proof.
  unfold all_chars, digit_text. rewrite String.list_ascii_of_string_of_list_ascii.
  induction 1; simpl; [done|]. by rewrite digit_char_is_digit.
Qed.

Lemma digit_text_len l : String.length (digit_text l) = length l.
Proof. unfold digit_text. induction l as [|d l IH]; csimpl; [done|]. by rewrite IH. Qed.

Lemma to_string_bound n : (0 <= n)%Z -> (n < 10 ^ str_len (to_string n))%Z.
Proof.
  intros Hn. rewrite to_string_nonneg by done. unfold str_len. rewrite digit_text_len.
  destruct (digits_spec n Hn) as (H1 & H2 & _).
  rewrite <- H2 at 1. by apply value_of_digits_bound.
Qed.

Lemma to_string_digits n :
  (0 <= n)%Z -> all_chars is_ascii_digit (to_string n) = true /\ to_string n <> "".
Proof.
  intros Hn. rewrite to_string_nonneg by done.
  destruct (digits_spec n Hn) as (H1 & _ & H3). split; [by apply digit_text_digits|].
  destruct (digits n); [done|]. done.
Qed.

Lemma parse_i64_range s v : parse_i64 s = Some v -> in_i64 v.
Proof.
  intros H. assert (Hz : exists z, checked_i64 z = Some v); [|destruct Hz as [z Hz]; by eapply checked_i64_range].
  destruct s as [|c rest]; [apply bind_Some in H as (? & _ & ?); eauto|].
  destruct c as [[] [] [] [] [] [] [] []]; apply bind_Some in H as (? & _ & ?); eauto.
Qed.

Lemma digit_text_value l : Forall is_digit_Z l -> digit_value <$> bytes_of (digit_text l) = l.
Proof.
  unfold digit_text. rewrite String.list_ascii_of_string_of_list_ascii.
  induction 1 as [|d l Hd _ IH]; csimpl; [done|]. by rewrite digit_value_char, IH.
Qed.

Lemma parse_unsigned_to_string n : (0 <= n)%Z -> parse_unsigned (to_string n) = Some n.
Proof.
  intros Hn. destruct (to_string_digits n Hn) as [Hd Hne]. unfold parse_unsigned. rewrite Hd.
  rewrite to_string_nonneg in * by done. destruct (digits_spec n Hn) as (H1 & H2 & _).
  rewrite digit_text_value, H2 by done. by destruct (digit_text (digits n)).
Qed.

Lemma parse_i64_to_string n : (0 <= n <= i64_max)%Z -> parse_i64 (to_string n) = Some n.
Proof.
  intros [Hlo Hhi]. destruct (to_string_digits n Hlo) as [Hd Hne]. pose proof (parse_unsigned_to_string n Hlo) as Hp.
  assert (Hc : checked_i64 n = Some n) by (apply checked_i64_small; unfold in_i64, i64_min; lia).
  destruct (to_string n) as [|c rest]; [done|]. unfold parse_i64.
  destruct c as [[] [] [] [] [] [] [] []]; try done; by rewrite Hp.
Qed.

(** A text of visible ASCII characters has nothing to trim. *)
Definition is_visible (c : ascii) : bool :=
  let n := Ascii.N_of_ascii c in ((33 <=? n) && (n <? 128))%N.

Lemma ws_len_visible a l : is_visible a = true -> ws_len (Ascii.N_of_ascii a :: l) = 0%nat.
Proof.
  unfold is_visible. intros [H1%N.leb_le H2%N.ltb_lt]%andb_true_iff. unfold ws_len.
  destruct l as [|b [|c l]]; repeat case_match; try done; exfalso;
    repeat match goal with
    | H : (_ || _) = true |- _ => apply orb_true_iff in H as [H|H]
    | H : (_ && _) = true |- _ => apply andb_true_iff in H as [? H]
    | H : (_ =? _)%N = true |- _ => apply N.eqb_eq in H
    | H : (_ <=? _)%N = true |- _ => apply N.leb_le in H
    end; lia.
Qed.

Lemma ws_len_rev_visible a l : is_visible a = true -> ws_len_rev (Ascii.N_of_ascii a :: l) = 0%nat.
Proof.
  intros Hv. unfold ws_len_rev.
  assert (H2 : forall b, ws_len [b; Ascii.N_of_ascii a] <> 2%nat).
  { unfold is_visible in Hv. apply andb_true_iff in Hv as [H1%N.leb_le H2%N.ltb_lt].
    intros b. unfold ws_len. repeat case_match; try done. intros _.
    repeat match goal with
    | H : (_ || _) = true |- _ => apply orb_true_iff in H as [H|H]
    | H : (_ && _) = true |- _ => apply andb_true_iff in H as [? H]
    | H : (_ =? _)%N = true |- _ => apply N.eqb_eq in H
    end; lia. }
  assert (H3 : forall b c, ws_len [c; b; Ascii.N_of_ascii a] <> 3%nat).
  { unfold is_visible in Hv. apply andb_true_iff in Hv as [H1%N.leb_le H3%N.ltb_lt].
    intros b c. unfold ws_len. repeat case_match; try done. intros _.
    repeat match goal with
    | H : (_ || _) = true |- _ => apply orb_true_iff in H as [H|H]
    | H : (_ && _) = true |- _ => apply andb_true_iff in H as [? H]
    | H : (_ =? _)%N = true |- _ => apply N.eqb_eq in H
    | H : (_ <=? _)%N = true |- _ => apply N.leb_le in H
    end; lia. }
  destruct l as [|b [|c l]]; rewrite !ws_len_visible by done; [done|..].
  - specialize (H2 b). by destruct (ws_len [b; Ascii.N_of_ascii a]) as [|[|[|]]].
  - specialize (H2 b). specialize (H3 b c).
    destruct (ws_len [b; Ascii.N_of_ascii a]) as [|[|[|]]]; try done;
      by destruct (ws_len [c; b; Ascii.N_of_ascii a]) as [|[|[|[|]]]].
Qed.

Lemma trim_edges s :
  (forall c, head (bytes_of s) = Some c -> is_visible c = true) ->
  (forall c, head (rev (bytes_of s)) = Some c -> is_visible c = true) ->
  trim s = s.
Proof.
  intros Hfirst Hlast.
  assert (Hstart : trim_start s = s).
  { unfold trim_start. destruct s as [|c s]; [done|]. simpl.
    rewrite ws_len_visible by (by apply Hfirst).
    simpl. by rewrite String.string_of_list_ascii_of_string. }
  unfold trim. rewrite Hstart. unfold trim_end.
  destruct (rev (bytes_of s)) as [|c l] eqn:E.
  - apply (f_equal (@rev ascii)) in E. rewrite rev_involutive in E. by destruct s.
  - simpl. rewrite ws_len_rev_visible by (by apply Hlast).
    change (rev l ++ [c])%list with (rev (c :: l)). rewrite <- E, rev_involutive.
    apply String.string_of_list_ascii_of_string.
Qed.

Lemma trim_visible s : all_chars is_visible s = true -> trim s = s.
Proof.
  unfold all_chars. intros Hv. rewrite forallb_forall in Hv.
  apply trim_edges; intros c Hc; apply Hv; [|apply in_rev].
  all: match goal with H : head ?l = _ |- _ => destruct l; [done|]; injection H as -> end; by left.
Qed.

Lemma digit_visible c : is_ascii_digit c = true -> is_visible c = true.
Proof.
  unfold is_ascii_digit, is_visible. rewrite !andb_true_iff, !N.leb_le, N.ltb_lt. lia.
Qed.

Lemma all_chars_weaken (p q : ascii -> bool) s :
  (forall c, p c = true -> q c = true) -> all_chars p s = true -> all_chars q s = true.
Proof. unfold all_chars. rewrite !forallb_forall. auto. Qed.

(** *** Lengths *)

Lemma digits_fuel_len fuel n k :
  (0 <= n < 10 ^ Z.of_nat (S k))%Z -> (length (digits_fuel fuel n) <= S k)%nat.
Proof.
  revert n k. induction fuel as [|fuel IH]; intros n k Hn; simpl; [lia|].
  destruct (Z.ltb_spec n 10); simpl; [lia|].
  destruct k as [|k].
  { change (10 ^ Z.of_nat 1)%Z with 10%Z in Hn. lia. }
  apply le_n_S, IH. split; [apply Z.div_pos; lia|].
  apply Z.div_lt_upper_bound; [lia|].
  rewrite <- Z.pow_succ_r by lia. rewrite <- Nat2Z.inj_succ. lia.
Qed.

Lemma to_string_len n k :
  (0 <= n < 10 ^ Z.of_nat (S k))%Z -> (str_len (to_string n) <= Z.of_nat (S k))%Z.
Proof.
  intros Hn. rewrite to_string_nonneg by lia. unfold str_len. rewrite digit_text_len.
  unfold digits. rewrite length_rev. pose proof (digits_fuel_len (Z.to_nat (Z.log2 n)) n k Hn). lia.
Qed.

Lemma split_once_Some sep s a b : split_once sep s = Some (a, b) -> s = a +:+ sep +:+ b.
Proof.
  revert a b. induction s as [|c s IH]; intros a b; simpl.
  - destruct (strip_prefix sep "") as [r|] eqn:E; [|done]. intros [= <- <-].
    by apply strip_prefix_Some in E.
  - destruct (strip_prefix sep (String c s)) as [r|] eqn:E.
    + intros [= <- <-]. by apply strip_prefix_Some in E.
    + destruct (split_once sep s) as [[a' b']|]; [|done]. intros [= <- <-].
      simpl. f_equal. by apply IH.
Qed.

Lemma trim_end_matches_len c s : (String.length (trim_end_matches c s) <= String.length s)%nat.
Proof.
  induction s as [|a s IH]; simpl; [done|]. case_match; simpl; lia.
Qed.

Lemma substring_len n m s : (String.length (String.substring n m s) <= String.length s)%nat.
Proof.
  revert n m. induction s as [|c s IH]; intros [|n] [|m]; simpl; try lia.
  - specialize (IH 0%nat m). lia.
  - specialize (IH n 0%nat). lia.
  - specialize (IH n (S m)). lia.
Qed.
