(* ===== verification/Json.v ===== *)
(** * Json: the JSON values the sources manipulate

    The public enum [serde_json::Value] and the documented accessors the
    sources call on it.  An object is a [BTreeMap<String, Value>] (the crate is
    built without [preserve_order]): an association list kept sorted by key by
    [obj_insert].  A number is an integer in the [i64]/[u64] range or a finite
    [f64] given by its bits.  [pointer] takes the tokens of the RFC 6901
    pointer: ["/metadata/uid"] is [["metadata"; "uid"]]. *)

From Stdlib Require Import Sorted.
From S2P Require Import Prelude Text.

Local Open Scope string_scope.
Local Open Scope rs_scope.

#[local] Set Warnings "-register-all".

Inductive Number :=
| NInt (z : Z)
| NFloat (bits : Z).

Inductive Value :=
| Null
| Bool (b : bool)
| Num (n : Number)
| Str (s : string)
| Array (l : list Value)
| Object (m : list (string * Value)).

Abbreviation Map := (list (string * Value)).

(** ** Objects *)

Fixpoint obj_get (k : string) (m : Map) : option Value :=
  match m with
  | [] => None
  | (k', v) :: m' => if k =?s k' then Some v else obj_get k m'
  end.

Definition obj_contains_key (k : string) (m : Map) : bool := opt_is_some (obj_get k m).

(** [Map::insert]: replaces the entry of an existing key, adds a new one at its
    place in key order. *)
Fixpoint obj_insert (k : string) (v : Value) (m : Map) : Map :=
  match m with
  | [] => [(k, v)]
  | (k', v') :: m' =>
      match String.compare k k' with
      | Eq => (k, v) :: m'
      | Lt => (k, v) :: m
      | Gt => (k', v') :: obj_insert k v m'
      end
  end.

Definition obj_remove (k : string) (m : Map) : Map :=
  filter (fun p => negb (k =?s p.1) = true) m.

(** [entry(k).or_insert(v)]. *)
Definition obj_or_insert (k : string) (v : Value) (m : Map) : Map :=
  if obj_contains_key k m then m else obj_insert k v m.

(** Keys strictly increasing, at the top and at every nested object. *)
Fixpoint keys_sorted (m : Map) : bool :=
  match m with
  | [] => true
  | (k, _) :: m' =>
      match m' with
      | [] => true
      | (k', _) :: _ => match String.compare k k' with Lt => keys_sorted m' | _ => false end
      end
  end.

(** ** Accessors *)

Definition as_object (v : Value) : option Map := match v with Object m => Some m | _ => None end.
Definition as_array (v : Value) : option (list Value) := match v with Array l => Some l | _ => None end.
Definition as_str (v : Value) : option string := match v with Str s => Some s | _ => None end.
Definition as_bool (v : Value) : option bool := match v with Bool b => Some b | _ => None end.
Definition as_i64 (v : Value) : option Z :=
  match v with
  | Num (NInt z) => if ((i64_min <=? z) && (z <=? i64_max))%Z then Some z else None
  | _ => None
  end.
Definition is_null (v : Value) : bool := match v with Null => true | _ => false end.
Definition is_object (v : Value) : bool := match v with Object _ => true | _ => false end.
Definition is_array (v : Value) : bool := match v with Array _ => true | _ => false end.

(** [Value::get] with a string index. *)
Definition get (k : string) (v : Value) : option Value := m ← as_object v; obj_get k m.

(** A pointer token used as an array index: digits without a leading zero. *)
Definition parse_index (s : string) : option nat :=
  if starts_with "+" s || (starts_with "0" s && negb (s =?s "0")) then None
  else Z.to_nat <$> parse_unsigned s.

Definition pointer_step (tok : string) (v : Value) : option Value :=
  match v with
  | Object m => obj_get tok m
  | Array l => i ← parse_index tok; l !! i
  | _ => None
  end.

Fixpoint pointer (toks : list string) (v : Value) : option Value :=
  match toks with
  | [] => Some v
  | t :: ts => v' ← pointer_step t v; pointer ts v'
  end.

(** [v.pointer(p).and_then(Value::as_str)]. *)
Definition pointer_str (toks : list string) (v : Value) : option string :=
  v' ← pointer toks v; as_str v'.

Definition pointer_array (toks : list string) (v : Value) : option (list Value) :=
  v' ← pointer toks v; as_array v'.

Definition pointer_object (toks : list string) (v : Value) : option Map :=
  v' ← pointer toks v; as_object v'.

(** [v.get(k).and_then(Value::as_str)]. *)
Definition get_str (k : string) (v : Value) : option string := v' ← get k v; as_str v'.
Definition get_array (k : string) (v : Value) : option (list Value) := v' ← get k v; as_array v'.

(** ** Equality *)

(** [f64] equality: the two zeros are equal, other finite values by their bits. *)
Definition float_zero (bits : Z) : bool := ((bits =? 0) || (bits =? 9223372036854775808))%Z.
Definition float_eqb (a b : Z) : bool := (a =? b)%Z || (float_zero a && float_zero b).

Definition number_eqb (a b : Number) : bool :=
  match a, b with
  | NInt x, NInt y => (x =? y)%Z
  | NFloat x, NFloat y => float_eqb x y
  | _, _ => false
  end.

Fixpoint value_eqb (a b : Value) {struct a} : bool :=
  match a, b with
  | Null, Null => true
  | Bool x, Bool y => Bool.eqb x y
  | Num x, Num y => number_eqb x y
  | Str x, Str y => x =?s y
  | Array x, Array y =>
      (fix go (x y : list Value) : bool :=
         match x, y with
         | [], [] => true
         | u :: x', w :: y' => value_eqb u w && go x' y'
         | _, _ => false
         end) x y
  | Object x, Object y =>
      (fix go (x y : Map) : bool :=
         match x, y with
         | [], [] => true
         | (k, u) :: x', (k', w) :: y' => (k =?s k') && value_eqb u w && go x' y'
         | _, _ => false
         end) x y
  | _, _ => false
  end.

(** ** Updating in place

    [v.get_mut(k)] followed by a write through the reference: the entry is
    rewritten when the value is an object that has the key. *)

Fixpoint obj_alter (f : Value -> Value) (k : string) (m : Map) : Map :=
  match m with
  | [] => []
  | (k', v) :: m' => if k =?s k' then (k', f v) :: m' else (k', v) :: obj_alter f k m'
  end.

Definition map_object (f : Map -> Map) (v : Value) : Value :=
  match v with Object m => Object (f m) | _ => v end.

Definition get_mut (k : string) (f : Value -> Value) (v : Value) : Value :=
  map_object (obj_alter f k) v.

(** ** Lemmas *)

Section Lemmas.

Lemma obj_get_insert_eq k v m : obj_get k (obj_insert k v m) = Some v.
Proof.
  induction m as [|[k' v'] m IH]; simpl; [by rewrite String.eqb_refl|].
  destruct (String.compare k k') eqn:Hc; simpl; rewrite ?String.eqb_refl; try done.
  destruct (k =?s k') eqn:E; [|done].
  apply String.eqb_eq in E. subst. by rewrite str_compare_refl in Hc.
Qed.

Lemma obj_get_insert_ne k k' v m : k <> k' -> obj_get k' (obj_insert k v m) = obj_get k' m.
Proof.
  intros Hne. induction m as [|[k1 v1] m IH]; simpl.
  - by rewrite (proj2 (String.eqb_neq k' k)).
  - destruct (String.compare k k1) eqn:Hc; simpl.
    + apply String.compare_eq_iff in Hc. subst.
      by rewrite (proj2 (String.eqb_neq k' k1)).
    + by rewrite (proj2 (String.eqb_neq k' k)).
    + by rewrite IH.
Qed.

Lemma obj_get_remove_eq k m : obj_get k (obj_remove k m) = None.
Proof.
  induction m as [|[k' v'] m IH]; simpl; [done|].
  unfold obj_remove in *. rewrite filter_cons. simpl.
  destruct (k =?s k') eqn:E; simpl; [done|]. by rewrite E.
Qed.

Lemma obj_get_remove_ne k k' m : k <> k' -> obj_get k' (obj_remove k m) = obj_get k' m.
Proof.
  intros Hne. induction m as [|[k1 v1] m IH]; simpl; [done|].
  unfold obj_remove in *. rewrite filter_cons. simpl.
  destruct (String.eqb_spec k k1); simpl.
  - subst. by rewrite (proj2 (String.eqb_neq k' k1)).
  - by rewrite IH.
Qed.

Lemma obj_get_alter_eq f k m : obj_get k (obj_alter f k m) = f <$> obj_get k m.
Proof.
  induction m as [|[k' v'] m IH]; simpl; [done|].
  destruct (k =?s k') eqn:E; simpl; by rewrite E.
Qed.

Lemma obj_get_alter_ne f k k' m : k <> k' -> obj_get k' (obj_alter f k m) = obj_get k' m.
Proof.
  intros Hne. induction m as [|[k1 v1] m IH]; simpl; [done|].
  destruct (String.eqb_spec k k1); simpl; [|by rewrite IH].
  subst. by rewrite (proj2 (String.eqb_neq k' k1)).
Qed.

Lemma obj_get_or_insert_eq k v m :
  obj_get k (obj_or_insert k v m) = Some (unwrap_or v (obj_get k m)).
Proof.
  unfold obj_or_insert, obj_contains_key.
  destruct (obj_get k m) eqn:E; simpl; [done|]. apply obj_get_insert_eq.
Qed.

Lemma obj_get_or_insert_ne k k' v m :
  k <> k' -> obj_get k' (obj_or_insert k v m) = obj_get k' m.
Proof.
  intros. unfold obj_or_insert. destruct (obj_contains_key k m); [done|].
  by apply obj_get_insert_ne.
Qed.

End Lemmas.

#[export] Hint Rewrite obj_get_insert_eq obj_get_remove_eq obj_get_alter_eq
  obj_get_or_insert_eq : klights.
#[export] Hint Rewrite obj_get_insert_ne obj_get_remove_ne obj_get_alter_ne
  obj_get_or_insert_ne using (done || congruence) : klights.

(** Induction that reaches the values nested in arrays and objects. *)
Section ValueInd.
Variable P : Value -> Prop.
Hypothesis HNull : P Null.
Hypothesis HBool : forall b, P (Bool b).
Hypothesis HNum : forall n, P (Num n).
Hypothesis HStr : forall s, P (Str s).
Hypothesis HArray : forall l, Forall P l -> P (Array l).
Hypothesis HObject : forall m, Forall (fun p => P p.2) m -> P (Object m).

Fixpoint value_ind_deep (v : Value) : P v :=
  match v with
  | Null => HNull
  | Bool b => HBool b
  | Num n => HNum n
  | Str s => HStr s
  | Array l =>
      HArray l ((fix go (l : list Value) : Forall P l :=
                   match l with
                   | [] => @Forall_nil_2 _ P
                   | x :: l' => @Forall_cons_2 _ P _ _ (value_ind_deep x) (go l')
                   end) l)
  | Object m =>
      HObject m ((fix go (m : Map) : Forall (fun p => P p.2) m :=
                    match m with
                    | [] => @Forall_nil_2 _ _
                    | x :: m' => @Forall_cons_2 _ (fun p => P p.2) _ _ (value_ind_deep x.2) (go m')
                    end) m)
  end.
End ValueInd.

Lemma number_eqb_refl n : number_eqb n n = true.
Proof. destruct n; simpl; unfold float_eqb; by rewrite Z.eqb_refl. Qed.

Lemma value_eqb_refl v : value_eqb v v = true.
Proof.
  induction v as [| | | |l IH|m IH] using value_ind_deep; simpl.
  - done.
  - apply eqb_reflx.
  - apply number_eqb_refl.
  - apply String.eqb_refl.
  - induction IH as [|x l Hx _ IHl]; simpl; [done|]. by rewrite Hx, IHl.
  - induction IH as [|[k x] m Hx _ IHm]; simpl in *; [done|].
    by rewrite String.eqb_refl, Hx, IHm.
Qed.

Lemma value_eqb_sym a b : value_eqb a b = value_eqb b a.
Proof.
  revert b. induction a as [| | [] | |l IH|m IH] using value_ind_deep;
    intros [|?|[]|?|l'|m']; simpl; try done.
  - by destruct b, b0.
  - apply Z.eqb_sym.
  - unfold float_eqb. by rewrite Z.eqb_sym, andb_comm.
  - apply String.eqb_sym.
  - revert l'. induction IH as [|x l Hx _ IHl]; intros [|y l']; simpl; try done.
    by rewrite Hx, IHl.
  - revert m'. induction IH as [|[k x] m Hx _ IHm]; intros [|[k' y] m']; simpl in *; try done.
    by rewrite Hx, IHm, String.eqb_sym.
Qed.

(** Equality of the serialised bytes: unlike [value_eqb] it tells the two zeros
    apart. *)
Fixpoint value_same (a b : Value) {struct a} : bool :=
  match a, b with
  | Null, Null => true
  | Bool x, Bool y => Bool.eqb x y
  | Num (NInt x), Num (NInt y) => (x =? y)%Z
  | Num (NFloat x), Num (NFloat y) => (x =? y)%Z
  | Str x, Str y => x =?s y
  | Array x, Array y =>
      (fix go (x y : list Value) : bool :=
         match x, y with
         | [], [] => true
         | u :: x', w :: y' => value_same u w && go x' y'
         | _, _ => false
         end) x y
  | Object x, Object y =>
      (fix go (x y : Map) : bool :=
         match x, y with
         | [], [] => true
         | (k, u) :: x', (k', w) :: y' => (k =?s k') && value_same u w && go x' y'
         | _, _ => false
         end) x y
  | _, _ => false
  end.

Lemma value_same_eq a b : value_same a b = true <-> a = b.
Proof.
  revert b. induction a as [| |[] | |l IH|m IH] using value_ind_deep; intros [|?|[]|?|l'|m']; cbn; try done.
  - rewrite eqb_true_iff. naive_solver.
  - rewrite Z.eqb_eq. naive_solver.
  - rewrite Z.eqb_eq. naive_solver.
  - rewrite String.eqb_eq. naive_solver.
  - revert l'. induction IH as [|x l Hx _ IHl]; intros [|y l']; try done.
    rewrite andb_true_iff, Hx, IHl. naive_solver.
  - revert m'. induction IH as [|[k x] m Hx _ IHm]; intros [|[k' y] m']; try done.
    rewrite !andb_true_iff, String.eqb_eq, Hx, IHm. cbn. naive_solver.
Qed.

#[export] Instance value_eq_dec : EqDecision Value.
Proof. intros a b. refine (cast_if (decide (value_same a b = true))); by rewrite <- value_same_eq. Defined.

(** ** Sorted objects

    A [serde_json::Map] iterates its keys in order, so two maps are equal when
    they have as many entries and every entry of one is found in the other. *)

Section SortedObjects.

Definition key_lt (a b : string) : Prop := String.compare a b = Lt.
Definition obj_sorted (m : Map) : Prop := StronglySorted key_lt m.*1.

#[local] Instance key_lt_trans : Transitive key_lt.
Proof. intros a b c. apply str_compare_trans. Qed.

Lemma key_lt_irrefl a : ~ key_lt a a.
Proof. unfold key_lt. by rewrite str_compare_refl. Qed.

Lemma keys_sorted_obj_sorted m : keys_sorted m = true -> obj_sorted m.
Proof.
  intros H. apply Sorted_StronglySorted; [exact key_lt_trans|].
  induction m as [|[k v] [|[k' v'] m] IH]; [constructor|by repeat constructor|].
  simpl in H. destruct (String.compare k k') eqn:E; try done.
  constructor; [by apply IH|by constructor].
Qed.

Lemma obj_sorted_cons k v m :
  obj_sorted ((k, v) :: m) <-> Forall (key_lt k) m.*1 /\ obj_sorted m.
Proof.
  unfold obj_sorted. split; [|by intros []; constructor].
  inversion_clear 1. done.
Qed.

Lemma obj_sorted_NoDup m : obj_sorted m -> NoDup m.*1.
Proof.
  induction m as [|[k v] m IH]; [constructor|]. intros [Hk Hm]%obj_sorted_cons.
  constructor; [|by apply IH]. intros Hin.
  rewrite Forall_forall in Hk. by apply Hk, key_lt_irrefl in Hin.
Qed.

Lemma obj_sorted_remove k m : obj_sorted m -> obj_sorted (obj_remove k m).
Proof.
  unfold obj_remove. induction m as [|[k' v] m IH]; [done|].
  intros [Hk Hm]%obj_sorted_cons. rewrite filter_cons. simpl.
  destruct (decide _); [|by apply IH]. apply obj_sorted_cons. split; [|by apply IH].
  rewrite Forall_forall in Hk |- *. intros x (y & -> & Hy)%list_elem_of_fmap.
  apply list_elem_of_filter in Hy as [_ Hy]. apply Hk, list_elem_of_fmap. eauto.
Qed.

Lemma obj_get_None m k : obj_get k m = None <-> k ∉ m.*1.
Proof.
  induction m as [|[k' v] m IH]; simpl; [by split; [intros _ ?%elem_of_nil|]|].
  rewrite elem_of_cons. destruct (String.eqb_spec k k') as [ -> |Hne].
  - split; [done|]. intros H. destruct H. by left.
  - rewrite IH. split; [by intros ? [ |]|]. intros H ?. apply H. by right.
Qed.

Lemma obj_get_is_Some m k : is_Some (obj_get k m) <-> k ∈ m.*1.
Proof.
  rewrite <- not_eq_None_Some, obj_get_None. destruct (decide (k ∈ m.*1)); naive_solver.
Qed.

(** Entry by entry, in order. *)
Fixpoint entries_eqb (eqb : string -> Value -> Value -> bool) (x y : Map) : bool :=
  match x, y with
  | [], [] => true
  | (k, u) :: x', (k', w) :: y' => (k =?s k') && eqb k u w && entries_eqb eqb x' y'
  | _, _ => false
  end.

(** By length and lookup. *)
Definition lookups_eqb (eqb : string -> Value -> Value -> bool) (x y : Map) : bool :=
  (length x =? length y)%nat &&
  forallb (fun '(k, u) => match obj_get k y with Some w => eqb k u w | None => false end) x.

Lemma value_eqb_object x y :
  value_eqb (Object x) (Object y) = entries_eqb (fun _ => value_eqb) x y.
Proof.
  revert y. induction x as [|[k u] x IH]; intros [|[k' w] y]; try done.
  cbn [entries_eqb]. by rewrite <- IH.
Qed.

Lemma entries_eqb_ext eqb eqb' x y :
  (forall k u w, (k, u) ∈ x -> (k, w) ∈ y -> eqb k u w = eqb' k u w) ->
  entries_eqb eqb x y = entries_eqb eqb' x y.
Proof.
  revert y. induction x as [|[k u] x IH]; intros [|[k' w] y] H; simpl; try done.
  rewrite (IH y) by (intros; apply H; by right).
  destruct (String.eqb_spec k k') as [ -> |]; [|done]. simpl. rewrite H; by try left.
Qed.

Lemma obj_get_elem m k v : obj_sorted m -> (k, v) ∈ m -> obj_get k m = Some v.
Proof.
  induction m as [|[k' v'] m IH]; [by intros _ ?%elem_of_nil|].
  intros [Hk Hm]%obj_sorted_cons [[= <- <-]|Hin]%elem_of_cons; simpl.
  - by rewrite String.eqb_refl.
  - destruct (String.eqb_spec k k') as [ -> |]; [|by apply IH].
    rewrite Forall_forall in Hk. destruct (key_lt_irrefl k').
    apply Hk, list_elem_of_fmap. by exists (k', v).
Qed.

Lemma entries_eqb_alter g k x y :
  obj_sorted x -> obj_sorted y ->
  entries_eqb (fun _ => value_eqb) (obj_alter g k x) (obj_alter g k y) =
  entries_eqb (fun k' u w => if k' =?s k then value_eqb (g u) (g w) else value_eqb u w) x y.
Proof.
  revert y. induction x as [|[k1 u] x IH]; intros [|[k2 w] y] Hx Hy; cbn [obj_alter entries_eqb].
  - done.
  - by destruct (k =?s k2).
  - by destruct (k =?s k1).
  - apply obj_sorted_cons in Hx as [Hkx Hx], Hy as [Hky Hy].
    rewrite (String.eqb_sym k k1), (String.eqb_sym k k2).
    destruct (String.eqb_spec k1 k2) as [ <- |Hne].
    + destruct (String.eqb_spec k1 k) as [ -> |Hk]; cbn [entries_eqb]; rewrite String.eqb_refl.
      * f_equal. apply entries_eqb_ext. intros k' u' w' Hin _.
        destruct (String.eqb_spec k' k) as [ -> |]; [|done].
        rewrite Forall_forall in Hkx. destruct (key_lt_irrefl k).
        apply Hkx, list_elem_of_fmap. by exists (k, u').
      * by rewrite IH.
    + destruct (k1 =?s k), (k2 =?s k); cbn [entries_eqb];
        by rewrite (proj2 (String.eqb_neq k1 k2)).
Qed.

Lemma forallb_ext {A} (p q : A -> bool) l : (forall x, p x = q x) -> forallb p l = forallb q l.
Proof. intros H. induction l as [|x l IH]; simpl; [done|]. by rewrite H, IH. Qed.

Lemma lookups_skip (eqb : string -> Value -> Value -> bool) k w (x y : Map) :
  Forall (key_lt k) x.*1 ->
  forallb (fun '(k', u) => match obj_get k' ((k, w) :: y) with Some w' => eqb k' u w' | None => false end) x =
  forallb (fun '(k', u) => match obj_get k' y with Some w' => eqb k' u w' | None => false end) x.
Proof.
  induction x as [|[k' u] x IH]; [done|]. intros [Hk Hx]%Forall_cons.
  cbn [forallb]. rewrite IH by done. cbn [obj_get].
  destruct (String.eqb_spec k' k) as [ -> |]; [by apply key_lt_irrefl in Hk|done].
Qed.

Lemma lookups_subset (eqb : string -> Value -> Value -> bool) (x y : Map) :
  forallb (fun '(k, u) => match obj_get k y with Some w => eqb k u w | None => false end) x = true ->
  x.*1 ⊆ y.*1.
Proof.
  rewrite forallb_forall. intros H k ([k' u] & -> & Hin)%list_elem_of_fmap.
  apply list_elem_of_In, H in Hin. apply obj_get_is_Some. simpl in *.
  by destruct (obj_get k' y).
Qed.

Lemma entries_lookups_eqb eqb x y :
  obj_sorted x -> obj_sorted y -> lookups_eqb eqb x y = entries_eqb eqb x y.
Proof.
  revert y. induction x as [|[k u] x IH]; intros [|[k' w] y] Hx Hy; try done.
  pose proof Hx as [Hkx Hx']%obj_sorted_cons. pose proof Hy as [Hky Hy']%obj_sorted_cons.
  cbn [entries_eqb]. destruct (String.eqb_spec k k') as [ -> |Hne].
  - rewrite <- IH by done. unfold lookups_eqb. cbn [length forallb].
    rewrite lookups_skip by done. cbn [obj_get]. rewrite String.eqb_refl. simpl.
    by destruct (length x =? length y)%nat, (eqb k' u w).
  - simpl. apply not_true_is_false.
    intros [Hlen Hall]%andb_true_iff. apply Nat.eqb_eq in Hlen.
    pose proof (lookups_subset _ _ _ Hall) as Hsub.
    (* the smaller of the two head keys is missing on the other side *)
    assert (Hlt : key_lt k' k).
    { assert (Hk : k ∈ ((k', w) :: y).*1) by (apply Hsub; left).
      apply elem_of_cons in Hk as [ |Hk]; [done|]. rewrite Forall_forall in Hky. by apply Hky. }
    assert (Hsub' : ((k, u) :: x).*1 ⊆ y.*1).
    { intros a Ha. pose proof (Hsub a Ha) as [ -> |]%elem_of_cons; [|done].
      simpl in Ha. apply elem_of_cons in Ha as [ |Ha]; [done|].
      rewrite Forall_forall in Hkx. apply Hkx in Ha.
      destruct (key_lt_irrefl k). by transitivity k'. }
    apply NoDup_submseteq in Hsub'; [|by apply obj_sorted_NoDup].
    apply submseteq_length in Hsub'. rewrite !length_fmap in Hsub'. simpl in *. lia.
Qed.

End SortedObjects.
