(* ===== verification/Apply.v ===== *)
(** * Resource-apply decisions

    [klights-cluster-core/src/apply.rs]: the precondition check every
    persistence adapter runs before a mutation, the no-op decisions of PUT,
    DELETE and stamped status writes, and the two body comparisons behind them.

    The theorems: the precondition check accepts exactly the states that meet
    every stated requirement, and the comparison that skips a metadata field
    without cloning agrees with removing the field from both bodies and
    comparing the results. *)

From S2P Require Import Prelude Text Json.

Local Open Scope string_scope.
Local Open Scope rs_scope.

(** ** Preconditions *)

Record ApplyPreconditions := mkApplyPreconditions {
  require_absent : bool;
  require_existing : bool;
  ap_uid : option string;
  ap_resource_version : option Z
}.

Definition default_apply_preconditions : ApplyPreconditions :=
  mkApplyPreconditions false false None None.

(** The guards a client states for one object. *)
Record ResourcePreconditions := mkPreconditions {
  pre_uid : option string; pre_resource_version : option Z
}.

Record CurrentResourceState := mkCurrentResourceState {
  cs_uid : option string;
  cs_resource_version : Z
}.

Inductive ApplyPreconditionViolation :=
| AlreadyExists
| NotFound
| UidViolation (expected : string) (actual : option string)
| ResourceVersionViolation (expected actual : Z).

#[export] Instance ApplyPreconditions_eq_dec : EqDecision ApplyPreconditions.
Proof. solve_decision. Defined.
#[export] Instance CurrentResourceState_eq_dec : EqDecision CurrentResourceState.
Proof. solve_decision. Defined.
#[export] Instance ApplyPreconditionViolation_eq_dec : EqDecision ApplyPreconditionViolation.
Proof. solve_decision. Defined.

Definition violation_to_string (v : ApplyPreconditionViolation) : string :=
  match v with
  | AlreadyExists => "resource already exists"
  | NotFound => "resource not found"
  | UidViolation expected actual =>
      "UID precondition failed: expected " +:+ expected +:+ " got " +:+
      unwrap_or "<missing>" actual
  | ResourceVersionViolation expected actual =>
      "resourceVersion precondition failed: expected " +:+ to_string expected +:+
      " got " +:+ to_string actual
  end.

Definition validate_apply_preconditions (preconditions : ApplyPreconditions)
    (current : option CurrentResourceState) : result ApplyPreconditionViolation unit :=
  if require_absent preconditions && opt_is_some current then Err AlreadyExists
  else if require_existing preconditions && negb (opt_is_some current) then Err NotFound
  else
    match current with
    | None => Ok tt
    | Some current =>
        try?
          match ap_uid preconditions with
          | Some expected =>
              if negb (cs_uid current =?os Some expected)
              then Err (UidViolation expected (cs_uid current)) else Ok tt
          | None => Ok tt
          end in
        match ap_resource_version preconditions with
        | Some expected =>
            if negb (cs_resource_version current =? expected)%Z
            then Err (ResourceVersionViolation expected (cs_resource_version current)) else Ok tt
        | None => Ok tt
        end
    end.

(** ** Write and delete decisions *)

Inductive ResourceEventType := Added | Modified | Deleted.

Definition event_type_as_str (t : ResourceEventType) : string :=
  match t with Added => "ADDED" | Modified => "MODIFIED" | Deleted => "DELETED" end.

Inductive ResourceWriteDecision := WriteNoOp | Write (t : ResourceEventType).
Inductive ResourceDeleteDecision := DeleteNoOp | Delete (t : ResourceEventType).
Inductive StatusStampDecision := ApplyResourceMutation | RecordLedgerOnly.

Definition decide_resource_put (resource_exists same_resource_version_and_body : bool)
    : ResourceWriteDecision :=
  if resource_exists && same_resource_version_and_body then WriteNoOp
  else if resource_exists then Write Modified
  else Write Added.

Definition decide_resource_delete (requested_uid : option string)
    (expected_resource_version : option Z) (current : option CurrentResourceState)
    : result ApplyPreconditionViolation ResourceDeleteDecision :=
  match current with
  | None => Ok DeleteNoOp
  | Some current =>
      let other_uid :=
        match requested_uid with
        | Some uid => negb (uid =?s "") && negb (cs_uid current =?os Some uid)
        | None => false
        end in
      if other_uid then Ok DeleteNoOp
      else
        try? validate_apply_preconditions
               (mkApplyPreconditions false false None expected_resource_version)
               (Some current) in
        Ok (Delete Deleted)
  end.

Definition decide_status_stamp (last_applied_stamp incoming_stamp : option Z)
    : StatusStampDecision :=
  match last_applied_stamp, incoming_stamp with
  | Some last, Some incoming =>
      if (0 <? incoming)%Z && (incoming <=? last)%Z then RecordLedgerOnly
      else ApplyResourceMutation
  | _, _ => ApplyResourceMutation
  end.

(** ** Body comparison *)

(** Rust [len], [iter().all] and [get] on the two sorted maps. *)
Definition objects_equal_ignoring_key (left right : Value) (key : string) : bool :=
  match left, right with
  | Object lm, Object rm =>
      let left_count := length (filter (fun c => negb (c =?s key) = true) lm.*1) in
      let right_count := length (filter (fun c => negb (c =?s key) = true) rm.*1) in
      (left_count =? right_count)%nat &&
      forallb (fun '(candidate, value) =>
        (candidate =?s key) ||
        match obj_get candidate rm with
        | Some other => value_eqb other value
        | None => false
        end) lm
  | _, _ => value_eqb left right
  end.

Definition resource_bodies_equal_ignoring_metadata_field (left right : Value)
    (metadata_field : string) : bool :=
  match left, right with
  | Object lm, Object rm =>
      if negb (length lm =? length rm)%nat then false
      else
        forallb (fun '(key, left_value) =>
          match obj_get key rm with
          | Some right_value =>
              if key =?s "metadata"
              then objects_equal_ignoring_key left_value right_value metadata_field
              else value_eqb left_value right_value
          | None => false
          end) lm
  | _, _ => value_eqb left right
  end.

Definition server_metadata_keys : list string :=
  [ "resourceVersion"; "uid"; "creationTimestamp"; "generation"; "deletionTimestamp";
    "deletionGracePeriodSeconds"; "managedFields" ].

Definition strip_status_and_server_metadata (value : Value) : Value :=
  match value with
  | Object object =>
      let object := obj_remove "status" object in
      Object (obj_alter
        (map_object (fun metadata =>
           fold_left (fun m key => obj_remove key m) server_metadata_keys metadata))
        "metadata" object)
  | _ => value
  end.

Definition resource_client_owned_state_equal (left right : Value) : bool :=
  value_eqb (strip_status_and_server_metadata left) (strip_status_and_server_metadata right).

(** ** Theorems *)

(** What a precondition asks of the live state, requirement by requirement. *)
Definition preconditions_hold (p : ApplyPreconditions) (current : option CurrentResourceState) : Prop :=
  (require_absent p = true -> current = None) /\
  (require_existing p = true -> is_Some current) /\
  (forall c u, current = Some c -> ap_uid p = Some u -> cs_uid c = Some u) /\
  (forall c rv, current = Some c -> ap_resource_version p = Some rv -> cs_resource_version c = rv).

Lemma os_eqb_spec (a : option string) b : (a =?os Some b) = true <-> a = Some b.
Proof.
  destruct a as [a|]; simpl; [|done]. rewrite String.eqb_eq.
  split; [by intros -> |by intros [= ->]].
Qed.

Lemma validate_apply_preconditions_ok p current :
  validate_apply_preconditions p current = Ok tt <-> preconditions_hold p current.
Proof.
  destruct p as [ra re u rv]. unfold validate_apply_preconditions, preconditions_hold. simpl.
  destruct current as [c|]; simpl.
  2: { rewrite andb_false_r. destruct re; simpl; [|by repeat split].
       split; [done|]. intros (_ & H & _). by destruct (H eq_refl). }
  rewrite andb_true_r, andb_false_r. destruct ra; simpl.
  { split; [done|]. intros [H _]. by specialize (H eq_refl). }
  transitivity ((forall x, u = Some x -> cs_uid c = Some x) /\
                (forall x, rv = Some x -> cs_resource_version c = x)); [|naive_solver].
  destruct u as [u|]; simpl.
  - destruct (cs_uid c =?os Some u) eqn:E; simpl.
    + apply os_eqb_spec in E. destruct rv as [rv|]; simpl; [|naive_solver].
      destruct (Z.eqb_spec (cs_resource_version c) rv); simpl; naive_solver.
    + split; [done|]. intros [H _]. by rewrite (proj2 (os_eqb_spec _ _) (H u eq_refl)) in E.
  - destruct rv as [rv|]; simpl; [|naive_solver].
    destruct (Z.eqb_spec (cs_resource_version c) rv); simpl; naive_solver.
Qed.

(** Removing the field from [metadata], the plain reference of the comparison. *)
Definition without_metadata_field (field : string) : Value -> Value :=
  get_mut "metadata" (map_object (obj_remove field)).

(** The body and its [metadata] are maps: their keys are in order. *)
Definition body_sorted (v : Value) : bool :=
  match v with
  | Object m =>
      keys_sorted m &&
      match obj_get "metadata" m with Some (Object n) => keys_sorted n | _ => true end
  | _ => true
  end.

Definition value_sorted (v : Value) : bool := match v with Object m => keys_sorted m | _ => true end.

Lemma filter_keys_length key (m : Map) :
  length (filter (fun c => negb (c =?s key) = true) m.*1) = length (obj_remove key m).
Proof.
  unfold obj_remove. induction m as [|[k v] m IH]; [done|].
  cbn [fmap list_fmap fst]. rewrite !filter_cons. cbn [fst]. rewrite (String.eqb_sym key k).
  destruct (decide _); cbn [length]; by rewrite IH.
Qed.

Lemma forallb_remove (p : string * Value -> bool) key m :
  forallb (fun e => (e.1 =?s key) || p e) m = forallb p (obj_remove key m).
Proof.
  unfold obj_remove. induction m as [|[k v] m IH]; [done|].
  rewrite filter_cons. cbn [forallb fst]. rewrite (String.eqb_sym key k), IH.
  by destruct (k =?s key) eqn:E; simpl.
Qed.

Lemma objects_equal_ignoring_key_ref left right key :
  value_sorted left = true -> value_sorted right = true ->
  objects_equal_ignoring_key left right key =
  value_eqb (map_object (obj_remove key) left) (map_object (obj_remove key) right).
Proof.
  destruct left as [| | | | |lm], right as [| | | | |rm]; try done.
  intros Hl%keys_sorted_obj_sorted Hr%keys_sorted_obj_sorted.
  cbn [map_object]. rewrite value_eqb_object, <- entries_lookups_eqb
    by by apply obj_sorted_remove.
  unfold objects_equal_ignoring_key, lookups_eqb. rewrite !filter_keys_length. f_equal.
  rewrite <- forallb_remove. apply forallb_ext. intros [k v]. cbn [fst].
  destruct (String.eqb_spec k key); [done|]. rewrite obj_get_remove_ne by done.
  destruct (obj_get k rm); [apply value_eqb_sym|done].
Qed.

(** Comparing two bodies while skipping one [metadata] field, without
    copying either body, gives the same answer as removing the field from both
    and comparing what is left: on every pair of bodies, objects or not, with
    or without [metadata], whatever type [metadata] has. *)
Theorem bodies_equal_reference left right field :
  body_sorted left = true -> body_sorted right = true ->
  resource_bodies_equal_ignoring_metadata_field left right field =
  value_eqb (without_metadata_field field left) (without_metadata_field field right).
Proof.
  destruct left as [| | | | |lm], right as [| | | | |rm]; try done.
  intros [Hl Hlm]%andb_true_iff [Hr Hrm]%andb_true_iff.
  apply keys_sorted_obj_sorted in Hl, Hr.
  unfold without_metadata_field, get_mut. cbn [map_object].
  rewrite value_eqb_object, entries_eqb_alter by done.
  transitivity (lookups_eqb (fun k u w =>
    if k =?s "metadata" then objects_equal_ignoring_key u w field else value_eqb u w) lm rm).
  { unfold resource_bodies_equal_ignoring_metadata_field, lookups_eqb.
    by destruct (length lm =? length rm)%nat. }
  rewrite entries_lookups_eqb by done. apply entries_eqb_ext. intros k u w Hu Hw.
  destruct (String.eqb_spec k "metadata") as [ -> |]; [|done].
  rewrite (obj_get_elem _ _ _ Hl Hu) in Hlm. rewrite (obj_get_elem _ _ _ Hr Hw) in Hrm.
  by apply objects_equal_ignoring_key_ref.
Qed.

Definition body_at_rv (rv : string) : Value :=
  Object [("kind", Str "ConfigMap");
          ("metadata", Object [("name", Str "a"); ("resourceVersion", Str rv)])].

Lemma bodies_equal_reference_witness :
  resource_bodies_equal_ignoring_metadata_field (body_at_rv "1") (body_at_rv "2") "resourceVersion" =
  value_eqb (without_metadata_field "resourceVersion" (body_at_rv "1"))
            (without_metadata_field "resourceVersion" (body_at_rv "2")) /\
  resource_bodies_equal_ignoring_metadata_field (body_at_rv "1") (body_at_rv "2") "resourceVersion" = true /\
  resource_bodies_equal_ignoring_metadata_field (body_at_rv "1") (body_at_rv "2") "uid" = false.
Proof.
  split; [apply bodies_equal_reference; reflexivity|]. split; vm_compute; reflexivity.
Defined.
