(* ===== verification/KeyCodec.v ===== *)
(** * The redb key codecs

    [klights-cluster-datastore/src/redb]: the ordered byte keys of the resource
    tables ([key_codec.rs]), of the identity and owner indexes
    ([mutation_helpers.rs]) and of the outbox watermarks
    ([live_committed_apply.rs]).

    A byte sequence is a [string] and redb's key order is [String.compare], the
    unsigned lexicographic order.  A Rust [str] is a byte sequence that
    satisfies [utf8_valid], the rule of [std::str::from_utf8].

    The theorems: resource keys decode to the identity they encode and never
    collide (up to the 255-byte limit of a component, beyond which they do); a
    range scan from a prefix to its [lex_next] reads exactly the resources of
    that prefix; the NUL-separated keys order as the tuples they encode. *)

From S2P Require Import Prelude Text.

Local Open Scope string_scope.
Local Open Scope rs_scope.

(** ** Bytes *)

Definition byte_val (c : ascii) : Z := Z.of_N (Ascii.N_of_ascii c).
Definition byte_of (z : Z) : ascii := Ascii.ascii_of_N (Z.to_N z).
Definition NUL : ascii := Ascii.zero.

(** [&s[..n]] of a slice, with the rest; [None] when the slice is too short. *)
Fixpoint split_bytes (n : nat) (s : string) : option (string * string) :=
  match n, s with
  | O, _ => Some ("", s)
  | S n', String c s' => '(a, b) ← split_bytes n' s'; Some (String c a, b)
  | S _, EmptyString => None
  end.

Fixpoint take_bytes (n : nat) (s : string) : string :=
  match n, s with
  | O, _ | _, EmptyString => ""
  | S n', String c s' => String c (take_bytes n' s')
  end.

Definition between (lo hi : Z) (c : ascii) : bool := (lo <=? byte_val c)%Z && (byte_val c <=? hi)%Z.

(** [std::str::from_utf8]: the well-formed byte sequences of the Unicode
    standard (no overlong forms, no surrogates, at most U+10FFFF). *)
Fixpoint utf8_valid (s : string) : bool :=
  let cont := between 128 191 in
  match s with
  | EmptyString => true
  | String a s1 =>
      if between 0 127 a then utf8_valid s1
      else
        match s1 with
        | EmptyString => false
        | String b s2 =>
            if between 194 223 a then cont b && utf8_valid s2
            else
              match s2 with
              | EmptyString => false
              | String c s3 =>
                  if between 224 239 a then
                    (if byte_val a =? 224 then between 160 191 b
                     else if byte_val a =? 237 then between 128 159 b
                     else cont b)%Z && cont c && utf8_valid s3
                  else
                    match s3 with
                    | EmptyString => false
                    | String d s4 =>
                        between 240 244 a &&
                        (if byte_val a =? 240 then between 144 191 b
                         else if byte_val a =? 244 then between 128 143 b
                         else cont b)%Z && cont c && cont d && utf8_valid s4
                    end
              end
        end
  end.

(** ** Resource keys ([key_codec.rs]) *)

Definition push_str (buf s : string) : string :=
  let len := Nat.min (String.length s) 255 in
  buf +:+ String (byte_of (Z.of_nat len)) (take_bytes len s).

Definition resource_prefix (av kind : string) (ns : option string) : string :=
  let buf := push_str "" av in
  let buf := push_str buf kind in
  match ns with Some ns => push_str buf ns | None => buf end.

Definition resource_key (av kind : string) (ns : option string) (name : string) : string :=
  let buf := push_str "" av in
  let buf := push_str buf kind in
  let buf := match ns with Some ns => push_str buf ns | None => buf end in
  push_str buf name.

Definition pop_str (data : string) : option (string * string) :=
  match data with
  | EmptyString => None
  | String len rest =>
      '(s, rest) ← split_bytes (Z.to_nat (byte_val len)) rest;
      if utf8_valid s then Some (s, rest) else None
  end.

Definition decode_resource_key (key : string) (namespaced : bool)
    : option (string * string * option string * string) :=
  '(av, rest) ← pop_str key;
  '(kind, rest) ← pop_str rest;
  '(ns, rest) ← (if namespaced then '(ns, rest) ← pop_str rest; Some (Some ns, rest)
                 else Some (None, rest));
  '(name, _) ← pop_str rest;
  Some (av, kind, ns, name).

(** [overflowing_add(1)] from the last byte, carrying while a byte overflows. *)
Fixpoint increment (key : string) : string * bool :=
  match key with
  | EmptyString => ("", true)
  | String c key' =>
      let '(v, carry) := increment key' in
      if carry
      then (String (byte_of ((byte_val c + 1) mod 256)%Z) v, (byte_val c =? 255)%Z)
      else (String c v, false)
  end.

Definition lex_next (key : string) : option string :=
  let '(v, overflow) := increment key in
  if overflow then None else Some v.

(** ** Index keys ([mutation_helpers.rs]) *)

Definition push_nul (buf component : string) : string := buf +:+ component +:+ String NUL "".

Definition resource_current_identity_key (api_version kind : string) (namespace : option string)
    (name : string) : string :=
  let key := if opt_is_some namespace then "N" else "C" in
  fold_left push_nul [api_version; kind; unwrap_or "" namespace; name] key.

Definition owner_ref_key (uid av kind : string) (ns : option string) (name : string) : string :=
  let key := uid +:+ String NUL "" in
  let key := key +:+ String (byte_of (if opt_is_some ns then 1 else 0)) "" in
  let key := key +:+ av +:+ String NUL "" in
  let key := key +:+ kind +:+ String NUL "" in
  let key := key +:+ unwrap_or "" ns in
  let key := key +:+ String NUL "" in
  key +:+ name.

(** ** Outbox watermark keys ([live_committed_apply.rs])

    Error texts are kept up to the detail [from_utf8] appends to its own. *)

Record OutboxStreamWatermark := mkWatermark {
  wm_client_id : string;
  wm_stream_id : Z;
  wm_stream_seq : Z
}.

#[export] Instance OutboxStreamWatermark_eq_dec : EqDecision OutboxStreamWatermark.
Proof. solve_decision. Defined.

(** [u64::to_be_bytes] and [u64::from_be_bytes]. *)
Fixpoint be_bytes (n : nat) (z : Z) : string :=
  match n with
  | O => ""
  | S n' => String (byte_of (Z.shiftr z (8 * Z.of_nat n') mod 256)) (be_bytes n' z)
  end.

Fixpoint from_be_bytes (acc : Z) (s : string) : Z :=
  match s with
  | EmptyString => acc
  | String c s' => from_be_bytes (256 * acc + byte_val c) s'
  end.

Definition has_nul (s : string) : bool := any_char (Ascii.eqb NUL) s.

Definition outbox_watermark_key (client_id : string) (stream_id : Z) : result string string :=
  if is_empty client_id || has_nul client_id || (stream_id <=? 0)%Z then
    Err "outbox watermark requires a non-empty NUL-free client ID and positive stream ID"
  else Ok (client_id +:+ String NUL (be_bytes 8 stream_id)).

Definition decode_outbox_watermark_key (key : string) (stream_seq : Z)
    : result string OutboxStreamWatermark :=
  let corrupt := Err "corrupt redb outbox-watermark key" in
  if (String.length key <? 10)%nat then corrupt
  else
    match split_bytes (String.length key - 9) key with
    | Some (client_id, String sep suffix) =>
        if negb (Ascii.eqb sep NUL) then corrupt
        else if negb (utf8_valid client_id) then Err "corrupt redb outbox-watermark client ID"
        else
          let stream_id := from_be_bytes 0 suffix in
          if (i64_max <? stream_id)%Z then Err "redb outbox stream ID exceeds i64"
          else if (stream_seq <=? 0)%Z then
            Err ("corrupt redb outbox stream sequence " +:+ to_string stream_seq)
          else Ok (mkWatermark client_id stream_id stream_seq)
    | _ => corrupt
    end.

(** ** Lemmas on bytes *)

Lemma byte_val_range c : (0 <= byte_val c < 256)%Z.
Proof. unfold byte_val. pose proof (Ascii.N_ascii_bounded c). lia. Qed.

Lemma byte_val_of z : (0 <= z < 256)%Z -> byte_val (byte_of z) = z.
Proof. intros. unfold byte_val, byte_of. rewrite Ascii.N_ascii_embedding; lia. Qed.

Lemma byte_val_inj a b : byte_val a = byte_val b -> a = b.
Proof.
  unfold byte_val. intros H%N2Z.inj.
  by rewrite <- (Ascii.ascii_N_embedding a), <- (Ascii.ascii_N_embedding b), H.
Qed.

Lemma ascii_compare_val a b : Ascii.compare a b = (byte_val a ?= byte_val b)%Z.
Proof. rewrite ascii_compare_spec. unfold byte_val. symmetry. apply N2Z.inj_compare. Qed.

Lemma split_bytes_app a b : split_bytes (String.length a) (a +:+ b) = Some (a, b).
Proof. induction a as [|c a IH]; simpl; [done|]. by rewrite IH. Qed.

Lemma take_bytes_all n s : (String.length s <= n)%nat -> take_bytes n s = s.
Proof.
  revert n. induction s as [|c s IH]; intros [|n] Hn; simpl in *; try done; [lia|].
  rewrite IH by lia. done.
Qed.

Lemma str_app_cons c a b : String c a +:+ b = String c (a +:+ b).
Proof. done. Qed.

Lemma str_nil_app b : "" +:+ b = b.
Proof. done. Qed.

Lemma str_app_inv p a b : p +:+ a = p +:+ b -> a = b.
Proof. induction p as [|c p IH]; simpl; [done|]. intros [= H]. by apply IH. Qed.

Lemma compare_app p a b : String.compare (p +:+ a) (p +:+ b) = String.compare a b.
Proof.
  induction p as [|c p IH]; simpl; [done|]. by rewrite ascii_compare_val, Z.compare_refl.
Qed.

(** Every byte of a valid string is below [0xF5]. *)
Lemma utf8_all_bytes s : utf8_valid s = true -> Forall (fun c => (byte_val c < 245)%Z) (bytes_of s).
Proof.
  enough (forall n s, (String.length s <= n)%nat -> utf8_valid s = true ->
    Forall (fun c => (byte_val c < 245)%Z) (bytes_of s)) by eauto.
  clear s. induction n as [|n IH]; intros [|a s] Hlen Hv; simpl in Hlen;
    try (by constructor); [lia|].
  cbn [utf8_valid] in Hv. unfold between in Hv.
  repeat match type of Hv with
  | (if ?b then _ else _) = true => destruct b eqn:?
  | match ?s with EmptyString => _ | String _ _ => _ end = true => destruct s; [done|]
  end; simpl in *; rewrite ?andb_true_iff, ?Z.leb_le, ?Z.ltb_lt in *;
    repeat (constructor; [first [lia|repeat case_match; lia]|]); apply IH; simpl; tauto || lia.
Qed.

(** ** Resource keys *)

(** A component the codec keeps whole: a [str] of at most 255 bytes. *)
Definition component_ok (s : string) : bool := utf8_valid s && (String.length s <=? 255)%nat.

Definition identity_ok (av kind : string) (ns : option string) (name : string) : bool :=
  component_ok av && component_ok kind && component_ok (unwrap_or "" ns) && component_ok name.

Definition field (s : string) : string := push_str "" s.

#[local] Arguments field : simpl never.
#[local] Arguments pop_str : simpl never.

Lemma push_str_app buf s : push_str buf s = buf +:+ field s.
Proof. done. Qed.

Lemma field_ok s : component_ok s = true -> field s = String (byte_of (Z.of_nat (String.length s))) s.
Proof.
  unfold component_ok. intros [_ H]%andb_true_iff. apply Nat.leb_le in H.
  unfold field, push_str. rewrite Nat.min_l, take_bytes_all by lia. done.
Qed.

Lemma pop_str_field s rest : component_ok s = true -> pop_str (field s +:+ rest) = Some (s, rest).
Proof.
  intros H. rewrite field_ok by done. unfold component_ok in H.
  apply andb_true_iff in H as [Hu Hl%Nat.leb_le]. unfold pop_str. simpl.
  rewrite byte_val_of, Nat2Z.id, split_bytes_app by lia. simpl. by rewrite Hu.
Qed.

Definition ns_field (ns : option string) : string := from_option field "" ns.

Lemma resource_prefix_fields av kind ns :
  resource_prefix av kind ns = field av +:+ field kind +:+ ns_field ns.
Proof.
  unfold resource_prefix. destruct ns; simpl; rewrite !push_str_app, ?str_app_nil_r; [|done].
  by rewrite str_app_assoc.
Qed.

Lemma resource_key_prefix av kind ns name :
  resource_key av kind ns name = resource_prefix av kind ns +:+ field name.
Proof. done. Qed.

Lemma ns_field_pop ns rest :
  component_ok (unwrap_or "" ns) = true ->
  (if opt_is_some ns then '(n, rest) ← pop_str (ns_field ns +:+ rest); Some (Some n, rest)
   else Some (None, ns_field ns +:+ rest)) = Some (ns, rest).
Proof. intros H. destruct ns as [n|]; simpl; [|done]. by rewrite pop_str_field. Qed.

Lemma decode_resource_key_encode av kind ns name :
  identity_ok av kind ns name = true ->
  decode_resource_key (resource_key av kind ns name) (opt_is_some ns) = Some (av, kind, ns, name).
Proof.
  unfold identity_ok. intros [[[Ha Hk]%andb_true_iff Hn]%andb_true_iff Hname]%andb_true_iff.
  rewrite resource_key_prefix, resource_prefix_fields, !str_app_assoc.
  unfold decode_resource_key. rewrite pop_str_field by done. simpl.
  rewrite pop_str_field by done. simpl. rewrite ns_field_pop by done. simpl.
  rewrite <- (str_app_nil_r (field name)), pop_str_field by done. done.
Qed.

(** Identities in bounds have distinct keys in each table. *)
Lemma resource_key_inj av kind ns name av' kind' ns' name' :
  identity_ok av kind ns name = true -> identity_ok av' kind' ns' name' = true ->
  opt_is_some ns = opt_is_some ns' ->
  resource_key av kind ns name = resource_key av' kind' ns' name' ->
  (av, kind, ns, name) = (av', kind', ns', name').
Proof.
  intros H H' Hs Heq. apply (inj Some).
  rewrite <- (decode_resource_key_encode _ _ _ _ H), <- (decode_resource_key_encode _ _ _ _ H').
  by rewrite Heq, Hs.
Qed.

(** ** Range scans *)

Definition byte_lt (a b : string) : Prop := String.compare a b = Lt.
Definition byte_le (a b : string) : Prop := String.compare a b <> Gt.

(** [table.range(start..end)]. *)
Definition in_range (start stop k : string) : Prop := byte_le start k /\ byte_lt k stop.

(** The range [list_resources] scans for a prefix ([read_core.rs]). *)
Definition scan_start (prefix : string) : string := prefix +:+ String NUL "".
Definition scan_end (prefix : string) : string :=
  unwrap_or (prefix +:+ String (byte_of 255) "") (lex_next prefix).

Definition no_carry (p : string) : Prop := exists q c, p = q +:+ String c "" /\ (byte_val c < 255)%Z.

Lemma increment_no_carry q c :
  (byte_val c < 255)%Z ->
  increment (q +:+ String c "") = (q +:+ String (byte_of (byte_val c + 1)) "", false).
Proof.
  intros Hc. pose proof (byte_val_range c). induction q as [|d q IH]; simpl.
  - rewrite Z.mod_small by lia. f_equal. apply Z.eqb_neq. lia.
  - by rewrite IH.
Qed.

Lemma lex_next_no_carry q c :
  (byte_val c < 255)%Z -> lex_next (q +:+ String c "") = Some (q +:+ String (byte_of (byte_val c + 1)) "").
Proof. intros Hc. unfold lex_next. by rewrite increment_no_carry. Qed.

Lemma prefix_range q c k :
  (byte_val c < 255)%Z ->
  in_range (q +:+ String c "") (q +:+ String (byte_of (byte_val c + 1)) "") k <->
  exists r, k = (q +:+ String c "") +:+ r.
Proof.
  intros Hc. pose proof (byte_val_range c). unfold in_range, byte_le, byte_lt.
  revert k. induction q as [|d q IH]; intros [|e k]; simpl.
  - split; [by intros [[] _]|by intros [r ?]].
  - rewrite !ascii_compare_val, byte_val_of by lia.
    split.
    + intros [H1 H2]. exists k. apply (f_equal (fun d => String d k)), byte_val_inj.
      destruct (Z.compare_spec (byte_val c) (byte_val e)); [done| |done].
      destruct (Z.compare_spec (byte_val e) (byte_val c + 1)); [|lia|done]. by destruct k.
    + intros [r [= -> ->]]. rewrite Z.compare_refl, (proj2 (Z.compare_lt_iff _ _)) by lia.
      by destruct r.
  - split; [by intros [[] _]|by intros [r ?]].
  - rewrite !ascii_compare_val.
    destruct (Z.compare_spec (byte_val d) (byte_val e)) as [Heq|Hlt|Hgt].
    + apply byte_val_inj in Heq as <-. rewrite Z.compare_refl, IH.
      split; intros [r Hr]; exists r; [by rewrite Hr|by injection Hr].
    + rewrite (proj2 (Z.compare_gt_iff (byte_val e) (byte_val d))) by done.
      split; [by intros []|]. intros [r [= -> _]]. lia.
    + split; [by intros []|]. intros [r [= -> _]]. lia.
Qed.

Lemma byte_le_trans a b c : byte_le a b -> byte_le b c -> byte_le a c.
Proof.
  unfold byte_le. intros H1 H2.
  assert (str_leb a c = true); [|unfold str_leb in *; by destruct (String.compare a c)].
  apply (str_leb_trans a b c); unfold str_leb;
    [by destruct (String.compare a b)|by destruct (String.compare b c)].
Qed.

Lemma scan_range_prefix p k :
  no_carry p -> in_range (scan_start p) (scan_end p) k <-> exists b r, k = p +:+ String b r.
Proof.
  intros (q & c & -> & Hc). unfold scan_end, scan_start. rewrite lex_next_no_carry by done.
  cbn [unwrap_or]. split.
  - intros [H1 H2].
    assert (exists r, k = (q +:+ String c "") +:+ r) as [r ->].
    { apply prefix_range; [done|]. split; [|done]. eapply byte_le_trans; [|exact H1].
      unfold byte_le. rewrite <- (str_app_nil_r (q +:+ String c "")) at 1. by rewrite compare_app. }
    unfold byte_le in H1. rewrite compare_app in H1. destruct r as [|b r]; [done|eauto].
  - intros (b & r & ->). split.
    + unfold byte_le. rewrite compare_app. simpl. rewrite ascii_compare_val.
      pose proof (byte_val_range b).
      destruct (Z.compare_spec (byte_val NUL) (byte_val b)) as [| |Hgt]; [by destruct r|done|].
      change (byte_val NUL) with 0%Z in Hgt. lia.
    + apply (prefix_range q c); eauto.
Qed.

Lemma no_carry_app a b : no_carry b -> no_carry (a +:+ b).
Proof. intros (q & c & -> & Hc). exists (a +:+ q), c. by rewrite str_app_assoc. Qed.

Lemma str_last s : s = "" \/ exists q c, s = q +:+ String c "".
Proof.
  induction s as [|c s [ -> |(q & d & ->)]]; [by left|right; by exists "", c|].
  right. by exists (String c q), d.
Qed.

Lemma no_carry_field s : component_ok s = true -> no_carry (field s).
Proof.
  intros H. rewrite field_ok by done. apply andb_true_iff in H as [Hu _].
  destruct (str_last s) as [ -> |(q & c & ->)].
  - exists "", (byte_of 0). done.
  - apply utf8_all_bytes in Hu. rewrite bytes_of_app in Hu. apply Forall_app in Hu as [_ Hc].
    inversion Hc; subst. eexists (String _ q), c. split; [reflexivity|lia].
Qed.

Lemma no_carry_prefix av kind ns :
  component_ok kind = true -> component_ok (unwrap_or "" ns) = true ->
  no_carry (resource_prefix av kind ns).
Proof.
  intros Hk Hn. rewrite resource_prefix_fields. apply no_carry_app.
  destruct ns; simpl; [apply no_carry_app|rewrite str_app_nil_r]; by apply no_carry_field.
Qed.

Lemma field_prefix_inj a b x y :
  component_ok a = true -> component_ok b = true ->
  field a +:+ x = field b +:+ y -> a = b /\ x = y.
Proof.
  intros Ha Hb Heq. pose proof (pop_str_field a x Ha) as H. rewrite Heq, pop_str_field in H by done.
  by injection H.
Qed.

(** C39.  Resource keys round-trip: an identity whose components are strings of
    at most 255 bytes decodes, from the table it is stored in, to itself. *)
Theorem resource_key_round_trip av kind ns name :
  identity_ok av kind ns name = true ->
  decode_resource_key (resource_key av kind ns name) (opt_is_some ns) = Some (av, kind, ns, name).
Proof. apply decode_resource_key_encode. Qed.

Lemma resource_key_round_trip_witness :
  decode_resource_key (resource_key "apps/v1" "Deployment" (Some "default") "web") true =
  Some ("apps/v1", "Deployment", Some "default", "web").
Proof. apply (resource_key_round_trip "apps/v1" "Deployment" (Some "default") "web"); reflexivity. Defined.

Lemma resource_key_fields av kind ns name :
  resource_key av kind ns name = field av +:+ field kind +:+ ns_field ns +:+ field name.
Proof. rewrite resource_key_prefix, resource_prefix_fields. by rewrite !str_app_assoc. Qed.

Lemma field_cons s : exists b r, field s = String b r.
Proof. unfold field, push_str. simpl. eauto. Qed.



Lemma take_bytes_app n p s : (n <= String.length p)%nat -> take_bytes n (p +:+ s) = take_bytes n p.
Proof.
  revert p. induction n as [|n IH]; intros [|c p] Hn; simpl in *; try done; try lia.
  rewrite IH by lia. done.
Qed.

(** Beyond 255 bytes the codec truncates: two API versions that share
    their first 255 bytes (the versions of a group of more than 250 bytes)
    give one key, so a resource of one overwrites or shadows the other's. *)
Theorem long_component_collision p a b kind ns name :
  (255 <= String.length p)%nat ->
  resource_key (p +:+ a) kind ns name = resource_key (p +:+ b) kind ns name.
Proof.
  intros Hp. rewrite !resource_key_fields. f_equal. unfold field, push_str.
  rewrite !str_app_length, !Nat.min_r, !take_bytes_app by lia. done.
Qed.

(** A group of 250 bytes and the first five bytes of its versions. *)
Definition long_group : string := str_of (repeat "g"%char 247) +:+ ".io/v1al".

Lemma long_component_collision_witness :
  resource_key (long_group +:+ "pha1") "Widget" (Some "default") "a" =
  resource_key (long_group +:+ "pha2") "Widget" (Some "default") "a" /\
  long_group +:+ "pha1" <> long_group +:+ "pha2".
Proof.
  split; [apply long_component_collision; vm_compute; lia|].
  intros H%str_app_inv. discriminate H.
Defined.

(** ** NUL-separated keys *)

Definition cmp_then (a b : comparison) : comparison := match a with Eq => b | _ => a end.

Lemma has_nul_cons c s : has_nul (String c s) = Ascii.eqb NUL c || has_nul s.
Proof. done. Qed.

(** NUL sorts before every byte of a NUL-free component, so a shorter
    component sorts before its extensions. *)
Lemma nul_compare a b x y :
  has_nul a = false -> has_nul b = false ->
  String.compare (a +:+ String NUL x) (b +:+ String NUL y) =
  cmp_then (String.compare a b) (String.compare x y).
Proof.
  assert (Hnul : forall c, Ascii.eqb NUL c = false -> (0 < byte_val c)%Z).
  { intros c H. pose proof (byte_val_range c).
    enough (byte_val c <> 0)%Z by lia. intros Hz.
    assert (c = NUL) as -> by (by apply byte_val_inj). done. }
  revert b. induction a as [|c a IH]; intros [|d b];
    rewrite ?has_nul_cons, ?orb_false_iff; intros Ha Hb;
    rewrite ?str_nil_app, ?str_app_cons; cbn [String.compare].
  - by rewrite ascii_compare_val, Z.compare_refl.
  - destruct Hb as [Hd _]. apply Hnul in Hd. rewrite ascii_compare_val.
    change (byte_val NUL) with 0%Z. by rewrite (proj2 (Z.compare_lt_iff _ _)).
  - destruct Ha as [Hc _]. apply Hnul in Hc. rewrite ascii_compare_val.
    change (byte_val NUL) with 0%Z. by rewrite (proj2 (Z.compare_gt_iff _ _)).
  - destruct Ha, Hb. rewrite IH by done. by destruct (Ascii.compare c d).
Qed.

Lemma nul_app_inj a b x y :
  has_nul a = false -> has_nul b = false ->
  a +:+ String NUL x = b +:+ String NUL y -> a = b /\ x = y.
Proof.
  intros Ha Hb Heq%str_compare_eq. rewrite nul_compare in Heq by done.
  destruct (String.compare a b) eqn:E; try done. by split; apply str_compare_eq.
Qed.

Definition nul_free (api_version kind : string) (namespace : option string) (name : string) : bool :=
  negb (has_nul api_version || has_nul kind || has_nul (unwrap_or "" namespace) || has_nul name).

Definition scope_cmp (a b : option string) : comparison :=
  match opt_is_some a, opt_is_some b with
  | false, true => Lt
  | true, false => Gt
  | _, _ => Eq
  end.

Lemma identity_key_compare av kind ns name av' kind' ns' name' :
  nul_free av kind ns name = true -> nul_free av' kind' ns' name' = true ->
  String.compare (resource_current_identity_key av kind ns name)
                 (resource_current_identity_key av' kind' ns' name') =
  cmp_then (scope_cmp ns ns') (cmp_then (String.compare av av')
    (cmp_then (String.compare kind kind')
      (cmp_then (String.compare (unwrap_or "" ns) (unwrap_or "" ns')) (String.compare name name')))).
Proof.
  unfold nul_free. rewrite !negb_true_iff, !orb_false_iff.
  intros [[[Ha Hk] Hn] Hm] [[[Ha' Hk'] Hn'] Hm'].
  unfold resource_current_identity_key, push_nul. cbn [fold_left]. rewrite !str_app_assoc.
  assert (Hbody : forall s s', String.compare
    (String s (av +:+ String NUL (kind +:+ String NUL (unwrap_or "" ns +:+ String NUL (name +:+ String NUL "")))))
    (String s' (av' +:+ String NUL (kind' +:+ String NUL (unwrap_or "" ns' +:+ String NUL (name' +:+ String NUL ""))))) =
    cmp_then (Ascii.compare s s') (cmp_then (String.compare av av')
    (cmp_then (String.compare kind kind')
      (cmp_then (String.compare (unwrap_or "" ns) (unwrap_or "" ns')) (String.compare name name'))))).
  { intros s s'. cbn [String.compare]. destruct (Ascii.compare s s'); [|done..].
    rewrite !nul_compare by done. by destruct (String.compare name name'). }
  destruct ns, ns'; exact (Hbody _ _).
Qed.

(** The identity index is in Kubernetes LIST order: its keys compare as
    the tuples (cluster-scoped first, API version, kind, namespace, name), so
    a bytewise scan pages through resources in that order, and two identities
    share a key only when they are the same identity. *)
Theorem identity_key_order av kind ns name av' kind' ns' name' :
  nul_free av kind ns name = true -> nul_free av' kind' ns' name' = true ->
  String.compare (resource_current_identity_key av kind ns name)
                 (resource_current_identity_key av' kind' ns' name') =
  cmp_then (scope_cmp ns ns') (cmp_then (String.compare av av')
    (cmp_then (String.compare kind kind')
      (cmp_then (String.compare (unwrap_or "" ns) (unwrap_or "" ns')) (String.compare name name')))).
Proof. apply identity_key_compare. Qed.

Lemma identity_key_order_witness :
  String.compare (resource_current_identity_key "v1" "Pod" (Some "a") "z")
                 (resource_current_identity_key "v1" "Pod" (Some "ab") "b") = Lt.
Proof.
  rewrite (identity_key_order "v1" "Pod" (Some "a") "z" "v1" "Pod" (Some "ab") "b"); reflexivity.
Defined.

(** ** Owner keys *)

Lemma owner_ref_key_parts uid av kind ns name :
  owner_ref_key uid av kind ns name =
  uid +:+ String NUL (String (byte_of (if opt_is_some ns then 1 else 0))
    (av +:+ String NUL (kind +:+ String NUL (unwrap_or "" ns +:+ String NUL name)))).
Proof. unfold owner_ref_key. rewrite !str_app_assoc. done. Qed.

(** Two owner entries share a key only for one owner and one resource. *)
Lemma owner_ref_key_inj uid av kind ns name uid' av' kind' ns' name' :
  has_nul uid = false -> has_nul uid' = false ->
  nul_free av kind ns name = true -> nul_free av' kind' ns' name' = true ->
  owner_ref_key uid av kind ns name = owner_ref_key uid' av' kind' ns' name' ->
  uid = uid' /\ (av, kind, ns, name) = (av', kind', ns', name').
Proof.
  unfold nul_free. rewrite !negb_true_iff, !orb_false_iff, !owner_ref_key_parts.
  intros Hu Hu' [[[Ha Hk] Hn] Hm] [[[Ha' Hk'] Hn'] Hm'] Heq.
  apply nul_app_inj in Heq as [ <- Heq]; [|done..]. injection Heq as Htag Heq.
  apply nul_app_inj in Heq as [ <- Heq]; [|done..].
  apply nul_app_inj in Heq as [ <- Heq]; [|done..].
  apply nul_app_inj in Heq as [Hns <- ]; [|done..].
  destruct ns, ns'; simpl in *; by simplify_eq.
Qed.

(** ** Big-endian integers *)

Lemma be_byte n z : (0 <= Z.shiftr z (8 * Z.of_nat n) mod 256 < 256)%Z.
Proof. apply Z.mod_pos_bound. lia. Qed.

Lemma be_bytes_length n z : String.length (be_bytes n z) = n.
Proof. induction n; simpl; congruence. Qed.

Lemma pow256 n : (2 ^ (8 * Z.of_nat n) = 256 ^ Z.of_nat n)%Z.
Proof. rewrite Z.pow_mul_r by lia. done. Qed.

Lemma split_digit n z :
  (0 <= z)%Z ->
  (z mod 256 ^ Z.of_nat (S n) =
   (Z.shiftr z (8 * Z.of_nat n) mod 256) * 256 ^ Z.of_nat n + z mod 256 ^ Z.of_nat n)%Z.
Proof.
  intros Hz. assert (0 < 256 ^ Z.of_nat n)%Z by (apply Z.pow_pos_nonneg; lia).
  rewrite Z.shiftr_div_pow2, pow256 by lia.
  replace (256 ^ Z.of_nat (S n))%Z with (256 ^ Z.of_nat n * 256)%Z
    by (rewrite Nat2Z.inj_succ, Z.pow_succ_r; lia).
  rewrite Z.rem_mul_r by lia. lia.
Qed.

Lemma from_be_bytes_encode n z acc :
  (0 <= z)%Z -> from_be_bytes acc (be_bytes n z) = (acc * 256 ^ Z.of_nat n + z mod 256 ^ Z.of_nat n)%Z.
Proof.
  intros Hz. revert acc. induction n as [|n IH]; intros acc; cbn [be_bytes from_be_bytes].
  - change (256 ^ Z.of_nat 0)%Z with 1%Z. rewrite Z.mod_1_r. lia.
  - rewrite IH, byte_val_of, split_digit by (done || apply be_byte).
    rewrite Nat2Z.inj_succ, Z.pow_succ_r by lia. lia.
Qed.

Lemma be_bytes_compare n x y :
  (0 <= x)%Z -> (0 <= y)%Z ->
  String.compare (be_bytes n x) (be_bytes n y) =
  (x mod 256 ^ Z.of_nat n ?= y mod 256 ^ Z.of_nat n)%Z.
Proof.
  intros Hx Hy. induction n as [|n IH]; cbn [be_bytes String.compare].
  - change (256 ^ Z.of_nat 0)%Z with 1%Z. by rewrite !Z.mod_1_r.
  - assert (H0 : (0 < 256 ^ Z.of_nat n)%Z) by (apply Z.pow_pos_nonneg; lia).
    rewrite ascii_compare_val, !byte_val_of, IH, !split_digit by (done || apply be_byte).
    pose proof (Z.mod_pos_bound x _ H0). pose proof (Z.mod_pos_bound y _ H0).
    set (q := (Z.shiftr x _ mod 256)%Z). set (q' := (Z.shiftr y _ mod 256)%Z).
    destruct (Z.compare_spec q q') as [ -> |Hlt|Hgt]; symmetry.
    + apply Z.add_compare_mono_l.
    + apply Z.compare_lt_iff. nia.
    + apply Z.compare_gt_iff. nia.
Qed.

Lemma watermark_key_inv client_id stream_id key :
  outbox_watermark_key client_id stream_id = Ok key ->
  client_id <> "" /\ has_nul client_id = false /\ (0 < stream_id)%Z /\
  key = client_id +:+ String NUL (be_bytes 8 stream_id).
Proof.
  unfold outbox_watermark_key. intros H.
  destruct (is_empty client_id) eqn:E1, (has_nul client_id), (Z.leb_spec stream_id 0);
    simplify_eq/=. split_and!; try done. by intros ->.
Qed.

(** Outbox watermark keys round-trip: the key written for a client and
    stream decodes, with any positive sequence, to that client, stream and
    sequence. *)
Theorem watermark_key_round_trip client_id stream_id stream_seq key :
  outbox_watermark_key client_id stream_id = Ok key ->
  utf8_valid client_id = true -> (stream_id <= i64_max)%Z -> (0 < stream_seq)%Z ->
  decode_outbox_watermark_key key stream_seq = Ok (mkWatermark client_id stream_id stream_seq).
Proof.
  intros (Hne & _ & Hpos & ->)%watermark_key_inv Hu Hmax Hseq.
  unfold decode_outbox_watermark_key. rewrite str_app_length. cbn [String.length].
  rewrite be_bytes_length.
  assert (0 < String.length client_id)%nat by (destruct client_id; simpl; [done|lia]).
  rewrite (proj2 (Nat.ltb_ge _ _)) by lia.
  replace (String.length client_id + 9 - 9)%nat with (String.length client_id) by lia.
  rewrite split_bytes_app, Ascii.eqb_refl, Hu, from_be_bytes_encode by lia. cbn [negb].
  rewrite Z.mod_small, Z.add_0_l by (unfold i64_max in *; lia).
  rewrite (proj2 (Z.ltb_ge _ _)), (proj2 (Z.leb_gt _ _)) by lia. done.
Qed.

Lemma watermark_key_round_trip_witness :
  decode_outbox_watermark_key ("worker-1" +:+ String NUL (be_bytes 8 7)) 3 =
  Ok (mkWatermark "worker-1" 7 3).
Proof. apply watermark_key_round_trip; vm_compute; done. Defined.

(** Watermark pages are in (client, stream) order: two keys compare as
    their clients, then as their stream numbers, so the scan that resumes
    after a cursor skips no stream and repeats none. *)
Theorem watermark_key_order c1 s1 k1 c2 s2 k2 :
  outbox_watermark_key c1 s1 = Ok k1 -> outbox_watermark_key c2 s2 = Ok k2 ->
  (s1 <= i64_max)%Z -> (s2 <= i64_max)%Z ->
  String.compare k1 k2 = cmp_then (String.compare c1 c2) (s1 ?= s2)%Z.
Proof.
  intros (_ & Hn1 & Hp1 & ->)%watermark_key_inv (_ & Hn2 & Hp2 & ->)%watermark_key_inv H1 H2.
  rewrite nul_compare, be_bytes_compare by (done || lia).
  rewrite !Z.mod_small by (unfold i64_max in *; lia). done.
Qed.

Lemma watermark_key_order_witness :
  String.compare ("w" +:+ String NUL (be_bytes 8 9)) ("w" +:+ String NUL (be_bytes 8 256)) = Lt.
Proof.
  rewrite (watermark_key_order "w" 9 _ "w" 256); try reflexivity; vm_compute; done.
Defined.
