(* ===== verification/Quantity.v ===== *)
(** * Quantity: Kubernetes resource quantities (klights-types/src/quantity.rs)

    Parsing of quantities such as [500m], [1.5Gi] or [1e3] to an [i64] scaled
    by resource kind, and their formatting.  [BigInt] is [Z]; the [u32]/[i32]
    scales and exponents keep their checked arithmetic. *)

From S2P Require Import Prelude Text Json.

Local Open Scope string_scope.
Local Open Scope Z_scope.
Local Open Scope rs_scope.

Record Suffix := { text : string; num : Z; den : Z }.

Record QuantityRational := { numerator : Z; scale10 : Z; exponent10 : Z }.

Definition CPU_SUFFIXES : list Suffix :=
  [ {| text := "n"; num := 1; den := 1000000000 |};
    {| text := "u"; num := 1; den := 1000000 |};
    {| text := "m"; num := 1; den := 1000 |};
    {| text := "k"; num := 1000; den := 1 |};
    {| text := "M"; num := 1000000; den := 1 |};
    {| text := "G"; num := 1000000000; den := 1 |};
    {| text := "T"; num := 1000000000000; den := 1 |};
    {| text := "P"; num := 1000000000000000; den := 1 |};
    {| text := "E"; num := 1000000000000000000; den := 1 |} ].

Definition DECIMAL_SUFFIXES : list Suffix :=
  [ {| text := "E"; num := 1000000000000000000; den := 1 |};
    {| text := "P"; num := 1000000000000000; den := 1 |};
    {| text := "T"; num := 1000000000000; den := 1 |};
    {| text := "G"; num := 1000000000; den := 1 |};
    {| text := "M"; num := 1000000; den := 1 |};
    {| text := "k"; num := 1000; den := 1 |};
    {| text := "m"; num := 1; den := 1000 |};
    {| text := "u"; num := 1; den := 1000000 |};
    {| text := "n"; num := 1; den := 1000000000 |} ].

Definition BINARY_SUFFIXES : list Suffix :=
  [ {| text := "Ki"; num := 1024; den := 1 |};
    {| text := "Mi"; num := 1024 ^ 2; den := 1 |};
    {| text := "Gi"; num := 1024 ^ 3; den := 1 |};
    {| text := "Ti"; num := 1024 ^ 4; den := 1 |};
    {| text := "Pi"; num := 1024 ^ 5; den := 1 |};
    {| text := "Ei"; num := 1024 ^ 6; den := 1 |} ].

Definition is_binary_quantity_resource (resource_key : string) : bool :=
  (resource_key =?s "memory")
  || (resource_key =?s "ephemeral-storage")
  || contains "storage" resource_key
  || starts_with "hugepages-" resource_key.

(** ** Arithmetic helpers *)

Definition pow10_big (exp : Z) : option Z := Some (10 ^ exp).

(** [while value > 1 && value % 10 == 0]; each turn divides by ten, so the
    binary logarithm of the value bounds the number of turns. *)
Fixpoint decimal_power_scale_loop (fuel : nat) (value scale : Z) : option (Z * Z) :=
  match fuel with
  | O => Some (value, scale)
  | S fuel' =>
      if (1 <? value) && (Z.rem value 10 =? 0)
      then scale' ← checked_u32 (scale + 1);
           decimal_power_scale_loop fuel' (Z.quot value 10) scale'
      else Some (value, scale)
  end.

Definition decimal_power_scale (value : Z) : option Z :=
  if value <=? 0 then None
  else '(value', scale) ← decimal_power_scale_loop (S (Z.to_nat (Z.log2 value))) value 0;
       if value' =? 1 then Some scale else None.

Definition ceil_div_bigint (value divisor : Z) : option Z :=
  if (value <? 0) || (divisor <=? 0) then None
  else let quotient := Z.quot value divisor in
       if Z.rem value divisor =? 0 then Some quotient else Some (quotient + 1).

Definition bounded_big_i64 (value : Z) : option Z :=
  if value <? 0 then None
  else Some (if value <=? i64_max then value else i64_max).

Definition normalize_decimal_exponent (numerator scale10 exponent10 : Z) : option (Z * Z * Z) :=
  if exponent10 <=? 0 then Some (numerator, scale10, exponent10)
  else positive_exponent ← checked_u32 exponent10;
       let cancelled := Z.min scale10 positive_exponent in
       cancelled_i32 ← checked_i32 cancelled;
       exponent' ← checked_i32 (exponent10 - cancelled_i32);
       Some (numerator, scale10 - cancelled, exponent').

(** [to_str_radix(10).len()]. *)
Definition decimal_len (n : Z) : Z := str_len (to_string n).

Definition apply_quantity (rational : QuantityRational) (suffix : option Suffix) (final_div : Z) : option Z :=
  let numerator0 :=
    numerator rational * 1000 * match suffix with Some s => num s | None => 1 end in
  if numerator0 =? 0 then Some 0
  else
    final_scale ← decimal_power_scale final_div;
    scale1 ← checked_u32 (scale10 rational + final_scale);
    suffix_scale ← decimal_power_scale match suffix with Some s => den s | None => 1 end;
    scale2 ← checked_u32 (scale1 + suffix_scale);
    '(numerator1, denominator_scale10, exp) ←
      normalize_decimal_exponent numerator0 scale2 (exponent10 rational);
    let finish (numerator denominator_scale10 : Z) : option Z :=
      denominator ← pow10_big denominator_scale10;
      scaled ← ceil_div_bigint numerator denominator;
      bounded_big_i64 scaled in
    if 0 <? exp then
      if 4096 <? exp then Some i64_max
      else p ← pow10_big exp; finish (numerator1 * p) denominator_scale10
    else if exp <? 0 then
      neg ← checked_i32 (- exp);
      magnitude ← checked_u32 neg;
      numerator_scale_digits ← checked_u32 (decimal_len numerator1);
      if wrapping_add_u32 numerator_scale_digits 4096 <? magnitude then Some 1
      else scale3 ← checked_u32 (denominator_scale10 + magnitude);
           finish numerator1 scale3
    else finish numerator1 denominator_scale10.

(** ** Parsing *)

Fixpoint split_suffix (raw : string) (suffixes : list Suffix) : option (string * Suffix) :=
  match suffixes with
  | [] => None
  | suffix :: rest =>
      match strip_suffix (text suffix) raw with
      | Some number => if is_empty number then split_suffix raw rest else Some (number, suffix)
      | None => split_suffix raw rest
      end
  end.

(** The scan for the exponent marker: [None] on a second marker, else the
    position of the marker if there is one. *)
Fixpoint exponent_marker (idx : nat) (marker : option nat) (s : string) : option (option nat) :=
  match s with
  | EmptyString => Some marker
  | String ch s' =>
      if Ascii.eqb ch "e" || Ascii.eqb ch "E"
      then match marker with
           | Some _ => None
           | None => exponent_marker (S idx) (Some idx) s'
           end
      else exponent_marker (S idx) marker s'
  end.

Definition split_exponent (raw : string) : option (string * Z) :=
  marker ← exponent_marker 0 None raw;
  match marker with
  | None => Some (raw, 0)
  | Some idx =>
      let number := String.substring 0 idx raw in
      let exponent_text := String.substring idx (String.length raw - idx) raw in
      if is_empty number || (str_len exponent_text <=? 1) then None
      else exponent ← parse_i32 (String.substring 1 (String.length exponent_text - 1) exponent_text);
           Some (number, exponent)
  end.

Fixpoint parse_decimal_digits_loop (value : Z) (raw : string) : option Z :=
  match raw with
  | EmptyString => Some value
  | String byte raw' =>
      let digit := digit_value byte in
      if (digit <? 0) || (9 <? digit) then None
      else parse_decimal_digits_loop (value * 10 + digit) raw'
  end.

Definition parse_decimal_digits (raw : string) : option Z := parse_decimal_digits_loop 0 raw.

Definition parse_decimal_rational_no_exponent (raw : string) : option (Z * Z) :=
  let '(int_part, frac0) :=
    match split_once "." raw with Some p => p | None => (raw, "") end in
  let frac_was_empty := is_empty frac0 in
  let frac_part := trim_end_matches "0" frac0 in
  if is_empty int_part && is_empty frac_part && (negb (contains "." raw) || frac_was_empty)
  then None
  else if any_char (fun c => negb (is_ascii_digit c)) int_part then None
  else if any_char (fun c => negb (is_ascii_digit c)) frac_part then None
  else
    int_value ← (if is_empty int_part then Some 0 else parse_decimal_digits int_part);
    scale10 ← checked_u32 (str_len frac_part);
    frac_scale ← pow10_big scale10;
    frac_value ← (if is_empty frac_part then Some 0 else parse_decimal_digits frac_part);
    Some (int_value * frac_scale + frac_value, scale10).

Definition parse_decimal_rational (raw : string) (allow_exponent : bool) : option QuantityRational :=
  if is_empty raw || starts_with "-" raw then None
  else
    let raw := unwrap_or raw (strip_prefix "+" raw) in
    if is_empty raw then None
    else if negb allow_exponent && any_char (fun c => Ascii.eqb c "e" || Ascii.eqb c "E") raw
    then None
    else
      '(number, exponent) ← split_exponent raw;
      '(n, s) ← parse_decimal_rational_no_exponent number;
      Some {| numerator := n; scale10 := s; exponent10 := exponent |}.

Definition parse_quantity_with_suffixes (raw : string) (suffixes : list Suffix) (final_div : Z)
    : option Z :=
  if is_empty raw || negb (trim raw =?s raw) then None
  else
    let '(number, suffix) :=
      match split_suffix raw suffixes with
      | Some (number, suffix) => (number, Some suffix)
      | None => (raw, None)
      end in
    r ← parse_decimal_rational number (opt_is_none suffix);
    apply_quantity r suffix final_div.

Definition parse_cpu_milli (raw : string) : option Z :=
  parse_quantity_with_suffixes raw CPU_SUFFIXES 1.

Definition parse_memory_bytes (raw : string) : option Z :=
  if is_empty raw || negb (trim raw =?s raw) then None
  else
    match split_suffix raw BINARY_SUFFIXES with
    | Some (number, suffix) =>
        r ← parse_decimal_rational number false; apply_quantity r (Some suffix) 1000
    | None =>
        match split_suffix raw DECIMAL_SUFFIXES with
        | Some (number, suffix) =>
            r ← parse_decimal_rational number false; apply_quantity r (Some suffix) 1000
        | None => parse_quantity_with_suffixes raw [] 1000
        end
    end.

Definition parse_decimal_si_quantity (_resource_key raw : string) : option Z :=
  parse_quantity_with_suffixes raw DECIMAL_SUFFIXES 1000.

Definition parse_resource_quantity (resource_key quantity : string) : option Z :=
  if resource_key =?s "cpu" then parse_cpu_milli quantity
  else if is_binary_quantity_resource resource_key then parse_memory_bytes quantity
  else parse_decimal_si_quantity resource_key quantity.

(** ** Formatting *)

Definition format_cpu_milli (milli : Z) : string :=
  if Z.rem milli 1000 =? 0 then to_string (Z.quot milli 1000)
  else to_string milli +:+ "m".

Definition format_units : list (string * Z) :=
  [("Ei", 1024 ^ 6); ("Pi", 1024 ^ 5); ("Ti", 1024 ^ 4);
   ("Gi", 1024 ^ 3); ("Mi", 1024 ^ 2); ("Ki", 1024)].

Fixpoint format_memory_loop (bytes : Z) (units : list (string * Z)) : string :=
  match units with
  | [] => to_string bytes
  | (suffix, size) :: rest =>
      if (size <=? bytes) && (Z.rem bytes size =? 0)
      then to_string (Z.quot bytes size) +:+ suffix
      else format_memory_loop bytes rest
  end.

Definition format_memory_bytes (bytes : Z) : string := format_memory_loop bytes format_units.

Definition format_resource_quantity (resource_key : string) (value : Z) : string :=
  if resource_key =?s "cpu" then format_cpu_milli value
  else if is_binary_quantity_resource resource_key then format_memory_bytes value
  else to_string value.

(** ** Pod effective resources *)

Definition container_quantity (bucket resource_key : string) (container : Value) : option Z :=
  resources ← get "resources" container;
  b ← get bucket resources;
  v ← get resource_key b;
  quantity ← as_str v;
  parse_resource_quantity resource_key quantity.

Definition containers_quantities (pod : Value) (toks : list string) (bucket resource_key : string)
    : list Z :=
  omap (container_quantity bucket resource_key) (default [] (pointer_array toks pod)).

(** [Iterator::sum::<i64>] of a release build, [Iterator::max]. *)
Definition sum_i64 (l : list Z) : Z := fold_left (fun a b => wrap_i64 (a + b)) l 0.
Definition max_i64 (l : list Z) : option Z :=
  match l with [] => None | x :: l' => Some (fold_left Z.max l' x) end.

Definition calculate_pod_effective_resource_for_key (pod : Value) (bucket resource_key : string) : Z :=
  let regular_sum :=
    sum_i64 (containers_quantities pod ["spec"; "containers"] bucket resource_key) in
  let init_max :=
    unwrap_or 0 (max_i64 (containers_quantities pod ["spec"; "initContainers"] bucket resource_key)) in
  Z.max regular_sum init_max.

(** ** Specification

    The exact rational a quantity denotes, scaled to the resource's unit and
    rounded up. *)

Definition suffix_num (s : option Suffix) : Z := match s with Some s => num s | None => 1 end.
Definition suffix_den (s : option Suffix) : Z := match s with Some s => den s | None => 1 end.

Definition ceil_div (a b : Z) : Z := (a + b - 1) / b.

Definition quantity_ceiling (r : QuantityRational) (suffix : option Suffix) (final_div : Z) : Z :=
  ceil_div (numerator r * 1000 * suffix_num suffix * 10 ^ Z.max 0 (exponent10 r))
           (10 ^ scale10 r * final_div * suffix_den suffix * 10 ^ Z.max 0 (- exponent10 r)).

Definition known_suffix (s : option Suffix) : Prop :=
  match s with
  | None => True
  | Some s => s ∈ (CPU_SUFFIXES ++ DECIMAL_SUFFIXES ++ BINARY_SUFFIXES)%list
  end.

(** What the parser guarantees of a parsed number, and the size of input the
    [u32] scale arithmetic is exact for. *)
Definition rational_ok (r : QuantityRational) (suffix : option Suffix) : Prop :=
  0 <= numerator r
  /\ 0 <= scale10 r <= 2147483600
  /\ i32_min < exponent10 r <= i32_max
  /\ (exponent10 r < 0 -> decimal_len (numerator r * 1000 * suffix_num suffix) + 4096 <= u32_max).

(** *** Ceiling division *)

Lemma ceil_div_cancel a b c : 0 < b -> 0 < c -> ceil_div (a * c) (b * c) = ceil_div a b.
Proof.
  intros Hb Hc. unfold ceil_div.
  pose proof (Z.div_mod (a + b - 1) b ltac:(lia)) as Hd.
  pose proof (Z.mod_pos_bound (a + b - 1) b Hb) as Hm.
  set (q := (a + b - 1) / b) in *. set (m := (a + b - 1) mod b) in *.
  symmetry. apply Z.div_unique with (r := m * c + c - 1); nia.
Qed.

Lemma ceil_div_1 a : ceil_div a 1 = a.
Proof. unfold ceil_div. rewrite Z.div_1_r. lia. Qed.

Lemma ceil_div_small a b : 0 < a <= b -> ceil_div a b = 1.
Proof. intros. unfold ceil_div. symmetry. apply Z.div_unique with (r := a - 1); lia. Qed.

Lemma ceil_div_0 b : 0 < b -> ceil_div 0 b = 0.
Proof. intros. unfold ceil_div. apply Z.div_small. lia. Qed.

Lemma ceil_div_nonneg a b : 0 <= a -> 0 < b -> 0 <= ceil_div a b.
Proof. intros. unfold ceil_div. apply Z.div_pos; lia. Qed.

Lemma ceil_div_bigint_spec a b : 0 <= a -> 0 < b -> ceil_div_bigint a b = Some (ceil_div a b).
Proof.
  intros Ha Hb. unfold ceil_div_bigint, ceil_div.
  destruct (Z.ltb_spec a 0); [lia|]. destruct (Z.leb_spec b 0); [lia|]. simpl.
  rewrite Z.quot_div_nonneg, Z.rem_mod_nonneg by lia.
  pose proof (Z.div_mod a b ltac:(lia)). pose proof (Z.mod_pos_bound a b Hb).
  destruct (Z.eqb_spec (a mod b) 0); f_equal.
  - apply Z.div_unique with (r := b - 1); lia.
  - apply Z.div_unique with (r := a mod b - 1); lia.
Qed.

Lemma bounded_big_i64_spec z : 0 <= z -> bounded_big_i64 z = Some (Z.min i64_max z).
Proof.
  intros Hz. unfold bounded_big_i64. destruct (Z.ltb_spec z 0); [lia|].
  destruct (Z.leb_spec z i64_max); f_equal; lia.
Qed.

(** *** The known suffixes *)

Definition suffix_okb (s : Suffix) : bool :=
  (0 <? num s)
  && match decimal_power_scale (den s) with
     | Some k => (0 <=? k) && (k <=? 9) && (den s =? 10 ^ k)
     | None => false
     end.

Lemma known_suffix_ok s :
  known_suffix s ->
  0 < suffix_num s
  /\ exists k, 0 <= k <= 9 /\ suffix_den s = 10 ^ k /\ decimal_power_scale (suffix_den s) = Some k.
Proof.
  destruct s as [s|]; simpl; [|intros _; split; [lia|]; by exists 0].
  intros Hs.
  assert (Hall : forallb suffix_okb (CPU_SUFFIXES ++ DECIMAL_SUFFIXES ++ BINARY_SUFFIXES)%list = true)
    by by vm_compute.
  rewrite forallb_forall in Hall. specialize (Hall s (proj1 (list_elem_of_In _ _) Hs)).
  unfold suffix_okb in Hall. destruct (decimal_power_scale (den s)) as [k|] eqn:E; to_prop; [|done].
  split; [lia|]. exists k. split_and!; auto.
Qed.

Lemma final_div_ok d :
  d = 1 \/ d = 1000 -> exists k, 0 <= k <= 3 /\ d = 10 ^ k /\ decimal_power_scale d = Some k.
Proof. intros [->| ->]; [exists 0|exists 3]; split_and!; try done; lia. Qed.

(** *** Exactness of [apply_quantity] *)

Lemma checked_i32_small z : i32_min <= z <= i32_max -> checked_i32 z = Some z.
Proof. intros [??]. unfold checked_i32. by rewrite (proj2 (Z.leb_le _ _)), (proj2 (Z.leb_le _ _)). Qed.

Lemma normalize_decimal_exponent_spec n s e :
  0 <= s <= u32_max -> i32_min < e <= i32_max ->
  normalize_decimal_exponent n s e =
    Some (n, s - Z.max 0 (Z.min s e), e - Z.max 0 (Z.min s e)).
Proof.
  intros Hs He. unfold normalize_decimal_exponent, u32_max, i32_min, i32_max in *.
  destruct (Z.leb_spec e 0).
  - rewrite Z.max_l by lia. repeat f_equal; lia.
  - rewrite checked_u32_small by (unfold in_u32, u32_max; lia). simpl.
    rewrite checked_i32_small by (unfold i32_min, i32_max; lia). simpl.
    rewrite checked_i32_small by (unfold i32_min, i32_max; lia). simpl.
    rewrite Z.max_r by lia. done.
Qed.

Lemma i64_max_below_pow e : 4096 < e -> i64_max < 10 ^ e.
Proof.
  intros. eapply Z.lt_le_trans with (10 ^ 19); [by vm_compute|].
  apply Z.pow_le_mono_r; lia.
Qed.

(** The last step of [apply_quantity] on a fraction with a power-of-ten denominator. *)
Definition finish_quantity (n s : Z) : option Z :=
  denominator ← pow10_big s; scaled ← ceil_div_bigint n denominator; bounded_big_i64 scaled.

Lemma finish_quantity_spec n s :
  0 <= n -> 0 <= s -> finish_quantity n s = Some (Z.min i64_max (ceil_div n (10 ^ s))).
Proof.
  intros Hn Hs. unfold finish_quantity, pow10_big. simpl.
  assert (0 < 10 ^ s) by (apply Z.pow_pos_nonneg; lia).
  rewrite ceil_div_bigint_spec by lia. simpl.
  apply bounded_big_i64_spec. by apply ceil_div_nonneg.
Qed.

(** The scaled value for a numerator [n], a decimal scale [s] and an exponent
    [e], and the way [apply_quantity] computes it. *)
Definition exact_scaled (n s e : Z) : Z :=
  ceil_div (n * 10 ^ Z.max 0 e) (10 ^ s * 10 ^ Z.max 0 (- e)).

Lemma exact_scaled_nonneg_exp n s e :
  0 < n -> 0 <= s -> 0 <= e ->
  exact_scaled n s e = ceil_div (n * 10 ^ (e - Z.min s e)) (10 ^ (s - Z.min s e)).
Proof.
  intros Hn Hs He. unfold exact_scaled.
  rewrite (Z.max_r 0 e), (Z.max_l 0 (- e)), Z.pow_0_r, Z.mul_1_r by lia.
  set (c := Z.min s e). assert (Hc : 0 <= c <= s /\ c <= e) by lia.
  replace (10 ^ e) with (10 ^ (e - c) * 10 ^ c) by (rewrite <- Z.pow_add_r by lia; f_equal; lia).
  replace (10 ^ s) with (10 ^ (s - c) * 10 ^ c) by (rewrite <- Z.pow_add_r by lia; f_equal; lia).
  rewrite Z.mul_assoc. apply ceil_div_cancel; apply Z.pow_pos_nonneg; lia.
Qed.

Lemma exact_scaled_neg_exp n s e :
  0 <= s -> e <= 0 -> exact_scaled n s e = ceil_div n (10 ^ (s + - e)).
Proof.
  intros Hs He. unfold exact_scaled.
  rewrite (Z.max_l 0 e), (Z.max_r 0 (- e)), Z.pow_0_r, Z.mul_1_r by lia.
  by rewrite <- Z.pow_add_r by lia.
Qed.

Lemma exact_scaled_huge n s e :
  0 < n -> 0 <= s -> 4096 < e - Z.min s e -> 0 <= e -> i64_max <= exact_scaled n s e.
Proof.
  intros Hn Hs Hcap He. rewrite exact_scaled_nonneg_exp by lia.
  rewrite (Z.min_l s e) in * by lia. replace (s - s) with 0 by lia.
  rewrite Z.pow_0_r, ceil_div_1. pose proof (i64_max_below_pow (e - s) Hcap). nia.
Qed.

Lemma exact_scaled_tiny n s e :
  0 < n -> 0 <= s -> e < 0 -> decimal_len n < - e -> exact_scaled n s e = 1.
Proof.
  intros Hn Hs He Hlen. rewrite exact_scaled_neg_exp by lia.
  apply ceil_div_small. split; [done|].
  pose proof (to_string_bound n ltac:(lia)) as Hb. unfold decimal_len in Hlen.
  apply Z.lt_le_incl. eapply Z.lt_le_trans; [exact Hb|].
  apply Z.pow_le_mono_r; lia.
Qed.

Lemma quantity_ceiling_exact_scaled r suffix d kf ks :
  0 <= scale10 r -> 0 <= kf -> 0 <= ks -> d = 10 ^ kf -> suffix_den suffix = 10 ^ ks ->
  quantity_ceiling r suffix d =
    exact_scaled (numerator r * 1000 * suffix_num suffix) (scale10 r + kf + ks) (exponent10 r).
Proof.
  intros Hs Hkf Hks -> Hden. unfold quantity_ceiling, exact_scaled.
  rewrite Hden, <- !Z.pow_add_r by lia. done.
Qed.

Lemma apply_quantity_exact_scaled r suffix d :
  known_suffix suffix -> d = 1 \/ d = 1000 -> rational_ok r suffix ->
  apply_quantity r suffix d = Some (Z.min i64_max (quantity_ceiling r suffix d)).
Proof.
  intros Hsuf Hd (Hn & Hs & He & Hlen).
  destruct (known_suffix_ok _ Hsuf) as (Hnum & ks & Hks & Hden & Eks).
  destruct (final_div_ok _ Hd) as (kf & Hkf & Hfd & Ekf).
  rewrite (quantity_ceiling_exact_scaled r suffix d kf ks) by (done || lia).
  unfold apply_quantity. fold (suffix_num suffix) (suffix_den suffix).
  set (n := numerator r * 1000 * suffix_num suffix) in *.
  unfold i32_min, i32_max, u32_max in *.
  destruct (Z.eqb_spec n 0) as [->|Hn0].
  { unfold exact_scaled. rewrite Z.mul_0_l, ceil_div_0; [done|].
    rewrite <- Z.pow_add_r by lia. apply Z.pow_pos_nonneg; lia. }
  assert (Hpos : 0 < n) by nia.
  rewrite Ekf, Eks. cbn [mbind option_bind].
  rewrite checked_u32_small by (unfold in_u32, u32_max; lia). cbn [mbind option_bind].
  rewrite checked_u32_small by (unfold in_u32, u32_max; lia). cbn [mbind option_bind].
  set (s := scale10 r + kf + ks) in *. set (e := exponent10 r) in *.
  rewrite normalize_decimal_exponent_spec by (unfold u32_max, i32_min, i32_max; lia).
  cbn [mbind option_bind]. fold (finish_quantity (n * 10 ^ (e - Z.max 0 (Z.min s e)))
    (s - Z.max 0 (Z.min s e))) (finish_quantity n (s - Z.max 0 (Z.min s e))).
  destruct (Z.ltb_spec 0 (e - Z.max 0 (Z.min s e))) as [Hpe|Hpe];
    [|destruct (Z.ltb_spec (e - Z.max 0 (Z.min s e)) 0) as [Hne|Hne]].
  - rewrite (Z.max_r 0 (Z.min s e)) in * by lia.
    destruct (Z.ltb_spec 4096 (e - Z.min s e)) as [Hcap|Hcap].
    + pose proof (exact_scaled_huge n s e Hpos ltac:(lia) Hcap ltac:(lia)).
      by rewrite Z.min_l by lia.
    + unfold pow10_big at 1. cbn [mbind option_bind].
      rewrite exact_scaled_nonneg_exp by lia.
      apply (finish_quantity_spec (n * 10 ^ (e - Z.min s e))); [|lia].
      pose proof (Z.pow_nonneg 10 (e - Z.min s e)). nia.
  - assert (e < 0) by lia. rewrite (Z.max_l 0 (Z.min s e)) in * by lia.
    rewrite !Z.sub_0_r in *. specialize (Hlen ltac:(lia)).
    rewrite checked_i32_small by (unfold i32_min, i32_max; lia). cbn [mbind option_bind].
    rewrite (checked_u32_small (- e)) by (unfold in_u32, u32_max; lia). cbn [mbind option_bind].
    assert (0 <= decimal_len n) by (unfold decimal_len, str_len; lia).
    rewrite (checked_u32_small (decimal_len n)) by (unfold in_u32, u32_max; lia).
    cbn [mbind option_bind].
    unfold wrapping_add_u32. rewrite Z.mod_small by lia.
    destruct (Z.ltb_spec (decimal_len n + 4096) (- e)).
    + rewrite exact_scaled_tiny by lia. done.
    + rewrite checked_u32_small by (unfold in_u32, u32_max; lia). cbn [mbind option_bind].
      rewrite exact_scaled_neg_exp by lia. apply finish_quantity_spec; lia.
  - assert (e - Z.max 0 (Z.min s e) = 0) as Hz by lia.
    assert (0 <= e) by lia. rewrite (Z.max_r 0 (Z.min s e)) in * by lia.
    rewrite exact_scaled_nonneg_exp by lia. rewrite Hz, Z.pow_0_r, Z.mul_1_r.
    apply finish_quantity_spec; lia.
Qed.

(** *** What the number parser accepts *)

Lemma parse_decimal_digits_loop_bound v raw n :
  0 <= v -> parse_decimal_digits_loop v raw = Some n ->
  0 <= n < (v + 1) * 10 ^ Z.of_nat (String.length raw).
Proof.
  revert v. induction raw as [|c raw IH]; intros v Hv; cbn -[Z.pow Z.of_nat].
  - intros [= <-]. change (10 ^ Z.of_nat 0) with 1. lia.
  - destruct ((digit_value c <? 0) || (9 <? digit_value c)) eqn:E; [done|]. to_prop.
    intros Hn. apply IH in Hn; [|lia].
    rewrite Nat2Z.inj_succ, Z.pow_succ_r by lia. nia.
Qed.

Lemma parse_decimal_digits_bound raw n :
  (if is_empty raw then Some 0 else parse_decimal_digits raw) = Some n ->
  0 <= n < 10 ^ Z.of_nat (String.length raw).
Proof.
  destruct raw as [|c raw]; cbn [is_empty].
  - intros [= <-]. by vm_compute.
  - intros H. apply parse_decimal_digits_loop_bound in H; lia.
Qed.

Lemma checked_u32_Some z y : checked_u32 z = Some y -> y = z /\ in_u32 z.
Proof. unfold checked_u32, in_u32. intros H. case_match; to_prop; simplify_eq; lia. Qed.

Lemma checked_i32_Some z y : checked_i32 z = Some y -> y = z /\ i32_min <= z <= i32_max.
Proof. unfold checked_i32. intros H. case_match; to_prop; simplify_eq; lia. Qed.

Lemma no_exponent_bound raw n s :
  parse_decimal_rational_no_exponent raw = Some (n, s) ->
  0 <= s <= str_len raw /\ 0 <= n < 10 ^ str_len raw.
Proof.
  unfold parse_decimal_rational_no_exponent.
  set (p := match split_once "." raw with Some p => p | None => (raw, "") end).
  assert (Hlen : (String.length p.1 + String.length p.2 <= String.length raw)%nat).
  { subst p. destruct (split_once "." raw) as [[a b]|] eqn:E; simpl; [|lia].
    apply split_once_Some in E. subst. rewrite !str_app_length. simpl. lia. }
  destruct p as [ip fp]. simpl in Hlen. intros H. do 3 (case_match; [done|]).
  apply bind_Some in H as (iv & Hiv%parse_decimal_digits_bound & H).
  apply bind_Some in H as (sc & [-> Hsc]%checked_u32_Some & H). unfold pow10_big in H.
  cbn [mbind option_bind] in H.
  apply bind_Some in H as (fv & Hfv%parse_decimal_digits_bound & [= <- <-]).
  pose proof (trim_end_matches_len "0" fp) as Ht. unfold str_len in *.
  set (t := trim_end_matches "0" fp) in *. split; [lia|].
  set (li := Z.of_nat (String.length ip)) in *. set (lf := Z.of_nat (String.length t)) in *.
  assert (10 ^ li * 10 ^ lf <= 10 ^ Z.of_nat (String.length raw)).
  { rewrite <- Z.pow_add_r by lia. apply Z.pow_le_mono_r; lia. }
  nia.
Qed.

Lemma split_exponent_bound raw number e :
  split_exponent raw = Some (number, e) ->
  str_len number <= str_len raw /\ i32_min <= e <= i32_max.
Proof.
  unfold split_exponent, str_len. intros H.
  apply bind_Some in H as ([idx|] & _ & H).
  - case_match; [done|]. apply bind_Some in H as (x & Hx & [= <- <-]).
    pose proof (substring_len 0 idx raw). split; [lia|].
    unfold parse_i32 in Hx. repeat case_match; try done;
      apply bind_Some in Hx as (v & _ & Hv%checked_i32_Some); lia.
  - simplify_eq. unfold i32_min, i32_max. lia.
Qed.

Lemma parse_decimal_rational_bound raw b r :
  parse_decimal_rational raw b = Some r ->
  0 <= numerator r < 10 ^ str_len raw /\ 0 <= scale10 r <= str_len raw
  /\ i32_min <= exponent10 r <= i32_max.
Proof.
  unfold parse_decimal_rational. intros H. case_match; [done|].
  set (raw' := unwrap_or raw (strip_prefix "+" raw)) in *.
  assert (Hlen : str_len raw' <= str_len raw).
  { subst raw'. destruct (strip_prefix "+" raw) as [t|] eqn:E; simpl; [|lia].
    apply strip_prefix_Some in E. subst. unfold str_len. rewrite str_app_length. lia. }
  repeat case_match; try done.
  apply bind_Some in H as ([number e] & He%split_exponent_bound & H).
  apply bind_Some in H as ([n s] & Hn%no_exponent_bound & [= <-]). simpl.
  assert (10 ^ str_len number <= 10 ^ str_len raw) by (apply Z.pow_le_mono_r; lia).
  unfold str_len in *. lia.
Qed.

Lemma suffix_num_bound s : known_suffix s -> suffix_num s <= 10 ^ 19.
Proof.
  destruct s as [s|]; simpl; [|lia]. intros Hs.
  assert (Hall : forallb (fun s => num s <=? 10 ^ 19)
    (CPU_SUFFIXES ++ DECIMAL_SUFFIXES ++ BINARY_SUFFIXES)%list = true) by by vm_compute.
  rewrite forallb_forall in Hall. specialize (Hall s (proj1 (list_elem_of_In _ _) Hs)). to_prop. lia.
Qed.

Lemma parsed_rational_ok raw b r suffix :
  parse_decimal_rational raw b = Some r -> known_suffix suffix ->
  str_len raw <= 2147483600 -> exponent10 r <> i32_min -> rational_ok r suffix.
Proof.
  intros (Hn & Hs & He)%parse_decimal_rational_bound Hsuf Hlen Hmin.
  unfold rational_ok. split_and!; try lia. intros _.
  pose proof (suffix_num_bound _ Hsuf). pose proof (proj1 (known_suffix_ok _ Hsuf)).
  set (k := Z.to_nat (str_len raw + 21)).
  assert (Hb : 0 <= numerator r * 1000 * suffix_num suffix < 10 ^ Z.of_nat (S k)).
  { assert (0 <= str_len raw) by (unfold str_len; lia).
    replace (Z.of_nat (S k)) with (str_len raw + 22) by lia.
    rewrite Z.pow_add_r by lia. change (10 ^ 22) with (1000 * 10 ^ 19). nia. }
  apply to_string_len in Hb. unfold decimal_len, u32_max. lia.
Qed.

Lemma split_suffix_known raw suffixes number s :
  Forall (fun s => known_suffix (Some s)) suffixes ->
  split_suffix raw suffixes = Some (number, s) ->
  known_suffix (Some s) /\ str_len number <= str_len raw /\ raw = number +:+ text s.
Proof.
  induction 1 as [|x l Hx _ IH]; cbn [split_suffix]; [done|].
  destruct (strip_suffix (text x) raw) as [t|] eqn:E; [|done].
  destruct (is_empty t); [done|]. intros [= <- <-].
  apply strip_suffix_Some in E. subst. split_and!; try done.
  unfold str_len. rewrite str_app_length. lia.
Qed.

Lemma suffix_tables_known :
  Forall (fun s => known_suffix (Some s)) CPU_SUFFIXES
  /\ Forall (fun s => known_suffix (Some s)) DECIMAL_SUFFIXES
  /\ Forall (fun s => known_suffix (Some s)) BINARY_SUFFIXES.
Proof.
  unfold known_suffix. split_and!; apply Forall_forall; intros s Hs;
    rewrite !elem_of_app; auto.
Qed.



Lemma bounded_big_i64_range z v : bounded_big_i64 z = Some v -> 0 <= v <= i64_max.
Proof. unfold bounded_big_i64, i64_max. intros H. repeat case_match; to_prop; simplify_eq; lia. Qed.

Lemma finish_quantity_range n s v : finish_quantity n s = Some v -> 0 <= v <= i64_max.
Proof.
  intros H. unfold finish_quantity in H. apply bind_Some in H as (? & _ & H).
  apply bind_Some in H as (? & _ & H). by eapply bounded_big_i64_range.
Qed.

Lemma apply_quantity_range r s d v : apply_quantity r s d = Some v -> 0 <= v <= i64_max.
Proof.
  intros H. unfold apply_quantity in H. case_match; [simplify_eq; by vm_compute|].
  do 4 (apply bind_Some in H as (? & _ & H)). apply bind_Some in H as ([[n sc] e] & _ & H).
  case_match; [case_match; [simplify_eq; by vm_compute|]|case_match].
  - apply bind_Some in H as (? & _ & H). by eapply finish_quantity_range.
  - do 3 (apply bind_Some in H as (? & _ & H)). case_match; [simplify_eq; by vm_compute|].
    apply bind_Some in H as (? & _ & H). by eapply finish_quantity_range.
  - by eapply finish_quantity_range.
Qed.

Lemma parse_with_suffixes_range raw l d v :
  parse_quantity_with_suffixes raw l d = Some v -> 0 <= v <= i64_max.
Proof.
  intros H. unfold parse_quantity_with_suffixes in H. case_match; [done|].
  case_match. apply bind_Some in H as (? & _ & H). by eapply apply_quantity_range.
Qed.

Lemma parse_resource_quantity_bounds resource_key quantity v :
  parse_resource_quantity resource_key quantity = Some v -> 0 <= v <= i64_max.
Proof.
  unfold parse_resource_quantity, parse_cpu_milli, parse_decimal_si_quantity, parse_memory_bytes.
  intros H. do 2 (case_match; [try by eapply parse_with_suffixes_range|]);
    [|by eapply parse_with_suffixes_range].
  case_match; [done|]. repeat case_match; try by eapply parse_with_suffixes_range.
  all: apply bind_Some in H as (? & _ & H); by eapply apply_quantity_range.
Qed.

(** Whatever text is parsed, an accepted quantity is a non-negative [i64]. *)
Theorem parse_resource_quantity_range resource_key quantity v :
  parse_resource_quantity resource_key quantity = Some v -> 0 <= v <= i64_max.
Proof. apply parse_resource_quantity_bounds. Qed.

Lemma parse_resource_quantity_range_witness :
  parse_resource_quantity "storage" "10Ei" = Some i64_max /\ 0 <= i64_max <= i64_max.
Proof.
  split; [vm_compute; reflexivity|].
  apply (parse_resource_quantity_range "storage" "10Ei"). vm_compute. reflexivity.
Defined.

(** *** Parsing what the formatter writes *)

Lemma parse_decimal_digits_text v l :
  Forall is_digit_Z l -> parse_decimal_digits_loop v (digit_text l) = Some (value_of_digits v l).
Proof.
  intros Hl. revert v. induction Hl as [|d l Hd Hl IH]; intros v; [done|].
  change (digit_text (d :: l)) with (String (digit_char d) (digit_text l)).
  cbn [parse_decimal_digits_loop]. rewrite digit_value_char by done. unfold is_digit_Z in Hd.
  destruct (Z.ltb_spec d 0); [lia|]. destruct (Z.ltb_spec 9 d); [lia|]. cbn [orb]. by rewrite IH.
Qed.

Lemma digit_not (x : ascii) c :
  is_ascii_digit x = false -> is_ascii_digit c = true -> Ascii.eqb x c = false.
Proof. destruct (Ascii.eqb_spec x c); congruence. Qed.

Lemma no_char_in_digits x s :
  is_ascii_digit x = false -> all_chars is_ascii_digit s = true -> any_char (Ascii.eqb x) s = false.
Proof. intros Hx Hs. eapply any_char_none; [exact Hs|]. intros. by apply digit_not. Qed.

Lemma exponent_marker_digits idx s :
  all_chars is_ascii_digit s = true -> exponent_marker idx None s = Some None.
Proof.
  revert idx. induction s as [|c s IH]; intros idx; [done|]. unfold all_chars. cbn.
  intros [Hc Hs]%andb_true_iff.
  rewrite (Ascii.eqb_sym c "e"), (Ascii.eqb_sym c "E"), !digit_not by done. by apply IH.
Qed.

Lemma strip_prefix_not_digit x s :
  is_ascii_digit x = false -> all_chars is_ascii_digit s = true ->
  strip_prefix (String x "") s = None.
Proof.
  destruct s as [|c s]; [done|]. unfold all_chars. cbn. intros Hx [Hc _]%andb_true_iff.
  by rewrite digit_not.
Qed.

Lemma parse_decimal_rational_to_string n allow :
  0 <= n ->
  parse_decimal_rational (to_string n) allow
    = Some {| numerator := n; scale10 := 0; exponent10 := 0 |}.
Proof.
  intros Hn. destruct (to_string_digits n Hn) as [Hd Hne].
  destruct (digits_spec n Hn) as (Hds & Hv & _).
  assert (He : is_empty (to_string n) = false) by by destruct (to_string n).
  unfold parse_decimal_rational, starts_with.
  rewrite He, (strip_prefix_not_digit "-"), (strip_prefix_not_digit "+") by done.
  cbn [orb opt_is_some unwrap_or]. rewrite He.
  rewrite (any_char_none (fun c => Ascii.eqb c "e" || Ascii.eqb c "E") is_ascii_digit) by
    (try done; intros c Hc; by rewrite (Ascii.eqb_sym c "e"), (Ascii.eqb_sym c "E"), !digit_not).
  rewrite andb_false_r. unfold split_exponent. rewrite exponent_marker_digits by done.
  cbn [mbind option_bind]. unfold parse_decimal_rational_no_exponent, contains.
  rewrite split_once_None_char by by apply no_char_in_digits.
  cbn [trim_end_matches is_empty]. rewrite He. cbn [andb].
  rewrite (any_char_none (fun c => negb (is_ascii_digit c)) is_ascii_digit)
    by (try done; intros c Hc; by rewrite Hc).
  change (any_char (fun c => negb (is_ascii_digit c)) "") with false.
  unfold parse_decimal_digits. rewrite to_string_nonneg at 1 by done.
  rewrite parse_decimal_digits_text, Hv by done.
  change (checked_u32 (str_len "")) with (Some 0). cbn [mbind option_bind pow10_big].
  do 3 f_equal. lia.
Qed.

(** Text the formatter writes: digits and a unit. *)
Lemma formatted_trim n suf :
  0 <= n -> all_chars is_visible suf = true ->
  trim (to_string n +:+ suf) = to_string n +:+ suf /\ is_empty (to_string n +:+ suf) = false.
Proof.
  intros Hn Hs. destruct (to_string_digits n Hn) as [Hd Hne]. split.
  - apply trim_visible. rewrite all_chars_app, Hs, andb_true_r.
    eapply all_chars_weaken; [apply digit_visible|done].
  - by destruct (to_string n).
Qed.

Lemma split_suffix_digits n l :
  0 <= n -> Forall (fun s => all_chars is_ascii_digit (text s) = false) l ->
  split_suffix (to_string n) l = None.
Proof.
  intros Hn. destruct (to_string_digits n Hn) as [Hd _].
  induction 1 as [|s l Hs _ IH]; [done|]. cbn [split_suffix].
  destruct (strip_suffix (text s) (to_string n)) as [r|] eqn:E; [|done].
  apply strip_suffix_Some in E. rewrite E, all_chars_app, Hs, andb_false_r in Hd. done.
Qed.

(** The first table entry whose text ends the input wins, the texts having one
    common length. *)
Lemma split_suffix_table n s l1 l2 k :
  0 <= n -> Forall (fun s' => String.length (text s') = k) (l1 ++ s :: l2)%list ->
  Forall (fun s' => text s' <> text s) l1 ->
  split_suffix (to_string n +:+ text s) (l1 ++ s :: l2)%list = Some (to_string n, s).
Proof.
  intros Hn Hlen Hne. destruct (to_string_digits n Hn) as [_ Hnn].
  induction Hne as [|s' l1 Hs' _ IH]; cbn [app split_suffix].
  - rewrite strip_suffix_app. by destruct (to_string n).
  - apply Forall_cons in Hlen as [Hk Hlen].
    rewrite strip_suffix_other; [by apply IH| |done].
    rewrite Hk. apply Forall_app in Hlen as [_ Hlen]. by apply Forall_cons in Hlen as [-> _].
Qed.

Lemma integer_quantity n suffix d :
  0 <= n -> known_suffix suffix -> d = 1 \/ d = 1000 ->
  apply_quantity {| numerator := n; scale10 := 0; exponent10 := 0 |} suffix d
    = Some (Z.min i64_max (ceil_div (n * 1000 * suffix_num suffix) (d * suffix_den suffix))).
Proof.
  intros Hn Hs Hd. rewrite apply_quantity_exact_scaled; [|done|done|].
  - unfold quantity_ceiling. cbn [numerator scale10 exponent10].
    change (10 ^ Z.max 0 0) with 1. change (10 ^ Z.max 0 (- 0)) with 1. change (10 ^ 0) with 1.
    by rewrite !Z.mul_1_r, Z.mul_1_l.
  - unfold rational_ok. cbn. unfold i32_min, i32_max. lia.
Qed.

Lemma ceil_div_exact a b c : 0 < b -> a = c * b -> ceil_div a b = c.
Proof. intros Hb ->. unfold ceil_div. symmetry. apply Z.div_unique with (r := b - 1); lia. Qed.

Lemma parse_plain_integer n l d :
  0 <= n -> d = 1 \/ d = 1000 -> Forall (fun s => all_chars is_ascii_digit (text s) = false) l ->
  parse_quantity_with_suffixes (to_string n) l d = Some (Z.min i64_max (ceil_div (n * 1000) d)).
Proof.
  intros Hn Hd Hl. unfold parse_quantity_with_suffixes.
  destruct (formatted_trim n "" Hn eq_refl) as [Ht He]. rewrite str_app_nil_r in Ht, He.
  rewrite Ht, He, String.eqb_refl, split_suffix_digits by done. cbn [orb negb opt_is_none opt_is_some].
  rewrite parse_decimal_rational_to_string by done. cbn [mbind option_bind].
  rewrite integer_quantity by done. cbn [suffix_num suffix_den]. by rewrite !Z.mul_1_r.
Qed.

Lemma parse_memory_unit n l1 s l2 :
  0 <= n -> (l1 ++ s :: l2)%list = BINARY_SUFFIXES -> Forall (fun s' => text s' <> text s) l1 ->
  all_chars is_visible (text s) = true -> den s = 1 ->
  parse_memory_bytes (to_string n +:+ text s) = Some (Z.min i64_max (n * num s)).
Proof.
  intros Hn Hl Hne Hv Hden. unfold parse_memory_bytes.
  destruct (formatted_trim n (text s) Hn Hv) as [-> ->]. rewrite String.eqb_refl. cbn [orb negb].
  rewrite <- Hl. rewrite split_suffix_table with (k := 2%nat); [|done| |done].
  - rewrite parse_decimal_rational_to_string by done. cbn [mbind option_bind].
    rewrite integer_quantity; [|done| |by right].
    + cbn [suffix_num suffix_den]. rewrite Hden. do 2 f_equal. apply ceil_div_exact; lia.
    + apply (proj1 (Forall_forall _ _) (proj2 (proj2 suffix_tables_known))).
      rewrite <- Hl, elem_of_app. right. by left.
  - rewrite Hl. by repeat constructor.
Qed.

Lemma parse_memory_plain n : 0 <= n <= i64_max -> parse_memory_bytes (to_string n) = Some n.
Proof.
  intros Hn. unfold parse_memory_bytes.
  destruct (formatted_trim n "" (proj1 Hn) eq_refl) as [Ht He]. rewrite str_app_nil_r in Ht, He.
  rewrite Ht, He, String.eqb_refl. cbn [orb negb].
  rewrite !split_suffix_digits by (lia || by repeat constructor).
  rewrite parse_plain_integer by (lia || by (right || constructor)).
  rewrite (ceil_div_exact (n * 1000) 1000 n) by lia. f_equal. lia.
Qed.

(** A unit of [format_units] is the text and factor of a binary suffix. *)
Lemma parse_memory_formatted_unit n u size :
  (u, size) ∈ format_units -> 0 <= n -> n * size <= i64_max ->
  parse_memory_bytes (to_string n +:+ u) = Some (n * size).
Proof.
  intros Hu Hn Hmax.
  assert (Hsplit : exists l1 s l2, (l1 ++ s :: l2)%list = BINARY_SUFFIXES
      /\ Forall (fun s' => text s' <> text s) l1 /\ text s = u /\ num s = size
      /\ all_chars is_visible (text s) = true /\ den s = 1).
  { unfold format_units in Hu. rewrite !elem_of_cons in Hu. unfold BINARY_SUFFIXES.
    destruct Hu as [Hu|[Hu|[Hu|[Hu|[Hu|[Hu|Hu]]]]]]; [..|by apply not_elem_of_nil in Hu];
      injection Hu as -> ->.
    - eexists [_; _; _; _; _], _, []. by split_and!; try (repeat constructor).
    - eexists [_; _; _; _], _, [_]. by split_and!; try (repeat constructor).
    - eexists [_; _; _], _, [_; _]. by split_and!; try (repeat constructor).
    - eexists [_; _], _, [_; _; _]. by split_and!; try (repeat constructor).
    - eexists [_], _, [_; _; _; _]. by split_and!; try (repeat constructor).
    - eexists [], _, [_; _; _; _; _]. by split_and!; try (repeat constructor). }
  destruct Hsplit as (l1 & s & l2 & Hl & Hne & <- & <- & Hv & Hden).
  rewrite (parse_memory_unit n l1 s l2) by done. f_equal. lia.
Qed.

Lemma parse_format_memory v : 0 <= v <= i64_max -> parse_memory_bytes (format_memory_bytes v) = Some v.
Proof.
  intros Hv. unfold format_memory_bytes.
  assert (Hpos : Forall (fun p => 0 < p.2) format_units) by by repeat constructor.
  assert (Hin : format_units ⊆ format_units) by done. revert Hin.
  generalize format_units at 1 3. intros l Hin.
  assert (Hl : Forall (fun p => 0 < p.2) l).
  { apply Forall_forall. intros p Hp. by apply (proj1 (Forall_forall _ _) Hpos), Hin. }
  induction Hl as [|[u size] l Hsize _ IH]; cbn [format_memory_loop].
  - by apply parse_memory_plain.
  - simpl in Hsize. destruct ((size <=? v) && (Z.rem v size =? 0)) eqn:E.
    + to_prop. assert (Hq : Z.quot v size * size = v).
      { pose proof (Z.quot_rem v size ltac:(lia)). lia. }
      rewrite (parse_memory_formatted_unit _ _ size); [by rewrite Hq|apply Hin; by left| |lia].
      apply Z.quot_pos; lia.
    + apply IH. intros p Hp. apply Hin. by right.
Qed.

Lemma parse_format_cpu v : 0 <= v <= i64_max -> parse_cpu_milli (format_cpu_milli v) = Some v.
Proof.
  intros Hv. unfold format_cpu_milli, parse_cpu_milli.
  destruct (Z.eqb_spec (Z.rem v 1000) 0) as [Hr|Hr].
  - rewrite parse_plain_integer; [|apply Z.quot_pos; lia|by left|by repeat constructor].
    rewrite (ceil_div_exact _ 1 v) by (pose proof (Z.quot_rem v 1000); lia). f_equal. lia.
  - unfold parse_quantity_with_suffixes.
    destruct (formatted_trim v "m" (proj1 Hv) eq_refl) as [-> ->]. rewrite String.eqb_refl.
    pose proof (split_suffix_table v {| text := "m"; num := 1; den := 1000 |}
      (take 2 CPU_SUFFIXES) (drop 3 CPU_SUFFIXES) 1%nat (proj1 Hv)) as Hs.
    cbn [text] in Hs. change (take 2 CPU_SUFFIXES ++ _ :: drop 3 CPU_SUFFIXES)%list
      with CPU_SUFFIXES in Hs. rewrite Hs by by repeat constructor.
    cbn [orb negb opt_is_none opt_is_some].
    rewrite parse_decimal_rational_to_string by lia. cbn [mbind option_bind].
    rewrite integer_quantity; [|lia| |by left].
    + cbn [suffix_num suffix_den num den]. rewrite (ceil_div_exact _ _ v) by lia. f_equal. lia.
    + apply (proj1 (Forall_forall _ _) (proj1 suffix_tables_known)). right. right. by left.
Qed.

(** Formatting a non-negative [i64] and parsing the text back gives the
    same value, for every resource kind (cpu in milli units, memory-like
    resources with binary units, others plain). *)
Theorem parse_format_roundtrip resource_key v :
  0 <= v <= i64_max ->
  parse_resource_quantity resource_key (format_resource_quantity resource_key v) = Some v.
Proof.
  intros Hv. unfold parse_resource_quantity, format_resource_quantity.
  repeat case_match; [by apply parse_format_cpu|by apply parse_format_memory|].
  unfold parse_decimal_si_quantity.
  rewrite parse_plain_integer; [|lia|by right|by repeat constructor].
  rewrite (ceil_div_exact (v * 1000) 1000 v) by lia. f_equal. lia.
Qed.

Lemma parse_format_roundtrip_witness :
  format_resource_quantity "memory" 1610612736 = "1536Mi"
  /\ parse_resource_quantity "memory" (format_resource_quantity "memory" 1610612736)
     = Some 1610612736.
Proof.
  split; [vm_compute; reflexivity|]. apply (parse_format_roundtrip "memory" 1610612736).
  unfold i64_max. lia.
Defined.

(** *** Pod totals *)

Definition list_sum (l : list Z) : Z := fold_right Z.add 0 l.

Lemma containers_quantities_bounds pod toks bucket key :
  Forall (fun v => 0 <= v <= i64_max) (containers_quantities pod toks bucket key).
Proof.
  unfold containers_quantities. apply Forall_forall. intros v Hv.
  apply list_elem_of_omap in Hv as (c & _ & Hc). unfold container_quantity in Hc.
  do 4 (apply bind_Some in Hc as (? & _ & Hc)). by eapply parse_resource_quantity_bounds.
Qed.

Lemma sum_i64_exact_from l acc :
  Forall (fun v => 0 <= v <= i64_max) l -> 0 <= acc -> acc + list_sum l <= i64_max ->
  fold_left (fun a b => wrap_i64 (a + b)) l acc = acc + list_sum l.
Proof.
  intros Hl. revert acc. induction Hl as [|v l Hv Hl IH]; intros acc Ha Hs; cbn in *; [lia|].
  assert (0 <= list_sum l). { clear -Hl. induction Hl; cbn; [lia|]. unfold list_sum in *. lia. }
  unfold list_sum in *. rewrite wrap_i64_small by (unfold in_i64, i64_min; lia).
  rewrite IH; lia.
Qed.

Lemma fold_max_spec l x : fold_left Z.max l x = Z.max x (fold_right Z.max x l).
Proof.
  revert x. induction l as [|y l IH]; intros x; cbn; [lia|]. rewrite IH.
  assert (H : forall z, fold_right Z.max (Z.max x z) l = Z.max z (fold_right Z.max x l)).
  { intros z. clear. induction l; cbn; lia. }
  rewrite H. lia.
Qed.

Lemma max_i64_default l :
  Forall (fun v => 0 <= v <= i64_max) l -> unwrap_or 0 (max_i64 l) = fold_right Z.max 0 l.
Proof.
  destruct l as [|x l]; [done|]. intros [Hx _]%Forall_cons. cbn [max_i64 unwrap_or fold_right].
  rewrite fold_max_spec. clear -Hx. induction l; cbn; lia.
Qed.

(** While the regular containers' quantities do not add up past [i64::MAX],
    the effective resource of a pod is the larger of their sum and of the
    largest init container quantity. *)
Theorem effective_resource_exact pod bucket key :
  list_sum (containers_quantities pod ["spec"; "containers"] bucket key) <= i64_max ->
  calculate_pod_effective_resource_for_key pod bucket key
    = Z.max (list_sum (containers_quantities pod ["spec"; "containers"] bucket key))
            (fold_right Z.max 0 (containers_quantities pod ["spec"; "initContainers"] bucket key)).
Proof.
  intros Hs. unfold calculate_pod_effective_resource_for_key, sum_i64.
  rewrite sum_i64_exact_from by (apply containers_quantities_bounds || lia).
  by rewrite max_i64_default by apply containers_quantities_bounds.
Qed.

(** A container that requests the given memory. *)
Definition memory_container (q : string) : Value :=
  Object [("name", Str "c"); ("resources", Object [("requests", Object [("memory", Str q)])])].

Lemma effective_resource_exact_witness :
  calculate_pod_effective_resource_for_key
    (Object [("spec", Object [("containers", Array [memory_container "1Gi"; memory_container "512Mi"]);
                              ("initContainers", Array [memory_container "1Gi"])])])
    "requests" "memory" = 1610612736.
Proof.
  rewrite effective_resource_exact; [vm_compute; reflexivity|vm_compute; discriminate].
Defined.

(** Past that bound the release build's sum wraps around: two containers
    that each request a quantity capped at [i64::MAX] make a pod whose effective
    resource is 0, so it no longer dominates the request of either container. *)
Theorem effective_resource_wraps :
  exists pod,
    containers_quantities pod ["spec"; "containers"] "requests" "memory" = [i64_max; i64_max]
    /\ calculate_pod_effective_resource_for_key pod "requests" "memory" = 0.
Proof.
  exists (Object [("spec", Object [("containers",
    Array [memory_container "10Ei"; memory_container "10Ei"])])]).
  by vm_compute.
Qed.
