(* ===== verification/Replay.v ===== *)
(** * Durable watch replay

    The cursor arithmetic of [klights-cluster-core/src/replay.rs], the page and
    request validation of [klights-cluster-store/src/durable_recovery.rs] and
    [raw_watch_history.rs], and the retention boundaries of
    [replay_retention.rs].  The positioned reads of [redb/read_core.rs] are
    built on top of them as [positioned_watch_events].

    A formatted error message is represented by a constructor that says which
    message it is. *)

From S2P Require Import Prelude Text.
Open Scope Z_scope.

(** ** The cursor *)

Record WatchReplayPosition := Position {
  pos_resource_version : Z;
  pos_event_id : Z;
  pos_filter_through : Z  (* resource_version_filter_through_event_id *)
}.

Definition position_eqb (a b : WatchReplayPosition) : bool :=
  (pos_resource_version a =? pos_resource_version b)
  && (pos_event_id a =? pos_event_id b)
  && (pos_filter_through a =? pos_filter_through b).

Inductive ReplayError :=
| NegativePosition (p : WatchReplayPosition)
| CompletedFilterBoundary (p : WatchReplayPosition)
| CompositeNotExact (p : WatchReplayPosition)
| NotStrictlyAfter (event cursor : WatchReplayPosition)
| ExcludedByComposite (event cursor : WatchReplayPosition)
| HighWaterRegresses (high_water : Z) (cursor : WatchReplayPosition).

Definition from_resource_version (rv : Z) : WatchReplayPosition := Position rv 0 0.

Definition from_resource_version_through_event_id (rv event_id : Z) : WatchReplayPosition :=
  Position rv 0 event_id.

Definition represents_event (self : WatchReplayPosition) (event_id resource_version : Z) : bool :=
  if event_id <=? pos_event_id self then true
  else if 0 <? pos_filter_through self then
    (event_id <=? pos_filter_through self) && (resource_version <=? pos_resource_version self)
  else (pos_event_id self =? 0) && (resource_version <=? pos_resource_version self).

Definition validate (self : WatchReplayPosition) : result ReplayError unit :=
  if (pos_resource_version self <? 0) || (pos_event_id self <? 0) || (pos_filter_through self <? 0)
  then Err (NegativePosition self)
  else if (0 <? pos_filter_through self) && (pos_filter_through self <=? pos_event_id self)
  then Err (CompletedFilterBoundary self)
  else Ok tt.

Definition validate_exact (self : WatchReplayPosition) : result ReplayError unit :=
  try? validate self in
  if negb (pos_filter_through self =? 0) then Err (CompositeNotExact self) else Ok tt.

Definition permits_successor (self next : WatchReplayPosition) : bool :=
  if is_err (validate self) || is_err (validate next) then false
  else if pos_event_id next <? pos_event_id self then false
  else if pos_event_id next =? pos_event_id self then position_eqb next self
  else
    let boundary := pos_filter_through self in
    if boundary =? 0 then pos_filter_through next =? 0
    else if pos_event_id next <? boundary then
      (pos_resource_version next =? pos_resource_version self)
      && (pos_filter_through next =? boundary)
    else pos_filter_through next =? 0.

Definition advance_through_event (self event : WatchReplayPosition)
  : result ReplayError WatchReplayPosition :=
  try? validate self in
  try? validate_exact event in
  if pos_event_id event <=? pos_event_id self then Err (NotStrictlyAfter event self)
  else if (0 <? pos_filter_through self)
          && (pos_event_id event <=? pos_filter_through self)
          && (pos_resource_version event <=? pos_resource_version self)
  then Err (ExcludedByComposite event self)
  else Ok (if (0 <? pos_filter_through self) && (pos_event_id event <? pos_filter_through self)
           then Position (pos_resource_version self) (pos_event_id event) (pos_filter_through self)
           else event).

Definition advance_to_high_water (self : WatchReplayPosition) (high_water : Z)
  : result ReplayError WatchReplayPosition :=
  try? validate self in
  if high_water <? pos_event_id self then Err (HighWaterRegresses high_water self)
  else if high_water =? pos_event_id self then Ok self
  else Ok (Position (pos_resource_version self) high_water
             (if high_water <? pos_filter_through self then pos_filter_through self else 0)).

Record PositionedWatchEvent (T : Type) := Positioned {
  pwe_position : WatchReplayPosition;
  pwe_event : T
}.
Arguments Positioned {T} _ _.
Arguments pwe_position {T} _.
Arguments pwe_event {T} _.

(** [None] is the panic of the source's [expect]. *)
Definition ok {E A} (r : result E A) : option A :=
  match r with Ok a => Some a | Err _ => None end.

Definition after_page {T} (current : WatchReplayPosition) (events : list (PositionedWatchEvent T))
    (high_water_event_id : Z) : option WatchReplayPosition :=
  match last events with
  | Some event => ok (advance_through_event current (pwe_position event))
  | None => ok (advance_to_high_water current high_water_event_id)
  end.

(** ** Requests and pages *)

Definition MAX_WATCH_HISTORY_PAGE : Z := 4096.

Inductive DurableWatchScope :=
| ScopeCluster
| ScopeNamespaced (namespace : option string).

Record DurableWatchTarget := Target {
  target_api_version : string;
  target_kind : string;
  target_scope : DurableWatchScope
}.

Inductive InvalidMessage :=
| MsgTargetIdentity
| MsgTargetNamespace
| MsgNoTarget
| MsgDuplicateTarget
| MsgReservedBackendIdentity.

Inductive CorruptMessage :=
| MsgPosition (e : ReplayError)
| MsgOutOfOrder
| MsgExceedsPage
| MsgContinuation (e : ReplayError)
| MsgNotCanonical (page cursor : WatchReplayPosition).

Inductive WatchHistoryError :=
| InvalidLimit (limit : Z)
| LimitTooLarge (limit maximum : Z)
| InvalidPosition (e : ReplayError)
| InvalidTarget (m : InvalidMessage)
| InvalidReplayFloor (e : option ReplayError)
| CorruptData (m : CorruptMessage).

Definition map_err {E F A} (f : E -> F) (r : result E A) : result F A :=
  match r with Ok a => Ok a | Err e => Err (f e) end.

Definition validate_replay_position (p : WatchReplayPosition) (exact : bool) : result ReplayError unit :=
  if exact then validate_exact p else validate p.

(** Identity syntax. *)
Definition is_ascii_alphabetic (c : ascii) : bool :=
  let n := Ascii.nat_of_ascii c in
  ((65 <=? n) && (n <=? 90) || (97 <=? n) && (n <=? 122))%nat.

Definition is_ascii_alphanumeric (c : ascii) : bool := is_ascii_alphabetic c || is_ascii_digit c.

Definition reserved_identity (value : string) : bool :=
  is_empty value || (value =?s "*") || (value =?s "#cluster").

Definition valid_dns_label (value : string) : bool :=
  negb (is_empty value) && (str_len value <=? 63)
  && is_some_and (head (bytes_of value)) is_ascii_alphanumeric
  && is_some_and (last (bytes_of value)) is_ascii_alphanumeric
  && all_chars (fun c => is_ascii_alphanumeric c || Ascii.eqb c "-") value.

Definition valid_dns_subdomain (value : string) : bool :=
  negb (is_empty value) && (str_len value <=? 253) && forallb valid_dns_label (split "." value).

Definition valid_namespace (value : string) : bool :=
  negb (reserved_identity value) && (str_len value <=? 63) && valid_dns_label value.

Definition valid_kind (value : string) : bool :=
  negb (reserved_identity value)
  && is_some_and (head (bytes_of value)) is_ascii_alphabetic
  && valid_dns_label value.

Definition valid_api_version (value : string) : bool :=
  if reserved_identity value then false
  else match split "/" value with
       | [] => valid_dns_label ""
       | [first] => valid_dns_label first
       | [first; version] => valid_dns_subdomain first && valid_dns_label version
       | _ => false
       end.

Definition validate_watch_target (t : DurableWatchTarget) : result WatchHistoryError unit :=
  if negb (valid_api_version (target_api_version t)) || negb (valid_kind (target_kind t))
  then Err (InvalidTarget MsgTargetIdentity)
  else match target_scope t with
       | ScopeNamespaced (Some ns) =>
           if negb (valid_namespace ns) then Err (InvalidTarget MsgTargetNamespace) else Ok tt
       | _ => Ok tt
       end.

Fixpoint try_for_each {E A} (f : A -> result E unit) (l : list A) : result E unit :=
  match l with
  | [] => Ok tt
  | x :: l' => try? f x in try_for_each f l'
  end.

Definition target_eqb (a b : DurableWatchTarget) : bool :=
  (target_api_version a =?s target_api_version b)
  && (target_kind a =?s target_kind b)
  && match target_scope a, target_scope b with
     | ScopeCluster, ScopeCluster => true
     | ScopeNamespaced x, ScopeNamespaced y => x =?os y
     | _, _ => false
     end.

(** [targets.iter().any(|target| !unique.insert(target.clone()))]. *)
Fixpoint has_duplicate (seen l : list DurableWatchTarget) : bool :=
  match l with
  | [] => false
  | t :: l' => if existsb (target_eqb t) seen then true else has_duplicate (t :: seen) l'
  end.

Record WatchHistoryRequest := HistoryRequest {
  hr_targets : list DurableWatchTarget;
  hr_position : WatchReplayPosition;
  hr_limit : Z
}.

Definition WatchHistoryRequest_new (targets : list DurableWatchTarget)
    (position : WatchReplayPosition) (limit : Z) : result WatchHistoryError WatchHistoryRequest :=
  if limit =? 0 then Err (InvalidLimit limit)
  else if MAX_WATCH_HISTORY_PAGE <? limit then Err (LimitTooLarge limit MAX_WATCH_HISTORY_PAGE)
  else
    try? map_err InvalidPosition (validate_replay_position position false) in
    if match targets with [] => true | _ => false end then Err (InvalidTarget MsgNoTarget)
    else
      try? try_for_each validate_watch_target targets in
      if has_duplicate [] targets then Err (InvalidTarget MsgDuplicateTarget)
      else Ok (HistoryRequest targets position limit).

(** A page of positioned rows; the typed and the raw history differ in the
    payload [T] and in the size check only. *)
Record WatchHistoryPage (T : Type) := HistoryPage {
  hp_events : list (PositionedWatchEvent T);
  hp_next_position : WatchReplayPosition
}.
Arguments HistoryPage {T} _ _.
Arguments hp_events {T} _.
Arguments hp_next_position {T} _.

Fixpoint validate_page_events {T} (next_position : WatchReplayPosition) (prior : option Z)
    (events : list (PositionedWatchEvent T)) : result WatchHistoryError unit :=
  match events with
  | [] => Ok tt
  | event :: rest =>
      let p := pwe_position event in
      try? map_err (fun e => CorruptData (MsgPosition e)) (validate_replay_position p false) in
      if is_some_and prior (fun prior => pos_event_id p <=? prior)
      then Err (CorruptData MsgOutOfOrder)
      else if pos_event_id next_position <? pos_event_id p
      then Err (CorruptData MsgExceedsPage)
      else validate_page_events next_position (Some (pos_event_id p)) rest
  end.

Definition WatchHistoryPage_try_new {T} (events : list (PositionedWatchEvent T))
    (next_position : WatchReplayPosition) : result WatchHistoryError (WatchHistoryPage T) :=
  try? map_err (fun e => CorruptData (MsgPosition e)) (validate_replay_position next_position false) in
  try? validate_page_events next_position None events in
  Ok (HistoryPage events next_position).

Definition validate_event_count (len : Z) : result WatchHistoryError unit :=
  if MAX_WATCH_HISTORY_PAGE <? len then Err (LimitTooLarge len MAX_WATCH_HISTORY_PAGE) else Ok tt.

Definition PositionedRawWatchHistoryPage_try_new {T} (events : list (PositionedWatchEvent T))
    (next_position : WatchReplayPosition) : result WatchHistoryError (WatchHistoryPage T) :=
  try? validate_event_count (Z.of_nat (length events)) in
  WatchHistoryPage_try_new events next_position.

Fixpoint advance_all {T} (cursor : WatchReplayPosition) (events : list (PositionedWatchEvent T))
  : result ReplayError WatchReplayPosition :=
  match events with
  | [] => Ok cursor
  | event :: rest =>
      let? cursor' := advance_through_event cursor (pwe_position event) in advance_all cursor' rest
  end.

Definition validate_after {T} (page : WatchHistoryPage T) (requested : WatchReplayPosition)
  : result WatchHistoryError unit :=
  try? map_err (fun e => CorruptData (MsgPosition e)) (validate requested) in
  let? cursor := map_err (fun e => CorruptData (MsgContinuation e))
                         (advance_all requested (hp_events page)) in
  if negb (permits_successor cursor (hp_next_position page))
  then Err (CorruptData (MsgNotCanonical (hp_next_position page) cursor))
  else Ok tt.

(** ** Replay floors *)

Inductive DurableReplayTarget :=
| ReplayAll
| ReplayCluster (api_version kind : string)
| ReplayNamespaced (api_version kind namespace : string).

Inductive DurableReplayBoundary :=
| LegacyResourceVersion (resource_version stored_event_id : Z)
| ExactBoundary (p : WatchReplayPosition).

Record DurableReplayFloor := ReplayFloor {
  floor_target : DurableReplayTarget;
  floor_boundary : DurableReplayBoundary
}.

Definition validate_replay_target (t : DurableReplayTarget) : result WatchHistoryError unit :=
  let check fields :=
    if existsb reserved_identity fields then Err (InvalidTarget MsgReservedBackendIdentity) else Ok tt in
  match t with
  | ReplayAll => Ok tt
  | ReplayCluster api_version kind => check [api_version; kind]
  | ReplayNamespaced api_version kind namespace => check [api_version; kind; namespace]
  end.

Definition DurableReplayFloor_new (target : DurableReplayTarget) (resource_version event_id : Z)
    (position_is_exact : bool) : result WatchHistoryError DurableReplayFloor :=
  try? validate_replay_target target in
  if (resource_version <? 0) || (event_id <? 0) then Err (InvalidReplayFloor None)
  else
    let? boundary :=
      (if position_is_exact then
         let position := Position resource_version event_id 0 in
         try? map_err (fun e => InvalidReplayFloor (Some e)) (validate_replay_position position true) in
         Ok (ExactBoundary position)
       else Ok (LegacyResourceVersion resource_version event_id)) in
    Ok (ReplayFloor target boundary).

Definition DurableReplayFloor_into_parts (f : DurableReplayFloor)
  : DurableReplayTarget * Z * Z * bool :=
  match floor_boundary f with
  | LegacyResourceVersion rv id => (floor_target f, rv, id, false)
  | ExactBoundary p => (floor_target f, pos_resource_version p, pos_event_id p, true)
  end.

(** ** Retention boundaries *)

Inductive ReplayRetentionBoundary :=
| Exact (floor : WatchReplayPosition)
| LegacyRvOnly (resource_version : Z).

Inductive ReplayAvailability := Available | Expired.

Definition classify (self : ReplayRetentionBoundary) (cursor : WatchReplayPosition)
  : ReplayAvailability :=
  match self with
  | Exact floor =>
      if 0 <? pos_event_id cursor then
        if pos_event_id cursor <? pos_event_id floor then Expired else Available
      else if 0 <? pos_filter_through cursor then
        if (pos_resource_version cursor <? pos_resource_version floor)
           || (pos_filter_through cursor <? pos_event_id floor)
        then Expired else Available
      else if pos_resource_version cursor <? pos_resource_version floor then Expired else Available
  | LegacyRvOnly resource_version =>
      if (0 <? pos_event_id cursor) || (0 <? pos_filter_through cursor)
         || (pos_resource_version cursor <? resource_version)
      then Expired else Available
  end.

Definition is_expired (a : ReplayAvailability) : bool :=
  match a with Expired => true | Available => false end.

Definition classify_all (boundaries : list ReplayRetentionBoundary) (cursor : WatchReplayPosition)
  : ReplayAvailability :=
  if existsb (fun b => is_expired (classify b cursor)) boundaries then Expired else Available.

(** [Iterator::max_by_key] returns the last of several maximal elements. *)
Fixpoint max_by_key {A} (key : A -> Z) (best : A) (l : list A) : A :=
  match l with
  | [] => best
  | x :: l' => max_by_key key (if key best <=? key x then x else best) l'
  end.

Definition is_legacy (b : ReplayRetentionBoundary) : bool :=
  match b with LegacyRvOnly _ => true | Exact _ => false end.

Definition exact_positions (l : list ReplayRetentionBoundary) : list WatchReplayPosition :=
  omap (fun b => match b with Exact p => Some p | LegacyRvOnly _ => None end) l.

Definition retain_exact (boundaries : list ReplayRetentionBoundary) (candidate : WatchReplayPosition)
  : list ReplayRetentionBoundary :=
  match (exact_positions boundaries ++ [candidate])%list with
  | [] => boundaries (* unreachable: the candidate was pushed *)
  | p :: exact =>
      let highest_resource_version := max_by_key pos_resource_version p exact in
      let highest_event_id := max_by_key pos_event_id p exact in
      (List.filter is_legacy boundaries ++ [Exact highest_resource_version]
       ++ (if negb (position_eqb highest_event_id highest_resource_version)
           then [Exact highest_event_id] else []))%list
  end.

(** ** Cursor transitions *)

Definition valid (p : WatchReplayPosition) : Prop :=
  0 <= pos_resource_version p /\ 0 <= pos_event_id p /\ 0 <= pos_filter_through p
  /\ (pos_filter_through p = 0 \/ pos_event_id p < pos_filter_through p).

(** A cursor that names durable positions, not only an external
    resourceVersion. *)
Definition anchored (p : WatchReplayPosition) : Prop :=
  0 < pos_event_id p \/ 0 < pos_filter_through p.

(** [next] is a continuation of [cur] that has consumed exactly the rows up to
    the event ID [id]. *)
Definition consumes_through (cur next : WatchReplayPosition) (id : Z) : Prop :=
  permits_successor cur next = true
  /\ pos_event_id next = id
  /\ (anchored cur -> forall event_id rv,
        represents_event next event_id rv = represents_event cur event_id rv || (event_id <=? id)).

Lemma validate_ok p : validate p = Ok tt <-> valid p.
Proof. unfold validate, valid. split; [crush|]. intros (?&?&?&?). crush; to_prop; lia. Qed.

Lemma validate_cases p : (validate p = Ok tt /\ valid p) \/ (is_err (validate p) = true /\ ~ valid p).
Proof.
  pose proof (validate_ok p) as H. destruct (validate p) as [[]|e]; [left|right]; split; try done.
  - by apply H.
  - intros Hv. apply H in Hv. done.
Qed.

Lemma validate_exact_ok p : validate_exact p = Ok tt <-> valid p /\ pos_filter_through p = 0.
Proof.
  unfold validate_exact. destruct (validate_cases p) as [[-> Hv]|[He Hv]]; cbn.
  - destruct (Z.eqb_spec (pos_filter_through p) 0); cbn; split; try done; lia.
  - destruct (validate p); [done|]. split; [done|]. by intros [? _].
Qed.

Lemma position_eqb_eq a b : position_eqb a b = true <-> a = b.
Proof.
  unfold position_eqb. destruct a as [a1 a2 a3], b as [b1 b2 b3]; cbn. split.
  - intros; to_prop; subst; done.
  - intros [= -> -> ->]. by rewrite !Z.eqb_refl.
Qed.

(** The successor relation without its guards. *)
Lemma permits_successor_iff c n :
  permits_successor c n = true <->
  valid c /\ valid n /\
  (n = c \/ (pos_event_id c < pos_event_id n /\
    (pos_filter_through n = 0
       /\ (pos_filter_through c = 0 \/ pos_filter_through c <= pos_event_id n)
     \/ pos_event_id n < pos_filter_through c
        /\ pos_resource_version n = pos_resource_version c
        /\ pos_filter_through n = pos_filter_through c))).
Proof.
  unfold permits_successor.
  destruct (validate_cases c) as [[-> Hc]|[-> Hc]]; [|cbn; split; [done|tauto]].
  destruct (validate_cases n) as [[-> Hn]|[-> Hn]]; [|cbn; split; [done|tauto]].
  cbn. destruct (Z.ltb_spec (pos_event_id n) (pos_event_id c)).
  { split; [done|]. intros (_&_&[->|]); lia. }
  destruct (Z.eqb_spec (pos_event_id n) (pos_event_id c)).
  { rewrite position_eqb_eq. split; [tauto|]. intros (_&_&[->|]); [done|lia]. }
  assert (n <> c) by congruence. unfold valid in *.
  destruct (Z.eqb_spec (pos_filter_through c) 0); [|destruct (Z.ltb_spec (pos_event_id n) (pos_filter_through c))];
    rewrite ?andb_true_iff, ?Z.eqb_eq; (split; [intros; (split_and!; try lia); right; lia|]);
    intros (_&_&[?|?]); try done; lia.
Qed.

Lemma advance_through_event_iff c e n :
  advance_through_event c e = Ok n <->
  valid c /\ valid e /\ pos_filter_through e = 0 /\ pos_event_id c < pos_event_id e
  /\ (pos_filter_through c = 0 \/ pos_filter_through c < pos_event_id e
      \/ pos_resource_version c < pos_resource_version e)
  /\ n = (if (0 <? pos_filter_through c) && (pos_event_id e <? pos_filter_through c)
          then Position (pos_resource_version c) (pos_event_id e) (pos_filter_through c) else e).
Proof.
  unfold advance_through_event.
  destruct (validate_cases c) as [[-> Hc]|[Hc Hn]];
    [|destruct (validate c); [done|]; cbn; split; [done|tauto]].
  cbn. pose proof (validate_exact_ok e) as He.
  destruct (validate_exact e) as [[]|]; cbn;
    [|split; [done|]; intros (_&Hv&Hf&_); by specialize (proj2 He (conj Hv Hf))].
  destruct (proj1 He eq_refl) as [Hev Hef]. unfold valid in *.
  destruct (Z.leb_spec (pos_event_id e) (pos_event_id c)); [split; [done|lia]|].
  destruct (_ && _ && _) eqn:Ex; to_prop; [split; [done|lia]|].
  split; [intros [= <-]|intros (_&_&_&_&_&->); done]. repeat split; try done; try lia.
Qed.

Lemma advance_to_high_water_iff c h n :
  advance_to_high_water c h = Ok n <->
  valid c /\ pos_event_id c <= h
  /\ n = (if h =? pos_event_id c then c
          else Position (pos_resource_version c) h
                 (if h <? pos_filter_through c then pos_filter_through c else 0)).
Proof.
  unfold advance_to_high_water.
  destruct (validate_cases c) as [[-> Hc]|[Hc Hn]];
    [|destruct (validate c); [done|]; cbn; split; [done|tauto]].
  cbn. destruct (Z.ltb_spec h (pos_event_id c)); [split; [done|lia]|].
  destruct (h =? pos_event_id c); split; try (intros [= <-]; done); by intros (_&_&->).
Qed.

Lemma represents_event_spec c id rv :
  represents_event c id rv = true <->
  id <= pos_event_id c
  \/ (0 < pos_filter_through c /\ id <= pos_filter_through c /\ rv <= pos_resource_version c)
  \/ (pos_filter_through c <= 0 /\ pos_event_id c = 0 /\ rv <= pos_resource_version c).
Proof.
  unfold represents_event.
  destruct (Z.leb_spec id (pos_event_id c)); [split; [lia|done]|].
  destruct (Z.ltb_spec 0 (pos_filter_through c)); rewrite andb_true_iff, ?Z.leb_le, ?Z.eqb_eq; lia.
Qed.

Lemma bool_ext (a b : bool) : (a = true <-> b = true) -> a = b.
Proof. destruct a, b; intros [H1 H2]; try done; [symmetry; by apply H1|by apply H2]. Qed.

Lemma advance_consumes c e n :
  advance_through_event c e = Ok n -> consumes_through c n (pos_event_id e).
Proof.
  rewrite advance_through_event_iff. intros (Hc & He & Hf & Hlt & Hx & Hn).
  unfold consumes_through. rewrite permits_successor_iff. unfold valid, anchored in *.
  destruct (_ && _) eqn:Eb; to_prop; subst n; cbn.
  - split_and!; try lia. intros _ id rv. apply bool_ext.
    rewrite orb_true_iff, !represents_event_spec, Z.leb_le. cbn. lia.
  - assert (pos_filter_through c = 0 \/ pos_filter_through c <= pos_event_id e)
      by (destruct Eb; to_prop; lia).
    split_and!; try lia. intros Ha id rv. apply bool_ext.
    rewrite orb_true_iff, !represents_event_spec, Z.leb_le. lia.
Qed.

Lemma high_water_consumes c h n :
  advance_to_high_water c h = Ok n -> consumes_through c n h.
Proof.
  rewrite advance_to_high_water_iff. intros (Hc & Hle & Hn).
  unfold consumes_through. rewrite permits_successor_iff. unfold valid, anchored in *.
  destruct (Z.eqb_spec h (pos_event_id c)).
  - subst n h. split_and!; try lia; [by left|]. intros Ha id rv. apply bool_ext.
    rewrite orb_true_iff, !represents_event_spec, Z.leb_le. lia.
  - subst n. cbn. destruct (Z.ltb_spec h (pos_filter_through c)); cbn; (split_and!; try lia);
      intros Ha id rv; apply bool_ext; rewrite orb_true_iff, !represents_event_spec, Z.leb_le; cbn; lia.
Qed.

Lemma permits_successor_refl c : valid c -> permits_successor c c = true.
Proof. intros. apply permits_successor_iff. auto. Qed.

Lemma permits_successor_trans a b c :
  permits_successor a b = true -> permits_successor b c = true -> permits_successor a c = true.
Proof.
  rewrite !permits_successor_iff. unfold valid.
  intros (Ha & Hb & [->|Hab]) (_ & Hc & [->|Hbc]); split_and!; try lia; auto; right; lia.
Qed.

Lemma permits_successor_antisym a b :
  permits_successor a b = true -> permits_successor b a = true -> a = b.
Proof.
  rewrite !permits_successor_iff. intros (_ & _ & [H|H]) (_ & _ & [H'|H']); subst; try done; lia.
Qed.

Lemma permits_successor_valid c n : permits_successor c n = true -> valid c /\ valid n.
Proof. rewrite permits_successor_iff. tauto. Qed.

Lemma successor_anchored c n : permits_successor c n = true -> anchored c -> anchored n.
Proof. rewrite permits_successor_iff. unfold anchored, valid. intros (? & ? & [->|?]); lia. Qed.

(** One transition of a replaying client: a delivered event, or the high-water
    mark of a page that delivered none. *)
Inductive cursor_step : WatchReplayPosition -> WatchReplayPosition -> Prop :=
| step_event c e n : advance_through_event c e = Ok n -> cursor_step c n
| step_high_water c h n : advance_to_high_water c h = Ok n -> cursor_step c n.

Lemma consumes_refl c : valid c -> consumes_through c c (pos_event_id c).
Proof.
  intros Hc. split; [by apply permits_successor_refl|]. split; [done|]. intros _ id rv.
  apply bool_ext. rewrite orb_true_iff, represents_event_spec, Z.leb_le. lia.
Qed.

Lemma consumes_trans a b c i j :
  consumes_through a b i -> consumes_through b c j -> consumes_through a c j.
Proof.
  intros (Hp & Hi & Hr) (Hp' & Hj & Hr'). split; [by eapply permits_successor_trans|]. split; [done|].
  intros Ha id rv. pose proof (successor_anchored _ _ Hp Ha). rewrite Hr', Hr by done.
  apply permits_successor_iff in Hp' as (_ & _ & Hm). apply bool_ext.
  rewrite !orb_true_iff, !Z.leb_le. subst i j. destruct Hm as [->|Hm]; [tauto|].
  intuition lia.
Qed.

Lemma cursor_step_consumes c n : cursor_step c n -> consumes_through c n (pos_event_id n).
Proof.
  assert (Hid : forall i, consumes_through c n i -> consumes_through c n (pos_event_id n)).
  { intros i (? & ? & ?). subst i. done. }
  intros Hs. destruct Hs as [c e n H|c h n H]; eapply Hid;
    [by apply advance_consumes|by apply high_water_consumes].
Qed.

(** However a replay proceeds, by delivered events or by empty pages, the
    cursor it reaches is a canonical continuation of the one it started from
    (so the source's debug assertions hold), and it represents exactly the
    events the start represented together with every event through its own
    event ID: nothing else is skipped and nothing is delivered twice. *)
Theorem replay_cursor_exact c n :
  valid c -> rtc cursor_step c n ->
  permits_successor c n = true
  /\ (anchored c -> forall id rv,
        represents_event n id rv = represents_event c id rv || (id <=? pos_event_id n)).
Proof.
  intros Hc Hs.
  enough (consumes_through c n (pos_event_id n)) as (? & _ & ?) by done.
  revert Hc. induction Hs as [c|c d n Hstep Hs IH]; intros Hc; [by apply consumes_refl|].
  apply cursor_step_consumes in Hstep as Hcd.
  eapply consumes_trans; [exact Hcd|]. apply IH.
  apply (permits_successor_valid c). apply Hcd.
Qed.

Lemma replay_cursor_exact_witness :
  permits_successor (Position 10 0 20) (Position 12 25 0) = true
  /\ represents_event (Position 12 25 0) 21 3 = true.
Proof.
  assert (H : rtc cursor_step (Position 10 0 20) (Position 12 25 0)).
  { eapply rtc_l; [apply (step_event _ (Position 11 5 0)); reflexivity|].
    eapply rtc_l; [apply (step_high_water _ 7); reflexivity|].
    eapply rtc_l; [apply (step_event _ (Position 12 25 0)); reflexivity|]. apply rtc_refl. }
  destruct (replay_cursor_exact (Position 10 0 20) (Position 12 25 0)) as [H1 H2];
    [unfold valid; cbn; lia|exact H|].
  split; [exact H1|]. rewrite H2; [reflexivity|unfold anchored; cbn; lia].
Defined.

Lemma advance_accepts c e :
  valid c -> anchored c -> valid e -> pos_filter_through e = 0 ->
  is_ok (advance_through_event c e)
    = negb (represents_event c (pos_event_id e) (pos_resource_version e)).
Proof.
  intros Hc Ha He Hf. pose proof (advance_through_event_iff c e) as Hi.
  pose proof (represents_event_spec c (pos_event_id e) (pos_resource_version e)) as Hr.
  unfold valid, anchored in *.
  destruct (advance_through_event c e) as [n|err]; cbn.
  - destruct (proj1 (Hi n) eq_refl) as (_ & _ & _ & ? & ? & _).
    destruct (represents_event _ _ _); [|done]. destruct Hr as [Hr _]. specialize (Hr eq_refl). lia.
  - destruct (represents_event _ _ _); [done|]. exfalso.
    assert (Hn : forall n, Err err <> Ok n :> result ReplayError WatchReplayPosition) by done.
    eapply Hn. apply Hi. split_and!; try done; try lia.
    all: destruct (Z.le_gt_cases (pos_event_id e) (pos_event_id c)); [exfalso|];
      try (by rewrite (proj2 Hr) in * by lia).
    all: destruct Hr as [_ Hr]; assert (~ false = true) by done; tauto || lia.
Qed.

(** Also from an external resourceVersion boundary, an unseen event is accepted. *)
Lemma unseen_advances c e :
  valid c -> valid e -> pos_filter_through e = 0 -> 0 < pos_event_id e ->
  represents_event c (pos_event_id e) (pos_resource_version e) = false ->
  exists n, advance_through_event c e = Ok n.
Proof.
  intros Hc He Hf Hid Hr. eexists. apply advance_through_event_iff.
  apply not_true_iff_false in Hr. rewrite represents_event_spec in Hr. unfold valid in *.
  split_and!; try reflexivity; lia.
Qed.

(** For a cursor that names durable positions, an exact event position is
    accepted precisely when the cursor does not represent the event yet:
    [represents_event] is the complement of positioned replay. *)
Theorem advance_accepts_unrepresented c e :
  valid c -> anchored c -> valid e -> pos_filter_through e = 0 ->
  is_ok (advance_through_event c e)
    = negb (represents_event c (pos_event_id e) (pos_resource_version e)).
Proof. apply advance_accepts. Qed.

Lemma advance_accepts_unrepresented_witness :
  is_ok (advance_through_event (Position 10 3 20) (Position 9 21 0)) = true
  /\ is_ok (advance_through_event (Position 10 3 20) (Position 9 20 0)) = false.
Proof.
  rewrite !advance_accepts_unrepresented by (unfold valid, anchored; cbn; lia). split; reflexivity.
Defined.

(** ** Pages *)

Section Pages.
Context {T : Type}.
Implicit Types (evs : list (PositionedWatchEvent T)) (c d n : WatchReplayPosition).

Abbreviation ev_id e := (pos_event_id (pwe_position e)).
Abbreviation ev_rv e := (pos_resource_version (pwe_position e)).

Lemma advance_all_consumes c n evs :
  valid c -> advance_all c evs = Ok n -> consumes_through c n (pos_event_id n).
Proof.
  revert c. induction evs as [|e evs IH]; intros c Hc; cbn [advance_all].
  - intros [= <-]. by apply consumes_refl.
  - destruct (advance_through_event c (pwe_position e)) as [d|] eqn:E; [|done]. cbn. intros Hn.
    apply step_event, cursor_step_consumes in E.
    eapply consumes_trans; [exact E|]. apply IH; [|done]. apply (permits_successor_valid c), E.
Qed.

Lemma advance_skip c d e e' n :
  advance_through_event c e = Ok d -> advance_through_event d e' = Ok n ->
  advance_through_event c e' = Ok n.
Proof.
  rewrite !advance_through_event_iff.
  intros (Hc & He & Hef & Hlt & Hx & Hd) (_ & He' & Hef' & Hlt' & Hx' & Hn).
  unfold valid in *. destruct (_ && _) eqn:Eb in Hd; to_prop; subst d; cbn in *.
  - split_and!; try done; lia.
  - assert (pos_filter_through c = 0 \/ pos_filter_through c < pos_event_id e')
      by (destruct Eb; to_prop; lia).
    rewrite Hef in Hn. cbn in Hn. split_and!; try lia. subst n.
    destruct (_ && _) eqn:Eb'; to_prop; [lia|done].
Qed.

(** The last event alone moves the cursor where all of them do. *)
Lemma advance_all_last c n e evs :
  advance_all c evs = Ok n -> last evs = Some e ->
  advance_through_event c (pwe_position e) = Ok n.
Proof.
  revert c. induction evs as [|x evs IH]; intros c; [done|]. cbn [advance_all].
  destruct (advance_through_event c (pwe_position x)) as [d|] eqn:E; [|done]. cbn [result_bind].
  destruct evs as [|y evs].
  - intros Hn [= ->]. cbn in Hn. congruence.
  - rewrite last_cons_cons. intros Hn Hl. eapply advance_skip; [exact E|]. by apply IH.
Qed.

Lemma advance_all_fresh c n evs :
  valid c -> advance_all c evs = Ok n ->
  Forall (fun e => pos_event_id c < ev_id e <= pos_event_id n
                   /\ (anchored c -> represents_event c (ev_id e) (ev_rv e) = false)) evs.
Proof.
  revert c. induction evs as [|e evs IH]; intros c Hc; cbn [advance_all]; [constructor|].
  destruct (advance_through_event c (pwe_position e)) as [d|] eqn:E; [|done]. cbn [result_bind]. intros Hn.
  pose proof (proj1 (advance_through_event_iff _ _ _) E) as (_ & He & Hf & Hlt & _).
  pose proof (advance_consumes _ _ _ E) as (Hp & Hid & Hr).
  pose proof (permits_successor_valid _ _ Hp) as [_ Hd].
  pose proof (advance_all_consumes _ _ _ Hd Hn) as (Hp' & _ & _).
  apply permits_successor_iff in Hp' as (_ & _ & Hmono).
  constructor.
  - split; [destruct Hmono as [->|]; lia|]. intros Ha.
    apply not_true_is_false. rewrite represents_event_spec.
    pose proof (proj1 (advance_through_event_iff _ _ _) E) as (_ & _ & _ & _ & Hx & _).
    unfold anchored, valid in *. lia.
  - eapply Forall_impl; [by apply (IH d)|]. cbn. intros x [Hx Hrx]. split; [lia|]. intros Ha.
    specialize (Hrx (successor_anchored _ _ Hp Ha)). rewrite Hr in Hrx by done.
    by apply orb_false_iff in Hrx as [? _].
Qed.

(** A page that passes [validate_after] continues the requested cursor
    canonically: its rows are new to that cursor and lie between it and the page
    position, which represents all of them; and the position that the writers
    compute from the last row alone ([after_page]) is where folding every row
    ends, without reaching its panic. *)
Theorem validated_page_exact (page : WatchHistoryPage T) requested high_water :
  validate_after page requested = Ok tt ->
  permits_successor requested (hp_next_position page) = true
  /\ Forall (fun e => pos_event_id requested < ev_id e <= pos_event_id (hp_next_position page)
                      /\ represents_event (hp_next_position page) (ev_id e) (ev_rv e) = true
                      /\ (anchored requested ->
                          represents_event requested (ev_id e) (ev_rv e) = false)) (hp_events page)
  /\ (hp_events page <> [] ->
      after_page requested (hp_events page) high_water = ok (advance_all requested (hp_events page))
      /\ is_ok (advance_all requested (hp_events page)) = true).
Proof.
  unfold validate_after. destruct (validate_cases requested) as [[-> Hv]|[He _]];
    [|destruct (validate requested); done]. cbn.
  destruct (advance_all requested (hp_events page)) as [n|] eqn:E; [|done]. cbn.
  destruct (permits_successor n _) eqn:Ep; [|done]. intros _.
  pose proof (advance_all_consumes _ _ _ Hv E) as (Hp & _ & _).
  split; [by eapply permits_successor_trans|]. split.
  - eapply Forall_impl; [by eapply advance_all_fresh|]. cbn. intros x [Hx Hr].
    apply permits_successor_iff in Ep as (_ & _ & Hm).
    assert (pos_event_id n <= pos_event_id (hp_next_position page)) by (destruct Hm as [->|]; lia).
    split; [lia|]. split; [|done]. apply represents_event_spec. lia.
  - intros Hne. split; [|done]. unfold after_page.
    destruct (last (hp_events page)) as [e|] eqn:El; [|by apply last_None in El].
    by rewrite (advance_all_last _ _ _ _ E El).
Qed.
End Pages.

Lemma validated_page_exact_witness :
  permits_successor (Position 10 0 20) (Position 11 20 0) = true
  /\ after_page (Position 10 0 20)
       [Positioned (Position 12 4 0) tt; Positioned (Position 11 20 0) tt] 30
     = Some (Position 11 20 0).
Proof.
  destruct (validated_page_exact
              (HistoryPage [Positioned (Position 12 4 0) tt; Positioned (Position 11 20 0) tt]
                 (Position 11 20 0)) (Position 10 0 20) 30) as (H & _ & Ha); [reflexivity|].
  split; [exact H|]. destruct Ha as [Ha _]; [discriminate|]. cbn [hp_events] in Ha. rewrite Ha. reflexivity.
Defined.

(** *** Paged replay *)

Section Paging.
Context {T : Type}.
Implicit Types (log evs : list (PositionedWatchEvent T)) (c : WatchReplayPosition).

Abbreviation pid e := (pos_event_id (pwe_position e)).
Abbreviation prv e := (pos_resource_version (pwe_position e)).

(** The rows of a log that a cursor has not seen. *)
Definition unseen c (e : PositionedWatchEvent T) : bool := negb (represents_event c (pid e) (prv e)).
Definition pending c log : list (PositionedWatchEvent T) := List.filter (unseen c) log.

(** Rows in insertion order at exact positions. *)
Fixpoint log_from (low : Z) log : Prop :=
  match log with
  | [] => True
  | e :: log' =>
      low < pid e /\ 0 <= prv e /\ pos_filter_through (pwe_position e) = 0 /\ log_from (pid e) log'
  end.

(** Reading page after page until one is empty. *)
Fixpoint read_pages (fuel limit : nat) c log : option (list (PositionedWatchEvent T)) :=
  match fuel with
  | O => None
  | S fuel' =>
      match take limit (pending c log) with
      | [] => Some []
      | page => c' ← after_page c page 0; rest ← read_pages fuel' limit c' log; Some (page ++ rest)%list
      end
  end.

Lemma log_from_elem low log e :
  log_from low log -> e ∈ log -> low < pid e /\ 0 <= prv e /\ pos_filter_through (pwe_position e) = 0.
Proof.
  revert low. induction log as [|x log IH]; intros low; [by intros _ ?%elem_of_nil|].
  intros (? & ? & ? & Hlog) [->|Hin]%elem_of_cons; [done|]. destruct (IH _ Hlog Hin). split; [lia|done].
Qed.

Lemma log_from_filter low p log : log_from low log -> log_from low (List.filter p log).
Proof.
  revert low. induction log as [|x log IH]; intros low; [done|]. cbn. intros (? & ? & ? & Hlog).
  destruct (p x); cbn; [split_and!; auto|]. clear -Hlog H IH.
  apply IH in Hlog. destruct (List.filter p log); [done|]. cbn in *. intuition lia.
Qed.

Lemma log_from_weaken low low' log : low' <= low -> log_from low log -> log_from low' log.
Proof. destruct log; cbn; [done|]. intuition lia. Qed.

Lemma filter_filter_and {A} (p q : A -> bool) l :
  List.filter p (List.filter q l) = List.filter (fun x => q x && p x) l.
Proof. induction l as [|x l IH]; cbn; [done|]. destruct (q x); cbn; [destruct (p x)|]; congruence. Qed.

Lemma filter_ext_eq {A} (p q : A -> bool) l : (forall x, p x = q x) -> List.filter p l = List.filter q l.
Proof. intros H. induction l as [|x l IH]; cbn; [done|]. by rewrite H, IH. Qed.

(** Dropping a non-empty page is the same as keeping the rows past its last. *)
Lemma drop_after_last low k log e :
  log_from low log -> last (take k log) = Some e ->
  List.filter (fun x => negb (pid x <=? pid e)) log = drop k log.
Proof.
  revert low k. induction log as [|x log IH]; intros low [|k]; try done.
  cbn [log_from take drop]. intros (Hlow & _ & _ & Hlog) Hl. cbn [List.filter].
  assert (Hx : pid x <= pid e).
  { destruct (take k log) as [|y l] eqn:E; [by injection Hl as <-|].
    rewrite last_cons_cons in Hl. apply last_Some_elem_of in Hl. rewrite <- E in Hl.
    apply elem_of_take in Hl as (i & Hi & _). apply list_elem_of_lookup_2 in Hi.
    destruct (log_from_elem _ _ _ Hlog Hi). lia. }
  destruct (Z.leb_spec (pid x) (pid e)); [cbn|lia].
  destruct (take k log) as [|y l] eqn:E.
  - injection Hl as <-. assert (drop k log = log) as ->.
    { destruct k, log; done. }
    clear -Hlog. induction log as [|z log IH]; [done|]. cbn.
    destruct Hlog as (? & _ & _ & Hlog). destruct (Z.leb_spec (pid z) (pid x)); [lia|]. cbn. f_equal.
    apply IH. eapply log_from_weaken; [|done]. lia.
  - eapply IH; [done|]. by rewrite last_cons_cons, <- E in Hl.
Qed.

(** One page: no panic, and the cursor it leaves has exactly the rest pending. *)
Lemma page_step c log low limit page high_water :
  valid c -> anchored c -> 0 <= low -> log_from low log ->
  take limit (pending c log) = page -> page <> [] ->
  exists c', after_page c page high_water = Some c' /\ valid c' /\ anchored c'
             /\ pending c' log = drop limit (pending c log).
Proof.
  intros Hv Ha Hlow Hlog <- Hne. unfold after_page.
  destruct (last (take limit (pending c log))) as [e|] eqn:El; [|by apply last_None in El].
  assert (He : e ∈ pending c log).
  { apply last_Some_elem_of, elem_of_take in El as (i & Hi & _). by apply list_elem_of_lookup_2 in Hi. }
  unfold pending in He. apply list_elem_of_In, filter_In in He as [Hin Hun].
  destruct (log_from_elem _ _ _ Hlog (proj2 (list_elem_of_In _ _) Hin)) as (Hid & Hrv & Hf).
  assert (Hve : valid (pwe_position e)) by (unfold valid; lia).
  pose proof (advance_accepts c (pwe_position e) Hv Ha Hve Hf) as Hok.
  unfold unseen in Hun. rewrite Hun in Hok.
  destruct (advance_through_event c (pwe_position e)) as [c'|] eqn:E; [|done]. cbn.
  apply advance_consumes in E as (Hp & Hid' & Hr). exists c'. split; [done|].
  split; [by eapply permits_successor_valid|]. split; [by eapply successor_anchored|].
  unfold pending in El |- *.
  rewrite <- (drop_after_last _ _ _ _ (log_from_filter _ (unseen c) _ Hlog) El), filter_filter_and. apply filter_ext_eq. intros x. unfold unseen.
  rewrite Hr by done. apply negb_orb.
Qed.

(** C13. Reading a log page after page from a cursor that names durable
    positions ends, never panics, and delivers every row the cursor had not
    seen exactly once and in insertion order, whatever the page size. *)
Theorem paged_replay_complete c log low limit :
  valid c -> anchored c -> 0 <= low -> log_from low log -> (0 < limit)%nat ->
  read_pages (S (length log)) limit c log = Some (pending c log).
Proof.
  intros Hv Ha Hlow Hlog Hlim.
  assert (Hlen : (length (pending c log) < S (length log))%nat).
  { unfold pending. pose proof (List.filter_length_le (unseen c) log). lia. }
  revert Hlen. generalize (S (length log)) as fuel. intros fuel. revert c Hv Ha.
  induction fuel as [|fuel IH]; intros c Hv Ha Hlen; [lia|]. cbn [read_pages].
  destruct (take limit (pending c log)) as [|x page] eqn:E.
  { destruct (pending c log); [done|]. destruct limit; [lia|done]. }
  destruct (page_step c log low limit (x :: page) 0 Hv Ha Hlow Hlog E ltac:(done))
    as (c' & -> & Hv' & Ha' & Hpend). cbn [mbind option_bind].
  rewrite IH by (try done; rewrite Hpend, length_drop;
    apply (f_equal length) in E; rewrite length_take in E; cbn in E; lia).
  cbn [mbind option_bind]. by rewrite Hpend, <- E, take_drop.
Qed.
End Paging.

Lemma paged_replay_complete_witness :
  read_pages 5 1 (Position 10 0 3)
    [Positioned (Position 9 1 0) "a"; Positioned (Position 11 2 0) "b";
     Positioned (Position 12 3 0) "c"; Positioned (Position 8 4 0) "d"]%string
  = Some [Positioned (Position 11 2 0) "b"; Positioned (Position 12 3 0) "c";
          Positioned (Position 8 4 0) "d"]%string.
Proof.
  apply (paged_replay_complete (Position 10 0 3)
    [Positioned (Position 9 1 0) "a"; Positioned (Position 11 2 0) "b";
     Positioned (Position 12 3 0) "c"; Positioned (Position 8 4 0) "d"]%string 0 1);
    unfold valid, anchored; cbn; lia.
Defined.

(** A page of unseen rows never reaches the panic of [after_page]. *)
Lemma after_page_defined {T} c (rows : list (PositionedWatchEvent T)) hw :
  valid c -> pos_event_id c <= hw ->
  (forall x, x ∈ rows -> valid (pwe_position x) /\ pos_filter_through (pwe_position x) = 0
     /\ 0 < pos_event_id (pwe_position x)
     /\ represents_event c (pos_event_id (pwe_position x)) (pos_resource_version (pwe_position x)) = false) ->
  exists n, after_page c rows hw = Some n.
Proof.
  intros Hv Hhw Hrows. unfold after_page. destruct (last rows) as [x|] eqn:El.
  - apply last_Some_elem_of, Hrows in El as (? & ? & ? & ?).
    destruct (unseen_advances c (pwe_position x)) as [n ->]; eauto.
  - pose proof (proj2 (advance_to_high_water_iff c hw _) (conj Hv (conj Hhw eq_refl))) as ->. eauto.
Qed.


(** ** Retention *)

(** The boundaries left by pruning the given positions in turn. *)
Definition retained (pruned : list WatchReplayPosition) : list ReplayRetentionBoundary :=
  fold_left retain_exact pruned [].

Lemma max_by_key_spec {A} (key : A -> Z) best l :
  (max_by_key key best l = best \/ max_by_key key best l ∈ l)
  /\ key best <= key (max_by_key key best l)
  /\ Forall (fun x => key x <= key (max_by_key key best l)) l.
Proof.
  revert best. induction l as [|x l IH]; intros best; cbn [max_by_key]; [split; [by left|split; [lia|constructor]]|].
  destruct (Z.leb_spec (key best) (key x)).
  - destruct (IH x) as ([->|Hin] & Hle & Hall); (split; [right|split; [lia|by constructor]]);
      [by left|by right].
  - destruct (IH best) as ([Heq|Hin] & Hle & Hall); (split; [|split; [lia|constructor; [lia|done]]]);
      [by left|right; by right].
Qed.

(** The boundaries summarise the pruned positions: real positions, among them
    one with the largest resourceVersion and one with the largest event ID. *)
Definition summarises (bs : list ReplayRetentionBoundary) (pruned : list WatchReplayPosition) : Prop :=
  (forall b, b ∈ bs -> exists p, b = Exact p /\ p ∈ pruned)
  /\ (forall p, p ∈ pruned ->
        (exists q, Exact q ∈ bs /\ pos_resource_version p <= pos_resource_version q)
        /\ (exists q, Exact q ∈ bs /\ pos_event_id p <= pos_event_id q)).

Lemma exact_positions_elem bs p : p ∈ exact_positions bs <-> Exact p ∈ bs.
Proof.
  unfold exact_positions. rewrite list_elem_of_omap. split.
  - intros ([q|] & Hin & [= ->]). done.
  - intros. exists (Exact p). done.
Qed.

Lemma filter_legacy_nil bs pruned : summarises bs pruned -> List.filter is_legacy bs = [].
Proof.
  intros [H _]. induction bs as [|b bs IH]; [done|]. cbn.
  destruct (H b) as (p & -> & _); [by left|]. cbn. apply IH. intros b' Hb'. apply H. by right.
Qed.

Lemma retain_exact_summarises bs pruned p :
  summarises bs pruned -> summarises (retain_exact bs p) (pruned ++ [p]).
Proof.
  intros Hs. pose proof Hs as [Hreal Hmax]. unfold retain_exact. rewrite (filter_legacy_nil _ _ Hs). cbn [app].
  destruct (exact_positions bs ++ [p])%list as [|x l] eqn:El; [by destruct (exact_positions bs)|].
  assert (Hel : forall q, q ∈ x :: l <-> Exact q ∈ bs \/ q = p).
  { intros q. rewrite <- El, elem_of_app, exact_positions_elem, list_elem_of_singleton. done. }
  destruct (max_by_key_spec pos_resource_version x l) as (Hin & Hle & Hall).
  destruct (max_by_key_spec pos_event_id x l) as (Hin' & Hle' & Hall').
  set (hr := max_by_key _ x l) in *. set (he := max_by_key pos_event_id x l) in *.
  assert (Hhr : hr ∈ x :: l) by (destruct Hin as [->|]; [by left|by right]).
  assert (Hhe : he ∈ x :: l) by (destruct Hin' as [->|]; [by left|by right]).
  assert (Hsrc : forall q, q ∈ x :: l -> q ∈ pruned ++ [p]).
  { intros q [Hq| ->]%Hel; apply elem_of_app; [left|right; by left].
    destruct (Hreal _ Hq) as (? & [= ->] & ?). done. }
  assert (Hbs : forall b, b ∈ [Exact hr] ++ (if negb (position_eqb he hr) then [Exact he] else [])
                <-> b = Exact hr \/ b = Exact he).
  { intros b. destruct (position_eqb he hr) eqn:E; cbn.
    - apply position_eqb_eq in E. rewrite E, list_elem_of_singleton. tauto.
    - rewrite elem_of_cons, list_elem_of_singleton. tauto. }
  assert (Hub : forall q, q ∈ x :: l ->
    pos_resource_version q <= pos_resource_version hr /\ pos_event_id q <= pos_event_id he).
  { intros q Hq. apply elem_of_cons in Hq as [->|Hq]; [done|].
    split; [by apply (proj1 (Forall_forall _ _) Hall)|by apply (proj1 (Forall_forall _ _) Hall')]. }
  split.
  - intros b [->| ->]%Hbs; eauto.
  - intros q Hq. apply elem_of_app in Hq as [Hq|Hq%list_elem_of_singleton].
    + destruct (Hmax q Hq) as ((q1 & H1 & ?) & (q2 & H2 & ?)).
      destruct (Hub q1) as [? _]; [apply Hel; by left|]. destruct (Hub q2) as [_ ?]; [apply Hel; by left|].
      split; [exists hr|exists he]; rewrite Hbs; (split; [auto|lia]).
    + destruct (Hub q) as [? ?]; [apply Hel; by right|].
      split; [exists hr|exists he]; rewrite Hbs; auto.
Qed.

Lemma retained_summarises pruned : summarises (retained pruned) pruned.
Proof.
  induction pruned as [|p pruned IH] using rev_ind.
  - split; intros ? Hx; by apply elem_of_nil in Hx.
  - unfold retained in *. rewrite fold_left_app. cbn. by apply retain_exact_summarises.
Qed.

Lemma classify_all_expired bs c :
  classify_all bs c = Expired <-> exists b, b ∈ bs /\ classify b c = Expired.
Proof.
  unfold classify_all. destruct (existsb _ bs) eqn:E.
  - split; [|done]. intros _. apply existsb_exists in E as (b & Hin & Hb).
    exists b. split; [by apply list_elem_of_In|]. destruct (classify b c); done.
  - split; [done|]. intros (b & Hin & Hb). apply not_true_iff_false in E. destruct E.
    apply existsb_exists. exists b. split; [by apply list_elem_of_In|]. by rewrite Hb.
Qed.

(** A cursor that has consumed part of a filtered prefix. *)
Definition partially_consumed (c : WatchReplayPosition) : Prop :=
  0 < pos_event_id c /\ 0 < pos_filter_through c.

Lemma retention_complete pruned c :
  valid c -> Forall (fun p => 0 < pos_event_id p) pruned ->
  (classify_all (retained pruned) c = Available ->
   Forall (fun p => represents_event c (pos_event_id p) (pos_resource_version p) = true) pruned)
  /\ (classify_all (retained pruned) c = Expired -> ~ partially_consumed c ->
      Exists (fun p => represents_event c (pos_event_id p) (pos_resource_version p) = false) pruned).
Proof.
  intros Hc Hpos. destruct (retained_summarises pruned) as [Hreal Hmax]. unfold valid in Hc.
  split.
  - intros Ha. apply Forall_forall. intros p Hp. apply represents_event_spec.
    assert (Hb : forall q, Exact q ∈ retained pruned -> classify (Exact q) c = Available).
    { intros q Hq. destruct (classify (Exact q) c) eqn:E; [done|].
      assert (classify_all (retained pruned) c = Expired) by (apply classify_all_expired; eauto).
      congruence. }
    destruct (Hmax p Hp) as ((q1 & H1 & Hle1) & (q2 & H2 & Hle2)).
    apply Hb in H1, H2. cbn in H1, H2.
    destruct (Z.ltb_spec 0 (pos_event_id c)); [|destruct (Z.ltb_spec 0 (pos_filter_through c))]; 
      repeat case_match; split_or; try done; lia.
  - rewrite classify_all_expired. intros (b & Hb & Hcl) Hpart. unfold partially_consumed in Hpart.
    destruct (Hreal b Hb) as (p & -> & Hp). apply Exists_exists. exists p. split; [done|].
    pose proof (proj1 (Forall_forall _ _) Hpos p Hp) as Hid. cbn in Hcl, Hid.
    apply not_true_is_false. rewrite represents_event_spec.
    destruct (Z.ltb_spec 0 (pos_event_id c)); [|destruct (Z.ltb_spec 0 (pos_filter_through c))];
      repeat case_match; split_or; try done; lia.
Qed.

(** Keeping only two boundaries loses nothing: a cursor classified as
    available against the boundaries left by any sequence of prunings
    represents every pruned event, so replay from it misses none; and an
    expired cursor really misses one, unless it is inside a partly consumed
    filter window. *)
Theorem retention_exact pruned c :
  valid c -> Forall (fun p => 0 < pos_event_id p) pruned ->
  (classify_all (retained pruned) c = Available ->
   Forall (fun p => represents_event c (pos_event_id p) (pos_resource_version p) = true) pruned)
  /\ (classify_all (retained pruned) c = Expired -> ~ partially_consumed c ->
      Exists (fun p => represents_event c (pos_event_id p) (pos_resource_version p) = false) pruned).
Proof. apply retention_complete. Qed.

Lemma retention_exact_witness :
  Forall (fun p => represents_event (Position 10 0 6) (pos_event_id p) (pos_resource_version p) = true)
    [Position 9 4 0; Position 3 6 0].
Proof.
  apply (retention_exact [Position 9 4 0; Position 3 6 0] (Position 10 0 6)); [unfold valid; cbn; lia| |].
  - repeat constructor.
  - reflexivity.
Defined.
