(* ===== verification/Watch.v ===== *)
(** * Watch events and stored resources

    The values shared by the watch components: [Resource] of
    [klights-cluster-core/src/resource.rs], [EventType] and [WatchEvent] of
    [klights-watch/src/event.rs], [WatchTarget] of [klights-watch/src/replay.rs].
    The pre-encoded payload of a watch event is a cache of its encoding and is
    left out. *)

From S2P Require Import Prelude Text Json.

Record Resource := mkResource {
  r_id : Z;
  r_api_version : string;
  r_kind : string;
  r_namespace : option string;
  r_name : string;
  r_uid : string;
  r_resource_version : Z;
  r_data : Value
}.

Inductive EventType := Added | Modified | Deleted | Bookmark | ErrorEvent.

Definition event_type_to_string (t : EventType) : string :=
  match t with
  | Added => "ADDED"
  | Modified => "MODIFIED"
  | Deleted => "DELETED"
  | Bookmark => "BOOKMARK"
  | ErrorEvent => "ERROR"
  end.

Record WatchEvent := mkWatchEvent {
  we_event_type : EventType;
  we_object : Value
}.

Definition from_type (event_type : string) (object : Value) : WatchEvent :=
  if event_type =?s "ADDED" then mkWatchEvent Added object
  else if event_type =?s "MODIFIED" then mkWatchEvent Modified object
  else if event_type =?s "DELETED" then mkWatchEvent Deleted object
  else if event_type =?s "BOOKMARK" then mkWatchEvent Bookmark object
  else if event_type =?s "ERROR" then mkWatchEvent ErrorEvent object
  else mkWatchEvent Modified object.

(** [WatchEvent::resource_version]. *)
Definition event_resource_version (e : WatchEvent) : option Z :=
  m ← get "metadata" (we_object e); rv ← get "resourceVersion" m; s ← as_str rv; parse_i64 s.

Inductive WatchTargetScope :=
| TargetCluster
| TargetNamespaced (namespace : option string).

Record WatchTarget := mkWatchTarget {
  wt_api_version : string;
  wt_kind : string;
  wt_scope : WatchTargetScope
}.

Definition scope_matches (scope : WatchTargetScope) (namespace : option string) : bool :=
  match scope with
  | TargetCluster => opt_is_none namespace
  | TargetNamespaced (Some want) => namespace =?os Some want
  | TargetNamespaced None => opt_is_some namespace
  end.

Lemma from_type_to_string t o : from_type (event_type_to_string t) o = mkWatchEvent t o.
Proof. by destruct t. Qed.
