(* ===== verification/WorkerHistory.v ===== *)
(** * The worker's watch history

    The bounded in-memory replay history of
    [klights-kubelet/src/worker_store/watch.rs]: recording an event assigns the
    next event ID and evicts the oldest events beyond the capacity, leaving
    replay boundaries per topic and namespace; positioned reads are served from
    what is left or refused as expired.

    The store's mutex makes [record_watch_event] and the read atomic; the
    history map is a [gmap] from topic and namespace. *)

From S2P Require Import Prelude Text Json Replay Watch.
Open Scope Z_scope.

Definition WORKER_WATCH_EVENT_HISTORY_CAPACITY : Z := 32768.

(** ** Boundaries *)

Inductive WorkerReplayBoundary := WorkerExact (p : WatchReplayPosition).

Definition worker_position (b : WorkerReplayBoundary) : WatchReplayPosition :=
  match b with WorkerExact p => p end.

Definition worker_classify (self : WorkerReplayBoundary) (cursor : WatchReplayPosition)
  : ReplayAvailability :=
  match self with
  | WorkerExact floor =>
      if 0 <? pos_event_id cursor then
        if pos_event_id cursor <? pos_event_id floor then Expired else Available
      else if 0 <? pos_filter_through cursor then
        if (pos_resource_version cursor <? pos_resource_version floor)
           || (pos_filter_through cursor <? pos_event_id floor)
        then Expired else Available
      else if pos_resource_version cursor <? pos_resource_version floor then Expired else Available
  end.

Definition worker_classify_all (boundaries : list WorkerReplayBoundary) (cursor : WatchReplayPosition)
  : ReplayAvailability :=
  if existsb (fun b => is_expired (worker_classify b cursor)) boundaries then Expired else Available.

Definition worker_retain_exact (boundaries : list WorkerReplayBoundary)
    (candidate : WatchReplayPosition) : list WorkerReplayBoundary :=
  match ((worker_position <$> boundaries) ++ [candidate])%list with
  | [] => boundaries (* unreachable: the candidate was pushed *)
  | p :: exact =>
      let highest_resource_version := max_by_key pos_resource_version p exact in
      let highest_event_id := max_by_key pos_event_id p exact in
      WorkerExact highest_resource_version ::
      (if negb (position_eqb highest_event_id highest_resource_version)
       then [WorkerExact highest_event_id] else [])
  end.

(** ** State *)

Abbreviation WatchTopic := (string * string)%type.
Abbreviation FloorKey := (WatchTopic * option string)%type.

Record WorkerWatchHistory := mkHistory {
  wh_events : list (Z * WatchEvent);
  wh_floors : gmap FloorKey (list WorkerReplayBoundary)
}.

Record WorkerStore := mkWorkerStore {
  ws_event_history : WorkerWatchHistory;
  ws_next_event_id : Z
}.

Definition initial_store : WorkerStore := mkWorkerStore (mkHistory [] ∅) 1.

Record WorkerCatchUpResource := mkCatchUp {
  cu_resource : Resource;
  cu_event_type : string
}.

(** ** Reading an event's identity *)

Definition watch_event_topic (event : WatchEvent) : option WatchTopic :=
  a ← get "apiVersion" (we_object event); api_version ← as_str a;
  k ← get "kind" (we_object event); kind ← as_str k;
  Some (api_version, kind).

Definition event_namespace (event : WatchEvent) : option string :=
  pointer_str ["metadata"; "namespace"] (we_object event).

Definition watch_event_matches_targets (event : WatchEvent) (targets : list WatchTarget) : bool :=
  match get_str "apiVersion" (we_object event), get_str "kind" (we_object event) with
  | Some api_version, Some kind =>
      let namespace := event_namespace event in
      existsb (fun target =>
        if negb (wt_api_version target =?s api_version) || negb (wt_kind target =?s kind) then false
        else scope_matches (wt_scope target) namespace) targets
  | _, _ => false
  end.

Definition worker_replay_event_follows_position (position : WatchReplayPosition) (event_id : Z)
    (event : WatchEvent) : bool :=
  is_some_and (event_resource_version event)
    (fun resource_version => negb (represents_event position event_id resource_version)).

Definition catchup_resource_from_watch_event (event : WatchEvent) : option WorkerCatchUpResource :=
  let object := we_object event in
  a ← get "apiVersion" object; api_version ← as_str a;
  k ← get "kind" object; kind ← as_str k;
  metadata ← get "metadata" object;
  n ← get "name" metadata; name ← as_str n;
  let namespace := get_str "namespace" metadata in
  let uid := unwrap_or "" (get_str "uid" metadata) in
  resource_version ← event_resource_version event;
  Some (mkCatchUp (mkResource 0 api_version kind namespace name uid resource_version object)
                  (event_type_to_string (we_event_type event))).

(** ** Recording *)

(** The floor update of one evicted event. *)
Definition record_floor (removed : Z * WatchEvent) (floors : gmap FloorKey (list WorkerReplayBoundary))
  : gmap FloorKey (list WorkerReplayBoundary) :=
  match watch_event_topic removed.2 with
  | Some topic =>
      match event_resource_version removed.2 with
      | Some resource_version =>
          let key := (topic, event_namespace removed.2) in
          let floor := unwrap_or [] (floors !! key) in
          <[key := worker_retain_exact floor (Position resource_version removed.1 0)]> floors
      | None => floors
      end
  | None => floors
  end.

(** [while history.events.len() > capacity { pop_front ... }]. *)
Fixpoint evict (events : list (Z * WatchEvent)) (floors : gmap FloorKey (list WorkerReplayBoundary))
  : WorkerWatchHistory :=
  match events with
  | [] => mkHistory [] floors
  | removed :: rest =>
      if WORKER_WATCH_EVENT_HISTORY_CAPACITY <? Z.of_nat (length events)
      then evict rest (record_floor removed floors)
      else mkHistory events floors
  end.

Definition record_watch_event (s : WorkerStore) (event : WatchEvent) : WorkerStore :=
  match event_resource_version event with
  | None => s
  | Some _ =>
      let event_id := ws_next_event_id s in
      let history := ws_event_history s in
      mkWorkerStore (evict (wh_events history ++ [(event_id, event)])%list (wh_floors history))
                    (wrap_i64 (event_id + 1))
  end.

(** ** Reading *)

Definition worker_replay_boundaries (history : WorkerWatchHistory) (target : WatchTarget)
  : list WorkerReplayBoundary :=
  let topic := (wt_api_version target, wt_kind target) in
  flat_map snd (List.filter
    (fun '((floor_topic, namespace), _) =>
       (floor_topic.1 =?s topic.1) && (floor_topic.2 =?s topic.2)
       && scope_matches (wt_scope target) namespace)
    (map_to_list (wh_floors history))).

Definition historical_watch_events_since (s : WorkerStore) (targets : list WatchTarget) (since_rv : Z)
  : list WorkerCatchUpResource :=
  omap (fun '(_, event) =>
    rv ← event_resource_version event;
    if (rv <=? since_rv) || negb (watch_event_matches_targets event targets) then None
    else catchup_resource_from_watch_event event) (wh_events (ws_event_history s)).

(** The row a positioned read returns for one recorded event. *)
Definition catchup_row (row : Z * WatchEvent) : option (PositionedWatchEvent WorkerCatchUpResource) :=
  resource_version ← event_resource_version row.2;
  r ← catchup_resource_from_watch_event row.2;
  Some (Positioned (Position resource_version row.1 0) r).

Inductive PositionedWatchReplayRead (T : Type) :=
| ReplayEvents (page : WatchHistoryPage T)
| ReplayExpired.
Arguments ReplayEvents {T} _.
Arguments ReplayExpired {T}.

(** [None] is the panic of [after_page]. *)
Definition list_watch_events_after_position_checked_bounded (s : WorkerStore)
    (targets : list WatchTarget) (position : WatchReplayPosition) (limit : nat)
  : option (PositionedWatchReplayRead WorkerCatchUpResource) :=
  let high_water_event_id := saturating_i64 (ws_next_event_id s - 1) in
  let history := ws_event_history s in
  if existsb (fun target =>
       is_expired (worker_classify_all (worker_replay_boundaries history target) position)) targets
  then Some ReplayExpired
  else
    let events := take limit (omap catchup_row
      (List.filter (fun '(_, event) => watch_event_matches_targets event targets)
        (List.filter (fun '(event_id, event) =>
           worker_replay_event_follows_position position event_id event) (wh_events history)))) in
    next_position ← after_page position events high_water_event_id;
    Some (ReplayEvents (HistoryPage events next_position)).

(** ** The unbounded history as the specification *)

(** Every event ever recorded, numbered from 1. *)
Definition recorded (es : list WatchEvent) : list WatchEvent :=
  List.filter (fun e => opt_is_some (event_resource_version e)) es.

Definition full_history (es : list WatchEvent) : list (Z * WatchEvent) :=
  imap (fun i e => (Z.of_nat i + 1, e)) (recorded es).

Definition store_after (es : list WatchEvent) : WorkerStore :=
  fold_left record_watch_event es initial_store.

(** The rows a positioned read of the unbounded history would return. *)
Definition replay_rows (es : list WatchEvent) (targets : list WatchTarget) (c : WatchReplayPosition)
  : list (PositionedWatchEvent WorkerCatchUpResource) :=
  omap catchup_row (List.filter (fun '(event_id, event) =>
    worker_replay_event_follows_position c event_id event
    && watch_event_matches_targets event targets) (full_history es)).

Definition row_key (row : Z * WatchEvent) : option FloorKey :=
  topic ← watch_event_topic row.2; Some (topic, event_namespace row.2).

Definition row_position (row : Z * WatchEvent) : option WatchReplayPosition :=
  rv ← event_resource_version row.2; Some (Position rv row.1 0).

(** The positions evicted under one key, oldest first. *)
Definition evicted_under (k : FloorKey) (pruned : list (Z * WatchEvent)) : list WatchReplayPosition :=
  omap (fun row => if decide (row_key row = Some k) then row_position row else None) pruned.

Definition exact_of (b : WorkerReplayBoundary) : ReplayRetentionBoundary := Exact (worker_position b).

Definition floors_summarise (floors : gmap FloorKey (list WorkerReplayBoundary))
    (pruned : list (Z * WatchEvent)) : Prop :=
  forall k, exact_of <$> unwrap_or [] (floors !! k) = retained (evicted_under k pruned).

Record history_inv (es : list WatchEvent) (pruned : list (Z * WatchEvent)) (s : WorkerStore) : Prop := {
  inv_next : ws_next_event_id s = Z.of_nat (length (recorded es)) + 1;
  inv_split : full_history es = (pruned ++ wh_events (ws_event_history s))%list;
  inv_bound : Z.of_nat (length (wh_events (ws_event_history s))) <= WORKER_WATCH_EVENT_HISTORY_CAPACITY;
  inv_floors : floors_summarise (wh_floors (ws_event_history s)) pruned
}.

(** ** Boundaries agree with the cluster store's *)

Lemma worker_classify_exact b c : worker_classify b c = classify (exact_of b) c.
Proof. by destruct b. Qed.

Lemma worker_classify_all_exact bs c :
  worker_classify_all bs c = classify_all (exact_of <$> bs) c.
Proof.
  unfold worker_classify_all, classify_all.
  enough (existsb (fun b => is_expired (worker_classify b c)) bs
          = existsb (fun b => is_expired (classify b c)) (exact_of <$> bs)) as -> by done.
  induction bs as [|b bs IH]; [done|]. csimpl. by rewrite IH, worker_classify_exact.
Qed.

Lemma worker_retain_exact_eq bs p :
  exact_of <$> worker_retain_exact bs p = retain_exact (exact_of <$> bs) p.
Proof.
  unfold worker_retain_exact, retain_exact.
  assert (Hex : exact_positions (exact_of <$> bs) = worker_position <$> bs).
  { induction bs as [|b bs IH]; [done|]. csimpl. unfold exact_positions in *. csimpl. by rewrite IH. }
  assert (Hle : List.filter is_legacy (exact_of <$> bs) = []).
  { induction bs as [|b bs IH]; [done|]. csimpl. apply IH.
    unfold exact_positions in Hex. csimpl in *. by injection Hex. }
  rewrite Hex, Hle. destruct ((worker_position <$> bs) ++ [p])%list as [|x l] eqn:E; [by destruct bs|].
  csimpl. by destruct (negb _).
Qed.

(** ** The invariant *)

Lemma evicted_under_snoc k pruned row :
  evicted_under k (pruned ++ [row])
  = (evicted_under k pruned
     ++ (if decide (row_key row = Some k) then match row_position row with Some p => [p] | None => [] end
         else []))%list.
Proof.
  unfold evicted_under. rewrite omap_app. f_equal. csimpl.
  destruct (decide _); [|done]. by destruct (row_position row).
Qed.

Lemma record_floor_summarises row floors pruned :
  floors_summarise floors pruned -> floors_summarise (record_floor row floors) (pruned ++ [row]).
Proof.
  intros Hf k. rewrite evicted_under_snoc. specialize (Hf k).
  unfold record_floor, row_key, row_position.
  destruct (watch_event_topic row.2) as [topic|]; cbn [mbind option_bind];
    [|destruct (decide _); [done|by rewrite app_nil_r]].
  destruct (event_resource_version row.2) as [rv|]; cbn [mbind option_bind];
    [|destruct (decide _); by rewrite app_nil_r].
  destruct (decide _) as [[= <-]|Hne].
  - rewrite lookup_insert_eq, unwrap_or_Some, worker_retain_exact_eq, Hf.
    unfold retained. by rewrite fold_left_app.
  - rewrite lookup_insert_ne by congruence. by rewrite app_nil_r.
Qed.

Lemma evict_spec evs floors pruned :
  floors_summarise floors pruned ->
  exists more, evs = (more ++ wh_events (evict evs floors))%list
    /\ Z.of_nat (length (wh_events (evict evs floors))) <= WORKER_WATCH_EVENT_HISTORY_CAPACITY
    /\ floors_summarise (wh_floors (evict evs floors)) (pruned ++ more).
Proof.
  revert floors pruned. induction evs as [|row evs IH]; intros floors pruned Hf.
  - exists []. rewrite (app_nil_r pruned). split; [done|]. by split.
  - cbn [evict]. destruct (Z.ltb_spec WORKER_WATCH_EVENT_HISTORY_CAPACITY (Z.of_nat (length (row :: evs)))).
    + destruct (IH _ _ (record_floor_summarises row _ _ Hf)) as (more & He & Hb & Hs).
      exists (row :: more). split; [cbn; by rewrite <- He|]. split; [done|]. by rewrite <- app_assoc in Hs.
    + exists []. rewrite (app_nil_r pruned). done.
Qed.

Lemma full_history_snoc es e :
  full_history (es ++ [e]) =
  (full_history es ++ match event_resource_version e with
                      | Some _ => [(Z.of_nat (length (recorded es)) + 1, e)] | None => [] end)%list.
Proof.
  unfold full_history, recorded. rewrite List.filter_app. cbn.
  destruct (event_resource_version e); cbn; [|by rewrite !app_nil_r].
  rewrite imap_app. cbn. do 3 f_equal. lia.
Qed.

Lemma history_inv_init : history_inv [] [] initial_store.
Proof. by split. Qed.

Lemma recorded_snoc es e :
  recorded (es ++ [e])
  = (recorded es ++ if opt_is_some (event_resource_version e) then [e] else [])%list.
Proof. unfold recorded. rewrite List.filter_app. done. Qed.

Lemma history_inv_step es pruned s e :
  Z.of_nat (length (recorded (es ++ [e]))) < i64_max ->
  history_inv es pruned s -> exists pruned', history_inv (es ++ [e]) pruned' (record_watch_event s e).
Proof.
  intros Hlen [Hn Hs Hb Hf]. unfold record_watch_event. rewrite recorded_snoc, length_app in Hlen.
  destruct (event_resource_version e) as [rv|] eqn:Erv; cbn [opt_is_some length] in Hlen.
  - destruct (evict_spec (wh_events (ws_event_history s) ++ [(ws_next_event_id s, e)]) _ _ Hf)
      as (more & He & Hb' & Hf').
    exists (pruned ++ more)%list. split; cbn [ws_next_event_id ws_event_history]; try done.
    + rewrite Hn, wrap_i64_small by (unfold in_i64, i64_min, i64_max in *; lia).
      rewrite recorded_snoc, Erv, length_app. cbn [opt_is_some length]. lia.
    + rewrite full_history_snoc, Erv, Hs, <- Hn, <- !app_assoc. by f_equal.
  - exists pruned. split; try done.
    + by rewrite recorded_snoc, Erv, app_nil_r.
    + by rewrite full_history_snoc, Erv, app_nil_r.
Qed.

Lemma recorded_snoc_length es e :
  (length (recorded es) <= length (recorded (es ++ [e])))%nat.
Proof. rewrite recorded_snoc, length_app. lia. Qed.

Lemma store_inv es :
  Z.of_nat (length (recorded es)) < i64_max -> exists pruned, history_inv es pruned (store_after es).
Proof.
  induction es as [|e es IH] using rev_ind; intros Hlen; [exists []; apply history_inv_init|].
  pose proof (recorded_snoc_length es e). destruct IH as [pruned Hinv]; [lia|].
  unfold store_after. rewrite fold_left_app. cbn. by eapply history_inv_step.
Qed.

(** ** Positioned reads *)

Definition key_matches (t : WatchTarget) (k : FloorKey) : bool :=
  (k.1.1 =?s wt_api_version t) && (k.1.2 =?s wt_kind t) && scope_matches (wt_scope t) k.2.

Lemma boundaries_expired h t c :
  worker_classify_all (worker_replay_boundaries h t) c = Expired <->
  exists k, key_matches t k = true
    /\ classify_all (exact_of <$> unwrap_or [] (wh_floors h !! k)) c = Expired.
Proof.
  rewrite worker_classify_all_exact, classify_all_expired. split.
  - intros (b & Hb & He). apply list_elem_of_fmap in Hb as (w & -> & Hw).
    apply list_elem_of_In, in_flat_map in Hw as ([k bs] & Hin & Hw).
    apply filter_In in Hin as [Hin Hm]. apply list_elem_of_In, elem_of_map_to_list in Hin.
    exists k. destruct k as [[a kd] ns]. split; [done|]. rewrite Hin. cbn [unwrap_or].
    apply classify_all_expired. exists (exact_of w). split; [|done].
    apply list_elem_of_fmap. exists w. split; [done|]. by apply list_elem_of_In.
  - intros (k & Hm & He). apply classify_all_expired in He as (b & Hb & He).
    exists b. split; [|done]. apply list_elem_of_fmap in Hb as (w & -> & Hw).
    apply list_elem_of_fmap. exists w. split; [done|].
    destruct (wh_floors h !! k) as [bs|] eqn:Ek; cbn in Hw; [|by apply elem_of_nil in Hw].
    apply list_elem_of_In, in_flat_map. exists (k, bs). split; [|by apply list_elem_of_In].
    apply filter_In. split; [by apply list_elem_of_In, elem_of_map_to_list|]. by destruct k as [[? ?] ?].
Qed.

Lemma event_topic_strs event :
  watch_event_topic event
  = (a ← get_str "apiVersion" (we_object event); k ← get_str "kind" (we_object event); Some (a, k)).
Proof.
  unfold watch_event_topic, get_str.
  destruct (get "apiVersion" (we_object event)) as [a|]; [cbn|done].
  destruct (as_str a); [cbn|done]. by destruct (get "kind" (we_object event)).
Qed.

Lemma matches_targets_key event targets :
  watch_event_matches_targets event targets = true <->
  exists t k, t ∈ targets /\ row_key (0, event) = Some k /\ key_matches t k = true.
Proof.
  unfold watch_event_matches_targets, row_key. cbn [snd]. rewrite event_topic_strs.
  destruct (get_str "apiVersion" _) as [a|]; cbn [mbind option_bind];
    [|split; [done|]; by intros (? & ? & _ & ? & _)].
  destruct (get_str "kind" _) as [kd|]; cbn [mbind option_bind];
    [|split; [done|]; by intros (? & ? & _ & ? & _)].
  rewrite existsb_exists. unfold key_matches. split.
  - intros (t & Hin & Hm). exists t, ((a, kd), event_namespace event).
    rewrite list_elem_of_In. split_and!; [done..|]. cbn.
    destruct (_ || _) eqn:E in Hm; [done|]. to_prop. subst. by rewrite !String.eqb_refl.
  - intros (t & k & Hin & [= <-] & Hm). exists t. split; [by apply list_elem_of_In|].
    cbn in Hm. to_prop. subst. by rewrite !String.eqb_refl.
Qed.

Lemma full_history_elem es i e :
  (i, e) ∈ full_history es -> 1 <= i <= Z.of_nat (length (recorded es)) /\ e ∈ recorded es.
Proof.
  unfold full_history. intros (n & Hn)%list_elem_of_lookup. rewrite list_lookup_imap in Hn.
  apply fmap_Some in Hn as (e' & He & [= -> ->]). apply lookup_lt_Some in He as Hlt.
  split; [lia|]. by eapply list_elem_of_lookup_2.
Qed.

Lemma evicted_elem k pruned row p :
  row ∈ pruned -> row_key row = Some k -> row_position row = Some p -> p ∈ evicted_under k pruned.
Proof.
  intros Hin Hk Hp. unfold evicted_under. apply list_elem_of_omap. exists row. split; [done|].
  by rewrite decide_True.
Qed.

Lemma evicted_positive es k pruned rest :
  full_history es = (pruned ++ rest)%list -> Forall (fun p => 0 < pos_event_id p) (evicted_under k pruned).
Proof.
  intros Hs. apply Forall_forall. intros p Hp. unfold evicted_under in Hp.
  apply list_elem_of_omap in Hp as ([i e] & Hin & Hp). destruct (decide _); [|done].
  unfold row_position in Hp. apply bind_Some in Hp as (rv & _ & [= <-]). cbn.
  destruct (full_history_elem es i e); [rewrite Hs; apply elem_of_app; by left|lia].
Qed.

(** When no target is expired, no evicted event would have been replayed. *)
Lemma evicted_not_selected es pruned s targets c row :
  history_inv es pruned s -> valid c ->
  existsb (fun t => is_expired (worker_classify_all
             (worker_replay_boundaries (ws_event_history s) t) c)) targets = false ->
  row ∈ pruned -> watch_event_matches_targets row.2 targets = true ->
  worker_replay_event_follows_position c row.1 row.2 = false.
Proof.
  intros [_ Hs _ Hf] Hv Hex Hin Hm. unfold worker_replay_event_follows_position.
  destruct (event_resource_version row.2) as [rv|] eqn:Erv; [cbn|done].
  apply matches_targets_key in Hm as (t & k & Ht & Hk & Hkm).
  apply negb_false_iff.
  assert (Hav : classify_all (retained (evicted_under k pruned)) c = Available).
  { destruct (classify_all _ c) eqn:E; [done|]. exfalso. apply not_true_iff_false in Hex. apply Hex.
    apply existsb_exists. exists t. split; [by apply list_elem_of_In|].
    rewrite (proj2 (boundaries_expired _ _ _)); [done|]. exists k. split; [done|]. by rewrite Hf. }
  pose proof (retention_complete (evicted_under k pruned) c Hv (evicted_positive _ _ _ _ Hs)) as [Hr _].
  specialize (Hr Hav). rewrite Forall_forall in Hr.
  apply (Hr (Position rv row.1 0)). eapply evicted_elem; [done|done|].
  unfold row_position. by rewrite Erv.
Qed.

Lemma kept_rows es pruned s targets c :
  history_inv es pruned s -> valid c ->
  existsb (fun t => is_expired (worker_classify_all
             (worker_replay_boundaries (ws_event_history s) t) c)) targets = false ->
  omap catchup_row
    (List.filter (fun '(_, event) => watch_event_matches_targets event targets)
      (List.filter (fun '(event_id, event) => worker_replay_event_follows_position c event_id event)
         (wh_events (ws_event_history s))))
  = replay_rows es targets c.
Proof.
  intros Hinv Hv Hex. unfold replay_rows. rewrite filter_filter_and, (inv_split _ _ _ Hinv), List.filter_app.
  replace (List.filter _ pruned) with (@nil (Z * WatchEvent)).
  - cbn [app]. f_equal. apply filter_ext_eq. by intros [i e].
  - symmetry. pose proof (evicted_not_selected es pruned s targets c) as Hns.
    assert (Hall : forall row, row ∈ pruned -> watch_event_matches_targets row.2 targets = true ->
                               worker_replay_event_follows_position c row.1 row.2 = false) by auto.
    clear -Hall. induction pruned as [|[i e] pruned IH]; [done|]. cbn.
    specialize (Hall (i, e) ltac:(by left)) as He. cbn in He.
    destruct (watch_event_matches_targets e targets) eqn:Em; rewrite ?He by done;
      rewrite ?andb_false_r; cbn; (apply IH; intros row Hr; apply Hall; by right).
Qed.

Lemma replay_rows_elem es targets c x :
  Forall (fun e => is_none_or (event_resource_version e) (Z.leb 0) = true) es ->
  x ∈ replay_rows es targets c ->
  valid (pwe_position x) /\ pos_filter_through (pwe_position x) = 0 /\ 0 < pos_event_id (pwe_position x)
  /\ represents_event c (pos_event_id (pwe_position x)) (pos_resource_version (pwe_position x)) = false.
Proof.
  intros Hrv Hx. unfold replay_rows in Hx. apply list_elem_of_omap in Hx as ([i e] & Hin & Hx).
  apply list_elem_of_In, filter_In in Hin as [Hin Hsel]. apply list_elem_of_In, full_history_elem in Hin as [Hi He].
  unfold recorded in He. apply list_elem_of_In, filter_In in He as [He _].
  rewrite Forall_forall in Hrv. specialize (Hrv e (proj2 (list_elem_of_In _ _) He)).
  unfold catchup_row in Hx. cbn in Hx. unfold worker_replay_event_follows_position in Hsel.
  destruct (event_resource_version e) as [rv|]; [|done]. cbn in Hx, Hrv, Hsel.
  destruct (catchup_resource_from_watch_event e); [|done]. cbn in Hx. injection Hx as <-. cbn.
  to_prop. unfold valid. cbn. split_and!; try lia. done.
Qed.

(** A kept row is not an evicted one: the event IDs differ. *)
Lemma evicted_not_kept es pruned kept row :
  full_history es = (pruned ++ kept)%list -> row ∈ pruned -> row ∉ kept.
Proof.
  intros Hs Hp Hk. apply list_elem_of_lookup in Hp as (i & Hi). apply list_elem_of_lookup in Hk as (j & Hj).
  assert (Hall : forall n r, full_history es !! n = Some r -> r.1 = Z.of_nat n + 1).
  { intros n r Hn. unfold full_history in Hn. rewrite list_lookup_imap in Hn.
    by apply fmap_Some in Hn as (? & _ & ->). }
  pose proof (lookup_lt_Some _ _ _ Hi).
  pose proof (Hall i row) as H1. rewrite Hs, lookup_app_l in H1 by done. specialize (H1 Hi).
  pose proof (Hall (length pruned + j)%nat row) as H2.
  rewrite Hs, lookup_app_r in H2 by lia. replace (length pruned + j - length pruned)%nat with j in H2 by lia.
  specialize (H2 Hj). lia.
Qed.

Lemma expired_lost es pruned s targets c :
  history_inv es pruned s -> valid c -> ~ partially_consumed c ->
  existsb (fun t => is_expired (worker_classify_all
             (worker_replay_boundaries (ws_event_history s) t) c)) targets = true ->
  exists row, row ∈ full_history es /\ (row ∉ wh_events (ws_event_history s))
    /\ watch_event_matches_targets row.2 targets = true
    /\ worker_replay_event_follows_position c row.1 row.2 = true.
Proof.
  intros [_ Hs _ Hf] Hv Hpart Hex. apply existsb_exists in Hex as (t & Ht & Hex).
  destruct (worker_classify_all _ c) eqn:E; [done|]. apply boundaries_expired in E as (k & Hkm & He).
  rewrite Hf in He.
  pose proof (retention_complete (evicted_under k pruned) c Hv (evicted_positive _ _ _ _ Hs)) as [_ Hr].
  specialize (Hr He Hpart). apply Exists_exists in Hr as (p & Hp & Hrep).
  unfold evicted_under in Hp. apply list_elem_of_omap in Hp as (row & Hin & Hp).
  destruct (decide (row_key row = Some k)) as [Hk|]; [|done]. exists row. split_and!.
  - rewrite Hs. apply elem_of_app. by left.
  - by eapply evicted_not_kept.
  - apply matches_targets_key. exists t, k. split; [by apply list_elem_of_In|]. done.
  - unfold worker_replay_event_follows_position. unfold row_position in Hp.
    destruct (event_resource_version row.2); [|done]. injection Hp as <-. cbn in *. by rewrite Hrep.
Qed.


(** A minimal Pod event. *)
Definition pod_event (name rv : string) : WatchEvent :=
  mkWatchEvent Added (Object [("apiVersion", Str "v1"); ("kind", Str "Pod");
    ("metadata", Object [("name", Str name); ("namespace", Str "ns"); ("resourceVersion", Str rv)])]).

