(* ===== verification/RedbWatch.v ===== *)
(** * The redb watch-event log

    The watch tables of the redb cluster datastore: appending an event
    ([redb/mutation_helpers.rs] [watch_insert]), garbage collection with its
    per-scope replay floors ([redb/embedded/watch.rs] [gc_watch]) and positioned
    raw reads ([redb/read_core.rs] [positioned_raw_watch_events],
    [position_expired_for_targets]).

    A table is its content at a transaction: the event table is a list ordered
    by event ID, the floor tables are finite maps over the encoded scope keys.
    A row's JSON body is the [StoredWatchEvent] it decodes to; [None] is a body
    that does not decode.  The identity indexes that [watch_insert] and
    [gc_watch] also maintain serve other reads and are left out here; those of
    the insertion are in [RedbStore]. *)

From S2P Require Import Prelude Text Replay.
Open Scope Z_scope.

Definition CLUSTER_NAMESPACE_KEY : string := "#cluster".
Definition DEFAULT_MIN_WATCH_EVENTS_PER_SCOPE : Z := 1024.
Definition MIN_SCOPE_COUNT_BEFORE_EXPIRING_SCOPES : Z := 16.

Record StoredWatchEvent := mkStored {
  se_api_version : option string;
  se_kind : option string;
  se_namespace : option string;
  se_name : option string;
  se_event_type : option string;
  se_resource_version : option Z;
  se_data : option string
}.

Record DurableRawWatchEvent := mkRawEvent {
  raw_api_version : string;
  raw_kind : string;
  raw_namespace : option string;
  raw_name : string;
  raw_resource_version : Z;
  raw_event_type : string;
  raw_object_json : string
}.

Record WatchTables := mkTables {
  tb_events : list (Z * option StoredWatchEvent);
  tb_rv_floors : gmap string Z;
  tb_position_floors : gmap string (Z * Z);
  tb_rv : Z;
  tb_watch_event_id : Z
}.

Definition empty_tables : WatchTables := mkTables [] ∅ ∅ 0 0.

(** ** Keys *)

Definition nul : string := String Ascii.zero "".

Definition floor_prefix (api_version kind : string) : string :=
  api_version +:+ nul +:+ kind +:+ nul.

Definition floor_key (api_version kind namespace : string) : string :=
  floor_prefix api_version kind +:+ namespace.

Definition floor_key_for_event (event : option StoredWatchEvent) : option string :=
  e ← event; api_version ← se_api_version e; kind ← se_kind e;
  Some (floor_key api_version kind (unwrap_or CLUSTER_NAMESPACE_KEY (se_namespace e))).

(** The [u64] resourceVersion of a row, 0 when absent or negative. *)
Definition row_rv (event : option StoredWatchEvent) : Z :=
  Z.max 0 (unwrap_or 0 (e ← event; se_resource_version e)).

(** ** Appending *)

Definition watch_insert (t : WatchTables) (rv : Z) (event : StoredWatchEvent) : WatchTables :=
  let next := Z.min u64_max (tb_watch_event_id t + 1) in
  let stored := mkStored (se_api_version event) (se_kind event) (se_namespace event) (se_name event)
                  (se_event_type event) (Some rv) (se_data event) in
  mkTables (tb_events t ++ [(next, Some stored)])%list (tb_rv_floors t) (tb_position_floors t)
    (if tb_rv t <? rv then rv else tb_rv t) next.

(** ** Garbage collection *)

Definition watch_events_min_scope_rows (max_rows scope_count : Z) : Z :=
  if (max_rows <=? 0) || (scope_count =? 0) then 0
  else
    let fair_share := max_rows / scope_count in
    let dynamic_floor :=
      if (fair_share =? 0) && (scope_count <=? MIN_SCOPE_COUNT_BEFORE_EXPIRING_SCOPES)
      then 1 else fair_share in
    Z.min (Z.max 1 (Z.min DEFAULT_MIN_WATCH_EVENTS_PER_SCOPE max_rows)) dynamic_floor.

Definition watch_events_max_rows (max_rows : Z) : Z := if max_rows <=? 0 then 0 else max_rows.

Definition watch_events_batch_cap (batch_cap : Z) : Z := if batch_cap <? 0 then u64_max else batch_cap.

Abbreviation GcEntry := (Z * Z * option string)%type.

Definition count_scope (totals : gmap string Z) (e : GcEntry) : gmap string Z :=
  match e.2 with
  | Some key => <[key := unwrap_or 0 (totals !! key) + 1]> totals
  | None => totals
  end.

(** The candidate loop over the remaining entries. *)
Fixpoint gc_loop (global_prunable batch_cap min_scope_rows : Z) (scope_totals : gmap string Z)
    (idx : Z) (seen_by_scope : gmap string Z) (candidates : list GcEntry) (entries : list GcEntry)
  : list GcEntry :=
  match entries with
  | [] => candidates
  | e :: rest =>
      if (global_prunable <=? idx) || (batch_cap <=? Z.of_nat (length candidates)) then candidates
      else
        let continue := gc_loop global_prunable batch_cap min_scope_rows scope_totals (idx + 1) in
        match e.2 with
        | Some key =>
            let seen := unwrap_or 0 (seen_by_scope !! key) in
            let scope_rank := unwrap_or 0 (scope_totals !! key) - seen in
            let seen_by_scope' := <[key := seen + 1]> seen_by_scope in
            if scope_rank <=? min_scope_rows then continue seen_by_scope' candidates rest
            else continue seen_by_scope' (candidates ++ [e])%list rest
        | None => continue seen_by_scope (candidates ++ [e])%list rest
        end
  end.

Definition watch_gc_candidates (entries : list GcEntry) (max_rows batch_cap : Z) : list GcEntry :=
  let max_rows := watch_events_max_rows max_rows in
  let len := Z.of_nat (length entries) in
  if len <=? max_rows then []
  else
    let scope_totals := fold_left count_scope entries ∅ in
    gc_loop (len - max_rows) (watch_events_batch_cap batch_cap)
      (watch_events_min_scope_rows max_rows (Z.of_nat (size scope_totals)))
      scope_totals 0 ∅ [] entries.

Definition note_floor (updates : gmap string (Z * Z)) (e : GcEntry) : gmap string (Z * Z) :=
  match e.2 with
  | Some key =>
      <[key := match updates !! key with
               | Some (frv, fid) => (Z.max frv e.1.2, Z.max fid e.1.1)
               | None => (e.1.2, e.1.1)
               end]> updates
  | None => updates
  end.

Definition raise_rv_floor (floors : gmap string Z) (u : string * (Z * Z)) : gmap string Z :=
  if is_none_or (floors !! u.1) (fun current => current <? u.2.1)
  then <[u.1 := u.2.1]> floors else floors.

Definition raise_position_floor (floors : gmap string (Z * Z)) (u : string * (Z * Z))
  : gmap string (Z * Z) :=
  <[u.1 := match floors !! u.1 with
           | Some existing => (Z.max existing.1 u.2.1, Z.max existing.2 u.2.2)
           | None => u.2
           end]> floors.

Definition gc_entries (t : WatchTables) : list GcEntry :=
  (fun '(event_id, event) => (event_id, row_rv event, floor_key_for_event event)) <$> tb_events t.

Definition gc_watch (t : WatchTables) (max_rows batch_cap : Z) : WatchTables * Z :=
  let candidates := watch_gc_candidates (gc_entries t) max_rows batch_cap in
  match candidates with
  | [] => (t, 0)
  | _ =>
      let updates := map_to_list (fold_left note_floor candidates ∅) in
      let keys := (fun e : GcEntry => e.1.1) <$> candidates in
      (mkTables (List.filter (fun row => negb (existsb (Z.eqb row.1) keys)) (tb_events t))
         (fold_left raise_rv_floor updates (tb_rv_floors t))
         (fold_left raise_position_floor updates (tb_position_floors t))
         (tb_rv t) (tb_watch_event_id t),
       Z.of_nat (length keys))
  end.

(** ** Positioned reads *)

(** [i64::try_from(u64)] capped, as [decode_position] does. *)
Definition cap_i64 (z : Z) : Z := Z.min i64_max z.

Definition target_matches_namespace (target : DurableWatchTarget) (namespace : option string) : bool :=
  match target_scope target with
  | ScopeCluster => opt_is_none namespace
  | ScopeNamespaced (Some expected) => namespace =?os Some expected
  | ScopeNamespaced None => opt_is_some namespace
  end.

Definition stored_matches (target : DurableWatchTarget) (stored : StoredWatchEvent) : bool :=
  (target_api_version target =?s unwrap_or "" (se_api_version stored))
  && (target_kind target =?s unwrap_or "" (se_kind stored))
  && target_matches_namespace target (se_namespace stored).

Definition max_opt (floor : option Z) (candidate : Z) : option Z :=
  Some (match floor with Some current => Z.max current candidate | None => candidate end).

(** [namespaced_floor]: the highest floor over the namespaces of one kind. *)
Definition namespaced_floor (floors : list (string * Z)) (api_version kind : string) : option Z :=
  fold_left (fun floor '(key, candidate) =>
    match strip_prefix (floor_prefix api_version kind) key with
    | Some namespace =>
        if is_empty namespace || (namespace =?s CLUSTER_NAMESPACE_KEY) then floor
        else max_opt floor candidate
    | None => floor
    end) floors None.

Definition rv_floor_rows (t : WatchTables) : list (string * Z) :=
  map_to_list (wrap_i64 <$> tb_rv_floors t).

Definition event_floor_rows (t : WatchTables) : list (string * Z) :=
  map_to_list ((fun p : Z * Z => cap_i64 p.2) <$> tb_position_floors t).

Record LegacyReplayFloor := mkLegacyFloor { lf_resource_version : Z; lf_event_id : Z }.

Definition LegacyReplayFloor_read (t : WatchTables) : option LegacyReplayFloor :=
  let key := floor_key "*" "*" "*" in
  resource_version ← tb_rv_floors t !! key;
  event ← tb_position_floors t !! key;
  Some (mkLegacyFloor (wrap_i64 resource_version) (cap_i64 event.2)).

Definition merge_floor (legacy scoped : option Z) : option Z :=
  match legacy with
  | Some l => Some (match scoped with Some value => Z.max value l | None => l end)
  | None => scoped
  end.

Definition target_rv_floor (t : WatchTables) (target : DurableWatchTarget) : option Z :=
  let scoped :=
    match target_scope target with
    | ScopeCluster =>
        wrap_i64 <$> tb_rv_floors t !! floor_key (target_api_version target) (target_kind target) CLUSTER_NAMESPACE_KEY
    | ScopeNamespaced (Some namespace) =>
        wrap_i64 <$> tb_rv_floors t !! floor_key (target_api_version target) (target_kind target) namespace
    | ScopeNamespaced None => namespaced_floor (rv_floor_rows t) (target_api_version target) (target_kind target)
    end in
  merge_floor (lf_resource_version <$> LegacyReplayFloor_read t) scoped.

Definition target_event_floor (t : WatchTables) (target : DurableWatchTarget) : option Z :=
  let decoded key := (fun p : Z * Z => cap_i64 p.2) <$> tb_position_floors t !! key in
  let scoped :=
    match target_scope target with
    | ScopeCluster => decoded (floor_key (target_api_version target) (target_kind target) CLUSTER_NAMESPACE_KEY)
    | ScopeNamespaced (Some namespace) =>
        decoded (floor_key (target_api_version target) (target_kind target) namespace)
    | ScopeNamespaced None => namespaced_floor (event_floor_rows t) (target_api_version target) (target_kind target)
    end in
  merge_floor (lf_event_id <$> LegacyReplayFloor_read t) scoped.

Definition position_expired_for_targets (t : WatchTables) (targets : list DurableWatchTarget)
    (position : WatchReplayPosition) : bool :=
  existsb (fun target =>
    let floor := if pos_event_id position =? 0 then target_rv_floor t target
                 else target_event_floor t target in
    let cursor := if pos_event_id position =? 0 then pos_resource_version position
                  else pos_event_id position in
    is_some_and floor (fun floor => cursor <? floor)) targets.

Definition raw_event_from_stored (stored : StoredWatchEvent) : DurableRawWatchEvent :=
  mkRawEvent (unwrap_or "" (se_api_version stored)) (unwrap_or "" (se_kind stored)) (se_namespace stored)
    (unwrap_or "" (se_name stored)) (unwrap_or 0 (se_resource_version stored))
    (unwrap_or "" (se_event_type stored)) (unwrap_or "null" (se_data stored)).

Inductive RedbPositionedWatchRead :=
| RedbEvents (page : WatchHistoryPage DurableRawWatchEvent)
| RedbExpired.

(** The row selection of the read loop. *)
Definition selected_row (start filter_through : Z) (position : WatchReplayPosition)
    (targets : list DurableWatchTarget) (high_water : Z) (row : Z * option StoredWatchEvent)
  : option (PositionedWatchEvent DurableRawWatchEvent) :=
  if (start <=? row.1) && (row.1 <=? high_water) then
    stored ← row.2;
    let resource_version := unwrap_or 0 (se_resource_version stored) in
    if (row.1 <=? filter_through) && (resource_version <=? pos_resource_version position) then None
    else if negb (existsb (fun target => stored_matches target stored) targets) then None
    else Some (Positioned (Position resource_version row.1 0) (raw_event_from_stored stored))
  else None.

(** The result [None] is the panic of [after_page]. *)
Definition positioned_raw_watch_events (t : WatchTables) (targets : list DurableWatchTarget)
    (position : WatchReplayPosition) (limit : nat) : option RedbPositionedWatchRead :=
  if (tb_watch_event_id t <? pos_event_id position)
     || ((pos_event_id position =? 0) && (tb_rv t <? pos_resource_version position))
     || position_expired_for_targets t targets position
  then Some RedbExpired
  else
    let start := if pos_event_id position =? 0 then 0
                 else Z.max 0 (saturating_i64 (pos_event_id position + 1)) in
    let filter_through :=
      if 0 <? pos_filter_through position then pos_filter_through position
      else if pos_event_id position =? 0 then i64_max else 0 in
    let events := take limit (omap (selected_row start filter_through position targets
                                      (Z.max 0 (tb_watch_event_id t))) (tb_events t)) in
    next_position ← after_page position events (tb_watch_event_id t);
    Some (RedbEvents (HistoryPage events next_position)).

(** ** Runs of the store *)

Abbreviation LogRow := (Z * StoredWatchEvent)%type.

(** The namespaces the datastore admits: never empty or the cluster sentinel. *)
Definition namespace_ok (e : StoredWatchEvent) : bool :=
  is_none_or (se_namespace e) (fun ns => negb (is_empty ns) && negb (ns =?s CLUSTER_NAMESPACE_KEY)).

Definition stamped (rv : Z) (e : StoredWatchEvent) : StoredWatchEvent :=
  mkStored (se_api_version e) (se_kind e) (se_namespace e) (se_name e) (se_event_type e) (Some rv) (se_data e).

(** Tables reached by inserts and collections, with the log of every event
    ever inserted. *)
Inductive redb_run : list LogRow -> WatchTables -> Prop :=
| run_empty : redb_run [] empty_tables
| run_insert log t rv e :
    redb_run log t -> 0 <= rv <= i64_max -> namespace_ok e = true ->
    tb_watch_event_id t + 1 < i64_max ->
    redb_run (log ++ [(tb_watch_event_id t + 1, stamped rv e)]) (watch_insert t rv e)
| run_gc log t max_rows batch_cap :
    redb_run log t -> redb_run log (gc_watch t max_rows batch_cap).1.

Definition log_rv (row : LogRow) : Z := unwrap_or 0 (se_resource_version row.2).

(** The rows a read of the whole log would return. *)
Definition log_rows (log : list LogRow) (targets : list DurableWatchTarget) (c : WatchReplayPosition)
  : list (PositionedWatchEvent DurableRawWatchEvent) :=
  (fun row => Positioned (Position (log_rv row) row.1 0) (raw_event_from_stored row.2)) <$>
  List.filter (fun row => negb (represents_event c row.1 (log_rv row))
                          && existsb (fun t => stored_matches t row.2) targets) log.

(** *** Floors cover the pruned rows *)

Definition covered (rv_floors : gmap string Z) (position_floors : gmap string (Z * Z)) (row : LogRow) : Prop :=
  forall key, floor_key_for_event (Some row.2) = Some key ->
    (exists f, rv_floors !! key = Some f /\ log_rv row <= f)
    /\ (exists fr fe, position_floors !! key = Some (fr, fe) /\ row.1 <= fe).

Definition rv_floors_ok (rv_floors : gmap string Z) : Prop :=
  forall k f, rv_floors !! k = Some f -> 0 <= f <= i64_max.

Record run_inv (log : list LogRow) (t : WatchTables) (keep : LogRow -> bool) : Prop := {
  ri_ids : forall i row, log !! i = Some row -> row.1 = Z.of_nat i + 1;
  ri_high : tb_watch_event_id t = Z.of_nat (length log);
  ri_bound : tb_watch_event_id t < i64_max;
  ri_rows : Forall (fun row => 0 <= log_rv row <= i64_max /\ namespace_ok row.2 = true) log;
  ri_events : tb_events t = (fun row => (row.1, Some row.2)) <$> List.filter keep log;
  ri_floors : rv_floors_ok (tb_rv_floors t);
  ri_covered : Forall (fun row => keep row = false ->
                  covered (tb_rv_floors t) (tb_position_floors t) row) log
}.

Lemma raise_rv_floor_spec us floors :
  rv_floors_ok floors -> Forall (fun u => 0 <= u.2.1 <= i64_max) us ->
  let floors' := fold_left raise_rv_floor us floors in
  rv_floors_ok floors'
  /\ (forall k f, floors !! k = Some f -> exists f', floors' !! k = Some f' /\ f <= f')
  /\ (forall u, u ∈ us -> exists f', floors' !! u.1 = Some f' /\ u.2.1 <= f').
Proof.
  revert floors. induction us as [|u us IH]; intros floors Hok Hus; cbn [fold_left].
  { split_and!; [done| |by intros ? ?%elem_of_nil]. intros k f Hk. exists f. split; [done|lia]. }
  apply Forall_cons in Hus as [Hu Hus].
  assert (Hstep : rv_floors_ok (raise_rv_floor floors u)
    /\ (forall k f, floors !! k = Some f -> exists f', raise_rv_floor floors u !! k = Some f' /\ f <= f')
    /\ (exists f', raise_rv_floor floors u !! u.1 = Some f' /\ u.2.1 <= f')).
  { unfold raise_rv_floor. destruct (floors !! u.1) as [f0|] eqn:E0; cbn [is_none_or].
    - destruct (Z.ltb_spec f0 u.2.1).
      + split_and!.
        * intros k f. destruct (decide (u.1 = k)) as [<-|]; [rewrite lookup_insert_eq; intros [= <-]; done|].
          rewrite lookup_insert_ne by done. apply Hok.
        * intros k f Hk. destruct (decide (u.1 = k)) as [<-|].
          -- rewrite lookup_insert_eq. eexists. split; [done|]. rewrite E0 in Hk. injection Hk as <-. lia.
          -- rewrite lookup_insert_ne by done. exists f. split; [done|lia].
        * rewrite lookup_insert_eq. eexists. split; [done|lia].
      + split_and!; [done| |eexists; split; [done|lia]]. intros k f Hk. exists f. split; [done|lia].
    - split_and!.
      + intros k f. destruct (decide (u.1 = k)) as [<-|]; [rewrite lookup_insert_eq; intros [= <-]; done|].
        rewrite lookup_insert_ne by done. apply Hok.
      + intros k f Hk. rewrite lookup_insert_ne by congruence. exists f. split; [done|lia].
      + rewrite lookup_insert_eq. eexists. split; [done|lia]. }
  destruct Hstep as (Hok' & Hm & (f1 & Hf1 & Hle1)).
  destruct (IH _ Hok' Hus) as (Hok2 & Hm2 & Hu2). split_and!; [done| |].
  - intros k f Hk. destruct (Hm _ _ Hk) as (f' & Hf' & ?). destruct (Hm2 _ _ Hf') as (f'' & ? & ?).
    exists f''. split; [done|lia].
  - intros x [->|Hx]%elem_of_cons; [|auto]. destruct (Hm2 _ _ Hf1) as (f'' & ? & ?).
    exists f''. split; [done|lia].
Qed.

Lemma raise_position_floor_spec us floors :
  let floors' := fold_left raise_position_floor us floors in
  (forall k f, floors !! k = Some f -> exists f', floors' !! k = Some f' /\ f.2 <= f'.2)
  /\ (forall u, u ∈ us -> exists f', floors' !! u.1 = Some f' /\ u.2.2 <= f'.2).
Proof.
  revert floors. induction us as [|u us IH]; intros floors; cbn [fold_left].
  { split; [|by intros ? ?%elem_of_nil]. intros k f Hk. exists f. split; [done|lia]. }
  assert (Hm : forall k f, floors !! k = Some f ->
      exists f', raise_position_floor floors u !! k = Some f' /\ f.2 <= f'.2).
  { intros k f Hk. unfold raise_position_floor. destruct (decide (u.1 = k)) as [<-|].
    - rewrite lookup_insert_eq, Hk. eexists. split; [done|]. cbn. lia.
    - rewrite lookup_insert_ne by done. exists f. split; [done|lia]. }
  assert (Hu : exists f', raise_position_floor floors u !! u.1 = Some f' /\ u.2.2 <= f'.2).
  { unfold raise_position_floor. rewrite lookup_insert_eq. eexists. split; [done|].
    destruct (floors !! u.1); cbn; lia. }
  destruct (IH (raise_position_floor floors u)) as (Hm2 & Hu2). split.
  - intros k f Hk. destruct (Hm _ _ Hk) as (f' & Hf' & ?). destruct (Hm2 _ _ Hf') as (f'' & ? & ?).
    exists f''. split; [done|lia].
  - intros x [->|Hx]%elem_of_cons; [|auto]. destruct Hu as (f1 & Hf1 & ?).
    destruct (Hm2 _ _ Hf1) as (f'' & ? & ?). exists f''. split; [done|lia].
Qed.

Lemma note_floor_spec es updates :
  let updates' := fold_left note_floor es updates in
  (forall k u, updates !! k = Some u -> exists u', updates' !! k = Some u' /\ u.1 <= u'.1 /\ u.2 <= u'.2)
  /\ (forall e k, e ∈ es -> e.2 = Some k ->
        exists u', updates' !! k = Some u' /\ e.1.2 <= u'.1 /\ e.1.1 <= u'.2).
Proof.
  revert updates. induction es as [|e es IH]; intros updates; cbn [fold_left].
  { split; [|by intros ? ? ?%elem_of_nil]. intros k u Hk. exists u. split; [done|lia]. }
  assert (Hm : forall k u, updates !! k = Some u ->
      exists u', note_floor updates e !! k = Some u' /\ u.1 <= u'.1 /\ u.2 <= u'.2).
  { intros k u Hk. unfold note_floor. destruct (e.2) as [k'|]; [|exists u; split; [done|lia]].
    destruct (decide (k' = k)) as [<-|].
    - rewrite lookup_insert_eq, Hk. destruct u. eexists. split; [done|]. cbn. lia.
    - rewrite lookup_insert_ne by done. exists u. split; [done|lia]. }
  assert (He : forall k, e.2 = Some k ->
      exists u', note_floor updates e !! k = Some u' /\ e.1.2 <= u'.1 /\ e.1.1 <= u'.2).
  { intros k Hk. unfold note_floor. rewrite Hk, lookup_insert_eq. eexists. split; [done|].
    destruct (updates !! k) as [[? ?]|]; cbn; lia. }
  destruct (IH (note_floor updates e)) as (Hm2 & He2). split.
  - intros k u Hk. destruct (Hm _ _ Hk) as (u' & Hu' & ?). destruct (Hm2 _ _ Hu') as (u'' & ? & ?).
    exists u''. split; [done|lia].
  - intros x k [->|Hx]%elem_of_cons Hk; [|eauto]. destruct (He k Hk) as (u1 & Hu1 & ?).
    destruct (Hm2 _ _ Hu1) as (u'' & ? & ?). exists u''. split; [done|lia].
Qed.

Lemma note_floor_bounds es updates :
  (forall k u, updates !! k = Some u -> 0 <= u.1 <= i64_max) ->
  Forall (fun e : GcEntry => 0 <= e.1.2 <= i64_max) es ->
  forall k u, fold_left note_floor es updates !! k = Some u -> 0 <= u.1 <= i64_max.
Proof.
  intros Hup Hes. revert updates Hup. induction Hes as [|e es He Hes IH]; intros updates Hup; [done|].
  cbn [fold_left]. apply IH. intros k u. unfold note_floor. destruct e.2 as [k'|]; [|apply Hup].
  destruct (decide (k' = k)) as [<-|]; [|rewrite lookup_insert_ne by done; apply Hup].
  rewrite lookup_insert_eq. intros [= <-]. destruct (updates !! k') as [[? ?]|] eqn:E; [|done].
  apply Hup in E. cbn in *. lia.
Qed.

Lemma gc_loop_subset gp bc ms st idx seen cands es x :
  x ∈ gc_loop gp bc ms st idx seen cands es -> x ∈ cands \/ x ∈ es.
Proof.
  revert idx seen cands. induction es as [|e es IH]; intros idx seen cands; cbn; [auto|].
  destruct (_ || _); [auto|]. destruct e.2 as [k|] eqn:Ek.
  - destruct (_ <=? ms); intros [H|H]%IH; [by left|right; by right| |right; by right].
    apply elem_of_app in H as [H|H]; [by left|right]. apply list_elem_of_singleton in H. subst. by left.
  - intros [H|H]%IH; [|right; by right].
    apply elem_of_app in H as [H|H]; [by left|right]. apply list_elem_of_singleton in H. subst. by left.
Qed.

Lemma candidates_subset es m b x : x ∈ watch_gc_candidates es m b -> x ∈ es.
Proof.
  unfold watch_gc_candidates. destruct (_ <=? _); [by intros ?%elem_of_nil|].
  intros [?%elem_of_nil|?]%gc_loop_subset; done.
Qed.

Lemma filter_fmap {A B} (f : A -> B) p (l : list A) :
  List.filter p (f <$> l) = f <$> List.filter (fun x => p (f x)) l.
Proof. induction l as [|x l IH]; [done|]. csimpl. destruct (p (f x)); csimpl; congruence. Qed.

Lemma log_row_unique (log : list LogRow) row row' :
  (forall i row, log !! i = Some row -> row.1 = Z.of_nat i + 1) ->
  row ∈ log -> row' ∈ log -> row.1 = row'.1 -> row = row'.
Proof.
  intros Hids (i & Hi)%list_elem_of_lookup (j & Hj)%list_elem_of_lookup Heq.
  pose proof (Hids _ _ Hi). pose proof (Hids _ _ Hj). assert (i = j) by lia. subst. congruence.
Qed.

(** What collection removed is exactly a set of kept rows, each summarised by an
    entry. *)
Lemma candidate_row log t keep m b e :
  run_inv log t keep -> e ∈ watch_gc_candidates (gc_entries t) m b ->
  exists row, row ∈ log /\ keep row = true
    /\ e = (row.1, log_rv row, floor_key_for_event (Some row.2)).
Proof.
  intros Hinv He%candidates_subset. unfold gc_entries in He. rewrite (ri_events _ _ _ Hinv) in He.
  apply list_elem_of_fmap in He as ([i oe] & -> & He). apply list_elem_of_fmap in He as (row & [= -> ->] & Hrow).
  apply list_elem_of_In, filter_In in Hrow as [Hin Hk]. apply list_elem_of_In in Hin.
  exists row. split; [done|]. split; [done|]. do 2 f_equal.
  pose proof (proj1 (Forall_forall _ _) (ri_rows _ _ _ Hinv) row Hin) as [Hb _].
  unfold row_rv, log_rv in *. cbn. lia.
Qed.

Lemma covered_mono rf pf rf' pf' row :
  (forall k f, rf !! k = Some f -> exists f', rf' !! k = Some f' /\ f <= f') ->
  (forall k (f : Z * Z), pf !! k = Some f -> exists f', pf' !! k = Some f' /\ f.2 <= f'.2) ->
  covered rf pf row -> covered rf' pf' row.
Proof.
  intros Hr Hp Hc key Hk. destruct (Hc key Hk) as ((f & Hf & ?) & (fr & fe & Hfe & ?)). split.
  - destruct (Hr _ _ Hf) as (f' & ? & ?). exists f'. split; [done|lia].
  - destruct (Hp _ _ Hfe) as ([fr' fe'] & ? & ?). exists fr', fe'. cbn in *. split; [done|lia].
Qed.

Lemma run_inv_gc log t keep m b :
  run_inv log t keep -> exists keep', run_inv log (gc_watch t m b).1 keep'.
Proof.
  intros Hinv. unfold gc_watch.
  destruct (watch_gc_candidates (gc_entries t) m b) as [|e0 es0] eqn:Ec; [by exists keep|].
  rewrite <- Ec. set (cands := watch_gc_candidates (gc_entries t) m b) in *. clear Ec e0 es0.
  cbn [fst]. set (keys := (fun e : GcEntry => e.1.1) <$> cands).
  set (ups := map_to_list (fold_left note_floor cands ∅)).
  assert (Hcb : Forall (fun e : GcEntry => 0 <= e.1.2 <= i64_max) cands).
  { apply Forall_forall. intros e He. destruct (candidate_row _ _ _ _ _ _ Hinv He) as (row & Hin & _ & ->).
    apply (proj1 (Forall_forall _ _) (ri_rows _ _ _ Hinv) row Hin). }
  assert (Hub : Forall (fun u : string * (Z * Z) => 0 <= u.2.1 <= i64_max) ups).
  { apply Forall_forall. intros [k u] Hu. apply elem_of_map_to_list in Hu.
    eapply note_floor_bounds; [|exact Hcb|exact Hu]. intros ? ?. by rewrite lookup_empty. }
  destruct (raise_rv_floor_spec ups _ (ri_floors _ _ _ Hinv) Hub) as (Hok & Hrm & Hru).
  destruct (raise_position_floor_spec ups (tb_position_floors t)) as (Hpm & Hpu).
  destruct (note_floor_spec cands ∅) as (_ & Hnote).
  exists (fun row => keep row && negb (existsb (Z.eqb row.1) keys)).
  split; cbn; try apply Hinv; [by rewrite (ri_events _ _ _ Hinv), filter_fmap, filter_filter_and|done|].
  apply Forall_forall. intros row Hin Hk. apply andb_false_iff in Hk as [Hk|Hk].
  { eapply covered_mono; [exact Hrm|exact Hpm|].
    by apply (proj1 (Forall_forall _ _) (ri_covered _ _ _ Hinv) row Hin). }
  apply negb_false_iff, existsb_exists in Hk as (i & Hi & Heq%Z.eqb_eq).
  apply list_elem_of_In, list_elem_of_fmap in Hi as (e & -> & He).
  destruct (candidate_row _ _ _ _ _ _ Hinv He) as (row' & Hin' & _ & ->). cbn in Heq.
  assert (row = row') as <- by (by eapply log_row_unique; [apply Hinv|..]).
  intros key Hkey. destruct (Hnote _ key He Hkey) as (u & Hu & Hu1 & Hu2). cbn in Hu1, Hu2.
  assert (Hin2 : (key, u) ∈ ups) by (by apply elem_of_map_to_list). split.
  - destruct (Hru _ Hin2) as (f & ? & ?). exists f. cbn in *. split; [done|lia].
  - destruct (Hpu _ Hin2) as ([fr fe] & ? & ?). exists fr, fe. cbn in *. split; [done|lia].
Qed.

Lemma run_inv_insert log t keep rv e :
  run_inv log t keep -> 0 <= rv <= i64_max -> namespace_ok e = true -> tb_watch_event_id t + 1 < i64_max ->
  run_inv (log ++ [(tb_watch_event_id t + 1, stamped rv e)]) (watch_insert t rv e)
    (fun row => (row.1 =? tb_watch_event_id t + 1) || keep row).
Proof.
  intros [Hids Hhigh Hb Hrows Hev Hfl Hcov] Hrv Hns Hlt.
  unfold watch_insert. rewrite Z.min_r by (unfold u64_max, i64_max in *; lia). fold (stamped rv e).
  assert (Hold : forall row, row ∈ log -> (row.1 =? tb_watch_event_id t + 1) = false).
  { intros row (i & Hi)%list_elem_of_lookup. pose proof (Hids _ _ Hi) as Hr.
    apply lookup_lt_Some in Hi. apply Z.eqb_neq. rewrite Hr, Hhigh. lia. }
  split; cbn; try done.
  - intros i row. rewrite lookup_app. destruct (log !! i) as [r|] eqn:Ei; [intros [= <-]; by apply Hids|].
    apply lookup_ge_None in Ei. intros Hi. apply list_lookup_singleton_Some in Hi as [Hi <-]. cbn. lia.
  - rewrite length_app. cbn. lia.
  - apply Forall_app. split; [done|]. constructor; [|done]. done.
  - rewrite List.filter_app, fmap_app. cbn. rewrite Z.eqb_refl. cbn. f_equal. rewrite Hev. f_equal.
    clear -Hold. induction log as [|r log IH]; [done|]. cbn. rewrite Hold by (by left). cbn.
    assert (IH' := IH (fun row Hr => Hold row (list_elem_of_further _ _ _ Hr))).
    by destruct (keep r); rewrite IH'.
  - apply Forall_app. split.
    + apply Forall_forall. intros row Hin [_ Hk]%orb_false_iff.
      by apply (proj1 (Forall_forall _ _) Hcov).
    + constructor; [|done]. cbn. by rewrite Z.eqb_refl.
Qed.

Lemma run_has_inv log t : redb_run log t -> exists keep, run_inv log t keep.
Proof.
  induction 1 as [|log t rv e _ [keep Hinv] ? ? ?|log t m b _ [keep Hinv]].
  - exists (fun _ => true). split; cbn; try done; intros ? ?; by rewrite ?lookup_empty.
  - eexists. by apply run_inv_insert.
  - by apply run_inv_gc with keep.
Qed.

(** *** Reads *)

Lemma namespaced_floor_ge floors api kind ns f :
  (floor_key api kind ns, f) ∈ floors -> is_empty ns = false -> (ns =?s CLUSTER_NAMESPACE_KEY) = false ->
  exists m, namespaced_floor floors api kind = Some m /\ f <= m.
Proof.
  intros Hin He Hc. unfold namespaced_floor.
  set (step := fun (floor : option Z) '(key, candidate) => _).
  assert (Hmono : forall l a v, a = Some v -> exists m, fold_left step l a = Some m /\ v <= m).
  { induction l as [|[k x] l IH]; intros a v ->; cbn [fold_left]; [exists v; split; [done|lia]|].
    assert (exists w, step (Some v) (k, x) = Some w /\ v <= w) as (w & Hw & ?).
    { cbn. destruct (strip_prefix _ k); [|exists v; split; [done|lia]].
      destruct (_ || _); [exists v; split; [done|lia]|]. eexists. split; [done|]. lia. }
    destruct (IH _ _ Hw) as (m & -> & ?). exists m. split; [done|lia]. }
  generalize (@None Z). induction floors as [|[k x] floors IH]; intros a; [by apply elem_of_nil in Hin|].
  cbn [fold_left]. apply elem_of_cons in Hin as [[= <- <-]|Hin]; [|by apply IH].
  assert (exists w, step a (floor_key api kind ns, f) = Some w /\ f <= w) as (w & Hw & ?).
  { assert (Hs : strip_prefix (floor_prefix api kind) (floor_key api kind ns) = Some ns)
      by (by apply strip_prefix_Some).
    unfold step. rewrite Hs, He, Hc. eexists. split; [done|]. destruct a; cbn; lia. }
  destruct (Hmono floors _ _ Hw) as (m & -> & ?). exists m. split; [done|lia].
Qed.

Lemma merge_floor_ge legacy scoped f :
  (exists m, scoped = Some m /\ f <= m) -> exists m, merge_floor legacy scoped = Some m /\ f <= m.
Proof.
  intros (m & -> & Hle). destruct legacy as [l|]; cbn; eexists; (split; [done|lia]).
Qed.

(** The floors consulted for a target dominate every pruned row it matches. *)
Lemma matched_row_floor log t keep target row :
  run_inv log t keep -> row ∈ log -> keep row = false -> stored_matches target row.2 = true ->
  target_api_version target <> "" -> target_kind target <> "" ->
  (exists m, target_rv_floor t target = Some m /\ log_rv row <= m)
  /\ (exists m, target_event_floor t target = Some m /\ row.1 <= m).
Proof.
  intros Hinv Hin Hk Hm Ha Hkd. pose proof (proj1 (Forall_forall _ _) (ri_rows _ _ _ Hinv) row Hin) as [Hrv Hns].
  pose proof (proj1 (Forall_forall _ _) (ri_covered _ _ _ Hinv) row Hin Hk) as Hcov.
  assert (Hid : row.1 <= i64_max).
  { apply list_elem_of_lookup in Hin as (i & Hi). pose proof (ri_ids _ _ _ Hinv _ _ Hi) as ->.
    apply lookup_lt_Some in Hi. pose proof (ri_high _ _ _ Hinv). pose proof (ri_bound _ _ _ Hinv). lia. }
  unfold stored_matches in Hm. to_prop. destruct (se_api_version row.2) as [a|] eqn:Ea; [|done].
  destruct (se_kind row.2) as [kd|] eqn:Ekd; [|done]. cbn in *.
  set (ns := unwrap_or CLUSTER_NAMESPACE_KEY (se_namespace row.2)).
  destruct (Hcov (floor_key a kd ns)) as ((f & Hf & Hfle) & (fr & fe & Hfe & Hele)).
  { unfold floor_key_for_event. cbn. by rewrite Ea, Ekd. }
  pose proof (ri_floors _ _ _ Hinv _ _ Hf) as Hfb.
  assert (Hwf : wrap_i64 f = f) by (apply wrap_i64_small; unfold in_i64, i64_min, i64_max in *; lia).
  assert (Hcap : row.1 <= cap_i64 fe) by (unfold cap_i64; lia).
  unfold target_rv_floor, target_event_floor, target_matches_namespace, namespace_ok in *.
  rewrite H, H1. split; apply merge_floor_ge; destruct (target_scope target) as [|[want|]];
    destruct (se_namespace row.2) as [n|]; try done; cbn in ns; subst ns.
  1,4: rewrite ?Hf, ?Hfe; eexists; (split; [done|]); cbn; rewrite ?Hwf; lia.
  1,3: apply opt_string_eqb_iff in H0; injection H0 as ->; rewrite ?Hf, ?Hfe; eexists; (split; [done|]);
    cbn; rewrite ?Hwf; lia.
  all: cbn in Hns; to_prop.
  - destruct (namespaced_floor_ge (rv_floor_rows t) a kd n f) as (m & -> & ?); [|done|by apply String.eqb_neq|].
    + apply elem_of_map_to_list. rewrite lookup_fmap, Hf. cbn. by rewrite Hwf.
    + exists m. split; [done|lia].
  - destruct (namespaced_floor_ge (event_floor_rows t) a kd n (cap_i64 fe)) as (m & -> & ?);
      [|done|by apply String.eqb_neq|].
    + apply elem_of_map_to_list. by rewrite lookup_fmap, Hfe.
    + exists m. split; [done|lia].
Qed.

Definition to_row (row : LogRow) : PositionedWatchEvent DurableRawWatchEvent :=
  Positioned (Position (log_rv row) row.1 0) (raw_event_from_stored row.2).

Lemma selected_row_spec c targets hw row :
  valid c -> pos_event_id c <= hw < i64_max -> 1 <= row.1 <= hw ->
  selected_row (if pos_event_id c =? 0 then 0 else Z.max 0 (saturating_i64 (pos_event_id c + 1)))
    (if 0 <? pos_filter_through c then pos_filter_through c
     else if pos_event_id c =? 0 then i64_max else 0) c targets hw (row.1, Some row.2)
  = if negb (represents_event c row.1 (log_rv row)) && existsb (fun t => stored_matches t row.2) targets
    then Some (to_row row) else None.
Proof.
  intros Hv Hc Hr. unfold selected_row, to_row, log_rv. cbn [fst snd mbind option_bind].
  set (rv := unwrap_or 0 _). destruct (existsb _ targets); rewrite ?andb_false_r, ?andb_true_r; cbn [negb];
    [|by repeat case_match].
  pose proof (represents_event_spec c row.1 rv) as Hspec. unfold valid in Hv.
  unfold saturating_i64. unfold i64_min, i64_max in *.
  destruct (represents_event c row.1 rv); cbn [negb]; repeat case_match; try done; exfalso; split_or;
    (destruct Hspec as [Hs1 Hs2]; try specialize (Hs1 eq_refl); try (assert (~ false = true) by done; tauto));
    try lia.
  all: assert (Hno : ~ (false = true)) by done; apply Hno, Hs2; lia.
Qed.

Lemma redb_rows log t keep c targets :
  run_inv log t keep -> valid c -> pos_event_id c <= tb_watch_event_id t ->
  (forall row, row ∈ log -> keep row = false -> existsb (fun t => stored_matches t row.2) targets = true ->
     represents_event c row.1 (log_rv row) = true) ->
  omap (selected_row (if pos_event_id c =? 0 then 0 else Z.max 0 (saturating_i64 (pos_event_id c + 1)))
          (if 0 <? pos_filter_through c then pos_filter_through c
           else if pos_event_id c =? 0 then i64_max else 0) c targets (Z.max 0 (tb_watch_event_id t)))
       (tb_events t)
  = log_rows log targets c.
Proof.
  intros Hinv Hv Hc Hpruned. rewrite (ri_events _ _ _ Hinv). unfold log_rows. fold to_row.
  assert (Hrow : forall row, row ∈ log -> 1 <= row.1 <= tb_watch_event_id t).
  { intros row (i & Hi)%list_elem_of_lookup. rewrite (ri_ids _ _ _ Hinv _ _ Hi), (ri_high _ _ _ Hinv).
    apply lookup_lt_Some in Hi. lia. }
  pose proof (ri_bound _ _ _ Hinv) as Hb. pose proof (ri_high _ _ _ Hinv) as Hh.
  rewrite (Z.max_r 0 (tb_watch_event_id t)) by lia. clear Hinv Hh.
  induction log as [|row log IH]; [done|].
  assert (Hr1 := Hrow row (list_elem_of_here _ _)).
  specialize (IH (fun r Hr => Hpruned r (list_elem_of_further _ _ _ Hr))
                 (fun r Hr => Hrow r (list_elem_of_further _ _ _ Hr))).
  specialize (Hpruned row (list_elem_of_here _ _)). cbn [List.filter].
  destruct (keep row) eqn:Ek.
  - rewrite fmap_cons. cbn [omap list_omap]. rewrite selected_row_spec by (done || lia).
    destruct (_ && _); [rewrite fmap_cons|]; by rewrite <- IH.
  - rewrite IH. destruct (existsb _ targets) eqn:Em; rewrite ?andb_false_r; [|done].
    by rewrite Hpruned.
Qed.

(** A freshly established composite cursor. *)
Definition fresh_composite (c : WatchReplayPosition) : Prop :=
  pos_event_id c = 0 /\ 0 < pos_filter_through c.

Lemma available_represents log t keep c targets row :
  run_inv log t keep -> valid c -> ~ fresh_composite c ->
  Forall (fun target => target_api_version target <> "" /\ target_kind target <> "") targets ->
  position_expired_for_targets t targets c = false ->
  row ∈ log -> keep row = false -> existsb (fun t => stored_matches t row.2) targets = true ->
  represents_event c row.1 (log_rv row) = true.
Proof.
  intros Hinv Hv Hf Hne Hexp Hin Hk (target & Ht & Hm)%existsb_exists.
  rewrite Forall_forall in Hne. destruct (Hne target (proj2 (list_elem_of_In _ _) Ht)) as [Ha Hkd].
  destruct (matched_row_floor _ _ _ _ _ Hinv Hin Hk Hm Ha Hkd) as ((m & Hrvf & ?) & (m' & Hevf & ?)).
  assert (Hone : is_some_and (if pos_event_id c =? 0 then target_rv_floor t target else target_event_floor t target)
    (fun floor => (if pos_event_id c =? 0 then pos_resource_version c else pos_event_id c) <? floor) = false).
  { apply not_true_is_false. intros Hbad. apply not_true_iff_false in Hexp. apply Hexp.
    unfold position_expired_for_targets. apply existsb_exists. by exists target. }
  rewrite Hrvf, Hevf in Hone. apply represents_event_spec. unfold valid, fresh_composite in *.
  destruct (Z.eqb_spec (pos_event_id c) 0); cbn in Hone; to_prop; lia.
Qed.

(** C14. For an external resourceVersion or an event-ID cursor, a positioned
    read of the redb log after any inserts and collections never panics and
    returns the first rows, up to the limit, that the cursor has not seen among
    all matching events ever inserted, or reports expiry. *)
Theorem redb_replay_exact log t targets c limit :
  redb_run log t -> valid c -> ~ fresh_composite c ->
  Forall (fun target => target_api_version target <> "" /\ target_kind target <> "") targets ->
  let read := positioned_raw_watch_events t targets c limit in
  read = Some RedbExpired
  \/ exists next, read = Some (RedbEvents (HistoryPage (take limit (log_rows log targets c)) next)).
Proof.
  intros [keep Hinv]%run_has_inv Hv Hf Hne read. unfold read, positioned_raw_watch_events.
  destruct (_ || _) eqn:Hexp; [by left|right]. to_prop.
  rewrite (redb_rows log t keep) by (try done; intros; by eapply available_represents).
  destruct (after_page_defined c (take limit (log_rows log targets c)) (tb_watch_event_id t)) as [n ->].
  - done.
  - lia.
  - intros x Hx. apply elem_of_take in Hx as (i & Hi & _). apply list_elem_of_lookup_2 in Hi.
    unfold log_rows in Hi. apply list_elem_of_fmap in Hi as (row & -> & Hrow). cbn.
    apply list_elem_of_In, filter_In in Hrow as [Hin Hsel]. apply list_elem_of_In in Hin.
    pose proof (proj1 (Forall_forall _ _) (ri_rows _ _ _ Hinv) row Hin) as [? _].
    apply list_elem_of_lookup in Hin as (j & Hj). pose proof (ri_ids _ _ _ Hinv _ _ Hj).
    to_prop. unfold valid. cbn. split_and!; try lia. done.
  - by exists n.
Qed.

Definition config_map (name : string) : StoredWatchEvent :=
  mkStored (Some "v1") (Some "ConfigMap") (Some "ns") (Some name) (Some "ADDED") None None.

Definition config_maps : list DurableWatchTarget := [Target "v1" "ConfigMap" (ScopeNamespaced (Some "ns"))].

(** Two inserts, the later one with the lower resourceVersion. *)
Definition two_inserts : WatchTables :=
  watch_insert (watch_insert empty_tables 10 (config_map "a")) 9 (config_map "b").

Definition two_log : list LogRow := [(1, stamped 10 (config_map "a")); (2, stamped 9 (config_map "b"))].

Lemma two_inserts_run : redb_run two_log two_inserts.
Proof.
  apply (run_insert [(1, stamped 10 (config_map "a"))] (watch_insert empty_tables 10 (config_map "a")));
    try reflexivity; [|unfold i64_max; lia].
  apply (run_insert [] empty_tables); try reflexivity; [constructor|unfold i64_max; lia].
Qed.

Lemma redb_replay_exact_witness :
  exists next, positioned_raw_watch_events two_inserts config_maps (Position 10 1 0) 5
    = Some (RedbEvents (HistoryPage [to_row (2, stamped 9 (config_map "b"))] next)).
Proof.
  destruct (redb_replay_exact two_log two_inserts config_maps (Position 10 1 0) 5) as [H|[next H]].
  - exact two_inserts_run.
  - unfold valid. cbn. lia.
  - intros [? _]. discriminate.
  - repeat constructor; discriminate.
  - vm_compute in H. discriminate H.
  - exists next. exact H.
Defined.

(** A composite cursor is not checked against the event-ID floor: an event
    applied after the cursor was established, with a lower resourceVersion, can
    be collected and the read still succeeds with an empty page, so the client
    never receives it.  The retention contract of the cluster store classifies
    the same cursor against the same floor as expired. *)
Theorem redb_composite_cursor_gap :
  exists log t c,
    redb_run log t /\ valid c /\ fresh_composite c
    /\ log_rows log config_maps c = [to_row (2, stamped 9 (config_map "b"))]
    /\ positioned_raw_watch_events t config_maps c 5
       = Some (RedbEvents (HistoryPage [] (Position 10 2 0)))
    /\ tb_position_floors t !! floor_key "v1" "ConfigMap" "ns" = Some (10, 2)
    /\ classify (Exact (Position 10 2 0)) c = Expired.
Proof.
  exists two_log, (gc_watch two_inserts 0 (-1)).1, (Position 10 0 1).
  split; [apply run_gc, two_inserts_run|]. split; [unfold valid; cbn; lia|].
  split; [split; [reflexivity|cbn; lia]|]. by vm_compute.
Qed.
