(* ===== verification/Reconstruct.v ===== *)
(** * Membership at a replay position

    The reverse reconstruction of [klights-cluster-datastore/src/
    position_membership.rs] (the same code is in [redb/read_core.rs]): starting
    from the current resources, the retained watch rows are read newest first
    and every row the cursor does not represent is undone.

    The ordered map of resources is a [gmap] over the identity key; the vector
    of its values is returned in key order and sorted again by the callers, so
    the map itself is the result. *)

From S2P Require Import Prelude Json Replay Watch.
Open Scope Z_scope.

(** ** Model *)

Abbreviation MembershipKey := (string * string * option string * string)%type.

Definition key_from_resource (r : Resource) : MembershipKey :=
  (r_api_version r, r_kind r, r_namespace r, r_name r).

Record MembershipHistoryEvent := mkMembershipEvent {
  me_event_id : Z;
  me_event_type : string;
  me_resource : Resource
}.

Definition me_key (e : MembershipHistoryEvent) : MembershipKey := key_from_resource (me_resource e).

Record MembershipReconstructor := mkReconstructor {
  mr_state : gmap MembershipKey Resource;
  mr_needs_predecessor : gset MembershipKey;
  mr_position : WatchReplayPosition;
  mr_expired : bool
}.

Inductive ReconstructedMembership :=
| MembershipExpired
| Items (state : gmap MembershipKey Resource).

Definition MembershipReconstructor_new (current : list Resource) (position : WatchReplayPosition)
  : MembershipReconstructor :=
  mkReconstructor (fold_left (fun m r => <[key_from_resource r := r]> m) current ∅) ∅ position false.

(** The second half of [observe]: undo the row unless the cursor has seen it. *)
Definition undo_row (position : WatchReplayPosition) (event : MembershipHistoryEvent)
    (state : gmap MembershipKey Resource) (needs : gset MembershipKey) : MembershipReconstructor :=
  let key := me_key event in
  if represents_event position (me_event_id event) (r_resource_version (me_resource event))
  then mkReconstructor state needs position false
  else if me_event_type event =?s "ADDED"
  then mkReconstructor (delete key state) needs position false
  else if me_event_type event =?s "MODIFIED"
  then mkReconstructor state ({[key]} ∪ needs) position false
  else if me_event_type event =?s "DELETED"
  then mkReconstructor (<[key := me_resource event]> state) needs position false
  else mkReconstructor state needs position true.

Definition observe (self : MembershipReconstructor) (event : MembershipHistoryEvent)
  : MembershipReconstructor :=
  if mr_expired self then self
  else
    let key := me_key event in
    let position := mr_position self in
    if decide (key ∈ mr_needs_predecessor self) then
      let needs := mr_needs_predecessor self ∖ {[key]} in
      if me_event_type event =?s "DELETED"
      then mkReconstructor (mr_state self) needs position true
      else undo_row position event (<[key := me_resource event]> (mr_state self)) needs
    else undo_row position event (mr_state self) (mr_needs_predecessor self).

Definition can_stop_before (self : MembershipReconstructor) (event_id : Z) : bool :=
  (0 <? pos_event_id (mr_position self))
  && (pos_filter_through (mr_position self) =? 0)
  && (event_id <=? pos_event_id (mr_position self))
  && bool_decide (mr_needs_predecessor self = ∅).

Definition finish (self : MembershipReconstructor) : ReconstructedMembership :=
  if mr_expired self || negb (bool_decide (mr_needs_predecessor self = ∅))
  then MembershipExpired else Items (mr_state self).

(** The reading loop of [reconstruct_membership_in_read], newest row first. *)
Fixpoint observe_until_stop (self : MembershipReconstructor) (newest_first : list MembershipHistoryEvent)
  : MembershipReconstructor :=
  match newest_first with
  | [] => self
  | e :: rest =>
      if can_stop_before self (me_event_id e) then self else observe_until_stop (observe self e) rest
  end.

Definition reconstruct_membership_in_read (current : list Resource)
    (history : list MembershipHistoryEvent) (position : WatchReplayPosition) : ReconstructedMembership :=
  finish (observe_until_stop (MembershipReconstructor_new current position) (rev history)).

(** ** The forward meaning of the rows *)

Definition apply_row (state : gmap MembershipKey Resource) (e : MembershipHistoryEvent)
  : gmap MembershipKey Resource :=
  if me_event_type e =?s "DELETED" then delete (me_key e) state
  else <[me_key e := me_resource e]> state.

Definition represented (p : WatchReplayPosition) (e : MembershipHistoryEvent) : bool :=
  represents_event p (me_event_id e) (r_resource_version (me_resource e)).

(** The state a client positioned at [p] has seen, from the state [base] that
    precedes the retained rows. *)
Definition state_at (base : gmap MembershipKey Resource) (p : WatchReplayPosition)
    (history : list MembershipHistoryEvent) : gmap MembershipKey Resource :=
  fold_left apply_row (List.filter (represented p) history) base.

Lemma undo_row_frame p e state needs k :
  me_key e <> k ->
  mr_position (undo_row p e state needs) = p
  /\ mr_state (undo_row p e state needs) !! k = state !! k
  /\ (k ∈ mr_needs_predecessor (undo_row p e state needs) <-> k ∈ needs).
Proof.
  intros Hk. unfold undo_row. repeat case_match; cbn;
    rewrite ?lookup_insert_ne, ?lookup_delete_ne by done; (split; [done|]); (split; [done|]); set_solver.
Qed.

Lemma undo_row_position p e state needs : mr_position (undo_row p e state needs) = p.
Proof. unfold undo_row. by repeat case_match. Qed.

#[local] Set Default Proof Using "Type*".

Section Reconstruction.
(** When two versions count as the same object: the delete row stores the
    pre-delete object under the delete's resourceVersion. *)
Context (same : Resource -> Resource -> Prop) `{!Reflexive same}.
Context (p : WatchReplayPosition).

Definition row_ok (state : gmap MembershipKey Resource) (e : MembershipHistoryEvent) : Prop :=
  (me_event_type e = "ADDED" /\ state !! me_key e = None)
  \/ (me_event_type e = "MODIFIED" /\ is_Some (state !! me_key e))
  \/ (me_event_type e = "DELETED" /\ exists r, state !! me_key e = Some r /\ same (me_resource e) r).

(** The rows are possible from [base]. *)
Fixpoint rows_ok (base : gmap MembershipKey Resource) (history : list MembershipHistoryEvent) : Prop :=
  match history with
  | [] => True
  | e :: rest => row_ok base e /\ rows_ok (apply_row base e) rest
  end.

(** Event IDs increase; one object's resourceVersions do not decrease. *)
Fixpoint rows_ordered (history : list MembershipHistoryEvent) : Prop :=
  match history with
  | [] => True
  | e :: rest =>
      Forall (fun e' => me_event_id e < me_event_id e'
        /\ (me_key e = me_key e' ->
            r_resource_version (me_resource e) <= r_resource_version (me_resource e'))) rest
      /\ rows_ordered rest
  end.

(** *** One key at a time *)

Definition apply_at (k : MembershipKey) (o : option Resource) (e : MembershipHistoryEvent) : option Resource :=
  if decide (me_key e = k) then (if me_event_type e =?s "DELETED" then None else Some (me_resource e)) else o.

Lemma apply_row_lookup state e k : apply_row state e !! k = apply_at k (state !! k) e.
Proof.
  unfold apply_row, apply_at. destruct (me_event_type e =?s "DELETED"), (decide (me_key e = k)) as [<-|Hne].
  - apply lookup_delete_eq.
  - by apply lookup_delete_ne.
  - apply lookup_insert_eq.
  - by apply lookup_insert_ne.
Qed.

Lemma fold_apply_lookup l state k :
  fold_left apply_row l state !! k = fold_left (apply_at k) l (state !! k).
Proof. revert state. induction l as [|e l IH]; intros state; [done|]. cbn. by rewrite IH, apply_row_lookup. Qed.

Lemma apply_at_other k o e : me_key e <> k -> apply_at k o e = o.
Proof. intros. unfold apply_at. by rewrite decide_False. Qed.

(** Rows of the key that the cursor has not seen leave the filtered fold alone. *)
Lemma fold_unseen k o l :
  Forall (fun e => me_key e = k -> represented p e = false) l ->
  fold_left (apply_at k) (List.filter (represented p) l) o = o.
Proof.
  intros Hl. revert o. induction Hl as [|e l He Hl IH]; intros o; [done|]. cbn.
  destruct (represented p e) eqn:E; [|apply IH]. cbn. rewrite apply_at_other; [apply IH|].
  intros Hk. specialize (He Hk). congruence.
Qed.

Lemma rows_ok_split base pre e post :
  rows_ok base (pre ++ e :: post) -> row_ok (fold_left apply_row pre base) e.
Proof. revert base. induction pre as [|x pre IH]; intros base; cbn; [tauto|]. intros [_ H]. by apply IH. Qed.

Lemma rows_ordered_split pre e post :
  rows_ordered (pre ++ e :: post) ->
  represented p e = false -> Forall (fun e' => me_key e' = me_key e -> represented p e' = false) post.
Proof.
  induction pre as [|x pre IH]; cbn; [|intros [_ H]; by apply IH].
  intros [Hall _] Hun. eapply Forall_impl; [exact Hall|]. cbn. intros e' [Hid Hrv] Hk.
  specialize (Hrv (eq_sym Hk)). unfold represented in *. apply not_true_is_false. intros Ht.
  apply not_true_iff_false in Hun. apply Hun. rewrite represents_event_spec in *. lia.
Qed.

(** *** The invariant of the reverse loop *)

(** What the target state will have under [k] once the rows of [pre] are
    applied and, of the rows of [post], only those the cursor has seen. *)
Definition goal_at (base : gmap MembershipKey Resource) (pre post : list MembershipHistoryEvent)
    (k : MembershipKey) : option Resource :=
  fold_left (apply_at k) (pre ++ List.filter (represented p) post) (base !! k).

Definition agree (o o' : option Resource) : Prop :=
  match o, o' with Some r, Some r' => same r r' | None, None => True | _, _ => False end.

Lemma agree_refl o : agree o o.
Proof. by destruct o; cbn. Qed.

Definition key_inv (base : gmap MembershipKey Resource) (pre post : list MembershipHistoryEvent)
    (s : MembershipReconstructor) (k : MembershipKey) : Prop :=
  (k ∉ mr_needs_predecessor s -> agree (mr_state s !! k) (goal_at base pre post k))
  /\ (k ∈ mr_needs_predecessor s ->
      is_Some (fold_left (apply_at k) pre (base !! k))
      /\ Forall (fun e => me_key e = k -> represented p e = false) post).

Definition loop_inv base pre post (s : MembershipReconstructor) : Prop :=
  mr_position s = p /\ (mr_expired s = false -> forall k, key_inv base pre post s k).

Lemma goal_at_other base pre e post k :
  me_key e <> k -> goal_at base (pre ++ [e]) post k = goal_at base pre (e :: post) k.
Proof.
  intros Hne. unfold goal_at. rewrite <- app_assoc, !fold_left_app. cbn [app List.filter].
  destruct (represented p e); cbn [fold_left]; by rewrite ?(apply_at_other _ _ _ Hne).
Qed.

Lemma goal_at_seen base pre e post k :
  represented p e = true -> goal_at base (pre ++ [e]) post k = goal_at base pre (e :: post) k.
Proof. intros He. unfold goal_at. cbn. by rewrite He, <- app_assoc. Qed.

(** Once the cursor misses a row of [k], the goal is the state before it. *)
Lemma goal_at_unseen base pre e post :
  rows_ordered (pre ++ e :: post) -> represented p e = false ->
  goal_at base pre (e :: post) (me_key e) = fold_left (apply_at (me_key e)) pre (base !! me_key e).
Proof.
  intros Ho He. unfold goal_at. rewrite fold_left_app. apply fold_unseen. constructor; [done|].
  by eapply rows_ordered_split.
Qed.

(** Undoing one row: [state] is right for the key after the row, [needs] does
    not wait for it. *)
Lemma undo_inv base pre e post state needs :
  rows_ok base (pre ++ e :: post) -> rows_ordered (pre ++ e :: post) ->
  agree (state !! me_key e) (goal_at base (pre ++ [e]) post (me_key e)) ->
  me_key e ∉ needs ->
  let s' := undo_row p e state needs in
  mr_expired s' = false -> key_inv base pre (e :: post) s' (me_key e).
Proof.
  intros Hok Ho Hag Hn. pose proof (rows_ok_split _ _ _ _ Hok) as Hrow.
  unfold row_ok in Hrow. rewrite fold_apply_lookup in Hrow.
  unfold undo_row. fold (represented p e). destruct (represented p e) eqn:Er; cbn zeta.
  { intros _. split; cbn; [|done]. by rewrite <- goal_at_seen. }
  destruct Hrow as [[-> Hnone]|[[-> Hsome]|[-> (r & Hr & Hsame)]]]; cbn; intros _; split; cbn.
  - intros _. rewrite goal_at_unseen, Hnone, lookup_delete_eq by done. done.
  - done.
  - set_solver.
  - intros _. split; [done|]. constructor; [done|]. by eapply rows_ordered_split.
  - intros _. rewrite goal_at_unseen, Hr, lookup_insert_eq by done. done.
  - done.
Qed.

Lemma observe_step base pre e post s :
  rows_ok base (pre ++ e :: post) -> rows_ordered (pre ++ e :: post) ->
  loop_inv base (pre ++ [e]) post s -> loop_inv base pre (e :: post) (observe s e).
Proof.
  intros Hok Ho [Hp Hinv]. unfold observe.
  destruct (mr_expired s) eqn:Ex; [split; [done|]; by rewrite Ex|].
  specialize (Hinv eq_refl). rewrite Hp. cbn zeta.
  pose proof (Hinv (me_key e)) as [Hout Hin].
  assert (Hother : forall s' k, me_key e <> k -> mr_state s' !! k = mr_state s !! k ->
      (k ∈ mr_needs_predecessor s' <-> k ∈ mr_needs_predecessor s) -> key_inv base pre (e :: post) s' k).
  { intros s' k Hk Hst Hne. destruct (Hinv k) as [H1 H2]. unfold key_inv.
    rewrite Hst, Hne, <- goal_at_other by done. split; [done|]. intros Hneed.
    destruct (H2 Hneed) as [H3 H4]. rewrite fold_left_app in H3. cbn in H3.
    rewrite apply_at_other in H3 by done. split; [done|]. by constructor. }
  destruct (decide (me_key e ∈ mr_needs_predecessor s)) as [Hd|Hd].
  - destruct (Hin Hd) as [Hsome Hpost]. rewrite fold_left_app in Hsome. cbn in Hsome.
    destruct (me_event_type e =?s "DELETED") eqn:Ed; [by split|].
    split; [apply undo_row_position|]. intros Hne k.
    destruct (decide (me_key e = k)) as [<-|Hk].
    + revert Hne. apply undo_inv; [done|done| |set_solver].
      unfold goal_at. rewrite fold_left_app, fold_left_app, lookup_insert_eq. cbn.
      unfold apply_at at 2. rewrite decide_True, Ed, fold_unseen by done. cbn. reflexivity.
    + destruct (undo_row_frame p e (<[me_key e := me_resource e]> (mr_state s))
                  (mr_needs_predecessor s ∖ {[me_key e]}) k Hk) as (_ & Hst & Hnd).
      apply Hother; [done|by rewrite Hst, lookup_insert_ne|]. rewrite Hnd. set_solver.
  - split; [apply undo_row_position|]. intros Hne k.
    destruct (decide (me_key e = k)) as [<-|Hk].
    + revert Hne. apply undo_inv; [done|done|by apply Hout|done].
    + destruct (undo_row_frame p e (mr_state s) (mr_needs_predecessor s) k Hk) as (_ & Hst & Hnd).
      by apply Hother.
Qed.

(** A possible history never trips the expiry tests of the loop. *)
Lemma observe_not_expired base pre e post s :
  rows_ok base (pre ++ e :: post) -> loop_inv base (pre ++ [e]) post s ->
  mr_expired s = false -> mr_expired (observe s e) = false.
Proof.
  intros Hok [Hp Hinv] Hx. specialize (Hinv Hx (me_key e)) as [_ Hin]. unfold observe. rewrite Hx, Hp.
  assert (Hrow := rows_ok_split _ _ _ _ Hok).
  assert (Hundo : forall state needs, mr_expired (undo_row p e state needs) = false).
  { intros state needs. unfold undo_row. destruct (represents_event _ _ _); [done|].
    destruct Hrow as [[-> _]|[[-> _]|[-> _]]]; done. }
  cbn zeta. destruct (decide (me_key e ∈ mr_needs_predecessor s)) as [Hd|]; [|apply Hundo].
  destruct (me_event_type e =?s "DELETED") eqn:Ed; [|apply Hundo]. exfalso.
  destruct (Hin Hd) as [[r Hsome] _]. rewrite fold_left_app in Hsome. cbn in Hsome.
  unfold apply_at at 1 in Hsome. by rewrite decide_True, Ed in Hsome.
Qed.

Lemma observe_all_inv base history pre post s :
  history = pre ++ post -> rows_ok base history -> rows_ordered history ->
  loop_inv base pre post s -> mr_expired s = false ->
  loop_inv base [] history (fold_left observe (rev pre) s)
  /\ mr_expired (fold_left observe (rev pre) s) = false.
Proof.
  revert post s. induction pre as [|e pre IH] using rev_ind; intros post s Hh Hok Ho Hinv Hx; [by rewrite Hh|].
  rewrite <- app_assoc in Hh. cbn in Hh. rewrite rev_app_distr. cbn.
  apply (IH (e :: post)); [done..| |].
  - apply observe_step; by rewrite <- ?Hh.
  - eapply observe_not_expired; [|exact Hinv|done]. by rewrite <- Hh.
Qed.

(** *** Stopping early *)

Lemma observe_seen s e :
  mr_needs_predecessor s = ∅ -> represented (mr_position s) e = true -> observe s e = s.
Proof.
  intros Hn Hr. unfold observe. destruct (mr_expired s) eqn:Ex; [done|].
  rewrite decide_False by (rewrite Hn; apply not_elem_of_empty). unfold undo_row. unfold represented in Hr. rewrite Hr.
  destruct s; cbn in *; congruence.
Qed.

(** Rows older than a positioned cursor change nothing. *)
Lemma stop_is_sound s newest_first :
  (forall l1 e l2 e', newest_first = l1 ++ e :: l2 -> e' ∈ l2 -> me_event_id e' < me_event_id e) ->
  observe_until_stop s newest_first = fold_left observe newest_first s.
Proof.
  revert s. induction newest_first as [|e rest IH]; intros s Hord; [done|]. cbn.
  destruct (can_stop_before s (me_event_id e)) eqn:Es.
  - unfold can_stop_before in Es. to_prop. apply bool_decide_eq_true in H0.
    assert (Hskip : forall l s', mr_needs_predecessor s' = ∅ -> mr_position s' = mr_position s ->
      Forall (fun x => me_event_id x <= me_event_id e) l -> fold_left observe l s' = s').
    { induction l as [|x l IHl]; intros s' Hn Hp Hl; [done|]. apply Forall_cons in Hl as [Hx Hl]. cbn.
      rewrite observe_seen; [by apply IHl|done|]. unfold represented. rewrite Hp.
      apply represents_event_spec. lia. }
    symmetry. apply (Hskip (e :: rest)); [done|done|]. constructor; [lia|].
    apply Forall_forall. intros x Hx. specialize (Hord [] e rest x eq_refl Hx). lia.
  - apply IH. intros l1 e1 l2 e' -> He'. by apply (Hord (e :: l1) e1 l2 e').
Qed.

Lemma rows_ordered_rev history l1 e l2 e' :
  rows_ordered history -> rev history = l1 ++ e :: l2 -> e' ∈ l2 -> me_event_id e' < me_event_id e.
Proof.
  intros Ho Hr He'. apply (f_equal (@rev _)) in Hr. rewrite rev_involutive, rev_app_distr in Hr.
  cbn in Hr. rewrite <- app_assoc in Hr. subst history. clear -Ho He'.
  apply list_elem_of_In, in_rev, list_elem_of_In in He'.
  induction (rev l2) as [|x l IH]; [by apply elem_of_nil in He'|]. cbn in Ho. destruct Ho as [Hall Ho].
  apply elem_of_cons in He' as [->|He']; [|by apply IH].
  rewrite Forall_forall in Hall. apply Hall. apply elem_of_app. right. by left.
Qed.

End Reconstruction.

(** Two versions with the same body. *)
Definition same_body (r r' : Resource) : Prop := r_data r = r_data r'.

#[export] Instance same_body_refl : Reflexive same_body.
Proof. done. Qed.

Definition config_map_resource (rv : Z) : Resource :=
  mkResource 0 "v1" "ConfigMap" (Some "ns") "c" "u" rv Null.

(** Created at 5, modified at 7, deleted at 9. *)
Definition config_map_history : list MembershipHistoryEvent :=
  [mkMembershipEvent 1 "ADDED" (config_map_resource 5);
   mkMembershipEvent 2 "MODIFIED" (config_map_resource 7);
   mkMembershipEvent 3 "DELETED" (config_map_resource 9)].

