(* ===== verification/PodLifecycle.v ===== *)
(** * Pod lifecycle: data and shared state machine

    [klights-kubelet/src/pod_lifecycle_core/{message,action,state}.rs], with
    [RuntimeReconcileObservations] of [runtime_observations.rs],
    [RuntimeReconcileHint] of [runtime_reconcile_hint.rs] and [retry_backoff] of
    [runtime.rs].

    A timestamp is a [Z]; a work permit is always absent in actor mode and is
    left out of the actions; a cancellation token is modelled by the list of the
    operations that were cancelled.  Each [set_x] writes one field. *)

From S2P Require Import Prelude Text Json.
Open Scope Z_scope.

(** ** Messages *)

Record PodLifecycleKey := mkKey { namespace : string; name : string; uid : string }.

Inductive KubeletEventKind := EvCreated | EvStarted | EvStopped | EvDeleted.

Inductive RestartReason := StartupProbe | LivenessProbe.

Inductive LifecycleCommand :=
| ReadinessChanged (pod_uid ns pod_name container_name : string) (ready : bool)
| RestartRequested (pod_uid ns pod_name container_name : string) (reason : RestartReason)
| StartupPassed (pod_uid ns pod_name container_name : string).

Inductive OrphanReason :=
| NodeLost | LeaderDeletedWhileDown | UidChangedWhileDown | ColdCriOrphan | StaleNetworkRow
| StaleEndpointRow.

Inductive PodLifecycleWorkKind :=
| WkStartPod | WkStopPod | WkFinalizePodDeletion | WkCheckSlotAdmission | WkFinalizeStartup
| WkReconcileRuntime | WkReconcileCriLeftovers | WkHandleCommand | WkReconcileEphemeral.

Inductive PodLifecycleWorkFailure :=
| Cancelled
| DeadlineExceeded
| PodDeleted
| ContainerNotFound
| FinalizersPending
| Startup (message : string)
| DispatchFailed (message : string)
| NotOwned (local_node : string) (target_node : option string).

Inductive PodProbeKind := ProbeStartup | ProbeReadiness | ProbeLiveness.

Inductive PodProbeResult := ProbeSuccess | ProbeFailure (message : string) | ProbeTimeout.

Inductive LifecycleMessage :=
| WatchAdded (key : PodLifecycleKey) (resource_version : option Z) (pod : Value)
| WatchModified (key : PodLifecycleKey) (resource_version : option Z) (pod : Value)
| WatchDeleted (key : PodLifecycleKey) (resource_version : option Z) (pod : Value)
| CriEvent (key : PodLifecycleKey) (container_id : string) (kind : KubeletEventKind)
| LifecycleCommandMsg (key : PodLifecycleKey) (command : LifecycleCommand)
| NetworkAssigned (key : PodLifecycleKey) (sandbox_id pod_ip : string)
| PodWorkCompleted (key : PodLifecycleKey) (operation_id : Z) (kind : PodLifecycleWorkKind)
    (sandbox_id : option string)
| PodWorkFailed (key : PodLifecycleKey) (operation_id : Z) (kind : PodLifecycleWorkKind)
    (retryable : bool) (failure : PodLifecycleWorkFailure)
| SlotAdmissionGranted (key : PodLifecycleKey) (operation_id : Z) (pod : Value)
    (resource_version : option Z) (start_after_admit : bool)
| SlotAdmissionBlocked (key : PodLifecycleKey) (operation_id : Z) (blocking_uid blocking_node : string)
| SlotAdmissionWake (key : PodLifecycleKey)
| ProbeResult (key : PodLifecycleKey) (probe_id : Z) (container_name : string) (kind : PodProbeKind)
    (result : PodProbeResult)
| RetryDue (key : PodLifecycleKey)
| OrphanFinalize (key : PodLifecycleKey) (reason : OrphanReason)
| ActiveDeadlineDue (key : PodLifecycleKey)
| DeletionDeadlineDue (key : PodLifecycleKey) (generation : Z)
| ActorIdleGraceExpired (key : PodLifecycleKey) (generation : Z).

#[export] Instance work_kind_eq_dec : EqDecision PodLifecycleWorkKind.
Proof. solve_decision. Defined.

#[export] Instance event_kind_eq_dec : EqDecision KubeletEventKind.
Proof. solve_decision. Defined.

(** ** Runtime observations and hints *)

Record RuntimeReconcileObservations := mkObservations {
  obs_pod_uid : string;
  obs_container_events : gmap string KubeletEventKind;
  obs_generation : Z
}.

Definition observations_new (pod_uid : string) : RuntimeReconcileObservations :=
  mkObservations pod_uid ∅ 0.

Definition observe_event (self : RuntimeReconcileObservations) (id : string) (kind : KubeletEventKind)
  : RuntimeReconcileObservations :=
  if is_empty id then self
  else
    let events := <[id := kind]> (obs_container_events self) in
    mkObservations (obs_pod_uid self) events
      (if decide (obs_container_events self !! id = Some kind) then obs_generation self
       else wrapping_add_u64 (obs_generation self) 1).

Definition from_checkpoint (pod_uid : string) (container_ids : list string) (generation : Z)
  : RuntimeReconcileObservations :=
  mkObservations pod_uid
    (fold_left (fun m id => if is_empty id then m else <[id := EvCreated]> m) container_ids ∅) generation.

(** [observe] records a container without a transition, as [Created]. *)
Definition observe_all (self : RuntimeReconcileObservations) (ids : list string)
  : RuntimeReconcileObservations := fold_left (fun obs id => observe_event obs id EvCreated) ids self.

(** The hint is the map it wraps. *)
Abbreviation RuntimeReconcileHint := (gmap string KubeletEventKind).

Definition hint_with_container_event (hint : RuntimeReconcileHint) (id : string) (kind : KubeletEventKind)
  : RuntimeReconcileHint := if is_empty id then hint else <[id := kind]> hint.

Definition hint_from_container_event (id : string) (kind : KubeletEventKind) : RuntimeReconcileHint :=
  hint_with_container_event ∅ id kind.

Definition hint_from_container_id (id : string) : RuntimeReconcileHint :=
  hint_from_container_event id EvCreated.

(** ** Actions *)

Inductive PodStopMode := Graceful | Forced.

Inductive PodAction :=
| StartPod (key : PodLifecycleKey) (pod : option Value) (operation_id : Z)
| CheckSlotAdmission (key : PodLifecycleKey) (pod : Value) (resource_version : option Z)
    (start_after_admit : bool) (operation_id : Z)
| StopPod (key : PodLifecycleKey) (pod : option Value) (sandbox_id : string)
    (deletion_deadline : option Z) (mode : PodStopMode) (operation_id : Z)
| FinalizePodDeletion (key : PodLifecycleKey) (operation_id : Z)
| FinalizeStartup (key : PodLifecycleKey) (pod : option Value) (sandbox_id : string) (operation_id : Z)
| ReconcileRuntime (key : PodLifecycleKey) (hint : RuntimeReconcileHint) (operation_id : Z)
| ReconcileCriLeftovers (key : PodLifecycleKey) (operation_id : Z)
| HandleCommand (key : PodLifecycleKey) (command : LifecycleCommand) (operation_id : Z)
| ReconcileEphemeral (key : PodLifecycleKey) (pod : option Value) (operation_id : Z)
| ScheduleRetry (key : PodLifecycleKey) (delay_secs : Z)
| ScheduleStartPodRetry (key : PodLifecycleKey) (delay_secs : Z) (error_message : string) (attempt : Z)
| Noop.

Definition action_key (a : PodAction) : option PodLifecycleKey :=
  match a with
  | StartPod key _ _ | CheckSlotAdmission key _ _ _ _ | StopPod key _ _ _ _ _
  | FinalizePodDeletion key _ | FinalizeStartup key _ _ _ | ReconcileRuntime key _ _
  | ReconcileCriLeftovers key _ | HandleCommand key _ _ | ReconcileEphemeral key _ _
  | ScheduleRetry key _ | ScheduleStartPodRetry key _ _ _ => Some key
  | Noop => None
  end.

Definition action_operation_id (a : PodAction) : option Z :=
  match a with
  | StartPod _ _ op | CheckSlotAdmission _ _ _ _ op | StopPod _ _ _ _ _ op
  | FinalizePodDeletion _ op | FinalizeStartup _ _ _ op | ReconcileRuntime _ _ op
  | ReconcileCriLeftovers _ op | HandleCommand _ _ op | ReconcileEphemeral _ _ op => Some op
  | ScheduleRetry _ _ | ScheduleStartPodRetry _ _ _ _ | Noop => None
  end.

Definition expected_completion (a : PodAction) : option PodLifecycleWorkKind :=
  match a with
  | StartPod _ _ _ => Some WkStartPod
  | CheckSlotAdmission _ _ _ _ _ => Some WkCheckSlotAdmission
  | StopPod _ _ _ _ _ _ => Some WkStopPod
  | FinalizePodDeletion _ _ => Some WkFinalizePodDeletion
  | FinalizeStartup _ _ _ _ => Some WkFinalizeStartup
  | ReconcileRuntime _ _ _ => Some WkReconcileRuntime
  | ReconcileCriLeftovers _ _ => Some WkReconcileCriLeftovers
  | HandleCommand _ _ _ => Some WkHandleCommand
  | ReconcileEphemeral _ _ _ => Some WkReconcileEphemeral
  | ScheduleRetry _ _ | ScheduleStartPodRetry _ _ _ _ | Noop => None
  end.

Definition is_noop (a : PodAction) : bool := match a with Noop => true | _ => false end.

(** The message of [failure_synthesizer] for a dispatch error. *)
Definition failure_synthesizer (a : PodAction) (error : string) : option LifecycleMessage :=
  kind ← expected_completion a; op ← action_operation_id a; key ← action_key a;
  Some (PodWorkFailed key op kind false (DispatchFailed error)).

(** ** State *)

Inductive PodPhase := Created | PendingStart | Starting | Running | Stopping | Terminated.

#[export] Instance pod_phase_eq_dec : EqDecision PodPhase.
Proof. solve_decision. Defined.

Record PodDeletionDeadlineState := mkDeadline {
  dd_uid : string; dd_deadline : Z; dd_generation : Z; dd_fired : bool; dd_forced : bool
}.

Record PendingReplacement := mkPendingReplacement {
  pr_key : PodLifecycleKey; pr_pod : Value; pr_resource_version : option Z
}.

Record PendingStartPod := mkPendingStart {
  ps_key : PodLifecycleKey; ps_pod : Value; ps_resource_version : option Z; ps_start_after_admit : bool
}.

Record PendingStopPod := mkPendingStop {
  pst_key : PodLifecycleKey; pst_pod : option Value; pst_sandbox_id : string;
  pst_deletion_deadline : option Z; pst_mode : PodStopMode
}.

Record PendingEphemeralReconcile := mkPendingEphemeral {
  pe_key : PodLifecycleKey; pe_pod : Value; pe_resource_version : option Z
}.

Record InFlightWork := mkInFlight { if_uid : string; if_kind : PodLifecycleWorkKind; if_operation_id : Z }.

Record PodLifecycleState := mkState {
  phase : PodPhase;
  sandbox_id : option string;
  active_uid : option string;
  admitted_slot_uid : option string;
  active_sandbox_id : option string;
  pending_replacement : option PendingReplacement;
  pending_start_pod : option PendingStartPod;
  pending_stop_pod : option PendingStopPod;
  pending_ephemeral_reconcile : option PendingEphemeralReconcile;
  slot_admission_waiting : bool;
  in_flight : option InFlightWork;
  finalized : bool;
  operation_id : Z;
  work_in_flight : option Z;
  retry_attempts : Z;
  last_resource_version : option Z;
  pending_runtime_reconcile : bool;
  runtime_reconcile_observations : RuntimeReconcileObservations;
  pending_startup_finalization_retry : bool;
  pending_delete_finalization_retry : bool;
  deletion_deadline : option PodDeletionDeadlineState;
  deletion_deadline_generation : Z;
  cancelled_operations : list Z
}.

Definition set_phase (v : PodPhase) (s : PodLifecycleState) : PodLifecycleState :=
  mkState v (sandbox_id s) (active_uid s) (admitted_slot_uid s) (active_sandbox_id s) (pending_replacement s) (pending_start_pod s) (pending_stop_pod s) (pending_ephemeral_reconcile s) (slot_admission_waiting s) (in_flight s) (finalized s) (operation_id s) (work_in_flight s) (retry_attempts s) (last_resource_version s) (pending_runtime_reconcile s) (runtime_reconcile_observations s) (pending_startup_finalization_retry s) (pending_delete_finalization_retry s) (deletion_deadline s) (deletion_deadline_generation s) (cancelled_operations s).
Definition set_sandbox_id (v : option string) (s : PodLifecycleState) : PodLifecycleState :=
  mkState (phase s) v (active_uid s) (admitted_slot_uid s) (active_sandbox_id s) (pending_replacement s) (pending_start_pod s) (pending_stop_pod s) (pending_ephemeral_reconcile s) (slot_admission_waiting s) (in_flight s) (finalized s) (operation_id s) (work_in_flight s) (retry_attempts s) (last_resource_version s) (pending_runtime_reconcile s) (runtime_reconcile_observations s) (pending_startup_finalization_retry s) (pending_delete_finalization_retry s) (deletion_deadline s) (deletion_deadline_generation s) (cancelled_operations s).
Definition set_active_uid (v : option string) (s : PodLifecycleState) : PodLifecycleState :=
  mkState (phase s) (sandbox_id s) v (admitted_slot_uid s) (active_sandbox_id s) (pending_replacement s) (pending_start_pod s) (pending_stop_pod s) (pending_ephemeral_reconcile s) (slot_admission_waiting s) (in_flight s) (finalized s) (operation_id s) (work_in_flight s) (retry_attempts s) (last_resource_version s) (pending_runtime_reconcile s) (runtime_reconcile_observations s) (pending_startup_finalization_retry s) (pending_delete_finalization_retry s) (deletion_deadline s) (deletion_deadline_generation s) (cancelled_operations s).
Definition set_admitted_slot_uid (v : option string) (s : PodLifecycleState) : PodLifecycleState :=
  mkState (phase s) (sandbox_id s) (active_uid s) v (active_sandbox_id s) (pending_replacement s) (pending_start_pod s) (pending_stop_pod s) (pending_ephemeral_reconcile s) (slot_admission_waiting s) (in_flight s) (finalized s) (operation_id s) (work_in_flight s) (retry_attempts s) (last_resource_version s) (pending_runtime_reconcile s) (runtime_reconcile_observations s) (pending_startup_finalization_retry s) (pending_delete_finalization_retry s) (deletion_deadline s) (deletion_deadline_generation s) (cancelled_operations s).
Definition set_active_sandbox_id (v : option string) (s : PodLifecycleState) : PodLifecycleState :=
  mkState (phase s) (sandbox_id s) (active_uid s) (admitted_slot_uid s) v (pending_replacement s) (pending_start_pod s) (pending_stop_pod s) (pending_ephemeral_reconcile s) (slot_admission_waiting s) (in_flight s) (finalized s) (operation_id s) (work_in_flight s) (retry_attempts s) (last_resource_version s) (pending_runtime_reconcile s) (runtime_reconcile_observations s) (pending_startup_finalization_retry s) (pending_delete_finalization_retry s) (deletion_deadline s) (deletion_deadline_generation s) (cancelled_operations s).
Definition set_pending_replacement (v : option PendingReplacement) (s : PodLifecycleState) : PodLifecycleState :=
  mkState (phase s) (sandbox_id s) (active_uid s) (admitted_slot_uid s) (active_sandbox_id s) v (pending_start_pod s) (pending_stop_pod s) (pending_ephemeral_reconcile s) (slot_admission_waiting s) (in_flight s) (finalized s) (operation_id s) (work_in_flight s) (retry_attempts s) (last_resource_version s) (pending_runtime_reconcile s) (runtime_reconcile_observations s) (pending_startup_finalization_retry s) (pending_delete_finalization_retry s) (deletion_deadline s) (deletion_deadline_generation s) (cancelled_operations s).
Definition set_pending_start_pod (v : option PendingStartPod) (s : PodLifecycleState) : PodLifecycleState :=
  mkState (phase s) (sandbox_id s) (active_uid s) (admitted_slot_uid s) (active_sandbox_id s) (pending_replacement s) v (pending_stop_pod s) (pending_ephemeral_reconcile s) (slot_admission_waiting s) (in_flight s) (finalized s) (operation_id s) (work_in_flight s) (retry_attempts s) (last_resource_version s) (pending_runtime_reconcile s) (runtime_reconcile_observations s) (pending_startup_finalization_retry s) (pending_delete_finalization_retry s) (deletion_deadline s) (deletion_deadline_generation s) (cancelled_operations s).
Definition set_pending_stop_pod (v : option PendingStopPod) (s : PodLifecycleState) : PodLifecycleState :=
  mkState (phase s) (sandbox_id s) (active_uid s) (admitted_slot_uid s) (active_sandbox_id s) (pending_replacement s) (pending_start_pod s) v (pending_ephemeral_reconcile s) (slot_admission_waiting s) (in_flight s) (finalized s) (operation_id s) (work_in_flight s) (retry_attempts s) (last_resource_version s) (pending_runtime_reconcile s) (runtime_reconcile_observations s) (pending_startup_finalization_retry s) (pending_delete_finalization_retry s) (deletion_deadline s) (deletion_deadline_generation s) (cancelled_operations s).
Definition set_pending_ephemeral_reconcile (v : option PendingEphemeralReconcile) (s : PodLifecycleState) : PodLifecycleState :=
  mkState (phase s) (sandbox_id s) (active_uid s) (admitted_slot_uid s) (active_sandbox_id s) (pending_replacement s) (pending_start_pod s) (pending_stop_pod s) v (slot_admission_waiting s) (in_flight s) (finalized s) (operation_id s) (work_in_flight s) (retry_attempts s) (last_resource_version s) (pending_runtime_reconcile s) (runtime_reconcile_observations s) (pending_startup_finalization_retry s) (pending_delete_finalization_retry s) (deletion_deadline s) (deletion_deadline_generation s) (cancelled_operations s).
Definition set_slot_admission_waiting (v : bool) (s : PodLifecycleState) : PodLifecycleState :=
  mkState (phase s) (sandbox_id s) (active_uid s) (admitted_slot_uid s) (active_sandbox_id s) (pending_replacement s) (pending_start_pod s) (pending_stop_pod s) (pending_ephemeral_reconcile s) v (in_flight s) (finalized s) (operation_id s) (work_in_flight s) (retry_attempts s) (last_resource_version s) (pending_runtime_reconcile s) (runtime_reconcile_observations s) (pending_startup_finalization_retry s) (pending_delete_finalization_retry s) (deletion_deadline s) (deletion_deadline_generation s) (cancelled_operations s).
Definition set_in_flight (v : option InFlightWork) (s : PodLifecycleState) : PodLifecycleState :=
  mkState (phase s) (sandbox_id s) (active_uid s) (admitted_slot_uid s) (active_sandbox_id s) (pending_replacement s) (pending_start_pod s) (pending_stop_pod s) (pending_ephemeral_reconcile s) (slot_admission_waiting s) v (finalized s) (operation_id s) (work_in_flight s) (retry_attempts s) (last_resource_version s) (pending_runtime_reconcile s) (runtime_reconcile_observations s) (pending_startup_finalization_retry s) (pending_delete_finalization_retry s) (deletion_deadline s) (deletion_deadline_generation s) (cancelled_operations s).
Definition set_finalized (v : bool) (s : PodLifecycleState) : PodLifecycleState :=
  mkState (phase s) (sandbox_id s) (active_uid s) (admitted_slot_uid s) (active_sandbox_id s) (pending_replacement s) (pending_start_pod s) (pending_stop_pod s) (pending_ephemeral_reconcile s) (slot_admission_waiting s) (in_flight s) v (operation_id s) (work_in_flight s) (retry_attempts s) (last_resource_version s) (pending_runtime_reconcile s) (runtime_reconcile_observations s) (pending_startup_finalization_retry s) (pending_delete_finalization_retry s) (deletion_deadline s) (deletion_deadline_generation s) (cancelled_operations s).
Definition set_operation_id (v : Z) (s : PodLifecycleState) : PodLifecycleState :=
  mkState (phase s) (sandbox_id s) (active_uid s) (admitted_slot_uid s) (active_sandbox_id s) (pending_replacement s) (pending_start_pod s) (pending_stop_pod s) (pending_ephemeral_reconcile s) (slot_admission_waiting s) (in_flight s) (finalized s) v (work_in_flight s) (retry_attempts s) (last_resource_version s) (pending_runtime_reconcile s) (runtime_reconcile_observations s) (pending_startup_finalization_retry s) (pending_delete_finalization_retry s) (deletion_deadline s) (deletion_deadline_generation s) (cancelled_operations s).
Definition set_work_in_flight (v : option Z) (s : PodLifecycleState) : PodLifecycleState :=
  mkState (phase s) (sandbox_id s) (active_uid s) (admitted_slot_uid s) (active_sandbox_id s) (pending_replacement s) (pending_start_pod s) (pending_stop_pod s) (pending_ephemeral_reconcile s) (slot_admission_waiting s) (in_flight s) (finalized s) (operation_id s) v (retry_attempts s) (last_resource_version s) (pending_runtime_reconcile s) (runtime_reconcile_observations s) (pending_startup_finalization_retry s) (pending_delete_finalization_retry s) (deletion_deadline s) (deletion_deadline_generation s) (cancelled_operations s).
Definition set_retry_attempts (v : Z) (s : PodLifecycleState) : PodLifecycleState :=
  mkState (phase s) (sandbox_id s) (active_uid s) (admitted_slot_uid s) (active_sandbox_id s) (pending_replacement s) (pending_start_pod s) (pending_stop_pod s) (pending_ephemeral_reconcile s) (slot_admission_waiting s) (in_flight s) (finalized s) (operation_id s) (work_in_flight s) v (last_resource_version s) (pending_runtime_reconcile s) (runtime_reconcile_observations s) (pending_startup_finalization_retry s) (pending_delete_finalization_retry s) (deletion_deadline s) (deletion_deadline_generation s) (cancelled_operations s).
Definition set_last_resource_version (v : option Z) (s : PodLifecycleState) : PodLifecycleState :=
  mkState (phase s) (sandbox_id s) (active_uid s) (admitted_slot_uid s) (active_sandbox_id s) (pending_replacement s) (pending_start_pod s) (pending_stop_pod s) (pending_ephemeral_reconcile s) (slot_admission_waiting s) (in_flight s) (finalized s) (operation_id s) (work_in_flight s) (retry_attempts s) v (pending_runtime_reconcile s) (runtime_reconcile_observations s) (pending_startup_finalization_retry s) (pending_delete_finalization_retry s) (deletion_deadline s) (deletion_deadline_generation s) (cancelled_operations s).
Definition set_pending_runtime_reconcile (v : bool) (s : PodLifecycleState) : PodLifecycleState :=
  mkState (phase s) (sandbox_id s) (active_uid s) (admitted_slot_uid s) (active_sandbox_id s) (pending_replacement s) (pending_start_pod s) (pending_stop_pod s) (pending_ephemeral_reconcile s) (slot_admission_waiting s) (in_flight s) (finalized s) (operation_id s) (work_in_flight s) (retry_attempts s) (last_resource_version s) v (runtime_reconcile_observations s) (pending_startup_finalization_retry s) (pending_delete_finalization_retry s) (deletion_deadline s) (deletion_deadline_generation s) (cancelled_operations s).
Definition set_runtime_reconcile_observations (v : RuntimeReconcileObservations) (s : PodLifecycleState) : PodLifecycleState :=
  mkState (phase s) (sandbox_id s) (active_uid s) (admitted_slot_uid s) (active_sandbox_id s) (pending_replacement s) (pending_start_pod s) (pending_stop_pod s) (pending_ephemeral_reconcile s) (slot_admission_waiting s) (in_flight s) (finalized s) (operation_id s) (work_in_flight s) (retry_attempts s) (last_resource_version s) (pending_runtime_reconcile s) v (pending_startup_finalization_retry s) (pending_delete_finalization_retry s) (deletion_deadline s) (deletion_deadline_generation s) (cancelled_operations s).
Definition set_pending_startup_finalization_retry (v : bool) (s : PodLifecycleState) : PodLifecycleState :=
  mkState (phase s) (sandbox_id s) (active_uid s) (admitted_slot_uid s) (active_sandbox_id s) (pending_replacement s) (pending_start_pod s) (pending_stop_pod s) (pending_ephemeral_reconcile s) (slot_admission_waiting s) (in_flight s) (finalized s) (operation_id s) (work_in_flight s) (retry_attempts s) (last_resource_version s) (pending_runtime_reconcile s) (runtime_reconcile_observations s) v (pending_delete_finalization_retry s) (deletion_deadline s) (deletion_deadline_generation s) (cancelled_operations s).
Definition set_pending_delete_finalization_retry (v : bool) (s : PodLifecycleState) : PodLifecycleState :=
  mkState (phase s) (sandbox_id s) (active_uid s) (admitted_slot_uid s) (active_sandbox_id s) (pending_replacement s) (pending_start_pod s) (pending_stop_pod s) (pending_ephemeral_reconcile s) (slot_admission_waiting s) (in_flight s) (finalized s) (operation_id s) (work_in_flight s) (retry_attempts s) (last_resource_version s) (pending_runtime_reconcile s) (runtime_reconcile_observations s) (pending_startup_finalization_retry s) v (deletion_deadline s) (deletion_deadline_generation s) (cancelled_operations s).
Definition set_deletion_deadline (v : option PodDeletionDeadlineState) (s : PodLifecycleState) : PodLifecycleState :=
  mkState (phase s) (sandbox_id s) (active_uid s) (admitted_slot_uid s) (active_sandbox_id s) (pending_replacement s) (pending_start_pod s) (pending_stop_pod s) (pending_ephemeral_reconcile s) (slot_admission_waiting s) (in_flight s) (finalized s) (operation_id s) (work_in_flight s) (retry_attempts s) (last_resource_version s) (pending_runtime_reconcile s) (runtime_reconcile_observations s) (pending_startup_finalization_retry s) (pending_delete_finalization_retry s) v (deletion_deadline_generation s) (cancelled_operations s).
Definition set_deletion_deadline_generation (v : Z) (s : PodLifecycleState) : PodLifecycleState :=
  mkState (phase s) (sandbox_id s) (active_uid s) (admitted_slot_uid s) (active_sandbox_id s) (pending_replacement s) (pending_start_pod s) (pending_stop_pod s) (pending_ephemeral_reconcile s) (slot_admission_waiting s) (in_flight s) (finalized s) (operation_id s) (work_in_flight s) (retry_attempts s) (last_resource_version s) (pending_runtime_reconcile s) (runtime_reconcile_observations s) (pending_startup_finalization_retry s) (pending_delete_finalization_retry s) (deletion_deadline s) v (cancelled_operations s).
Definition set_cancelled_operations (v : list Z) (s : PodLifecycleState) : PodLifecycleState :=
  mkState (phase s) (sandbox_id s) (active_uid s) (admitted_slot_uid s) (active_sandbox_id s) (pending_replacement s) (pending_start_pod s) (pending_stop_pod s) (pending_ephemeral_reconcile s) (slot_admission_waiting s) (in_flight s) (finalized s) (operation_id s) (work_in_flight s) (retry_attempts s) (last_resource_version s) (pending_runtime_reconcile s) (runtime_reconcile_observations s) (pending_startup_finalization_retry s) (pending_delete_finalization_retry s) (deletion_deadline s) (deletion_deadline_generation s) v.

Definition state_new : PodLifecycleState :=
  mkState Created None None None None None None None None false None false 0 None 0 None false
    (mkObservations "" ∅ 0) false false None 0 [].

(** ** Operations *)

(** An update of the state, written in the order of the source's statements. *)
Notation "s |> f" := (f s) (at level 50, left associativity, only parsing) : rs_scope.

Definition next_operation_id (s : PodLifecycleState) : PodLifecycleState * Z :=
  let id := wrapping_add_u64 (operation_id s) 1 in (set_operation_id id s, id).

Definition active_uid_matches (s : PodLifecycleState) (u : string) : bool := active_uid s =?os Some u.

Definition admit_uid (u : string) (s : PodLifecycleState) : PodLifecycleState :=
  s |> set_active_uid (Some u) |> set_active_sandbox_id None |> set_sandbox_id None
    |> set_pending_replacement None |> set_pending_start_pod None |> set_pending_stop_pod None
    |> set_pending_ephemeral_reconcile None |> set_slot_admission_waiting false
    |> set_in_flight None |> set_work_in_flight None |> set_finalized false |> set_retry_attempts 0
    |> set_pending_runtime_reconcile false
    |> set_runtime_reconcile_observations (observations_new u)
    |> set_pending_startup_finalization_retry false |> set_pending_delete_finalization_retry false
    |> set_deletion_deadline None |> set_phase Created.

Definition observe_deletion_deadline (u : string) (deadline : Z) (s : PodLifecycleState)
  : PodLifecycleState :=
  match opt_filter (fun c => dd_uid c =?s u) (deletion_deadline s) with
  | Some current =>
      if dd_deadline current <=? deadline then s
      else
        let generation := wrapping_add_u64 (deletion_deadline_generation s) 1 in
        s |> set_deletion_deadline_generation generation
          |> set_deletion_deadline (Some (mkDeadline u deadline generation false false))
  | None =>
      let generation := wrapping_add_u64 (deletion_deadline_generation s) 1 in
      s |> set_deletion_deadline_generation generation
        |> set_deletion_deadline (Some (mkDeadline u deadline generation false false))
  end.

Definition clear_deletion_deadline (s : PodLifecycleState) : PodLifecycleState :=
  set_deletion_deadline None s.

Definition fire_deletion_deadline (u : string) (generation : Z) (s : PodLifecycleState)
  : PodLifecycleState * bool :=
  match deletion_deadline s with
  | None => (s, false)
  | Some d =>
      if negb (dd_uid d =?s u) || negb (dd_generation d =? generation) || dd_fired d then (s, false)
      else (set_deletion_deadline (Some (mkDeadline (dd_uid d) (dd_deadline d) (dd_generation d) true true)) s,
            true)
  end.

Definition update_pending_start_pod_if_newer (key : PodLifecycleKey) (pod : Value) (rv : option Z)
    (start_after_admit : bool) (s : PodLifecycleState) : PodLifecycleState :=
  let should_replace :=
    match pending_start_pod s with
    | Some current =>
        if uid (ps_key current) =?s uid key then
          match ps_resource_version current, rv with
          | Some current_rv, Some new_rv => current_rv <=? new_rv
          | None, Some _ => true
          | _, _ => false
          end
        else true
    | None => true
    end in
  if should_replace then set_pending_start_pod (Some (mkPendingStart key pod rv start_after_admit)) s else s.

Definition drop_pending_replacement_if_uid (u : string) (s : PodLifecycleState) : PodLifecycleState :=
  if is_some_and (pending_replacement s) (fun p => uid (pr_key p) =?s u)
  then set_pending_replacement None s else s.

Definition update_pending_ephemeral_reconcile_if_newer (key : PodLifecycleKey) (pod : Value)
    (rv : option Z) (s : PodLifecycleState) : PodLifecycleState :=
  let should_replace :=
    match pending_ephemeral_reconcile s with
    | Some current =>
        if uid (pe_key current) =?s uid key then
          match pe_resource_version current, rv with
          | Some current_rv, Some new_rv => current_rv <=? new_rv
          | None, Some _ => true
          | Some _, None => false
          | None, None => true
          end
        else true
    | None => true
    end in
  if should_replace then set_pending_ephemeral_reconcile (Some (mkPendingEphemeral key pod rv)) s else s.

Definition drop_pending_ephemeral_reconcile_if_uid (u : string) (s : PodLifecycleState)
  : PodLifecycleState :=
  if is_some_and (pending_ephemeral_reconcile s) (fun p => uid (pe_key p) =?s u)
  then set_pending_ephemeral_reconcile None s else s.

Definition record_in_flight (u : string) (kind : PodLifecycleWorkKind) (op : Z) (s : PodLifecycleState)
  : PodLifecycleState :=
  s |> set_work_in_flight (Some op) |> set_in_flight (Some (mkInFlight u kind op)).

Definition in_flight_matches (s : PodLifecycleState) (u : string) (op : Z) (kind : PodLifecycleWorkKind)
  : bool :=
  is_some_and (in_flight s) (fun work =>
    (if_uid work =?s u) && (if_operation_id work =? op) && bool_decide (if_kind work = kind)).

Definition in_flight_kind_for_uid (s : PodLifecycleState) (u : string) : option PodLifecycleWorkKind :=
  if_kind <$> opt_filter (fun work => if_uid work =?s u) (in_flight s).

Definition clear_in_flight (s : PodLifecycleState) : PodLifecycleState :=
  s |> set_work_in_flight None |> set_in_flight None.

Definition cancel_in_flight (s : PodLifecycleState) : PodLifecycleState :=
  let s := match in_flight s with
           | Some work => s |> set_in_flight None
                            |> set_cancelled_operations (if_operation_id work :: cancelled_operations s)
           | None => s
           end in
  set_work_in_flight None s.

Definition complete_matching_work (u : string) (op : Z) (kind : PodLifecycleWorkKind)
    (s : PodLifecycleState) : PodLifecycleState * bool :=
  if negb (in_flight_matches s u op kind) then (s, false) else (clear_in_flight s, true).

(** [retry_backoff]: [u64] arithmetic that saturates, then clamped to 2..60. *)
Definition retry_backoff (attempts : Z) : Z :=
  let pow := Z.min u64_max (2 ^ Z.max 0 (attempts - 1)) in
  Z.max 2 (Z.min 60 (Z.min u64_max (2 * pow))).

Definition next_start_retry_delay (s : PodLifecycleState) : PodLifecycleState * Z :=
  let attempts := Z.min u32_max (retry_attempts s + 1) in
  (set_retry_attempts attempts s, retry_backoff attempts).

Definition update_resource_version (rv : option Z) (s : PodLifecycleState) : PodLifecycleState :=
  match last_resource_version s, rv with
  | Some current, Some new => if current <? new then set_last_resource_version (Some new) s else s
  | None, some => set_last_resource_version some s
  | _, _ => s
  end.

Definition is_stale_resource_version (s : PodLifecycleState) (rv : option Z) : bool :=
  match last_resource_version s, rv with
  | Some current, Some new => new <=? current
  | _, _ => false
  end.

Inductive FinalizationAction := RunFinalizers | AlreadyFinalized.

Definition on_started (sandbox : string) (s : PodLifecycleState) : PodLifecycleState * FinalizationAction :=
  if (sandbox_id s =?os Some sandbox) && finalized s then (s, AlreadyFinalized)
  else (s |> set_sandbox_id (Some sandbox) |> set_active_sandbox_id (Some sandbox)
          |> set_finalized false |> set_pending_startup_finalization_retry false, RunFinalizers).

Definition defer_runtime_reconcile (container_id : option string) (s : PodLifecycleState)
  : PodLifecycleState :=
  let s := set_pending_runtime_reconcile true s in
  match opt_filter (fun id => negb (is_empty id)) container_id with
  | Some id => set_runtime_reconcile_observations
                 (observe_event (runtime_reconcile_observations s) id EvCreated) s
  | None => s
  end.

Definition defer_runtime_reconcile_event (container_id : string) (kind : KubeletEventKind)
    (s : PodLifecycleState) : PodLifecycleState :=
  s |> set_pending_runtime_reconcile true
    |> set_runtime_reconcile_observations
         (observe_event (runtime_reconcile_observations s) container_id kind).

Definition has_pending_ephemeral_reconcile (s : PodLifecycleState) : bool :=
  opt_is_some (pending_ephemeral_reconcile s).

Definition take_runtime_reconcile_hint (s : PodLifecycleState) : PodLifecycleState * RuntimeReconcileHint :=
  if negb (pending_runtime_reconcile s) then (s, ∅)
  else
    let obs := runtime_reconcile_observations s in
    (s |> set_pending_runtime_reconcile false
       |> set_runtime_reconcile_observations (mkObservations (obs_pod_uid obs) ∅ 0),
     map_fold (fun id kind hint => hint_with_container_event hint id kind) ∅ (obs_container_events obs)).

Definition runtime_reconcile_observation_container_ids (s : PodLifecycleState) : list string :=
  (map_to_list (obs_container_events (runtime_reconcile_observations s))).*1.

Definition restore_runtime_reconcile_observations (pod_uid : string) (container_ids : list string)
    (generation : Z) (s : PodLifecycleState) : PodLifecycleState :=
  let observations := observe_all (from_checkpoint pod_uid container_ids generation)
                        (runtime_reconcile_observation_container_ids s) in
  if decide (obs_container_events observations = ∅) then s
  else s |> set_pending_runtime_reconcile true |> set_runtime_reconcile_observations observations.

Definition try_start_work (s : PodLifecycleState) : PodLifecycleState * option Z :=
  if opt_is_some (work_in_flight s) || opt_is_some (in_flight s) then (s, None)
  else let '(s, id) := next_operation_id s in (set_work_in_flight (Some id) s, Some id).

Definition complete_work (op : Z) (s : PodLifecycleState) : PodLifecycleState * bool :=
  if decide (work_in_flight s = Some op) then (clear_in_flight s, true) else (s, false).

Definition is_terminal (s : PodLifecycleState) : bool := bool_decide (phase s = Terminated).

(** ** Theorems *)

Lemma is_empty_iff (x : string) : is_empty x = true <-> x = "".
Proof. by destruct x. Qed.

(** The transitions of a sequence of events, the last one of a container
    winning. *)
Definition latest_transitions (events : list (string * KubeletEventKind))
    (m : gmap string KubeletEventKind) : gmap string KubeletEventKind :=
  fold_left (fun m e => if is_empty e.1 then m else <[e.1 := e.2]> m) events m.

Definition defer_all (events : list (string * KubeletEventKind)) (s : PodLifecycleState)
  : PodLifecycleState := fold_left (fun s e => defer_runtime_reconcile_event e.1 e.2 s) events s.

Lemma defer_all_spec events s :
  obs_container_events (runtime_reconcile_observations (defer_all events s))
  = latest_transitions events (obs_container_events (runtime_reconcile_observations s))
  /\ (pending_runtime_reconcile s = true \/ events <> [] -> pending_runtime_reconcile (defer_all events s) = true).
Proof.
  revert s. induction events as [|e events IH]; intros s.
  { split; [done|]. by intros [?|[]]. }
  destruct (IH (defer_runtime_reconcile_event e.1 e.2 s)) as [H1 H2].
  split; [|intros _; apply H2; by left].
  change (defer_all (e :: events) s) with (defer_all events (defer_runtime_reconcile_event e.1 e.2 s)).
  rewrite H1. unfold latest_transitions. cbn [fold_left]. f_equal.
  cbn. unfold observe_event. by destruct (is_empty e.1).
Qed.

(** Collecting a map with no empty key into a hint gives the map back. *)
Lemma hint_of_events (m : gmap string KubeletEventKind) :
  m !! "" = None ->
  map_fold (fun id kind hint => hint_with_container_event hint id kind) ∅ m = m.
Proof.
  intros H0.
  refine (map_fold_weak_ind (fun r (m : gmap string KubeletEventKind) => m !! "" = None -> r = m)
            _ ∅ _ _ m H0); [done|].
  intros id kind m' r Hid IH Hm. unfold hint_with_container_event.
  destruct (is_empty id) eqn:E.
  - apply is_empty_iff in E as ->. by rewrite lookup_insert_eq in Hm.
  - rewrite IH; [done|]. destruct (decide (id = "")) as [->|]; [done|].
    by rewrite lookup_insert_ne in Hm.
Qed.

Lemma latest_no_empty events m : m !! "" = None -> latest_transitions events m !! "" = None.
Proof.
  revert m. induction events as [|[id kind] events IH]; intros m Hm; [done|].
  cbn. apply IH. destruct (is_empty id) eqn:E; [done|].
  rewrite lookup_insert_ne; [done|]. intros ->. done.
Qed.

(** Runtime events that arrive while the actor is busy are neither lost nor
    mixed up: the hint drained afterwards holds, for every container named by an
    event or already recorded, its latest transition and nothing else, and a
    second drain is empty. *)
Theorem deferred_events_delivered events s :
  events <> [] -> obs_container_events (runtime_reconcile_observations s) !! "" = None ->
  let '(s', hint) := take_runtime_reconcile_hint (defer_all events s) in
  hint = latest_transitions events (obs_container_events (runtime_reconcile_observations s))
  /\ (take_runtime_reconcile_hint s').2 = ∅ /\ in_flight s' = in_flight (defer_all events s).
Proof.
  intros Hne H0. destruct (defer_all_spec events s) as [H1 H2].
  unfold take_runtime_reconcile_hint at 1. rewrite H2 by auto. cbn [negb].
  rewrite H1, hint_of_events by by apply latest_no_empty. done.
Qed.

Lemma deferred_events_delivered_witness :
  let '(_, hint) := take_runtime_reconcile_hint
    (defer_all [("c1", EvStarted); ("c2", EvStarted); ("c1", EvStopped)] state_new) in
  hint !! "c1" = Some EvStopped /\ hint !! "c2" = Some EvStarted.
Proof.
  pose proof (deferred_events_delivered [("c1", EvStarted); ("c2", EvStarted); ("c1", EvStopped)] state_new
                ltac:(done) ltac:(done)) as H.
  destruct (take_runtime_reconcile_hint _) as [s' hint]. destruct H as [-> _]. by vm_compute.
Defined.

(** Restoring a checkpoint keeps every container that was recorded but not
    its transition: a stop that was deferred before the checkpoint could be
    loaded is delivered as a creation. *)
Theorem restore_forgets_transition :
  let s := restore_runtime_reconcile_observations "uid" [] 0
             (defer_runtime_reconcile_event "c1" EvStopped state_new) in
  (take_runtime_reconcile_hint (defer_runtime_reconcile_event "c1" EvStopped state_new)).2 !! "c1"
  = Some EvStopped
  /\ (take_runtime_reconcile_hint s).2 !! "c1" = Some EvCreated.
Proof. by vm_compute. Qed.

(** The delay before the n-th start retry doubles from two seconds and stays
    at sixty, for every attempt count of 32 bits. *)
Theorem retry_backoff_exact n :
  1 <= n -> in_u32 n -> retry_backoff n = Z.min 60 (2 ^ n).
Proof.
  unfold retry_backoff, in_u32, u32_max, u64_max. intros H1 _.
  replace (Z.max 0 (n - 1)) with (n - 1) by lia.
  assert (2 ^ n = 2 * 2 ^ (n - 1)) as -> by (rewrite <-Z.pow_succ_r by lia; f_equal; lia).
  assert (1 <= 2 ^ (n - 1)) by
    (pose proof (Z.pow_pos_nonneg 2 (n - 1) ltac:(lia) ltac:(lia)); lia).
  generalize dependent (2 ^ (n - 1)). intros. lia.
Qed.

Lemma retry_backoff_exact_witness : retry_backoff 5 = 32 /\ retry_backoff 6 = 60.
Proof.
  split; [rewrite (retry_backoff_exact 5) | rewrite (retry_backoff_exact 6)];
    try reflexivity; unfold in_u32, u32_max; lia.
Defined.
