(* ===== verification/PodActor.v ===== *)
(** * The pod lifecycle actor

    The synchronous decision function of
    [klights-kubelet/src/pod_lifecycle_actor/actor.rs]: [handle] takes one
    mailbox message, updates the actor's state and returns the action to
    dispatch.  Logging, tracing, the mailbox, checkpoints of runtime
    observations and the spawning of work are the asynchronous shell around it
    and are not modelled.

    Code outside the repository enters as parameters: the JSON text of a value
    ([json_to_string], used for fingerprints) and the RFC 3339 parser
    ([parse_rfc3339]); the wall clock is the argument [now]. *)

From S2P Require Import Prelude Text Json PodLifecycle.
Open Scope Z_scope.

(** ** Reading the pod object *)

Definition pod_is_terminating (pod : Value) : bool :=
  opt_is_some (pointer ["metadata"; "deletionTimestamp"] pod).

Definition visible (o : option string) : bool := is_some_and o (fun s => negb (is_empty (trim s))).

Definition pod_has_ephemeral_containers (pod : Value) : bool :=
  is_some_and (pointer_array ["spec"; "ephemeralContainers"] pod)
    (fun containers => match containers with [] => false | _ => true end).

Definition pod_has_published_startup_runtime_state (pod : Value) : bool :=
  if negb (pointer_str ["status"; "phase"] pod =?os Some "Running") then false
  else visible (pointer_str ["status"; "podIP"] pod)
       || visible (pointer_str ["status"; "podIPs"; "0"; "ip"] pod).

Definition pod_is_node_lost_terminal (pod : Value) : bool :=
  (pointer_str ["status"; "phase"] pod =?os Some "Failed")
  && (pointer_str ["status"; "reason"] pod =?os Some "NodeLost").

Definition pod_running_sandbox_id_for_finalization (pod : Value) : option string :=
  if negb (pod_has_published_startup_runtime_state pod) then None
  else opt_filter (fun s => negb (is_empty (trim s)))
         (pointer_str ["metadata"; "annotations"; "klights.dev/sandbox-id"] pod).

Definition pod_pending_with_published_runtime_state (pod : Value) : bool :=
  if negb (pointer_str ["status"; "phase"] pod =?os Some "Pending") then false
  else if negb (visible (pointer_str ["status"; "podIP"] pod)) then false
  else is_some_and (pointer_array ["status"; "containerStatuses"] pod) (fun statuses =>
    negb (match statuses with [] => true | _ => false end)
    && forallb (fun status =>
         opt_is_some (pointer ["state"; "running"] status)
         && negb (opt_eqb Bool.eqb (v ← get "started" status; as_bool v) (Some false))) statuses).

(** ** State *)

Record PodLifecycleActor := mkActor {
  a_state : PodLifecycleState;
  a_restart_reconciled : bool;
  a_pending_restart_admission : option LifecycleMessage;
  a_last_config_error_retry_fingerprint : option string;
  a_last_start_pod_configuration_fingerprint : option string;
  a_slot_admission_gate_enabled : bool;
  a_local_node_name : option string
}.

Definition set_a_state (v : PodLifecycleState) (a : PodLifecycleActor) : PodLifecycleActor :=
  mkActor v (a_restart_reconciled a) (a_pending_restart_admission a) (a_last_config_error_retry_fingerprint a) (a_last_start_pod_configuration_fingerprint a) (a_slot_admission_gate_enabled a) (a_local_node_name a).
Definition set_a_restart_reconciled (v : bool) (a : PodLifecycleActor) : PodLifecycleActor :=
  mkActor (a_state a) v (a_pending_restart_admission a) (a_last_config_error_retry_fingerprint a) (a_last_start_pod_configuration_fingerprint a) (a_slot_admission_gate_enabled a) (a_local_node_name a).
Definition set_a_pending_restart_admission (v : option LifecycleMessage) (a : PodLifecycleActor) : PodLifecycleActor :=
  mkActor (a_state a) (a_restart_reconciled a) v (a_last_config_error_retry_fingerprint a) (a_last_start_pod_configuration_fingerprint a) (a_slot_admission_gate_enabled a) (a_local_node_name a).
Definition set_a_last_config_error_retry_fingerprint (v : option string) (a : PodLifecycleActor) : PodLifecycleActor :=
  mkActor (a_state a) (a_restart_reconciled a) (a_pending_restart_admission a) v (a_last_start_pod_configuration_fingerprint a) (a_slot_admission_gate_enabled a) (a_local_node_name a).
Definition set_a_last_start_pod_configuration_fingerprint (v : option string) (a : PodLifecycleActor) : PodLifecycleActor :=
  mkActor (a_state a) (a_restart_reconciled a) (a_pending_restart_admission a) (a_last_config_error_retry_fingerprint a) v (a_slot_admission_gate_enabled a) (a_local_node_name a).
Definition set_a_slot_admission_gate_enabled (v : bool) (a : PodLifecycleActor) : PodLifecycleActor :=
  mkActor (a_state a) (a_restart_reconciled a) (a_pending_restart_admission a) (a_last_config_error_retry_fingerprint a) (a_last_start_pod_configuration_fingerprint a) v (a_local_node_name a).
Definition set_a_local_node_name (v : option string) (a : PodLifecycleActor) : PodLifecycleActor :=
  mkActor (a_state a) (a_restart_reconciled a) (a_pending_restart_admission a) (a_last_config_error_retry_fingerprint a) (a_last_start_pod_configuration_fingerprint a) (a_slot_admission_gate_enabled a) v.

(** [new_with_shared_trace_and_state]: the fields the decisions read. *)
Definition actor_new (local_node : option string) : PodLifecycleActor :=
  mkActor state_new false None None None true local_node.

Definition on_state (f : PodLifecycleState -> PodLifecycleState) (a : PodLifecycleActor)
  : PodLifecycleActor := set_a_state (f (a_state a)) a.

Abbreviation Step := (PodLifecycleActor -> PodLifecycleActor * PodAction).

Definition noop : Step := fun a => (a, Noop).

(** ** Helpers *)

Definition active_uid_is (a : PodLifecycleActor) (key : PodLifecycleKey) : bool :=
  active_uid_matches (a_state a) (uid key).

Definition kind_is (o : option PodLifecycleWorkKind) (k : PodLifecycleWorkKind) : bool :=
  bool_decide (o = Some k).

Definition phase_is (a : PodLifecycleActor) (p : PodPhase) : bool := bool_decide (phase (a_state a) = p).

Definition in_flight_kind (a : PodLifecycleActor) (key : PodLifecycleKey) : option PodLifecycleWorkKind :=
  in_flight_kind_for_uid (a_state a) (uid key).

Definition current_stop_context (a : PodLifecycleActor) (key : PodLifecycleKey) : option Z * PodStopMode :=
  match opt_filter (fun d => dd_uid d =?s uid key) (deletion_deadline (a_state a)) with
  | Some d => (Some (dd_deadline d), if dd_forced d then Forced else Graceful)
  | None => (None, Forced)
  end.

Definition ensure_active_uid (key : PodLifecycleKey) (a : PodLifecycleActor) : PodLifecycleActor :=
  if opt_is_none (active_uid (a_state a)) then on_state (admit_uid (uid key)) a else a.

Definition admit_replacement_uid (key : PodLifecycleKey) (a : PodLifecycleActor) : PodLifecycleActor :=
  a |> on_state cancel_in_flight |> on_state (admit_uid (uid key))
    |> set_a_last_config_error_retry_fingerprint None
    |> set_a_last_start_pod_configuration_fingerprint None.

Definition next_work_operation (key : PodLifecycleKey) (kind : PodLifecycleWorkKind)
    (a : PodLifecycleActor) : PodLifecycleActor * Z :=
  let '(s, op) := next_operation_id (a_state a) in
  (set_a_state (record_in_flight (uid key) kind op s) a, op).

(** Allocate an operation and build its action. *)
Definition with_operation (key : PodLifecycleKey) (kind : PodLifecycleWorkKind) (mk : Z -> PodAction)
  : Step := fun a => let '(a, op) := next_work_operation key kind a in (a, mk op).

Definition check_slot_admission_action (key : PodLifecycleKey) (pod : Value) (rv : option Z)
    (start_after_admit : bool) : Step := fun a =>
  a |> on_state (update_pending_start_pod_if_newer key pod rv start_after_admit)
    |> with_operation key WkCheckSlotAdmission (CheckSlotAdmission key pod rv start_after_admit).

Definition stop_pod_action (key : PodLifecycleKey) (pod : option Value) (sandbox : string)
    (deadline : option Z) (mode : PodStopMode) : Step := fun a =>
  a |> on_state (fun s => (take_runtime_reconcile_hint s).1)
    |> on_state (set_pending_stop_pod (Some (mkPendingStop key pod sandbox deadline mode)))
    |> with_operation key WkStopPod (StopPod key pod sandbox deadline mode).

Definition finalize_pod_deletion_action (key : PodLifecycleKey) : Step := fun a =>
  a |> on_state (set_pending_delete_finalization_retry false)
    |> with_operation key WkFinalizePodDeletion (FinalizePodDeletion key).

Definition stop_pod_completed_action (key : PodLifecycleKey) : Step := fun a =>
  a |> on_state cancel_in_flight
    |> on_state (set_pending_stop_pod None)
    |> on_state (drop_pending_ephemeral_reconcile_if_uid (uid key))
    |> on_state (set_phase Terminated)
    |> on_state (set_active_uid None)
    |> on_state (set_admitted_slot_uid None)
    |> on_state (set_active_sandbox_id None)
    |> on_state clear_deletion_deadline
    |> finalize_pod_deletion_action key.

Definition finalize_startup_action (key : PodLifecycleKey) (pod : option Value) (sandbox : string) : Step :=
  with_operation key WkFinalizeStartup (FinalizeStartup key pod sandbox).

Definition reconcile_runtime_action (key : PodLifecycleKey) (hint : RuntimeReconcileHint) : Step :=
  with_operation key WkReconcileRuntime (ReconcileRuntime key hint).

Definition runtime_reconcile_action_or_defer (key : PodLifecycleKey) (container_id : option string)
    (event_kind : option KubeletEventKind) : Step := fun a =>
  if phase_is a Stopping || phase_is a Terminated then noop a
  else if opt_is_some (in_flight_kind a key) || phase_is a PendingStart || phase_is a Starting then
    match container_id, event_kind with
    | Some id, Some kind => a |> on_state (defer_runtime_reconcile_event id kind) |> noop
    | _, _ => a |> on_state (defer_runtime_reconcile container_id) |> noop
    end
  else
    let hint := match container_id, event_kind with
                | Some id, Some kind => hint_from_container_event id kind
                | _, _ => hint_from_container_id (unwrap_or "" container_id)
                end in
    reconcile_runtime_action key hint a.

(** Take the hint and dispatch it. *)
Definition reconcile_taken_hint (key : PodLifecycleKey) : Step := fun a =>
  let '(s, hint) := take_runtime_reconcile_hint (a_state a) in
  reconcile_runtime_action key hint (set_a_state s a).

Definition drain_pending_runtime_reconcile (key : PodLifecycleKey) : Step := fun a =>
  if pending_runtime_reconcile (a_state a) && opt_is_none (in_flight (a_state a)) && phase_is a Running
  then reconcile_taken_hint key a else noop a.

Definition reconcile_deferred_runtime_after_start_failure (key : PodLifecycleKey) : Step := fun a =>
  if pending_runtime_reconcile (a_state a) && opt_is_none (in_flight (a_state a))
  then reconcile_taken_hint key a else noop a.

Definition reconcile_cri_leftovers_action (key : PodLifecycleKey) : Step :=
  with_operation key WkReconcileCriLeftovers (ReconcileCriLeftovers key).

(** [None] when the restart reconcile already ran. *)
Definition defer_for_restart_reconcile (key : PodLifecycleKey) (message : LifecycleMessage)
    (a : PodLifecycleActor) : option (PodLifecycleActor * PodAction) :=
  if a_restart_reconciled a then None
  else Some (a |> set_a_restart_reconciled true |> set_a_pending_restart_admission (Some message)
               |> reconcile_cri_leftovers_action key).

Definition handle_command_action (key : PodLifecycleKey) (command : LifecycleCommand) : Step :=
  with_operation key WkHandleCommand (HandleCommand key command).

(** [Some] when the actor serves another UID: the message is dropped. *)
Definition stale_active_uid_noop (key : PodLifecycleKey) (drop_pending_replacement : bool)
    (a : PodLifecycleActor) : option (PodLifecycleActor * PodAction) :=
  if opt_is_none (active_uid (a_state a)) || active_uid_is a key then None
  else Some (if drop_pending_replacement
             then a |> on_state (drop_pending_replacement_if_uid (uid key)) |> noop else noop a).

Definition reconcile_ephemeral_action (key : PodLifecycleKey) (pod : option Value) : Step :=
  with_operation key WkReconcileEphemeral (ReconcileEphemeral key pod).

Definition reconcile_ephemeral_action_or_defer (key : PodLifecycleKey) (pod : Value) (rv : option Z)
  : Step := fun a =>
  if opt_is_some (in_flight_kind a key) || negb (phase_is a Running)
  then a |> on_state (update_pending_ephemeral_reconcile_if_newer key pod rv) |> noop
  else reconcile_ephemeral_action key (Some pod) a.

Definition drain_pending_ephemeral_reconcile (key : PodLifecycleKey) : Step := fun a =>
  if opt_is_some (in_flight (a_state a)) || negb (phase_is a Running) then noop a
  else match opt_filter (fun p => uid (pe_key p) =?s uid key) (pending_ephemeral_reconcile (a_state a)) with
       | Some pending =>
           a |> on_state (set_pending_ephemeral_reconcile None)
             |> reconcile_ephemeral_action (pe_key pending) (Some (pe_pod pending))
       | None => noop a
       end.

Definition drain_pending_runtime_or_ephemeral_reconcile (key : PodLifecycleKey) : Step := fun a =>
  let '(a, runtime_action) := drain_pending_runtime_reconcile key a in
  if is_noop runtime_action then drain_pending_ephemeral_reconcile key a else (a, runtime_action).

Definition unfinalized_sandbox (a : PodLifecycleActor) : option string :=
  opt_filter (fun id => negb (is_empty id)) (sandbox_id (a_state a)).

Definition startup_finalization_blocked (a : PodLifecycleActor) : bool :=
  negb (phase_is a Running) || finalized (a_state a) || opt_is_some (in_flight (a_state a)).

Definition drain_pending_startup_finalization_retry (key : PodLifecycleKey) : Step := fun a =>
  if negb (pending_startup_finalization_retry (a_state a)) then noop a
  else if startup_finalization_blocked a then noop a
  else
    let a' := on_state (set_pending_startup_finalization_retry false) a in
    match unfinalized_sandbox a with
    | None => noop a'
    | Some sandbox => finalize_startup_action key None sandbox a'
    end.

Definition retry_unconfirmed_startup_finalization_after_runtime_reconcile (key : PodLifecycleKey)
  : Step := fun a =>
  if startup_finalization_blocked a then noop a
  else match unfinalized_sandbox a with
       | None => noop a
       | Some sandbox =>
           a |> on_state (set_pending_startup_finalization_retry false)
             |> finalize_startup_action key None sandbox
       end.

Definition start_retry_action (key : PodLifecycleKey) : Step := fun a =>
  let '(s, delay) := next_start_retry_delay (a_state a) in
  (set_a_state s a, ScheduleRetry key delay).

Definition start_pod_retry_action (key : PodLifecycleKey) (error_message : string) : Step := fun a =>
  let '(s, delay) := next_start_retry_delay (a_state a) in
  (set_a_state s a, ScheduleStartPodRetry key delay error_message (retry_attempts s)).

Definition completion_matches (key : PodLifecycleKey) (op : Z) (kind : PodLifecycleWorkKind)
    (a : PodLifecycleActor) : PodLifecycleActor * bool :=
  if is_some_and (in_flight (a_state a)) (fun work => negb (if_uid work =?s uid key)) then (a, false)
  else let '(s, matched) := complete_matching_work (uid key) op kind (a_state a) in
       (set_a_state s a, matched).

Definition failure_message (failure : PodLifecycleWorkFailure) : string :=
  match failure with
  | Startup msg | DispatchFailed msg => msg
  | Cancelled => "cancelled"
  | ContainerNotFound => "container not found"
  | DeadlineExceeded => "deadline exceeded"
  | PodDeleted => "pod deleted"
  | FinalizersPending => "finalizers pending"
  | NotOwned _ _ => "pod not owned by local node"
  end.

(** ** Decisions *)

Section Handle.
Context (json_to_string : Value -> string) (parse_rfc3339 : string -> option Z).

Definition pod_start_configuration_fingerprint (pod : Value) : string :=
  let field toks := unwrap_or Null (pointer toks pod) in
  json_to_string (Object
    [("annotations", field ["metadata"; "annotations"]);
     ("containers", field ["spec"; "containers"]);
     ("initContainers", field ["spec"; "initContainers"]);
     ("labels", field ["metadata"; "labels"]);
     ("volumes", field ["spec"; "volumes"])]).

Definition pod_create_container_config_error_fingerprint (pod : Value) : option string :=
  if negb (pointer_str ["status"; "phase"] pod =?os Some "Pending") then None
  else if negb (is_some_and (pointer_array ["status"; "containerStatuses"] pod)
                  (existsb (fun status => pointer_str ["state"; "waiting"; "reason"] status
                                          =?os Some "CreateContainerConfigError")))
  then None
  else Some (pod_start_configuration_fingerprint pod).

Definition start_pod_action (key : PodLifecycleKey) (pod : option Value) : Step := fun a =>
  a |> set_a_last_start_pod_configuration_fingerprint (pod_start_configuration_fingerprint <$> pod)
    |> with_operation key WkStartPod (StartPod key pod).

Definition observe_local_deletion_deadline (now : Z) (key : PodLifecycleKey) (pod : Value)
    (a : PodLifecycleActor) : PodLifecycleActor :=
  let assigned_node := opt_filter (fun node => negb (is_empty (trim node)))
                         (pointer_str ["spec"; "nodeName"] pod) in
  if opt_is_none assigned_node || opt_is_none (a_local_node_name a)
     || negb (assigned_node =?os a_local_node_name a)
  then on_state clear_deletion_deadline a
  else match pointer ["metadata"; "deletionTimestamp"] pod with
       | None => on_state clear_deletion_deadline a
       | Some timestamp =>
           let deadline := unwrap_or now (raw ← as_str timestamp; parse_rfc3339 raw) in
           on_state (observe_deletion_deadline (uid key) deadline) a
       end.

Definition start_or_check_slot_admission (key : PodLifecycleKey) (pod : Value) (rv : option Z)
    (start_after_admit : bool) : Step := fun a =>
  if negb (a_slot_admission_gate_enabled a) then
    if start_after_admit then start_pod_action key (Some pod) a else noop a
  else if admitted_slot_uid (a_state a) =?os Some (uid key) then
    let a := on_state (set_pending_start_pod None) a in
    if start_after_admit then start_pod_action key (Some pod) a else noop a
  else
    let a := on_state (update_pending_start_pod_if_newer key pod rv start_after_admit) a in
    if slot_admission_waiting (a_state a) || kind_is (in_flight_kind a key) WkCheckSlotAdmission
    then noop a
    else check_slot_admission_action key pod rv start_after_admit a.

Definition make_startable_or_start_pending_snapshot (key : PodLifecycleKey) : Step := fun a =>
  let a := on_state (set_phase Created) a in
  match pending_start_pod (a_state a) with
  | Some pending =>
      a |> on_state (set_pending_start_pod None) |> on_state (set_phase PendingStart)
        |> start_pod_action key (Some (ps_pod pending))
  | None => noop a
  end.

Definition retry_repaired_pending_start_after_config_error (key : PodLifecycleKey) : Step := fun a =>
  match a_last_start_pod_configuration_fingerprint a with
  | None => noop a
  | Some attempted_fingerprint =>
      let a := a |> set_a_last_start_pod_configuration_fingerprint None
                 |> set_a_last_config_error_retry_fingerprint (Some attempted_fingerprint) in
      match opt_filter (fun p => uid (ps_key p) =?s uid key) (pending_start_pod (a_state a)) with
      | None => noop a
      | Some pending =>
          if pod_start_configuration_fingerprint (ps_pod pending) =?s attempted_fingerprint then noop a
          else
            let '(a, deferred) := reconcile_deferred_runtime_after_start_failure key a in
            if negb (is_noop deferred) then (a, deferred)
            else
              a |> on_state (set_pending_start_pod None) |> on_state (set_phase PendingStart)
                |> start_or_check_slot_admission (ps_key pending) (ps_pod pending)
                     (ps_resource_version pending) (ps_start_after_admit pending)
      end
  end.

(** The terminating branch shared by the ADDED and MODIFIED watches. *)
Definition terminate_pod (key : PodLifecycleKey) (pod : Value) : Step := fun a =>
  let a := on_state (drop_pending_ephemeral_reconcile_if_uid (uid key)) a in
  if kind_is (in_flight_kind a key) WkStopPod || kind_is (in_flight_kind a key) WkFinalizePodDeletion
  then noop a
  else if phase_is a Terminated then finalize_pod_deletion_action key a
  else
    let a := if kind_is (in_flight_kind a key) WkStartPod then on_state cancel_in_flight a else a in
    let a := on_state (set_phase Stopping) a in
    let '(deadline, mode) := current_stop_context a key in
    stop_pod_action key (Some pod) "" deadline mode a.

Definition handle_watch_added (now : Z) (key : PodLifecycleKey) (rv : option Z) (pod : Value)
  : Step := fun a =>
  match defer_for_restart_reconcile key (WatchAdded key rv pod) a with
  | Some result => result
  | None =>
      let a := on_state (update_resource_version rv) a in
      let admitted :=
        if opt_is_none (active_uid (a_state a)) then inl (on_state (admit_uid (uid key)) a)
        else if negb (active_uid_is a key) then
          if phase_is a Stopping
          then inr (a |> on_state (set_pending_replacement (Some (mkPendingReplacement key pod rv))) |> noop)
          else inl (admit_replacement_uid key a)
        else inl a in
      match admitted with
      | inr result => result
      | inl a =>
          let a := observe_local_deletion_deadline now key pod a in
          if pod_is_terminating pod || pod_is_node_lost_terminal pod then terminate_pod key pod a
          else if phase_is a Created
          then a |> on_state (set_phase PendingStart) |> start_or_check_slot_admission key pod rv true
          else noop a
      end
  end.

(** The branch of a MODIFIED watch that shows a running sandbox. *)
Definition watch_running (key : PodLifecycleKey) (rv : option Z) (pod : Value) (sandbox : string)
  : Step := fun a =>
  let has_ephemeral := pod_has_ephemeral_containers pod in
  let kind := in_flight_kind a key in
  if a_slot_admission_gate_enabled a && negb (admitted_slot_uid (a_state a) =?os Some (uid key))
  then start_or_check_slot_admission key pod rv false a
  else
    let a := a |> on_state (set_phase Running) |> on_state (set_retry_attempts 0) in
    let a := if kind_is kind WkStartPod then on_state cancel_in_flight a else a in
    let '(s, finalization) := on_started sandbox (a_state a) in
    let a := set_a_state s a in
    match finalization with
    | RunFinalizers =>
        let a := if has_ephemeral
                 then on_state (update_pending_ephemeral_reconcile_if_newer key pod rv) a else a in
        if opt_is_some kind && negb (kind_is kind WkStartPod) then
          if kind_is kind WkFinalizeStartup
          then a |> on_state (set_pending_startup_finalization_retry true) |> noop else noop a
        else finalize_startup_action key (Some pod) sandbox a
    | AlreadyFinalized =>
        if has_ephemeral then reconcile_ephemeral_action_or_defer key pod rv a else noop a
    end.

(** The last branch of a MODIFIED watch: a pod whose start is pending. *)
Definition watch_pending_start (key : PodLifecycleKey) (rv : option Z) (pod : Value) : Step := fun a =>
  let remember a :=
    if visible (pointer_str ["spec"; "nodeName"] pod)
    then a |> on_state (update_pending_start_pod_if_newer key pod rv true) |> noop else noop a in
  match (if opt_is_none (in_flight_kind a key)
         then pod_create_container_config_error_fingerprint pod else None) with
  | Some fingerprint =>
      match a_last_config_error_retry_fingerprint a with
      | None => a |> set_a_last_config_error_retry_fingerprint (Some fingerprint) |> noop
      | Some previous =>
          if negb (previous =?s fingerprint)
          then a |> set_a_last_config_error_retry_fingerprint (Some fingerprint)
                 |> start_or_check_slot_admission key pod rv true
          else remember a
      end
  | None => remember a
  end.

Definition handle_watch_modified (now : Z) (key : PodLifecycleKey) (rv : option Z) (pod : Value)
  : Step := fun a =>
  let is_terminating := pod_is_terminating pod in
  let is_node_lost_terminal := pod_is_node_lost_terminal pod in
  let running_sandbox_id :=
    if is_terminating then None
    else or_else (pod_running_sandbox_id_for_finalization pod)
           (if pod_has_published_startup_runtime_state pod then sandbox_id (a_state a) else None) in
  let stale_startup_finalization_retry :=
    is_some_and running_sandbox_id (fun sandbox =>
      active_uid_is a key && negb (finalized (a_state a))
      && is_none_or (sandbox_id (a_state a)) (fun current => current =?s sandbox)) in
  let terminating_bypasses_stale_rv := (is_terminating || is_node_lost_terminal) && active_uid_is a key in
  let ephemeral_added_bypasses_stale_rv :=
    active_uid_is a key && pod_has_ephemeral_containers pod
    && negb (has_pending_ephemeral_reconcile (a_state a)) in
  if is_stale_resource_version (a_state a) rv && negb terminating_bypasses_stale_rv
     && negb ephemeral_added_bypasses_stale_rv && negb stale_startup_finalization_retry
  then noop a
  else
    match defer_for_restart_reconcile key (WatchModified key rv pod) a with
    | Some result => result
    | None =>
        let a := on_state (update_resource_version rv) a in
        let finalizing_after_local_clear := is_terminating && phase_is a Terminated in
        let admitted :=
          if opt_is_none (active_uid (a_state a)) && negb finalizing_after_local_clear
          then inl (on_state (admit_uid (uid key)) a)
          else if negb (active_uid_is a key) then
            inr (if finalizing_after_local_clear then finalize_pod_deletion_action key a
                 else if phase_is a Stopping then
                   if is_none_or (pending_replacement (a_state a)) (fun p => uid (pr_key p) =?s uid key)
                   then a |> on_state (set_pending_replacement (Some (mkPendingReplacement key pod rv))) |> noop
                   else noop a
                 else noop a)
          else inl a in
        match admitted with
        | inr result => result
        | inl a =>
            let a := observe_local_deletion_deadline now key pod a in
            if is_terminating || is_node_lost_terminal then terminate_pod key pod a
            else match running_sandbox_id with
            | Some sandbox => watch_running key rv pod sandbox a
            | None =>
                if phase_is a Running && pod_pending_with_published_runtime_state pod
                then runtime_reconcile_action_or_defer key None None a
                else if phase_is a Created
                then a |> on_state (set_phase PendingStart) |> start_or_check_slot_admission key pod rv true
                else if negb (phase_is a PendingStart) then
                  match pod_create_container_config_error_fingerprint pod with
                  | Some fingerprint =>
                      if negb (a_last_config_error_retry_fingerprint a =?os Some fingerprint)
                      then a |> set_a_last_config_error_retry_fingerprint (Some fingerprint)
                             |> on_state (set_phase PendingStart)
                             |> start_or_check_slot_admission key pod rv true
                      else noop a
                  | None =>
                      if pod_has_ephemeral_containers pod
                      then reconcile_ephemeral_action_or_defer key pod rv a else noop a
                  end
                else if pod_has_ephemeral_containers pod
                then reconcile_ephemeral_action_or_defer key pod rv a
                else watch_pending_start key rv pod a
            end
        end
    end.

Definition handle_watch_deleted (key : PodLifecycleKey) (rv : option Z) (pod : Value) : Step := fun a =>
  let a := on_state (update_resource_version rv) a in
  if opt_is_none (active_uid (a_state a)) then
    let a := if kind_is (in_flight_kind a key) WkFinalizePodDeletion
             then a |> on_state cancel_in_flight |> on_state (set_pending_delete_finalization_retry false)
             else a in
    a |> on_state (set_phase Terminated) |> noop
  else if negb (active_uid_is a key)
  then a |> on_state (drop_pending_replacement_if_uid (uid key)) |> noop
  else if phase_is a Terminated || kind_is (in_flight_kind a key) WkStopPod then noop a
  else
    let a := if kind_is (in_flight_kind a key) WkStartPod then on_state cancel_in_flight a else a in
    let a := on_state (set_phase Stopping) a in
    let '(deadline, mode) := current_stop_context a key in
    stop_pod_action key (Some pod) "" deadline mode a.

Definition handle_retry_due (key : PodLifecycleKey) : Step := fun a =>
  if phase_is a Terminated && opt_is_none (active_uid (a_state a)) then
    if pending_delete_finalization_retry (a_state a) && opt_is_none (in_flight (a_state a))
    then a |> on_state (set_pending_delete_finalization_retry false) |> finalize_pod_deletion_action key
    else noop a
  else
    match (if phase_is a Stopping && opt_is_none (in_flight (a_state a))
           then opt_filter (fun p => uid (pst_key p) =?s uid key) (pending_stop_pod (a_state a))
           else None) with
    | Some pending =>
        stop_pod_action (pst_key pending) (pst_pod pending) (pst_sandbox_id pending)
          (pst_deletion_deadline pending) (pst_mode pending) a
    | None =>
        let a := ensure_active_uid key a in
        if negb (active_uid_is a key) then noop a
        else if phase_is a Created || phase_is a PendingStart then
          let a := on_state (set_phase PendingStart) a in
          match pending_start_pod (a_state a) with
          | Some pending =>
              start_or_check_slot_admission (ps_key pending) (ps_pod pending)
                (ps_resource_version pending) (ps_start_after_admit pending) a
          | None =>
              if admitted_slot_uid (a_state a) =?os Some (uid key) then start_pod_action key None a
              else noop a
          end
        else noop a
    end.

Definition handle_orphan_finalize (key : PodLifecycleKey) : Step := fun a =>
  match stale_active_uid_noop key true a with
  | Some result => result
  | None =>
      if kind_is (in_flight_kind a key) WkStopPod || kind_is (in_flight_kind a key) WkFinalizePodDeletion
      then noop a
      else
        let a := if negb (active_uid (a_state a) =?os Some (uid key))
                 then on_state (admit_uid (uid key)) a else a in
        a |> on_state (set_phase Stopping) |> stop_pod_action key None "" None Forced
  end.

(** [resume] stands for [resume_pending_restart_admission]. *)
Definition handle_work_failed (resume : Step) (key : PodLifecycleKey) (op : Z)
    (kind : PodLifecycleWorkKind) (retryable : bool) (failure : PodLifecycleWorkFailure) : Step := fun a =>
  let '(a, matched) := completion_matches key op kind a in
  if negb matched then noop a
  else
    let finalizers_pending := match failure with FinalizersPending => true | _ => false end in
    let is_startup := match failure with Startup _ => true | _ => false end in
    if bool_decide (kind = WkReconcileCriLeftovers) then resume a
    else if bool_decide (kind = WkStartPod)
            && match failure with Startup m => contains "CreateContainerConfigError" m | _ => false end
    then retry_repaired_pending_start_after_config_error key a
    else
      let a := if bool_decide (kind = WkStartPod)
               then set_a_last_start_pod_configuration_fingerprint None a else a in
      match kind, retryable with
      | WkReconcileRuntime, true =>
          match failure with
          | ContainerNotFound => (on_state (set_phase PendingStart) a, ScheduleRetry key 1)
          | _ => noop a
          end
      | WkStartPod, true =>
          let '(a, reconcile) := reconcile_deferred_runtime_after_start_failure key a in
          if is_noop reconcile then start_pod_retry_action key (failure_message failure) a
          else (a, reconcile)
      | WkStartPod, false =>
          if pending_runtime_reconcile (a_state a) && is_startup
          then reconcile_deferred_runtime_after_start_failure key a
          else match failure with
               | DispatchFailed _ | PodDeleted | DeadlineExceeded =>
                   make_startable_or_start_pending_snapshot key a
               | _ => noop a
               end
      | WkStopPod, true => (on_state (set_phase Stopping) a, ScheduleRetry key 1)
      | WkStopPod, false =>
          match failure with
          | ContainerNotFound => stop_pod_completed_action key a
          | NotOwned _ _ => a |> on_state cancel_in_flight |> on_state (set_pending_stop_pod None) |> noop
          | _ => a |> on_state (set_phase Stopping) |> noop
          end
      | WkFinalizePodDeletion, true =>
          (on_state (set_pending_delete_finalization_retry true) a,
           ScheduleRetry key (if finalizers_pending then 5 else 1))
      | WkFinalizePodDeletion, false => a |> on_state (set_pending_delete_finalization_retry false) |> noop
      | _, _ => noop a
      end.

Definition start_pod_completed (key : PodLifecycleKey) (completed_sandbox : option string) : Step := fun a =>
  let a := a |> set_a_last_start_pod_configuration_fingerprint None
             |> set_a_last_config_error_retry_fingerprint None |> on_state (set_phase Running) in
  let sid := unwrap_or "" (or_else completed_sandbox (sandbox_id (a_state a))) in
  if is_empty sid then
    if pending_runtime_reconcile (a_state a) then
      let '(s, hint) := take_runtime_reconcile_hint (a_state a) in
      set_a_state s a |> on_state (set_retry_attempts 0) |> on_state (set_pending_start_pod None)
                      |> reconcile_runtime_action key hint
    else make_startable_or_start_pending_snapshot key a
  else
    let a := a |> on_state (set_retry_attempts 0) |> on_state (set_pending_start_pod None)
               |> on_state (defer_runtime_reconcile None) in
    let '(s, finalization) := on_started sid (a_state a) in
    let a := set_a_state s a in
    match finalization with
    | RunFinalizers => finalize_startup_action key None sid a
    | AlreadyFinalized => drain_pending_runtime_reconcile key a
    end.

Definition finalize_pod_deletion_completed : Step := fun a =>
  match pending_replacement (a_state a) with
  | Some pending =>
      a |> on_state (set_pending_replacement None)
        |> on_state (admit_uid (uid (pr_key pending)))
        |> on_state (update_resource_version (pr_resource_version pending))
        |> on_state (set_phase PendingStart)
        |> set_a_last_config_error_retry_fingerprint None
        |> set_a_last_start_pod_configuration_fingerprint None
        |> start_or_check_slot_admission (pr_key pending) (pr_pod pending) (pr_resource_version pending) true
  | None => noop a
  end.

Definition finalize_startup_completed (key : PodLifecycleKey) (completed_sandbox : option string)
  : Step := fun a =>
  let a := if is_some_and completed_sandbox (fun sid => sandbox_id (a_state a) =?os Some sid)
           then a |> on_state (set_finalized true) |> on_state (set_pending_startup_finalization_retry false)
           else a in
  let '(a, deferred) := drain_pending_runtime_or_ephemeral_reconcile key a in
  if is_noop deferred then drain_pending_startup_finalization_retry key a else (a, deferred).

Definition reconcile_runtime_completed (key : PodLifecycleKey) : Step := fun a =>
  if phase_is a PendingStart then start_retry_action key a
  else
    let '(a, deferred) := drain_pending_runtime_or_ephemeral_reconcile key a in
    if is_noop deferred then retry_unconfirmed_startup_finalization_after_runtime_reconcile key a
    else (a, deferred).

Definition handle_work_completed (resume : Step) (key : PodLifecycleKey) (op : Z)
    (kind : PodLifecycleWorkKind) (completed_sandbox : option string) : Step := fun a =>
  let '(a, matched) := completion_matches key op kind a in
  if negb matched then noop a
  else match kind with
       | WkReconcileCriLeftovers => resume a
       | WkStartPod => start_pod_completed key completed_sandbox a
       | WkStopPod => stop_pod_completed_action key a
       | WkFinalizePodDeletion => finalize_pod_deletion_completed a
       | WkFinalizeStartup => finalize_startup_completed key completed_sandbox a
       | WkReconcileRuntime => reconcile_runtime_completed key a
       | WkReconcileEphemeral => drain_pending_ephemeral_reconcile key a
       | WkCheckSlotAdmission | WkHandleCommand => noop a
       end.

Definition handle_slot_admission_granted (key : PodLifecycleKey) (op : Z) (pod : Value) (rv : option Z)
    (start_after_admit : bool) : Step := fun a =>
  let '(a, matched) := completion_matches key op WkCheckSlotAdmission a in
  if negb matched then noop a
  else
    let a := a |> on_state (set_slot_admission_waiting false)
               |> on_state (set_admitted_slot_uid (Some (uid key)))
               |> on_state (update_resource_version rv)
               |> on_state (set_pending_start_pod None) in
    if start_after_admit && active_uid_is a key
    then a |> on_state (set_phase PendingStart) |> start_pod_action key (Some pod)
    else noop a.

Definition handle_slot_admission_blocked (key : PodLifecycleKey) (op : Z) : Step := fun a =>
  let '(a, matched) := completion_matches key op WkCheckSlotAdmission a in
  if negb matched then noop a else a |> on_state (set_slot_admission_waiting true) |> noop.

Definition handle_slot_admission_wake (key : PodLifecycleKey) : Step := fun a =>
  match pending_start_pod (a_state a) with
  | None => noop a
  | Some pending =>
      if negb (uid (ps_key pending) =?s uid key) then noop a
      else if opt_is_some (in_flight (a_state a)) then noop a
      else a |> on_state (set_slot_admission_waiting false)
             |> check_slot_admission_action (ps_key pending) (ps_pod pending)
                  (ps_resource_version pending) (ps_start_after_admit pending)
  end.

Definition handle_runtime_event (key : PodLifecycleKey) (container_id : option string)
    (kind : option KubeletEventKind) : Step := fun a =>
  match stale_active_uid_noop key false a with
  | Some result => result
  | None => a |> ensure_active_uid key |> runtime_reconcile_action_or_defer key container_id kind
  end.

Definition handle_deletion_deadline_due (key : PodLifecycleKey) (generation : Z) : Step := fun a =>
  if negb (active_uid_is a key) then noop a
  else
    let '(s, fired) := fire_deletion_deadline (uid key) generation (a_state a) in
    let a := set_a_state s a in
    if negb fired then noop a
    else
      let graceful_stop_in_flight :=
        is_some_and (pending_stop_pod (a_state a)) (fun p =>
          (uid (pst_key p) =?s uid key) && match pst_mode p with Graceful => true | Forced => false end)
        && kind_is (in_flight_kind a key) WkStopPod in
      if negb graceful_stop_in_flight && opt_is_some (in_flight (a_state a)) then noop a
      else
        let a := if graceful_stop_in_flight then on_state cancel_in_flight a else a in
        let '(pod, sandbox, deadline) :=
          match opt_filter (fun p => uid (pst_key p) =?s uid key) (pending_stop_pod (a_state a)) with
          | Some p => (pst_pod p, pst_sandbox_id p, pst_deletion_deadline p)
          | None => (None, unwrap_or "" (sandbox_id (a_state a)),
                     dd_deadline <$> deletion_deadline (a_state a))
          end in
        a |> on_state (set_phase Stopping) |> stop_pod_action key pod sandbox deadline Forced.

Definition handle_lifecycle_command (key : PodLifecycleKey) (command : LifecycleCommand) : Step := fun a =>
  match stale_active_uid_noop key false a with
  | Some result => result
  | None => a |> ensure_active_uid key |> handle_command_action key command
  end.

(** The message match of [handle], with the recursive call abstracted. *)
Definition handle_with (resume : Step) (now : Z) (message : LifecycleMessage) : Step :=
  match message with
  | WatchAdded key rv pod => handle_watch_added now key rv pod
  | WatchModified key rv pod => handle_watch_modified now key rv pod
  | WatchDeleted key rv pod => handle_watch_deleted key rv pod
  | RetryDue key => handle_retry_due key
  | OrphanFinalize key _ => handle_orphan_finalize key
  | PodWorkFailed key op kind retryable failure => handle_work_failed resume key op kind retryable failure
  | SlotAdmissionGranted key op pod rv start => handle_slot_admission_granted key op pod rv start
  | SlotAdmissionBlocked key op _ _ => handle_slot_admission_blocked key op
  | SlotAdmissionWake key => handle_slot_admission_wake key
  | PodWorkCompleted key op kind sandbox => handle_work_completed resume key op kind sandbox
  | CriEvent key container_id kind => handle_runtime_event key (Some container_id) (Some kind)
  | ActiveDeadlineDue key => handle_runtime_event key None None
  | DeletionDeadlineDue key generation => handle_deletion_deadline_due key generation
  | LifecycleCommandMsg key command => handle_lifecycle_command key command
  | NetworkAssigned _ _ _ | ProbeResult _ _ _ _ _ | ActorIdleGraceExpired _ _ => noop
  end.

(** The message that [resume_pending_restart_admission] hands back to [handle],
    with the actor it is called on. *)
Definition resumes (message : LifecycleMessage) (a : PodLifecycleActor)
  : option (LifecycleMessage * PodLifecycleActor) :=
  match message with
  | PodWorkCompleted key op WkReconcileCriLeftovers _
  | PodWorkFailed key op WkReconcileCriLeftovers _ _ =>
      let '(a, matched) := completion_matches key op WkReconcileCriLeftovers a in
      if matched
      then m ← a_pending_restart_admission a; Some (m, set_a_pending_restart_admission None a)
      else None
  | _ => None
  end.

(** [handle] calls itself through [resume_pending_restart_admission]; the fuel
    bounds the depth of those calls, and running out is [None]. *)
Fixpoint handle_fuel (fuel : nat) (now : Z) (message : LifecycleMessage) (a : PodLifecycleActor)
  : option (PodLifecycleActor * PodAction) :=
  match fuel with
  | O => None
  | S fuel' =>
      match resumes message a with
      | Some (m, b) => handle_fuel fuel' now m b
      | None => Some (handle_with noop now message a)
      end
  end.

(** The resumed message is handled by the same match; a message resumed inside
    it would be a completion, which the cleared [in_flight] rejects. *)
Definition resume_pending_restart_admission (now : Z) : Step := fun a =>
  match a_pending_restart_admission a with
  | None => noop a
  | Some message => handle_with noop now message (set_a_pending_restart_admission None a)
  end.

Definition handle (now : Z) (message : LifecycleMessage) : Step :=
  handle_with (resume_pending_restart_admission now) now message.
End Handle.
