(* ===== verification/PodActorSpec.v ===== *)
(** * Pod lifecycle actor: theorems

    What [PodActor.handle] guarantees, over single messages and over every
    sequence of messages: operations are dispatched one at a time under fresh
    identifiers, a result is accepted at most once, a terminating pod is always
    on its way down, and the resource version only grows. *)

From S2P Require Import Prelude Text Json PodLifecycle PodActor.
Open Scope Z_scope.

(** ** The contract of one decision *)

(** A resource version never goes back. *)
Definition rv_le (x y : option Z) : Prop :=
  match x, y with
  | Some a, Some b => a <= b
  | Some _, None => False
  | None, _ => True
  end.

(** A change of the actor that dispatches nothing: the work in flight is kept or
    dropped, never replaced. *)
Record quiet (a a' : PodLifecycleActor) : Prop := {
  quiet_operation : operation_id (a_state a') = operation_id (a_state a);
  quiet_work :
    (in_flight (a_state a') = in_flight (a_state a)
     /\ work_in_flight (a_state a') = work_in_flight (a_state a))
    \/ (in_flight (a_state a') = None /\ work_in_flight (a_state a') = None);
  quiet_rv : rv_le (last_resource_version (a_state a)) (last_resource_version (a_state a'))
}.

(** A decision either dispatches one operation under the next identifier and
    records it as the work in flight, or is quiet. *)
Definition decides (a : PodLifecycleActor) (r : PodLifecycleActor * PodAction) : Prop :=
  match action_operation_id r.2 with
  | Some op =>
      op = wrapping_add_u64 (operation_id (a_state a)) 1
      /\ operation_id (a_state r.1) = op
      /\ work_in_flight (a_state r.1) = Some op
      /\ rv_le (last_resource_version (a_state a)) (last_resource_version (a_state r.1))
      /\ exists key kind, action_key r.2 = Some key /\ expected_completion r.2 = Some kind
           /\ in_flight (a_state r.1) = Some (mkInFlight (uid key) kind op)
  | None => quiet a r.1
  end.

Lemma rv_le_refl x : rv_le x x.
Proof. destruct x; simpl; auto with lia. Qed.

Lemma rv_le_trans x y z : rv_le x y -> rv_le y z -> rv_le x z.
Proof. destruct x, y, z; simpl; try tauto; lia. Qed.

#[export] Instance quiet_preorder : PreOrder quiet.
Proof.
  split.
  - intros a. split; auto using rv_le_refl.
  - intros a b c [? Hb ?] [? Hc ?]. split; [congruence | | by eapply rv_le_trans].
    destruct Hb as [[]|[]], Hc as [[]|[]]; [left|right..]; split; congruence.
Qed.

Lemma decides_after a b r : quiet a b -> decides b r -> decides a r.
Proof.
  intros Hab. unfold decides. destruct (action_operation_id r.2); [|by transitivity b].
  intros (-> & ? & ? & ? & ?). destruct Hab as [Hop _ Hrv].
  rewrite <-Hop. split_and!; eauto using rv_le_trans.
Qed.

Lemma decides_noop a b : quiet a b -> decides a (noop b).
Proof. done. Qed.

(** An action built from the operation it is given. *)
Lemma decides_with_operation a b key kind mk :
  quiet a b ->
  (forall op, action_operation_id (mk op) = Some op /\ action_key (mk op) = Some key
              /\ expected_completion (mk op) = Some kind) ->
  decides a (with_operation key kind mk b).
Proof.
  intros Hab Hmk. eapply decides_after; [exact Hab|].
  unfold decides, with_operation, next_work_operation, next_operation_id; cbn.
  destruct (Hmk (wrapping_add_u64 (operation_id (a_state b)) 1)) as (-> & Hk & He).
  split_and!; eauto using rv_le_refl.
Qed.

(** ** Quiet changes *)

(** The fields [quiet] reads are untouched. *)
Definition untouched (f : PodLifecycleState -> PodLifecycleState) : Prop := forall s,
  operation_id (f s) = operation_id s /\ in_flight (f s) = in_flight s
  /\ work_in_flight (f s) = work_in_flight s /\ last_resource_version (f s) = last_resource_version s.

Lemma quiet_untouched f a b : untouched f -> quiet a b -> quiet a (on_state f b).
Proof.
  intros Hf Hab. transitivity b; [done|]. destruct (Hf (a_state b)) as (? & ? & ? & Hrv).
  split; cbn; auto. rewrite Hrv. apply rv_le_refl.
Qed.

Lemma quiet_update_rv rv a b : quiet a b -> quiet a (on_state (update_resource_version rv) b).
Proof.
  intros Hab. transitivity b; [done|].
  split; cbn; unfold update_resource_version; repeat case_match; cbn; auto.
  all: try match goal with H : last_resource_version _ = _ |- _ => rewrite H end; simpl; to_prop; auto; lia.
Qed.

Lemma quiet_cancel a b : quiet a b -> quiet a (on_state cancel_in_flight b).
Proof.
  intros Hab. transitivity b; [done|]. unfold on_state, cancel_in_flight.
  split; cbn; destruct (in_flight (a_state b)) eqn:E; cbn; auto using rv_le_refl.
Qed.

Lemma quiet_admit u a b : quiet a b -> quiet a (on_state (admit_uid u) b).
Proof. intros Hab. transitivity b; [done|]. split; cbn; auto using rv_le_refl. Qed.

Lemma quiet_state a b s :
  operation_id s = operation_id (a_state b) -> in_flight s = in_flight (a_state b) ->
  work_in_flight s = work_in_flight (a_state b) ->
  last_resource_version s = last_resource_version (a_state b) ->
  quiet a b -> quiet a (set_a_state s b).
Proof. intros ???? Hab. transitivity b; [done|]. split; cbn; auto. rewrite H2. apply rv_le_refl. Qed.

Lemma quiet_completion key op kind a b :
  quiet a b -> quiet a (completion_matches key op kind b).1.
Proof.
  intros Hab. transitivity b; [done|]. unfold completion_matches, complete_matching_work.
  repeat case_match; simplify_eq; split; cbn; auto using rv_le_refl.
Qed.

Lemma quiet_fingerprints v a b :
  quiet a b -> quiet a (set_a_last_config_error_retry_fingerprint v b)
               /\ quiet a (set_a_last_start_pod_configuration_fingerprint v b).
Proof. by intros [???]. Qed.

Lemma quiet_restart_reconciled v a b : quiet a b -> quiet a (set_a_restart_reconciled v b).
Proof. by intros [???]. Qed.

Lemma quiet_restart_admission m a b : quiet a b -> quiet a (set_a_pending_restart_admission m b).
Proof. by intros [???]. Qed.

(** A first decision, and a second one when the first has nothing to do. *)
Lemma decides_or_else a r k :
  decides a r -> (forall b, quiet a b -> decides a (k b)) ->
  decides a (let '(b, d) := r in if is_noop d then k b else (b, d)).
Proof. intros Hr Hk. destruct r as [b []]; try exact Hr. by apply Hk. Qed.

Ltac solve_untouched :=
  intros ?; unfold drop_pending_ephemeral_reconcile_if_uid, drop_pending_replacement_if_uid,
    update_pending_start_pod_if_newer, update_pending_ephemeral_reconcile_if_newer,
    clear_deletion_deadline, observe_deletion_deadline, take_runtime_reconcile_hint,
    defer_runtime_reconcile, defer_runtime_reconcile_event;
  cbv zeta; repeat case_match; done.

(** Peel the updates of an actor one by one. *)
Ltac solve_quiet :=
  cbv zeta;
  repeat first
    [ assumption | reflexivity
    | apply quiet_update_rv | apply quiet_cancel | apply quiet_admit
    | apply quiet_untouched; [by solve_untouched|]
    | apply quiet_fingerprints | apply quiet_restart_reconciled | apply quiet_restart_admission
    | case_match ].

Lemma quiet_ensure_active_uid key a b : quiet a b -> quiet a (ensure_active_uid key b).
Proof. intros. unfold ensure_active_uid. solve_quiet. Qed.

Lemma quiet_admit_replacement key a b : quiet a b -> quiet a (admit_replacement_uid key b).
Proof. intros. unfold admit_replacement_uid. solve_quiet. Qed.

Lemma quiet_take_hint a b s hint :
  take_runtime_reconcile_hint (a_state b) = (s, hint) -> quiet a b -> quiet a (set_a_state s b).
Proof. unfold take_runtime_reconcile_hint. intros. case_match; simplify_eq; by apply quiet_state. Qed.

Lemma quiet_on_started sandbox a b s f :
  on_started sandbox (a_state b) = (s, f) -> quiet a b -> quiet a (set_a_state s b).
Proof. unfold on_started. intros. case_match; simplify_eq; by apply quiet_state. Qed.

Lemma quiet_next_delay a b s d :
  next_start_retry_delay (a_state b) = (s, d) -> quiet a b -> quiet a (set_a_state s b).
Proof. unfold next_start_retry_delay. intros. simplify_eq. by apply quiet_state. Qed.

Lemma quiet_fire_deadline u g a b s f :
  fire_deletion_deadline u g (a_state b) = (s, f) -> quiet a b -> quiet a (set_a_state s b).
Proof. unfold fire_deletion_deadline. intros. repeat case_match; simplify_eq; by apply quiet_state. Qed.

(** ** Every helper decides *)

Ltac solve_op := apply decides_with_operation; [solve_quiet | by intros].

Lemma decides_stop key pod sb d mode a b :
  quiet a b -> decides a (stop_pod_action key pod sb d mode b).
Proof. intros. unfold stop_pod_action. solve_op. Qed.

Lemma decides_finalize_deletion key a b : quiet a b -> decides a (finalize_pod_deletion_action key b).
Proof. intros. unfold finalize_pod_deletion_action. solve_op. Qed.

Lemma decides_stop_completed key a b : quiet a b -> decides a (stop_pod_completed_action key b).
Proof. intros. apply decides_finalize_deletion. solve_quiet. Qed.

Lemma decides_check_slot key pod rv st a b :
  quiet a b -> decides a (check_slot_admission_action key pod rv st b).
Proof. intros. unfold check_slot_admission_action. solve_op. Qed.

Lemma decides_finalize_startup key pod sb a b :
  quiet a b -> decides a (finalize_startup_action key pod sb b).
Proof. intros. unfold finalize_startup_action. solve_op. Qed.

Lemma decides_reconcile_runtime key hint a b :
  quiet a b -> decides a (reconcile_runtime_action key hint b).
Proof. intros. unfold reconcile_runtime_action. solve_op. Qed.

Lemma decides_taken_hint key a b : quiet a b -> decides a (reconcile_taken_hint key b).
Proof.
  intros. unfold reconcile_taken_hint. destruct (take_runtime_reconcile_hint _) eqn:E.
  apply decides_reconcile_runtime. by eapply quiet_take_hint.
Qed.

Lemma decides_reconcile_ephemeral key pod a b :
  quiet a b -> decides a (reconcile_ephemeral_action key pod b).
Proof. intros. unfold reconcile_ephemeral_action. solve_op. Qed.

Lemma decides_cri_leftovers key a b : quiet a b -> decides a (reconcile_cri_leftovers_action key b).
Proof. intros. unfold reconcile_cri_leftovers_action. solve_op. Qed.

Lemma decides_command key c a b : quiet a b -> decides a (handle_command_action key c b).
Proof. intros. unfold handle_command_action. solve_op. Qed.

Create HintDb actor discriminated.
#[export] Hint Constants Opaque : actor.
#[export] Hint Resolve decides_noop decides_stop decides_finalize_deletion decides_stop_completed
  decides_check_slot decides_finalize_startup decides_reconcile_runtime decides_taken_hint
  decides_reconcile_ephemeral decides_cri_leftovers decides_command : actor.
#[export] Hint Extern 1 (quiet _ _) => solve [solve_quiet] : actor.

(** Case analysis on the tests of a decision, each branch ending in a helper
    that decides. *)
Ltac solve_decides :=
  intros; cbv zeta;
  repeat match goal with
         | |- decides _ (match ?x with _ => _ end) => destruct x eqn:?; cbv zeta
         end;
  eauto 3 with actor.

Lemma decides_drain_runtime key a b : quiet a b -> decides a (drain_pending_runtime_reconcile key b).
Proof. unfold drain_pending_runtime_reconcile. solve_decides. Qed.

Lemma decides_deferred_runtime key a b :
  quiet a b -> decides a (reconcile_deferred_runtime_after_start_failure key b).
Proof. unfold reconcile_deferred_runtime_after_start_failure. solve_decides. Qed.

Lemma decides_runtime_or_defer key c k a b :
  quiet a b -> decides a (runtime_reconcile_action_or_defer key c k b).
Proof. unfold runtime_reconcile_action_or_defer. solve_decides. Qed.

Lemma decides_ephemeral_or_defer key pod rv a b :
  quiet a b -> decides a (reconcile_ephemeral_action_or_defer key pod rv b).
Proof. unfold reconcile_ephemeral_action_or_defer. solve_decides. Qed.

Lemma decides_drain_ephemeral key a b : quiet a b -> decides a (drain_pending_ephemeral_reconcile key b).
Proof. unfold drain_pending_ephemeral_reconcile. solve_decides. Qed.

Lemma decides_drain_either key a b :
  quiet a b -> decides a (drain_pending_runtime_or_ephemeral_reconcile key b).
Proof. intros. apply decides_or_else; auto using decides_drain_runtime, decides_drain_ephemeral. Qed.

Lemma decides_drain_finalization key a b :
  quiet a b -> decides a (drain_pending_startup_finalization_retry key b).
Proof. unfold drain_pending_startup_finalization_retry. solve_decides. Qed.

Lemma decides_retry_finalization key a b :
  quiet a b -> decides a (retry_unconfirmed_startup_finalization_after_runtime_reconcile key b).
Proof. unfold retry_unconfirmed_startup_finalization_after_runtime_reconcile. solve_decides. Qed.

Lemma decides_start_retry key a b : quiet a b -> decides a (start_retry_action key b).
Proof.
  intros. unfold start_retry_action. destruct (next_start_retry_delay _) eqn:E.
  by eapply quiet_next_delay.
Qed.

Lemma decides_start_pod_retry key m a b : quiet a b -> decides a (start_pod_retry_action key m b).
Proof.
  intros. unfold start_pod_retry_action. destruct (next_start_retry_delay _) eqn:E.
  by eapply quiet_next_delay.
Qed.

#[export] Hint Resolve decides_drain_runtime decides_deferred_runtime decides_runtime_or_defer
  decides_ephemeral_or_defer decides_drain_ephemeral decides_drain_either decides_drain_finalization
  decides_retry_finalization decides_start_retry decides_start_pod_retry : actor.
#[export] Hint Resolve quiet_ensure_active_uid quiet_admit_replacement : actor.

Lemma decides_deferred_restart key m a r :
  defer_for_restart_reconcile key m a = Some r -> decides a r.
Proof.
  unfold defer_for_restart_reconcile. intros E. case_match; simplify_eq.
  apply decides_cri_leftovers. solve_quiet.
Qed.

Lemma decides_stale_uid key drop a r : stale_active_uid_noop key drop a = Some r -> decides a r.
Proof. unfold stale_active_uid_noop. intros E. repeat case_match; simplify_eq; eauto 3 with actor. Qed.

Section Handlers.
Context (json_to_string : Value -> string) (parse_rfc3339 : string -> option Z).

Abbreviation start_pod_action := (start_pod_action json_to_string).
Abbreviation start_or_check_slot_admission := (start_or_check_slot_admission json_to_string).
Abbreviation terminal_start := (make_startable_or_start_pending_snapshot json_to_string).
Abbreviation observe_local_deletion_deadline := (observe_local_deletion_deadline parse_rfc3339).

Lemma quiet_observe_deadline now key pod a b :
  quiet a b -> quiet a (observe_local_deletion_deadline now key pod b).
Proof. intros. unfold PodActor.observe_local_deletion_deadline. solve_quiet. Qed.

Lemma decides_start key pod a b : quiet a b -> decides a (start_pod_action key pod b).
Proof. intros. unfold PodActor.start_pod_action. solve_op. Qed.

Lemma decides_start_or_check key pod rv st a b :
  quiet a b -> decides a (start_or_check_slot_admission key pod rv st b).
Proof. unfold PodActor.start_or_check_slot_admission. solve_decides; eauto 3 using decides_start with actor. Qed.

Lemma decides_startable key a b : quiet a b -> decides a (terminal_start key b).
Proof.
  unfold make_startable_or_start_pending_snapshot. solve_decides; eauto 3 using decides_start with actor.
Qed.
#[local] Hint Resolve quiet_observe_deadline decides_start decides_start_or_check decides_startable : actor.

Lemma decides_repaired key a b :
  quiet a b -> decides a (retry_repaired_pending_start_after_config_error json_to_string key b).
Proof.
  intros. unfold retry_repaired_pending_start_after_config_error.
  destruct (a_last_start_pod_configuration_fingerprint b); [|eauto 3 with actor]. cbv zeta.
  destruct (opt_filter _ _); [|eauto 3 with actor].
  destruct (_ =?s _); [eauto 3 with actor|].
  match goal with |- context [reconcile_deferred_runtime_after_start_failure key ?c] =>
    assert (decides a (reconcile_deferred_runtime_after_start_failure key c)) as Hd by eauto 3 with actor;
    destruct (reconcile_deferred_runtime_after_start_failure key c) as [c' d] end.
  destruct d; try exact Hd. cbn. apply decides_start_or_check.
  apply quiet_untouched; [by solve_untouched|]. apply quiet_untouched; [by solve_untouched|]. exact Hd.
Qed.

Lemma decides_terminate key pod a b : quiet a b -> decides a (terminate_pod key pod b).
Proof. unfold terminate_pod. solve_decides. Qed.
#[local] Hint Resolve decides_repaired decides_terminate : actor.

Lemma decides_watch_added now key rv pod a :
  decides a (handle_watch_added json_to_string parse_rfc3339 now key rv pod a).
Proof.
  unfold handle_watch_added. destruct (defer_for_restart_reconcile _ _ _) eqn:E.
  { by eapply decides_deferred_restart. }
  set (b := on_state (update_resource_version rv) a). cbv zeta.
  assert (quiet a b) by (subst b; solve_quiet).
  destruct (opt_is_none _); [|destruct (negb _); [destruct (phase_is _ _)|]]; eauto 3 with actor.
  all: match goal with |- context [PodActor.observe_local_deletion_deadline ?f ?n ?k ?p ?c] =>
    assert (quiet a (PodActor.observe_local_deletion_deadline f n k p c)) by eauto 4 with actor end.
  all: solve_decides.
Qed.

Lemma decides_watch_running key rv pod sb a b :
  quiet a b -> decides a (watch_running json_to_string key rv pod sb b).
Proof.
  intros Hab. unfold watch_running. destruct (_ && _); [eauto 3 with actor|]. cbv zeta.
  match goal with |- context [on_started sb (a_state ?c)] =>
    assert (quiet a c) by solve_quiet; destruct (on_started sb (a_state c)) as [s f] eqn:E;
    assert (quiet a (set_a_state s c)) by (by eapply quiet_on_started) end.
  destruct f; solve_decides.
Qed.

Lemma decides_watch_pending_start key rv pod a b :
  quiet a b -> decides a (watch_pending_start json_to_string key rv pod b).
Proof. unfold watch_pending_start. solve_decides. Qed.
#[local] Hint Resolve decides_watch_running decides_watch_pending_start : actor.

Lemma decides_watch_modified now key rv pod a :
  decides a (handle_watch_modified json_to_string parse_rfc3339 now key rv pod a).
Proof.
  unfold handle_watch_modified. cbv zeta. destruct (_ && negb (is_some_and _ _)); [eauto 3 with actor|].
  destruct (defer_for_restart_reconcile _ _ _) eqn:E.
  { by eapply decides_deferred_restart. }
  set (b := on_state (update_resource_version rv) a).
  assert (quiet a b) by (subst b; solve_quiet).
  destruct (_ && _); [|destruct (negb _); [solve_decides|]].
  all: match goal with |- context [PodActor.observe_local_deletion_deadline ?f ?n ?k ?p ?c] =>
    assert (quiet a (PodActor.observe_local_deletion_deadline f n k p c)) by eauto 4 with actor;
    generalize dependent (PodActor.observe_local_deletion_deadline f n k p c) end.
  all: intros c Hc; solve_decides.
Qed.

Lemma decides_watch_deleted key rv pod a : decides a (handle_watch_deleted key rv pod a).
Proof. unfold handle_watch_deleted. solve_decides. Qed.

Lemma decides_retry_due key a : decides a (handle_retry_due json_to_string key a).
Proof.
  unfold handle_retry_due. assert (quiet a (ensure_active_uid key a)) by eauto 3 with actor.
  solve_decides.
Qed.

Lemma decides_orphan key a : decides a (handle_orphan_finalize key a).
Proof.
  unfold handle_orphan_finalize. destruct (stale_active_uid_noop _ _ _) eqn:E.
  { by eapply decides_stale_uid. }
  solve_decides.
Qed.

Lemma decides_work_failed resume key op kind retryable failure a c :
  (forall b, quiet a b -> decides a (resume b)) -> quiet a (completion_matches key op kind c).1 ->
  decides a (handle_work_failed json_to_string resume key op kind retryable failure c).
Proof.
  intros Hresume. unfold handle_work_failed.
  destruct (completion_matches key op kind c) as [b matched] eqn:E. cbn [fst]. intros Hb.
  destruct (negb matched); [eauto 3 with actor|]. cbv zeta.
  destruct (bool_decide (kind = WkReconcileCriLeftovers)); [auto|].
  destruct (_ && _); [eauto 3 with actor|].
  match goal with |- context [if ?c then set_a_last_start_pod_configuration_fingerprint None b else b] =>
    set (d := if c then set_a_last_start_pod_configuration_fingerprint None b else b);
    assert (quiet a d) by (subst d; solve_quiet) end.
  clearbody d. destruct kind, retryable; try (destruct failure); eauto 3 with actor.
  all: try match goal with |- decides _ (_, ScheduleRetry _ _) => unfold decides; cbn; solve_quiet end.
  all: try (apply (decides_or_else _ _ (start_pod_retry_action _ _)); eauto 3 with actor).
  all: solve_decides.
Qed.

Lemma decides_start_completed key sb a b :
  quiet a b -> decides a (start_pod_completed json_to_string key sb b).
Proof.
  intros Hab. unfold start_pod_completed. cbv zeta.
  match goal with |- context [on_state (set_phase Running) ?c] =>
    set (d := on_state (set_phase Running) c); assert (quiet a d) by (subst d; solve_quiet) end.
  clearbody d. destruct (is_empty _).
  - destruct (pending_runtime_reconcile _); [|eauto 3 with actor].
    destruct (take_runtime_reconcile_hint _) as [s hint] eqn:E.
    apply decides_reconcile_runtime. pose proof (quiet_take_hint a d s hint E). solve_quiet; auto.
  - match goal with |- context [on_started ?sb (a_state ?c)] =>
      assert (quiet a c) by solve_quiet; destruct (on_started sb (a_state c)) as [s f] eqn:E;
      assert (quiet a (set_a_state s c)) by (by eapply quiet_on_started) end.
    destruct f; solve_decides.
Qed.

Lemma decides_deletion_completed a b :
  quiet a b -> decides a (finalize_pod_deletion_completed json_to_string b).
Proof. unfold finalize_pod_deletion_completed. solve_decides. Qed.

Lemma decides_startup_completed key sb a b : quiet a b -> decides a (finalize_startup_completed key sb b).
Proof.
  intros. unfold finalize_startup_completed. cbv zeta.
  apply decides_or_else; [apply decides_drain_either; solve_quiet | eauto 3 with actor].
Qed.

Lemma decides_runtime_completed key a b : quiet a b -> decides a (reconcile_runtime_completed key b).
Proof.
  intros. unfold reconcile_runtime_completed. destruct (phase_is _ _); [eauto 3 with actor|].
  apply decides_or_else; eauto 3 with actor.
Qed.
#[local] Hint Resolve decides_start_completed decides_deletion_completed decides_startup_completed
  decides_runtime_completed : actor.

Lemma decides_work_completed resume key op kind sb a c :
  (forall b, quiet a b -> decides a (resume b)) -> quiet a (completion_matches key op kind c).1 ->
  decides a (handle_work_completed json_to_string resume key op kind sb c).
Proof.
  intros Hresume. unfold handle_work_completed.
  destruct (completion_matches key op kind c) as [b matched] eqn:E. cbn [fst]. intros Hb.
  destruct (negb matched), kind; eauto 3 with actor.
Qed.

Lemma decides_slot_granted key op pod rv st a c :
  quiet a (completion_matches key op WkCheckSlotAdmission c).1 ->
  decides a (handle_slot_admission_granted json_to_string key op pod rv st c).
Proof.
  unfold handle_slot_admission_granted.
  destruct (completion_matches key op _ c) as [b matched] eqn:E. cbn [fst]. solve_decides.
Qed.

Lemma decides_slot_blocked key op a c :
  quiet a (completion_matches key op WkCheckSlotAdmission c).1 ->
  decides a (handle_slot_admission_blocked key op c).
Proof.
  unfold handle_slot_admission_blocked.
  destruct (completion_matches key op _ c) as [b matched] eqn:E. cbn [fst]. solve_decides.
Qed.

Lemma decides_slot_wake key a : decides a (handle_slot_admission_wake key a).
Proof. unfold handle_slot_admission_wake. solve_decides. Qed.

Lemma decides_runtime_event key c k a : decides a (handle_runtime_event key c k a).
Proof.
  unfold handle_runtime_event. destruct (stale_active_uid_noop _ _ _) eqn:E.
  { by eapply decides_stale_uid. }
  eauto 4 with actor.
Qed.

Lemma decides_command_message key c a : decides a (handle_lifecycle_command key c a).
Proof.
  unfold handle_lifecycle_command. destruct (stale_active_uid_noop _ _ _) eqn:E.
  { by eapply decides_stale_uid. }
  eauto 4 with actor.
Qed.

Lemma decides_deadline_due key g a : decides a (handle_deletion_deadline_due key g a).
Proof.
  unfold handle_deletion_deadline_due. destruct (negb _); [eauto 3 with actor|].
  destruct (fire_deletion_deadline _ _ _) as [s fired] eqn:E.
  assert (quiet a (set_a_state s a)) by by eapply quiet_fire_deadline.
  solve_decides.
Qed.
#[local] Hint Resolve quiet_completion decides_watch_added decides_watch_modified decides_watch_deleted decides_retry_due
  decides_orphan decides_work_failed decides_work_completed decides_slot_granted decides_slot_blocked
  decides_slot_wake decides_runtime_event decides_command_message decides_deadline_due : actor.

Lemma decides_handle_with resume now m a :
  (forall b, quiet a b -> decides a (resume b)) ->
  decides a (handle_with json_to_string parse_rfc3339 resume now m a).
Proof. intros. destruct m; cbn [handle_with]; eauto 4 with actor. Qed.

Lemma decides_resume now a b :
  quiet a b -> decides a (resume_pending_restart_admission json_to_string parse_rfc3339 now b).
Proof.
  intros Hab. unfold resume_pending_restart_admission. destruct (a_pending_restart_admission b).
  - eapply decides_after; [|apply decides_handle_with; eauto with actor]. solve_quiet.
  - eauto 3 with actor.
Qed.

(** The work a message reports on. *)
Definition result_of (m : LifecycleMessage) : option (PodLifecycleKey * Z * PodLifecycleWorkKind) :=
  match m with
  | PodWorkCompleted key op kind _ | PodWorkFailed key op kind _ _ => Some (key, op, kind)
  | SlotAdmissionGranted key op _ _ _ | SlotAdmissionBlocked key op _ _ =>
      Some (key, op, WkCheckSlotAdmission)
  | _ => None
  end.

(** A result is decided on the actor its completion leaves. *)
Lemma handle_result_decides now m key op kind a :
  result_of m = Some (key, op, kind) ->
  decides (completion_matches key op kind a).1 (handle json_to_string parse_rfc3339 now m a).
Proof.
  intros E. destruct m; simplify_eq/=;
    first [apply decides_work_failed | apply decides_work_completed | apply decides_slot_granted
          | apply decides_slot_blocked]; eauto using decides_resume; reflexivity.
Qed.

Lemma completion_mismatch key op kind a :
  in_flight_matches (a_state a) (uid key) op kind = false -> completion_matches key op kind a = (a, false).
Proof.
  intros E. unfold completion_matches, complete_matching_work. rewrite E. cbn.
  destruct (is_some_and _ _); [done|]. by destruct a.
Qed.

Lemma handle_result_mismatch now m key op kind a :
  result_of m = Some (key, op, kind) -> in_flight_matches (a_state a) (uid key) op kind = false ->
  handle json_to_string parse_rfc3339 now m a = (a, Noop).
Proof.
  intros E Hno. destruct m; simplify_eq/=; unfold handle; cbn [handle_with];
    unfold handle_work_completed, handle_work_failed, handle_slot_admission_granted,
      handle_slot_admission_blocked; by rewrite completion_mismatch.
Qed.

Lemma handle_decides now m a : decides a (handle json_to_string parse_rfc3339 now m a).
Proof. apply decides_handle_with. eauto using decides_resume. Qed.
End Handlers.

(** ** Sequences of messages *)

(** The mailbox: each message is handled at the clock reading it comes with. *)
Fixpoint run (jts : Value -> string) (rfc : string -> option Z) (ms : list (Z * LifecycleMessage))
    (a : PodLifecycleActor) : PodLifecycleActor * list PodAction :=
  match ms with
  | [] => (a, [])
  | (now, m) :: ms' =>
      let '(b, act) := handle jts rfc now m a in
      let '(c, acts) := run jts rfc ms' b in (c, act :: acts)
  end.

(** The two records of the work in flight agree, and name the last operation. *)
Definition well_recorded (s : PodLifecycleState) : Prop :=
  work_in_flight s = if_operation_id <$> in_flight s
  /\ forall w, in_flight s = Some w -> if_operation_id w = operation_id s.

Definition dispatched (acts : list PodAction) : list Z := omap action_operation_id acts.

Lemma dispatched_cons act acts :
  dispatched (act :: acts)
  = match action_operation_id act with Some op => op :: dispatched acts | None => dispatched acts end.
Proof. done. Qed.

Lemma decides_well_recorded a r :
  decides a r -> well_recorded (a_state a) -> well_recorded (a_state r.1).
Proof.
  unfold decides, well_recorded. case_match.
  - intros (-> & -> & -> & _ & key & kind & _ & _ & ->) _. split; [done|]. by intros ? [= <-].
  - intros [Hop [[Hin Hw]|[Hin Hw]] _] [H1 H2]; rewrite ?Hin, ?Hw, ?Hop; auto. split; [done|]. done.
Qed.

Lemma run_spec jts rfc ms a a' acts :
  well_recorded (a_state a) ->
  0 <= operation_id (a_state a) -> operation_id (a_state a) + Z.of_nat (length ms) <= u64_max ->
  run jts rfc ms a = (a', acts) ->
  dispatched acts = seqZ (operation_id (a_state a) + 1) (Z.of_nat (length (dispatched acts)))
  /\ operation_id (a_state a') = operation_id (a_state a) + Z.of_nat (length (dispatched acts))
  /\ well_recorded (a_state a')
  /\ rv_le (last_resource_version (a_state a)) (last_resource_version (a_state a')).
Proof.
  revert a a' acts. induction ms as [|[now m] ms IH]; intros a a' acts Hwf H0 Hmax Hrun; simpl in Hrun.
  { simplify_eq/=. split_and!; auto using rv_le_refl; lia. }
  pose proof (handle_decides jts rfc now m a) as Hd.
  destruct (handle jts rfc now m a) as [b act].
  destruct (run jts rfc ms b) as [c acts'] eqn:E. simplify_eq.
  pose proof (decides_well_recorded _ _ Hd Hwf) as Hwb.
  unfold decides in Hd. cbn in Hd, Hwb. cbn [length] in Hmax. rewrite Nat2Z.inj_succ in Hmax.
  rewrite !dispatched_cons. destruct (action_operation_id act) as [op|].
  - destruct Hd as (Hop & Hb & _ & Hrv & _).
    rewrite wrapping_add_u64_small in Hop by (unfold in_u64; lia).
    destruct (IH b a' acts') as (Hs & Ho & Hw & Hr); auto; [lia..|].
    cbn [length]. rewrite Nat2Z.inj_succ.
    split_and!; [|lia|done|by eapply rv_le_trans].
    rewrite seqZ_cons by lia. f_equal; [lia|]. rewrite Hs at 1. f_equal; lia.
  - destruct Hd as [Hop _ Hrv]. destruct (IH b a' acts') as (Hs & Ho & Hw & Hr); auto; [lia..|].
    rewrite Hop in *. split_and!; eauto using rv_le_trans.
Qed.

(** C19. Over any sequence of messages, an actor that starts with consistent
    records dispatches its operations under consecutive identifiers, so no two
    operations ever share one; afterwards the two in-flight records agree and
    name the last dispatched operation or nothing, and the last seen resource
    version has not gone back. *)
Theorem operations_sequential jts rfc ms a a' acts :
  well_recorded (a_state a) ->
  0 <= operation_id (a_state a) -> operation_id (a_state a) + Z.of_nat (length ms) <= u64_max ->
  run jts rfc ms a = (a', acts) ->
  dispatched acts = seqZ (operation_id (a_state a) + 1) (Z.of_nat (length (dispatched acts)))
  /\ NoDup (dispatched acts)
  /\ well_recorded (a_state a')
  /\ operation_id (a_state a') = operation_id (a_state a) + Z.of_nat (length (dispatched acts))
  /\ rv_le (last_resource_version (a_state a)) (last_resource_version (a_state a')).
Proof.
  intros Hwf H0 Hmax Hrun. destruct (run_spec _ _ _ _ _ _ Hwf H0 Hmax Hrun) as (Hs & ? & ? & ?).
  split_and!; auto. rewrite Hs. apply NoDup_seqZ.
Qed.

(** Operation [op] is over: whatever is in flight was dispatched after it. *)
Definition retired (op : Z) (s : PodLifecycleState) : Prop :=
  op <= operation_id s /\ forall w, in_flight s = Some w -> op < if_operation_id w.

Lemma decides_retired op a r :
  decides a r -> 0 <= operation_id (a_state a) < u64_max -> retired op (a_state a) ->
  retired op (a_state r.1) /\ operation_id (a_state a) <= operation_id (a_state r.1) <= operation_id (a_state a) + 1.
Proof.
  intros Hd Hb [Hle Hw]. unfold decides in Hd. case_match.
  - destruct Hd as (Hop & Hr & _ & _ & key & kind & _ & _ & Hin).
    rewrite wrapping_add_u64_small in Hop by (unfold in_u64; lia). unfold retired. rewrite Hin, Hr.
    split; [split; [lia|]|lia]. intros w [= <-]. cbn. lia.
  - destruct Hd as [Hop [[Hin _]|[Hin _]] _]; unfold retired; rewrite Hin, Hop; repeat split; auto; solve [lia | by intros].
Qed.

Lemma run_retired jts rfc op ms a a' acts :
  run jts rfc ms a = (a', acts) -> 0 <= operation_id (a_state a) ->
  operation_id (a_state a) + Z.of_nat (length ms) <= u64_max ->
  retired op (a_state a) -> retired op (a_state a').
Proof.
  revert a a' acts. induction ms as [|[now m] ms IH]; intros a a' acts Hrun H0 Hmax Hr; simpl in Hrun.
  { by simplify_eq. }
  pose proof (handle_decides jts rfc now m a) as Hd.
  destruct (handle jts rfc now m a) as [b act].
  destruct (run jts rfc ms b) as [c acts'] eqn:E. simplify_eq.
  cbn [length] in Hmax. rewrite Nat2Z.inj_succ in Hmax.
  destruct (decides_retired op _ _ Hd) as [Hr' ?]; [lia|done|]. cbn in *. eapply IH; eauto; lia.
Qed.

Lemma completion_retires key op kind a :
  well_recorded (a_state a) -> in_flight_matches (a_state a) (uid key) op kind = true ->
  retired op (a_state (completion_matches key op kind a).1)
  /\ operation_id (a_state (completion_matches key op kind a).1) = operation_id (a_state a).
Proof.
  intros [_ Hop] Hm. unfold completion_matches, complete_matching_work. rewrite Hm. cbn.
  unfold in_flight_matches in Hm. destruct (in_flight (a_state a)) as [w|] eqn:E; [|done]. cbn in *. to_prop.
  rewrite H, String.eqb_refl. cbn. repeat split; [|done]. cbn. rewrite <-(Hop w eq_refl). lia.
Qed.

Lemma retired_mismatch op s u kind : retired op s -> in_flight_matches s u op kind = false.
Proof.
  intros [_ Hw]. unfold in_flight_matches. destruct (in_flight s) as [w|]; [|done]. cbn.
  specialize (Hw w eq_refl). rewrite (proj2 (Z.eqb_neq _ _)) by lia. by rewrite andb_false_r.
Qed.

(** C4. A result is accepted at most once.  Once a completion, failure or slot
    answer for the work in flight has been handled, any later result carrying
    the same operation identifier, whatever came in between, changes nothing
    and triggers nothing. *)
Theorem result_accepted_once jts rfc now m key op kind a b act ms c acts now' m' key' kind' :
  well_recorded (a_state a) -> 0 <= operation_id (a_state a) ->
  operation_id (a_state a) + 1 + Z.of_nat (length ms) <= u64_max ->
  result_of m = Some (key, op, kind) -> in_flight_matches (a_state a) (uid key) op kind = true ->
  handle jts rfc now m a = (b, act) -> run jts rfc ms b = (c, acts) ->
  result_of m' = Some (key', op, kind') ->
  handle jts rfc now' m' c = (c, Noop).
Proof.
  intros Hwf H0 Hmax Hm Hmatch Hh Hrun Hm'.
  destruct (completion_retires key op kind a Hwf Hmatch) as [Hret Hid].
  pose proof (handle_result_decides jts rfc now m key op kind a Hm) as Hd. rewrite Hh in Hd.
  destruct (decides_retired op _ _ Hd) as [Hb Hbid]; [lia|done|]. cbn in Hb, Hbid.
  eapply handle_result_mismatch; [done|]. apply retired_mismatch.
  eapply run_retired; [exact Hrun|lia|lia|done].
Qed.

(** ** Termination of the self-call *)

Lemma completion_clears key op kind a b :
  completion_matches key op kind a = (b, true) -> in_flight (a_state b) = None.
Proof.
  unfold completion_matches, complete_matching_work. intros. repeat case_match; by simplify_eq.
Qed.

Lemma completion_idle key op kind a :
  in_flight (a_state a) = None -> completion_matches key op kind a = (a, false).
Proof.
  intros E. apply completion_mismatch. unfold in_flight_matches. by rewrite E.
Qed.

(** With nothing in flight no message resumes another. *)
Lemma resumes_idle m a : in_flight (a_state a) = None -> resumes m a = None.
Proof. intros E. destruct m; try done; destruct kind; cbn [resumes]; by rewrite ?completion_idle. Qed.

Lemma handle_resumes jts rfc now m a :
  match resumes m a with
  | Some (m', b) => handle jts rfc now m a = handle_with jts rfc noop now m' b
                    /\ in_flight (a_state b) = None
  | None => handle jts rfc now m a = handle_with jts rfc noop now m a
  end.
Proof.
  destruct m; try done; destruct kind; try done.
  all: unfold handle; cbn [handle_with resumes]; unfold handle_work_completed, handle_work_failed.
  all: destruct (completion_matches _ _ _ a) as [b []] eqn:E; cbn [negb]; [|done].
  all: rewrite ?bool_decide_true by done; unfold resume_pending_restart_admission.
  all: destruct (a_pending_restart_admission b); [|done].
  all: split; [done | exact (completion_clears _ _ _ _ _ E)].
Qed.

(** [handle] calls itself at most once, through the restart admission it
    resumes: two levels are enough for every message and every state, and what
    they compute is the decision the other theorems are about. *)
Theorem handle_terminates jts rfc fuel now m a :
  handle_fuel jts rfc (S (S fuel)) now m a = Some (handle jts rfc now m a).
Proof.
  pose proof (handle_resumes jts rfc now m a) as H. cbn [handle_fuel].
  destruct (resumes m a) as [[m' b]|]; [|by rewrite H].
  destruct H as [-> Hidle]. by rewrite resumes_idle.
Qed.

(** ** Deletion *)

Definition going_down (key : PodLifecycleKey) (a : PodLifecycleActor) : Prop :=
  in_flight_kind a key = Some WkStopPod \/ in_flight_kind a key = Some WkFinalizePodDeletion.

Lemma with_operation_kind key kind mk a :
  in_flight_kind (with_operation key kind mk a).1 key = Some kind.
Proof. unfold in_flight_kind, in_flight_kind_for_uid. cbn. by rewrite String.eqb_refl. Qed.

Lemma terminate_goes_down key pod a : going_down key (terminate_pod key pod a).1.
Proof.
  unfold terminate_pod. cbv zeta. set (b := on_state _ a).
  destruct (kind_is (in_flight_kind b key) WkStopPod || _) eqn:E.
  { unfold kind_is in E. split_or; [left|right]; by apply bool_decide_eq_true in H. }
  destruct (phase_is b Terminated); [right; apply with_operation_kind|].
  match goal with |- context [current_stop_context ?c key] => destruct (current_stop_context c key) end.
  left. apply with_operation_kind.
Qed.


(** ** The deletion deadline *)

(** The timer of [generation] is the one armed for the served pod, and has not
    fired. *)
Definition deadline_due (a : PodLifecycleActor) (key : PodLifecycleKey) (generation : Z) : bool :=
  active_uid_is a key
  && is_some_and (deletion_deadline (a_state a)) (fun d =>
       (dd_uid d =?s uid key) && (dd_generation d =? generation) && negb (dd_fired d)).

Definition graceful_stop_in_flight (a : PodLifecycleActor) (key : PodLifecycleKey) : bool :=
  is_some_and (pending_stop_pod (a_state a)) (fun p =>
    (uid (pst_key p) =?s uid key) && match pst_mode p with Graceful => true | Forced => false end)
  && kind_is (in_flight_kind a key) WkStopPod.

Lemma fire_spec u g s :
  fire_deletion_deadline u g s
  = match deletion_deadline s with
    | Some d => if (dd_uid d =?s u) && (dd_generation d =? g) && negb (dd_fired d)
                then (set_deletion_deadline
                        (Some (mkDeadline (dd_uid d) (dd_deadline d) (dd_generation d) true true)) s, true)
                else (s, false)
    | None => (s, false)
    end.
Proof.
  unfold fire_deletion_deadline. destruct (deletion_deadline s); [|done].
  by destruct (dd_uid _ =?s u), (dd_generation _ =? g), (dd_fired _).
Qed.

Lemma set_same_state a : set_a_state (a_state a) a = a.
Proof. by destruct a. Qed.

Lemma not_due_noop a key g : deadline_due a key g = false -> handle_deletion_deadline_due key g a = (a, Noop).
Proof.
  unfold deadline_due, handle_deletion_deadline_due. rewrite fire_spec. intros E.
  destruct (active_uid_is a key); [|done]. cbn [negb andb] in *.
  destruct (deletion_deadline (a_state a)); cbn [is_some_and] in E; rewrite ?E; cbn [negb];
    by rewrite set_same_state.
Qed.

Lemma fired_not_due a key g d :
  deletion_deadline (a_state a) = Some d -> dd_fired d = true -> deadline_due a key g = false.
Proof. intros E F. unfold deadline_due. rewrite E. cbn. by rewrite F, !andb_false_r. Qed.

Lemma stop_action_spec key pod sb dl mode a :
  let r := stop_pod_action key pod sb dl mode a in
  r.2 = StopPod key pod sb dl mode (wrapping_add_u64 (operation_id (a_state a)) 1)
  /\ phase (a_state r.1) = phase (a_state a)
  /\ deletion_deadline (a_state r.1) = deletion_deadline (a_state a)
  /\ cancelled_operations (a_state r.1) = cancelled_operations (a_state a).
Proof.
  unfold stop_pod_action, take_runtime_reconcile_hint. cbn.
  destruct (negb _); done.
Qed.

Lemma cancel_spec s :
  deletion_deadline (cancel_in_flight s) = deletion_deadline s
  /\ operation_id (cancel_in_flight s) = operation_id s
  /\ (forall w, in_flight s = Some w -> if_operation_id w ∈ cancelled_operations (cancel_in_flight s)).
Proof.
  unfold cancel_in_flight. destruct (in_flight s) as [w|] eqn:E; cbn; repeat split; auto; try done.
  intros w' [= <-]. apply list_elem_of_here.
Qed.

(** The stop the deadline forces, on an actor whose deadline has fired. *)
Lemma forced_stop_spec key (graceful : bool) a d :
  deletion_deadline (a_state a) = Some d ->
  let b := if graceful then on_state cancel_in_flight a else a in
  forall pod sb dl,
  let r := (b |> on_state (set_phase Stopping) |> stop_pod_action key pod sb dl Forced) in
  deletion_deadline (a_state r.1) = Some d /\ phase (a_state r.1) = Stopping
  /\ r.2 = StopPod key pod sb dl Forced (wrapping_add_u64 (operation_id (a_state a)) 1)
  /\ (graceful = true -> forall w, in_flight (a_state a) = Some w ->
      if_operation_id w ∈ cancelled_operations (a_state r.1)).
Proof.
  intros Hd b pod sb dl. cbv zeta.
  destruct (stop_action_spec key pod sb dl Forced (on_state (set_phase Stopping) b)) as (-> & -> & -> & ->).
  destruct (cancel_spec (a_state a)) as (H1 & H2 & H3).
  subst b. destruct graceful; (split_and!; [| done | |]); try done.
  - etransitivity; [exact H1 | exact Hd].
  - f_equal. f_equal. exact H2.
Qed.

Definition mark_fired (d : PodDeletionDeadlineState) : PodDeletionDeadlineState :=
  mkDeadline (dd_uid d) (dd_deadline d) (dd_generation d) true true.

(** The decision of a due timer, from the actor whose deadline is marked. *)
Lemma due_decision key g a :
  deadline_due a key g = true ->
  exists d pod sb dl,
    let a1 := on_state (set_deletion_deadline (Some (mark_fired d))) a in
    handle_deletion_deadline_due key g a
    = if negb (graceful_stop_in_flight a key) && opt_is_some (in_flight (a_state a)) then (a1, Noop)
      else ((if graceful_stop_in_flight a key then on_state cancel_in_flight a1 else a1)
              |> on_state (set_phase Stopping) |> stop_pod_action key pod sb dl Forced).
Proof.
  unfold deadline_due, handle_deletion_deadline_due. rewrite fire_spec. intros Hdue.
  apply andb_true_iff in Hdue as [-> Hdue].
  destruct (deletion_deadline (a_state a)) as [d|]; [|done]. cbn [is_some_and] in Hdue. rewrite Hdue.
  exists d. cbv zeta. fold (mark_fired d).
  change (set_a_state (set_deletion_deadline (Some (mark_fired d)) (a_state a)) a)
    with (on_state (set_deletion_deadline (Some (mark_fired d))) a).
  set (a1 := on_state (set_deletion_deadline (Some (mark_fired d))) a).
  change (is_some_and (pending_stop_pod (a_state a1)) _ && kind_is (in_flight_kind a1 key) WkStopPod)
    with (graceful_stop_in_flight a key).
  change (in_flight (a_state a1)) with (in_flight (a_state a)). cbn [negb].
  destruct (negb (graceful_stop_in_flight a key) && _); [by exists None, "", None|].
  destruct (match opt_filter _ _ with Some _ => _ | None => _ end) as [[pod sb] dl].
  by exists pod, sb, dl.
Qed.

(** A deletion timer acts exactly when it is the armed generation of the
    served pod and has not fired.  It then marks the deadline fired, so that no
    later timer of this pod does anything, and forces the stop: at once when
    nothing is in flight, and by cancelling the graceful stop when that is what
    is in flight. *)
Theorem deletion_deadline_exact jts rfc now key g a :
  let '(b, act) := handle jts rfc now (DeletionDeadlineDue key g) a in
  if deadline_due a key g then
    (exists d, deletion_deadline (a_state b) = Some d /\ dd_fired d = true /\ dd_forced d = true)
    /\ (forall now' g', handle jts rfc now' (DeletionDeadlineDue key g') b = (b, Noop))
    /\ (if graceful_stop_in_flight a key || opt_is_none (in_flight (a_state a)) then
          (exists pod sb dl,
             act = StopPod key pod sb dl Forced (wrapping_add_u64 (operation_id (a_state a)) 1))
          /\ phase (a_state b) = Stopping
          /\ (graceful_stop_in_flight a key = true -> forall w, in_flight (a_state a) = Some w ->
              if_operation_id w ∈ cancelled_operations (a_state b))
        else act = Noop)
  else b = a /\ act = Noop.
Proof.
  unfold handle; cbn [handle_with]. destruct (deadline_due a key g) eqn:Hdue.
  2: { by rewrite not_due_noop. }
  destruct (due_decision key g a Hdue) as (d & pod & sb & dl & ->).
  assert (forall b, deletion_deadline (a_state b) = Some (mark_fired d) ->
            forall g', handle_deletion_deadline_due key g' b = (b, Noop)) as Hagain.
  { intros b Hb g'. apply not_due_noop. by eapply fired_not_due. }
  set (a1 := on_state _ a).
  destruct (negb _ && _) eqn:Hbusy.
  { to_prop. unfold opt_is_none. rewrite H, H0. split; [by exists (mark_fired d)|].
    split; [|done]. intros _ g'. by apply Hagain. }
  destruct (forced_stop_spec key (graceful_stop_in_flight a key) a1 (mark_fired d) eq_refl pod sb dl)
    as (H1 & H2 & H3 & H4).
  destruct (stop_pod_action _ _ _ _ _ _) as [b act]. cbn [fst snd] in *. subst act.
  split; [by exists (mark_fired d)|]. split; [auto|].
  replace (graceful_stop_in_flight a key || _) with true; [by eauto 6|].
  unfold opt_is_none. by destruct (graceful_stop_in_flight a key), (opt_is_some _).
Qed.

(** ** Replacement *)

Lemma pending_update_keeps key pod rv st s :
  let s' := update_pending_start_pod_if_newer key pod rv st s in
  slot_admission_waiting s' = slot_admission_waiting s /\ in_flight s' = in_flight s
  /\ active_uid s' = active_uid s /\ phase s' = phase s /\ pending_replacement s' = pending_replacement s.
Proof.
  unfold update_pending_start_pod_if_newer. cbv zeta.
  by destruct (match pending_start_pod s with Some _ => _ | None => _ end).
Qed.

Lemma admitted_starts jts key pod rv a :
  slot_admission_waiting (a_state a) = false -> in_flight (a_state a) = None ->
  let r := start_or_check_slot_admission jts key pod rv true a in
  active_uid (a_state r.1) = active_uid (a_state a) /\ phase (a_state r.1) = phase (a_state a)
  /\ pending_replacement (a_state r.1) = pending_replacement (a_state a)
  /\ exists op, r.2 = StartPod key (Some pod) op \/ r.2 = CheckSlotAdmission key pod rv true op.
Proof.
  intros Hw Hf. unfold start_or_check_slot_admission. cbv zeta.
  destruct (negb _); [by repeat split; eauto|]. destruct (_ =?os _); [by repeat split; eauto|].
  set (b := on_state _ a).
  destruct (pending_update_keeps key pod rv true (a_state a)) as (Hwb & Hfb & H1 & H2 & H3).
  destruct (pending_update_keeps key pod rv true (a_state b)) as (_ & _ & G1 & G2 & G3).
  change (slot_admission_waiting (a_state b) = slot_admission_waiting (a_state a)) in Hwb.
  change (in_flight (a_state b) = in_flight (a_state a)) in Hfb.
  rewrite Hwb, Hw. unfold in_flight_kind, in_flight_kind_for_uid. rewrite Hfb, Hf. cbn [orb].
  replace (kind_is _ _) with false by done.
  split_and!; [exact (eq_trans G1 H1) | exact (eq_trans G2 H2) | exact (eq_trans G3 H3)|].
  eexists. right. reflexivity.
Qed.

Lemma completion_accepts key op kind a :
  in_flight_matches (a_state a) (uid key) op kind = true ->
  completion_matches key op kind a = (on_state clear_in_flight a, true).
Proof.
  intros Hm. unfold completion_matches, complete_matching_work. rewrite Hm. cbn [negb].
  unfold in_flight_matches in Hm. destruct (in_flight (a_state a)) as [w|]; [|done].
  cbn [is_some_and] in *. to_prop. by rewrite H, String.eqb_refl.
Qed.

Lemma a_state_on_state f a : a_state (on_state f a) = f (a_state a).
Proof. done. Qed.

Lemma a_state_fingerprints v a :
  a_state (set_a_last_config_error_retry_fingerprint v a) = a_state a
  /\ a_state (set_a_last_start_pod_configuration_fingerprint v a) = a_state a.
Proof. done. Qed.

Lemma replaced_state u rv s :
  let s' := set_phase PendingStart (update_resource_version rv (admit_uid u s)) in
  slot_admission_waiting s' = false /\ in_flight s' = None /\ active_uid s' = Some u
  /\ phase s' = PendingStart /\ pending_replacement s' = None.
Proof.
  unfold update_resource_version.
  destruct (last_resource_version (admit_uid u s)) as [x|], rv as [y|]; try destruct (x <? y);
    split_and!; reflexivity.
Qed.

Lemma deletion_completed_starts jts p a :
  pending_replacement (a_state a) = Some p ->
  let r := finalize_pod_deletion_completed jts a in
  active_uid (a_state r.1) = Some (uid (pr_key p)) /\ phase (a_state r.1) = PendingStart
  /\ pending_replacement (a_state r.1) = None
  /\ exists op', r.2 = StartPod (pr_key p) (Some (pr_pod p)) op'
       \/ r.2 = CheckSlotAdmission (pr_key p) (pr_pod p) (pr_resource_version p) true op'.
Proof.
  intros Hp. unfold finalize_pod_deletion_completed. rewrite Hp.
  destruct (replaced_state (uid (pr_key p)) (pr_resource_version p) (set_pending_replacement None (a_state a)))
    as (H1 & H2 & H3 & H4 & H5).
  match goal with |- context [start_or_check_slot_admission jts ?k ?pod ?rv true ?c] =>
    pose proof (admitted_starts jts k pod rv c) as G;
    generalize dependent (start_or_check_slot_admission jts k pod rv true c) end.
  rewrite !(proj2 (a_state_fingerprints _ _)), !(proj1 (a_state_fingerprints _ _)), !a_state_on_state.
  intros r G. destruct (G H1 H2) as (-> & -> & -> & G4). auto.
Qed.

(** When the finalization of a deleted pod completes while another pod waits
    for the name, the waiting pod is admitted and started, or asks for its
    slot, in the same decision. *)
Theorem replacement_starts jts rfc now key op sb p a :
  in_flight_matches (a_state a) (uid key) op WkFinalizePodDeletion = true ->
  pending_replacement (a_state a) = Some p ->
  let '(b, act) := handle jts rfc now (PodWorkCompleted key op WkFinalizePodDeletion sb) a in
  active_uid (a_state b) = Some (uid (pr_key p)) /\ phase (a_state b) = PendingStart
  /\ pending_replacement (a_state b) = None
  /\ exists op', act = StartPod (pr_key p) (Some (pr_pod p)) op'
       \/ act = CheckSlotAdmission (pr_key p) (pr_pod p) (pr_resource_version p) true op'.
Proof.
  intros Hm Hp. unfold handle; cbn [handle_with]. unfold handle_work_completed.
  rewrite completion_accepts by done. cbn [negb].
  pose proof (deletion_completed_starts jts p (on_state clear_in_flight a) Hp) as H.
  by destruct (finalize_pod_deletion_completed jts _).
Qed.

(** ** Concrete runs *)

Definition old_key : PodLifecycleKey := mkKey "default" "web" "uid-old".
Definition new_key : PodLifecycleKey := mkKey "default" "web" "uid-new".

Definition bound_pod (metadata : list (string * Value)) : Value :=
  Object [("metadata", Object metadata); ("spec", Object [("nodeName", Str "node-1")])].
Definition live_pod : Value := bound_pod [].
Definition terminating_pod : Value :=
  bound_pod [("deletionTimestamp", Str "2026-01-01T00:00:30Z")].

(** From a fresh actor to the graceful stop of a pod that had been started:
    operations 1 to 4 are the leftover reconcile, the slot check, the start and
    the stop. *)
Definition until_stop : list (Z * LifecycleMessage) :=
  [(0, WatchAdded old_key (Some 1) live_pod);
   (0, PodWorkCompleted old_key 1 WkReconcileCriLeftovers None);
   (0, SlotAdmissionGranted old_key 2 live_pod (Some 1) true);
   (0, WatchModified old_key (Some 2) terminating_pod)].

(** A lifecycle command is dispatched even while the stop of the pod is in
    flight, and takes its place in the record.  The deletion timer that comes
    next is spent without forcing the stop, and the results of both operations
    leave the actor stopping with nothing in flight, its deadline fired and no
    finalization dispatched. *)
Theorem command_strands_stop jts rfc :
  let '(a, acts) := run jts rfc
    (until_stop ++
     [(0, LifecycleCommandMsg old_key (ReadinessChanged "uid-old" "default" "web" "app" false));
      (31, DeletionDeadlineDue old_key 1);
      (32, PodWorkCompleted old_key 5 WkHandleCommand None);
      (33, PodWorkCompleted old_key 4 WkStopPod None)]) (actor_new (Some "node-1")) in
  dispatched acts = [1; 2; 3; 4; 5]
  /\ expected_completion <$> drop 3 acts = [Some WkStopPod; Some WkHandleCommand; None; None; None]
  /\ phase (a_state a) = Stopping /\ active_uid (a_state a) = Some "uid-old"
  /\ in_flight (a_state a) = None
  /\ dd_fired <$> deletion_deadline (a_state a) = Some true.
Proof. vm_compute. repeat split. Qed.

(** A runtime event of a pod whose stop has completed admits that pod again.
    The replacement that was waiting for the name is forgotten, and the result
    of the finalization, no longer in flight, does not start it. *)
Theorem late_event_drops_replacement jts rfc :
  let '(a, acts) := run jts rfc
    (until_stop ++
     [(1, WatchAdded new_key (Some 3) live_pod);
      (2, PodWorkCompleted old_key 4 WkStopPod None);
      (3, CriEvent old_key "container-1" EvStopped);
      (4, PodWorkCompleted old_key 5 WkFinalizePodDeletion None)]) (actor_new (Some "node-1")) in
  expected_completion <$> drop 3 acts
  = [Some WkStopPod; None; Some WkFinalizePodDeletion; Some WkReconcileRuntime; None]
  /\ active_uid (a_state a) = Some "uid-old" /\ pending_replacement (a_state a) = None.
Proof. vm_compute. repeat split. Qed.

Lemma operations_sequential_witness :
  let r := run (fun _ => "") (fun _ => Some 30) until_stop (actor_new (Some "node-1")) in
  dispatched r.2 = [1; 2; 3; 4] /\ NoDup (dispatched r.2).
Proof.
  split; [by vm_compute|].
  eapply (operations_sequential (fun _ => "") (fun _ => Some 30) until_stop (actor_new (Some "node-1")));
    [by split | done | by vm_compute | apply surjective_pairing].
Defined.

Lemma result_accepted_once_witness :
  let jts := fun _ : Value => "" in
  let rfc := fun _ : string => Some 30 in
  let a := (run jts rfc until_stop (actor_new (Some "node-1"))).1 in
  let fin := PodWorkCompleted old_key 4 WkStopPod None in
  let b := (handle jts rfc 1 fin a).1 in
  let c := (run jts rfc [(2, RetryDue old_key)] b).1 in
  handle jts rfc 3 fin c = (c, Noop).
Proof.
  intros jts rfc a fin b c.
  apply (result_accepted_once jts rfc 1 fin old_key 4 WkStopPod a b
           (handle jts rfc 1 fin a).2 [(2, RetryDue old_key)] c
           (run jts rfc [(2, RetryDue old_key)] b).2 3 fin old_key WkStopPod).
  - split; [by vm_compute|]. intros w E. vm_compute in E. by injection E as <-.
  - by vm_compute.
  - by vm_compute.
  - reflexivity.
  - by vm_compute.
  - apply surjective_pairing.
  - apply surjective_pairing.
  - reflexivity.
Defined.


Lemma replacement_starts_witness :
  let jts := fun _ : Value => "" in
  let rfc := fun _ : string => Some 30 in
  let a := (run jts rfc (until_stop ++ [(1, WatchAdded new_key (Some 3) live_pod);
              (2, PodWorkCompleted old_key 4 WkStopPod None)]) (actor_new (Some "node-1"))).1 in
  let r := handle jts rfc 3 (PodWorkCompleted old_key 5 WkFinalizePodDeletion None) a in
  active_uid (a_state r.1) = Some "uid-new".
Proof.
  intros jts rfc a.
  pose proof (replacement_starts jts rfc 3 old_key 5 None
                (mkPendingReplacement new_key live_pod (Some 3)) a) as H.
  destruct (handle jts rfc 3 _ a) as [b act]. apply H; by vm_compute.
Defined.
