(* ===== verification/WorkQueue.v ===== *)
(** * Controller work queue and dispatcher

    [klights-controllers/src/workqueue.rs] and
    [klights-controllers/src/dispatcher_runtime.rs]: the deduplicating queue
    with delayed retries, and the dispatcher that serialises the reconciles of
    one key.

    The code is concurrent: producers, timers and workers take the locks of the
    queue one at a time.  A state is the contents behind the locks together with
    the tasks that are between two of their locked sections, and a step is one
    locked section.  Which task moves next, which ready key a worker takes, how
    a reconcile ends and whether a timer can be spawned are the choices of the
    [Label]s, so a list of labels is one interleaving. *)

From S2P Require Import Prelude.
Open Scope Z_scope.

(** ** Data *)

Record ReconcileKey := mkReconcileKey {
  rk_api_version : string; rk_kind : string; rk_namespace : option string; rk_name : string
}.

#[export] Instance reconcile_key_eq_dec : EqDecision ReconcileKey.
Proof. solve_decision. Defined.

#[export] Instance reconcile_key_countable : Countable ReconcileKey.
Proof.
  refine (inj_countable'
            (fun k => (rk_api_version k, rk_kind k, rk_namespace k, rk_name k))
            (fun '(a, k, ns, n) => mkReconcileKey a k ns n) _).
  by intros [].
Defined.

Abbreviation Key := ReconcileKey.

Definition controller_kinds : list (string * string) :=
  [("apps/v1", "Deployment"); ("apps/v1", "ReplicaSet"); ("apps/v1", "StatefulSet");
   ("apps/v1", "DaemonSet"); ("batch/v1", "Job"); ("v1", "Service");
   ("v1", "PersistentVolumeClaim"); ("v1", "ReplicationController");
   ("policy/v1", "PodDisruptionBudget"); ("autoscaling/v1", "HorizontalPodAutoscaler");
   ("autoscaling/v2", "HorizontalPodAutoscaler"); ("apiregistration.k8s.io/v1", "APIService");
   ("certificates.k8s.io/v1", "CertificateSigningRequest")].

Definition controller_kind_static (api_version kind : string) : option (string * string) :=
  if decide ((api_version, kind) ∈ controller_kinds) then Some (api_version, kind) else None.

(** Milliseconds; an attempt past the end keeps the last step. *)
Definition backoff_steps_ms : list Z := [250; 500; 1000; 2000; 5000; 10000; 30000].

Definition backoff_for (attempt : Z) : Z :=
  nth (Nat.min (Z.to_nat attempt) (length backoff_steps_ms - 1)) backoff_steps_ms 0.

Definition MAX_RETRY_ATTEMPTS : Z := 7.

(** What is behind the locks. *)
Record Shared := mkShared {
  ready : gset Key;
  delayed_generations : gmap Key Z;
  next_gen : Z;
  retry_count : gmap Key Z;
  in_flight : gset Key;
  pending_followup : gset Key
}.

Definition shared_new : Shared := mkShared ∅ ∅ 1 ∅ ∅ ∅.

Definition fetch_gen (s : Shared) : Shared * Z :=
  (mkShared (ready s) (delayed_generations s) (wrapping_add_u64 (next_gen s) 1) (retry_count s)
     (in_flight s) (pending_followup s), next_gen s).

Definition with_ready (r : gset Key) (s : Shared) : Shared :=
  mkShared r (delayed_generations s) (next_gen s) (retry_count s) (in_flight s) (pending_followup s).
Definition with_gens (g : gmap Key Z) (s : Shared) : Shared :=
  mkShared (ready s) g (next_gen s) (retry_count s) (in_flight s) (pending_followup s).
Definition with_counts (c : gmap Key Z) (s : Shared) : Shared :=
  mkShared (ready s) (delayed_generations s) (next_gen s) c (in_flight s) (pending_followup s).
Definition with_active (i f : gset Key) (s : Shared) : Shared :=
  mkShared (ready s) (delayed_generations s) (next_gen s) (retry_count s) i f.

(** ** Locked sections *)

(** [add]: the first section, then the second. *)
Definition add_ready (k : Key) (s : Shared) : Shared := with_ready ({[k]} ∪ ready s) s.

Definition add_generation (k : Key) (s : Shared) : Shared :=
  let '(s, g) := fetch_gen s in with_gens (<[k := g]> (delayed_generations s)) s.

Definition add_batch (keys : list Key) (s : Shared) : Shared :=
  fold_left (fun s k => add_generation k (add_ready k s)) keys s.

Definition add_after_insert (k : Key) (g : Z) (s : Shared) : Shared :=
  with_gens (<[k := g]> (delayed_generations s)) s.

(** The timer body: [true] when it goes on to [add]. *)
Definition timer_fire (k : Key) (g : Z) (s : Shared) : Shared * bool :=
  if decide (delayed_generations s !! k = Some g)
  then (with_gens (delete k (delayed_generations s)) s, true) else (s, false).

Definition take (k : Key) (s : Shared) : Shared := with_ready (ready s ∖ {[k]}) s.

Definition record_success (k : Key) (s : Shared) : Shared := with_counts (delete k (retry_count s)) s.

(** The section of [requeue_with_backoff]: the delay to wait, or [None] when the
    key is dropped. *)
Definition requeue_with_backoff (k : Key) (s : Shared) : Shared * option Z :=
  let attempt := unwrap_or 0 (retry_count s !! k) in
  if MAX_RETRY_ATTEMPTS <=? attempt then (with_counts (delete k (retry_count s)) s, None)
  else (with_counts (<[k := attempt + 1]> (retry_count s)) s, Some (backoff_for attempt)).

Definition begin_key_dispatch (k : Key) (s : Shared) : Shared * bool :=
  if decide (k ∈ in_flight s)
  then (with_active (in_flight s) ({[k]} ∪ pending_followup s) s, false)
  else (with_active ({[k]} ∪ in_flight s) (pending_followup s) s, true).

(** [true] when the key is to be added again. *)
Definition finish_key_dispatch (k : Key) (s : Shared) : Shared * bool :=
  (with_active (in_flight s ∖ {[k]}) (pending_followup s ∖ {[k]}) s,
   bool_decide (k ∈ pending_followup s)).

(** ** Tasks and interleavings *)

Inductive Task :=
| Adding (k : Key)                    (* in [add], before the generation is bumped *)
| Readding (k : Key)                  (* about to call [add]: a timer that hit, or a follow-up *)
| AfterFetched (k : Key) (g : Z)      (* in a producer's [add_after], holding its generation *)
| Timer (k : Key) (g : Z)             (* a spawned delay *)
| Taken (k : Key)                     (* a worker that has taken a key *)
| Waiting (k : Key)                   (* in [wait_for_key_dispatch_slot] *)
| Dispatching (k : Key)               (* in the reconcile *)
| Backoff (k : Key)                   (* after a failure, about to call [add_after] *)
| BackoffFetched (k : Key) (g : Z)    (* the same, holding its generation *)
| Finishing (k : Key).                (* about to call [finish_key_dispatch] *)

(** [owed] is not in the code: the keys made ready since their last dispatch
    began. *)
Record World := mkWorld { shared : Shared; tasks : list Task; owed : gset Key }.

Definition world_new : World := mkWorld shared_new [] ∅.

Inductive Label :=
| LAdd (k : Key)
| LAddBatch (keys : list Key)
| LAddAfter (k : Key)
| LTake (k : Key)
| LWait (k : Key)
| LTask (i : nat) (choice : bool).

(** One task moves: the contents it leaves, the tasks that take its place, and
    the keys owed.  [choice] is the result of the reconcile, or whether the
    supervisor accepts the timer. *)
Definition advance (t : Task) (choice : bool) (s : Shared) (o : gset Key)
  : option (Shared * list Task * gset Key) :=
  match t with
  | Adding k => Some (add_generation k s, [], o)
  | Readding k => Some (add_ready k s, [Adding k], {[k]} ∪ o)
  | AfterFetched k g => Some (add_after_insert k g s, if choice then [Timer k g] else [], o)
  | Timer k g =>
      let '(s, hit) := timer_fire k g s in Some (s, if hit then [Readding k] else [], o)
  | Taken k =>
      let '(s, started) := begin_key_dispatch k s in
      Some (s, if started then [Dispatching k] else [], if started then o ∖ {[k]} else o)
  | Waiting k =>
      if decide (k ∈ in_flight s) then None
      else Some (with_active ({[k]} ∪ in_flight s) (pending_followup s) s, [Dispatching k], o ∖ {[k]})
  | Dispatching k =>
      if choice then Some (record_success k s, [Finishing k], o)
      else let '(s, delay) := requeue_with_backoff k s in
           Some (s, match delay with Some _ => [Backoff k] | None => [Finishing k] end, o)
  | Backoff k => let '(s, g) := fetch_gen s in Some (s, [BackoffFetched k g], o)
  | BackoffFetched k g =>
      Some (add_after_insert k g s, if choice then [Finishing k; Timer k g] else [Finishing k], o)
  | Finishing k =>
      let '(s, again) := finish_key_dispatch k s in Some (s, if again then [Readding k] else [], o)
  end.

Definition exec (l : Label) (w : World) : option World :=
  match l with
  | LAdd k => Some (mkWorld (add_ready k (shared w)) (Adding k :: tasks w) ({[k]} ∪ owed w))
  | LAddBatch keys => Some (mkWorld (add_batch keys (shared w)) (tasks w) (list_to_set keys ∪ owed w))
  | LAddAfter k => let '(s, g) := fetch_gen (shared w) in
                   Some (mkWorld s (AfterFetched k g :: tasks w) (owed w))
  | LTake k => if decide (k ∈ ready (shared w))
               then Some (mkWorld (take k (shared w)) (Taken k :: tasks w) (owed w)) else None
  | LWait k => Some (mkWorld (shared w) (Waiting k :: tasks w) (owed w))
  | LTask i choice =>
      t ← tasks w !! i;
      '(s, ts, o) ← advance t choice (shared w) (owed w);
      Some (mkWorld s (ts ++ delete i (tasks w)) o)
  end.

Fixpoint run (ls : list Label) (w : World) : option World :=
  match ls with
  | [] => Some w
  | l :: ls' => w' ← exec l w; run ls' w'
  end.

(** ** Serialisation and no lost key *)

(** The tasks inside the reconcile of a key. *)
Definition active_key (t : Task) : option Key :=
  match t with
  | Dispatching k | Backoff k | BackoffFetched k _ | Finishing k => Some k
  | _ => None
  end.

(** The tasks that still have to hand a key to a reconcile. *)
Definition carried_key (t : Task) : option Key :=
  match t with Taken k | Readding k => Some k | _ => None end.

Record world_inv (w : World) : Prop := {
  inv_serial : NoDup (omap active_key (tasks w));
  inv_in_flight : forall k, k ∈ in_flight (shared w) <-> k ∈ omap active_key (tasks w);
  inv_followup : pending_followup (shared w) ⊆ in_flight (shared w);
  inv_owed : forall k, k ∈ owed w ->
    k ∈ ready (shared w) \/ k ∈ pending_followup (shared w) \/ k ∈ omap carried_key (tasks w)
}.

Lemma add_batch_spec keys s :
  ready (add_batch keys s) = list_to_set keys ∪ ready s
  /\ in_flight (add_batch keys s) = in_flight s
  /\ pending_followup (add_batch keys s) = pending_followup s.
Proof.
  revert s. induction keys as [|k keys IH]; intros s; [cbn; split_and!; set_solver|].
  destruct (IH (add_generation k (add_ready k s))) as (H1 & H2 & H3).
  unfold add_batch in *. cbn [fold_left]. rewrite H1, H2, H3. cbn. split_and!; set_solver.
Qed.

(** The tasks with the moving one in front. *)
Lemma tasks_split i ts (t : Task) : ts !! i = Some t -> ts ≡ₚ t :: delete i ts.
Proof. apply delete_Permutation. Qed.

Lemma inv_perm s ts ts' o : ts ≡ₚ ts' -> world_inv (mkWorld s ts o) -> world_inv (mkWorld s ts' o).
Proof.
  intros Hp [H1 H2 H3 H4]. split; cbn in *.
  - by rewrite <-Hp.
  - intros k. by rewrite <-Hp.
  - done.
  - intros k Hk. rewrite <-Hp. auto.
Qed.

Ltac inv_cases :=
  repeat match goal with
         | |- NoDup (_ :: _) => apply NoDup_cons; split
         | H : NoDup (_ :: _) |- _ => apply NoDup_cons in H as [? ?]
         end; try done.

Lemma advance_inv t c s o s' new o' rest :
  world_inv (mkWorld s (t :: rest) o) -> advance t c s o = Some (s', new, o') ->
  world_inv (mkWorld s' (new ++ rest) o').
Proof.
  intros [H1 H2 H3 H4] E. cbn [shared tasks owed] in *.
  destruct t; cbn [advance] in E; unfold timer_fire, begin_key_dispatch, requeue_with_backoff,
    finish_key_dispatch, fetch_gen in E; repeat case_match; simplify_eq.
  all: csimpl in *; split; csimpl; inv_cases.
  all: try (intros k'; specialize (H2 k'); specialize (H4 k')).
  all: rewrite ?bool_decide_eq_true, ?bool_decide_eq_false in *.
  all: try set_solver.
Qed.

Lemma exec_inv l w w' : world_inv w -> exec l w = Some w' -> world_inv w'.
Proof.
  intros Hinv E. destruct w as [s ts o]. destruct l; cbn [exec] in E.
  6: { destruct (tasks _ !! i) as [t|] eqn:Ht; [|done]. cbn in E, Ht.
       destruct (advance t choice s o) as [[[s' new] o']|] eqn:Ea; [|done]. cbn in E. simplify_eq.
       eapply advance_inv; [|exact Ea]. eapply inv_perm; [|exact Hinv]. by apply tasks_split. }
  all: destruct Hinv as [H1 H2 H3 H4]; cbn in *; repeat case_match; simplify_eq; split; csimpl; try done.
  all: try match goal with |- context [add_batch ?ks ?s] =>
         destruct (add_batch_spec ks s) as (B1 & B2 & B3); rewrite ?B1, ?B2, ?B3; try done end.
  all: intros k' Hk; specialize (H4 k'); clear H1 H2 H3.
  - set_solver.
  - clear B1 B2 B3. set_solver.
  - clear H. destruct (decide (k' = k)) as [->|]; set_solver.
Qed.

Lemma run_inv ls w w' : world_inv w -> run ls w = Some w' -> world_inv w'.
Proof.
  revert w. induction ls as [|l ls IH]; intros w Hw E; cbn in E; [by simplify_eq|].
  destruct (exec l w) eqn:El; [|done]. eauto using exec_inv.
Qed.

Lemma world_new_inv : world_inv world_new.
Proof. split; cbn; [apply NoDup_nil_2 | set_solver..]. Qed.

(** C37. Over every interleaving of producers, timers and workers, no two
    reconciles of one key run at the same time, and the keys marked in flight
    are exactly those being reconciled. *)
Theorem reconciles_serialised ls w :
  run ls world_new = Some w ->
  NoDup (omap active_key (tasks w))
  /\ (forall k, k ∈ in_flight (shared w) <-> k ∈ omap active_key (tasks w)).
Proof. intros E. by destruct (run_inv _ _ _ world_new_inv E). Qed.

(** ** Every key made ready can still be reconciled *)

(** [k] can be dispatched from here: some interleaving begins a reconcile. *)
Definition dispatchable (k : Key) (w : World) : Prop :=
  exists ls w', run ls w = Some w' /\ k ∉ owed w' /\ Dispatching k ∈ tasks w'.

Lemma dispatchable_step l k w w' : exec l w = Some w' -> dispatchable k w' -> dispatchable k w.
Proof. intros E (ls & w'' & H & ?). exists (l :: ls), w''. cbn. rewrite E. auto. Qed.

(** Move the given task. *)
Lemma dispatchable_task t c k w s new o :
  t ∈ tasks w -> advance t c (shared w) (owed w) = Some (s, new, o) ->
  (forall rest, dispatchable k (mkWorld s (new ++ rest) o)) -> dispatchable k w.
Proof.
  intros [i Hi]%list_elem_of_lookup_1 Ha Hd.
  eapply (dispatchable_step (LTask i c)); [|apply (Hd (delete i (tasks w)))].
  cbn. by rewrite Hi; cbn; rewrite Ha.
Qed.

Lemma taken_dispatchable k w :
  Taken k ∈ tasks w -> k ∉ in_flight (shared w) -> dispatchable k w.
Proof.
  intros Ht Hf. eapply (dispatchable_task (Taken k) true); [done| |].
  - cbn. unfold begin_key_dispatch. by rewrite decide_False.
  - intros rest. eexists [], _. split; [done|]. cbn. split; [set_solver | left].
Qed.

Lemma ready_dispatchable k w :
  k ∈ ready (shared w) -> k ∉ in_flight (shared w) -> dispatchable k w.
Proof.
  intros Hr Hf. eapply (dispatchable_step (LTake k)); [cbn; by rewrite decide_True|].
  apply taken_dispatchable; [left | done].
Qed.

Lemma readding_dispatchable k w :
  Readding k ∈ tasks w -> k ∉ in_flight (shared w) -> dispatchable k w.
Proof.
  intros Ht Hf. eapply (dispatchable_task (Readding k) true); [done | done|].
  intros rest. apply ready_dispatchable; cbn; [set_solver | done].
Qed.

(** A follow-up is picked up when the running reconcile ends, however it ends. *)
Lemma followup_dispatchable k w t :
  t ∈ tasks w -> active_key t = Some k -> k ∈ pending_followup (shared w) -> dispatchable k w.
Proof.
  assert (forall w, Finishing k ∈ tasks w -> k ∈ pending_followup (shared w) -> dispatchable k w) as Hfin.
  { intros v Ht Hp. eapply (dispatchable_task (Finishing k) true); [done | done|].
    intros rest. rewrite bool_decide_true by done. apply readding_dispatchable; [left | cbn; set_solver]. }
  assert (forall w g, BackoffFetched k g ∈ tasks w -> k ∈ pending_followup (shared w) -> dispatchable k w)
    as Hfetched.
  { intros v g Ht Hp. eapply (dispatchable_task (BackoffFetched k g) true); [done | done|].
    intros rest. apply Hfin; [left | done]. }
  intros Ht Hk Hp. destruct t; simplify_eq/=.
  - eapply (dispatchable_task (Dispatching k) true); [done | done|]. intros rest. apply Hfin; [left | done].
  - eapply (dispatchable_task (Backoff k) true); [done | done|]. intros rest.
    eapply Hfetched; [left | done].
  - eauto.
  - eauto.
Qed.

(** A taken key whose reconcile is running becomes its follow-up. *)
Lemma taken_running_dispatchable k w :
  world_inv w -> Taken k ∈ tasks w -> dispatchable k w.
Proof.
  intros Hinv Ht. destruct (decide (k ∈ in_flight (shared w))) as [Hf|]; [|by apply taken_dispatchable].
  pose proof (proj1 (inv_in_flight _ Hinv k) Hf) as (t & Hin & Hk)%list_elem_of_omap.
  pose proof Ht as [i Hi]%list_elem_of_lookup_1.
  eapply (dispatchable_step (LTask i true)).
  - cbn. rewrite Hi. cbn. unfold begin_key_dispatch. by rewrite decide_True.
  - eapply (followup_dispatchable k _ t); [|done | cbn; set_solver].
    rewrite (tasks_split _ _ _ Hi) in Hin. cbn. apply elem_of_cons in Hin as [->|]; done.
Qed.

Lemma ready_running_dispatchable k w : world_inv w -> k ∈ ready (shared w) -> dispatchable k w.
Proof.
  intros Hinv Hr. assert (exec (LTake k) w = Some (mkWorld (take k (shared w)) (Taken k :: tasks w) (owed w)))
    as E by (cbn; by rewrite decide_True).
  eapply dispatchable_step; [exact E|].
  apply taken_running_dispatchable; [by eapply exec_inv | left].
Qed.


(** ** Retries *)

(** Consecutive failures of one key. *)
Fixpoint failures (n : nat) (k : Key) (s : Shared) : Shared * list (option Z) :=
  match n with
  | O => (s, [])
  | S n' => let '(s1, d) := requeue_with_backoff k s in
            let '(s2, ds) := failures n' k s1 in (s2, d :: ds)
  end.

Lemma requeue_below k n n' c s :
  (n <? MAX_RETRY_ATTEMPTS) = true -> n' = n + 1 ->
  requeue_with_backoff k (with_counts (<[k := n]> c) s)
  = (with_counts (<[k := n']> c) s, Some (backoff_for n)).
Proof.
  intros Hn ->. unfold requeue_with_backoff. cbn [retry_count with_counts].
  rewrite lookup_insert_eq, unwrap_or_Some, insert_insert_eq. rewrite Z.ltb_antisym in Hn.
  apply negb_true_iff in Hn. by rewrite Hn.
Qed.

Lemma requeue_last k c s :
  c !! k = None ->
  requeue_with_backoff k (with_counts (<[k := MAX_RETRY_ATTEMPTS]> c) s) = (with_counts c s, None).
Proof.
  intros Hk. unfold requeue_with_backoff. cbn [retry_count with_counts].
  rewrite lookup_insert_eq, unwrap_or_Some, Z.leb_refl. by rewrite delete_insert_eq, delete_id.
Qed.

(** A key with no failures behind it is retried seven times, after the
    documented delays, and dropped at the eighth failure with its counter
    cleared; the counters of other keys are not touched. *)
Theorem retry_schedule k s :
  retry_count s !! k = None ->
  failures 8 k s
  = (s, [Some 250; Some 500; Some 1000; Some 2000; Some 5000; Some 10000; Some 30000; None]).
Proof.
  intros Hk. cbn [failures].
  assert (requeue_with_backoff k s = (with_counts (<[k := 1]> (retry_count s)) s, Some 250)) as ->.
  { unfold requeue_with_backoff. by rewrite Hk. }
  rewrite (requeue_below k 1 2) by reflexivity. rewrite (requeue_below k 2 3) by reflexivity.
  rewrite (requeue_below k 3 4) by reflexivity. rewrite (requeue_below k 4 5) by reflexivity.
  rewrite (requeue_below k 5 6) by reflexivity. rewrite (requeue_below k 6 7) by reflexivity.
  change 7 with MAX_RETRY_ATTEMPTS. rewrite requeue_last by done. by destruct s.
Qed.

Definition web_key : Key := mkReconcileKey "apps/v1" "Deployment" (Some "default") "web".

Lemma retry_schedule_witness :
  (failures 8 web_key shared_new).2
  = [Some 250; Some 500; Some 1000; Some 2000; Some 5000; Some 10000; Some 30000; None].
Proof. by rewrite (retry_schedule web_key shared_new eq_refl). Defined.

(** A retry can be lost.  When a worker takes and fails a key between the
    two sections of the [add] that made it ready, the second section bumps the
    generation past that of the retry, whose timer then does nothing: the queue
    is empty, nothing is running and the failed key is not retried. *)
Theorem retry_lost :
  match run [LAdd web_key; LTake web_key; LTask 0 true; LTask 0 false; LTask 0 true; LTask 0 true;
             LTask 2 true; LTask 0 true; LTask 0 true] world_new with
  | Some w => tasks w = [] /\ elements (ready (shared w)) = [] /\ elements (pending_followup (shared w)) = []
              /\ retry_count (shared w) !! web_key = Some 1
  | None => False
  end.
Proof. vm_compute. repeat split. Qed.

(** The generation recorded for a key outlives its reconcile: an idle queue
    keeps an entry for a key that was added once, reconciled, and has no retry
    pending. *)
Theorem idle_queue_keeps_generation :
  match run [LAdd web_key; LTask 0 true; LTake web_key; LTask 0 true; LTask 0 true; LTask 0 true]
          world_new with
  | Some w => tasks w = [] /\ elements (ready (shared w)) = []
              /\ delayed_generations (shared w) !! web_key = Some 1
  | None => False
  end.
Proof. vm_compute. repeat split. Qed.

Lemma reconciles_serialised_witness :
  match run [LAdd web_key; LTake web_key; LTask 0 true] world_new with
  | Some w => NoDup (omap active_key (tasks w))
  | None => False
  end.
Proof.
  destruct (run _ world_new) as [w|] eqn:E.
  - exact (proj1 (reconciles_serialised _ w E)).
  - apply (f_equal opt_is_some) in E. vm_compute in E. discriminate E.
Defined.

(** The key is made ready again while its reconcile runs, and taken by another
    worker. *)
Definition busy_run : list Label :=
  [LAdd web_key; LTake web_key; LTask 0 true; LAdd web_key; LTake web_key; LTask 0 true].

