(* ===== verification/StaleResource.v ===== *)
(** * Stale full-resource applies

    [klights-cluster-core/src/stale_resource.rs]: when a committed write arrives
    for an object that is already stored under the same UID at another version,
    the fields that live actors own are kept.  The mutation of [incoming] in
    place is a function from its old to its new value. *)

From S2P Require Import Prelude Text Json.
Open Scope Z_scope.

(** ** Model *)

Definition is_pod (api_version kind : string) : bool := (api_version =?s "v1") && (kind =?s "Pod").

Definition non_empty_str (s : string) : bool := negb (is_empty s).
Definition non_blank_str (s : string) : bool := negb (is_empty (trim s)).

(** [incoming.get_mut("metadata").and_then(as_object_mut)], and what is done
    with it. *)
Definition with_metadata (f : Map -> Map) (v : Value) : Value := get_mut "metadata" (map_object f) v.

Definition merge_finalizers (merged existing : list Value) : list Value :=
  fold_left (fun merged f => if existsb (fun value => value_eqb value f) merged then merged
                             else (merged ++ [f])%list) existing merged.

Definition preserve_finalizers_for_stale_put (api_version kind : string) (incoming existing : Value)
  : Value :=
  if is_pod api_version kind then incoming
  else match pointer_array ["metadata"; "finalizers"] existing with
       | None | Some [] => incoming
       | Some existing_finalizers =>
           with_metadata (fun metadata =>
             let merged := unwrap_or [] (v ← obj_get "finalizers" metadata; as_array v) in
             obj_insert "finalizers" (Array (merge_finalizers merged existing_finalizers)) metadata) incoming
       end.

Definition preserve_pod_node_for_stale_put (api_version kind : string) (incoming existing : Value) : Value :=
  if negb (is_pod api_version kind) then incoming
  else match opt_filter non_empty_str (pointer_str ["spec"; "nodeName"] existing) with
       | None => incoming
       | Some existing_node =>
           if opt_filter non_empty_str (pointer_str ["spec"; "nodeName"] incoming) =?os Some existing_node
           then incoming
           else map_object (fun object =>
                  obj_alter (map_object (obj_insert "nodeName" (Str existing_node))) "spec"
                    (obj_or_insert "spec" (Object []) object)) incoming
       end.

Definition has_deletion_timestamp (data : Value) : bool :=
  opt_is_some (opt_filter (fun v => is_none_or (as_str v) non_blank_str)
                 (opt_filter (fun v => negb (is_null v)) (pointer ["metadata"; "deletionTimestamp"] data))).

Definition preserve_pod_status_for_stale_main_put (api_version kind : string) (incoming existing : Value)
  : Value :=
  if negb (is_pod api_version kind) || has_deletion_timestamp incoming then incoming
  else map_object (fun object =>
         match get "status" existing with
         | Some existing_status => obj_insert "status" existing_status object
         | None => obj_remove "status" object
         end) incoming.

Definition condition_type_is (t : string) (condition : Value) : bool :=
  pointer_str ["type"] condition =?os Some t.

Definition scheduled_condition (existing : Value) : Value :=
  let found :=
    conditions ← pointer_array ["status"; "conditions"] existing;
    List.find (fun c => condition_type_is "PodScheduled" c && (pointer_str ["status"] c =?os Some "True"))
      conditions in
  map_object (fun scheduled =>
    obj_or_insert "reason" (Str "PodScheduled")
      (obj_insert "status" (Str "True") (obj_insert "type" (Str "PodScheduled") scheduled)))
    (unwrap_or (Object [("reason", Str "PodScheduled"); ("status", Str "True"); ("type", Str "PodScheduled")])
       found).

(** The status of a bound pod, with the one condition replaced. *)
Definition schedule_status (scheduled : Value) (status : Map) : Map :=
  let status := obj_or_insert "conditions" (Array []) (obj_remove "nominatedNodeName" status) in
  obj_alter (fun conditions =>
    let conditions := unwrap_or [] (as_array conditions) in
    Array (List.filter (fun c => negb (condition_type_is "PodScheduled" c)) conditions ++ [scheduled])%list)
    "conditions" status.

Definition preserve_pod_scheduled_true_for_stale_bound_put (api_version kind : string)
    (incoming existing : Value) : Value :=
  if negb (is_pod api_version kind) then incoming
  else if negb (is_some_and (pointer_str ["spec"; "nodeName"] incoming) non_blank_str) then incoming
  else map_object (fun object =>
         obj_alter (fun status =>
           Object (schedule_status (scheduled_condition existing) (unwrap_or [] (as_object status))))
           "status" (obj_or_insert "status" (Object []) object)) incoming.

Inductive OwnerReferenceIdentity :=
| OwnerUid (uid : string)
| OwnerApiKindName (api_version kind name : string).

#[export] Instance owner_identity_eq_dec : EqDecision OwnerReferenceIdentity.
Proof. solve_decision. Defined.

Definition owner_reference_identity (owner_ref : Value) : option OwnerReferenceIdentity :=
  match opt_filter non_blank_str (get_str "uid" owner_ref) with
  | Some uid => Some (OwnerUid uid)
  | None =>
      api_version ← opt_filter non_blank_str (get_str "apiVersion" owner_ref);
      kind ← opt_filter non_blank_str (get_str "kind" owner_ref);
      name ← opt_filter non_blank_str (get_str "name" owner_ref);
      Some (OwnerApiKindName api_version kind name)
  end.

(** The loop over the existing references: the identities seen and the merged
    list. *)
Definition merge_owner_ref (acc : list OwnerReferenceIdentity * list Value) (owner_ref : Value)
  : list OwnerReferenceIdentity * list Value :=
  let '(identities, merged) := acc in
  match owner_reference_identity owner_ref with
  | Some owner => if decide (owner ∈ identities) then acc
                  else (owner :: identities, (merged ++ [owner_ref])%list)
  | None => acc
  end.

Definition preserve_pod_owner_refs_for_stale_put (api_version kind : string) (incoming existing : Value)
  : Value :=
  if negb (is_pod api_version kind) then incoming
  else match pointer_array ["metadata"; "ownerReferences"] existing with
       | None | Some [] => incoming
       | Some existing_owner_refs =>
           match pointer_array ["metadata"; "ownerReferences"] incoming with
           | None => with_metadata (obj_insert "ownerReferences" (Array existing_owner_refs)) incoming
           | Some [] => incoming
           | Some incoming_owner_refs =>
               let identities := omap owner_reference_identity incoming_owner_refs in
               with_metadata (obj_insert "ownerReferences"
                 (Array (fold_left merge_owner_ref existing_owner_refs (identities, incoming_owner_refs)).2))
                 incoming
           end
       end.

Definition merge_missing_entries (existing_entries entries : Map) : Map :=
  fold_left (fun entries kv => obj_or_insert kv.1 kv.2 entries) existing_entries entries.

Definition merge_missing_metadata_map_entries (data existing : Value) (field : string) : Value :=
  match pointer_object ["metadata"; field] existing with
  | None | Some [] => data
  | Some existing_entries =>
      with_metadata (fun metadata =>
        obj_alter (map_object (merge_missing_entries existing_entries)) field
          (obj_or_insert field (Object []) metadata)) data
  end.

Definition preserve_storage_user_metadata_for_stale_put (api_version kind : string)
    (incoming existing : Value) : Value :=
  if negb (api_version =?s "v1") || negb ((kind =?s "PersistentVolume") || (kind =?s "PersistentVolumeClaim"))
  then incoming
  else merge_missing_metadata_map_entries
         (merge_missing_metadata_map_entries incoming existing "labels") existing "annotations".

Definition apply_same_uid_stale_full_resource_policy (api_version kind : string) (incoming existing : Value)
  : Value :=
  let incoming := preserve_pod_node_for_stale_put api_version kind incoming existing in
  let incoming := preserve_pod_status_for_stale_main_put api_version kind incoming existing in
  let incoming := preserve_pod_scheduled_true_for_stale_bound_put api_version kind incoming existing in
  let incoming := preserve_pod_owner_refs_for_stale_put api_version kind incoming existing in
  let incoming := preserve_storage_user_metadata_for_stale_put api_version kind incoming existing in
  preserve_finalizers_for_stale_put api_version kind incoming existing.

(** ** Theorems *)

(** Writing under [metadata] leaves the other top-level fields alone. *)
Lemma get_with_metadata_ne f k v : k <> "metadata" -> get k (with_metadata f v) = get k v.
Proof.
  intros Hk. unfold with_metadata, get_mut, get. destruct v; try done. cbn.
  apply obj_get_alter_ne. congruence.
Qed.

Lemma get_owner_refs_ne k av kd v e :
  k <> "metadata" -> get k (preserve_pod_owner_refs_for_stale_put av kd v e) = get k v.
Proof.
  intros Hk. unfold preserve_pod_owner_refs_for_stale_put.
  repeat case_match; auto using get_with_metadata_ne.
Qed.

Lemma pod_policy v e :
  apply_same_uid_stale_full_resource_policy "v1" "Pod" v e
  = preserve_pod_owner_refs_for_stale_put "v1" "Pod"
      (preserve_pod_scheduled_true_for_stale_bound_put "v1" "Pod"
         (preserve_pod_status_for_stale_main_put "v1" "Pod"
            (preserve_pod_node_for_stale_put "v1" "Pod" v e) e) e) e.
Proof. done. Qed.

Lemma pointer_cons k ts m : pointer (k :: ts) (Object m) = v ← obj_get k m; pointer ts v.
Proof. done. Qed.

Lemma pointer_of_get k ts v v' :
  is_object v = true -> is_object v' = true -> get k v = get k v' -> pointer (k :: ts) v = pointer (k :: ts) v'.
Proof. destruct v, v'; try done. cbn. by intros _ _ ->. Qed.

Lemma non_blank_non_empty n : non_blank_str n = true -> non_empty_str n = true.
Proof. by destruct n. Qed.

Lemma map_object_is_object f v : is_object (map_object f v) = is_object v.
Proof. by destruct v. Qed.

(** The node step: the binding of the stored pod wins. *)
Lemma node_step m e n :
  (forall sp, obj_get "spec" m = Some sp -> is_object sp = true) ->
  pointer_str ["spec"; "nodeName"] e = Some n -> non_empty_str n = true ->
  exists m', preserve_pod_node_for_stale_put "v1" "Pod" (Object m) e = Object m'
    /\ pointer_str ["spec"; "nodeName"] (Object m') = Some n
    /\ forall k, k <> "spec" -> obj_get k m' = obj_get k m.
Proof.
  intros Hspec He Hn. unfold preserve_pod_node_for_stale_put. rewrite He. cbn [negb is_pod andb].
  cbn [opt_filter]. rewrite Hn. destruct (_ =?os Some n) eqn:Eq.
  { exists m. split_and!; try done. apply opt_string_eqb_iff in Eq.
    destruct (pointer_str ["spec"; "nodeName"] (Object m)) as [x|]; [|done].
    cbn in Eq. by destruct (non_empty_str x); simplify_eq. }
  eexists. split; [reflexivity|]. split.
  - unfold pointer_str. rewrite pointer_cons, obj_get_alter_eq, obj_get_or_insert_eq.
    destruct (obj_get "spec" m) as [sp|] eqn:Es; [specialize (Hspec sp eq_refl); destruct sp; try done|].
    all: cbn; by rewrite ?obj_get_insert_eq.
  - intros k Hk. rewrite obj_get_alter_ne, obj_get_or_insert_ne by congruence. done.
Qed.

(** The status step: the stored status wins unless the write deletes the pod. *)
Lemma status_step m e :
  exists m', preserve_pod_status_for_stale_main_put "v1" "Pod" (Object m) e = Object m'
    /\ obj_get "status" m' = (if has_deletion_timestamp (Object m) then obj_get "status" m else get "status" e)
    /\ forall k, k <> "status" -> obj_get k m' = obj_get k m.
Proof.
  unfold preserve_pod_status_for_stale_main_put. cbn [negb is_pod andb orb].
  change (negb (is_pod "v1" "Pod")) with false. cbn [orb].
  destruct (has_deletion_timestamp (Object m)); [by exists m|].
  destruct (get "status" e); cbn [map_object]; eexists; (split; [reflexivity|]); split;
    intros; by rewrite ?obj_get_insert_eq, ?obj_get_remove_eq, ?obj_get_insert_ne, ?obj_get_remove_ne
                 by congruence.
Qed.

(** The condition step, for a bound pod. *)
Lemma scheduled_step m e n :
  pointer_str ["spec"; "nodeName"] (Object m) = Some n -> non_blank_str n = true ->
  exists m', preserve_pod_scheduled_true_for_stale_bound_put "v1" "Pod" (Object m) e = Object m'
    /\ obj_get "status" m'
       = Some (Object (schedule_status (scheduled_condition e)
                         (unwrap_or [] (st ← obj_get "status" m; as_object st))))
    /\ forall k, k <> "status" -> obj_get k m' = obj_get k m.
Proof.
  intros Hb Hn. unfold preserve_pod_scheduled_true_for_stale_bound_put. rewrite Hb. cbn [is_some_and].
  rewrite Hn. cbn [negb map_object]. change (is_pod "v1" "Pod") with true. cbn [negb].
  eexists. split; [reflexivity|]. split.
  - rewrite obj_get_alter_eq, obj_get_or_insert_eq. by destruct (obj_get "status" m) as [[]|].
  - intros k Hk. rewrite obj_get_alter_ne, obj_get_or_insert_ne by congruence. done.
Qed.

Definition other_conditions (conditions : list Value) : list Value :=
  List.filter (fun c => negb (condition_type_is "PodScheduled" c)) conditions.

Lemma schedule_status_spec sc st :
  obj_get "conditions" (schedule_status sc st)
  = Some (Array (other_conditions (unwrap_or [] (c ← obj_get "conditions" st; as_array c)) ++ [sc])%list)
  /\ forall k, k <> "conditions" -> k <> "nominatedNodeName" ->
       obj_get k (schedule_status sc st) = obj_get k st.
Proof.
  unfold schedule_status. cbv zeta. split.
  - rewrite obj_get_alter_eq, obj_get_or_insert_eq, obj_get_remove_ne by done.
    by destruct (obj_get "conditions" st) as [[]|].
  - intros k Hc Hn. rewrite obj_get_alter_ne, obj_get_or_insert_ne, obj_get_remove_ne by congruence. done.
Qed.

Lemma typed_is_object t c : condition_type_is t c = true -> is_object c = true.
Proof. unfold condition_type_is, pointer_str. by destruct c. Qed.

Lemma scheduled_condition_ok e :
  condition_type_is "PodScheduled" (scheduled_condition e) = true
  /\ pointer_str ["status"] (scheduled_condition e) = Some "True".
Proof.
  unfold scheduled_condition. cbv zeta.
  match goal with |- context [unwrap_or ?d ?o] => assert (is_object (unwrap_or d o) = true) as Hobj end.
  { destruct (pointer_array _ e) as [cs|]; [|done]. cbn [mbind option_bind].
    destruct (List.find _ cs) as [c|] eqn:Ef; [|done].
    apply find_some in Ef as [_ Ef]. to_prop. by eapply typed_is_object. }
  destruct (unwrap_or _ _) as [| | | | |m]; try done.
  unfold condition_type_is, pointer_str. cbn [map_object]. rewrite !pointer_cons.
  rewrite !obj_get_or_insert_ne, obj_get_insert_eq, obj_get_insert_ne, obj_get_insert_eq by done. done.
Qed.

(** A stale write of a bound pod does not unbind it.  Whatever the write says,
    the pod stays on the node it is stored with and carries exactly one
    PodScheduled condition, which is true; and unless the write deletes the pod,
    its other conditions and every other status field but the nominated node are
    those stored. *)
Theorem stale_pod_put_keeps_binding m e n :
  (forall sp, obj_get "spec" m = Some sp -> is_object sp = true) ->
  pointer_str ["spec"; "nodeName"] e = Some n -> non_blank_str n = true ->
  let r := apply_same_uid_stale_full_resource_policy "v1" "Pod" (Object m) e in
  pointer_str ["spec"; "nodeName"] r = Some n
  /\ exists st conds sc,
       get "status" r = Some (Object st) /\ obj_get "conditions" st = Some (Array (conds ++ [sc])%list)
       /\ condition_type_is "PodScheduled" sc = true /\ pointer_str ["status"] sc = Some "True"
       /\ Forall (fun c => condition_type_is "PodScheduled" c = false) conds
       /\ (has_deletion_timestamp (Object m) = false ->
           conds = other_conditions (unwrap_or [] (s ← get "status" e; c ← get "conditions" s; as_array c))
           /\ forall k, k <> "conditions" -> k <> "nominatedNodeName" ->
                obj_get k st = s ← get "status" e; get k s).
Proof.
  intros Hspec He Hn. cbv zeta. rewrite pod_policy.
  destruct (node_step m e n Hspec He (non_blank_non_empty n Hn)) as (m1 & -> & Hnode1 & Hk1).
  destruct (status_step m1 e) as (m2 & -> & Hst2 & Hk2).
  assert (pointer_str ["spec"; "nodeName"] (Object m2) = Some n) as Hnode2.
  { unfold pointer_str in *. rewrite pointer_cons in *. by rewrite Hk2 by done. }
  destruct (scheduled_step m2 e n Hnode2 Hn) as (m3 & -> & Hst3 & Hk3).
  set (r := preserve_pod_owner_refs_for_stale_put "v1" "Pod" (Object m3) e).
  assert (is_object r = true) as Hr.
  { unfold r, preserve_pod_owner_refs_for_stale_put. by repeat case_match. }
  split.
  { unfold pointer_str in *. rewrite (pointer_of_get "spec" ["nodeName"] r (Object m3)) by
      (try done; by apply get_owner_refs_ne). rewrite pointer_cons in *. by rewrite Hk3 by done. }
  destruct (schedule_status_spec (scheduled_condition e) (unwrap_or [] (st ← obj_get "status" m2; as_object st)))
    as [Hc Hother].
  eexists _, _, (scheduled_condition e). split.
  { unfold r. rewrite get_owner_refs_ne by done. exact Hst3. }
  split; [exact Hc|]. destruct (scheduled_condition_ok e) as [-> ->]. split_and!; [done..| |].
  { apply Forall_forall. intros c Hin%list_elem_of_In. apply filter_In in Hin as [_ Hin]. by to_prop. }
  intros Hdel. assert (has_deletion_timestamp (Object m1) = false) as Hdel1.
  { rewrite <-Hdel. unfold has_deletion_timestamp. by rewrite !pointer_cons, Hk1. }
  rewrite Hdel1 in Hst2. rewrite Hst2 in *. destruct (get "status" e) as [s|]; [|done]. cbn in *.
  split; [|intros; by destruct s; rewrite Hother]. by destruct s.
Qed.

(** ** Finalizers *)

Lemma merge_finalizers_spec existing merged :
  (exists added, merge_finalizers merged existing = (merged ++ added)%list /\ added ⊆ existing)
  /\ forall f, f ∈ existing -> existsb (fun v => value_eqb v f) (merge_finalizers merged existing) = true.
Proof.
  revert merged. induction existing as [|f existing IH]; intros merged.
  { split; [exists []; by rewrite app_nil_r|]. intros f Hf. by apply not_elem_of_nil in Hf. }
  set (next := if existsb (fun v => value_eqb v f) merged then merged else (merged ++ [f])%list).
  destruct (IH next) as [(added & Heq & Hsub) Hall].
  change (merge_finalizers merged (f :: existing)) with (merge_finalizers next existing).
  assert (exists one, next = (merged ++ one)%list /\ one ⊆ [f] /\ existsb (fun v => value_eqb v f) next = true)
    as (one & Hone & Hsubone & Hf).
  { unfold next. destruct (existsb _ merged) eqn:E.
    - exists []. rewrite app_nil_r. split_and!; [done | set_solver | done].
    - exists [f]. split_and!; [done.. |]. rewrite existsb_app. cbn. rewrite value_eqb_refl. apply orb_true_r. }
  split.
  - exists (one ++ added)%list. rewrite Heq, Hone, app_assoc. split; [done|]. set_solver.
  - intros g [->|Hg]%elem_of_cons; [|auto]. rewrite Heq, existsb_app, Hf. done.
Qed.

Lemma merge_missing_is_object v e field : is_object (merge_missing_metadata_map_entries v e field) = is_object v.
Proof.
  unfold merge_missing_metadata_map_entries, with_metadata, get_mut.
  repeat case_match; rewrite ?map_object_is_object; done.
Qed.

(** Reading the metadata after [with_metadata]. *)
Lemma get_with_metadata f m md :
  obj_get "metadata" m = Some (Object md) ->
  exists m', with_metadata f (Object m) = Object m' /\ obj_get "metadata" m' = Some (Object (f md)).
Proof.
  intros E. eexists. split; [reflexivity|]. by rewrite obj_get_alter_eq, E.
Qed.

(** Merging one map of the metadata leaves the other metadata fields alone. *)
Lemma merge_missing_step m md e field :
  obj_get "metadata" m = Some (Object md) ->
  exists m' md', merge_missing_metadata_map_entries (Object m) e field = Object m'
    /\ obj_get "metadata" m' = Some (Object md')
    /\ (forall k, k <> field -> obj_get k md' = obj_get k md)
    /\ (forall ee inc, pointer_object ["metadata"; field] e = Some ee ->
          unwrap_or (Object []) (obj_get field md) = Object inc ->
          (ee <> [] \/ opt_is_some (obj_get field md) = true ->
           obj_get field md' = Some (Object (merge_missing_entries ee inc)))).
Proof.
  intros E. unfold merge_missing_metadata_map_entries.
  destruct (pointer_object ["metadata"; field] e) as [[|kv ee]|].
  - exists m, md. split_and!; try done. intros ee inc [= <-] Hinc [?|Hs]; [done|].
    destruct (obj_get field md); [|done]. cbn in *. by subst.
  - destruct (get_with_metadata (fun metadata => obj_alter (map_object (merge_missing_entries (kv :: ee))) field
                (obj_or_insert field (Object []) metadata)) m md E) as (m' & -> & Hm').
    eexists m', _. split_and!; [done | exact Hm' | |].
    + intros k Hk. rewrite obj_get_alter_ne, obj_get_or_insert_ne by congruence. done.
    + intros ee' inc [= <-] Hinc _. rewrite obj_get_alter_eq, obj_get_or_insert_eq, Hinc. done.
  - by exists m, md.
Qed.

Lemma merge_missing_get ee inc k :
  obj_get k (merge_missing_entries ee inc) = or_else (obj_get k inc) (obj_get k ee).
Proof.
  revert inc. induction ee as [|[k' v'] ee IH]; intros inc; [cbn; by destruct (obj_get k inc)|].
  change (merge_missing_entries ((k', v') :: ee) inc) with (merge_missing_entries ee (obj_or_insert k' v' inc)).
  rewrite IH. cbn [obj_get]. destruct (String.eqb_spec k k') as [->|Hne].
  - rewrite obj_get_or_insert_eq. by destruct (obj_get k' inc).
  - by rewrite obj_get_or_insert_ne by congruence.
Qed.

Lemma storage_step av kd m md e :
  obj_get "metadata" m = Some (Object md) ->
  exists m' md', preserve_storage_user_metadata_for_stale_put av kd (Object m) e = Object m'
    /\ obj_get "metadata" m' = Some (Object md') /\ obj_get "finalizers" md' = obj_get "finalizers" md.
Proof.
  intros E. unfold preserve_storage_user_metadata_for_stale_put. destruct (_ || _); [by exists m, md|].
  destruct (merge_missing_step m md e "labels" E) as (m1 & md1 & -> & E1 & H1 & _).
  destruct (merge_missing_step m1 md1 e "annotations" E1) as (m2 & md2 & -> & E2 & H2 & _).
  exists m2, md2. split_and!; [done..|]. by rewrite H2, H1.
Qed.

Lemma non_pod_policy av kd v e :
  is_pod av kd = false ->
  apply_same_uid_stale_full_resource_policy av kd v e
  = preserve_finalizers_for_stale_put av kd (preserve_storage_user_metadata_for_stale_put av kd v e) e.
Proof.
  intros E. unfold apply_same_uid_stale_full_resource_policy, preserve_pod_node_for_stale_put,
    preserve_pod_status_for_stale_main_put, preserve_pod_scheduled_true_for_stale_bound_put,
    preserve_pod_owner_refs_for_stale_put. by rewrite E.
Qed.

(** A stale write of any other kind drops no finalizer that is stored: the
    result lists the finalizers of the write in their order, then stored ones
    only, and every stored finalizer is among them. *)
Theorem stale_put_keeps_finalizers av kd m md e ef :
  is_pod av kd = false -> obj_get "metadata" m = Some (Object md) ->
  pointer_array ["metadata"; "finalizers"] e = Some ef -> ef <> [] ->
  exists added,
    pointer_array ["metadata"; "finalizers"] (apply_same_uid_stale_full_resource_policy av kd (Object m) e)
    = Some (unwrap_or [] (v ← obj_get "finalizers" md; as_array v) ++ added)%list
    /\ added ⊆ ef
    /\ forall f, f ∈ ef ->
         existsb (fun v => value_eqb v f)
           (unwrap_or [] (v ← obj_get "finalizers" md; as_array v) ++ added)%list = true.
Proof.
  intros Hk Hmd He Hne. rewrite (non_pod_policy _ _ _ _ Hk).
  destruct (storage_step av kd m md e Hmd) as (m1 & md1 & -> & Hmd1 & <-).
  unfold preserve_finalizers_for_stale_put. rewrite Hk, He. destruct ef as [|f0 ef]; [done|].
  set (inc := unwrap_or [] _).
  destruct (merge_finalizers_spec (f0 :: ef) inc) as [(added & Heq & Hsub) Hall].
  exists added. rewrite <-Heq. split_and!; [|done|done].
  match goal with |- context [with_metadata ?g (Object m1)] =>
    destruct (get_with_metadata g m1 md1 Hmd1) as (m' & -> & Hm') end.
  unfold pointer_array. rewrite pointer_cons, Hm'. cbn [mbind option_bind]. rewrite pointer_cons.
  rewrite obj_get_insert_eq. done.
Qed.

(** A stale write of a volume or a claim keeps the labels and annotations that
    users added: each entry of the result is the one of the write where it has
    the key, and the stored one otherwise. *)
Theorem stale_put_keeps_user_metadata kd field m md e inc ee :
  kd = "PersistentVolume" \/ kd = "PersistentVolumeClaim" ->
  field = "labels" \/ field = "annotations" ->
  obj_get "metadata" m = Some (Object md) -> obj_get field md = Some (Object inc) ->
  pointer_object ["metadata"; field] e = Some ee ->
  exists out,
    pointer_object ["metadata"; field] (apply_same_uid_stale_full_resource_policy "v1" kd (Object m) e)
    = Some out
    /\ forall k, obj_get k out = or_else (obj_get k inc) (obj_get k ee).
Proof.
  intros Hkd Hfield Hmd Hinc He.
  exists (merge_missing_entries ee inc). split; [|intros; apply merge_missing_get].
  rewrite non_pod_policy by (by destruct Hkd as [-> | ->]).
  assert (exists m2 md2, preserve_storage_user_metadata_for_stale_put "v1" kd (Object m) e = Object m2
            /\ obj_get "metadata" m2 = Some (Object md2)
            /\ obj_get field md2 = Some (Object (merge_missing_entries ee inc))) as (m2 & md2 & -> & E2 & H2).
  { unfold preserve_storage_user_metadata_for_stale_put.
    replace (negb ("v1" =?s "v1") || negb ((kd =?s "PersistentVolume") || (kd =?s "PersistentVolumeClaim")))
      with false by (by destruct Hkd as [-> | ->]).
    destruct (merge_missing_step m md e "labels" Hmd) as (m1 & md1 & -> & E1 & H1 & H1').
    destruct (merge_missing_step m1 md1 e "annotations" E1) as (m2 & md2 & -> & E2 & H2 & H2').
    exists m2, md2. split_and!; [done..|]. destruct Hfield as [-> | ->].
    - rewrite H2 by done. apply (H1' ee inc He); rewrite Hinc; auto.
    - rewrite <-H1 in Hinc by done. apply (H2' ee inc He); rewrite Hinc; auto. }
  assert (field <> "finalizers") by (destruct Hfield as [-> | ->]; done).
  unfold preserve_finalizers_for_stale_put, pointer_object.
  repeat case_match; rewrite ?pointer_cons, ?E2; cbn [mbind option_bind]; rewrite ?pointer_cons, ?H2; try done.
  match goal with |- context [with_metadata ?g (Object m2)] =>
    destruct (get_with_metadata g m2 md2 E2) as (m' & -> & Hm') end.
  rewrite pointer_cons, Hm'. cbn [mbind option_bind]. rewrite pointer_cons, obj_get_insert_ne, H2 by congruence.
  done.
Qed.

(** ** Concrete inputs *)

Definition unbound_write : Map := [("metadata", Object []); ("spec", Object [])].
Definition bound_stored : Value :=
  Object [("spec", Object [("nodeName", Str "node-1")]); ("status", Object [("phase", Str "Running")])].

Lemma stale_pod_put_keeps_binding_witness :
  let r := apply_same_uid_stale_full_resource_policy "v1" "Pod" (Object unbound_write) bound_stored in
  pointer_str ["spec"; "nodeName"] r = Some "node-1" /\ pointer_str ["status"; "phase"] r = Some "Running".
Proof.
  split; [|by vm_compute].
  apply (stale_pod_put_keeps_binding unbound_write bound_stored "node-1");
    [by intros sp [= <-] | by vm_compute | by vm_compute].
Defined.

Definition claim_write : Map :=
  [("metadata", Object [("finalizers", Array [Str "a"]); ("labels", Object [("app", Str "new")])])].
Definition claim_stored : Value :=
  Object [("metadata", Object [("finalizers", Array [Str "a"; Str "kubernetes.io/pvc-protection"]);
                               ("labels", Object [("app", Str "old"); ("team", Str "x")])])].

Lemma stale_put_keeps_finalizers_witness :
  exists added,
    pointer_array ["metadata"; "finalizers"]
      (apply_same_uid_stale_full_resource_policy "v1" "PersistentVolumeClaim" (Object claim_write) claim_stored)
    = Some ([Str "a"] ++ added)%list.
Proof.
  destruct (stale_put_keeps_finalizers "v1" "PersistentVolumeClaim" claim_write
              [("finalizers", Array [Str "a"]); ("labels", Object [("app", Str "new")])] claim_stored
              [Str "a"; Str "kubernetes.io/pvc-protection"]) as (added & H & _); try done.
  by exists added.
Defined.

Lemma stale_put_keeps_user_metadata_witness :
  exists out,
    pointer_object ["metadata"; "labels"]
      (apply_same_uid_stale_full_resource_policy "v1" "PersistentVolumeClaim" (Object claim_write) claim_stored)
    = Some out
    /\ obj_get "app" out = Some (Str "new") /\ obj_get "team" out = Some (Str "x").
Proof.
  destruct (stale_put_keeps_user_metadata "PersistentVolumeClaim" "labels" claim_write
              [("finalizers", Array [Str "a"]); ("labels", Object [("app", Str "new")])] claim_stored
              [("app", Str "new")] [("app", Str "old"); ("team", Str "x")]) as (out & H & Hk);
    try done; [by right | by left |].
  exists out. split; [done|]. rewrite !Hk. done.
Defined.
