(* ===== verification/StatusMerge.v ===== *)
(** * Merging pod status writes

    [klights-types/src/pod_status_merge.rs]: the policy every write of a pod's
    status goes through.  The writer's [PodStatusOwner] decides which conditions
    and fields it may drop by leaving them out; the rest is kept from the live
    status.  [merge_pod_status_for_update] returns the status that the code
    rewrites in place. *)

From S2P Require Import Prelude Text Json.
Local Open Scope string_scope.
Local Open Scope rs_scope.

(** ** Ownership *)

Inductive PodStatusOwner := KubeletRuntime | SchedulerOwner | ApiStatusSubresource | ReplicatedApply.

Definition is_kubelet_lifecycle_condition (condition_type : string) : bool :=
  (condition_type =?s "PodScheduled") || (condition_type =?s "Initialized")
  || (condition_type =?s "ContainersReady") || (condition_type =?s "Ready").

Definition is_scheduler_owned_condition (condition_type : string) : bool :=
  (condition_type =?s "DisruptionTarget") || (condition_type =?s "PodScheduled").

Definition owns_condition_type (self : PodStatusOwner) (condition_type : string) : bool :=
  match self with
  | KubeletRuntime => is_kubelet_lifecycle_condition condition_type
  | SchedulerOwner => is_scheduler_owned_condition condition_type
  | ApiStatusSubresource => negb (is_scheduler_owned_condition condition_type)
  | ReplicatedApply => false
  end.

Definition preserves_terminal_runtime_state (self : PodStatusOwner) : bool :=
  match self with KubeletRuntime => true | _ => false end.

Definition preserves_omitted_network_status (self : PodStatusOwner) : bool :=
  match self with KubeletRuntime | ReplicatedApply => true | _ => false end.

Definition rebuilds_status_field (self : PodStatusOwner) (field : string) : bool :=
  match self with
  | KubeletRuntime => (field =?s "phase") || (field =?s "conditions") || (field =?s "containerStatuses")
  | ApiStatusSubresource => true
  | SchedulerOwner => (field =?s "phase") || (field =?s "conditions")
  | ReplicatedApply => false
  end.

(** ** The patch *)

Record PodStatusPatch := mkPatch {
  pt_owner : PodStatusOwner; pt_phase : option string; pt_conditions : list Value
}.

Definition extract (owner : PodStatusOwner) (incoming_status : Value) : PodStatusPatch :=
  mkPatch owner (get_str "phase" incoming_status) (unwrap_or [] (get_array "conditions" incoming_status)).

Definition apply_phase (self : PodStatusPatch) (incoming_status : Value) : Value :=
  match pt_phase self with
  | Some phase => map_object (obj_insert "phase" (Str phase)) incoming_status
  | None => incoming_status
  end.

Definition has_type (condition_type : string) (condition : Value) : bool :=
  get_str "type" condition =?os Some condition_type.

(** Appending a live condition unless one of its type is there. *)
Definition push_condition (merged : list Value) (condition : Value) : list Value :=
  match get_str "type" condition with
  | None => merged
  | Some condition_type =>
      if existsb (has_type condition_type) merged then merged else (merged ++ [condition])%list
  end.

Definition preservable (owner : PodStatusOwner) (current : Value) : list Value :=
  List.filter (fun condition => is_some_and (get_str "type" condition)
                                  (fun t => negb (owns_condition_type owner t)))
    (unwrap_or [] (pointer_array ["status"; "conditions"] current)).

Definition apply_conditions (self : PodStatusPatch) (current incoming_status : Value) : Value :=
  let kept := preservable (pt_owner self) current in
  let nothing := match kept, pt_conditions self with [], [] => true | _, _ => false end in
  if nothing && opt_is_none (get "conditions" incoming_status) then incoming_status
  else
    map_object (obj_insert "conditions" (Array (fold_left push_condition kept (pt_conditions self))))
      incoming_status.

Definition merge_owned_and_preserved_conditions (owner : PodStatusOwner)
    (owned_conditions existing_conditions : list Value) : list Value :=
  fold_left (fun merged condition =>
      match get_str "type" condition with
      | None => merged
      | Some t => if owns_condition_type owner t then merged else push_condition merged condition
      end) existing_conditions owned_conditions.

(** ** Fields the writer does not mention *)

Definition empty_value (v : Value) : bool :=
  match v with Str s => is_empty s | Array [] => true | _ => false end.

(** One field of the live status. *)
Definition preserve_field (owner : PodStatusOwner) (incoming : Map) (entry : string * Value) : Map :=
  let '(key, value) := entry in
  if (key =?s "conditions") || rebuilds_status_field owner key then incoming
  else
    let dominated := preserves_omitted_network_status owner && is_some_and (obj_get key incoming) empty_value in
    obj_or_insert key value (if dominated then obj_remove key incoming else incoming).

Definition preserve_unmentioned_live_status_fields (owner : PodStatusOwner) (current incoming_status : Value)
  : Value :=
  map_object (fun incoming => fold_left (preserve_field owner)
                (unwrap_or [] (status ← get "status" current; as_object status)) incoming) incoming_status.

(** ** Terminal and confirmed container state *)

Definition terminal_phase (phase : option string) : bool :=
  (phase =?os Some "Succeeded") || (phase =?os Some "Failed").

Definition statuses_by_name (statuses : list Value) : gmap string Value :=
  collect_map (omap (fun status => name ← get_str "name" status; Some (name, status)) statuses).

Definition named_in (by_name : gmap string Value) (status : Value) : bool :=
  is_some_and (get_str "name" status) (fun name => opt_is_some (by_name !! name)).

Definition same_container_incarnation (current incoming : Value) : bool :=
  let current_id := unwrap_or "" (get_str "containerID" current) in
  let incoming_id := unwrap_or "" (get_str "containerID" incoming) in
  if is_empty current_id && is_empty incoming_id then true
  else negb (is_empty current_id) && (current_id =?s incoming_id).

Definition shares_any_container (incoming_status : Value) (current_by_name : gmap string Value) : bool :=
  is_some_and (pointer_array ["containerStatuses"] incoming_status) (existsb (named_in current_by_name)).

(** Both statuses count restarts, differently. *)
Definition restarts_differ (current incoming : Value) : bool :=
  match get "restartCount" current ≫= as_i64, get "restartCount" incoming ≫= as_i64 with
  | Some current_count, Some incoming_count => negb (Z.eqb current_count incoming_count)
  | _, _ => false
  end.

Definition container_creating (incoming : Value) : bool :=
  (waiting ← pointer_object ["state"; "waiting"] incoming; reason ← obj_get "reason" waiting; as_str reason)
  =?os Some "ContainerCreating".

(** The body of the loop over the incoming container statuses. *)
Definition preserve_container (current_by_name : gmap string Value) (incoming : Value) : Value :=
  match get_str "name" incoming ≫= (fun name => current_by_name !! name) with
  | None => incoming
  | Some current =>
      if negb (same_container_incarnation current incoming) || restarts_differ current incoming
         || negb (container_creating incoming)
      then incoming
      else if opt_is_some (pointer ["state"; "terminated"] current)
              || opt_is_some (pointer ["state"; "running"] current)
      then match get "state" current with
           | Some state => map_object (obj_insert "state" state) incoming
           | None => incoming
           end
      else incoming
  end.

Definition preserve_containers (current_by_name : gmap string Value) (incoming_statuses : Value) : Value :=
  match incoming_statuses with
  | Array l => Array (preserve_container current_by_name <$> l)
  | _ => incoming_statuses
  end.

Definition preserve_terminal_or_confirmed_runtime_state (current incoming_status : Value) : Value :=
  let current_phase := pointer_str ["status"; "phase"] current in
  match pointer_array ["status"; "containerStatuses"] current with
  | None => incoming_status
  | Some current_statuses =>
      let current_by_name := statuses_by_name current_statuses in
      if bool_decide (current_by_name = ∅) then incoming_status
      else
        match get "phase" incoming_status with
        | None => incoming_status
        | Some incoming_phase_value =>
            if terminal_phase current_phase && negb (terminal_phase (as_str incoming_phase_value))
               && shares_any_container incoming_status current_by_name
            then
              let with_phase := match current_phase with
                                | Some phase => map_object (obj_insert "phase" (Str phase)) incoming_status
                                | None => incoming_status
                                end in
              map_object (obj_insert "containerStatuses"
                            (Array (List.filter (named_in current_by_name) current_statuses))) with_phase
            else
              get_mut "containerStatuses" (preserve_containers current_by_name) incoming_status
        end
  end.

Definition merge_pod_status_for_update (api_version kind : string) (current incoming_status : Value)
    (owner : PodStatusOwner) : Value :=
  if negb (api_version =?s "v1") || negb (kind =?s "Pod") then incoming_status
  else
    let patch := extract owner incoming_status in
    let merged := apply_conditions patch current (apply_phase patch incoming_status) in
    let confirmed := if preserves_terminal_runtime_state owner
                     then preserve_terminal_or_confirmed_runtime_state current merged else merged in
    preserve_unmentioned_live_status_fields owner current confirmed.

(** ** Conditions *)

Definition types_of (conditions : list Value) : list string := omap (get_str "type") conditions.

(** The conditions of [kept] whose type is not among [seen], the first of each. *)
Fixpoint missing (seen : list string) (kept : list Value) : list Value :=
  match kept with
  | [] => []
  | condition :: kept' =>
      match get_str "type" condition with
      | None => missing seen kept'
      | Some t => if bool_decide (t ∈ seen) then missing seen kept'
                  else condition :: missing (seen ++ [t]) kept'
      end
  end.

Lemma opt_eqb_true (a b : option string) : (a =?os b) = true <-> a = b.
Proof.
  destruct a, b; cbn; rewrite ?String.eqb_eq; split; intros; simplify_eq; done.
Qed.

Lemma existsb_has_type t conditions : existsb (has_type t) conditions = bool_decide (t ∈ types_of conditions).
Proof.
  apply eq_true_iff_eq. rewrite existsb_exists, bool_decide_eq_true. unfold types_of.
  rewrite list_elem_of_omap. unfold has_type. setoid_rewrite opt_eqb_true. setoid_rewrite list_elem_of_In. done.
Qed.

Lemma push_all kept merged :
  fold_left push_condition kept merged = (merged ++ missing (types_of merged) kept)%list.
Proof.
  revert merged. induction kept as [|c kept IH]; intros merged; cbn [fold_left missing]; [by rewrite app_nil_r|].
  unfold push_condition at 2. destruct (get_str "type" c) as [t|] eqn:Ht; [|apply IH].
  rewrite existsb_has_type. case_bool_decide; [apply IH|]. rewrite IH, <- app_assoc. cbn [app]. repeat f_equal.
  unfold types_of. rewrite omap_app. cbn [omap list_omap]. by rewrite Ht.
Qed.

Lemma missing_elem seen kept c t :
  c ∈ missing seen kept -> get_str "type" c = Some t -> c ∈ kept /\ t ∉ seen.
Proof.
  revert seen. induction kept as [|d kept IH]; intros seen; cbn [missing]; [by intros ?%not_elem_of_nil|].
  rewrite elem_of_cons. destruct (get_str "type" d) as [u|] eqn:Hu.
  2: { intros Hc Ht. destruct (IH _ Hc Ht). auto. }
  case_bool_decide as Hseen; [intros Hc Ht; destruct (IH _ Hc Ht); auto|].
  rewrite elem_of_cons. intros [->|Hc] Ht; [split; [by left|congruence]|].
  destruct (IH _ Hc Ht) as [? Hn]. split; [auto|]. intros ?. apply Hn, elem_of_app. by left.
Qed.

Lemma missing_typed seen kept c : c ∈ missing seen kept -> is_Some (get_str "type" c).
Proof.
  revert seen. induction kept as [|d kept IH]; intros seen; cbn [missing]; [by intros ?%not_elem_of_nil|].
  destruct (get_str "type" d) as [u|] eqn:Hu; [|apply IH]. case_bool_decide; [apply IH|].
  rewrite elem_of_cons. intros [->|Hc]; [eauto|by eapply IH].
Qed.

(** Each type of [kept] that was not seen is there once, with its first condition. *)
Lemma missing_first seen pre c kept t :
  get_str "type" c = Some t -> t ∉ seen -> t ∉ types_of pre -> c ∈ missing seen (pre ++ (c :: kept)).
Proof.
  intros Hc. revert seen. induction pre as [|d pre IH]; intros seen Hseen Hpre; cbn [app missing].
  { rewrite Hc, bool_decide_eq_false_2 by done. by left. }
  unfold types_of in *. cbn [omap list_omap] in Hpre. destruct (get_str "type" d) as [u|] eqn:Hu; [|by apply IH].
  apply not_elem_of_cons in Hpre as [Hne Hpre]. case_bool_decide; [by apply IH|]. right. apply IH; [|done].
  rewrite elem_of_app, list_elem_of_singleton. naive_solver.
Qed.

Lemma missing_nodup seen kept : NoDup (types_of (missing seen kept)).
Proof.
  revert seen. induction kept as [|d kept IH]; intros seen; cbn [missing]; [constructor|].
  destruct (get_str "type" d) as [u|] eqn:Hu; [|apply IH]. case_bool_decide; [apply IH|].
  unfold types_of. cbn [omap list_omap]. rewrite Hu. constructor; [|apply IH].
  intros (c & Hc & Ht)%list_elem_of_omap. destruct (missing_elem _ _ _ _ Hc Ht) as [_ Hn].
  apply Hn, elem_of_app. right. by left.
Qed.

(** ** The stages, field by field *)

Definition same_fields (m m' : Map) : Prop := forall k, obj_get k m' = obj_get k m.

Lemma get_object k m : get k (Object m) = obj_get k m.
Proof. done. Qed.

Lemma apply_phase_fields owner m :
  exists m', apply_phase (extract owner (Object m)) (Object m) = Object m' /\ same_fields m m'.
Proof.
  unfold apply_phase. cbn [extract pt_phase]. destruct (get_str "phase" (Object m)) as [phase|] eqn:Hp; [|by exists m].
  eexists. split; [done|]. intros k. destruct (decide ("phase" = k)) as [<-|Hne].
  - rewrite obj_get_insert_eq. unfold get_str in Hp. rewrite get_object in Hp.
    destruct (obj_get "phase" m) as [[]|]; naive_solver.
  - by rewrite obj_get_insert_ne.
Qed.

(** The merged conditions, unless nobody mentions any. *)
Definition merged_conditions (owner : PodStatusOwner) (current : Value) (m : Map) : list Value :=
  let carried := unwrap_or [] (get_array "conditions" (Object m)) in
  (carried ++ missing (types_of carried) (preservable owner current))%list.

Definition no_conditions (owner : PodStatusOwner) (current : Value) (m : Map) : bool :=
  opt_is_none (obj_get "conditions" m)
  && match preservable owner current with [] => true | _ => false end.

Lemma apply_conditions_fields owner current m m1 :
  same_fields m m1 ->
  exists m', apply_conditions (extract owner (Object m)) current (Object m1) = Object m'
    /\ (forall k, k <> "conditions" -> obj_get k m' = obj_get k m)
    /\ obj_get "conditions" m' = if no_conditions owner current m then None
                                 else Some (Array (merged_conditions owner current m)).
Proof.
  intros Hm. unfold apply_conditions, no_conditions, merged_conditions.
  cbn [extract pt_owner pt_conditions]. rewrite get_object, (Hm "conditions"), push_all.
  destruct (obj_get "conditions" m) as [cs|] eqn:Hc; cbn [opt_is_none andb]; rewrite ?andb_false_r, ?andb_true_r.
  - eexists. split; [done|]. split; [|apply obj_get_insert_eq]. intros k Hk. by rewrite obj_get_insert_ne.
  - unfold get_array. rewrite get_object, Hc. cbn [mbind option_bind unwrap_or].
    destruct (preservable owner current); eexists; (split; [done|]).
    + split; [done|]. by rewrite (Hm "conditions").
    + split; [|apply obj_get_insert_eq]. intros k Hk. by rewrite obj_get_insert_ne.
Qed.

(** The terminal rewrite touches the phase and the container statuses only. *)
Lemma preserve_terminal_fields current m :
  exists m', preserve_terminal_or_confirmed_runtime_state current (Object m) = Object m'
    /\ forall k, k <> "phase" -> k <> "containerStatuses" -> obj_get k m' = obj_get k m.
Proof.
  unfold preserve_terminal_or_confirmed_runtime_state.
  destruct (pointer_array _ current); [|by exists m]. case_bool_decide; [by exists m|].
  destruct (get "phase" (Object m)); [|by exists m]. destruct (_ && _); cbn [get_mut map_object].
  - destruct (pointer_str _ current); eexists; (split; [done|]); intros k H1 H2;
      by rewrite !obj_get_insert_ne.
  - eexists. split; [done|]. intros k _ H2. by rewrite obj_get_alter_ne.
Qed.

(** What a field is after the writer's omissions are filled in. *)
Definition filled (owner : PodStatusOwner) (live incoming : option Value) : option Value :=
  match incoming, live with
  | Some v, Some w => if preserves_omitted_network_status owner && empty_value v then Some w else Some v
  | Some v, None => Some v
  | None, _ => live
  end.

Lemma preserve_field_get owner m key value k :
  obj_get k (preserve_field owner m (key, value))
  = if (key =?s k) && negb ((key =?s "conditions") || rebuilds_status_field owner key)
    then filled owner (Some value) (obj_get k m) else obj_get k m.
Proof.
  unfold preserve_field. destruct (_ || _); cbn [negb]; [by rewrite andb_false_r|]. rewrite andb_true_r.
  destruct (String.eqb_spec key k) as [->|Hne].
  - rewrite obj_get_or_insert_eq. unfold filled, is_some_and. destruct (obj_get k m) as [v|] eqn:Hk.
    + destruct (_ && empty_value v); [by rewrite obj_get_remove_eq|by rewrite Hk].
    + rewrite andb_false_r. by rewrite Hk.
  - rewrite obj_get_or_insert_ne by done. destruct (_ && _); [by rewrite obj_get_remove_ne|done].
Qed.

Lemma preserve_fields_get owner live m k :
  NoDup live.*1 ->
  obj_get k (fold_left (preserve_field owner) live m)
  = if (k =?s "conditions") || rebuilds_status_field owner k then obj_get k m
    else filled owner (obj_get k live) (obj_get k m).
Proof.
  revert m. induction live as [|[key value] live IH]; intros m; cbn [fold_left fmap list_fmap fst].
  { intros _. destruct (_ || _); [done|]. by destruct (obj_get k m). }
  intros [Hnot Hnd]%NoDup_cons. rewrite IH, preserve_field_get by done. cbn [obj_get].
  rewrite (String.eqb_sym key k). destruct (String.eqb_spec k key) as [->|Hne]; cbn [andb]; [|done].
  destruct (_ || _); cbn [negb]; [done|].
  assert (Hk : obj_get key live = None).
  { clear -Hnot. induction live as [|[k v] l IH]; [done|]. cbn [fmap list_fmap fst] in Hnot.
    apply not_elem_of_cons in Hnot as [Hne Hnot]. cbn [obj_get]. rewrite (proj2 (String.eqb_neq _ _)) by done.
    by apply IH. }
  rewrite Hk. by destruct (filled owner (Some value) (obj_get key m)).
Qed.

(** ** What the merge guarantees *)

Definition live_status (current : Value) : Map := unwrap_or [] (status ← get "status" current; as_object status).

(** The fields the terminal rewrite may change. *)
Definition rewritten (owner : PodStatusOwner) (k : string) : bool :=
  preserves_terminal_runtime_state owner && ((k =?s "phase") || (k =?s "containerStatuses")).

(** The status before the omitted fields are filled in. *)
Lemma merge_stages owner current m :
  exists m3, merge_pod_status_for_update "v1" "Pod" current (Object m) owner
             = Object (fold_left (preserve_field owner) (live_status current) m3)
    /\ (forall k, k <> "conditions" -> rewritten owner k = false -> obj_get k m3 = obj_get k m)
    /\ obj_get "conditions" m3 = if no_conditions owner current m then None
                                 else Some (Array (merged_conditions owner current m)).
Proof.
  unfold merge_pod_status_for_update. cbn [String.eqb Ascii.eqb Bool.eqb negb orb].
  destruct (apply_phase_fields owner m) as (m1 & -> & H1).
  destruct (apply_conditions_fields owner current m m1 H1) as (m2 & -> & H2 & Hc).
  unfold rewritten. destruct (preserves_terminal_runtime_state owner).
  - destruct (preserve_terminal_fields current m2) as (m3 & -> & H3). exists m3. split; [done|]. split.
    + intros k Hk Hr. cbn [andb] in Hr. apply orb_false_iff in Hr as [?%String.eqb_neq ?%String.eqb_neq].
      rewrite H3, H2 by done. done.
    + by rewrite H3.
  - exists m2. split; [done|]. split; [|done]. intros k Hk _. by apply H2.
Qed.

Lemma preserve_fields_rebuilt owner live m k :
  k = "conditions" \/ rebuilds_status_field owner k = true ->
  obj_get k (fold_left (preserve_field owner) live m) = obj_get k m.
Proof.
  intros Hk. revert m. induction live as [|[key value] live IH]; intros m; cbn [fold_left]; [done|].
  rewrite IH, preserve_field_get. destruct (String.eqb_spec key k) as [->|]; [|done].
  destruct Hk as [->| ->]; [done|]. by rewrite orb_true_r.
Qed.

(** The first live condition of a type that the writer does not own and does not carry. *)
Definition foreign_first (owner : PodStatusOwner) (live carried : list Value) (c : Value) : Prop :=
  exists pre rest t, live = (pre ++ (c :: rest))%list /\ get_str "type" c = Some t
    /\ owns_condition_type owner t = false /\ (t ∉ types_of pre) /\ t ∉ types_of carried.

Definition foreign (owner : PodStatusOwner) (condition : Value) : bool :=
  is_some_and (get_str "type" condition) (fun t => negb (owns_condition_type owner t)).

Lemma types_of_app l l' : types_of (l ++ l') = (types_of l ++ types_of l')%list.
Proof. apply omap_app. Qed.

Lemma types_of_foreign owner l t :
  owns_condition_type owner t = false -> t ∈ types_of (List.filter (foreign owner) l) <-> t ∈ types_of l.
Proof.
  intros Ht. unfold types_of. rewrite !list_elem_of_omap. setoid_rewrite list_elem_of_In.
  split; intros (c & Hc & Htype); exists c.
  - by apply filter_In in Hc as [? _].
  - split; [|done]. apply filter_In. split; [done|]. unfold foreign. by rewrite Htype; cbn; rewrite Ht.
Qed.

(** A condition that is added is the first of its type, and foreign. *)
Lemma missing_split owner c t seen kept :
  get_str "type" c = Some t -> c ∈ missing seen (List.filter (foreign owner) kept) ->
  exists pre rest, kept = (pre ++ (c :: rest))%list /\ owns_condition_type owner t = false
    /\ (t ∉ types_of pre) /\ t ∉ seen.
Proof.
  intros Ht. revert seen. induction kept as [|d kept IH]; intros seen; cbn [List.filter].
  { by intros ?%not_elem_of_nil. }
  assert (Hskip : forall seen', (forall u, u ∈ seen -> u ∈ seen') -> get_str "type" d <> Some t ->
    c ∈ missing seen' (List.filter (foreign owner) kept) -> exists pre rest, d :: kept = (pre ++ (c :: rest))%list
      /\ owns_condition_type owner t = false /\ (t ∉ types_of pre) /\ t ∉ seen).
  { intros seen' Hsub Hd (pre & rest & -> & ? & Hpre & Hn)%IH. exists (d :: pre), rest.
    split; [done|]. split; [done|]. split; [|auto]. unfold types_of. cbn [omap list_omap].
    destruct (get_str "type" d); [|done]. rewrite not_elem_of_cons. split; [congruence|done]. }
  destruct (foreign owner d) eqn:Hf; cbn [missing].
  - unfold foreign in Hf. destruct (get_str "type" d) as [u|] eqn:Hu; [|done]. cbn in Hf.
    case_bool_decide as Hin.
    + intros Hc. destruct (decide (u = t)) as [->|]; [|eapply Hskip; eauto; congruence].
      by destruct (missing_elem _ _ _ _ Hc Ht) as [_ []].
    + intros [->|Hc]%elem_of_cons; [|destruct (decide (u = t)) as [->|]].
      * exists [], kept. rewrite Ht in Hu. injection Hu as ->. apply negb_true_iff in Hf.
        repeat split; [done| |done]. apply not_elem_of_nil.
      * destruct (missing_elem _ _ _ _ Hc Ht) as [_ []]. apply elem_of_app. right. by left.
      * eapply Hskip; [|congruence|exact Hc]. intros v Hv. apply elem_of_app. by left.
  - intros Hc. eapply Hskip; eauto. intros Hd. unfold foreign in Hf. rewrite Hd in Hf. cbn in Hf.
    apply negb_false_iff in Hf. destruct (missing_elem _ _ _ _ Hc Ht) as [Hin _].
    apply list_elem_of_In, filter_In in Hin as [_ Hin]. unfold foreign in Hin. rewrite Ht in Hin. cbn in Hin.
    by rewrite Hf in Hin.
Qed.

Lemma missing_foreign_first owner live carried c :
  c ∈ missing (types_of carried) (List.filter (foreign owner) live) <-> foreign_first owner live carried c.
Proof.
  split.
  - intros Hc. destruct (missing_typed _ _ _ Hc) as [t Ht].
    destruct (missing_split _ _ _ _ _ Ht Hc) as (pre & rest & -> & ? & ? & ?). by exists pre, rest, t.
  - intros (pre & rest & t & -> & Ht & Hown & Hpre & Hcar). rewrite List.filter_app. cbn [List.filter].
    assert (Hf : foreign owner c = true) by (unfold foreign; rewrite Ht; cbn; by rewrite Hown).
    rewrite Hf. apply missing_first with t; [done|done|]. by rewrite types_of_foreign.
Qed.

Lemma merged_conditions_exact owner current m :
  let carried := unwrap_or [] (get_array "conditions" (Object m)) in
  let live := unwrap_or [] (pointer_array ["status"; "conditions"] current) in
  exists extra,
    unwrap_or [] (get_array "conditions" (merge_pod_status_for_update "v1" "Pod" current (Object m) owner))
    = (carried ++ extra)%list
    /\ NoDup (types_of extra) /\ forall c, c ∈ extra <-> foreign_first owner live carried c.
Proof.
  intros carried live. exists (missing (types_of carried) (preservable owner current)).
  split; [|split; [apply missing_nodup|intros c; apply missing_foreign_first]].
  destruct (merge_stages owner current m) as (m3 & -> & _ & Hc). unfold get_array at 1.
  rewrite get_object, preserve_fields_rebuilt, Hc by (by left). unfold no_conditions.
  destruct (obj_get "conditions" m) eqn:Hm; cbn [opt_is_none andb mbind option_bind as_array unwrap_or]; [done|].
  unfold carried, get_array. rewrite get_object, Hm. destruct (preservable owner current) eqn:Hp; cbn; [done|].
  unfold merged_conditions, get_array. rewrite get_object, Hm, Hp. done.
Qed.

(** Conditions: for every writer, live pod and written status the merged
    conditions are those the writer carries, unchanged and in order, followed by the
    first live condition of each type that the writer does not own and does not
    carry, each such type once: no writer drops another owner's condition by leaving
    it out, and none of its own conditions comes back. *)
Theorem conditions_merge_exact owner current m :
  let carried := unwrap_or [] (get_array "conditions" (Object m)) in
  let live := unwrap_or [] (pointer_array ["status"; "conditions"] current) in
  exists extra,
    unwrap_or [] (get_array "conditions" (merge_pod_status_for_update "v1" "Pod" current (Object m) owner))
    = (carried ++ extra)%list
    /\ NoDup (types_of extra) /\ forall c, c ∈ extra <-> foreign_first owner live carried c.
Proof. apply merged_conditions_exact. Qed.

Lemma merged_field owner current m k :
  NoDup (live_status current).*1 -> k <> "conditions" -> rewritten owner k = false ->
  get k (merge_pod_status_for_update "v1" "Pod" current (Object m) owner)
  = if rebuilds_status_field owner k then obj_get k m
    else filled owner (obj_get k (live_status current)) (obj_get k m).
Proof.
  intros Hnd Hk Hr. destruct (merge_stages owner current m) as (m3 & -> & Hf & _).
  rewrite get_object, preserve_fields_get, (proj2 (String.eqb_neq k _)), Hf by done. done.
Qed.

(** Fields: every status field besides the conditions and, for the kubelet,
    the phase and the container statuses, is the writer's where it writes one and
    the live one where the writer leaves it out and does not rebuild it; for the
    kubelet and for replicated writes an empty text or list counts as left out. *)
Theorem unmentioned_fields_kept owner current m k :
  NoDup (live_status current).*1 -> k <> "conditions" -> rewritten owner k = false ->
  get k (merge_pod_status_for_update "v1" "Pod" current (Object m) owner)
  = if rebuilds_status_field owner k then obj_get k m
    else filled owner (obj_get k (live_status current)) (obj_get k m).
Proof. apply merged_field. Qed.

(** ** Terminal phases and confirmed containers *)

Lemma statuses_by_name_is_Some statuses status name :
  status ∈ statuses -> get_str "name" status = Some name -> is_Some (statuses_by_name statuses !! name).
Proof.
  intros Hin Hname. eapply collect_map_is_Some. apply list_elem_of_omap. exists status. split; [exact Hin|].
  by rewrite Hname.
Qed.

Lemma statuses_by_name_elem statuses status name :
  statuses_by_name statuses !! name = Some status -> status ∈ statuses /\ get_str "name" status = Some name.
Proof.
  intros H%collect_map_lookup. apply list_elem_of_omap in H as (s & Hs & H).
  apply bind_Some in H as (n & Hn & [= -> ->]). done.
Qed.

(** The container state is the only thing the loop changes. *)
Lemma preserve_container_get by_name incoming k :
  k <> "state" -> get k (preserve_container by_name incoming) = get k incoming.
Proof.
  intros Hk. unfold preserve_container. destruct (_ ≫= _); [|done]. destruct (_ || _); [done|].
  destruct (_ || _); [|done]. destruct (get "state" _) as [state|]; [|done].
  destruct incoming; try done. cbn [map_object]. rewrite !get_object. by rewrite obj_get_insert_ne.
Qed.

(** The kubelet's phase and container statuses come from the terminal rewrite alone. *)
Lemma kubelet_rewrite current m :
  exists m2 m3, preserve_terminal_or_confirmed_runtime_state current (Object m2) = Object m3
    /\ (forall k, k <> "conditions" -> obj_get k m2 = obj_get k m)
    /\ forall k, k = "phase" \/ k = "containerStatuses" ->
         get k (merge_pod_status_for_update "v1" "Pod" current (Object m) KubeletRuntime) = obj_get k m3.
Proof.
  unfold merge_pod_status_for_update. cbn [String.eqb Ascii.eqb Bool.eqb negb orb preserves_terminal_runtime_state].
  destruct (apply_phase_fields KubeletRuntime m) as (m1 & -> & H1).
  destruct (apply_conditions_fields KubeletRuntime current m m1 H1) as (m2 & -> & H2 & _).
  destruct (preserve_terminal_fields current m2) as (m3 & Hm3 & _). exists m2, m3. split; [done|]. split; [done|].
  intros k Hk. rewrite Hm3. unfold preserve_unmentioned_live_status_fields. cbn [map_object].
  rewrite get_object. apply preserve_fields_rebuilt. right. by destruct Hk as [->| ->].
Qed.

(** The container statuses of a pod, and whether they name a container. *)
Definition container_statuses (pod : Value) : list Value :=
  unwrap_or [] (pointer_array ["status"; "containerStatuses"] pod).

Definition names_container (name : string) (statuses : list Value) : Prop :=
  exists status, status ∈ statuses /\ get_str "name" status = Some name.

Lemma names_by_name name statuses status :
  names_container name statuses -> get_str "name" status = Some name ->
  named_in (statuses_by_name statuses) status = true.
Proof.
  intros (s & Hs & Hname) Hstatus. unfold named_in. rewrite Hstatus. cbn [is_some_and].
  destruct (statuses_by_name_is_Some _ _ _ Hs Hname) as [? ->]. done.
Qed.

Lemma by_name_not_empty name statuses :
  names_container name statuses -> statuses_by_name statuses <> ∅.
Proof. intros (s & Hs & Hname) He. destruct (statuses_by_name_is_Some _ _ _ Hs Hname) as [? H]. by rewrite He in H. Qed.

(** The two outcomes of the rewrite, for a live pod that reports a container. *)
Lemma rewrite_cases current m m' name phase :
  preserve_terminal_or_confirmed_runtime_state current (Object m) = Object m' ->
  names_container name (container_statuses current) -> obj_get "phase" m = Some phase ->
  let by_name := statuses_by_name (container_statuses current) in
  (exists live_phase, pointer_str ["status"; "phase"] current = Some live_phase
     /\ terminal_phase (Some live_phase) = true
     /\ obj_get "phase" m' = Some (Str live_phase)
     /\ obj_get "containerStatuses" m' = Some (Array (List.filter (named_in by_name) (container_statuses current))))
  \/ ((terminal_phase (pointer_str ["status"; "phase"] current) = true -> terminal_phase (as_str phase) = false ->
        shares_any_container (Object m) by_name = false)
      /\ obj_get "phase" m' = Some phase
      /\ obj_get "containerStatuses" m' = preserve_containers by_name <$> obj_get "containerStatuses" m).
Proof.
  intros Hm' Hnames Hphase by_name. unfold preserve_terminal_or_confirmed_runtime_state in Hm'.
  unfold container_statuses in by_name, Hnames |- *.
  destruct (pointer_array _ current) as [statuses|]; cbn [unwrap_or] in *.
  2: { destruct Hnames as (? & ?%not_elem_of_nil & _). done. }
  fold by_name in Hm'. rewrite bool_decide_eq_false_2 in Hm' by (by eapply by_name_not_empty).
  rewrite get_object, Hphase in Hm'.
  destruct (terminal_phase (pointer_str _ current)) eqn:Hlive; cbn [andb] in Hm'.
  2: { right. cbn [get_mut map_object] in Hm'. injection Hm' as <-. split; [done|].
       rewrite obj_get_alter_ne, Hphase by done. split; [done|]. apply obj_get_alter_eq. }
  destruct (negb (terminal_phase (as_str phase)) && shares_any_container (Object m) by_name) eqn:Hb.
  - left. destruct (pointer_str _ current) as [live_phase|]; [|done]. exists live_phase.
    cbn [map_object] in Hm'. injection Hm' as <-. rewrite obj_get_insert_ne, !obj_get_insert_eq by done. done.
  - right. cbn [get_mut map_object] in Hm'. injection Hm' as <-. split.
    { intros _ Hp. rewrite Hp in Hb. done. }
    rewrite obj_get_alter_ne, Hphase by done. split; [done|]. apply obj_get_alter_eq.
Qed.

(** A kubelet status that carries a phase and reports a container. *)
Definition reports (name : string) (incoming : Value) : Prop :=
  exists m l, incoming = Object m /\ is_Some (obj_get "phase" m)
    /\ obj_get "containerStatuses" m = Some (Array l) /\ names_container name l.

(** The pod with the merged status. *)
Definition write_status (owner : PodStatusOwner) (pod incoming : Value) : Value :=
  map_object (obj_insert "status" (merge_pod_status_for_update "v1" "Pod" pod incoming owner)) pod.

Definition terminal_pod (name : string) (pod : Value) : Prop :=
  is_object pod = true /\ terminal_phase (pointer_str ["status"; "phase"] pod) = true
  /\ names_container name (container_statuses pod).

Lemma write_status_get owner p incoming k m :
  merge_pod_status_for_update "v1" "Pod" (Object p) incoming owner = Object m ->
  pointer ["status"; k] (write_status owner (Object p) incoming) = obj_get k m.
Proof.
  intros Hm. unfold write_status. cbn [map_object pointer pointer_step]. rewrite obj_get_insert_eq, Hm.
  cbn [mbind option_bind pointer_step]. by destruct (obj_get k m).
Qed.

Lemma terminal_step name pod incoming :
  terminal_pod name pod -> reports name incoming -> terminal_pod name (write_status KubeletRuntime pod incoming).
Proof.
  intros (Hobj & Hterm & Hnames) (m & l & -> & [phase Hphase] & Hl & Hin).
  destruct pod as [| | | | |p]; try done. split; [done|].
  destruct (merge_stages KubeletRuntime (Object p) m) as (m4 & Hmerge & _).
  destruct (kubelet_rewrite (Object p) m) as (m2 & m3 & Hm3 & Hm2 & Hget).
  assert (Hk : forall k, k = "phase" \/ k = "containerStatuses" ->
    pointer ["status"; k] (write_status KubeletRuntime (Object p) (Object m)) = obj_get k m3).
  { intros k Hk. erewrite write_status_get by exact Hmerge. rewrite <- (Hget k Hk), Hmerge. done. }
  unfold pointer_str, container_statuses, pointer_array. rewrite !Hk by auto.
  rewrite <- Hm2 in Hphase, Hl by done.
  destruct (rewrite_cases _ _ _ _ _ Hm3 Hnames Hphase) as [(lp & _ & Hlp & -> & ->)|(Hshare & -> & Hcs)].
  - split; [done|]. destruct Hnames as (s & Hs & Hname). exists s. split; [|done]. cbn.
    apply list_elem_of_In, filter_In. split; [by apply list_elem_of_In|].
    eapply names_by_name; [by exists s|done].
  - rewrite Hcs, Hl. cbn [fmap option_fmap option_map preserve_containers mbind option_bind as_array unwrap_or]. split.
    + destruct (terminal_phase (as_str phase)) eqn:Hp; [done|]. specialize (Hshare Hterm eq_refl).
      unfold shares_any_container, pointer_array in Hshare. cbn [pointer pointer_step] in Hshare.
      rewrite Hl in Hshare. cbn in Hshare. destruct Hin as (s & Hs%list_elem_of_In & Hname).
      assert (Hc : existsb (named_in (statuses_by_name (container_statuses (Object p)))) l = true).
      { apply existsb_exists. exists s. split; [done|]. by eapply names_by_name. }
      by rewrite Hc in Hshare.
    + destruct Hin as (s & Hs & Hname). eexists (preserve_container _ s). split; [by apply list_elem_of_fmap_2|].
      unfold get_str. by rewrite preserve_container_get.
Qed.

(** A finished pod stays finished: once its phase is Succeeded or Failed, no
    sequence of kubelet statuses that carry a phase and report one of its
    containers takes it back to a phase that is not terminal, and the container
    stays reported. *)
Theorem terminal_is_final name pod writes :
  terminal_pod name pod -> Forall (reports name) writes ->
  terminal_pod name (fold_left (write_status KubeletRuntime) writes pod).
Proof.
  intros Hpod Hwrites. revert pod Hpod. induction Hwrites as [|w ws Hw _ IH]; intros pod Hpod; [done|].
  cbn [fold_left]. by apply IH, terminal_step.
Qed.

Definition confirmed (status : Value) : bool :=
  opt_is_some (pointer ["state"; "terminated"] status) || opt_is_some (pointer ["state"; "running"] status).

Lemma unique_name statuses s c name :
  NoDup (omap (get_str "name") statuses) -> s ∈ statuses -> c ∈ statuses ->
  get_str "name" s = Some name -> get_str "name" c = Some name -> s = c.
Proof.
  intros Hnd Hs Hc Hsn Hcn. induction statuses as [|x l IH]; [by apply not_elem_of_nil in Hs|].
  cbn [omap list_omap] in Hnd. apply elem_of_cons in Hs as [->|Hs], Hc as [->|Hc]; [done| | |].
  - rewrite Hsn in Hnd. apply NoDup_cons in Hnd as [[] _]. apply list_elem_of_omap. eauto.
  - rewrite Hcn in Hnd. apply NoDup_cons in Hnd as [[] _]. apply list_elem_of_omap. eauto.
  - apply IH; [|done|done]. destruct (get_str "name" x); [by apply NoDup_cons in Hnd as [_ ?]|done].
Qed.

(** A status that still says ContainerCreating after the loop has no confirmed
    live counterpart. *)
Lemma preserve_container_confirmed by_name incoming name current :
  let result := preserve_container by_name incoming in
  get_str "name" result = Some name -> by_name !! name = Some current ->
  same_container_incarnation current result = true -> restarts_differ current result = false ->
  confirmed current = true -> container_creating current = false -> container_creating result = false.
Proof.
  intros result. subst result. unfold get_str, same_container_incarnation, restarts_differ, get_str.
  rewrite !(preserve_container_get _ _ _) by done.
  fold (get_str "containerID" current) (get_str "containerID" incoming).
  fold (same_container_incarnation current incoming) (restarts_differ current incoming).
  intros Hname Hcur Hsame Hrestart Hconf Hnot. unfold preserve_container, get_str. rewrite Hname.
  cbn [mbind option_bind]. rewrite Hcur, Hsame, Hrestart. cbn [negb orb].
  destruct (container_creating incoming) eqn:Hcc; cbn [negb]; [|done].
  unfold confirmed in Hconf. rewrite Hconf. destruct current as [| | | | |c]; try done.
  rewrite get_object. destruct (obj_get "state" c) as [state|] eqn:Hstate.
  - destruct incoming as [| | | | |m]; try done. cbn [map_object]. revert Hnot.
    unfold container_creating, pointer_object. cbn [pointer pointer_step]. by rewrite obj_get_insert_eq, Hstate.
  - revert Hconf. cbn [pointer pointer_step]. by rewrite Hstate.
Qed.

(** A stale ContainerCreating snapshot does not hide a container that is
    known to run or to have ended: whatever the kubelet writes, a merged container
    status whose live counterpart of the same incarnation and restart count is
    running or terminated is not ContainerCreating. *)
Theorem confirmed_state_kept current m status name live :
  is_Some (obj_get "phase" m) ->
  NoDup (omap (get_str "name") (container_statuses current)) ->
  live ∈ container_statuses current -> get_str "name" live = Some name ->
  status ∈ unwrap_or [] (get_array "containerStatuses"
                           (merge_pod_status_for_update "v1" "Pod" current (Object m) KubeletRuntime)) ->
  get_str "name" status = Some name ->
  same_container_incarnation live status = true -> restarts_differ live status = false ->
  confirmed live = true -> container_creating live = false -> container_creating status = false.
Proof.
  intros [phase Hphase] Hnd Hlive Hname Hstatus Hsname Hsame Hrestart Hconf Hnot.
  assert (Hby : statuses_by_name (container_statuses current) !! name = Some live).
  { destruct (statuses_by_name_is_Some _ _ _ Hlive Hname) as [c Hc].
    destruct (statuses_by_name_elem _ _ _ Hc) as [Hin Hcn]. by rewrite Hc, (unique_name _ _ _ _ Hnd Hlive Hin Hname Hcn). }
  destruct (kubelet_rewrite current m) as (m2 & m3 & Hm3 & Hm2 & Hget).
  rewrite <- Hm2 in Hphase by done. unfold get_array in Hstatus. rewrite Hget in Hstatus by auto.
  destruct (rewrite_cases _ _ _ name _ Hm3 ltac:(by exists live) Hphase) as [(_ & _ & _ & _ & Hcs)|(_ & _ & Hcs)].
  - rewrite Hcs in Hstatus. cbn in Hstatus. apply list_elem_of_In, filter_In in Hstatus as [Hin%list_elem_of_In _].
    by rewrite (unique_name _ _ _ _ Hnd Hin Hlive Hsname Hname).
  - rewrite Hcs in Hstatus.
    destruct (obj_get "containerStatuses" m2) as [[| | | |l|]|]; try (by apply not_elem_of_nil in Hstatus).
    apply list_elem_of_fmap in Hstatus as (incoming & -> & _). by eapply preserve_container_confirmed.
Qed.

(** ** Witnesses *)

Definition container_status (state : Value) (restarts : Z) : Value :=
  Object [("containerID", Str "containerd://1"); ("name", Str "app"); ("restartCount", Num (NInt restarts));
          ("state", state)].

Definition terminated_state : Value := Object [("terminated", Object [("exitCode", Num (NInt 0))])].
Definition running_state : Value := Object [("running", Object [])].
Definition creating_state : Value := Object [("waiting", Object [("reason", Str "ContainerCreating")])].

Definition pod_with (phase : string) (conditions : list Value) (status : Value) : Value :=
  Object [("kind", Str "Pod");
          ("status", Object [("conditions", Array conditions); ("containerStatuses", Array [status]);
                             ("phase", Str phase); ("podIP", Str "10.0.0.7")])].

Definition kubelet_status (phase : string) (status : Value) : Value :=
  Object [("containerStatuses", Array [status]); ("phase", Str phase); ("podIP", Str "")].

Lemma unmentioned_fields_kept_witness :
  get "podIP" (merge_pod_status_for_update "v1" "Pod" (pod_with "Running" [] (container_status running_state 0))
                 (kubelet_status "Running" (container_status running_state 0)) KubeletRuntime) = Some (Str "10.0.0.7").
Proof.
  etrans; [apply (unmentioned_fields_kept KubeletRuntime (pod_with "Running" [] (container_status running_state 0))
    [("containerStatuses", Array [container_status running_state 0]); ("phase", Str "Running"); ("podIP", Str "")]
    "podIP"); [|done|done]|done].
  apply (bool_decide_unpack _). by vm_compute.
Defined.

Lemma reports_app phase state restarts : reports "app" (kubelet_status phase (container_status state restarts)).
Proof.
  eexists _, _. split; [done|]. split; [by eexists|]. split; [done|].
  eexists. split; [by apply list_elem_of_singleton|done].
Qed.

Lemma terminal_is_final_witness :
  terminal_pod "app" (fold_left (write_status KubeletRuntime)
    [kubelet_status "Pending" (container_status creating_state 0); kubelet_status "Running" (container_status running_state 0)]
    (pod_with "Succeeded" [] (container_status terminated_state 0))).
Proof.
  apply (terminal_is_final "app").
  - split; [done|]. split; [done|]. eexists. split; [by apply list_elem_of_singleton|done].
  - repeat constructor; apply reports_app.
Defined.

Lemma confirmed_state_kept_witness :
  let merged := merge_pod_status_for_update "v1" "Pod" (pod_with "Running" [] (container_status running_state 0))
                  (kubelet_status "Pending" (container_status creating_state 0)) KubeletRuntime in
  unwrap_or [] (get_array "containerStatuses" merged) = [container_status running_state 0]
  /\ container_creating (container_status running_state 0) = false.
Proof.
  split; [by vm_compute|].
  apply (confirmed_state_kept (pod_with "Running" [] (container_status running_state 0))
    [("containerStatuses", Array [container_status creating_state 0]); ("phase", Str "Pending"); ("podIP", Str "")]
    (container_status running_state 0) "app" (container_status running_state 0)); try by vm_compute.
  - by eexists.
  - apply (bool_decide_unpack _). by vm_compute.
  - by apply list_elem_of_singleton.
  - by apply list_elem_of_singleton.
Defined.

(** A writer replaces a condition it does not own when it carries one of the type. *)
Example foreign_condition_replaced :
  let condition status := Object [("status", Str status); ("type", Str "DisruptionTarget")] in
  let merged := merge_pod_status_for_update "v1" "Pod"
                  (pod_with "Running" [condition "True"] (container_status running_state 0))
                  (Object [("conditions", Array [condition "False"]); ("phase", Str "Running")]) KubeletRuntime in
  owns_condition_type KubeletRuntime "DisruptionTarget" = false
  /\ get_array "conditions" merged = Some [condition "False"].
Proof. by vm_compute. Qed.

(** In a terminal phase the restart count is not compared: a higher one is discarded. *)
Example restart_masked_by_terminal_phase :
  let merged := merge_pod_status_for_update "v1" "Pod" (pod_with "Failed" [] (container_status terminated_state 0))
                  (kubelet_status "Running" (container_status running_state 1)) KubeletRuntime in
  get_array "containerStatuses" merged = Some [container_status terminated_state 0].
Proof. by vm_compute. Qed.
