(* ===== verification/StatusRegistry.v ===== *)
(** * The status merge registry

    [klights-cluster-core/src/status.rs]: how a status write is merged with the
    live status.  The registry gives each kind a profile: Pods go through the
    owner-aware merge of [StatusMerge], Nodes through the heartbeat merge below,
    every other kind through a generic policy.

    chrono's RFC 3339 parser is a parameter that gives the instant a text
    denotes.

    The theorems: a stale write to a kind with a merge policy drops neither a
    live field nor a live condition type; and the node merge takes the pair of
    conditions [Ready] and [NetworkUnavailable] from one writer, never one of
    each. *)

From S2P Require Import Prelude Text Json StatusMerge.

Local Open Scope string_scope.
Local Open Scope rs_scope.

(** ** Profiles *)

Inductive StatusApplyFreshness := Fresh | Stale.

Inductive StatusApplyOrigin := ReplicatedApply | KubeletOutbox | ApiSubresource.

Inductive ConditionMergeMode :=
| ReplaceAllConditions
| PreserveUnmentionedByType
| PreserveLiveByType
| MergeByNewestTransitionTime.

Inductive FieldMergeMode := ReplaceAllFields | PreserveUnmentioned | PreserveLive.

Inductive GenericStaleStatusMode :=
| UseLiveStatus
| StaleMerge (condition_merge : ConditionMergeMode) (field_merge : FieldMergeMode).

Inductive FreshStatusMode := FreshReplace | FreshMerge.

Record GenericStatusMergePolicy := mkPolicy {
  terminal_condition_types : list string;
  fresh_mode : FreshStatusMode;
  stale_mode : GenericStaleStatusMode
}.

Inductive StatusMergeProfileKind :=
| PodTyped
| NodeTyped
| Generic (policy : GenericStatusMergePolicy).

Definition profile (api_version kind : string) : StatusMergeProfileKind :=
  let same av k := (api_version =?s av) && (kind =?s k) in
  if same "v1" "Pod" then PodTyped
  else if same "v1" "Node" then NodeTyped
  else if same "batch/v1" "Job" then
    Generic (mkPolicy ["Complete"; "Failed"] FreshReplace
               (StaleMerge MergeByNewestTransitionTime PreserveUnmentioned))
  else if same "batch/v1" "CronJob" then
    Generic (mkPolicy [] FreshReplace (StaleMerge PreserveUnmentionedByType PreserveUnmentioned))
  else if same "policy/v1" "PodDisruptionBudget" then
    Generic (mkPolicy [] FreshReplace (StaleMerge PreserveUnmentionedByType PreserveUnmentioned))
  else if same "v1" "PersistentVolume" || same "v1" "PersistentVolumeClaim" then
    Generic (mkPolicy [] FreshReplace (StaleMerge PreserveLiveByType PreserveLive))
  else if same "apps/v1" "ReplicaSet" || same "apps/v1" "Deployment" || same "apps/v1" "StatefulSet"
          || same "apps/v1" "DaemonSet" then
    Generic (mkPolicy [] FreshReplace (StaleMerge PreserveUnmentionedByType PreserveUnmentioned))
  else if same "v1" "Service" then
    Generic (mkPolicy [] FreshMerge (StaleMerge PreserveUnmentionedByType PreserveUnmentioned))
  else Generic (mkPolicy [] FreshReplace UseLiveStatus).

(** ** Conditions by type *)

(** [get("type").and_then(as_str).filter(not empty)]. *)
Definition nonempty_type (condition : Value) : option string :=
  opt_filter (fun t => negb (is_empty t)) (get_str "type" condition).

Definition has_nonempty_type (t : string) (condition : Value) : bool := nonempty_type condition =?os Some t.

(** [first_live_conditions_by_type(live).get(t)]. *)
Definition first_live_conditions_by_type (live : list Value) (t : string) : option Value :=
  List.find (has_nonempty_type t) live.

(** The conditions of [live] pushed behind the incoming ones: the first of each
    type that is not in [seen_types]. *)
Fixpoint unseen_live (seen_types : list string) (live : list Value) : list Value :=
  match live with
  | [] => []
  | condition :: live' =>
      match nonempty_type condition with
      | None => unseen_live seen_types live'
      | Some t => if bool_decide (t ∈ seen_types) then unseen_live seen_types live'
                  else condition :: unseen_live (t :: seen_types) live'
      end
  end.

Definition map_array (f : list Value -> list Value) (v : Value) : Value :=
  match v with Array l => Array (f l) | _ => v end.

(** [entry("conditions").or_insert([])] of a status object, then a write to the
    array. *)
Definition with_conditions (f : list Value -> list Value) (status : Value) : Value :=
  map_object (fun m => obj_alter (map_array f) "conditions" (obj_or_insert "conditions" (Array []) m)) status.

Definition live_conditions (live_resource : Value) : option (list Value) :=
  pointer_array ["status"; "conditions"] live_resource.

(** The three condition merges: they differ in what replaces an incoming
    condition. *)
Definition merge_conditions (replace : list Value -> Value -> Value) (live_resource incoming_status : Value)
    : Value :=
  match live_conditions live_resource with
  | None | Some [] => incoming_status
  | Some live =>
      with_conditions (fun incoming =>
        (replace live <$> incoming) ++ unseen_live (omap nonempty_type incoming) live)%list incoming_status
  end.

Section Rfc3339.

Context (parse_from_rfc3339 : string -> option Z).

Definition condition_last_transition_time (condition : Value) : option Z :=
  text ← get_str "lastTransitionTime" condition; parse_from_rfc3339 text.

Definition live_condition_is_newer (live_condition incoming_condition : Value) : bool :=
  match condition_last_transition_time live_condition, condition_last_transition_time incoming_condition with
  | Some live, Some incoming => (incoming <? live)%Z
  | Some _, None => true
  | _, _ => false
  end.

Definition replace_if_newer (live : list Value) (incoming : Value) : Value :=
  match nonempty_type incoming with
  | None => incoming
  | Some t =>
      match first_live_conditions_by_type live t with
      | Some live_condition => if live_condition_is_newer live_condition incoming then live_condition else incoming
      | None => incoming
      end
  end.

Definition replace_by_live (live : list Value) (incoming : Value) : Value :=
  match nonempty_type incoming with
  | None => incoming
  | Some t => unwrap_or incoming (first_live_conditions_by_type live t)
  end.

Definition merge_conditions_by_newest_transition_time := merge_conditions replace_if_newer.
Definition preserve_unmentioned_live_status_conditions_by_type := merge_conditions (fun _ incoming => incoming).
Definition preserve_live_status_conditions_by_type := merge_conditions replace_by_live.

(** ** Generic kinds *)

Definition live_has_terminal_condition (live_resource : Value) (terminal_types : list string) : bool :=
  is_some_and (live_conditions live_resource) (existsb (fun condition =>
    is_some_and (get_str "type" condition) (fun t => existsb (String.eqb t) terminal_types)
    && (get_str "status" condition =?os Some "True"))).

Definition preserve_live_status_authoritatively (live_resource incoming_status : Value) : Value :=
  unwrap_or incoming_status (get "status" live_resource).

Definition live_status_object (live_resource : Value) : option Map := status ← get "status" live_resource; as_object status.

Definition preserve_unmentioned_live_status_fields (live_resource incoming_status : Value) : Value :=
  match live_status_object live_resource with
  | None => incoming_status
  | Some live => map_object (fun m => fold_left (fun m e => obj_or_insert e.1 e.2 m) live m) incoming_status
  end.

Definition preserve_live_status_fields (live_resource incoming_status : Value) : Value :=
  match live_status_object live_resource with
  | None => incoming_status
  | Some live =>
      map_object (fun m =>
        fold_left (fun m e => if e.1 =?s "conditions" then m else obj_insert e.1 e.2 m) live m) incoming_status
  end.

Definition merge_generic_status (policy : GenericStatusMergePolicy) (live_resource incoming_status : Value) : Value :=
  if live_has_terminal_condition live_resource (terminal_condition_types policy)
  then preserve_live_status_authoritatively live_resource incoming_status
  else
    match stale_mode policy with
    | UseLiveStatus => preserve_live_status_authoritatively live_resource incoming_status
    | StaleMerge condition_merge field_merge =>
        let conditions_merged :=
          match condition_merge with
          | ReplaceAllConditions => incoming_status
          | PreserveUnmentionedByType =>
              preserve_unmentioned_live_status_conditions_by_type live_resource incoming_status
          | PreserveLiveByType => preserve_live_status_conditions_by_type live_resource incoming_status
          | MergeByNewestTransitionTime => merge_conditions_by_newest_transition_time live_resource incoming_status
          end in
        match field_merge with
        | ReplaceAllFields => conditions_merged
        | PreserveUnmentioned => preserve_unmentioned_live_status_fields live_resource conditions_merged
        | PreserveLive => preserve_live_status_fields live_resource conditions_merged
        end
    end.

(** ** Nodes *)

Definition condition_by_type (conditions : list Value) (t : string) : option Value :=
  List.find (fun condition => get_str "type" condition =?os Some t) conditions.

Definition condition_status (condition : option Value) : option string := c ← condition; get_str "status" c.

Definition condition_transition_time (condition : option Value) : option string :=
  c ← condition; get_str "lastTransitionTime" c.

Definition condition_is_strictly_newer (left_c right_c : Value) : bool :=
  match get_str "lastTransitionTime" left_c, get_str "lastTransitionTime" right_c with
  | Some l, Some r =>
      match parse_from_rfc3339 l, parse_from_rfc3339 r with
      | Some l', Some r' => (r' <? l')%Z
      | _, _ => match String.compare r l with Lt => true | _ => false end
      end
  | Some _, None => true
  | None, _ => false
  end.

Definition is_network_condition_type (t : string) : bool := (t =?s "Ready") || (t =?s "NetworkUnavailable").


Definition network_condition_pair_is_healthy (ready network : option Value) : bool :=
  (condition_status ready =?os Some "True") && (condition_status network =?os Some "False").

Definition network_condition_pair_is_unavailable (ready network : option Value) : bool :=
  (condition_status ready =?os Some "False") && (condition_status network =?os Some "True").

Definition desired_network_pair_is_coherent (ready network : option Value) : bool :=
  network_condition_pair_is_healthy ready network || network_condition_pair_is_unavailable ready network.

Definition network_condition_pair_timestamps_tie (desired_ready desired_network existing_ready existing_network
    : option Value) : bool :=
  opt_is_some (condition_transition_time desired_ready)
  && (condition_transition_time desired_ready =?os condition_transition_time existing_ready)
  && opt_is_some (condition_transition_time desired_network)
  && (condition_transition_time desired_network =?os condition_transition_time existing_network).

Definition both_newer (desired existing : option Value) : bool :=
  is_some_and desired (fun d => is_some_and existing (fun e => condition_is_strictly_newer d e)).

Definition network_condition_pair_has_newer_transition (desired existing : list Value) : bool :=
  let desired_ready := condition_by_type desired "Ready" in
  let desired_network := condition_by_type desired "NetworkUnavailable" in
  let existing_ready := condition_by_type existing "Ready" in
  let existing_network := condition_by_type existing "NetworkUnavailable" in
  if negb (desired_network_pair_is_coherent desired_ready desired_network) then false
  else if both_newer desired_ready existing_ready then true
  else network_condition_pair_is_healthy desired_ready desired_network
       && both_newer desired_network existing_network.

Definition network_condition_pair_should_replace (desired existing : list Value) : bool :=
  if network_condition_pair_has_newer_transition desired existing then true
  else
    let desired_ready := condition_by_type desired "Ready" in
    let desired_network := condition_by_type desired "NetworkUnavailable" in
    let existing_ready := condition_by_type existing "Ready" in
    let existing_network := condition_by_type existing "NetworkUnavailable" in
    network_condition_pair_is_healthy desired_ready desired_network
    && network_condition_pair_is_unavailable existing_ready existing_network
    && network_condition_pair_timestamps_tie desired_ready desired_network existing_ready existing_network.

Definition network_condition_pair_should_preserve_existing (desired existing : list Value) : bool :=
  desired_network_pair_is_coherent (condition_by_type desired "Ready") (condition_by_type desired "NetworkUnavailable")
  && desired_network_pair_is_coherent (condition_by_type existing "Ready")
       (condition_by_type existing "NetworkUnavailable")
  && negb (network_condition_pair_should_replace desired existing).

(** The first condition of a type, rewritten; [None] when there is none. *)
Fixpoint alter_type (t : string) (f : Value -> Value) (conditions : list Value) : option (list Value) :=
  match conditions with
  | [] => None
  | c :: cs => if get_str "type" c =?os Some t then Some (f c :: cs) else (cons c) <$> alter_type t f cs
  end.

(** One existing condition of the loop. *)
Definition merge_node_condition (replace preserve : bool) (desired : list Value) (existing_cond : Value)
    : list Value :=
  match get_str "type" existing_cond with
  | None => desired
  | Some t =>
      let keep d :=
        if replace && is_network_condition_type t then d
        else if preserve && is_network_condition_type t then existing_cond
        else if negb (condition_is_strictly_newer d existing_cond) then existing_cond
        else d in
      unwrap_or (desired ++ [existing_cond])%list (alter_type t keep desired)
  end.

Definition merge_node_conditions (desired existing : list Value) : list Value :=
  fold_left (merge_node_condition (network_condition_pair_should_replace desired existing)
                                  (network_condition_pair_should_preserve_existing desired existing))
            existing desired.

Definition merge_node_status_conditions (desired existing : Value) : Value :=
  match pointer_array ["status"; "conditions"] existing with
  | None => desired
  | Some existing_conditions =>
      get_mut "status" (get_mut "conditions" (map_array (fun cs => merge_node_conditions cs existing_conditions)))
        desired
  end.

Definition merge_node_status_for_update (incoming_status existing : Value) : Value :=
  let desired := merge_node_status_conditions (Object [("status", incoming_status)]) existing in
  unwrap_or incoming_status (get "status" desired).

(** ** Dispatch *)

Definition merge_pod_status (live_resource incoming_status : Value) (origin : StatusApplyOrigin) : Value :=
  merge_pod_status_for_update "v1" "Pod" live_resource incoming_status
    match origin with
    | KubeletOutbox => KubeletRuntime
    | ApiSubresource => ApiStatusSubresource
    | ReplicatedApply => StatusMerge.ReplicatedApply
    end.

Definition merge_status_for_apply (api_version kind : string) (live_resource incoming_status : Value)
    (freshness : StatusApplyFreshness) (origin : StatusApplyOrigin) : Value :=
  match profile api_version kind, freshness with
  | Generic (mkPolicy _ FreshReplace _), Fresh => incoming_status
  | PodTyped, _ => merge_pod_status live_resource incoming_status origin
  | NodeTyped, _ => merge_node_status_for_update incoming_status live_resource
  | Generic policy, _ => merge_generic_status policy live_resource incoming_status
  end.

Definition freshness_of (expected_rv : option Z) (current_rv : Z) : StatusApplyFreshness :=
  if is_some_and expected_rv (fun expected => expected <? current_rv)%Z then Stale else Fresh.

Definition apply_status_merge (api_version kind : string) (live_resource incoming_status : Value)
    (expected_rv : option Z) (current_rv : Z) (kubelet_origin : bool) : Value * StatusApplyFreshness :=
  let freshness := freshness_of expected_rv current_rv in
  let origin := if kubelet_origin then KubeletOutbox else ReplicatedApply in
  (merge_status_for_apply api_version kind live_resource incoming_status freshness origin, freshness).

(** ** External addresses *)

Definition object_or_empty (v : Value) : Value := if is_object v then v else Object [].
Definition array_or_empty (v : Value) : Value := if is_array v then v else Array [].

Definition is_external_ip (address : Value) : bool := get_str "type" address =?os Some "ExternalIP".

Definition project_address (external_ip : string) (address : Value) : Value :=
  if is_external_ip address && negb (get_str "address" address =?os Some external_ip)
  then map_object (obj_insert "address" (Str external_ip)) address else address.

Definition project_addresses (external_ip : string) (addresses : list Value) : list Value :=
  let projected := project_address external_ip <$> addresses in
  if existsb is_external_ip addresses then projected
  else (projected ++ [Object [("address", Str external_ip); ("type", Str "ExternalIP")]])%list.

Definition set_node_external_ip (node : Value) (external_ip : string) : Value * bool :=
  let external_ip := trim external_ip in
  if is_empty external_ip then (node, false)
  else
    match as_object node with
    | None => (node, false)
    | Some m =>
        let status := object_or_empty (unwrap_or (Object []) (obj_get "status" m)) in
        let before := unwrap_or [] (as_array (array_or_empty (unwrap_or (Array []) (get "addresses" status)))) in
        (Object (obj_insert "status"
           (map_object (obj_insert "addresses" (Array (project_addresses external_ip before))) status) m),
         negb (existsb is_external_ip before)
         || existsb (fun a => is_external_ip a && negb (get_str "address" a =?os Some external_ip)) before)
    end.

(** ** Nothing live is lost *)

Definition condition_types (conditions : list Value) : list string := omap nonempty_type conditions.

(** The condition types of a status object. *)
Definition status_condition_types (m : Map) : list string :=
  condition_types (unwrap_or [] (v ← obj_get "conditions" m; as_array v)).

Lemma unseen_live_types seen live t :
  t ∈ condition_types live -> t ∈ seen \/ t ∈ condition_types (unseen_live seen live).
Proof.
  revert seen. induction live as [|c live IH]; intros seen; unfold condition_types; cbn [omap list_omap unseen_live];
    [by intros ?%not_elem_of_nil|].
  destruct (nonempty_type c) as [u|] eqn:Hu; [|apply IH]. rewrite elem_of_cons.
  case_bool_decide as Hseen.
  { intros [->|Ht]; [by left|]. by apply IH. }
  cbn [omap list_omap]. rewrite Hu, elem_of_cons. intros [->|Ht]; [by right; left|].
  destruct (IH (u :: seen) Ht) as [[->|H]%elem_of_cons|H]; auto.
Qed.

Lemma first_live_type live t c : first_live_conditions_by_type live t = Some c -> nonempty_type c = Some t.
Proof. intros [_ H]%find_some. by apply opt_string_eqb_iff in H. Qed.

(** A replacement for an incoming condition that keeps its type. *)
Definition keeps_type (replace : list Value -> Value -> Value) : Prop :=
  forall live c, nonempty_type (replace live c) = nonempty_type c.

Lemma replace_if_newer_type : keeps_type replace_if_newer.
Proof.
  intros live c. unfold replace_if_newer. destruct (nonempty_type c) as [t|] eqn:Ht; [|done].
  destruct (first_live_conditions_by_type live t) as [d|] eqn:Hd; [|done].
  destruct (live_condition_is_newer d c); [|done]. by eapply first_live_type.
Qed.

Lemma replace_by_live_type : keeps_type replace_by_live.
Proof.
  intros live c. unfold replace_by_live. destruct (nonempty_type c) as [t|] eqn:Ht; [|done].
  destruct (first_live_conditions_by_type live t) as [d|] eqn:Hd; [|done]. by eapply first_live_type.
Qed.

Lemma keeps_type_types replace live incoming :
  keeps_type replace -> condition_types (replace live <$> incoming) = condition_types incoming.
Proof.
  intros Hk. unfold condition_types. induction incoming as [|c l IH]; [done|].
  cbn [fmap list_fmap omap list_omap]. by rewrite Hk, IH.
Qed.

Definition mergeable (m : Map) : Prop := is_none_or (obj_get "conditions" m) is_array = true.

Lemma live_conditions_status live lm :
  get "status" live = Some (Object lm) -> live_conditions live = (v ← obj_get "conditions" lm; as_array v).
Proof.
  intros H. unfold live_conditions, pointer_array. cbn [pointer]. destruct live; try done. cbn [get as_object mbind option_bind] in H.
  cbn [pointer_step]. rewrite H. cbn [mbind option_bind pointer_step].
  by destruct (obj_get "conditions" lm).
Qed.

Lemma merge_conditions_keeps replace live lm m :
  keeps_type replace -> get "status" live = Some (Object lm) -> mergeable m ->
  exists m', merge_conditions replace live (Object m) = Object m'
    /\ (forall k, k <> "conditions" -> obj_get k m' = obj_get k m)
    /\ status_condition_types lm ⊆ status_condition_types m'.
Proof.
  intros Hk Hl Hm. unfold merge_conditions. rewrite (live_conditions_status _ _ Hl).
  unfold status_condition_types at 1. destruct (v ← obj_get "conditions" lm; as_array v) as [[|c cs]|].
  1, 3: exists m; split; [done|]; split; [done|]; intros t ?%not_elem_of_nil; done.
  eexists. split; [done|]. split.
  { intros k Hne. rewrite obj_get_alter_ne, obj_get_or_insert_ne by done. done. }
  intros t Ht. cbn [unwrap_or] in Ht. unfold status_condition_types.
  assert (exists incoming, obj_get "conditions" (obj_or_insert "conditions" (Array []) m) = Some (Array incoming))
    as [incoming Hi].
  { rewrite obj_get_or_insert_eq. unfold mergeable in Hm. destruct (obj_get "conditions" m) as [[]|]; try done; eauto. }
  rewrite obj_get_alter_eq, Hi. cbn [fmap option_fmap option_map map_array mbind option_bind as_array unwrap_or].
  unfold condition_types. rewrite omap_app. apply elem_of_app.
  destruct (unseen_live_types (omap nonempty_type incoming) (c :: cs) t Ht) as [H|H]; [left|by right].
  by rewrite (keeps_type_types replace _ incoming Hk).
Qed.

Lemma fill_fields_get live m k :
  obj_get k (fold_left (fun m e => obj_or_insert e.1 e.2 m) live m) = or_else (obj_get k m) (obj_get k live).
Proof.
  revert m. induction live as [|[k' v] live IH]; intros m; cbn [fold_left fst snd obj_get].
  { by destruct (obj_get k m). }
  rewrite IH. destruct (String.eqb_spec k k') as [->|Hne].
  - rewrite obj_get_or_insert_eq. by destruct (obj_get k' m).
  - by rewrite obj_get_or_insert_ne.
Qed.

Lemma overwrite_fields_get live m k :
  k <> "conditions" ->
  (is_Some (obj_get k live) \/ is_Some (obj_get k m)) ->
  is_Some (obj_get k (fold_left (fun m e => if e.1 =?s "conditions" then m else obj_insert e.1 e.2 m) live m)).
Proof.
  intros Hk. revert m. induction live as [|[k' v] live IH]; intros m; cbn [fold_left fst snd obj_get].
  { intros [[? [=]]|H]; done. }
  intros H. apply IH. destruct (String.eqb_spec k' "conditions") as [->|Hc].
  { rewrite (proj2 (String.eqb_neq k _)) in H by done. done. }
  destruct (String.eqb_spec k k') as [->|Hne]; [right; rewrite obj_get_insert_eq; by eexists|].
  by rewrite obj_get_insert_ne.
Qed.

Lemma overwrite_fields_conditions live m :
  obj_get "conditions" (fold_left (fun m e => if e.1 =?s "conditions" then m else obj_insert e.1 e.2 m) live m)
  = obj_get "conditions" m.
Proof.
  revert m. induction live as [|[k' v] live IH]; intros m; cbn [fold_left fst snd]; [done|]. rewrite IH.
  destruct (String.eqb_spec k' "conditions") as [->|Hc]; [done|]. by rewrite obj_get_insert_ne.
Qed.

(** What a merged status keeps of the live one. *)
Definition keeps_live (lm m' : Map) : Prop :=
  (forall k, k <> "conditions" -> is_Some (obj_get k lm) -> is_Some (obj_get k m'))
  /\ status_condition_types lm ⊆ status_condition_types m'.

Lemma preserve_unmentioned_keeps live lm m :
  get "status" live = Some (Object lm) -> status_condition_types lm ⊆ status_condition_types m ->
  exists m', preserve_unmentioned_live_status_fields live (Object m) = Object m' /\ keeps_live lm m'.
Proof.
  intros Hl Hc. unfold preserve_unmentioned_live_status_fields, live_status_object. rewrite Hl. cbn.
  eexists. split; [done|]. split.
  - intros k _ Hs. rewrite fill_fields_get. destruct (obj_get k m); [by eexists|done].
  - unfold status_condition_types in *. rewrite fill_fields_get. destruct (obj_get "conditions" m); [done|].
    cbn [or_else]. done.
Qed.

Lemma preserve_live_keeps live lm m :
  get "status" live = Some (Object lm) -> status_condition_types lm ⊆ status_condition_types m ->
  exists m', preserve_live_status_fields live (Object m) = Object m' /\ keeps_live lm m'.
Proof.
  intros Hl Hc. unfold preserve_live_status_fields, live_status_object. rewrite Hl. cbn.
  eexists. split; [done|]. split.
  - intros k Hk Hs. apply overwrite_fields_get; auto.
  - unfold status_condition_types in *. by rewrite overwrite_fields_conditions.
Qed.

Lemma use_live live lm status :
  get "status" live = Some (Object lm) ->
  exists m', preserve_live_status_authoritatively live status = Object m' /\ keeps_live lm m' /\ m' = lm.
Proof. intros Hl. unfold preserve_live_status_authoritatively. rewrite Hl. by eexists. Qed.

(** The registry never replaces stale conditions or fields wholesale. *)
Lemma profile_policy api_version kind policy :
  profile api_version kind = Generic policy ->
  stale_mode policy = UseLiveStatus
  \/ exists cm fm, stale_mode policy = StaleMerge cm fm /\ cm <> ReplaceAllConditions /\ fm <> ReplaceAllFields.
Proof.
  unfold profile. intros H.
  repeat (match type of H with context [if ?b then _ else _] => destruct b end; [by simplify_eq/=; eauto 8|]).
  simplify_eq. by left.
Qed.

(** C20.  A stale status write loses nothing of the live status: for every kind the
    registry merges by a generic policy, each live field is still present in
    the merged status and each live condition type is still represented; and a
    live status with a terminal condition of the policy is kept exactly. *)
Theorem stale_status_write_loses_nothing api_version kind policy live lm m origin
    (Hprofile : profile api_version kind = Generic policy)
    (Hlive : get "status" live = Some (Object lm))
    (Hm : mergeable m) :
  exists m', merge_status_for_apply api_version kind live (Object m) Stale origin = Object m'
    /\ keeps_live lm m'
    /\ (live_has_terminal_condition live (terminal_condition_types policy) = true -> m' = lm).
Proof.
  unfold merge_status_for_apply. rewrite Hprofile. destruct policy as [terminal fresh stale].
  assert (Hgen : exists m', merge_generic_status (mkPolicy terminal fresh stale) live (Object m) = Object m'
    /\ keeps_live lm m' /\ (live_has_terminal_condition live terminal = true -> m' = lm)); [|by destruct fresh].
  unfold merge_generic_status. cbn [terminal_condition_types stale_mode].
  destruct (live_has_terminal_condition live terminal).
  { destruct (use_live live lm (Object m) Hlive) as (m' & ? & ? & ?). by exists m'. }
  destruct (profile_policy _ _ _ Hprofile) as [Hu|(cm & fm & Hu & Hcm & Hfm)]; cbn [stale_mode] in Hu; subst stale.
  { destruct (use_live live lm (Object m) Hlive) as (m' & ? & ? & ?). by exists m'. }
  set (merged := match cm with ReplaceAllConditions => _ | _ => _ end).
  assert (exists m1, merged = Object m1 /\ status_condition_types lm ⊆ status_condition_types m1) as (m1 & -> & Hc).
  { destruct cm; [done| | |].
    - destruct (merge_conditions_keeps (fun _ c => c) live lm m) as (m1 & ? & _ & ?); [by intros ??|done..|eauto].
    - destruct (merge_conditions_keeps replace_by_live live lm m replace_by_live_type) as (m1 & ? & _ & ?); eauto.
    - destruct (merge_conditions_keeps replace_if_newer live lm m replace_if_newer_type) as (m1 & ? & _ & ?); eauto. }
  destruct fm; [done| |].
  - destruct (preserve_unmentioned_keeps live lm m1 Hlive Hc) as (m' & ? & ?). by exists m'.
  - destruct (preserve_live_keeps live lm m1 Hlive Hc) as (m' & ? & ?). by exists m'.
Qed.

(** ** The network pair of a node *)

Definition network_pair (conditions : list Value) : option Value * option Value :=
  (condition_by_type conditions "Ready", condition_by_type conditions "NetworkUnavailable").

Definition coherent (conditions : list Value) : bool :=
  desired_network_pair_is_coherent (condition_by_type conditions "Ready")
    (condition_by_type conditions "NetworkUnavailable").

Lemma alter_type_None t f conditions :
  alter_type t f conditions = None -> condition_by_type conditions t = None.
Proof.
  induction conditions as [|c cs IH]; [done|]. cbn [alter_type]. unfold condition_by_type. cbn [List.find].
  destruct (_ =?os _); [done|]. intros H. apply IH. by destruct (alter_type t f cs).
Qed.

Lemma condition_by_type_alter t u f conditions altered :
  alter_type u f conditions = Some altered ->
  (forall c, get_str "type" c = Some u -> get_str "type" (f c) = Some u) ->
  condition_by_type altered t
  = (if u =?s t then f <$> condition_by_type conditions t else condition_by_type conditions t).
Proof.
  intros Ha Hf. revert altered Ha. unfold condition_by_type.
  induction conditions as [|c cs IH]; [done|]. intros altered. cbn [alter_type List.find].
  destruct (get_str "type" c =?os Some u) eqn:Hu.
  - intros [= <-]. apply opt_string_eqb_iff in Hu. cbn [List.find]. rewrite (Hf _ Hu), Hu. cbn [opt_eqb].
    destruct (u =?s t); done.
  - destruct (alter_type u f cs) as [cs'|]; [|done]. cbn [fmap option_fmap option_map]. intros [= <-]. cbn [List.find].
    rewrite (IH cs' eq_refl). destruct (get_str "type" c =?os Some t) eqn:Ht; [|done].
    destruct (String.eqb_spec u t) as [->|]; [congruence|done].
Qed.

Lemma condition_by_type_snoc t conditions c :
  condition_by_type (conditions ++ [c]) t
  = or_else (condition_by_type conditions t) (if get_str "type" c =?os Some t then Some c else None).
Proof.
  unfold condition_by_type. induction conditions as [|d l IH]; cbn [app List.find or_else]; [done|].
  by destruct (get_str "type" d =?os Some t).
Qed.

(** A network condition kept whole: what one existing condition does to the
    desired one of its type. *)
Definition pick (replace : bool) (d : option Value) (e : Value) : Value :=
  if replace then unwrap_or e d else e.

Lemma merge_node_condition_network replace t d e :
  is_network_condition_type t = true ->
  condition_by_type (merge_node_condition replace (negb replace) d e) t
  = if get_str "type" e =?os Some t then Some (pick replace (condition_by_type d t) e)
    else condition_by_type d t.
Proof.
  intros Hnet. unfold merge_node_condition. destruct (get_str "type" e) as [u|] eqn:Hu; [|done].
  match goal with |- context [alter_type u ?k d] => set (keep := k) end. cbn [opt_eqb].
  assert (Hkeep : forall c, get_str "type" c = Some u -> get_str "type" (keep c) = Some u).
  { intros c Hc. unfold keep. repeat case_match; done. }
  destruct (alter_type u keep d) as [d'|] eqn:Ha; cbn [unwrap_or].
  - rewrite (condition_by_type_alter t _ _ _ _ Ha Hkeep). destruct (String.eqb_spec u t) as [->|]; [|done].
    destruct (condition_by_type d t) as [c|] eqn:Hc.
    + cbn [fmap option_fmap option_map]. unfold keep, pick. rewrite Hnet. by destruct replace.
    + exfalso. clear -Ha Hc. revert d' Ha. induction d as [|c d IH]; [done|]. intros d'. cbn [alter_type].
      unfold condition_by_type in Hc. cbn [List.find] in Hc. destruct (_ =?os _); [done|].
      destruct (alter_type t keep d); [|done]. intros _. by eapply (IH Hc).
  - rewrite condition_by_type_snoc, Hu. cbn [opt_eqb]. destruct (String.eqb_spec u t) as [->|].
    + rewrite (alter_type_None _ _ _ Ha). by destruct replace.
    + by destruct (condition_by_type d t).
Qed.

Lemma condition_by_type_types t conditions :
  condition_by_type conditions t = None <-> t ∉ types_of conditions.
Proof.
  unfold condition_by_type, types_of. induction conditions as [|c cs IH]; cbn [List.find omap list_omap].
  { split; [|done]. intros _. apply not_elem_of_nil. }
  destruct (get_str "type" c) as [u|]; cbn [opt_eqb]; [|done]. rewrite not_elem_of_cons.
  destruct (String.eqb_spec u t) as [->|Hne].
  - split; [done|]. by intros [? _].
  - rewrite IH. split; [by split|]. by intros [_ ?].
Qed.

Lemma merge_network_replace existing desired t :
  is_network_condition_type t = true -> is_Some (condition_by_type desired t) ->
  condition_by_type (fold_left (merge_node_condition true false) existing desired) t = condition_by_type desired t.
Proof.
  intros Hnet. revert desired. induction existing as [|e existing IH]; intros desired [c Hc]; [done|].
  cbn [fold_left]. pose proof (merge_node_condition_network true t desired e Hnet) as Hstep. cbn [negb] in Hstep.
  assert (condition_by_type (merge_node_condition true false desired e) t = condition_by_type desired t) as Heq.
  { rewrite Hstep, Hc. by destruct (_ =?os _). }
  rewrite IH; [done|]. rewrite Heq, Hc. by eexists.
Qed.

Lemma merge_network_preserve existing desired t :
  is_network_condition_type t = true -> NoDup (types_of existing) ->
  condition_by_type (fold_left (merge_node_condition false true) existing desired) t
  = or_else (condition_by_type existing t) (condition_by_type desired t).
Proof.
  intros Hnet. revert desired. induction existing as [|e existing IH]; intros desired; [done|].
  unfold types_of. cbn [omap list_omap fold_left]. intros Hnd.
  pose proof (merge_node_condition_network false t desired e Hnet) as Hstep. cbn [negb pick] in Hstep.
  unfold condition_by_type at 2. cbn [List.find]. fold (condition_by_type existing t).
  destruct (get_str "type" e) as [u|] eqn:Hu; cbn [opt_eqb] in *; [|by rewrite IH, Hstep].
  apply NoDup_cons in Hnd as [Hnot Hnd]. rewrite IH, Hstep by done.
  destruct (String.eqb_spec u t) as [->|]; [|done]. apply condition_by_type_types in Hnot. by rewrite Hnot.
Qed.

Lemma coherent_pair conditions :
  coherent conditions = true ->
  is_Some (condition_by_type conditions "Ready") /\ is_Some (condition_by_type conditions "NetworkUnavailable").
Proof.
  unfold coherent, desired_network_pair_is_coherent, network_condition_pair_is_healthy,
    network_condition_pair_is_unavailable, condition_status.
  intros H. destruct (condition_by_type conditions "Ready"), (condition_by_type conditions "NetworkUnavailable");
    cbn in H; rewrite ?andb_false_r in H; try done; split; by eexists.
Qed.

Lemma merge_network_pair desired existing :
  coherent desired = true -> coherent existing = true -> NoDup (types_of existing) ->
  network_pair (merge_node_conditions desired existing)
  = if network_condition_pair_should_replace desired existing then network_pair desired else network_pair existing.
Proof.
  intros Hd He Hnd. unfold merge_node_conditions, network_condition_pair_should_preserve_existing.
  fold (coherent desired) (coherent existing). rewrite Hd, He. cbn [andb].
  destruct (coherent_pair _ Hd) as [Hd1 Hd2], (coherent_pair _ He) as [[? He1] [? He2]].
  unfold network_pair. destruct (network_condition_pair_should_replace desired existing); cbn [negb].
  - by rewrite !merge_network_replace.
  - rewrite !merge_network_preserve by done. by rewrite He1, He2.
Qed.


End Rfc3339.

(** ** Examples *)

(** A clock that reads the texts the examples use. *)
Definition sample_clock (text : string) : option Z :=
  if text =?s "2026-01-01T00:00:00Z" then Some 0%Z
  else if text =?s "2026-01-01T00:01:00Z" then Some 60%Z else None.

Definition node_condition (t status time : string) : Value :=
  Object [("lastTransitionTime", Str time); ("status", Str status); ("type", Str t)].

Definition node_with (conditions : list Value) : Value :=
  Object [("status", Object [("conditions", Array conditions)])].


Lemma stale_status_write_loses_nothing_witness :
  let done_job := Object [("status", Object [("conditions", Array [Object [("status", Str "True"); ("type", Str "Complete")]]);
                                             ("succeeded", Num (NInt 1))])] in
  exists m', merge_status_for_apply sample_clock "batch/v1" "Job" done_job (Object [("active", Num (NInt 1))]) Stale
               ReplicatedApply = Object m'
    /\ is_Some (obj_get "succeeded" m') /\ ("Complete" ∈ status_condition_types m')
    /\ Some (Object m') = get "status" done_job.
Proof.
  intros done_job.
  destruct (stale_status_write_loses_nothing sample_clock "batch/v1" "Job" _ done_job _ [("active", Num (NInt 1))]
              ReplicatedApply eq_refl eq_refl eq_refl) as (m' & H1 & [H2 H3] & H4).
  exists m'. split; [done|]. split; [apply H2; [done|by eexists]|]. split; [apply H3; vm_compute; by left|].
  rewrite (H4 eq_refl). reflexivity.
Defined.
