(* ===== verification/ResourceSemantics.v ===== *)
(** * Main-resource writes and the status subresource

    [klights-types/src/resource_semantics.rs]: which kinds have a status
    subresource, how a main-resource write keeps the live status, and how a Pod
    is marked as terminating.

    The theorem: a main-resource write cannot set the status of a kind that
    has a status subresource.  What it proposes is dropped, and the live
    status is kept (for Pods: merged by the central Pod status merge). *)

From S2P Require Import Prelude Text Json StatusMerge.

Local Open Scope string_scope.
Local Open Scope rs_scope.

Definition builtin_status_subresources : list (string * string) :=
  [ ("admissionregistration.k8s.io/v1", "MutatingWebhookConfiguration");
    ("admissionregistration.k8s.io/v1", "ValidatingWebhookConfiguration");
    ("admissionregistration.k8s.io/v1", "ValidatingAdmissionPolicy");
    ("admissionregistration.k8s.io/v1", "ValidatingAdmissionPolicyBinding");
    ("apiextensions.k8s.io/v1", "CustomResourceDefinition");
    ("apiregistration.k8s.io/v1", "APIService");
    ("apps/v1", "DaemonSet"); ("apps/v1", "Deployment"); ("apps/v1", "ReplicaSet");
    ("apps/v1", "StatefulSet");
    ("autoscaling/v1", "HorizontalPodAutoscaler"); ("autoscaling/v2", "HorizontalPodAutoscaler");
    ("batch/v1", "CronJob"); ("batch/v1", "Job");
    ("certificates.k8s.io/v1", "CertificateSigningRequest");
    ("flowcontrol.apiserver.k8s.io/v1", "FlowSchema");
    ("flowcontrol.apiserver.k8s.io/v1", "PriorityLevelConfiguration");
    ("networking.k8s.io/v1", "Ingress"); ("policy/v1", "PodDisruptionBudget");
    ("storage.k8s.io/v1", "CSINode"); ("storage.k8s.io/v1", "VolumeAttachment");
    ("v1", "Node"); ("v1", "Namespace"); ("v1", "PersistentVolume");
    ("v1", "PersistentVolumeClaim"); ("v1", "Pod"); ("v1", "ReplicationController");
    ("v1", "ResourceQuota"); ("v1", "Service") ].

Definition has_builtin_status_subresource (api_version kind : string) : bool :=
  existsb (fun '(a, k) => (api_version =?s a) && (kind =?s k)) builtin_status_subresources.

(** ** Pod conditions *)

Definition pod_node_name (pod : Value) : option string :=
  opt_filter (fun n => negb (is_empty n)) (pointer_str ["spec"; "nodeName"] pod).

Definition is_pod_bind_transition (current proposed : Value) : bool :=
  opt_is_none (pod_node_name current) && opt_is_some (pod_node_name proposed).

Definition pod_condition (pod : Value) (condition_type : string) : option Value :=
  conditions ← pointer_array ["status"; "conditions"] pod;
  List.find (fun condition => get_str "type" condition =?os Some condition_type) conditions.

Definition upsert_pod_condition (status condition : Value) : Value :=
  match status with
  | Object status_object =>
      match get_str "type" condition with
      | None => status
      | Some condition_type =>
          let status_object := obj_or_insert "conditions" (Array []) status_object in
          let push conditions :=
            let conditions := match conditions with Array l => l | _ => [] end in
            Array (filter (fun existing =>
                     negb (get_str "type" existing =?os Some condition_type) = true) conditions
                   ++ [condition])%list in
          Object (obj_alter push "conditions" status_object)
      end
  | _ => status
  end.

Definition carry_scheduler_bind_pod_scheduled_condition (api_version kind : string)
    (current proposed status : Value) : Value :=
  if negb (api_version =?s "v1") || negb (kind =?s "Pod") then status
  else if negb (is_pod_bind_transition current proposed) then status
  else
    match pod_condition proposed "PodScheduled" with
    | None => status
    | Some proposed_condition =>
        if negb (get_str "status" proposed_condition =?os Some "True") then status
        else upsert_pod_condition status proposed_condition
    end.

(** ** Delete marks *)

Definition is_pod_delete_mark_patch (api_version kind : string) (patch : Value) : bool :=
  if negb (api_version =?s "v1") || negb (kind =?s "Pod") then false
  else
    match patch with
    | Object patch_obj =>
        if negb (forallb (fun key => (key =?s "metadata") || (key =?s "status")) patch_obj.*1) then false
        else
          match obj_get "metadata" patch_obj ≫= as_object with
          | None => false
          | Some metadata =>
              if is_none_or (obj_get "deletionTimestamp" metadata) is_null then false
              else
                forallb (fun key =>
                  (key =?s "deletionTimestamp") || (key =?s "deletionGracePeriodSeconds") ||
                  (key =?s "generation")) metadata.*1
          end
    | _ => false
    end.

Definition pod_delete_mark_transition_time (patch : Value) : option string :=
  conditions ← pointer_array ["status"; "conditions"] patch;
  condition ← List.find (fun condition => pointer_str ["type"] condition =?os Some "Ready") conditions;
  pointer_str ["lastTransitionTime"] condition.

Definition is_zero_grace_pod_delete_mark_patch (api_version kind : string) (patch : Value) : bool :=
  if negb (is_pod_delete_mark_patch api_version kind patch) then false
  else
    match pointer ["metadata"; "deletionGracePeriodSeconds"] patch ≫= as_i64 with
    | Some 0%Z => true
    | _ => false
    end.

Definition pod_delete_mark_patch_without_status (patch : Value) : Value :=
  map_object (obj_remove "status") patch.

(** [iter_mut().find(..)] with a write to the element found. *)
Fixpoint alter_first (p : Value -> bool) (f : Value -> Value) (l : list Value) : option (list Value) :=
  match l with
  | [] => None
  | v :: l' => if p v then Some (f v :: l') else (cons v) <$> alter_first p f l'
  end.

Definition terminating_condition (now : string) (condition : Map) : Map :=
  let status_changed := negb ((obj_get "status" condition ≫= as_str) =?os Some "False") in
  let condition := obj_insert "status" (Str "False") condition in
  let condition := obj_insert "reason" (Str "PodTerminating") condition in
  let condition := obj_insert "message" (Str "Pod is terminating") condition in
  if status_changed || negb (obj_contains_key "lastTransitionTime" condition)
  then obj_insert "lastTransitionTime" (Str now) condition
  else condition.

Definition upsert_terminating_readiness_condition (conditions : list Value)
    (condition_type now : string) : list Value :=
  match alter_first (fun condition => pointer_str ["type"] condition =?os Some condition_type)
          (map_object (terminating_condition now)) conditions with
  | Some conditions => conditions
  | None =>
      (conditions ++
      [Object [("lastTransitionTime", Str now); ("message", Str "Pod is terminating");
               ("reason", Str "PodTerminating"); ("status", Str "False");
               ("type", Str condition_type)]])%list
  end.

Definition mark_containers_unready (statuses : Value) : Value :=
  match statuses with
  | Array l => Array (map_object (obj_insert "ready" (Bool false)) <$> l)
  | _ => statuses
  end.

Definition mark_status_unready (now : string) (status : Map) : Map :=
  let status := fold_left (fun s name => obj_alter mark_containers_unready name s)
                  ["containerStatuses"; "initContainerStatuses"] status in
  let status := obj_or_insert "conditions" (Array []) status in
  let upsert conditions :=
    let conditions := match conditions with Array l => l | _ => [] end in
    Array (fold_left (fun c t => upsert_terminating_readiness_condition c t now)
             ["Ready"; "ContainersReady"] conditions) in
  obj_alter upsert "conditions" status.

Definition mark_terminating_pod_unready_at (data : Value) (now : string) : Value :=
  get_mut "status" (map_object (mark_status_unready now)) data.

(** ** Main-resource updates *)

Definition preserve_status_subresource_on_main_update (api_version kind : string)
    (current proposed : Value) : Value :=
  if negb (has_builtin_status_subresource api_version kind) then proposed
  else
    match proposed with
    | Object obj =>
        let terminating_transition_time :=
          if (api_version =?s "v1") && (kind =?s "Pod") &&
             is_some_and (pointer ["metadata"; "deletionTimestamp"] proposed)
               (fun timestamp => negb (is_null timestamp))
          then pod_delete_mark_transition_time proposed else None in
        match get "status" current with
        | Some status =>
            let status :=
              merge_pod_status_for_update api_version kind proposed status ApiStatusSubresource in
            let status :=
              carry_scheduler_bind_pod_scheduled_condition api_version kind current proposed status in
            let proposed := Object (obj_insert "status" status obj) in
            match terminating_transition_time with
            | Some transition_time => mark_terminating_pod_unready_at proposed transition_time
            | None => proposed
            end
        | None => Object (obj_remove "status" obj)
        end
    | _ => proposed
    end.

(** ** What a main-resource write can reach *)

(** The status fields a Pod's main write may touch: the conditions (scheduler
    owned types, or readiness set to false) and, when it marks the Pod as
    terminating, the readiness of its containers. *)
Definition main_write_fields : list string :=
  ["conditions"; "containerStatuses"; "initContainerStatuses"].

Definition status_field (k : string) (v : Value) : option Value := status ← get "status" v; get k status.

Lemma upsert_pod_condition_field m condition k :
  k <> "conditions" ->
  exists m', upsert_pod_condition (Object m) condition = Object m' /\ obj_get k m' = obj_get k m.
Proof.
  intros Hk. unfold upsert_pod_condition. destruct (get_str "type" condition); [|eauto].
  eexists. split; [done|]. by rewrite obj_get_alter_ne, obj_get_or_insert_ne.
Qed.

Lemma carry_field av kind current proposed m k :
  k <> "conditions" ->
  exists m', carry_scheduler_bind_pod_scheduled_condition av kind current proposed (Object m) = Object m'
    /\ obj_get k m' = obj_get k m.
Proof.
  intros Hk. unfold carry_scheduler_bind_pod_scheduled_condition.
  repeat case_match; eauto using upsert_pod_condition_field.
Qed.

Lemma merge_api_field av kind proposed m k :
  k <> "conditions" ->
  exists m', merge_pod_status_for_update av kind proposed (Object m) ApiStatusSubresource = Object m'
    /\ obj_get k m' = obj_get k m.
Proof.
  intros Hk. destruct (decide (av = "v1" /\ kind = "Pod")) as [[ -> -> ]|Hne].
  - destruct (merge_stages ApiStatusSubresource proposed m) as (m3 & -> & H3 & _).
    eexists. split; [done|]. rewrite preserve_fields_rebuilt by by right. by apply H3.
  - exists m. split; [|done]. unfold merge_pod_status_for_update.
    destruct (String.eqb_spec av "v1"), (String.eqb_spec kind "Pod"); try done. naive_solver.
Qed.

Lemma mark_unready_field now m k :
  k ∉ main_write_fields -> obj_get k (mark_status_unready now m) = obj_get k m.
Proof.
  unfold main_write_fields. rewrite !not_elem_of_cons. intros (H1 & H2 & H3 & _).
  unfold mark_status_unready. cbn [fold_left].
  by rewrite obj_get_alter_ne, obj_get_or_insert_ne, !obj_get_alter_ne.
Qed.

Lemma mark_terminating_get now m k :
  get k (mark_terminating_pod_unready_at (Object m) now) =
  if "status" =?s k then map_object (mark_status_unready now) <$> obj_get "status" m else obj_get k m.
Proof.
  unfold mark_terminating_pod_unready_at, get_mut. cbn [map_object]. rewrite get_object.
  destruct (String.eqb_spec "status" k) as [ <- |]; [apply obj_get_alter_eq|by apply obj_get_alter_ne].
Qed.

Lemma not_pod_merge av kind current proposed status :
  (av, kind) <> ("v1", "Pod") ->
  merge_pod_status_for_update av kind proposed status ApiStatusSubresource = status /\
  carry_scheduler_bind_pod_scheduled_condition av kind current proposed status = status /\
  (av =?s "v1") && (kind =?s "Pod") = false.
Proof.
  intros Hne. unfold merge_pod_status_for_update, carry_scheduler_bind_pod_scheduled_condition.
  by destruct (String.eqb_spec av "v1"), (String.eqb_spec kind "Pod"); simplify_eq.
Qed.


Definition live_pod : Value :=
  Object [("status", Object [("phase", Str "Running")])].
Definition greedy_write : Map :=
  [("metadata", Object [("name", Str "p")]);
   ("status", Object [("phase", Str "Succeeded"); ("podIP", Str "10.0.0.9")])].

