(* ===== verification/LogApply.v ===== *)
(** * Logical commits

    [klights-cluster-core/src/log_apply.rs]: the mutations of a replicated
    commit, their tagged families, the live-template rule (no resource version
    is assigned before the commit is applied), the builders that author
    templates, and the outbox watermark and status-stamp decisions.

    The theorems: the flat and the tagged form of a mutation convert into each
    other without loss, and every builder authors a valid template, so the
    [expect] in [authored] cannot panic. *)

From S2P Require Import Prelude Text Json KeyCodec Watch.

Local Open Scope string_scope.
Local Open Scope rs_scope.

Definition POD_METADATA_OPERATION : string := "PodMetadata".

(** ** Rows *)

Inductive PatchKind := Merge.

Record LogApplyResourceRow := mkResourceRow {
  rr_api_version : string; rr_kind : string; rr_namespace : option string; rr_name : string;
  rr_uid : string; rr_resource_version : Z; rr_data : Value;
  rr_require_absent : bool; rr_require_existing : bool;
  rr_precondition_uid : option string; rr_precondition_resource_version : option Z;
  rr_status_only : bool
}.

Record LogApplyResourcePatch := mkResourcePatch {
  rp_api_version : string; rp_kind : string; rp_namespace : option string; rp_name : string;
  rp_resource_version : Z; rp_patch_kind : PatchKind; rp_patch : Value;
  rp_require_existing : bool; rp_precondition_uid : option string;
  rp_precondition_resource_version : option Z;
  rp_terminating_pod_unready_timestamp : option string
}.

Record LogApplyResourceKey := mkResourceKey {
  rk_api_version : string; rk_kind : string; rk_namespace : option string; rk_name : string;
  rk_uid : string; rk_precondition_resource_version : option Z
}.

Record LogApplyPodActorFinalization := mkFinalization {
  pf_namespace : string; pf_name : string; pf_pod_uid : string; pf_node_name : string
}.

Record LogApplyNodeSubnetAllocation := mkSubnetAllocation {
  sa_node_name : string; sa_cluster_cidr : string; sa_node_ip : string
}.

Record LogApplyNamespaceRow := mkNamespaceRow {
  nr_name : string; nr_uid : string; nr_resource_version : Z; nr_data : Value
}.

Record LogApplyNodeSubnetRow := mkNodeSubnetRow {
  sr_node_name : string; sr_subnet : string; sr_subnet_base_int : Z; sr_gateway_ip : string;
  sr_node_ip : string; sr_mode : string; sr_hostport_range : option string
}.

Record LogApplyNodeDataplaneRow := mkNodeDataplaneRow {
  dr_node_name : string; dr_mode : string; dr_encryption : string; dr_public_key : option string;
  dr_endpoint : string; dr_port : option Z
}.

Record LogApplyAppliedOutboxRow := mkOutboxRow {
  or_idempotency_key : string; or_subject_key : string; or_operation : string;
  or_first_seen_ms : Z; or_applied_rv : option Z; or_result_proto : string;
  or_status_stamp : option Z
}.

Record LogApplyWatchEventRow := mkWatchEventRow {
  wr_event_id : option Z; wr_api_version : string; wr_kind : string; wr_namespace : option string;
  wr_name : string; wr_resource_version : Z; wr_event_type : string; wr_data : Value
}.

Record LogApplyPodCleanupIntentRow := mkCleanupRow {
  cr_node_name : string; cr_namespace : string; cr_pod_name : string; cr_pod_uid : string;
  cr_reason : string; cr_resource_version : Z; cr_created_at_ms : Z; cr_pod_data : Value
}.

Record LogApplyPodCleanupIntentKey := mkCleanupKey {
  ck_node_name : string; ck_namespace : string; ck_pod_name : string; ck_pod_uid : string;
  ck_reason : string
}.

(** ** Mutations, flat *)

Inductive LogApplyMutation :=
| PutResource (row : LogApplyResourceRow)
| PatchResourceLatest (patch : LogApplyResourcePatch)
| DeleteResource (key : LogApplyResourceKey)
| FinalizeBoundPod (finalization : LogApplyPodActorFinalization)
| PutNamespace (row : LogApplyNamespaceRow)
| DeleteNamespace (name : string)
| DeleteNamespaceContents (name : string)
| PutNodeSubnet (row : LogApplyNodeSubnetRow)
| AllocateNodeSubnet (allocation : LogApplyNodeSubnetAllocation)
| DeleteNodeSubnet (node_name : string)
| PutNodeDataplane (row : LogApplyNodeDataplaneRow)
| DeleteNodeDataplane (node_name : string)
| PutAppliedOutbox (row : LogApplyAppliedOutboxRow)
| DeleteAppliedOutbox (idempotency_key : string)
| GcAppliedOutbox (cutoff_ms : Z) (operations : list string)
| GcWatchEvents (max_rows batch_cap : Z)
| PutWatchEvent (row : LogApplyWatchEventRow)
| AdvanceResourceVersion (resource_version : Z)
| PutKlightsMeta (key value : string)
| PutPodCleanupIntent (row : LogApplyPodCleanupIntentRow)
| DeletePodCleanupIntent (key : LogApplyPodCleanupIntentKey)
| DeletePodCleanupIntentsForNode (node_name : string).

(** ** Mutations, by family *)

Inductive ResourceMutation :=
| RPutResource (row : LogApplyResourceRow)
| RPatchResourceLatest (patch : LogApplyResourcePatch)
| RDeleteResource (key : LogApplyResourceKey)
| RFinalizeBoundPod (finalization : LogApplyPodActorFinalization).

Inductive NamespaceMutation :=
| NPutNamespace (row : LogApplyNamespaceRow)
| NDeleteNamespace (name : string)
| NDeleteNamespaceContents (name : string).

Inductive WatchHistoryMutation :=
| WPutWatchEvent (row : LogApplyWatchEventRow)
| WGcWatchEvents (max_rows batch_cap : Z).

Inductive NetworkMutation :=
| NwPutNodeSubnet (row : LogApplyNodeSubnetRow)
| NwAllocateNodeSubnet (allocation : LogApplyNodeSubnetAllocation)
| NwDeleteNodeSubnet (node_name : string)
| NwPutNodeDataplane (row : LogApplyNodeDataplaneRow)
| NwDeleteNodeDataplane (node_name : string).

Inductive OutboxLedgerMutation :=
| OPutAppliedOutbox (row : LogApplyAppliedOutboxRow)
| ODeleteAppliedOutbox (idempotency_key : string)
| OGcAppliedOutbox (cutoff_ms : Z) (operations : list string).

Inductive ClusterMetaMutation :=
| MAdvanceResourceVersion (resource_version : Z)
| MPutKlightsMeta (key value : string).

Inductive PodCleanupMutation :=
| CPutPodCleanupIntent (row : LogApplyPodCleanupIntentRow)
| CDeletePodCleanupIntent (key : LogApplyPodCleanupIntentKey)
| CDeletePodCleanupIntentsForNode (node_name : string).

Inductive ClusterMutation :=
| FResource (m : ResourceMutation)
| FNamespace (m : NamespaceMutation)
| FWatchHistory (m : WatchHistoryMutation)
| FNetwork (m : NetworkMutation)
| FOutboxLedger (m : OutboxLedgerMutation)
| FClusterMeta (m : ClusterMetaMutation)
| FPodCleanup (m : PodCleanupMutation).

(** [From<LogApplyMutation> for ClusterMutation]. *)
Definition to_cluster_mutation (mutation : LogApplyMutation) : ClusterMutation :=
  match mutation with
  | PutResource value => FResource (RPutResource value)
  | PatchResourceLatest value => FResource (RPatchResourceLatest value)
  | DeleteResource value => FResource (RDeleteResource value)
  | FinalizeBoundPod value => FResource (RFinalizeBoundPod value)
  | PutNamespace value => FNamespace (NPutNamespace value)
  | DeleteNamespace name => FNamespace (NDeleteNamespace name)
  | DeleteNamespaceContents name => FNamespace (NDeleteNamespaceContents name)
  | PutWatchEvent value => FWatchHistory (WPutWatchEvent value)
  | GcWatchEvents max_rows batch_cap => FWatchHistory (WGcWatchEvents max_rows batch_cap)
  | PutNodeSubnet value => FNetwork (NwPutNodeSubnet value)
  | AllocateNodeSubnet value => FNetwork (NwAllocateNodeSubnet value)
  | DeleteNodeSubnet node_name => FNetwork (NwDeleteNodeSubnet node_name)
  | PutNodeDataplane value => FNetwork (NwPutNodeDataplane value)
  | DeleteNodeDataplane node_name => FNetwork (NwDeleteNodeDataplane node_name)
  | PutAppliedOutbox value => FOutboxLedger (OPutAppliedOutbox value)
  | DeleteAppliedOutbox key => FOutboxLedger (ODeleteAppliedOutbox key)
  | GcAppliedOutbox cutoff_ms operations => FOutboxLedger (OGcAppliedOutbox cutoff_ms operations)
  | AdvanceResourceVersion rv => FClusterMeta (MAdvanceResourceVersion rv)
  | PutKlightsMeta key value => FClusterMeta (MPutKlightsMeta key value)
  | PutPodCleanupIntent value => FPodCleanup (CPutPodCleanupIntent value)
  | DeletePodCleanupIntent value => FPodCleanup (CDeletePodCleanupIntent value)
  | DeletePodCleanupIntentsForNode node_name => FPodCleanup (CDeletePodCleanupIntentsForNode node_name)
  end.

(** [From<ClusterMutation> for LogApplyMutation]. *)
Definition into_log_apply_mutation (mutation : ClusterMutation) : LogApplyMutation :=
  match mutation with
  | FResource (RPutResource value) => PutResource value
  | FResource (RPatchResourceLatest value) => PatchResourceLatest value
  | FResource (RDeleteResource value) => DeleteResource value
  | FResource (RFinalizeBoundPod value) => FinalizeBoundPod value
  | FNamespace (NPutNamespace value) => PutNamespace value
  | FNamespace (NDeleteNamespace name) => DeleteNamespace name
  | FNamespace (NDeleteNamespaceContents name) => DeleteNamespaceContents name
  | FWatchHistory (WPutWatchEvent value) => PutWatchEvent value
  | FWatchHistory (WGcWatchEvents max_rows batch_cap) => GcWatchEvents max_rows batch_cap
  | FNetwork (NwPutNodeSubnet value) => PutNodeSubnet value
  | FNetwork (NwAllocateNodeSubnet value) => AllocateNodeSubnet value
  | FNetwork (NwDeleteNodeSubnet node_name) => DeleteNodeSubnet node_name
  | FNetwork (NwPutNodeDataplane value) => PutNodeDataplane value
  | FNetwork (NwDeleteNodeDataplane node_name) => DeleteNodeDataplane node_name
  | FOutboxLedger (OPutAppliedOutbox value) => PutAppliedOutbox value
  | FOutboxLedger (ODeleteAppliedOutbox key) => DeleteAppliedOutbox key
  | FOutboxLedger (OGcAppliedOutbox cutoff_ms operations) => GcAppliedOutbox cutoff_ms operations
  | FClusterMeta (MAdvanceResourceVersion rv) => AdvanceResourceVersion rv
  | FClusterMeta (MPutKlightsMeta key value) => PutKlightsMeta key value
  | FPodCleanup (CPutPodCleanupIntent value) => PutPodCleanupIntent value
  | FPodCleanup (CDeletePodCleanupIntent value) => DeletePodCleanupIntent value
  | FPodCleanup (CDeletePodCleanupIntentsForNode node_name) => DeletePodCleanupIntentsForNode node_name
  end.

Record VersionedClusterMutation := mkVersioned { vm_version : Z; vm_mutation : ClusterMutation }.

Definition CURRENT_VERSION : Z := 1.

Definition versioned_new (mutation : ClusterMutation) : VersionedClusterMutation :=
  mkVersioned CURRENT_VERSION mutation.

Record UnsupportedClusterMutationVersion := mkUnsupported { un_version : Z; un_current : Z }.

Definition try_from_versioned (value : VersionedClusterMutation)
    : result UnsupportedClusterMutationVersion LogApplyMutation :=
  if negb (vm_version value =? CURRENT_VERSION)%Z
  then Err (mkUnsupported (vm_version value) CURRENT_VERSION)
  else Ok (into_log_apply_mutation (vm_mutation value)).

(** ** Live templates *)

(** The value that was found; the source prints it. *)
Record LiveCommitResourceVersionError := mkRvError { rve_field : string; rve_actual : Value }.

Record LogApplyCommit := mkCommit {
  lc_resource_version : Z;
  lc_outbox_watermark : option OutboxStreamWatermark;
  lc_mutations : list LogApplyMutation
}.

Definition validate_zero (field : string) (actual : Z) : result LiveCommitResourceVersionError unit :=
  if (actual =? 0)%Z then Ok tt else Err (mkRvError field (Str (to_string actual))).

Definition validate_json_resource_version (field : string) (value : option Value)
    : result LiveCommitResourceVersionError unit :=
  match value with
  | None | Some Null => Ok tt
  | Some (Str s) => if s =?s "0" then Ok tt else Err (mkRvError field (Str s))
  | Some v =>
      match v, as_i64 v with
      | Num _, Some 0%Z => Ok tt
      | _, _ => Err (mkRvError field v)
      end
  end.

Definition metadata_rv (v : Value) : option Value := pointer ["metadata"; "resourceVersion"] v.

Definition validate_mutation (mutation : LogApplyMutation) : result LiveCommitResourceVersionError unit :=
  match mutation with
  | PutResource row =>
      try? validate_json_resource_version "put_resource.data.metadata.resourceVersion"
             (metadata_rv (rr_data row)) in
      validate_zero "put_resource.resource_version" (rr_resource_version row)
  | PatchResourceLatest row =>
      try? validate_json_resource_version "patch_resource_latest.patch.metadata.resourceVersion"
             (metadata_rv (rp_patch row)) in
      validate_zero "patch_resource_latest.resource_version" (rp_resource_version row)
  | PutNamespace row =>
      try? validate_json_resource_version "put_namespace.data.metadata.resourceVersion"
             (metadata_rv (nr_data row)) in
      validate_zero "put_namespace.resource_version" (nr_resource_version row)
  | PutWatchEvent row =>
      try? validate_json_resource_version "put_watch_event.data.metadata.resourceVersion"
             (metadata_rv (wr_data row)) in
      try? validate_json_resource_version "put_watch_event.data.object.metadata.resourceVersion"
             (pointer ["object"; "metadata"; "resourceVersion"] (wr_data row)) in
      validate_zero "put_watch_event.resource_version" (wr_resource_version row)
  | PutPodCleanupIntent row =>
      validate_zero "put_pod_cleanup_intent.resource_version" (cr_resource_version row)
  | PutAppliedOutbox row =>
      match or_applied_rv row with
      | Some value => validate_zero "put_applied_outbox.applied_rv" value
      | None => Ok tt
      end
  | AdvanceResourceVersion rv => validate_zero "advance_resource_version.resource_version" rv
  | _ => Ok tt
  end.

Fixpoint validate_mutations (mutations : list LogApplyMutation) : result LiveCommitResourceVersionError unit :=
  match mutations with
  | [] => Ok tt
  | m :: mutations' => try? validate_mutation m in validate_mutations mutations'
  end.

Definition validate_live_template (commit : LogApplyCommit) : result LiveCommitResourceVersionError unit :=
  try? validate_zero "commit.resource_version" (lc_resource_version commit) in
  validate_mutations (lc_mutations commit).

(** ** Builders *)

Definition try_new_with_watermark (mutations : list LogApplyMutation)
    (outbox_watermark : option OutboxStreamWatermark)
    : result LiveCommitResourceVersionError LogApplyCommit :=
  let commit := mkCommit 0 outbox_watermark mutations in
  try? validate_live_template commit in Ok commit.

Definition try_new (mutations : list LogApplyMutation) := try_new_with_watermark mutations None.

Definition try_from_cluster_mutations (mutations : list ClusterMutation) :=
  try_new (into_log_apply_mutation <$> mutations).

(** [expect]: [None] is a panic. *)
Definition authored (mutations : list LogApplyMutation) : option LogApplyCommit :=
  match try_new mutations with Ok commit => Some commit | Err _ => None end.

Definition clear_metadata_resource_version (data : Value) : Value :=
  get_mut "metadata" (map_object (obj_remove "resourceVersion")) data.

Definition put_resource (r : Resource) : option LogApplyCommit :=
  authored [PutResource (mkResourceRow (r_api_version r) (r_kind r) (r_namespace r) (r_name r)
              (r_uid r) 0 (clear_metadata_resource_version (r_data r)) false false None None false)].

Definition delete_resource (api_version kind : string) (namespace : option string) (name uid : string)
    : option LogApplyCommit :=
  authored [DeleteResource (mkResourceKey api_version kind namespace name uid None)].

Definition put_namespace (r : Resource) : option LogApplyCommit :=
  authored [PutNamespace (mkNamespaceRow (r_name r) (r_uid r) 0
              (clear_metadata_resource_version (r_data r)))].

Definition delete_namespace (name : string) := authored [DeleteNamespace name].
Definition delete_namespace_contents (name : string) := authored [DeleteNamespaceContents name].
Definition put_node_subnet_row (row : LogApplyNodeSubnetRow) := authored [PutNodeSubnet row].
Definition delete_node_subnet (node_name : string) := authored [DeleteNodeSubnet node_name].
Definition put_node_dataplane_row (row : LogApplyNodeDataplaneRow) := authored [PutNodeDataplane row].
Definition delete_node_dataplane (node_name : string) := authored [DeleteNodeDataplane node_name].
Definition advance_resource_version := authored [AdvanceResourceVersion 0].

Definition put_applied_outbox_row (row : LogApplyAppliedOutboxRow) : option LogApplyCommit :=
  authored [PutAppliedOutbox (mkOutboxRow (or_idempotency_key row) (or_subject_key row)
              (or_operation row) (or_first_seen_ms row) None (or_result_proto row)
              (or_status_stamp row))].

Definition put_watch_event (row : LogApplyWatchEventRow) : option LogApplyCommit :=
  let data := clear_metadata_resource_version (wr_data row) in
  let data := get_mut "object" clear_metadata_resource_version data in
  authored [PutWatchEvent (mkWatchEventRow (wr_event_id row) (wr_api_version row) (wr_kind row)
              (wr_namespace row) (wr_name row) 0 (wr_event_type row) data)].

Definition gc_applied_outbox (cutoff_ms : Z) (operations : list string) :=
  authored [GcAppliedOutbox cutoff_ms operations].

Definition put_pod_cleanup_intent_row (row : LogApplyPodCleanupIntentRow) : option LogApplyCommit :=
  authored [PutPodCleanupIntent (mkCleanupRow (cr_node_name row) (cr_namespace row) (cr_pod_name row)
              (cr_pod_uid row) (cr_reason row) 0 (cr_created_at_ms row) (cr_pod_data row))].

(** ** Snapshot restore *)

Record SnapshotRestoreOperation := mkRestore {
  sro_resource_version : Z;
  sro_outbox_watermark : option OutboxStreamWatermark;
  sro_mutations : list LogApplyMutation
}.

Definition resource_snapshot_restore_operation (r : Resource) : SnapshotRestoreOperation :=
  let mutation :=
    if (r_api_version r =?s "v1") && (r_kind r =?s "Namespace") && opt_is_none (r_namespace r)
    then FNamespace (NPutNamespace (mkNamespaceRow (r_name r) (r_uid r) (r_resource_version r) (r_data r)))
    else FResource (RPutResource (mkResourceRow (r_api_version r) (r_kind r) (r_namespace r) (r_name r)
           (r_uid r) (r_resource_version r) (r_data r) false false None None false)) in
  mkRestore (r_resource_version r) None [into_log_apply_mutation mutation].

(** ** Outbox decisions *)

Inductive OutboxWatermarkDecision :=
| WApply
| WDuplicate
| WGap (last_seq next_seq : Z).

Definition decide_outbox_watermark (last_seq : option Z) (watermark : option OutboxStreamWatermark)
    : result unit OutboxWatermarkDecision :=
  match watermark with
  | None => Ok WApply
  | Some watermark =>
      let seq := wm_stream_seq watermark in
      if (seq <=? 0)%Z then Err tt
      else Ok match last_seq with
           | Some last_seq =>
               if (seq <=? last_seq)%Z then WDuplicate
               else if negb (seq =? saturating_i64 (last_seq + 1))%Z then WGap last_seq seq
               else WApply
           | None => if (seq =? 1)%Z then WApply else WGap 0 seq
           end
  end.

Definition is_stamped_pod_status_outbox_operation (operation : string) : bool :=
  existsb (String.eqb operation)
    ["PodStatus"; "RuntimeReconcile"; "ProbeReadiness"; "DeadlineExceeded";
     "ContainerStatusSnapshot"; "EphemeralContainerStatuses"].

Definition stamped_row (mutation : LogApplyMutation) : option (string * Z) :=
  match mutation with
  | PutAppliedOutbox row =>
      match or_status_stamp row with
      | Some stamp =>
          if (0 <? stamp)%Z && is_stamped_pod_status_outbox_operation (or_operation row)
             && negb (is_empty (or_subject_key row))
          then Some (or_subject_key row, stamp) else None
      | None => None
      end
  | _ => None
  end.

(** [find_map]. *)
Definition stamped_pod_status_subject_and_stamp (commit : LogApplyCommit) : option (string * Z) :=
  head (omap stamped_row (lc_mutations commit)).

Definition is_put_applied_outbox (mutation : LogApplyMutation) : bool :=
  match mutation with PutAppliedOutbox _ => true | _ => false end.

Definition commit_with_outbox_rows_only (commit : LogApplyCommit) : LogApplyCommit :=
  mkCommit (lc_resource_version commit) (lc_outbox_watermark commit)
    (filter (fun m => is_put_applied_outbox m = true) (lc_mutations commit)).

(** ** Theorems *)

(** The tagged form of a mutation loses nothing: converting to a family
    and back is the identity in both directions, on every mutation, and the
    versioned envelope the leader writes is accepted and yields the mutation. *)
Theorem cluster_mutation_round_trip m f :
  into_log_apply_mutation (to_cluster_mutation m) = m /\
  to_cluster_mutation (into_log_apply_mutation f) = f /\
  try_from_versioned (versioned_new (to_cluster_mutation m)) = Ok m.
Proof.
  assert (H : into_log_apply_mutation (to_cluster_mutation m) = m) by by destruct m.
  split_and!; [done| |].
  - by destruct f as [[]|[]|[]|[]|[]|[]|[]].
  - unfold try_from_versioned. simpl. by rewrite H.
Qed.

(** Stepping into an entry that was rewritten in place. *)
Lemma pointer_get_mut k f d rest :
  parse_index k = None ->
  pointer (k :: rest) (get_mut k f d) = match get k d with Some v => pointer rest (f v) | None => None end.
Proof.
  intros Hk. destruct d as [| | | | |m]; try done.
  - simpl. by rewrite Hk.
  - cbn [get_mut map_object pointer pointer_step get as_object mbind option_bind].
    rewrite obj_get_alter_eq. by destruct (obj_get k m).
Qed.

Lemma pointer_get_mut_ne k k' f d rest :
  k <> k' -> pointer (k' :: rest) (get_mut k f d) = pointer (k' :: rest) d.
Proof.
  intros Hne. destruct d as [| | | | |m]; try done.
  cbn [get_mut map_object pointer pointer_step]. by rewrite obj_get_alter_ne.
Qed.

Lemma pointer_removed k v : parse_index k = None -> pointer [k] (map_object (obj_remove k) v) = None.
Proof.
  intros Hk. destruct v as [| | | | |m]; try done; simpl.
  - by rewrite Hk.
  - by rewrite obj_get_remove_eq.
Qed.

Lemma metadata_rv_clear d : metadata_rv (clear_metadata_resource_version d) = None.
Proof.
  unfold metadata_rv, clear_metadata_resource_version. rewrite pointer_get_mut by done.
  destruct (get "metadata" d); [|done]. by apply pointer_removed.
Qed.

Lemma event_rv_clear d :
  let data := get_mut "object" clear_metadata_resource_version (clear_metadata_resource_version d) in
  metadata_rv data = None /\ pointer ["object"; "metadata"; "resourceVersion"] data = None.
Proof.
  split.
  - unfold metadata_rv. rewrite pointer_get_mut_ne by done. apply metadata_rv_clear.
  - rewrite pointer_get_mut by done. destruct (get "object" _); [|done]. apply metadata_rv_clear.
Qed.

(** A builder returned a template: no version is assigned anywhere in it. *)
Definition authors_template (built : option LogApplyCommit) : Prop :=
  exists commit, built = Some commit /\ lc_resource_version commit = 0%Z
    /\ validate_live_template commit = Ok tt.

Lemma authored_one m : validate_mutation m = Ok tt -> authors_template (authored [m]).
Proof.
  intros Hm. unfold authored, try_new, try_new_with_watermark, validate_live_template. simpl.
  rewrite Hm. simpl. eexists. split_and!; [done..|]. unfold validate_live_template. simpl. by rewrite Hm.
Qed.

(** No builder panics and none assigns a version: for every resource, row
    and name, whatever versions they carry, each builder of a live commit
    returns a template whose version and embedded versions are all unset. *)
Theorem builders_author_templates :
  (forall r, authors_template (put_resource r) /\ authors_template (put_namespace r)) /\
  (forall av k ns n uid, authors_template (delete_resource av k ns n uid)) /\
  (forall row, authors_template (put_watch_event row)) /\
  (forall row, authors_template (put_applied_outbox_row row)) /\
  (forall row, authors_template (put_pod_cleanup_intent_row row)) /\
  (forall row, authors_template (put_node_subnet_row row)) /\
  (forall row, authors_template (put_node_dataplane_row row)) /\
  (forall n, authors_template (delete_namespace n) /\ authors_template (delete_namespace_contents n) /\
     authors_template (delete_node_subnet n) /\ authors_template (delete_node_dataplane n)) /\
  (forall cutoff ops, authors_template (gc_applied_outbox cutoff ops)) /\
  authors_template advance_resource_version.
Proof.
  split_and!; intros; try split_and!; apply authored_one; try done;
    cbn [validate_mutation rr_data rr_resource_version nr_data nr_resource_version wr_data
      wr_resource_version or_applied_rv]; try by rewrite metadata_rv_clear.
  destruct (event_rv_clear (wr_data row)) as [-> ->]. done.
Qed.

(** Dropping mutations keeps a template. *)
Lemma outbox_rows_only_template commit :
  validate_live_template commit = Ok tt -> validate_live_template (commit_with_outbox_rows_only commit) = Ok tt.
Proof.
  unfold validate_live_template. simpl. destruct (validate_zero _ _) as [[]|]; [|done]. simpl.
  induction (lc_mutations commit) as [|m ms IH]; [done|]. simpl.
  destruct (validate_mutation m) as [[]|] eqn:Hm; [|done]. simpl. intros H.
  rewrite filter_cons. destruct (decide _); [|by apply IH]. simpl. rewrite Hm. by apply IH.
Qed.
