(* ===== verification/RedbStore.v ===== *)
(** * The redb resource store

    [klights-cluster-datastore/src/redb]: the resource mutations
    ([ordinary_mutations/resources.rs], the status write of
    [live_committed_apply.rs]) over the helpers of [mutation_helpers.rs], and
    the reads that answer from the same tables ([read_core.rs] [get_resource],
    [find_owned]).

    [Store] is the content of the tables at a transaction boundary; a write
    transaction that returns an error commits nothing.  A row's bytes are the
    JSON value they decode to, so [serde_json::to_vec] and [from_slice] are the
    identity.  A version stored as [u64] is the non-negative [i64] it came
    from.  Random UIDs, the wall clock and the [json_patch] crate's merge are
    arguments of the operations that use them. *)

From stdpp Require Import sorting.
From S2P Require Import Prelude Text Json Apply KeyCodec StatusMerge ResourceSemantics.

Local Open Scope string_scope.
Local Open Scope rs_scope.

(** ** State *)

Record Identity := mkId {
  id_av : string; id_kind : string; id_ns : option string; id_name : string
}.

#[export] Instance Identity_eq_dec : EqDecision Identity.
Proof. solve_decision. Defined.

Definition id_key (i : Identity) : string := resource_key (id_av i) (id_kind i) (id_ns i) (id_name i).
Definition id_index (i : Identity) : string :=
  resource_current_identity_key (id_av i) (id_kind i) (id_ns i) (id_name i).
Definition id_owner_key (uid : string) (i : Identity) : string :=
  owner_ref_key uid (id_av i) (id_kind i) (id_ns i) (id_name i).

Abbreviation Row := (Z * Value)%type.

(** A stored watch event: the JSON object the mutation builds, with the
    [resourceVersion] that [watch_insert] adds. *)
Record WatchRow := mkWatchRow {
  we_id : Identity; we_type : ResourceEventType; we_data : Value; we_rv : Z
}.

Record Store := mkStore {
  st_res_ns : gmap string Row;
  st_res_cluster : gmap string Row;
  st_rv_to_key : gmap Z string;
  st_by_owner : gmap string Row;
  st_current : gmap string Z;
  st_history : gmap string Z;
  st_watch_events : list (Z * WatchRow);
  st_rv : Z;
  st_watch_event_id : Z;
  st_history_high_water : option Z;
  st_current_high_water : option Z
}.

Definition empty_store : Store := mkStore ∅ ∅ ∅ ∅ ∅ ∅ [] 0 0 None None.

Definition set_rv (rv : Z) (s : Store) : Store :=
  mkStore (st_res_ns s) (st_res_cluster s) (st_rv_to_key s) (st_by_owner s) (st_current s)
    (st_history s) (st_watch_events s) rv (st_watch_event_id s) (st_history_high_water s)
    (st_current_high_water s).

Definition set_rv_to_key (f : gmap Z string -> gmap Z string) (s : Store) : Store :=
  mkStore (st_res_ns s) (st_res_cluster s) (f (st_rv_to_key s)) (st_by_owner s) (st_current s)
    (st_history s) (st_watch_events s) (st_rv s) (st_watch_event_id s) (st_history_high_water s)
    (st_current_high_water s).

Definition set_by_owner (f : gmap string Row -> gmap string Row) (s : Store) : Store :=
  mkStore (st_res_ns s) (st_res_cluster s) (st_rv_to_key s) (f (st_by_owner s)) (st_current s)
    (st_history s) (st_watch_events s) (st_rv s) (st_watch_event_id s) (st_history_high_water s)
    (st_current_high_water s).

(** The table a scope selects: [RES_NS] or [RES_CLUSTER]. *)
Definition res_table (ns : option string) (s : Store) : gmap string Row :=
  if opt_is_some ns then st_res_ns s else st_res_cluster s.

Definition set_res_table (ns : option string) (f : gmap string Row -> gmap string Row) (s : Store) : Store :=
  mkStore (if opt_is_some ns then f (st_res_ns s) else st_res_ns s)
    (if opt_is_some ns then st_res_cluster s else f (st_res_cluster s))
    (st_rv_to_key s) (st_by_owner s) (st_current s)
    (st_history s) (st_watch_events s) (st_rv s) (st_watch_event_id s) (st_history_high_water s)
    (st_current_high_water s).

Inductive StoreError :=
| Anyhow (message : string)
| Conflict (message : string)
| StoreNotFound (message : string).

(** ** Helpers ([mutation_helpers.rs]) *)

Definition resource_uid (data : Value) : option string :=
  opt_filter (fun s => negb (is_empty (trim s))) (pointer_str ["metadata"; "uid"] data).

Definition uid_from_data (data : Value) : string := unwrap_or "" (pointer_str ["metadata"; "uid"] data).

Definition ensure_uid (fresh_uid : string) (data : Value) : Value :=
  get_mut "metadata" (map_object (fun meta_obj =>
    let missing :=
      is_none_or (obj_get "uid" meta_obj) (fun v =>
        is_null v || is_some_and (as_str v) (fun s => is_empty (trim s))) in
    if missing then obj_insert "uid" (Str fresh_uid) meta_obj else meta_obj)) data.

Definition validate_uid_immutable (incoming current : Value) : result StoreError unit :=
  match resource_uid incoming, resource_uid current with
  | Some incoming_uid, Some current_uid =>
      match validate_apply_preconditions
              (mkApplyPreconditions false false (Some incoming_uid) None)
              (Some (mkCurrentResourceState (Some current_uid) 0)) with
      | Ok _ => Ok tt
      | Err _ => Err (Conflict "metadata.uid is immutable")
      end
  | _, _ => Ok tt
  end.

Definition validate_resource_preconditions (preconditions : ResourcePreconditions) (current : Value)
    (current_rv : Z) : result StoreError unit :=
  match validate_apply_preconditions
          (mkApplyPreconditions false false (pre_uid preconditions) (pre_resource_version preconditions))
          (Some (mkCurrentResourceState (resource_uid current) current_rv)) with
  | Ok _ => Ok tt
  | Err (UidViolation _ _) => Err (Conflict "UID precondition failed")
  | Err (ResourceVersionViolation _ _) => Err (Conflict "resourceVersion precondition failed")
  | Err other => Err (Conflict (violation_to_string other))
  end.

Definition missing_or_empty (key : string) (m : Map) : bool :=
  unwrap_or true (s ← (v ← obj_get key m; as_str v); Some (is_empty s)).

Definition copy_if (b : bool) (key : string) (v : option Value) (m : Map) : Map :=
  if b then match v with Some v => obj_insert key v m | None => m end else m.

Definition preserve_server_metadata_fields_from_existing (data existing : Value) : Value :=
  match get "metadata" existing ≫= as_object with
  | None => data
  | Some existing_meta =>
      get_mut "metadata" (map_object (fun meta_obj =>
        let meta_obj := copy_if (missing_or_empty "uid" meta_obj) "uid"
                          (obj_get "uid" existing_meta) meta_obj in
        let meta_obj := copy_if (missing_or_empty "creationTimestamp" meta_obj) "creationTimestamp"
                          (obj_get "creationTimestamp" existing_meta) meta_obj in
        let carries_shorter_delete_grace :=
          match obj_get "deletionGracePeriodSeconds" meta_obj ≫= as_i64,
                obj_get "deletionGracePeriodSeconds" existing_meta ≫= as_i64 with
          | Some incoming, Some existing => (0 <=? incoming)%Z && (incoming <? existing)%Z
          | _, _ => false
          end in
        let not_null := opt_filter (fun v => negb (is_null v)) in
        let meta_obj := copy_if (negb carries_shorter_delete_grace) "deletionTimestamp"
                          (not_null (obj_get "deletionTimestamp" existing_meta)) meta_obj in
        copy_if (negb carries_shorter_delete_grace) "deletionGracePeriodSeconds"
          (not_null (obj_get "deletionGracePeriodSeconds" existing_meta)) meta_obj)) data
  end.

(** [rv + 1] wraps in a release build. *)
Definition incr_rv (s : Store) : Z * Store :=
  let next := wrap_i64 (st_rv s + 1) in (next, set_rv next s).

Definition advance_rv_to_at_least (min_rv : Z) (s : Store) : Store :=
  if (min_rv <=? 0)%Z then s
  else if (st_rv s <? min_rv)%Z then set_rv min_rv s else s.

(** The identity part of a history key is the current-index key. *)
Definition resource_history_key (i : Identity) (event_id : Z) : string :=
  id_index i +:+ be_bytes 8 event_id.

Definition watch_insert (rv : Z) (i : Identity) (t : ResourceEventType) (data : Value) (s : Store) : Store :=
  let s := advance_rv_to_at_least rv s in
  let event_id := Z.min u64_max (st_watch_event_id s + 1) in
  let stored := mkWatchRow i t data rv in
  let identity := id_index i in
  mkStore (st_res_ns s) (st_res_cluster s) (st_rv_to_key s) (st_by_owner s)
    (match t with
     | Deleted => delete identity (st_current s)
     | _ => <[identity := 1%Z]> (st_current s)
     end)
    (<[resource_history_key i event_id := event_id]> (st_history s))
    (filter (fun e => e.1 <> event_id) (st_watch_events s) ++ [(event_id, stored)])
    (st_rv s) event_id (Some event_id) (Some event_id).

Definition extract_owner_uids (data : Value) : gset string :=
  list_to_set (omap (get_str "uid")
    (unwrap_or [] (meta ← get "metadata" data; refs ← get "ownerReferences" meta; as_array refs))).

Definition read_rv_meta (s : Store) : Z := st_rv s.

Definition update_owner_table (i : Identity) (old_body new_body : option Value) (s : Store) : Store :=
  let old_uids := from_option extract_owner_uids ∅ old_body in
  let new_uids := from_option extract_owner_uids ∅ new_body in
  let s := set_by_owner (fun tbl =>
             foldl (fun tbl uid => delete (id_owner_key uid i) tbl) tbl (elements old_uids)) s in
  match new_body with
  | Some body =>
      let rv := read_rv_meta s in
      set_by_owner (fun tbl =>
        foldl (fun tbl uid => <[id_owner_key uid i := (rv, body)]> tbl) tbl (elements new_uids)) s
  | None => s
  end.

(** ** Results *)

Record Resource := mkResource {
  r_identity : Identity; r_uid : string; r_resource_version : Z; r_data : Value
}.

(** What is handed to the post-commit publisher. *)
Record StagedPostCommit := mkStaged {
  sp_api_version : string; sp_kind : string; sp_namespace : option string; sp_resource_version : Z
}.

Definition stage_resource_post_commit (i : Identity) (rv : Z) : StagedPostCommit :=
  mkStaged (id_av i) (id_kind i) (id_ns i) rv.

Definition resource_from_body (i : Identity) (rv : Z) (data : Value) : Resource :=
  mkResource i (uid_from_data data) rv data.

Abbreviation Committed A := (Store * (A * option StagedPostCommit))%type.

(** [r.insert(key, (rv, body))] and [rvk.insert(rv, key)]. *)
Definition put_row (i : Identity) (rv : Z) (data : Value) (s : Store) : Store :=
  let s := set_res_table (id_ns i) (insert (id_key i) (rv, data)) s in
  set_rv_to_key (insert rv (id_key i)) s.

Definition get_row (i : Identity) (s : Store) : option Row := res_table (id_ns i) s !! id_key i.

(** ** Mutations ([ordinary_mutations/resources.rs]) *)

Definition create_resource (fresh_uid : string) (i : Identity) (data : Value) (s : Store)
    : result StoreError (Committed Resource) :=
  let data := ensure_uid fresh_uid data in
  if opt_is_some (get_row i s) then Err (Anyhow "exists")
  else
    let '(rv, s) := incr_rv s in
    let s := put_row i rv data s in
    let s := watch_insert rv i Added data s in
    let s := update_owner_table i None (Some data) s in
    Ok (s, (resource_from_body i rv data, Some (stage_resource_post_commit i rv))).

Definition update_resource_with_preconditions_impl (preserve_status : bool) (i : Identity)
    (data : Value) (preconditions : ResourcePreconditions) (s : Store)
    : result StoreError (Committed Resource) :=
  match get_row i s with
  | None => Err (Anyhow "not found")
  | Some (cur_rv, current) =>
      try? validate_uid_immutable data current in
      try? validate_resource_preconditions preconditions current cur_rv in
      let data := preserve_server_metadata_fields_from_existing data current in
      let data := if preserve_status
                  then preserve_status_subresource_on_main_update (id_av i) (id_kind i) current data
                  else data in
      if resource_bodies_equal_ignoring_metadata_field current data "resourceVersion"
      then Ok (s, (resource_from_body i cur_rv current, None))
      else
        let '(rv, s) := incr_rv s in
        let s := put_row i rv data s in
        let s := watch_insert rv i Modified data s in
        let s := update_owner_table i (Some current) (Some data) s in
        Ok (s, (resource_from_body i rv data, Some (stage_resource_post_commit i rv)))
  end.

Definition update_resource_with_preconditions := update_resource_with_preconditions_impl false.
Definition update_main_resource_with_preconditions := update_resource_with_preconditions_impl true.

Definition update_resource (i : Identity) (data : Value) (expected_rv : Z) (s : Store)
    : result StoreError (Committed Resource) :=
  update_resource_with_preconditions i data (mkPreconditions None (Some expected_rv)) s.

(** [rvk.remove(rv)] removes the entry of the version just allocated. *)
Definition remove_row (i : Identity) (s : Store) : Store :=
  set_res_table (id_ns i) (delete (id_key i)) s.

Definition delete_resource (i : Identity) (s : Store) : Committed unit :=
  match get_row i s with
  | None => (s, (tt, None))
  | Some (_, body) =>
      let s := remove_row i s in
      let '(rv, s) := incr_rv s in
      let s := set_rv_to_key (delete rv) s in
      let s := watch_insert rv i Deleted body s in
      let s := update_owner_table i (Some body) None s in
      (s, (tt, Some (stage_resource_post_commit i rv)))
  end.

Definition tombstone_metadata (deletion_timestamp : string) (grace_seconds : Z) (metadata : Map) : Map :=
  let metadata :=
    if is_none_or (v ← obj_get "deletionTimestamp" metadata; as_str v) is_empty
    then obj_insert "deletionTimestamp" (Str deletion_timestamp) metadata else metadata in
  obj_or_insert "deletionGracePeriodSeconds" (Num (NInt grace_seconds)) metadata.

Definition delete_resource_with_tombstone (deletion_timestamp : string) (i : Identity)
    (preconditions : ResourcePreconditions) (grace_seconds : Z) (s : Store)
    : result StoreError (Committed Resource) :=
  let subject := "delete_resource_without_watch_with_tombstone: " +:+ id_av i +:+ "/" +:+ id_kind i
                 +:+ "/" +:+ id_name i in
  match get_row i s with
  | None => Err (StoreNotFound (subject +:+ " not found"))
  | Some (current_rv, current) =>
      try? validate_resource_preconditions preconditions current current_rv in
      match get "metadata" current ≫= as_object with
      | None => Err (Anyhow (subject +:+ " is missing metadata"))
      | Some _ =>
          let data := get_mut "metadata"
                        (map_object (tombstone_metadata deletion_timestamp grace_seconds)) current in
          let '(rv, s) := incr_rv s in
          let s := remove_row i s in
          let s := set_rv_to_key (delete rv) s in
          let s := watch_insert rv i Deleted data s in
          let s := update_owner_table i (Some current) None s in
          Ok (s, (resource_from_body i rv data, Some (stage_resource_post_commit i rv)))
      end
  end.

(** [json_patch::merge], the RFC 7396 merge of a third-party crate. *)
Section Patch.
Variable merge : Value -> Value -> Value.

Definition patched_body (i : Identity) (patch current : Value) : Value :=
  let pod_delete_mark := is_pod_delete_mark_patch (id_av i) (id_kind i) patch in
  let delete_transition_time := pod_delete_mark_transition_time patch in
  let effective_patch := if pod_delete_mark then pod_delete_mark_patch_without_status patch else patch in
  let data := merge current effective_patch in
  if pod_delete_mark then
    match delete_transition_time with
    | Some t => mark_terminating_pod_unready_at data t
    | None => data
    end
  else data.

(** The owner index is updated before the version is allocated. *)
Definition patch_resource (i : Identity) (patch : Value) (s : Store)
    : result StoreError (Committed (option Resource)) :=
  match get_row i s with
  | None => Ok (s, (None, None))
  | Some (cur_rv, before_patch) =>
      let current_data := patched_body i patch before_patch in
      try? validate_uid_immutable current_data before_patch in
      if resource_bodies_equal_ignoring_metadata_field before_patch current_data "resourceVersion"
      then Ok (s, (Some (resource_from_body i cur_rv before_patch), None))
      else
        let s := update_owner_table i (Some before_patch) (Some current_data) s in
        let '(rv, s) := incr_rv s in
        let s := put_row i rv current_data s in
        let s := watch_insert rv i Modified current_data s in
        Ok (s, (Some (resource_from_body i rv current_data), Some (stage_resource_post_commit i rv)))
  end.

End Patch.

(** [live_committed_apply.rs]: only the resource row, the version index and
    the watch log are written. *)
Definition update_status (i : Identity) (status : Value) (expected_rv : option Z) (s : Store)
    : result StoreError (Committed Resource) :=
  match get_row i s with
  | None => Err (Anyhow "not found")
  | Some (current_rv, current) =>
      let conflict := match expected_rv with
                      | Some expected_rv => (0 <? expected_rv)%Z && negb (current_rv =? expected_rv)%Z
                      | None => false
                      end in
      if conflict then
        Err (Conflict ("rv conflict: expected " +:+ to_string (unwrap_or 0%Z expected_rv)
                       +:+ " got " +:+ to_string current_rv))
      else if opt_eqb value_eqb (get "status" current) (Some status)
      then Ok (s, (resource_from_body i current_rv current, None))
      else
        let current := map_object (obj_insert "status" status) current in
        let '(rv, s) := incr_rv s in
        let s := put_row i rv current s in
        let s := watch_insert rv i Modified current s in
        Ok (s, (resource_from_body i rv current, Some (stage_resource_post_commit i rv)))
  end.

(** ** Reads ([read_core.rs]) *)

(** [get_resource], for the resources kept in the resource tables (Namespaces
    live in a table of their own). *)
Definition get_resource (i : Identity) (s : Store) : option Resource :=
  '(rv, body) ← get_row i s; Some (resource_from_body i rv body).

Definition untyped_resource (rv : Z) (data : Value) : Resource :=
  let api_version := unwrap_or "" (get_str "apiVersion" data) in
  let kind := unwrap_or "" (get_str "kind" data) in
  let namespace := pointer_str ["metadata"; "namespace"] data in
  let name := unwrap_or "" (pointer_str ["metadata"; "name"] data) in
  mkResource (mkId api_version kind namespace name) (uid_from_data data) rv data.

Definition key_le (a b : string * Row) : Prop := str_leb a.1 b.1 = true.
#[local] Instance key_le_dec : RelDecision key_le.
Proof. intros a b. unfold key_le. apply _. Defined.

(** [find_owned]: the rows from [uid NUL] to its [lex_next], in key order. *)
Definition find_owned (owner_uid : string) (namespace : option string) (s : Store) : list Resource :=
  let prefix := owner_uid +:+ String NUL "" in
  let stop := unwrap_or (prefix +:+ String (byte_of 255) "") (lex_next prefix) in
  let rows := merge_sort key_le
                (filter (fun e : string * Row => str_leb prefix e.1 && negb (str_leb stop e.1) = true)
                   (map_to_list (st_by_owner s))) in
  filter (fun r : Resource =>
            is_none_or namespace (fun expected => id_ns (r_identity r) =?os Some expected) = true)
    ((fun e : string * Row => untyped_resource e.2.1 e.2.2) <$> rows).

(** ** Preconditions checked in a transaction of their own

    [delete_resource_with_preconditions], [patch_resource_with_preconditions]
    and [update_status_with_preconditions] read the resource in one transaction,
    check it, and write in another: [check_*] is the first half. *)

Definition check_uid (preconditions : ResourcePreconditions) (r : Resource) : result StoreError unit :=
  match pre_uid preconditions with
  | Some expected_uid =>
      if negb (pointer_str ["metadata"; "uid"] (r_data r) =?os Some expected_uid)
      then Err (Conflict "UID precondition failed") else Ok tt
  | None => Ok tt
  end.

Definition check_version (preconditions : ResourcePreconditions) (r : Resource) : result StoreError unit :=
  match pre_resource_version preconditions with
  | Some expected_rv =>
      if negb (r_resource_version r =? expected_rv)%Z
      then Err (Conflict "resourceVersion precondition failed") else Ok tt
  | None => Ok tt
  end.

Definition has_preconditions (preconditions : ResourcePreconditions) : bool :=
  opt_is_some (pre_uid preconditions) || opt_is_some (pre_resource_version preconditions).

Definition check_delete (i : Identity) (preconditions : ResourcePreconditions) (s : Store)
    : result StoreError unit :=
  if has_preconditions preconditions then
    match get_resource i s with
    | None => Err (Anyhow "not found")
    | Some r => try? check_uid preconditions r in check_version preconditions r
    end
  else Ok tt.

(** [None]: the resource is absent and nothing is patched. *)
Definition check_patch (i : Identity) (preconditions : ResourcePreconditions) (s : Store)
    : option (result StoreError unit) :=
  if has_preconditions preconditions then
    match get_resource i s with
    | None => None
    | Some r => Some (try? check_uid preconditions r in check_version preconditions r)
    end
  else Some (Ok tt).

Definition check_status (i : Identity) (preconditions : ResourcePreconditions) (s : Store)
    : result StoreError unit :=
  if opt_is_some (pre_uid preconditions) then
    match get_resource i s with
    | None => Err (Anyhow "not found")
    | Some r => check_uid preconditions r
    end
  else Ok tt.

(** ** Transactions and runs *)

Section Runs.
Variable merge : Value -> Value -> Value.

(** One write transaction, with the arguments of its call. *)
Inductive Op :=
| Create (fresh_uid : string) (i : Identity) (data : Value)
| Update (preserve_status : bool) (i : Identity) (data : Value) (p : ResourcePreconditions)
| DeleteOp (i : Identity)
| Tombstone (now : string) (i : Identity) (p : ResourcePreconditions) (grace : Z)
| Patch (i : Identity) (patch : Value)
| Status (i : Identity) (status : Value) (expected_rv : option Z).

Definition op_id (o : Op) : Identity :=
  match o with
  | Create _ i _ | Update _ i _ _ | DeleteOp i | Tombstone _ i _ _ | Patch i _ | Status i _ _ => i
  end.

Definition committed {A} (s : Store) (r : result StoreError (Committed A)) : Store :=
  match r with Ok (s', _) => s' | Err _ => s end.

Definition exec (o : Op) (s : Store) : Store :=
  match o with
  | Create fresh i data => committed s (create_resource fresh i data s)
  | Update ps i data p => committed s (update_resource_with_preconditions_impl ps i data p s)
  | DeleteOp i => (delete_resource i s).1
  | Tombstone now i p grace => committed s (delete_resource_with_tombstone now i p grace s)
  | Patch i patch => committed s (patch_resource merge i patch s)
  | Status i status expected => committed s (update_status i status expected s)
  end.

(** What a transaction writes, as a function of the row it finds: the event it
    appends and the body it leaves or removes; [None] when it writes nothing. *)
Definition plan (o : Op) (row : option Row) : option (ResourceEventType * Value) :=
  match o, row with
  | Create fresh i data, None => Some (Added, ensure_uid fresh data)
  | Update ps i data p, Some (rv, current) =>
      let data' := preserve_server_metadata_fields_from_existing data current in
      let data' := if ps then preserve_status_subresource_on_main_update (id_av i) (id_kind i) current data'
                   else data' in
      if is_ok (validate_uid_immutable data current) && is_ok (validate_resource_preconditions p current rv)
         && negb (resource_bodies_equal_ignoring_metadata_field current data' "resourceVersion")
      then Some (Modified, data') else None
  | DeleteOp _, Some (_, body) => Some (Deleted, body)
  | Tombstone now i p grace, Some (rv, current) =>
      if is_ok (validate_resource_preconditions p current rv)
         && opt_is_some (get "metadata" current ≫= as_object)
      then Some (Deleted, get_mut "metadata" (map_object (tombstone_metadata now grace)) current)
      else None
  | Patch i patch, Some (rv, before) =>
      let data := patched_body merge i patch before in
      if is_ok (validate_uid_immutable data before)
         && negb (resource_bodies_equal_ignoring_metadata_field before data "resourceVersion")
      then Some (Modified, data) else None
  | Status i status expected, Some (rv, current) =>
      if match expected with Some e => (0 <? e)%Z && negb (rv =? e)%Z | None => false end
         || opt_eqb value_eqb (get "status" current) (Some status)
      then None else Some (Modified, map_object (obj_insert "status" status) current)
  | _, _ => None
  end.

(** The tables a write leaves, whichever operation made it; the owner index is
    described apart. *)
Definition after (i : Identity) (t : ResourceEventType) (data : Value) (s : Store) : Store :=
  let '(rv, s) := incr_rv s in
  let s := match t with
           | Deleted => set_rv_to_key (delete rv) (remove_row i s)
           | _ => put_row i rv data s
           end in
  watch_insert rv i t data s.

Definition same_but_owners (s s' : Store) : Prop := set_by_owner (fun _ => ∅) s = set_by_owner (fun _ => ∅) s'.

Lemma update_owner_same i old new s : same_but_owners (update_owner_table i old new s) s.
Proof. unfold update_owner_table. destruct new; done. Qed.

Lemma after_by_owner f i t data s : set_by_owner f (after i t data s) = after i t data (set_by_owner f s).
Proof.
  unfold after, incr_rv. cbn [st_rv set_by_owner]. destruct t;
    unfold watch_insert, advance_rv_to_at_least;
    destruct (_ <=? 0)%Z; try done; cbn [st_rv put_row remove_row set_rv_to_key set_res_table set_rv];
    by destruct (_ <? _)%Z.
Qed.

Lemma after_same i t data s s' :
  same_but_owners s s' -> same_but_owners (after i t data s) (after i t data s').
Proof. unfold same_but_owners. rewrite !after_by_owner. by intros ->. Qed.

Lemma exec_plan o s :
  match plan o (get_row (op_id o) s) with
  | Some (t, data) => same_but_owners (exec o s) (after (op_id o) t data s)
  | None => exec o s = s
  end.
Proof.
  destruct o as [fresh i data|ps i data p|i|now i p grace|i patch|i status e]; cbn [op_id exec plan];
    unfold create_resource, update_resource_with_preconditions_impl, delete_resource,
      delete_resource_with_tombstone, patch_resource, update_status;
    destruct (get_row i s) as [[rv body]|] eqn:Hrow; cbn [opt_is_some committed fst]; try done.
  - destruct (validate_uid_immutable data body) as [[]|]; [|done].
    destruct (validate_resource_preconditions p body rv) as [[]|]; [|done].
    cbn [is_ok andb result_bind]. destruct (resource_bodies_equal_ignoring_metadata_field _ _ _); [done|].
    apply update_owner_same.
  - destruct (validate_resource_preconditions p body rv) as [[]|]; [|done].
    cbn [is_ok andb result_bind]. destruct (get "metadata" body ≫= as_object); [|done].
    apply update_owner_same.
  - destruct (validate_uid_immutable _ body) as [[]|]; [|done].
    cbn [is_ok andb result_bind]. destruct (resource_bodies_equal_ignoring_metadata_field _ _ _); [done|].
    exact (after_same i Modified _ _ _ (update_owner_same i _ _ s)).
  - destruct e as [e|]; cbn [orb];
      [destruct (_ && _); cbn [orb committed]; [done|]|];
      destruct (opt_eqb _ _ _); done.
Qed.

(** ** What one write changes *)

Definition id_ok (i : Identity) : bool :=
  identity_ok (id_av i) (id_kind i) (id_ns i) (id_name i)
  && nul_free (id_av i) (id_kind i) (id_ns i) (id_name i).

Lemma id_key_inj i j :
  id_ok i = true -> id_ok j = true -> opt_is_some (id_ns i) = opt_is_some (id_ns j) ->
  id_key i = id_key j -> i = j.
Proof.
  intros [Hi _]%andb_true_iff [Hj _]%andb_true_iff Hs Hk.
  apply resource_key_inj in Hk; [|done..]. destruct i, j. simpl in *. by simplify_eq.
Qed.

Lemma cmp_then_eq a b : cmp_then a b = Eq -> a = Eq /\ b = Eq.
Proof. by destruct a. Qed.

Lemma id_index_inj i j : id_ok i = true -> id_ok j = true -> id_index i = id_index j -> i = j.
Proof.
  intros [_ Hi]%andb_true_iff [_ Hj]%andb_true_iff Hk. apply str_compare_eq in Hk.
  unfold id_index in Hk. rewrite identity_key_compare in Hk by done.
  apply cmp_then_eq in Hk as [Hs Hk]. apply cmp_then_eq in Hk as [H1%str_compare_eq Hk].
  apply cmp_then_eq in Hk as [H2%str_compare_eq Hk].
  apply cmp_then_eq in Hk as [H3%str_compare_eq H4%str_compare_eq].
  destruct i as [? ? [|] ?], j as [? ? [|] ?]; simpl in *; by simplify_eq.
Qed.

Definition put_result (t : ResourceEventType) (rv : Z) (data : Value) : option Row :=
  match t with Deleted => None | _ => Some (rv, data) end.

Definition room (s : Store) : Prop := (0 <= st_rv s < i64_max)%Z.

Lemma incr_rv_room s : room s -> incr_rv s = ((st_rv s + 1)%Z, set_rv (st_rv s + 1) s).
Proof.
  unfold room, incr_rv. intros H. rewrite wrap_i64_small; [done|].
  unfold in_i64, i64_min, i64_max in *. lia.
Qed.

Lemma watch_insert_current_rv rv i t data s :
  st_rv s = rv ->
  watch_insert rv i t data s =
  mkStore (st_res_ns s) (st_res_cluster s) (st_rv_to_key s) (st_by_owner s)
    (match t with Deleted => delete (id_index i) (st_current s)
     | _ => <[id_index i := 1%Z]> (st_current s) end)
    (<[resource_history_key i (Z.min u64_max (st_watch_event_id s + 1)) :=
       Z.min u64_max (st_watch_event_id s + 1)]> (st_history s))
    (filter (fun e => e.1 <> Z.min u64_max (st_watch_event_id s + 1)) (st_watch_events s)
       ++ [(Z.min u64_max (st_watch_event_id s + 1), mkWatchRow i t data rv)])
    rv (Z.min u64_max (st_watch_event_id s + 1)) (Some (Z.min u64_max (st_watch_event_id s + 1)))
    (Some (Z.min u64_max (st_watch_event_id s + 1))).
Proof.
  intros <-. unfold watch_insert, advance_rv_to_at_least.
  rewrite Z.ltb_irrefl. by destruct (_ <=? 0)%Z.
Qed.

Lemma set_res_table_get ns f s j :
  res_table (id_ns j) (set_res_table ns f s) =
  if Bool.eqb (opt_is_some ns) (opt_is_some (id_ns j)) then f (res_table (id_ns j) s)
  else res_table (id_ns j) s.
Proof. unfold res_table. simpl. by destruct ns, (id_ns j). Qed.

Lemma after_row i t data s j :
  room s -> id_ok i = true -> id_ok j = true ->
  get_row j (after i t data s) =
  if decide (j = i) then put_result t (st_rv s + 1) data else get_row j s.
Proof.
  intros Hroom Hi Hj. unfold after. rewrite incr_rv_room by done.
  rewrite watch_insert_current_rv by by destruct t.
  assert (Htab : forall f, (forall m : gmap string Row, id_key j <> id_key i -> f m !! id_key j = m !! id_key j) ->
    (res_table (id_ns j) (set_res_table (id_ns i) f s)) !! id_key j =
    if decide (j = i) then f (res_table (id_ns i) s) !! id_key i else get_row j s).
  { intros f Hf. rewrite set_res_table_get. destruct (decide (j = i)) as [ -> |Hne].
    - by rewrite eqb_reflx.
    - destruct (Bool.eqb _ _) eqn:E; [|done]. apply eqb_prop in E. rewrite Hf; [done|].
      intros Hk. apply Hne. by apply id_key_inj. }
  destruct t; unfold get_row in *.
  1-2: etransitivity; [exact (Htab (insert (id_key i) ((st_rv s + 1)%Z, data))
           (fun m H => lookup_insert_ne m _ _ _ (not_eq_sym H)))|];
       case_decide; [apply lookup_insert_eq|done].
  etransitivity; [exact (Htab (delete (id_key i)) (fun m H => lookup_delete_ne m _ _ (not_eq_sym H)))|].
  case_decide; [apply lookup_delete_eq|done].
Qed.

(** ** Reachable stores *)

(** The uids a body lists as owners are free of NUL. *)
Definition owners_ok (data : Value) : Prop :=
  forall uid, uid ∈ extract_owner_uids data -> has_nul uid = false.

(** A transaction on an identity the codec keeps, while versions remain. *)
Definition op_ok (o : Op) (s : Store) : Prop :=
  id_ok (op_id o) = true /\ (st_rv s < i64_max)%Z /\
  (forall t data, plan o (get_row (op_id o) s) = Some (t, data) -> t <> Deleted -> owners_ok data).

Inductive reachable : Store -> Prop :=
| reach_empty : reachable empty_store
| reach_step o s : reachable s -> op_ok o s -> reachable (exec o s).

(** Transactions from a store onwards, by any mix of clients. *)
Inductive steps (s : Store) : Store -> Prop :=
| steps_refl : steps s s
| steps_step o s' : steps s s' -> op_ok o s' -> steps s (exec o s').

(** A reader of the watch log alone: the last event of an identity decides. *)
Definition replay_event (j : Identity) (row : option Row) (e : Z * WatchRow) : option Row :=
  if decide (we_id e.2 = j) then put_result (we_type e.2) (we_rv e.2) (we_data e.2) else row.

Definition replay (j : Identity) (log : list (Z * WatchRow)) : option Row :=
  foldl (replay_event j) None log.

Record store_inv (s : Store) : Prop := {
  inv_rv : (0 <= st_rv s <= i64_max)%Z;
  inv_event_id : st_watch_event_id s = st_rv s;
  inv_log : (fun e => (e.1, we_rv e.2)) <$> st_watch_events s = (fun k => (k, k)) <$> seqZ 1 (st_rv s);
  inv_replay : forall j, id_ok j = true -> get_row j s = replay j (st_watch_events s);
  inv_row_rv : forall j rv body, id_ok j = true -> get_row j s = Some (rv, body) -> (1 <= rv <= st_rv s)%Z;
  inv_current : forall j, id_ok j = true -> is_Some (st_current s !! id_index j) <-> is_Some (get_row j s)
}.

Lemma same_fields_store s s' :
  same_but_owners s s' ->
  st_rv s = st_rv s' /\ st_watch_event_id s = st_watch_event_id s' /\
  st_watch_events s = st_watch_events s' /\ st_current s = st_current s' /\
  (forall j, get_row j s = get_row j s').
Proof.
  unfold same_but_owners, get_row, res_table. destruct s, s'. intros [=]. simpl in *. by subst.
Qed.

Lemma store_inv_same s s' : same_but_owners s s' -> store_inv s' -> store_inv s.
Proof.
  intros (H1 & H2 & H3 & H4 & H5)%same_fields_store [].
  split; try setoid_rewrite H5; rewrite ?H1, ?H2, ?H3, ?H4; try done.
Qed.

Lemma log_ids_bound s e : store_inv s -> e ∈ st_watch_events s -> (e.1 <= st_rv s)%Z.
Proof.
  intros Hinv He. pose proof (inv_log _ Hinv) as Hlog.
  assert (Hin : (e.1, we_rv e.2) ∈ (fun k => (k, k)) <$> seqZ 1 (st_rv s)).
  { rewrite <- Hlog. apply list_elem_of_fmap. eauto. }
  apply list_elem_of_fmap in Hin as (k & [= -> _] & Hk). apply elem_of_seqZ in Hk. lia.
Qed.

Lemma list_filter_keep {A} (P : A -> Prop) `{forall x, Decision (P x)} (l : list A) :
  (forall x, x ∈ l -> P x) -> filter P l = l.
Proof.
  induction l as [|x l IH]; intros HP; [done|]. rewrite filter_cons, decide_True by (apply HP; left).
  f_equal. apply IH. intros. apply HP. by right.
Qed.

Lemma after_log i t data s :
  store_inv s -> (st_rv s < i64_max)%Z ->
  st_rv (after i t data s) = (st_rv s + 1)%Z /\
  st_watch_event_id (after i t data s) = (st_rv s + 1)%Z /\
  st_watch_events (after i t data s) =
    (st_watch_events s ++ [((st_rv s + 1)%Z, mkWatchRow i t data (st_rv s + 1))])%list /\
  st_current (after i t data s) =
    match t with Deleted => delete (id_index i) (st_current s)
    | _ => <[id_index i := 1%Z]> (st_current s) end.
Proof.
  intros Hinv Hlt. pose proof (inv_rv _ Hinv). unfold after.
  rewrite incr_rv_room by (split; lia). rewrite watch_insert_current_rv by by destruct t.
  assert (Hid : st_watch_event_id (match t with
    | Deleted => set_rv_to_key (delete (st_rv s + 1)%Z) (remove_row i (set_rv (st_rv s + 1) s))
    | _ => put_row i (st_rv s + 1) data (set_rv (st_rv s + 1) s) end) = st_rv s)
    by (destruct t; exact (inv_event_id _ Hinv)).
  rewrite Hid, Z.min_r by (unfold u64_max, i64_max in *; lia).
  split_and!; [done..| |by destruct t]. cbn [st_watch_events]. f_equal.
  replace (st_watch_events _) with (st_watch_events s) by by destruct t.
  apply list_filter_keep. intros e He. pose proof (log_ids_bound s e Hinv He). lia.
Qed.

Lemma store_inv_empty : store_inv empty_store.
Proof.
  assert (Hget : forall j, get_row j empty_store = None) by (intros j; unfold get_row, res_table; simpl;
    destruct (opt_is_some _); apply lookup_empty).
  split; try done; intros; rewrite ?Hget in *; try done. cbn [st_current empty_store].
  rewrite lookup_empty. by split; intros [].
Qed.

Lemma put_result_Some t rv data row : put_result t rv data = Some row -> t <> Deleted /\ row = (rv, data).
Proof. by destruct t; intros [= <-]. Qed.

Lemma store_inv_after i t data s :
  store_inv s -> (st_rv s < i64_max)%Z -> id_ok i = true -> store_inv (after i t data s).
Proof.
  intros Hinv Hlt Hi. pose proof (inv_rv _ Hinv).
  destruct (after_log i t data s Hinv Hlt) as (Hrv & Hid & Hlog & Hcur).
  assert (Hrow := fun j => after_row i t data s j (conj (proj1 H) Hlt) Hi).
  split; rewrite ?Hrv, ?Hid, ?Hlog, ?Hcur; try lia.
  - rewrite fmap_app, (inv_log _ Hinv), seqZ_app, fmap_app by lia. f_equal.
    rewrite Z.add_comm. done.
  - intros j Hj. rewrite Hrow by done. unfold replay. rewrite foldl_app. cbn [foldl].
    unfold replay_event at 1. cbn [we_id we_type we_rv we_data snd].
    destruct (decide (j = i)) as [ -> |Hne]; [by rewrite decide_True|].
    rewrite decide_False by congruence. by apply (inv_replay _ Hinv).
  - intros j rv body Hj. rewrite Hrow by done. case_decide.
    + intros [_ [= -> _]]%put_result_Some. lia.
    + intros Hr. apply (inv_row_rv _ Hinv) in Hr; [lia|done].
  - intros j Hj. rewrite Hrow by done. destruct (decide (j = i)) as [ -> |Hne].
    + destruct t; rewrite ?lookup_insert_eq, ?lookup_delete_eq; simpl; done.
    + assert (id_index i <> id_index j) by (intros Hk; apply Hne; symmetry; by apply id_index_inj).
      destruct t; rewrite ?lookup_insert_ne, ?lookup_delete_ne by done; by apply (inv_current _ Hinv).
Qed.

Lemma store_inv_exec o s : store_inv s -> op_ok o s -> store_inv (exec o s).
Proof.
  intros Hinv (Hi & Hlt & _). pose proof (exec_plan o s) as Hp.
  destruct (plan o _) as [[t data]|]; [|by rewrite Hp].
  eapply store_inv_same; [exact Hp|]. by apply store_inv_after.
Qed.

Lemma reachable_inv s : reachable s -> store_inv s.
Proof. induction 1; [apply store_inv_empty|by apply store_inv_exec]. Qed.

Lemma steps_inv s s' : store_inv s -> steps s s' -> store_inv s'.
Proof. intros Hinv. induction 1; [done|apply store_inv_exec; auto]. Qed.

(** The row of an identity after one transaction. *)
Lemma exec_row o s j :
  store_inv s -> op_ok o s -> id_ok j = true ->
  get_row j (exec o s) =
  match plan o (get_row (op_id o) s) with
  | Some (t, data) => if decide (j = op_id o) then put_result t (st_rv s + 1) data else get_row j s
  | None => get_row j s
  end.
Proof.
  intros Hinv (Hi & Hlt & _) Hj. pose proof (exec_plan o s) as Hp.
  destruct (plan o _) as [[t data]|]; [|by rewrite Hp].
  apply same_fields_store in Hp as (_ & _ & _ & _ & ->). apply after_row; [|done..].
  split; [apply (inv_rv _ Hinv)|done].
Qed.

Lemma exec_rv o s :
  store_inv s -> op_ok o s ->
  st_rv (exec o s) = match plan o (get_row (op_id o) s) with Some _ => st_rv s + 1 | None => st_rv s end%Z.
Proof.
  intros Hinv (Hi & Hlt & _). pose proof (exec_plan o s) as Hp.
  destruct (plan o _) as [[t data]|]; [|by rewrite Hp].
  apply same_fields_store in Hp as (-> & _). apply (after_log _ _ _ _ Hinv Hlt).
Qed.

(** ** The abstract store *)

(** What clients are promised: one version counter and one map from
    identities to the version and body they hold. *)
Record Spec := mkSpec { sp_rv : Z; sp_rows : Identity -> option Row }.

Definition spec_empty : Spec := mkSpec 0 (fun _ => None).

Definition spec_step (o : Op) (sp : Spec) : Spec :=
  match plan o (sp_rows sp (op_id o)) with
  | None => sp
  | Some (t, data) =>
      mkSpec (sp_rv sp + 1)
        (fun j => if decide (j = op_id o) then put_result t (sp_rv sp + 1) data else sp_rows sp j)
  end.

Fixpoint run (ops : list Op) (s : Store) : Store :=
  match ops with [] => s | o :: ops' => run ops' (exec o s) end.

Fixpoint run_ok (ops : list Op) (s : Store) : Prop :=
  match ops with [] => True | o :: ops' => op_ok o s /\ run_ok ops' (exec o s) end.

Definition simulates (sp : Spec) (s : Store) : Prop :=
  sp_rv sp = st_rv s /\ forall j, id_ok j = true -> sp_rows sp j = get_row j s.

Lemma spec_simulation o sp s :
  store_inv s -> op_ok o s -> simulates sp s -> simulates (spec_step o sp) (exec o s).
Proof.
  intros Hinv Hok [Hrv Hrows]. unfold spec_step. rewrite Hrows by apply Hok. split.
  - rewrite exec_rv by done. destruct (plan o _) as [[]|]; simpl; congruence.
  - intros j Hj. rewrite exec_row by done. destruct (plan o _) as [[]|]; cbn [sp_rows].
    + rewrite Hrv. case_decide; [done|by apply Hrows].
    + by apply Hrows.
Qed.

Lemma run_simulates ops : forall sp s,
  store_inv s -> simulates sp s -> run_ok ops s ->
  simulates (foldl (fun sp o => spec_step o sp) sp ops) (run ops s).
Proof.
  induction ops as [|o ops IH]; intros sp s Hinv Hsim Hok; [done|].
  destruct Hok as [Ho Hok]. cbn [foldl run].
  apply IH; [by apply store_inv_exec|by apply spec_simulation|done].
Qed.

(** C3.  The redb store implements a versioned map.  Run any sequence of
    creates, updates, patches, status writes and deletes: every read of an
    identity answers what the abstract store holds for it, and the version
    counter agrees.  The two physical tables, their byte keys and the indexes
    are invisible. *)
Theorem redb_store_refines ops :
  run_ok ops empty_store ->
  simulates (foldl (fun sp o => spec_step o sp) spec_empty ops) (run ops empty_store).
Proof.
  apply run_simulates; [apply store_inv_empty|]. split; [done|]. intros j _.
  unfold get_row, res_table. simpl. by destruct (opt_is_some _).
Qed.

(** C16.  The watch log is complete and in order: in every reachable store its
    entries carry the versions 1, 2, ... up to the counter, each once, and
    replaying it rebuilds the resource tables exactly, so no committed write
    is missing from the log and none is in it that was not committed. *)
Theorem watch_log_rebuilds_store s :
  reachable s ->
  (fun e => (e.1, we_rv e.2)) <$> st_watch_events s = (fun k => (k, k)) <$> seqZ 1 (st_rv s) /\
  forall j, id_ok j = true -> get_row j s = replay j (st_watch_events s).
Proof. intros Hinv%reachable_inv. split; [apply (inv_log _ Hinv)|apply (inv_replay _ Hinv)]. Qed.

(** The identity index that LIST pages through has an entry for a
    resource exactly when the resource exists. *)
Theorem identity_index_exact s j :
  reachable s -> id_ok j = true ->
  is_Some (st_current s !! id_index j) <-> is_Some (get_row j s).
Proof. intros Hinv%reachable_inv. apply (inv_current _ Hinv). Qed.

(** A row found later is the row found now, or carries a newer version. *)
Lemma steps_row s s' i row :
  store_inv s -> steps s s' -> id_ok i = true -> get_row i s' = Some row ->
  get_row i s = Some row \/ (st_rv s < row.1)%Z.
Proof.
  intros Hinv Hsteps Hi. revert row.
  assert (Hmono : forall s', steps s s' -> (st_rv s <= st_rv s')%Z).
  { induction 1 as [|o s1 H1 IH Ho]; [lia|]. rewrite exec_rv; [|by eapply steps_inv|done].
    destruct (plan o _); lia. }
  induction Hsteps as [|o s1 H1 IH Ho]; intros row Hrow; [by left|].
  rewrite exec_row in Hrow; [|by eapply steps_inv|done..].
  destruct (plan o _) as [[t data]|]; [|by apply IH].
  case_decide; [|by apply IH]. apply put_result_Some in Hrow as [_ ->]. right. simpl.
  specialize (Hmono _ H1). lia.
Qed.

(** The version a conditional transaction names. *)
Definition op_version (o : Op) : option Z :=
  match o with
  | Update _ _ _ p | Tombstone _ _ p _ => pre_resource_version p
  | Status _ _ (Some e) => if (0 <? e)%Z then Some e else None
  | _ => None
  end.

Lemma validate_version p current rv expected :
  is_ok (validate_resource_preconditions p current rv) = true ->
  pre_resource_version p = Some expected -> rv = expected.
Proof.
  unfold validate_resource_preconditions. intros Hok Hp.
  destruct (validate_apply_preconditions _ _) as [[]|[]] eqn:E; try done.
  apply validate_apply_preconditions_ok in E as (_ & _ & _ & H). exact (H _ _ eq_refl Hp).
Qed.

Lemma plan_version o row expected w :
  plan o row = Some w -> op_version o = Some expected -> exists body, row = Some (expected, body).
Proof.
  destruct o as [| ps i data p| |now i p g| |i st [e|]], row as [[rv body]|]; try done; simpl.
  - destruct (is_ok (validate_uid_immutable _ _)), (is_ok (validate_resource_preconditions _ _ _)) eqn:E;
      try done. intros _ Hp. exists body. by rewrite (validate_version _ _ _ _ E Hp).
  - destruct (is_ok (validate_resource_preconditions _ _ _)) eqn:E; try done.
    intros _ Hp. exists body. by rewrite (validate_version _ _ _ _ E Hp).
  - destruct (0 <? e)%Z; [|done]. destruct (Z.eqb_spec rv e); [|done].
    intros _ [= <-]. exists body. by subst.
Qed.


(** ** The owner index *)

Lemma id_owner_key_inj uid i uid' j :
  id_ok i = true -> id_ok j = true -> has_nul uid = false -> has_nul uid' = false ->
  id_owner_key uid i = id_owner_key uid' j -> uid = uid' /\ i = j.
Proof.
  intros [_ Hi]%andb_true_iff [_ Hj]%andb_true_iff Hu Hu' Hk.
  apply owner_ref_key_inj in Hk as [-> H]; [|done..]. destruct i, j. simpl in *. by simplify_eq.
Qed.

Lemma foldl_delete_lookup (f : string -> string) l (m : gmap string Row) k :
  foldl (fun m u => delete (f u) m) m l !! k = if decide (k ∈ f <$> l) then None else m !! k.
Proof.
  revert m. induction l as [|u l IH]; intros m; cbn [foldl fmap list_fmap]; [done|].
  rewrite IH. destruct (decide (k = f u)) as [ -> |Hne].
  - rewrite lookup_delete_eq. repeat case_decide; try done; set_solver.
  - rewrite lookup_delete_ne by done. repeat case_decide; try done; set_solver.
Qed.

Lemma foldl_insert_lookup (f : string -> string) (v : Row) l (m : gmap string Row) k :
  foldl (fun m u => <[f u := v]> m) m l !! k = if decide (k ∈ f <$> l) then Some v else m !! k.
Proof.
  revert m. induction l as [|u l IH]; intros m; cbn [foldl fmap list_fmap]; [done|].
  rewrite IH. destruct (decide (k = f u)) as [ -> |Hne].
  - rewrite lookup_insert_eq. repeat case_decide; try done; set_solver.
  - rewrite lookup_insert_ne by done. repeat case_decide; try done; set_solver.
Qed.

Definition owners_of (body : option Value) : gset string := from_option extract_owner_uids ∅ body.

Lemma owner_key_elem uid i j (X : gset string) :
  id_ok i = true -> id_ok j = true -> has_nul uid = false ->
  (forall u, u ∈ X -> has_nul u = false) ->
  id_owner_key uid j ∈ (fun u => id_owner_key u i) <$> elements X <-> j = i /\ uid ∈ X.
Proof.
  intros Hi Hj Hu HX. rewrite list_elem_of_fmap. split.
  - intros (u & Hk & Hin%elem_of_elements). apply id_owner_key_inj in Hk as [ -> -> ]; auto.
  - intros [ -> Hin]. exists uid. split; [done|]. by apply elem_of_elements.
Qed.

(** Whether a resource is indexed under an owner, after the index update. *)
Lemma update_owner_lookup i old new s uid j :
  id_ok i = true -> id_ok j = true -> has_nul uid = false ->
  (forall u, u ∈ owners_of old -> has_nul u = false) ->
  (forall u, u ∈ owners_of new -> has_nul u = false) ->
  st_by_owner (update_owner_table i old new s) !! id_owner_key uid j =
  if decide (j = i /\ uid ∈ owners_of new) then (fun b => (st_rv s, b)) <$> new
  else if decide (j = i /\ uid ∈ owners_of old) then None
  else st_by_owner s !! id_owner_key uid j.
Proof.
  intros Hi Hj Hu Hold Hnew. unfold update_owner_table. destruct new as [body|].
  - cbn [set_by_owner st_by_owner read_rv_meta st_rv].
    rewrite foldl_insert_lookup, foldl_delete_lookup.
    rewrite (decide_ext _ _ _ _ (owner_key_elem uid i j _ Hi Hj Hu Hnew)).
    by rewrite (decide_ext _ _ _ _ (owner_key_elem uid i j _ Hi Hj Hu Hold)).
  - rewrite decide_False by (intros [_ H]; by apply elem_of_empty in H).
    cbn [set_by_owner st_by_owner]. rewrite foldl_delete_lookup.
    by rewrite (decide_ext _ _ _ _ (owner_key_elem uid i j _ Hi Hj Hu Hold)).
Qed.

Definition new_body (t : ResourceEventType) (data : Value) : option Value :=
  match t with Deleted => None | _ => Some data end.

Definition is_status (o : Op) : bool := match o with Status _ _ _ => true | _ => false end.

Lemma after_owner i t data s : st_by_owner (after i t data s) = st_by_owner s.
Proof.
  unfold after, incr_rv, watch_insert, advance_rv_to_at_least.
  destruct t; destruct (_ <=? 0)%Z; try done; by destruct (_ <? _)%Z.
Qed.

Lemma exec_owner o s t data :
  plan o (get_row (op_id o) s) = Some (t, data) ->
  if is_status o then st_by_owner (exec o s) = st_by_owner s
  else exists s0, st_by_owner s0 = st_by_owner s /\
    st_by_owner (exec o s) =
    st_by_owner (update_owner_table (op_id o) (snd <$> get_row (op_id o) s) (new_body t data) s0).
Proof.
  intros Hp. destruct o as [fresh i d|ps i d p|i|now i p g|i patch|i st e]; cbn [op_id exec plan is_status] in *;
    unfold create_resource, update_resource_with_preconditions_impl, delete_resource,
      delete_resource_with_tombstone, patch_resource, update_status;
    destruct (get_row i s) as [[rv body]|] eqn:Hrow; cbn [opt_is_some committed fst]; try done.
  - injection Hp as <- <-. eexists (after i Added _ s). split; [apply after_owner|reflexivity].
  - destruct (validate_uid_immutable d body) as [[]|]; [|done].
    destruct (validate_resource_preconditions p body rv) as [[]|]; [|done].
    cbn [is_ok andb result_bind] in *. destruct (resource_bodies_equal_ignoring_metadata_field _ _ _); [done|].
    injection Hp as <- <-. eexists (after i Modified _ s). split; [apply after_owner|reflexivity].
  - injection Hp as <- <-. eexists (after i Deleted body s). split; [apply after_owner|reflexivity].
  - destruct (validate_resource_preconditions p body rv) as [[]|]; [|done].
    cbn [is_ok andb result_bind] in *. destruct (get "metadata" body ≫= as_object); [|done].
    injection Hp as <- <-. eexists (after i Deleted _ s). split; [apply after_owner|reflexivity].
  - destruct (validate_uid_immutable _ body) as [[]|]; [|done].
    cbn [is_ok andb result_bind] in *. destruct (resource_bodies_equal_ignoring_metadata_field _ _ _); [done|].
    injection Hp as <- <-. exists s. split; [done|]. exact (after_owner i Modified _ _).
  - destruct e as [e|]; cbn [orb] in *;
      [destruct (_ && _); cbn [orb] in *; [done|]|];
      destruct (opt_eqb _ _ _); try done; exact (after_owner i Modified _ s).
Qed.

Record owner_inv (s : Store) : Prop := {
  ow_keys : forall uid j, id_ok j = true -> has_nul uid = false ->
    is_Some (st_by_owner s !! id_owner_key uid j) <-> uid ∈ owners_of (snd <$> get_row j s);
  ow_ok : forall j uid, id_ok j = true -> uid ∈ owners_of (snd <$> get_row j s) -> has_nul uid = false
}.

Lemma extract_owner_status status body :
  extract_owner_uids (map_object (obj_insert "status" status) body) = extract_owner_uids body.
Proof.
  unfold extract_owner_uids. destruct body as [| | | | |m]; try done.
  cbn [map_object get as_object mbind option_bind]. by rewrite obj_get_insert_ne.
Qed.

Lemma status_owners o row t data :
  is_status o = true -> plan o row = Some (t, data) ->
  t = Modified /\ owners_of (Some data) = owners_of (snd <$> row).
Proof.
  intros Hs Hp. destruct o as [| | | | |i st e], row as [[rv body]|]; try done. simpl in Hp.
  case_match; [done|]. injection Hp as <- <-. split; [done|]. apply extract_owner_status.
Qed.

Lemma owner_inv_exec o s : store_inv s -> owner_inv s -> op_ok o s -> owner_inv (exec o s).
Proof.
  intros Hinv Hown Hop. pose proof Hop as (Hi & _ & Hdata).
  assert (Hrow := fun j => exec_row o s j Hinv Hop).
  destruct (plan o (get_row (op_id o) s)) as [[t data]|] eqn:Hp.
  2: { pose proof (exec_plan o s) as He. rewrite Hp in He. by rewrite He. }
  assert (Hnew : forall uid, uid ∈ owners_of (new_body t data) -> has_nul uid = false).
  { intros uid Hin. destruct t; simpl in Hin; try (by apply elem_of_empty in Hin);
      by eapply Hdata in Hin. }
  assert (Hres : forall rv, owners_of (snd <$> put_result t rv data) = owners_of (new_body t data))
    by by destruct t.
  split.
  - intros uid j Hj Hu. rewrite Hrow by done. pose proof (exec_owner o s t data Hp) as Ho.
    destruct (is_status o) eqn:Es.
    + destruct (status_owners o _ t data Es Hp) as [ -> Hsame]. rewrite Ho, (ow_keys _ Hown) by done.
      case_decide as Hd; [|done]. rewrite Hres. cbn [new_body]. by rewrite Hsame, Hd.
    + destruct Ho as (s0 & Hs0 & ->).
      rewrite update_owner_lookup by (try done; intros u; by apply (ow_ok _ Hown)).
      rewrite Hs0. destruct (decide (j = op_id o)) as [ -> |Hne]; [rewrite Hres|].
      * destruct (decide _) as [[_ Hin]|Hout]; [by destruct t; simpl in *; set_solver|].
        destruct (decide _) as [[_ Hin]|Hout']; [|rewrite (ow_keys _ Hown) by done];
          split; try (by intros []); naive_solver.
      * rewrite !decide_False by naive_solver. by apply (ow_keys _ Hown).
  - intros j uid Hj. rewrite Hrow by done. case_decide; [rewrite Hres; apply Hnew|by apply (ow_ok _ Hown)].
Qed.

Lemma owner_inv_empty : owner_inv empty_store.
Proof.
  assert (Hget : forall j, get_row j empty_store = None) by (intros j; unfold get_row, res_table; simpl;
    destruct (opt_is_some _); apply lookup_empty).
  split; intros; rewrite Hget in *; cbn [st_by_owner empty_store fmap option_fmap option_map owners_of from_option] in *.
  - rewrite lookup_empty. split; [by intros []|]. by intros ?%elem_of_empty.
  - by match goal with H : _ ∈ ∅ |- _ => apply elem_of_empty in H end.
Qed.

Lemma reachable_owner_inv s : reachable s -> owner_inv s.
Proof.
  induction 1 as [|o s Hr IH Hok]; [apply owner_inv_empty|].
  apply owner_inv_exec; [by apply reachable_inv|done..].
Qed.

Lemma find_owned_elem uid s key (row : Row) :
  st_by_owner s !! key = Some row -> (exists r, key = (uid +:+ String NUL "") +:+ r) ->
  untyped_resource row.1 row.2 ∈ find_owned uid None s.
Proof.
  intros Hrow Hpre. unfold find_owned.
  apply (prefix_range uid NUL key) in Hpre as [Hlo Hhi]; [|done].
  rewrite lex_next_no_carry by done. cbn [unwrap_or].
  apply list_elem_of_filter. split; [done|]. apply list_elem_of_fmap. exists (key, row). split; [done|].
  rewrite merge_sort_Permutation. apply list_elem_of_filter. split; [|by apply elem_of_map_to_list].
  unfold byte_le, byte_lt in *. cbn [fst]. apply andb_true_iff. unfold str_leb. split.
  - by destruct (String.compare _ key).
  - rewrite String.compare_antisym. by rewrite Hhi.
Qed.


End Runs.

Arguments Op : clear implicits.

(** ** Examples *)

(** RFC 7396, the behaviour [json_patch::merge] documents. *)
Fixpoint merge_patch (target patch : Value) {struct patch} : Value :=
  match patch with
  | Object pm =>
      Object ((fix go (pm : Map) (acc : Map) : Map :=
                 match pm with
                 | [] => acc
                 | (k, v) :: pm' =>
                     go pm' (match v with
                             | Null => obj_remove k acc
                             | _ => obj_insert k (merge_patch (unwrap_or Null (obj_get k acc)) v) acc
                             end)
                 end) pm (unwrap_or [] (as_object target)))
  | _ => patch
  end.

Definition web : Identity := mkId "apps/v1" "ReplicaSet" (Some "default") "web".

Definition web_body (replicas : Z) : Value :=
  Object [("apiVersion", Str "apps/v1"); ("kind", Str "ReplicaSet");
          ("metadata", Object [("name", Str "web"); ("namespace", Str "default");
             ("ownerReferences", Array [Object [("uid", Str "owner-1")]]); ("uid", Str "web-1")]);
          ("spec", Object [("replicas", Num (NInt replicas))])].

Definition created : Store := exec merge_patch (Create "fresh" web (web_body 1)) empty_store.
Definition scaled : Op := Update false web (web_body 2) (mkPreconditions None (Some 1%Z)).

Lemma web_owners_ok n : owners_ok (web_body n).
Proof.
  intros uid. unfold extract_owner_uids. cbn. rewrite union_empty_r_L, elem_of_singleton. by intros ->.
Qed.

Lemma created_ok : op_ok merge_patch (Create "fresh" web (web_body 1)) empty_store.
Proof. split_and!; [reflexivity|done|]. intros t data [= <- <-] _. exact (web_owners_ok 1). Qed.

Lemma created_reachable : reachable merge_patch created.
Proof. apply reach_step; [apply reach_empty|apply created_ok]. Qed.

Lemma scaled_ok : op_ok merge_patch scaled created.
Proof.
  split_and!; [reflexivity|done|]. intros t data H _. vm_compute in H. injection H as <- <-.
  exact (web_owners_ok 2).
Qed.

Lemma redb_store_refines_witness :
  let ops := [Create "fresh" web (web_body 1); scaled; DeleteOp web] in
  simulates (foldl (fun sp o => spec_step merge_patch o sp) spec_empty ops) (run merge_patch ops empty_store).
Proof.
  apply redb_store_refines. split; [apply created_ok|]. split; [exact scaled_ok|]. split; [|done].
  split_and!; [reflexivity|done|]. intros t data H Hne. vm_compute in H. by injection H as <- _.
Defined.

Lemma watch_log_rebuilds_store_witness : get_row web created = replay web (st_watch_events created).
Proof. apply (watch_log_rebuilds_store merge_patch created created_reachable). reflexivity. Defined.

Lemma identity_index_exact_witness : is_Some (get_row web created).
Proof.
  apply (identity_index_exact merge_patch created web created_reachable); [reflexivity|].
  vm_compute. eauto.
Defined.



Definition web_status : Op := Status web (Object [("replicas", Num (NInt 1))]) None.
Definition web_patch : Op := Patch web (Object [("spec", Object [("replicas", Num (NInt 5))])]).

(** What a reader by owner and a reader by name see of the version. *)
Definition versions_seen (s : Store) : list Z * option Z :=
  (r_resource_version <$> find_owned "owner-1" None s, r_resource_version <$> get_resource web s).

(** Reads by owner go stale.  After a status write, [find_owned] still
    returns the body and version from before it, because the status path does
    not touch the owner index; after a patch it returns the new body under the
    old version, because the index is written before the version is
    allocated.  After an update both agree. *)
Theorem owned_read_stale :
  versions_seen created = ([1%Z], Some 1%Z) /\
  versions_seen (exec merge_patch scaled created) = ([2%Z], Some 2%Z) /\
  versions_seen (exec merge_patch web_status created) = ([1%Z], Some 2%Z) /\
  get "status" <$> (r_data <$> find_owned "owner-1" None (exec merge_patch web_status created)) = [None] /\
  versions_seen (exec merge_patch web_patch created) = ([1%Z], Some 2%Z).
Proof. vm_compute. done. Qed.

Definition at_version_1 : ResourcePreconditions := mkPreconditions None (Some 1%Z).

(** A conditional delete can remove a version it was not asked to: the
    precondition is read in one transaction and the delete runs in another, so
    an update that commits between them is deleted with its version and body,
    although the same check would now refuse. *)
Theorem delete_precondition_race :
  check_delete web at_version_1 created = Ok tt /\
  steps merge_patch created (exec merge_patch scaled created) /\
  check_delete web at_version_1 (exec merge_patch scaled created) =
    Err (Conflict "resourceVersion precondition failed") /\
  get_row web (delete_resource web (exec merge_patch scaled created)).1 = None.
Proof.
  split_and!; [reflexivity| |reflexivity|reflexivity].
  apply steps_step; [apply steps_refl|apply scaled_ok].
Qed.
