(* ===== verification/Selectors.v ===== *)
(** * Label and field selectors

    [klights-types/src/label_selector.rs] and [field_selector.rs]: the text forms
    that LIST and WATCH requests carry, the structured form of workload specs,
    and what they match.

    A formatted error message is represented by a constructor that says which
    message it is; where the message quotes a character, the constructor holds
    the first byte of its encoding.  The text of a JSON float is a parameter. *)

From stdpp Require Import sorting.
From S2P Require Import Prelude Text Json.
Local Open Scope string_scope.
Local Open Scope rs_scope.

(** ** Label selectors *)

Inductive LabelSelectorParseError :=
| MatchLabelNotString (key : string) (value : Value)
| ExpressionMissingKey (expression : Value)
| ExpressionMissingOperator (key : string)
| UnknownOperator (operator : string)
| FlatSelectorNotObject (value : Value)
| FlatLabelNotString (key : string) (value : Value)
| InvalidSelector (part : string).

Inductive LabelRequirement :=
| Equality (key value : string)
| Inequality (key value : string)
| Exists (key : string)
| NotExists (key : string)
| In (key : string) (values : list string)
| NotIn (key : string) (values : list string).

Abbreviation LabelSelector := (list LabelRequirement).

(** [labels.and_then(|l| l.get(key)).and_then(|v| v.as_str())]. *)
Definition label_text (labels : option Map) (key : string) : option string :=
  l ← labels; v ← obj_get key l; as_str v.

Definition requirement_matches (self : LabelRequirement) (labels : option Map) : bool :=
  match self with
  | Equality key value => is_some_and (label_text labels key) (fun v => v =?s value)
  | Inequality key value => is_none_or (label_text labels key) (fun v => negb (v =?s value))
  | Exists key => is_some_and labels (obj_contains_key key)
  | NotExists key => is_none_or labels (fun l => negb (obj_contains_key key l))
  | In key values => is_some_and (label_text labels key) (fun v => existsb (fun value => value =?s v) values)
  | NotIn key values =>
      is_none_or (label_text labels key) (fun v => forallb (fun value => negb (value =?s v)) values)
  end.

Definition matches_labels (self : LabelSelector) (labels : option Map) : bool :=
  forallb (fun req => requirement_matches req labels) self.

Definition matches_resource (self : LabelSelector) (resource : Value) : bool :=
  matches_labels self (m ← get "metadata" resource; l ← get "labels" m; as_object l).

(** A loop that stops at the first error. *)
Fixpoint try_map {E A B} (f : A -> result E B) (l : list A) : result E (list B) :=
  match l with
  | [] => Ok []
  | a :: l' => let? b := f a in let? bs := try_map f l' in Ok (b :: bs)
  end.

Definition match_label (err : string -> Value -> LabelSelectorParseError) (kv : string * Value)
  : result LabelSelectorParseError LabelRequirement :=
  let? value := ok_or (as_str kv.2) (err kv.1 kv.2) in Ok (Equality kv.1 value).

Definition match_expression (expr : Value) : result LabelSelectorParseError LabelRequirement :=
  let? key := ok_or (get_str "key" expr) (ExpressionMissingKey expr) in
  let? operator := ok_or (get_str "operator" expr) (ExpressionMissingOperator key) in
  let values := omap as_str (unwrap_or [] (v ← get "values" expr; as_array v)) in
  if operator =?s "In" then Ok (In key values)
  else if operator =?s "NotIn" then Ok (NotIn key values)
  else if operator =?s "Exists" then Ok (Exists key)
  else if operator =?s "DoesNotExist" then Ok (NotExists key)
  else Err (UnknownOperator operator).

Definition from_k8s_selector (selector : Value) : result LabelSelectorParseError LabelSelector :=
  let? labels := try_map (match_label MatchLabelNotString)
                   (unwrap_or [] (v ← get "matchLabels" selector; as_object v)) in
  let? exprs := try_map match_expression
                  (unwrap_or [] (v ← get "matchExpressions" selector; as_array v)) in
  Ok (labels ++ exprs)%list.

Definition from_flat_match_labels (value : Value) : result LabelSelectorParseError LabelSelector :=
  let? obj := ok_or (as_object value) (FlatSelectorNotObject value) in
  try_map (match_label FlatLabelNotString) obj.

(** A part that is not blank. *)
Definition non_blank_part (part : string) : list string :=
  let part := trim part in if is_empty part then [] else [part].

(** [split_selector]: [part] is the text since the last top-level comma. *)
Fixpoint split_selector_loop (selector part : string) (paren_depth : nat) : list string :=
  match selector with
  | EmptyString => non_blank_part part
  | String ch rest =>
      let part' := part +:+ String ch EmptyString in
      if Ascii.eqb ch "(" then split_selector_loop rest part' (S paren_depth)
      else if Ascii.eqb ch ")" then split_selector_loop rest part' (Nat.pred paren_depth)
      else if Ascii.eqb ch "," && Nat.eqb paren_depth 0
      then (non_blank_part part ++ split_selector_loop rest EmptyString 0)%list
      else split_selector_loop rest part' paren_depth
  end.

Definition split_selector (selector : string) : list string := split_selector_loop selector "" 0.

(** The two set-based forms: the key and the values between the parentheses. *)
Definition parse_set (sep part : string) : result LabelSelectorParseError (string * list string) :=
  match split sep part with
  | [key; rest] =>
      match strip_suffix ")" rest with
      | Some values_str =>
          Ok (trim key, List.filter (fun v => negb (is_empty v)) (trim <$> split "," values_str))
      | None => Err (InvalidSelector part)
      end
  | _ => Err (InvalidSelector part)
  end.

Definition parse_requirement_part (part : string) : result LabelSelectorParseError LabelRequirement :=
  match strip_prefix "!" part with
  | Some stripped => Ok (NotExists (trim stripped))
  | None =>
      if contains " notin (" part then let? kv := parse_set " notin (" part in Ok (NotIn kv.1 kv.2)
      else if contains " in (" part then let? kv := parse_set " in (" part in Ok (In kv.1 kv.2)
      else match split_once "!=" part with
           | Some (key, value) => Ok (Inequality (trim key) (trim value))
           | None =>
               match or_else (split_once "==" part) (split_once "=" part) with
               | Some (key, value) => Ok (Equality (trim key) (trim value))
               | None => Ok (Exists part)
               end
           end
  end.

(** [split_selector] trims its parts and drops the empty ones; the loop trims
    and tests again. *)
Definition parse_label_selector (selector : string) : result LabelSelectorParseError LabelSelector :=
  try_map parse_requirement_part
    (List.filter (fun part => negb (is_empty part)) (trim <$> split_selector selector)).

(** ** Field selectors *)

Inductive FieldSelectorOperator := Equals | NotEquals.

Record FieldRequirement := mkFieldRequirement {
  fr_field : string; fr_operator : FieldSelectorOperator; fr_value : string
}.

Inductive FieldSelectorParseError :=
| CannotUnderstand (raw : string)
| BadEscape (other : ascii)
| TrailingBackslash
| UnescapedCharacter (character : ascii).

Abbreviation FieldSelector := (list FieldRequirement).

(** The operator at the start of a text, with what follows it. *)
Definition operator_at (remaining : string) : option (FieldSelectorOperator * string) :=
  match strip_prefix "!=" remaining, strip_prefix "==" remaining, strip_prefix "=" remaining with
  | Some value, _, _ => Some (NotEquals, value)
  | None, Some value, _ => Some (Equals, value)
  | None, None, Some value => Some (Equals, value)
  | None, None, None => None
  end.

(** The first position an operator starts at. *)
Fixpoint find_operator (raw : string) : option (string * FieldSelectorOperator * string) :=
  match operator_at raw with
  | Some (operator, value) => Some ("", operator, value)
  | None =>
      match raw with
      | EmptyString => None
      | String c rest =>
          '(field, operator, value) ← find_operator rest; Some (String c field, operator, value)
      end
  end.

Definition parse_requirement (raw : string)
  : result FieldSelectorParseError (string * FieldSelectorOperator * string) :=
  ok_or (find_operator raw) (CannotUnderstand raw).

Definition backslash : ascii := "092".

Fixpoint split_terms_loop (selector term : string) (escaped : bool) : list string :=
  match selector with
  | EmptyString => [term]
  | String character rest =>
      let term' := term +:+ String character EmptyString in
      if escaped then split_terms_loop rest term' false
      else if Ascii.eqb character backslash then split_terms_loop rest term' true
      else if Ascii.eqb character "," then term :: split_terms_loop rest EmptyString false
      else split_terms_loop rest term' false
  end.

Definition split_terms (selector : string) : list string :=
  if is_empty selector then [] else split_terms_loop selector "" false.

(** The characters a value has to escape. *)
Definition is_special (c : ascii) : bool :=
  Ascii.eqb c backslash || Ascii.eqb c "," || Ascii.eqb c "=".

Fixpoint unescape_loop (characters : string) : result FieldSelectorParseError string :=
  match characters with
  | EmptyString => Ok EmptyString
  | String character rest =>
      if Ascii.eqb character backslash then
        match rest with
        | EmptyString => Err TrailingBackslash
        | String escaped rest' =>
            if is_special escaped then let? s := unescape_loop rest' in Ok (String escaped s)
            else Err (BadEscape escaped)
        end
      else if Ascii.eqb character "," || Ascii.eqb character "=" then Err (UnescapedCharacter character)
      else let? s := unescape_loop rest in Ok (String character s)
  end.

Definition unescape_value (value : string) : result FieldSelectorParseError string :=
  if negb (any_char is_special value) then Ok value else unescape_loop value.

Definition parse_field_requirement (raw : string) : result FieldSelectorParseError FieldRequirement :=
  let? req := parse_requirement raw in
  let? value := unescape_value req.2 in
  Ok (mkFieldRequirement req.1.1 req.1.2 value).

(** Byte order, as [sort_unstable] on [&str]; equal texts are interchangeable. *)
Definition str_le (a b : string) : Prop := str_leb a b = true.

#[export] Instance str_le_dec a b : Decision (str_le a b).
Proof. unfold str_le. apply _. Defined.

Definition FieldSelector_parse (selector : string) : result FieldSelectorParseError FieldSelector :=
  try_map parse_field_requirement
    (List.filter (fun raw => negb (is_empty raw)) (merge_sort str_le (split_terms selector))).

Definition default_field_value (api_version kind path : string) : option string :=
  if (api_version =?s "v1") && (kind =?s "Node") && (path =?s "spec.unschedulable")
  then Some "false" else None.

Section FieldValues.
Context (float_to_string : Z -> string).

Definition scalar_text (v : Value) : option string :=
  match v with
  | Str value => Some value
  | Bool true => Some "true"
  | Bool false => Some "false"
  | Num (NInt z) => Some (to_string z)
  | Num (NFloat bits) => Some (float_to_string bits)
  | _ => None
  end.

Definition walk (segments : list string) (v : Value) : option Value :=
  fold_left (fun current segment => c ← current; get segment c) segments (Some v).

Definition nonempty_string (value : option Value) : option string :=
  v ← value; opt_filter (fun s => negb (is_empty s)) (as_str v).

Definition event_source (object : Value) : option string :=
  or_else (nonempty_string (s ← get "source" object; get "component" s))
    (or_else (nonempty_string (s ← get "deprecatedSource" object; get "component" s))
       (or_else (nonempty_string (get "reportingController" object))
          (nonempty_string (get "reportingComponent" object)))).

Definition resolve_field_value (object : Value) (path : string) : option string :=
  match (if path =?s "source" then event_source object else None) with
  | Some component => Some component
  | None =>
      match strip_prefix "involvedObject." path with
      | Some suffix =>
          current ← or_else (get "involvedObject" object) (get "regarding" object);
          v ← walk (split "." suffix) current; scalar_text v
      | None => v ← walk (split "." path) object; scalar_text v
      end
  end.

Definition matches_value (self : FieldRequirement) (value : string) : bool :=
  let equal := value =?s fr_value self in
  match fr_operator self with Equals => equal | NotEquals => negb equal end.

Definition field_matches_with_identity (self : FieldRequirement) (api_version kind : string) (object : Value)
  : bool :=
  matches_value self
    (unwrap_or "" (or_else (resolve_field_value object (fr_field self))
                     (default_field_value api_version kind (fr_field self)))).

Definition FieldSelector_matches_with_identity (self : FieldSelector) (api_version kind : string)
    (object : Value) : bool :=
  forallb (fun r => field_matches_with_identity r api_version kind object) self.

Definition field_matches_resource (self : FieldRequirement) (object : Value) : bool :=
  matches_value self (unwrap_or "" (resolve_field_value object (fr_field self))).

Definition FieldSelector_matches_resource (self : FieldSelector) (object : Value) : bool :=
  forallb (fun r => field_matches_resource r object) self.
End FieldValues.

(** ** The text form of a label requirement *)

Definition is_label_char (c : ascii) : bool :=
  let n := Ascii.N_of_ascii c in
  is_ascii_digit c || ((65 <=? n) && (n <=? 90) || (97 <=? n) && (n <=? 122))%N
  || Ascii.eqb c "-" || Ascii.eqb c "_" || Ascii.eqb c "." || Ascii.eqb c "/".

Definition label_text_ok (s : string) : bool := all_chars is_label_char s.
Definition label_word (s : string) : bool := negb (is_empty s) && label_text_ok s.

Definition well_formed (r : LabelRequirement) : bool :=
  match r with
  | Equality key value | Inequality key value => label_word key && label_text_ok value
  | Exists key | NotExists key => label_word key
  | In key values | NotIn key values => label_word key && forallb label_word values
  end.

Definition render_set (sep key : string) (values : list string) : string :=
  key +:+ sep +:+ String.concat "," values +:+ ")".

Definition render (r : LabelRequirement) : string :=
  match r with
  | Equality key value => key +:+ "=" +:+ value
  | Inequality key value => key +:+ "!=" +:+ value
  | Exists key => key
  | NotExists key => "!" +:+ key
  | In key values => render_set " in (" key values
  | NotIn key values => render_set " notin (" key values
  end.

(** ** Lemmas *)

#[local] Arguments String.append !_ _ : simpl nomatch.

Lemma try_map_Ok {E A B} (f : A -> result E B) (g : B -> A) l :
  Forall (fun b => f (g b) = Ok b) l -> try_map f (g <$> l) = Ok l.
Proof. induction 1 as [|b l Hb _ IH]; csimpl; [done|]. rewrite Hb. simpl. by rewrite IH. Qed.

(** Membership of a literal in a literal list. *)
Ltac in_list := solve [repeat (apply elem_of_cons; first [by left | right])].

(** A character of a label is none of the characters the syntax uses. *)
Lemma label_char_plain c d :
  is_label_char c = true -> d ∈ ["("; ")"; ","; " "; "!"; "="]%char -> Ascii.eqb d c = false.
Proof.
  intros Hc Hd. destruct (Ascii.eqb_spec d c) as [->|]; [|done]. exfalso.
  rewrite !elem_of_cons, elem_of_nil in Hd. destruct_or?; by subst.
Qed.

Lemma label_char_visible c : is_label_char c = true -> is_visible c = true.
Proof. by destruct c as [[] [] [] [] [] [] [] []]. Qed.

Lemma label_text_plain d s :
  label_text_ok s = true -> d ∈ ["("; ")"; ","; " "; "!"; "="]%char ->
  any_char (Ascii.eqb d) s = false.
Proof. intros Hs Hd. eapply any_char_none; [apply Hs|]. intros c Hc. by apply label_char_plain. Qed.

Ltac plain := apply label_text_plain; [done | in_list].

Lemma label_text_trim s : label_text_ok s = true -> trim s = s.
Proof. intros. apply trim_visible. eapply all_chars_weaken; [|done]. apply label_char_visible. Qed.

Lemma label_word_spec s : label_word s = true <-> s <> "" /\ label_text_ok s = true.
Proof. unfold label_word. rewrite andb_true_iff, negb_true_iff. destruct s; simpl; intuition congruence. Qed.

Lemma trim_enclosed a m b :
  a <> "" -> b <> "" -> all_chars is_visible a = true -> all_chars is_visible b = true ->
  trim (a +:+ m +:+ b) = a +:+ m +:+ b.
Proof.
  unfold all_chars. rewrite !forallb_forall. intros Ha Hb Hva Hvb.
  apply trim_edges; intros c; rewrite !bytes_of_app.
  - destruct a as [|x a]; [done|]. intros [= ->]. apply Hva. by left.
  - rewrite !rev_app_distr. destruct (rev (bytes_of b)) as [|x l] eqn:E.
    + apply (f_equal (@rev ascii)) in E. rewrite rev_involutive in E. by destruct b.
    + intros [= ->]. apply Hvb, in_rev. rewrite E. by left.
Qed.

Lemma label_text_visible s : label_text_ok s = true -> all_chars is_visible s = true.
Proof. apply all_chars_weaken, label_char_visible. Qed.

Lemma values_concat_plain d values :
  forallb label_word values = true -> d ∈ ["("; ")"; " "; "!"; "="]%char ->
  any_char (Ascii.eqb d) (String.concat "," values) = false.
Proof.
  intros Hv Hd.
  assert (Hd' : d ∈ ["("; ")"; ","; " "; "!"; "="]%char) by (rewrite !elem_of_cons in *; tauto).
  induction values as [|v [|v' l] IH]; [done|..];
    apply andb_true_iff in Hv as [[_ Hv]%label_word_spec Hl].
  - by apply label_text_plain.
  - change (String.concat "," (v :: v' :: l)) with (v +:+ "," +:+ String.concat "," (v' :: l)).
    unfold any_char in *. rewrite !bytes_of_app, !existsb_app, IH by done.
    fold (any_char (Ascii.eqb d) v). rewrite label_text_plain by done.
    rewrite !elem_of_cons, elem_of_nil in Hd. by destruct_or?; subst.
Qed.

(** Values read back from between the parentheses. *)
Lemma values_back values :
  forallb label_word values = true ->
  List.filter (fun v => negb (is_empty v)) (trim <$> split "," (String.concat "," values)) = values.
Proof.
  intros Hv. destruct values as [|v0 l0]; [done|].
  rewrite split_join; [|done|].
  2: { apply Forall_forall. intros v Hin. rewrite forallb_forall in Hv.
       apply label_text_plain; [|in_list]. by apply label_word_spec, Hv, list_elem_of_In. }
  revert Hv. generalize (v0 :: l0). induction l as [|v l IH]; csimpl; [done|].
  intros [[Hne Hv]%label_word_spec Hl]%andb_true_iff.
  rewrite label_text_trim, IH by done. by destruct v.
Qed.

Lemma any_char_snoc d s c :
  any_char (Ascii.eqb d) (s +:+ String c "") = any_char (Ascii.eqb d) s || Ascii.eqb d c.
Proof. unfold any_char. rewrite bytes_of_app, existsb_app. simpl. by rewrite orb_false_r. Qed.

Lemma values_tail_plain values :
  forallb label_word values = true ->
  any_char (Ascii.eqb " ") (String.concat "," values +:+ ")") = false.
Proof. intros. rewrite any_char_snoc, values_concat_plain by (done || in_list). done. Qed.

Lemma parse_set_render sep key values :
  label_word key = true -> forallb label_word values = true ->
  parse_set (String " " sep) (render_set (String " " sep) key values) = Ok (key, values).
Proof.
  intros [Hne Hk]%label_word_spec Hv. unfold parse_set, render_set.
  assert (Hsplit : split (String " " sep) (key +:+ String " " sep +:+ String.concat "," values +:+ ")")
    = [key; String.concat "," values +:+ ")"]).
  { unfold split. destruct key as [|c key]; [done|]. cbn [String.length String.append].
    erewrite split_fuel_Some.
    2: { apply (split_once_app " " sep (String c key)), label_text_plain; [done|in_list]. }
    f_equal. by apply split_fuel_None, split_once_None_head, values_tail_plain. }
  rewrite Hsplit, strip_suffix_app. by rewrite label_text_trim, values_back.
Qed.

Lemma strip_bang_label key s :
  label_word key = true -> strip_prefix "!" (key +:+ s) = None.
Proof.
  intros [Hne Hk]%label_word_spec. destruct key as [|c key]; [done|].
  apply andb_true_iff in Hk as [Hc _]. cbn [String.append strip_prefix].
  by rewrite (label_char_plain c "!") by (done || in_list).
Qed.

(** A set separator is not found where the text has no space. *)
Lemma contains_no_space sep s :
  any_char (Ascii.eqb " ") s = false -> contains (String " " sep) s = false.
Proof. intros H. unfold contains. by rewrite split_once_None_head. Qed.

Lemma any_char_app p a b : any_char p (a +:+ b) = any_char p a || any_char p b.
Proof. unfold any_char. by rewrite bytes_of_app, existsb_app. Qed.

Lemma double_eq_absent value :
  label_text_ok value = true -> split_once "==" ("=" +:+ value) = None.
Proof.
  intros Hv.
  change (split_once "==" ("=" +:+ value)) with
    (match strip_prefix "==" ("=" +:+ value) with
     | Some rest => Some ("", rest)
     | None => match split_once "==" value with Some (a, b) => Some (String "=" a, b) | None => None end
     end).
  rewrite (split_once_None_head "=") by plain.
  destruct (strip_prefix _ _) as [r|] eqn:E; [|done].
  apply strip_prefix_Some in E. injection E as ->. done.
Qed.

Lemma parse_part_compare key op value r :
  label_word key = true -> label_text_ok value = true ->
  (op = "=" /\ r = Equality key value \/ op = "!=" /\ r = Inequality key value) ->
  parse_requirement_part (key +:+ op +:+ value) = Ok r.
Proof.
  intros Hkey Hv Hop. pose proof Hkey as [Hne Hk]%label_word_spec.
  unfold parse_requirement_part. rewrite strip_bang_label by done.
  assert (Hsp : any_char (Ascii.eqb " ") (key +:+ op +:+ value) = false).
  { rewrite !any_char_app, (label_text_plain _ key), (label_text_plain _ value) by (done || in_list).
    by destruct Hop as [[-> _]|[-> _]]. }
  rewrite !contains_no_space by done.
  destruct Hop as [[-> ->]|[-> ->]].
  - rewrite (split_once_None_head "!").
    2: { rewrite !any_char_app, (label_text_plain _ key), (label_text_plain _ value) by (done || in_list). done. }
    rewrite (split_once_app "=" "" key value) by plain.
    assert (split_once "==" (key +:+ "=" +:+ value) = None) as ->.
    { by rewrite split_once_skip, double_eq_absent by (done || plain). }
    simpl. by rewrite !label_text_trim.
  - rewrite (split_once_app "!" "=" key value) by plain.
    by rewrite !label_text_trim.
Qed.

Lemma contains_set_sep sep key values :
  label_word key = true ->
  contains (String " " sep) (render_set (String " " sep) key values) = true.
Proof.
  intros [_ Hk]%label_word_spec. unfold contains, render_set.
  by rewrite split_once_app by plain.
Qed.

Lemma notin_not_in_in key values :
  label_word key = true -> forallb label_word values = true ->
  contains " notin (" (render_set " in (" key values) = false.
Proof.
  intros [_ Hk]%label_word_spec Hv. unfold contains, render_set.
  rewrite split_once_skip by plain.
  assert (Hspace : forall t u, strip_prefix " notin (" (String " " t) = None ->
    split_once " notin (" t = u -> split_once " notin (" (String " " t)
      = match u with Some (a, b) => Some (String " " a, b) | None => None end).
  { intros t u Hp <-. cbn [split_once]. by rewrite Hp. }
  set (t := String.concat "," values +:+ ")").
  assert (split_once " notin (" ("(" +:+ t) = None) as Ht.
  { apply split_once_None_head. rewrite any_char_app. unfold t. by rewrite values_tail_plain. }
  assert (split_once " notin (" ("in (" +:+ t) = None) as Hin.
  { change ("in (" +:+ t) with ("in" +:+ String " " ("(" +:+ t)).
    rewrite split_once_skip by done. by rewrite (Hspace _ None). }
  change (" in (" +:+ t) with (String " " ("in (" +:+ t)). by rewrite (Hspace _ None).
Qed.

Lemma parse_part_render r : well_formed r = true -> parse_requirement_part (render r) = Ok r.
Proof.
  destruct r as [k v|k v|k|k|k vs|k vs]; cbn [well_formed render]; rewrite ?andb_true_iff.
  - intros [Hk Hv]. apply parse_part_compare; auto.
  - intros [Hk Hv]. apply parse_part_compare; auto.
  - intros Hk. pose proof Hk as [_ Ht]%label_word_spec. unfold parse_requirement_part.
    rewrite <- (str_app_nil_r k) at 1. rewrite strip_bang_label by done.
    rewrite !contains_no_space by plain.
    by rewrite !split_once_None_head by plain.
  - intros [_ Ht]%label_word_spec. unfold parse_requirement_part. simpl. by rewrite label_text_trim.
  - intros [Hk Hv]. unfold parse_requirement_part, render_set at 1. rewrite strip_bang_label by done.
    by rewrite notin_not_in_in, contains_set_sep, parse_set_render.
  - intros [Hk Hv]. unfold parse_requirement_part, render_set at 1. rewrite strip_bang_label by done.
    by rewrite contains_set_sep, parse_set_render.
Qed.

(** *** Scanning *)

Lemma any_char_cons p c s : any_char p (String c s) = p c || any_char p s.
Proof. done. Qed.

Lemma scan_text s rest part d :
  any_char (Ascii.eqb "(") s = false -> any_char (Ascii.eqb ")") s = false ->
  d <> 0 \/ any_char (Ascii.eqb ",") s = false ->
  split_selector_loop (s +:+ rest) part d = split_selector_loop rest (part +:+ s) d.
Proof.
  revert part. induction s as [|c s IH]; intros part; [by rewrite str_app_nil_r|].
  rewrite !any_char_cons. intros [H1 H1']%orb_false_iff [H2 H2']%orb_false_iff H3.
  cbn [String.append split_selector_loop]. rewrite !(Ascii.eqb_sym c), H1, H2.
  assert (Ascii.eqb "," c && Nat.eqb d 0 = false) as ->.
  { destruct H3 as [H3|[H3 _]%orb_false_iff]; [|by rewrite H3].
    apply andb_false_iff. right. by apply Nat.eqb_neq. }
  rewrite IH; [by rewrite str_app_assoc|done..|].
  destruct H3 as [?|[_ ?]%orb_false_iff]; auto.
Qed.

Lemma scan_set sep key values rest part :
  label_word key = true -> forallb label_word values = true ->
  any_char (fun c => Ascii.eqb c "(" || Ascii.eqb c ")" || Ascii.eqb c ",") sep = false ->
  split_selector_loop (render_set (sep +:+ "(") key values +:+ rest) part 0
  = split_selector_loop rest (part +:+ render_set (sep +:+ "(") key values) 0.
Proof.
  intros [_ Hk]%label_word_spec Hv Hsep. unfold render_set. rewrite !str_app_assoc.
  assert (Hs : forall d, d ∈ ["("; ")"; ","]%char -> any_char (Ascii.eqb d) sep = false).
  { intros d Hd. unfold any_char in *. apply not_true_iff_false. intros (c & Hin & Hc)%existsb_exists.
    apply not_true_iff_false in Hsep. apply Hsep, existsb_exists. exists c. split; [done|].
    apply Ascii.eqb_eq in Hc. subst. rewrite !elem_of_cons, elem_of_nil in Hd.
    by destruct_or?; subst. }
  rewrite scan_text by (plain || right; plain).
  rewrite scan_text by (apply Hs; in_list) || (right; apply Hs; in_list).
  cbn [String.append]. simpl split_selector_loop at 1.
  rewrite scan_text by (apply values_concat_plain; [done|in_list]) || (by left).
  simpl. by rewrite !str_app_assoc.
Qed.

Lemma scan_render r rest part :
  well_formed r = true ->
  split_selector_loop (render r +:+ rest) part 0 = split_selector_loop rest (part +:+ render r) 0.
Proof.
  destruct r as [k v|k v|k|k|k vs|k vs]; cbn [well_formed render]; rewrite ?andb_true_iff.
  5: intros []; by apply (scan_set " in ").
  5: intros []; by apply (scan_set " notin ").
  all: intros H; apply scan_text; try right; rewrite ?any_char_app;
    repeat match goal with
    | H : _ /\ _ |- _ => destruct H
    | H : label_word _ = true |- _ => apply label_word_spec in H
    | H : label_text_ok ?x = true |- context [any_char (Ascii.eqb _) ?x] =>
        rewrite (label_text_plain _ x H) by in_list
    end; done.
Qed.

Lemma trim_render r : well_formed r = true -> trim (render r) = render r /\ render r <> "".
Proof.
  assert (Hne : forall a b, a <> "" -> a +:+ b <> "") by (by intros [] ?).
  destruct r as [k v|k v|k|k|k vs|k vs]; cbn [well_formed render]; rewrite ?andb_true_iff;
    intros H; repeat match goal with
    | H : _ /\ _ |- _ => destruct H
    | H : label_word _ = true |- _ => apply label_word_spec in H
    end; (split; [|unfold render_set; by auto]).
  1-4: apply trim_visible; rewrite ?all_chars_app;
    repeat match goal with H : label_text_ok ?x = true |- context [all_chars is_visible ?x] =>
      rewrite (label_text_visible x H) end; done.
  all: unfold render_set; rewrite <- (str_app_assoc _ _ ")"); apply trim_enclosed; try done.
  all: by apply label_text_visible.
Qed.

Lemma split_selector_render rs :
  forallb well_formed rs = true -> split_selector (String.concat "," (render <$> rs)) = render <$> rs.
Proof.
  unfold split_selector. induction rs as [|r rs IH]; [done|].
  cbn [forallb]. intros [Hr Hrs]%andb_true_iff. destruct (trim_render r Hr) as [Ht Hne].
  assert (Hpart : non_blank_part (render r) = [render r]).
  { unfold non_blank_part. rewrite Ht. by destruct (render r). }
  destruct rs as [|r' rs].
  - change (String.concat "," (render <$> [r])) with (render r).
    rewrite <- (str_app_nil_r (render r)) at 1. by rewrite scan_render.
  - change (String.concat "," (render <$> r :: r' :: rs))
      with (render r +:+ "," +:+ String.concat "," (render <$> r' :: rs)).
    rewrite scan_render by done. cbn [String.append split_selector_loop].
    change (Ascii.eqb "," "(") with false. change (Ascii.eqb "," ")") with false. simpl andb.
    cbn iota. by rewrite Hpart, IH.
Qed.

(** Parsing undoes printing: a comma-separated list of well-formed
    requirements (non-empty keys and set values over label characters) in the
    six text forms parses, without error, to exactly those requirements, in order. *)
Theorem label_selector_round_trip rs :
  forallb well_formed rs = true -> parse_label_selector (String.concat "," (render <$> rs)) = Ok rs.
Proof.
  intros H. unfold parse_label_selector. rewrite split_selector_render by done.
  assert (List.filter (fun p => negb (is_empty p)) (trim <$> (render <$> rs)) = render <$> rs) as ->.
  { induction rs as [|r rs IH]; [done|]. apply andb_true_iff in H as [Hr Hrs].
    destruct (trim_render r Hr) as [Ht Hne]. csimpl. rewrite Ht, IH by done. by destruct (render r). }
  apply try_map_Ok, Forall_forall. intros r Hin%list_elem_of_In.
  rewrite forallb_forall in H. by apply parse_part_render, H.
Qed.

Lemma label_selector_round_trip_witness :
  parse_label_selector "env=prod,tier!=db,!canary,zone,app in (web,api),os notin (win)"
  = Ok [Equality "env" "prod"; Inequality "tier" "db"; NotExists "canary"; Exists "zone";
        In "app" ["web"; "api"]; NotIn "os" ["win"]].
Proof.
  apply (label_selector_round_trip
    [Equality "env" "prod"; Inequality "tier" "db"; NotExists "canary"; Exists "zone";
     In "app" ["web"; "api"]; NotIn "os" ["win"]]). reflexivity.
Defined.

(** The negative form of a requirement. *)
Definition negation (r : LabelRequirement) : LabelRequirement :=
  match r with
  | Equality k v => Inequality k v
  | Inequality k v => Equality k v
  | Exists k => NotExists k
  | NotExists k => Exists k
  | In k vs => NotIn k vs
  | NotIn k vs => In k vs
  end.

Lemma forallb_negb {A} (p : A -> bool) l : forallb (fun x => negb (p x)) l = negb (existsb p l).
Proof. induction l as [|x l IH]; simpl; [done|]. by rewrite IH, negb_orb. Qed.

(** The operators come in exact complements: on every label map, absent
    maps and labels with non-string values included, [!=], [notin] and [!key]
    match exactly when [=], [in] and [key] do not. *)
Theorem requirement_complement r labels :
  requirement_matches (negation r) labels = negb (requirement_matches r labels).
Proof.
  destruct r; simpl; try destruct (label_text labels key); simpl;
    rewrite ?forallb_negb, ?negb_involutive; try done; destruct labels; simpl;
    by rewrite ?negb_involutive.
Qed.

(** ** The text form of a field requirement *)

Fixpoint escape (value : string) : string :=
  match value with
  | EmptyString => EmptyString
  | String c rest =>
      if is_special c then String backslash (String c (escape rest)) else String c (escape rest)
  end.

Definition is_field_char (c : ascii) : bool := negb (is_special c) && negb (Ascii.eqb c "!").

Definition render_operator (o : FieldSelectorOperator) : string :=
  match o with Equals => "=" | NotEquals => "!=" end.

Definition render_field (r : FieldRequirement) : string :=
  fr_field r +:+ render_operator (fr_operator r) +:+ escape (fr_value r).

(** The copy taken when nothing is to be unescaped is what the loop computes. *)
Lemma unescape_value_loop value : unescape_value value = unescape_loop value.
Proof.
  unfold unescape_value. destruct (any_char is_special value) eqn:E; [done|]. simpl.
  induction value as [|c s IH]; [done|].
  rewrite any_char_cons in E. apply orb_false_iff in E as [Hc Hs].
  cbn [unescape_loop]. unfold is_special in Hc. rewrite <- (IH Hs).
  apply orb_false_iff in Hc as [[Hb Hcm]%orb_false_iff He]. by rewrite Hb, Hcm, He.
Qed.

Lemma unescape_escape w : unescape_loop (escape w) = Ok w.
Proof.
  induction w as [|c w IH]; [done|]. cbn [escape].
  destruct (is_special c) eqn:Hc; cbn [unescape_loop].
  - rewrite Ascii.eqb_refl, Hc, IH. done.
  - unfold is_special in Hc. apply orb_false_iff in Hc as [[-> ->]%orb_false_iff ->].
    simpl. by rewrite IH.
Qed.

Lemma unescape_only_escapes n v w :
  String.length v <= n -> unescape_loop v = Ok w -> v = escape w.
Proof.
  revert v w. induction n as [|n IH]; intros [|c v] w Hn; cbn [String.length] in Hn; try lia;
    try (by intros [= <-]). cbn [unescape_loop].
  destruct (Ascii.eqb_spec c backslash) as [->|Hb].
  - destruct v as [|d v]; [done|]. cbn [String.length] in Hn.
    destruct (is_special d) eqn:Hd; [|done].
    destruct (unescape_loop v) as [w'|] eqn:E; [|done]. intros [= <-].
    cbn [escape]. rewrite Hd. do 2 f_equal. apply IH; [lia|done].
  - destruct (Ascii.eqb c "," || Ascii.eqb c "=") eqn:Hc; [done|].
    destruct (unescape_loop v) as [w'|] eqn:E; [|done]. intros [= <-].
    cbn [escape]. assert (is_special c = false) as ->.
    { unfold is_special. rewrite <- orb_assoc, Hc. by destruct (Ascii.eqb_spec c backslash). }
    f_equal. apply IH; [lia|done].
Qed.

(** Unescaping accepts exactly the escaped texts: [unescape_value] returns
    [w] on [v] exactly when [v] is [w] with every backslash, comma and equals
    sign escaped.  Every other text (a trailing backslash, an escape of another
    character, a bare comma or equals sign) is an error. *)
Theorem unescape_value_exact v w : unescape_value v = Ok w <-> v = escape w.
Proof.
  rewrite unescape_value_loop. split; [by apply (unescape_only_escapes (String.length v))|].
  intros ->. apply unescape_escape.
Qed.

Lemma operator_at_plain c s :
  Ascii.eqb "!" c = false -> Ascii.eqb "=" c = false -> operator_at (String c s) = None.
Proof. intros H1 H2. unfold operator_at. cbn [strip_prefix]. by rewrite H1, H2. Qed.

Lemma strip_eq_escape v : strip_prefix "=" (escape v) = None.
Proof.
  destruct v as [|c v]; [done|]. cbn [escape]. destruct (is_special c) eqn:Hc; [done|].
  cbn [strip_prefix]. destruct (Ascii.eqb_spec "=" c) as [<-|]; done.
Qed.

Lemma operator_at_render o v : operator_at (render_operator o +:+ escape v) = Some (o, escape v).
Proof.
  destruct o; [|done]. unfold operator_at.
  change (strip_prefix "==" (render_operator Equals +:+ escape v)) with (strip_prefix "=" (escape v)).
  by rewrite strip_eq_escape.
Qed.

Lemma field_char_spec c :
  is_field_char c = true ->
  Ascii.eqb c backslash = false /\ Ascii.eqb c "," = false /\ Ascii.eqb "=" c = false
  /\ Ascii.eqb "!" c = false.
Proof.
  unfold is_field_char, is_special. rewrite andb_true_iff, !negb_true_iff, !orb_false_iff.
  rewrite (Ascii.eqb_sym "="), (Ascii.eqb_sym "!"). tauto.
Qed.

Lemma find_operator_render f o v :
  all_chars is_field_char f = true ->
  find_operator (f +:+ render_operator o +:+ escape v) = Some (f, o, escape v).
Proof.
  induction f as [|c f IH].
  - intros _. pose proof (operator_at_render o v) as H. destruct o; cbn [String.append] in *;
      cbn [render_operator String.append find_operator] in *; by rewrite H.
  - intros [Hc Hf]%andb_true_iff. apply field_char_spec in Hc as (_ & _ & He & Hb).
    cbn [String.append find_operator]. by rewrite operator_at_plain, IH.
Qed.

Lemma parse_field_render r :
  all_chars is_field_char (fr_field r) = true -> parse_field_requirement (render_field r) = Ok r.
Proof.
  intros Hf. unfold parse_field_requirement, parse_requirement, render_field.
  rewrite find_operator_render by done. simpl.
  rewrite unescape_value_loop, unescape_escape. by destruct r.
Qed.

Lemma scan_unescaped s rest term :
  any_char (fun c => Ascii.eqb c backslash || Ascii.eqb c ",") s = false ->
  split_terms_loop (s +:+ rest) term false = split_terms_loop rest (term +:+ s) false.
Proof.
  revert term. induction s as [|c s IH]; intros term; [by rewrite str_app_nil_r|].
  rewrite any_char_cons. intros [[Hb Hc]%orb_false_iff Hs]%orb_false_iff.
  cbn [String.append split_terms_loop]. rewrite Hb, Hc, IH by done. by rewrite str_app_assoc.
Qed.

Lemma scan_escaped v rest term :
  split_terms_loop (escape v +:+ rest) term false = split_terms_loop rest (term +:+ escape v) false.
Proof.
  revert term. induction v as [|c v IH]; intros term; [by rewrite str_app_nil_r|].
  cbn [escape]. destruct (is_special c) eqn:Hc; cbn [String.append split_terms_loop].
  - rewrite Ascii.eqb_refl, IH. by rewrite !str_app_assoc.
  - unfold is_special in Hc. apply orb_false_iff in Hc as [[Hb Hm]%orb_false_iff _].
    rewrite Hb, Hm, IH. by rewrite str_app_assoc.
Qed.

Lemma scan_field r rest term :
  all_chars is_field_char (fr_field r) = true ->
  split_terms_loop (render_field r +:+ rest) term false
  = split_terms_loop rest (term +:+ render_field r) false.
Proof.
  intros Hf. unfold render_field. rewrite !str_app_assoc.
  rewrite scan_unescaped.
  2: { eapply any_char_none; [done|]. intros c (-> & -> & _)%field_char_spec. done. }
  rewrite scan_unescaped by (by destruct (fr_operator r)). rewrite scan_escaped.
  by rewrite !str_app_assoc.
Qed.

Definition field_ok (r : FieldRequirement) : Prop := all_chars is_field_char (fr_field r) = true.

Lemma render_field_nonempty r : is_empty (render_field r) = false.
Proof. unfold render_field. destruct (fr_field r); [|done]. by destruct (fr_operator r). Qed.

Lemma split_terms_render rs :
  Forall field_ok rs -> split_terms (String.concat "," (render_field <$> rs)) = render_field <$> rs.
Proof.
  intros Hrs. unfold split_terms. destruct rs as [|r0 rs0]; [done|].
  assert (is_empty (String.concat "," (render_field <$> r0 :: rs0)) = false) as ->.
  { pose proof (render_field_nonempty r0) as Hne. csimpl.
    destruct (render_field r0); [done|]. by destruct (render_field <$> rs0). }
  revert r0 Hrs. induction rs0 as [|r1 rs IH]; intros r0 [Hr Hrs]%Forall_cons.
  - change (String.concat "," (render_field <$> [r0])) with (render_field r0).
    rewrite <- (str_app_nil_r (render_field r0)) at 1. by rewrite scan_field.
  - change (String.concat "," (render_field <$> r0 :: r1 :: rs))
      with (render_field r0 +:+ "," +:+ String.concat "," (render_field <$> r1 :: rs)).
    rewrite scan_field by done. cbn [String.append split_terms_loop].
    change (Ascii.eqb "," backslash) with false. change (Ascii.eqb "," ",") with true.
    cbn iota. by rewrite IH.
Qed.

#[export] Instance str_le_trans : Transitive str_le.
Proof. intros a b c. apply str_leb_trans. Qed.
#[export] Instance str_le_total : Total str_le.
Proof. intros a b. apply str_leb_total. Qed.

(** Requirements printed with escaped values, in any order and whatever
    characters the values hold, parse without error to the same requirements;
    they come out in the byte order of their texts. *)
Theorem field_selector_round_trip rs :
  Forall field_ok rs ->
  exists parsed, FieldSelector_parse (String.concat "," (render_field <$> rs)) = Ok parsed
    /\ parsed ≡ₚ rs /\ StronglySorted str_le (render_field <$> parsed).
Proof.
  intros Hrs. unfold FieldSelector_parse. rewrite split_terms_render by done.
  pose proof (merge_sort_Permutation str_le (render_field <$> rs)) as Hperm.
  pose proof (StronglySorted_merge_sort str_le (render_field <$> rs)) as Hsort.
  destruct (Permutation_map_inv _ _ Hperm) as (parsed & Heq & Hp).
  change (map render_field parsed) with (render_field <$> parsed) in Heq. rewrite Heq in Hsort |- *.
  exists parsed. split; [|by split].
  assert (List.filter (fun raw => negb (is_empty raw)) (render_field <$> parsed)
          = render_field <$> parsed) as ->.
  { clear. induction parsed as [|r l IH]; csimpl; [done|]. by rewrite render_field_nonempty, IH. }
  apply try_map_Ok. rewrite Hp in Hrs. eapply Forall_impl; [done|]. apply parse_field_render.
Qed.

Lemma field_selector_round_trip_witness :
  exists parsed, FieldSelector_parse "metadata.name!=a\,b,involvedObject.kind=x\=\\y" = Ok parsed
    /\ parsed ≡ₚ [mkFieldRequirement "metadata.name" NotEquals "a,b";
                  mkFieldRequirement "involvedObject.kind" Equals "x=\y"]
    /\ StronglySorted str_le (render_field <$> parsed).
Proof.
  apply (field_selector_round_trip
    [mkFieldRequirement "metadata.name" NotEquals "a,b";
     mkFieldRequirement "involvedObject.kind" Equals "x=\y"]).
  repeat constructor.
Defined.

(** ** Two departures from the comments *)

(** An empty flat selector matches everything, where its comment says nothing. *)
Example flat_empty_matches_all labels :
  match from_flat_match_labels (Object []) with
  | Ok selector => matches_labels selector labels = true
  | Err _ => False
  end.
Proof. reflexivity. Qed.

(** Without the space before the parenthesis, a set requirement is read as the
    existence of a label whose name is the whole text. *)
Example set_without_space_is_exists :
  parse_label_selector "env in(prod)" = Ok [Exists "env in(prod)"].
Proof. reflexivity. Qed.
