(* ===== verification/ResourceShape.v ===== *)
(** * The shape of stored resources

    [klights-cluster-datastore/src/sqlite/scope.rs] and [resource_shape.rs]: which
    table a resource belongs to, and the rewriting a body goes through before it
    is stored or logged.  A body updated in place is returned.  A fresh UUID and
    the formatted time of the write are arguments.

    The lemma [deletion_mark_kept] says what a write over an existing body can do
    to the deletion mark: it stays, unless the write shortens the grace period. *)

From S2P Require Import Prelude Text Json Apply StaleResource.

Local Open Scope string_scope.
Local Open Scope rs_scope.

(** ** Scope *)

Definition cluster_scoped_kinds : list string :=
  ["APIService"; "CSIDriver"; "CSINode"; "CertificateSigningRequest"; "ClusterRole"; "ClusterRoleBinding";
   "CustomResourceDefinition"; "FlowSchema"; "IPAddress"; "IngressClass"; "MutatingWebhookConfiguration";
   "Namespace"; "Node"; "PersistentVolume"; "PriorityClass"; "PriorityLevelConfiguration"; "RuntimeClass";
   "ServiceCIDR"; "StorageClass"; "ValidatingAdmissionPolicy"; "ValidatingAdmissionPolicyBinding";
   "ValidatingWebhookConfiguration"; "VolumeAttachment"].

Definition is_namespaced (kind : string) : bool := negb (existsb (String.eqb kind) cluster_scoped_kinds).

Definition builtin_api_versions : list string :=
  ["v1"; "apps/v1"; "autoscaling/v1"; "autoscaling/v2"; "batch/v1"; "certificates.k8s.io/v1";
   "coordination.k8s.io/v1"; "discovery.k8s.io/v1"; "events.k8s.io/v1"; "networking.k8s.io/v1";
   "node.k8s.io/v1"; "policy/v1"; "rbac.authorization.k8s.io/v1"; "scheduling.k8s.io/v1"; "storage.k8s.io/v1";
   "authentication.k8s.io/v1"; "authorization.k8s.io/v1"; "admissionregistration.k8s.io/v1";
   "apiregistration.k8s.io/v1"; "apiextensions.k8s.io/v1"; "flowcontrol.apiserver.k8s.io/v1"].

Definition is_builtin_api_version (api_version : string) : bool :=
  existsb (String.eqb api_version) builtin_api_versions.

Definition is_dynamic_custom_resource (api_version kind : string) : bool :=
  negb (is_builtin_api_version api_version) && negb ((kind =?s "Namespace") || (kind =?s "Event")).

Definition use_namespaced_table (api_version kind : string) (namespace : option string) : bool :=
  if is_dynamic_custom_resource api_version kind then opt_is_some namespace else is_namespaced kind.

(** ** Hydration *)

Definition is_event_envelope_type (data : Value) : bool :=
  is_some_and (get_str "type" data) (fun event_type =>
    existsb (String.eqb event_type) ["ADDED"; "MODIFIED"; "DELETED"; "ERROR"]).

Definition hydrate_metadata (namespace : option string) (name : string) (resource_version : Z) (meta : Map) : Map :=
  let meta := obj_insert "name" (Str name) meta in
  let meta := match namespace with Some ns => obj_insert "namespace" (Str ns) meta | None => meta end in
  obj_insert "resourceVersion" (Str (to_string resource_version)) meta.

Definition hydrate_object (api_version kind : string) (namespace : option string) (name : string)
    (resource_version : Z) (obj : Map) : Map :=
  let obj := obj_insert "kind" (Str kind) (obj_insert "apiVersion" (Str api_version) obj) in
  obj_alter (map_object (hydrate_metadata namespace name resource_version)) "metadata"
    (obj_or_insert "metadata" (Object []) obj).

(** An event envelope is hydrated in its [object], everything else itself. *)
Fixpoint hydrate_watch_event_data (data : Value) (api_version kind : string) (namespace : option string)
    (name : string) (resource_version : Z) {struct data} : Value :=
  match data with
  | Object m =>
      if is_event_envelope_type data && obj_contains_key "object" m
      then Object ((fix go (m : Map) : Map :=
                      match m with
                      | [] => []
                      | (k, v) :: m' =>
                          if "object" =?s k
                          then (k, hydrate_watch_event_data v api_version kind namespace name resource_version) :: m'
                          else (k, v) :: go m'
                      end) m)
      else Object (hydrate_object api_version kind namespace name resource_version m)
  | _ => data
  end.

(** ** Identity and type *)

(** [get(k).and_then(as_str).map(is_empty).unwrap_or(true)]. *)
Definition missing_or_empty (k : string) (m : Map) : bool :=
  is_none_or (v ← obj_get k m; as_str v) is_empty.

Definition insert_if_missing (k v : string) (m : Map) : Map :=
  if missing_or_empty k m then obj_insert k (Str v) m else m.

Definition ensure_resource_type_meta (data : Value) (api_version kind : string) : Value :=
  map_object (fun obj => insert_if_missing "kind" kind (insert_if_missing "apiVersion" api_version obj)) data.

(** [entry("metadata").or_insert({})] of an object, then a write to it. *)
Definition with_metadata_entry (f : Map -> Map) (data : Value) : Value :=
  map_object (fun obj => obj_alter (map_object f) "metadata" (obj_or_insert "metadata" (Object []) obj)) data.

Definition ensure_metadata_identity (data : Value) (namespace : option string) (name : string) : Value :=
  with_metadata_entry (fun meta =>
    let meta := insert_if_missing "name" name meta in
    match namespace with Some ns => insert_if_missing "namespace" ns meta | None => meta end) data.

Definition metadata_uid (data : Value) : option string :=
  opt_filter non_blank_str (pointer_str ["metadata"; "uid"] data).

Definition blank_or_null (value : option Value) : bool :=
  is_none_or value (fun v => is_null v || is_some_and (as_str v) (fun s => is_empty (trim s))).

Definition ensure_metadata_create_defaults (data : Value) (fresh_uid authored_at : string) : Value :=
  with_metadata_entry (fun meta =>
    let meta := if blank_or_null (obj_get "uid" meta) then obj_insert "uid" (Str fresh_uid) meta else meta in
    let meta := if blank_or_null (obj_get "creationTimestamp" meta)
                then obj_insert "creationTimestamp" (Str authored_at) meta else meta in
    if (unwrap_or 0 (v ← obj_get "generation" meta; as_i64 v) =? 0)%Z
    then obj_insert "generation" (Num (NInt 1)) meta else meta) data.

Definition validate_metadata_uid_immutable (incoming existing : Value) : result string unit :=
  match metadata_uid incoming, metadata_uid existing with
  | Some incoming_uid, Some existing_uid =>
      match validate_apply_preconditions (mkApplyPreconditions false false (Some incoming_uid) None)
              (Some (mkCurrentResourceState (Some existing_uid) 0)) with
      | Ok _ => Ok tt
      | Err _ => Err "metadata.uid is immutable (409 Conflict)"
      end
  | _, _ => Ok tt
  end.

(** ** Server metadata *)

Definition grace_of (meta : Map) : option Z := v ← obj_get "deletionGracePeriodSeconds" meta; as_i64 v.

Definition carries_shorter_delete_grace (meta existing_meta : Map) : bool :=
  match grace_of meta, grace_of existing_meta with
  | Some incoming, Some existing => (0 <=? incoming)%Z && (incoming <? existing)%Z
  | _, _ => false
  end.

Definition copy_field (k : string) (keep : bool) (from to : Map) : Map :=
  if keep then match obj_get k from with Some v => obj_insert k v to | None => to end else to.

Definition copy_not_null (k : string) (from to : Map) : Map :=
  match opt_filter (fun v => negb (is_null v)) (obj_get k from) with Some v => obj_insert k v to | None => to end.

Definition preserve_metadata (existing_meta meta : Map) : Map :=
  let meta := copy_field "uid" (missing_or_empty "uid" meta) existing_meta meta in
  let meta := copy_field "creationTimestamp" (missing_or_empty "creationTimestamp" meta) existing_meta meta in
  if carries_shorter_delete_grace meta existing_meta then meta
  else copy_not_null "deletionGracePeriodSeconds" existing_meta
         (copy_not_null "deletionTimestamp" existing_meta meta).

Definition preserve_server_metadata_fields_from_existing (data existing : Value) : Value :=
  match (m ← get "metadata" existing; as_object m) with
  | None => data
  | Some existing_meta => get_mut "metadata" (map_object (preserve_metadata existing_meta)) data
  end.

(** ** Pod addresses *)

Definition first_ip (field : string) (status : Map) : string :=
  unwrap_or "" (ips ← (v ← obj_get field status; as_array v); entry ← head ips; get_str "ip" entry).

Definition ensure_ip_array (field array_field : string) (status : Map) : Map :=
  match opt_filter non_empty_str (v ← obj_get field status; as_str v) with
  | None => status
  | Some ip =>
      if first_ip array_field status =?s ip then status
      else obj_insert array_field (Array [Object [("ip", Str ip)]]) status
  end.

Definition ensure_pod_status_ip_arrays (data : Value) (api_version kind : string) : Value :=
  if negb (api_version =?s "v1") || negb (kind =?s "Pod") then data
  else get_mut "status" (map_object (fun status =>
         ensure_ip_array "hostIP" "hostIPs" (ensure_ip_array "podIP" "podIPs" status))) data.

(** ** Theorems *)

Lemma copy_field_get k b from to k' : k <> k' -> obj_get k' (copy_field k b from to) = obj_get k' to.
Proof.
  intros Hk. unfold copy_field. destruct b; [|done]. destruct (obj_get k from); [|done].
  by rewrite obj_get_insert_ne.
Qed.

Lemma copy_not_null_get k from to k' : k <> k' -> obj_get k' (copy_not_null k from to) = obj_get k' to.
Proof.
  intros Hk. unfold copy_not_null. destruct (opt_filter _ _); [|done]. by rewrite obj_get_insert_ne.
Qed.

Lemma copy_not_null_eq k from to v :
  obj_get k from = Some v -> is_null v = false -> obj_get k (copy_not_null k from to) = Some v.
Proof. intros Hv Hn. unfold copy_not_null. rewrite Hv. cbn [opt_filter]. rewrite Hn. cbn. apply obj_get_insert_eq. Qed.

(** The deletion fields a write over an existing body ends up with. *)
Definition mark_kept (meta existing_meta meta' : Map) (ts : Value) : Prop :=
  obj_get "deletionTimestamp" meta' = Some ts
  /\ (forall g, obj_get "deletionGracePeriodSeconds" existing_meta = Some g -> is_null g = false ->
        obj_get "deletionGracePeriodSeconds" meta' = Some g).

Definition mark_shortened (meta existing_meta meta' : Map) : Prop :=
  (exists g g', grace_of existing_meta = Some g /\ grace_of meta' = Some g' /\ (0 <= g' < g)%Z)
  /\ obj_get "deletionTimestamp" meta' = obj_get "deletionTimestamp" meta.

(** A write over a body marked for deletion keeps the mark and its grace period,
    unless it carries a strictly shorter non-negative grace period; then it keeps
    the timestamp it carries. *)
Lemma deletion_mark_kept data existing meta existing_meta ts :
  get "metadata" data = Some (Object meta) -> get "metadata" existing = Some (Object existing_meta) ->
  obj_get "deletionTimestamp" existing_meta = Some ts -> is_null ts = false ->
  exists meta', get "metadata" (preserve_server_metadata_fields_from_existing data existing) = Some (Object meta')
    /\ (mark_kept meta existing_meta meta' ts \/ mark_shortened meta existing_meta meta').
Proof.
  intros Hd He Hts Hnull. unfold preserve_server_metadata_fields_from_existing. rewrite He.
  cbn [mbind option_bind as_object]. destruct data as [| | | | |m]; try done.
  change (get "metadata" (Object m)) with (obj_get "metadata" m) in Hd.
  eexists. split; [cbn; rewrite obj_get_alter_eq, Hd; done|]. unfold preserve_metadata.
  set (m1 := copy_field "creationTimestamp" _ _ _).
  assert (Hm1 : forall k, k <> "uid" -> k <> "creationTimestamp" -> obj_get k m1 = obj_get k meta).
  { intros k H1 H2. unfold m1. by rewrite !copy_field_get. }
  destruct (carries_shorter_delete_grace m1 existing_meta) eqn:Hs.
  - right. unfold carries_shorter_delete_grace in Hs. split; [|by apply Hm1].
    destruct (grace_of m1) as [g'|] eqn:H1; [|done]. destruct (grace_of existing_meta) as [g|]; [|done].
    to_prop. by exists g, g'.
  - left. split.
    + rewrite copy_not_null_get by done. by apply copy_not_null_eq.
    + intros g Hg Hgn. by apply copy_not_null_eq.
Qed.
