(* ===== verification/ResourceIndex.v ===== *)
(** * Selector and owner indexes

    [klights-cluster-datastore/src/sqlite/selector_index.rs] and
    [owner_ref_index.rs]: the rows extracted from a stored body, and the plan
    that answers a selector from them.  A SQL condition of the plan is a value of
    [Clause]; [clause_text] is its text, with the numbered parameters of the
    source, and [clause_holds] what the database makes of it.

    The theorem: the planned conditions together with the residual requirements
    select exactly the bodies that the selectors match. *)

From S2P Require Import Prelude Text Json Selectors.

Local Open Scope string_scope.
Local Open Scope rs_scope.

(** ** Owner references *)

Record OwnerRef := mkOwnerRef {
  ow_uid : string; ow_api_version : string; ow_kind : string; ow_name : string;
  ow_controller : bool; ow_block_owner_deletion : bool
}.

Definition text_or_empty (k : string) (v : Value) : string := unwrap_or "" (get_str k v).
Definition flag (k : string) (v : Value) : bool := unwrap_or false (b ← get k v; as_bool b).

Definition owner_ref_of (ref_value : Value) : option OwnerRef :=
  uid ← get_str "uid" ref_value;
  Some (mkOwnerRef uid (text_or_empty "apiVersion" ref_value) (text_or_empty "kind" ref_value)
          (text_or_empty "name" ref_value) (flag "controller" ref_value) (flag "blockOwnerDeletion" ref_value)).

Definition extract_owner_refs (data : Value) : list OwnerRef :=
  match (m ← get "metadata" data; ors ← get "ownerReferences" m; as_array ors) with
  | Some refs => omap owner_ref_of refs
  | None => []
  end.

(** ** Labels and fields *)

Definition body_labels (data : Value) : option Map := m ← get "metadata" data; l ← get "labels" m; as_object l.

Definition extract_labels (data : Value) : list (string * string) :=
  match body_labels data with
  | Some map => omap (fun kv : string * Value => (fun s => (kv.1, s)) <$> as_str kv.2) map
  | None => []
  end.

Definition indexed_field_paths (api_version kind : string) : list string :=
  let at_kind av k := (api_version =?s av) && (kind =?s k) in
  if at_kind "v1" "Pod" then
    ["spec.nodeName"; "status.phase"; "spec.restartPolicy"; "spec.schedulerName"; "spec.serviceAccountName";
     "status.podIP"]
  else if at_kind "v1" "Node" then ["spec.unschedulable"]
  else if at_kind "v1" "PersistentVolume" then ["status.phase"]
  else if at_kind "v1" "PersistentVolumeClaim" then ["status.phase"]
  else if at_kind "v1" "Secret" then ["type"]
  else if at_kind "v1" "Event" || at_kind "events.k8s.io/v1" "Event" then
    ["reason"; "type"; "source"; "reportingController"; "reportingInstance"; "involvedObject.kind";
     "involvedObject.uid"; "involvedObject.name"; "involvedObject.namespace"]
  else if at_kind "certificates.k8s.io/v1" "CertificateSigningRequest" then ["spec.signerName"]
  else [].

Definition indexed_field_default := default_field_value.

Section Fields.

Context (float_to_string : Z -> string).

(** The rows [insert_index_entries] writes for the indexed fields. *)
Definition extract_fields (api_version kind : string) (data : Value) : list (string * string) :=
  omap (fun field_path =>
          (fun value => (field_path, value)) <$>
            or_else (resolve_field_value float_to_string data field_path)
              (indexed_field_default api_version kind field_path))
       (indexed_field_paths api_version kind).

(** ** The plan *)

Inductive ValueTest :=
| AnyValue
| ValueIs (param : nat)
| ValueIn (params : list nat).

Inductive Clause :=
| LabelClause (negated : bool) (key_param : nat) (test : ValueTest)
| FieldClause (negated : bool) (path_param value_param : nat).

Record SelectorPushdown := mkPushdown {
  sql_clauses : list Clause;
  sql_params : list string;
  residual_labels : list LabelRequirement;
  residual_fields : list FieldRequirement
}.

Definition placeholder (p : nat) : string := "?" +:+ to_string (Z.of_nat p).

Fixpoint join (sep : string) (l : list string) : string :=
  match l with
  | [] => ""
  | [s] => s
  | s :: l' => s +:+ sep +:+ join sep l'
  end.

Definition clause_text (cluster_scoped : bool) (clause : Clause) : string :=
  match clause with
  | LabelClause negated key_param test =>
      (if negated then "NOT EXISTS" else "EXISTS")
      +:+ " (SELECT 1 FROM resource_labels rl WHERE rl.api_version = r.api_version AND rl.kind = r.kind AND "
      +:+ (if cluster_scoped then "rl.namespace = ''" else "rl.namespace = r.namespace")
      +:+ " AND rl.name = r.name AND rl.key = " +:+ placeholder key_param
      +:+ match test with
          | AnyValue => ""
          | ValueIs p => " AND rl.value = " +:+ placeholder p
          | ValueIn ps => " AND rl.value IN (" +:+ join ", " (placeholder <$> ps) +:+ ")"
          end
      +:+ ")"
  | FieldClause negated path_param value_param =>
      (if negated then "NOT EXISTS" else "EXISTS")
      +:+ " (SELECT 1 FROM resource_fields rf WHERE rf.api_version = r.api_version AND rf.kind = r.kind AND "
      +:+ (if cluster_scoped then "rf.namespace = ''" else "rf.namespace = r.namespace")
      +:+ " AND rf.name = r.name AND rf.field = " +:+ placeholder path_param
      +:+ " AND rf.value = " +:+ placeholder value_param +:+ ")"
  end.

(** One label requirement, when the plan has [len] parameters before it. *)
Definition push_label (len : nat) (req : LabelRequirement) : Clause * list string :=
  let p1 := len + 1 in
  match req with
  | Equality key value => (LabelClause false p1 (ValueIs (p1 + 1)), [key; value])
  | Exists key => (LabelClause false p1 AnyValue, [key])
  | NotExists key => (LabelClause true p1 AnyValue, [key])
  | In key values => (LabelClause false p1 (ValueIn (seq (p1 + 1) (length values))), key :: values)
  | Inequality key value => (LabelClause true p1 (ValueIs (p1 + 1)), [key; value])
  | NotIn key values => (LabelClause true p1 (ValueIn (seq (p1 + 1) (length values))), key :: values)
  end.

Definition add_clause (plan : SelectorPushdown) (pushed : Clause * list string) : SelectorPushdown :=
  mkPushdown (sql_clauses plan ++ [pushed.1]) (sql_params plan ++ pushed.2) (residual_labels plan)
    (residual_fields plan).

Definition add_label (param_offset : nat) (plan : SelectorPushdown) (req : LabelRequirement) : SelectorPushdown :=
  add_clause plan (push_label (param_offset + length (sql_params plan)) req).

Definition add_field (indexed_fields : list string) (param_offset : nat) (plan : SelectorPushdown)
    (cond : FieldRequirement) : SelectorPushdown :=
  if negb (is_empty (fr_value cond)) && existsb (String.eqb (fr_field cond)) indexed_fields
  then
    let p1 := param_offset + length (sql_params plan) + 1 in
    add_clause plan (FieldClause match fr_operator cond with Equals => false | NotEquals => true end p1 (p1 + 1),
                     [fr_field cond; fr_value cond])
  else mkPushdown (sql_clauses plan) (sql_params plan) (residual_labels plan) (residual_fields plan ++ [cond]).

Definition build_selector_pushdown (label_requirements : list LabelRequirement)
    (field_conditions : list FieldRequirement) (api_version kind : string) (param_offset : nat)
    : SelectorPushdown :=
  fold_left (add_field (indexed_field_paths api_version kind) param_offset) field_conditions
    (fold_left (add_label param_offset) label_requirements (mkPushdown [] [] [] [])).

(** ** What the database makes of it *)

(** The parameter [?N] of the bound values. *)
Definition bound (params : list string) (p : nat) : option string :=
  match p with O => None | S i => params !! i end.

Definition test_value (params : list string) (test : ValueTest) (value : string) : bool :=
  match test with
  | AnyValue => true
  | ValueIs p => bound params p =?os Some value
  | ValueIn ps => existsb (fun p => bound params p =?os Some value) ps
  end.

(** [EXISTS] over the index rows of one resource. *)
Definition clause_holds (params : list string) (labels fields : list (string * string)) (clause : Clause) : bool :=
  match clause with
  | LabelClause negated key_param test =>
      xorb negated (existsb (fun row : string * string =>
        (bound params key_param =?os Some row.1) && test_value params test row.2) labels)
  | FieldClause negated path_param value_param =>
      xorb negated (existsb (fun row : string * string =>
        (bound params path_param =?os Some row.1) && (bound params value_param =?os Some row.2)) fields)
  end.

(** Whether a plan selects a resource with these index rows: the SQL conditions,
    then the residual requirements on the decoded body. *)
Definition plan_selects_rows (plan : SelectorPushdown) (base_params : list string)
    (label_rows field_rows : list (string * string)) (api_version kind : string) (data : Value) : bool :=
  forallb (clause_holds (base_params ++ sql_params plan) label_rows field_rows) (sql_clauses plan)
  && forallb (fun req => requirement_matches req (body_labels data)) (residual_labels plan)
  && forallb (fun cond => field_matches_with_identity float_to_string cond api_version kind data)
       (residual_fields plan).

Definition plan_selects (plan : SelectorPushdown) (base_params : list string) (api_version kind : string)
    (data : Value) : bool :=
  plan_selects_rows plan base_params (extract_labels data) (extract_fields api_version kind data) api_version kind data.

(** ** The plan is exact *)

(** Label keys are distinct and label values are strings. *)
Definition labels_ok (data : Value) : Prop :=
  forall m, body_labels data = Some m ->
    NoDup m.*1 /\ Forall (fun kv : string * Value => is_Some (as_str kv.2)) m.

Lemma labels_rows m k s :
  NoDup m.*1 ->
  (k, s) ∈ omap (fun kv : string * Value => (fun s => (kv.1, s)) <$> as_str kv.2) m
  <-> (v ← obj_get k m; as_str v) = Some s.
Proof.
  induction m as [|[k' v] m IH]; intros Hnd; cbn [omap list_omap obj_get fst snd].
  { split; [by intros ?%not_elem_of_nil|done]. }
  cbn [fmap list_fmap fst] in Hnd. apply NoDup_cons in Hnd as [Hnot Hnd]. specialize (IH Hnd).
  destruct (String.eqb_spec k k') as [->|Hne].
  - assert (Hnone : obj_get k' m = None) by by apply obj_get_None. rewrite Hnone in IH. cbn in IH.
    destruct (as_str v) as [s'|] eqn:Hs; cbn [fmap option_fmap option_map mbind option_bind]; rewrite ?Hs.
    + rewrite elem_of_cons, IH. split; [intros [[= ->]|[=]]; done|intros [= ->]; by left].
    + rewrite IH. done.
  - destruct (as_str v) as [s'|] eqn:Hs; cbn [fmap option_fmap option_map]; [|done].
    rewrite elem_of_cons, IH. split; [intros [[= -> ->]|?]; done|by right].
Qed.

Lemma extract_labels_elem data k s :
  labels_ok data -> (k, s) ∈ extract_labels data <-> label_text (body_labels data) k = Some s.
Proof.
  intros Hok. unfold extract_labels, label_text. destruct (body_labels data) as [m|] eqn:Hm.
  - destruct (Hok m Hm) as [Hnd _]. by apply labels_rows.
  - split; [by intros ?%not_elem_of_nil|done].
Qed.

(** An [EXISTS] over the label rows, as a test of the label's text. *)
Lemma exists_label data k (test : string -> bool) :
  labels_ok data ->
  existsb (fun row : string * string => (Some k =?os Some row.1) && test row.2) (extract_labels data)
  = is_some_and (label_text (body_labels data) k) test.
Proof.
  intros Hok. apply eq_true_iff_eq. rewrite existsb_exists. split.
  - intros ([k' s] & Hin%list_elem_of_In & [Hk Ht]%andb_true_iff). apply opt_string_eqb_iff in Hk as [= <-].
    apply extract_labels_elem in Hin as ->; done.
  - destruct (label_text (body_labels data) k) as [s|] eqn:Hs; [|done]. intros Ht. exists (k, s).
    rewrite <- list_elem_of_In, extract_labels_elem by done. split; [done|]. cbn. by rewrite String.eqb_refl.
Qed.

Lemma has_label data k :
  labels_ok data ->
  is_some_and (label_text (body_labels data) k) (fun _ => true) = is_some_and (body_labels data) (obj_contains_key k).
Proof.
  intros Hok. unfold label_text, obj_contains_key. destruct (body_labels data) as [m|] eqn:Hm; [|done].
  destruct (Hok m Hm) as [_ Hs]. cbn. clear -Hs. induction Hs as [|[k' v] m [s Hv] Hs IH]; [done|].
  cbn [obj_get]. destruct (k =?s k'); [|done]. cbn in Hv. cbn. by rewrite Hv.
Qed.

Lemma is_none_or_negb {A} (o : option A) p : is_none_or o (fun a => negb (p a)) = negb (is_some_and o p).
Proof. by destruct o. Qed.

Lemma is_some_and_ext {A} (o : option A) p q : (forall a, p a = q a) -> is_some_and o p = is_some_and o q.
Proof. intros H. destruct o; cbn; auto. Qed.

Lemma negb_existsb {A} (p : A -> bool) l : negb (existsb p l) = forallb (fun a => negb (p a)) l.
Proof. induction l as [|a l IH]; [done|]. cbn. by rewrite negb_orb, IH. Qed.

(** The parameters of a clause, behind those of the plan so far. *)
Lemma bound_at pre ps post i : (i < length ps)%nat -> bound (pre ++ ps ++ post) (length pre + 1 + i) = ps !! i.
Proof.
  intros Hi. replace (length pre + 1 + i) with (S (length pre + i)) by lia. cbn [bound].
  rewrite lookup_app_r by lia. replace (length pre + i - length pre) with i by lia. by apply lookup_app_l.
Qed.

Lemma exists_bound pre key values post s :
  existsb (fun p => bound (pre ++ (key :: values) ++ post) p =?os Some s) (seq (length pre + 1 + 1) (length values))
  = existsb (fun value => value =?s s) values.
Proof.
  apply eq_true_iff_eq. rewrite !existsb_exists. split.
  - intros (p & [Hp1 Hp2]%in_seq & Hb). apply opt_string_eqb_iff in Hb.
    destruct (p - (length pre + 1)) as [|i] eqn:Hi; [lia|].
    replace p with (length pre + 1 + S i) in Hb by lia. rewrite bound_at in Hb by (cbn; lia). cbn in Hb.
    exists s. rewrite String.eqb_refl. split; [|done]. apply list_elem_of_In. by eapply list_elem_of_lookup_2.
  - intros (v & Hv%list_elem_of_In & ->%String.eqb_eq). apply list_elem_of_lookup in Hv as [i Hi].
    pose proof (lookup_lt_Some _ _ _ Hi). exists (length pre + 1 + S i). rewrite in_seq. split; [lia|].
    rewrite bound_at by (cbn; lia). apply opt_string_eqb_iff, Hi.
Qed.

Lemma push_label_holds data pre post req fields :
  labels_ok data ->
  clause_holds (pre ++ (push_label (length pre) req).2 ++ post) (extract_labels data) fields
    (push_label (length pre) req).1
  = requirement_matches req (body_labels data).
Proof.
  intros Hok. assert (Hkey : forall ps k, bound (pre ++ (k :: ps) ++ post) (length pre + 1) = Some k).
  { intros ps k. replace (length pre + 1) with (length pre + 1 + 0) by lia. by rewrite bound_at by (cbn; lia). }
  assert (Hval : forall k v, bound (pre ++ [k; v] ++ post) (length pre + 1 + 1) = Some v).
  { intros k v. by rewrite bound_at by (cbn; lia). }
  destruct req as [k v|k v|k|k|k vs|k vs]; cbn [push_label fst snd clause_holds requirement_matches];
    rewrite Hkey.
  - cbn [test_value]. rewrite Hval, xorb_false_l, (exists_label data k (fun s => Some v =?os Some s)) by done. apply is_some_and_ext. intros s. cbn. apply String.eqb_sym.
  - cbn [test_value]. rewrite Hval, xorb_true_l, (exists_label data k (fun s => Some v =?os Some s)), is_none_or_negb by done. f_equal. apply is_some_and_ext. intros s. cbn.
    apply String.eqb_sym.
  - cbn [test_value]. rewrite xorb_false_l, (exists_label data k (fun _ => true)) by done. by apply has_label.
  - cbn [test_value]. rewrite xorb_true_l, (exists_label data k (fun _ => true)), has_label, is_none_or_negb by done. done.
  - rewrite xorb_false_l, (exists_label data k (test_value (pre ++ (k :: vs) ++ post) (ValueIn _))) by done. apply is_some_and_ext. intros s.
    apply exists_bound.
  - rewrite xorb_true_l, (exists_label data k (test_value (pre ++ (k :: vs) ++ post) (ValueIn _))) by done.
    rewrite (is_some_and_ext _ _ (fun s => existsb (fun value => value =?s s) vs)) by (intros s; apply exists_bound).
    rewrite <- is_none_or_negb. destruct (label_text _ _); [cbn; apply negb_existsb|done].
Qed.

Definition field_value (api_version kind : string) (data : Value) (path : string) : option string :=
  or_else (resolve_field_value float_to_string data path) (indexed_field_default api_version kind path).

Lemma exists_field api_version kind data path expected :
  path ∈ indexed_field_paths api_version kind ->
  existsb (fun row : string * string => (Some path =?os Some row.1) && (Some expected =?os Some row.2))
    (extract_fields api_version kind data)
  = (field_value api_version kind data path =?os Some expected).
Proof.
  intros Hp. apply eq_true_iff_eq. rewrite existsb_exists, opt_string_eqb_iff. unfold extract_fields. split.
  - intros ([q v] & Hin%list_elem_of_In & [Hq Hv]%andb_true_iff).
    apply opt_string_eqb_iff in Hq as [= <-], Hv as [= <-].
    apply list_elem_of_omap in Hin as (q & _ & Hq). unfold field_value.
    destruct (or_else _ _) as [w|] eqn:Hw in Hq; [|done]. cbn in Hq. by injection Hq as -> ->.
  - intros Hv. exists (path, expected). rewrite <- list_elem_of_In, list_elem_of_omap, !opt_string_eqb_refl.
    split; [|done]. exists path. split; [done|]. unfold field_value in Hv. by rewrite Hv.
Qed.

Lemma field_clause_holds api_version kind data pre post cond labels :
  is_empty (fr_value cond) = false -> fr_field cond ∈ indexed_field_paths api_version kind ->
  clause_holds (pre ++ [fr_field cond; fr_value cond] ++ post) labels (extract_fields api_version kind data)
    (FieldClause match fr_operator cond with Equals => false | NotEquals => true end (length pre + 1)
       (length pre + 1 + 1))
  = field_matches_with_identity float_to_string cond api_version kind data.
Proof.
  intros Hne Hp. cbn [clause_holds].
  assert (H1 : bound (pre ++ [fr_field cond; fr_value cond] ++ post) (length pre + 1) = Some (fr_field cond)).
  { replace (length pre + 1) with (length pre + 1 + 0) by lia. by rewrite bound_at by (cbn; lia). }
  rewrite H1, bound_at by (cbn; lia). cbn [lookup list_lookup]. rewrite exists_field by done.
  unfold field_matches_with_identity, matches_value. fold (indexed_field_default api_version kind (fr_field cond)).
  fold (field_value api_version kind data (fr_field cond)).
  assert (Heq : (field_value api_version kind data (fr_field cond) =?os Some (fr_value cond))
                = (unwrap_or "" (field_value api_version kind data (fr_field cond)) =?s fr_value cond)).
  { destruct (field_value _ _ _ _) as [v|]; [done|]. cbn. by destruct (fr_value cond). }
  rewrite Heq. by destruct (fr_operator cond), (_ =?s _).
Qed.

(** The plan so far selects as [b] does, whatever parameters follow. *)
Definition plan_means (base_params : list string) (api_version kind : string) (data : Value)
    (plan : SelectorPushdown) (b : bool) : Prop :=
  forall post,
    forallb (clause_holds (base_params ++ sql_params plan ++ post) (extract_labels data)
               (extract_fields api_version kind data)) (sql_clauses plan)
    && forallb (fun req => requirement_matches req (body_labels data)) (residual_labels plan)
    && forallb (fun cond => field_matches_with_identity float_to_string cond api_version kind data)
         (residual_fields plan) = b.

Lemma add_clause_means base_params api_version kind data plan b pushed b' :
  plan_means base_params api_version kind data plan b ->
  (forall post, clause_holds (base_params ++ (sql_params plan ++ pushed.2) ++ post) (extract_labels data)
                  (extract_fields api_version kind data) pushed.1 = b') ->
  plan_means base_params api_version kind data (add_clause plan pushed) (b && b').
Proof.
  intros Hplan Hc post. unfold add_clause. cbn [sql_clauses sql_params residual_labels residual_fields].
  rewrite forallb_app. cbn [forallb]. rewrite Hc, andb_true_r, <- (Hplan (pushed.2 ++ post)%list), <- app_assoc.
  destruct (forallb _ (sql_clauses plan)), (forallb _ (residual_labels plan)), (forallb _ (residual_fields plan)), b';
    done.
Qed.

Lemma add_label_means base_params api_version kind data plan b req :
  labels_ok data -> plan_means base_params api_version kind data plan b ->
  plan_means base_params api_version kind data (add_label (length base_params) plan req)
    (b && requirement_matches req (body_labels data)).
Proof.
  intros Hok Hplan. apply add_clause_means; [done|]. intros post. rewrite <- length_app, <- app_assoc, app_assoc.
  by apply push_label_holds.
Qed.

Lemma add_field_means base_params api_version kind data plan b cond :
  plan_means base_params api_version kind data plan b ->
  plan_means base_params api_version kind data
    (add_field (indexed_field_paths api_version kind) (length base_params) plan cond)
    (b && field_matches_with_identity float_to_string cond api_version kind data).
Proof.
  intros Hplan. unfold add_field. destruct (_ && _) eqn:Hpush.
  - to_prop. apply add_clause_means; [done|]. intros post. rewrite <- length_app, <- app_assoc, app_assoc.
    apply field_clause_holds; [done|]. match goal with H : existsb _ _ = true |- _ => rename H into Hex end.
    apply existsb_exists in Hex as (p & Hp & ->%String.eqb_eq). by apply list_elem_of_In.
  - intros post. cbn [sql_clauses sql_params residual_labels residual_fields]. rewrite forallb_app, <- (Hplan post).
    cbn [forallb]. by rewrite andb_true_r, andb_assoc.
Qed.

Lemma fold_means {A} (step : SelectorPushdown -> A -> SelectorPushdown) (test : A -> bool) base_params api_version kind
    data (Hstep : forall plan b a, plan_means base_params api_version kind data plan b ->
                    plan_means base_params api_version kind data (step plan a) (b && test a)) l plan b :
  plan_means base_params api_version kind data plan b ->
  plan_means base_params api_version kind data (fold_left step l plan) (b && forallb test l).
Proof.
  revert plan b. induction l as [|a l IH]; intros plan b Hplan; cbn [fold_left forallb]; [by rewrite andb_true_r|].
  rewrite andb_assoc. apply IH. by apply Hstep.
Qed.

(** Answering a list request from the index tables is the same as decoding
    every body: for any label and field requirements, the SQL conditions of the
    plan, evaluated over the rows indexed for a body with the parameters bound
    by their numbers, together with the residual requirements, hold exactly when
    the body matches the selectors. *)
Theorem selector_pushdown_exact labels fields api_version kind base_params data (Hok : labels_ok data) :
  plan_selects (build_selector_pushdown labels fields api_version kind (length base_params)) base_params
    api_version kind data
  = matches_resource labels data
    && FieldSelector_matches_with_identity float_to_string fields api_version kind data.
Proof.
  unfold plan_selects, plan_selects_rows, matches_resource, matches_labels, FieldSelector_matches_with_identity.
  fold (body_labels data). rewrite <- (app_nil_r (sql_params _)).
  assert (H0 : plan_means base_params api_version kind data (mkPushdown [] [] [] []) true) by done.
  apply (fold_means _ (fun req => requirement_matches req (body_labels data)) _ _ _ _
           (fun plan b req => add_label_means _ _ _ _ plan b req Hok) labels) in H0.
  apply (fold_means _ _ _ _ _ _ (fun plan b cond => add_field_means _ _ _ _ plan b cond) fields) in H0.
  apply (H0 []).
Qed.

End Fields.

(** ** Examples *)

Definition sample_pod : Value :=
  Object [("metadata", Object [("labels", Object [("app", Str "web"); ("tier", Str "front")])]);
          ("spec", Object [("nodeName", Str "n1")]); ("status", Object [("phase", Str "Running")])].

Lemma selector_pushdown_exact_witness :
  plan_selects (fun _ => "")
    (build_selector_pushdown [In "app" ["db"; "web"]; NotIn "tier" ["back"]]
       [mkFieldRequirement "spec.nodeName" Equals "n1"; mkFieldRequirement "metadata.name" NotEquals "x"]
       "v1" "Pod" 2) ["v1"; "Pod"] "v1" "Pod" sample_pod = true.
Proof.
  rewrite (selector_pushdown_exact (fun _ => "") _ _ "v1" "Pod" ["v1"; "Pod"] sample_pod); [vm_compute; reflexivity|].
  intros m [= <-]. split.
  - cbn. repeat constructor; rewrite ?elem_of_cons, ?elem_of_nil; naive_solver.
  - repeat constructor; by eexists.
Defined.
