(* ===== verification/NodeSubnets.v ===== *)
(** * Node subnets

    The network values of [klights-types/src/network.rs] and the allocation of a
    /24 pod subnet per node
    ([klights-cluster-datastore/src/sqlite/live_apply/state/network.rs]).  An IPv4
    address is its 32-bit value; [parse_ipv4] and [ipv4_to_string] are the
    [FromStr] and [Display] of [Ipv4Addr].  The table is a map from the node name,
    with the unique constraint on the subnet text.

    The theorems: an address is read back from its text, so the [expect] of the
    allocation cannot panic; and along any allocations and deletions the subnets
    of different nodes are disjoint /24 blocks, a node keeps its subnet, and an
    allocation fails only when every block of the range is taken. *)

From S2P Require Import Prelude Text Json KeyCodec Watch LogApply.

Local Open Scope string_scope.
Local Open Scope rs_scope.
Local Open Scope Z_scope.

(** ** Addresses *)

Definition parse_octet (s : string) : option Z :=
  if (1 <? str_len s) && starts_with "0" s then None
  else if 3 <? str_len s then None
  else v ← parse_unsigned s; if v <=? 255 then Some v else None.

Definition parse_ipv4 (s : string) : option Z :=
  match split "." s with
  | [a; b; c; d] =>
      a ← parse_octet a; b ← parse_octet b; c ← parse_octet c; d ← parse_octet d;
      Some (a * 16777216 + b * 65536 + c * 256 + d)
  | _ => None
  end.

Definition octets (ip : Z) : list Z := [ip / 16777216 mod 256; ip / 65536 mod 256; ip / 256 mod 256; ip mod 256].

Definition ipv4_to_string (ip : Z) : string := String.concat "." (to_string <$> octets ip).

(** [str::parse::<u8>]. *)
Definition parse_u8 (s : string) : option Z :=
  v ← parse_unsigned match s with String "+" rest => rest | _ => s end; if v <=? 255 then Some v else None.

(** ** Network values *)

Definition mask_for_prefix (prefix : Z) : Z :=
  if prefix =? 0 then 0
  else if 32 <=? prefix then u32_max
  else Z.land (Z.shiftl u32_max (32 - prefix)) u32_max.

Definition parse_cidr_components (cidr : string) : result string (Z * Z) :=
  match split_once "/" cidr with
  | None => Err ("CIDR must be in the form a.b.c.d/prefix, got: " +:+ cidr)
  | Some (address, prefix) =>
      match parse_u8 prefix with
      | None => Err ("Invalid prefix length in CIDR: " +:+ cidr)
      | Some prefix =>
          if 32 <? prefix then Err ("IPv4 CIDR prefix must be in /0..=/32: " +:+ cidr)
          else
            match parse_ipv4 address with
            | None => Err ("Invalid IPv4 address in CIDR: " +:+ cidr)
            | Some address => Ok (address, prefix)
            end
      end
  end.

Record PodSubnet := mkPodSubnet { ps_base : Z; ps_prefix : Z }.

Definition PodSubnet_parse (cidr : string) : result string PodSubnet :=
  let? c := parse_cidr_components cidr in
  if negb ((1 <=? c.2) && (c.2 <=? 30))
  then Err ("PodSubnet prefix must be in /1..=/30, got /" +:+ to_string c.2 +:+ " in " +:+ cidr)
  else Ok (mkPodSubnet (Z.land c.1 (mask_for_prefix c.2)) c.2).

Definition PodSubnet_to_string (p : PodSubnet) : string := ipv4_to_string (ps_base p) +:+ "/" +:+ to_string (ps_prefix p).

Record ClusterCidr := mkClusterCidr { cc_base : Z; cc_prefix : Z }.

Definition ClusterCidr_parse (cidr : string) : result string ClusterCidr :=
  let? c := parse_cidr_components cidr in Ok (mkClusterCidr c.1 c.2).

Definition cc_network (c : ClusterCidr) : Z := Z.land (cc_base c) (mask_for_prefix (cc_prefix c)).

Definition is_node_name_byte (c : ascii) : bool :=
  is_ascii_digit c || (("a" <=? c)%char && (c <=? "z")%char) || (("A" <=? c)%char && (c <=? "Z")%char)
  || Ascii.eqb c "-" || Ascii.eqb c ".".

Definition NodeName_parse (name : string) : result string string :=
  let trimmed := trim name in
  if is_empty trimmed then Err "Node name cannot be empty"
  else if 253 <? str_len trimmed then Err ("Node name too long (max 253 chars), got " +:+ to_string (str_len trimmed))
  else if negb (all_chars is_node_name_byte trimmed)
  then Err ("Node name must be alphanumeric, hyphen, or dot, got: " +:+ trimmed)
  else if starts_with "-" trimmed || ends_with "-" trimmed then Err "Node name cannot start or end with hyphen"
  else Ok trimmed.

(** ** The table *)

Inductive SubnetError :=
| SubnetOther (message : string)
| SubnetUnique
| SubnetExhausted
| SubnetPanic.

Abbreviation SubnetTable := (gmap string LogApplyNodeSubnetRow).

(** [ON CONFLICT(node_name) DO UPDATE], under [subnet UNIQUE]. *)
Definition put_node_subnet (row : LogApplyNodeSubnetRow) (t : SubnetTable) : result SubnetError SubnetTable :=
  if existsb (fun e => negb (e.1 =?s sr_node_name row) && (sr_subnet e.2 =?s sr_subnet row)) (map_to_list t)
  then Err SubnetUnique
  else Ok (<[sr_node_name row := row]> t).

Definition delete_node_subnet (node_name : string) (t : SubnetTable) : SubnetTable := delete node_name t.

Definition base_taken (base : Z) (t : SubnetTable) : bool :=
  existsb (fun e => sr_subnet_base_int e.2 =? base) (map_to_list t).

(** The loop over the blocks of the range, from block [i], [n] of them left. *)
Fixpoint first_free (cluster_base i : Z) (n : nat) (t : SubnetTable) : option Z :=
  match n with
  | O => None
  | S n' =>
      let base := wrapping_add_u32 cluster_base (Z.shiftl i 8) in
      if base_taken base t then first_free cluster_base (i + 1) n' t else Some base
  end.

(** [1u32.checked_shl(host_bits - 8).unwrap_or(1).max(1)] for a prefix of at most 24. *)
Definition subnet_count (prefix : Z) : Z := Z.max 1 (Z.shiftl 1 (32 - prefix - 8)).

Definition map_parse {A} (what text : string) (r : result string A) : result SubnetError A :=
  match r with Ok a => Ok a | Err e => Err (SubnetOther (what +:+ text +:+ ": " +:+ e)) end.

Definition allocate_node_subnet_row (allocation : LogApplyNodeSubnetAllocation) (t : SubnetTable)
    : result SubnetError LogApplyNodeSubnetRow :=
  let? node_name := map_parse "Invalid node name " (sa_node_name allocation) (NodeName_parse (sa_node_name allocation)) in
  let? node_ip := map_parse "Invalid node IP " (sa_node_ip allocation)
                    (ok_or (parse_ipv4 (sa_node_ip allocation)) "invalid IPv4 address syntax") in
  let? cluster := map_parse "Invalid cluster CIDR " (sa_cluster_cidr allocation)
                    (ClusterCidr_parse (sa_cluster_cidr allocation)) in
  if 24 <? cc_prefix cluster
  then Err (SubnetOther ("cluster CIDR prefix must be <= /24 (got /" +:+ to_string (cc_prefix cluster) +:+ ")"))
  else
    match t !! node_name with
    | Some existing => Ok existing
    | None =>
        match first_free (cc_network cluster) 0 (Z.to_nat (subnet_count (cc_prefix cluster))) t with
        | None => Err SubnetExhausted
        | Some base =>
            match PodSubnet_parse (ipv4_to_string base +:+ "/24") with
            | Err _ => Err SubnetPanic
            | Ok subnet =>
                Ok (mkNodeSubnetRow node_name (PodSubnet_to_string subnet) base (ipv4_to_string base)
                      (ipv4_to_string node_ip) "root" None)
            end
        end
    end.

Definition allocate_node_subnet (allocation : LogApplyNodeSubnetAllocation) (t : SubnetTable)
    : result SubnetError SubnetTable :=
  let? row := allocate_node_subnet_row allocation t in put_node_subnet row t.

(** ** Reading an address back *)

Definition octet_ok (n : Z) : bool :=
  match parse_octet (to_string n) with
  | Some m => (m =? n) && negb (any_char (Ascii.eqb ".") (to_string n)) && negb (any_char (Ascii.eqb "/") (to_string n))
  | None => false
  end.

Lemma octets_ok : forallb octet_ok (seqZ 0 256) = true.
Proof. vm_compute. reflexivity. Qed.

Lemma octet_round_trip n :
  0 <= n < 256 ->
  parse_octet (to_string n) = Some n /\ any_char (Ascii.eqb ".") (to_string n) = false
  /\ any_char (Ascii.eqb "/") (to_string n) = false.
Proof.
  intros Hn. pose proof octets_ok as H. rewrite forallb_forall in H.
  assert (Hin : n ∈ seqZ 0 256) by (apply elem_of_seqZ; lia). apply list_elem_of_In in Hin. specialize (H n Hin).
  unfold octet_ok in H. destruct (parse_octet (to_string n)) as [m|]; [|done]. to_prop. by subst.
Qed.

Lemma octets_range ip : Forall (fun n => 0 <= n < 256) (octets ip).
Proof. repeat constructor; apply Z.mod_pos_bound; lia. Qed.

Lemma ipv4_round_trip ip : in_u32 ip -> parse_ipv4 (ipv4_to_string ip) = Some ip.
Proof.
  intros [H0 H1]. unfold u32_max in H1. unfold parse_ipv4, ipv4_to_string.
  pose proof (octets_range ip) as Hr. change "." with (String "." "").
  rewrite split_join; [|done|].
  - unfold octets in *. cbn [fmap list_fmap].
    rewrite !Forall_cons in Hr. destruct Hr as (Ha & Hb & Hc & Hd & _).
    rewrite (proj1 (octet_round_trip _ Ha)), (proj1 (octet_round_trip _ Hb)), (proj1 (octet_round_trip _ Hc)),
      (proj1 (octet_round_trip _ Hd)). cbn [mbind option_bind].
    f_equal. change 16777216 with (65536 * 256). rewrite <- Z.div_div by lia.
    change 65536 with (256 * 256). rewrite <- Z.div_div by lia.
    pose proof (Z.div_mod ip 256 ltac:(lia)). pose proof (Z.div_mod (ip / 256) 256 ltac:(lia)).
    pose proof (Z.div_mod (ip / 256 / 256) 256 ltac:(lia)).
    rewrite (Z.mod_small (ip / 256 / 256 / 256)); [lia|]. rewrite !Z.div_div by lia.
    split; [by apply Z.div_pos|]. apply Z.div_lt_upper_bound; lia.
  - apply Forall_fmap, (Forall_impl _ _ _ Hr). intros n Hn. cbn. by apply octet_round_trip.
Qed.

Lemma concat_no_char c sep l :
  any_char (Ascii.eqb c) sep = false -> Forall (fun s => any_char (Ascii.eqb c) s = false) l ->
  any_char (Ascii.eqb c) (String.concat sep l) = false.
Proof.
  intros Hsep. induction 1 as [|s [|s' l] Hs Hl IH]; [done|done|].
  change (String.concat sep (s :: s' :: l)) with (s +:+ sep +:+ String.concat sep (s' :: l)).
  unfold any_char in *. rewrite !bytes_of_app, !existsb_app, Hs, Hsep. exact IH.
Qed.

Lemma ipv4_no_slash ip : any_char (Ascii.eqb "/") (ipv4_to_string ip) = false.
Proof.
  apply concat_no_char; [done|]. apply Forall_fmap, (Forall_impl _ _ _ (octets_range ip)).
  intros n Hn. cbn. by apply octet_round_trip.
Qed.

(** ** Masks *)

Lemma land_mask base prefix :
  in_u32 base -> 0 <= prefix <= 32 ->
  Z.land base (mask_for_prefix prefix) = base / 2 ^ (32 - prefix) * 2 ^ (32 - prefix).
Proof.
  intros [Hb0 Hb1] Hp. unfold u32_max in Hb1. unfold mask_for_prefix, u32_max.
  destruct (Z.eqb_spec prefix 0) as [->|Hz].
  { rewrite Z.land_0_r, Z.div_small; [done|]. change (2 ^ (32 - 0)) with 4294967296. lia. }
  destruct (Z.leb_spec 32 prefix).
  { replace prefix with 32 by lia. change 4294967295 with (Z.ones 32). rewrite Z.land_ones by lia.
    rewrite Z.mod_small by (change (2 ^ 32) with 4294967296; lia). change (2 ^ (32 - 32)) with 1.
    by rewrite Z.div_1_r, Z.mul_1_r. }
  change 4294967295 with (Z.ones 32). set (k := 32 - prefix).
  rewrite <- Z.shiftl_mul_pow2, <- Z.shiftr_div_pow2 by lia. apply Z.bits_inj'. intros n Hn. rewrite !Z.land_spec.
  destruct (Z.lt_ge_cases n 32).
  - rewrite (Z.ones_spec_low 32) by lia. rewrite andb_true_r. destruct (Z.lt_ge_cases n k).
    + rewrite !Z.shiftl_spec_low by lia. apply andb_false_r.
    + rewrite !Z.shiftl_spec_high, Z.shiftr_spec, Z.ones_spec_low by lia. replace (n - k + k) with n by lia.
      apply andb_true_r.
  - rewrite !Z.shiftl_spec_high, Z.shiftr_spec by lia. replace (n - k + k) with n by lia.
    rewrite (Z.bits_above_log2 base n); [done|lia|]. destruct (Z.eq_dec base 0) as [->|]; [cbn; lia|].
    apply Z.log2_lt_pow2; [lia|]. apply Z.lt_le_trans with (2 ^ 32); [change (2 ^ 32) with 4294967296; lia|].
    apply Z.pow_le_mono_r; lia.
Qed.

Lemma parse_octet_range s v : parse_octet s = Some v -> 0 <= v <= 255.
Proof.
  unfold parse_octet. destruct (_ && _); [done|]. destruct (_ <? _); [done|].
  unfold parse_unsigned. destruct (is_empty s); [done|]. destruct (all_chars is_ascii_digit s) eqn:Hd; [|done].
  cbn [mbind option_bind]. destruct (Z.leb_spec (value_of_digits 0 (digit_value <$> bytes_of s)) 255); [|done].
  intros [= <-]. split; [|done]. apply value_of_digits_bound. apply Forall_fmap, Forall_forall. intros c Hc%list_elem_of_In.
  unfold all_chars in Hd. rewrite forallb_forall in Hd. specialize (Hd c Hc). unfold is_ascii_digit in Hd.
  cbn. unfold is_digit_Z, digit_value. apply andb_true_iff in Hd as [H1%N.leb_le H2%N.leb_le]. lia.
Qed.

Lemma parse_ipv4_range s ip : parse_ipv4 s = Some ip -> in_u32 ip.
Proof.
  unfold parse_ipv4. destruct (split "." s) as [|a [|b [|c [|d [|]]]]]; try done.
  destruct (parse_octet a) as [x|] eqn:Ha, (parse_octet b) as [y|] eqn:Hb, (parse_octet c) as [z|] eqn:Hc,
    (parse_octet d) as [w|] eqn:Hd; try done. cbn. intros [= <-].
  apply parse_octet_range in Ha, Hb, Hc, Hd. unfold in_u32, u32_max. lia.
Qed.

Lemma cluster_cidr_range text c : ClusterCidr_parse text = Ok c -> in_u32 (cc_base c) /\ 0 <= cc_prefix c <= 32.
Proof.
  unfold ClusterCidr_parse, parse_cidr_components. destruct (split_once "/" text) as [[address prefix]|]; [|done].
  unfold parse_u8. set (digits_text := match prefix with String "+" rest => rest | _ => prefix end).
  unfold parse_unsigned. destruct (is_empty digits_text); [done|].
  destruct (all_chars is_ascii_digit digits_text) eqn:Hd; [|done]. cbn [mbind option_bind].
  set (p := value_of_digits 0 _). destruct (p <=? 255); [|done]. destruct (Z.ltb_spec 32 p); [done|].
  destruct (parse_ipv4 address) as [ip|] eqn:Hip; [|done]. cbn. intros [= <-]. cbn.
  split; [by eapply parse_ipv4_range|]. split; [|done]. unfold p. apply value_of_digits_bound.
  apply Forall_fmap, Forall_forall. intros ch Hch%list_elem_of_In. unfold all_chars in Hd.
  rewrite forallb_forall in Hd. specialize (Hd ch Hch). unfold is_ascii_digit in Hd. cbn.
  unfold is_digit_Z, digit_value. apply andb_true_iff in Hd as [H1%N.leb_le H2%N.leb_le]. lia.
Qed.

(** ** Blocks *)

Definition block_text (base : Z) : string := ipv4_to_string base +:+ "/24".

Lemma pod_subnet_of_block base :
  in_u32 base -> base mod 256 = 0 -> PodSubnet_parse (block_text base) = Ok (mkPodSubnet base 24).
Proof.
  intros Hb Hm. unfold PodSubnet_parse, parse_cidr_components, block_text.
  change "/24" with (String "/" "" +:+ "24"). rewrite split_once_app by apply ipv4_no_slash.
  change (parse_u8 "24") with (Some 24). rewrite ipv4_round_trip by done.
  change (32 <? 24) with false. cbn [result_bind fst snd].
  change (negb ((1 <=? 24) && (24 <=? 30))) with false. cbn iota. rewrite land_mask by (done || lia).
  change (2 ^ (32 - 24)) with 256. repeat f_equal. pose proof (Z.div_mod base 256 ltac:(lia)). lia.
Qed.

(** The blocks of a range start below [2^32]: no addition of the loop wraps. *)
Lemma block_range c i :
  in_u32 (cc_base c) -> 0 <= cc_prefix c <= 24 -> 0 <= i < subnet_count (cc_prefix c) ->
  let base := wrapping_add_u32 (cc_network c) (Z.shiftl i 8) in
  base = cc_network c + i * 256 /\ in_u32 base /\ base mod 256 = 0.
Proof.
  intros Hb Hp Hi. unfold subnet_count in Hi. rewrite Z.shiftl_mul_pow2 in Hi by lia.
  assert (Hpow : 1 <= 2 ^ (32 - cc_prefix c - 8)).
  { change 1 with (2 ^ 0). apply Z.pow_le_mono_r; lia. }
  rewrite Z.max_r in Hi by lia. unfold cc_network. rewrite land_mask, Z.shiftl_mul_pow2 by (done || lia).
  change (2 ^ 8) with 256. destruct Hb as [Hb0 Hb1]. unfold u32_max in Hb1.
  set (k := 2 ^ (32 - cc_prefix c - 8)) in *.
  assert (Hk : 2 ^ (32 - cc_prefix c) = k * 256).
  { unfold k. change 256 with (2 ^ 8) at 1. rewrite <- Z.pow_add_r by lia. f_equal. lia. }
  assert (Htotal : k * 256 * 2 ^ cc_prefix c = 4294967296).
  { rewrite <- Hk, <- Z.pow_add_r by lia. replace (32 - cc_prefix c + cc_prefix c) with 32 by lia. done. }
  rewrite Hk. set (q := cc_base c / (k * 256)).
  assert (Hq : 0 <= q < 2 ^ cc_prefix c).
  { split; [apply Z.div_pos; lia|]. apply Z.div_lt_upper_bound; lia. }
  assert (Hsum : 0 <= q * (k * 256) + i * 256 < 4294967296) by nia.
  unfold wrapping_add_u32. rewrite Z.mod_small by done. split; [done|]. split; [unfold in_u32, u32_max; lia|].
  replace (q * (k * 256) + i * 256) with ((q * k + i) * 256) by lia. apply Z.mod_mul. lia.
Qed.

Lemma first_free_spec c i n t :
  (forall base, first_free c i n t = Some base ->
     exists j, i <= j < i + Z.of_nat n /\ base = wrapping_add_u32 c (Z.shiftl j 8) /\ base_taken base t = false)
  /\ (first_free c i n t = None ->
      forall j, i <= j < i + Z.of_nat n -> base_taken (wrapping_add_u32 c (Z.shiftl j 8)) t = true).
Proof.
  revert i. induction n as [|n IH]; intros i; cbn [first_free]; [split; [done|]; intros; lia|].
  destruct (base_taken (wrapping_add_u32 c (Z.shiftl i 8)) t) eqn:Ht.
  - destruct (IH (i + 1)) as [H1 H2]. split.
    + intros base Hb. destruct (H1 base Hb) as (j & ? & ?). exists j. split; [lia|done].
    + intros Hn j Hj. destruct (Z.eq_dec j i) as [->|]; [done|]. apply H2; [done|lia].
  - split; [|done]. intros base [= <-]. exists i. split; [lia|done].
Qed.

(** ** Allocation *)

Definition row_ok (r : LogApplyNodeSubnetRow) : Prop :=
  sr_subnet r = block_text (sr_subnet_base_int r) /\ in_u32 (sr_subnet_base_int r)
  /\ sr_subnet_base_int r mod 256 = 0.

Definition subnets_ok (t : SubnetTable) : Prop :=
  (forall n r, t !! n = Some r -> row_ok r /\ sr_node_name r = n)
  /\ (forall n n' r r', t !! n = Some r -> t !! n' = Some r' ->
        sr_subnet_base_int r = sr_subnet_base_int r' -> n = n').

Lemma block_text_inj b b' :
  in_u32 b -> in_u32 b' -> b mod 256 = 0 -> b' mod 256 = 0 -> block_text b = block_text b' -> b = b'.
Proof.
  intros Hb Hb' Hm Hm' Heq. apply (f_equal PodSubnet_parse) in Heq. rewrite !pod_subnet_of_block in Heq by done.
  by injection Heq.
Qed.

Lemma base_taken_spec base t : base_taken base t = true <-> exists n r, t !! n = Some r /\ sr_subnet_base_int r = base.
Proof.
  unfold base_taken. rewrite existsb_exists. split.
  - intros ([n r] & Hin%list_elem_of_In & Heq%Z.eqb_eq). apply elem_of_map_to_list in Hin. by exists n, r.
  - intros (n & r & Hn & <-). exists (n, r). rewrite <- list_elem_of_In, elem_of_map_to_list, Z.eqb_refl. done.
Qed.

(** A row whose block no other node has passes the unique constraint. *)
Lemma put_fresh row t :
  subnets_ok t -> row_ok row ->
  (forall n r, t !! n = Some r -> sr_subnet_base_int r = sr_subnet_base_int row -> n = sr_node_name row) ->
  put_node_subnet row t = Ok (<[sr_node_name row := row]> t) /\ subnets_ok (<[sr_node_name row := row]> t).
Proof.
  intros [Hrows Hinj] (Htext & Hb & Hm) Hfresh. split.
  - unfold put_node_subnet. destruct (existsb _ _) eqn:He; [|done]. exfalso.
    apply existsb_exists in He as ([n r] & Hin%list_elem_of_In & He). apply elem_of_map_to_list in Hin. cbn in He. to_prop.
    destruct (Hrows n r Hin) as [(Ht & Hrb & Hrm) _].
    match goal with H : sr_subnet r = _ |- _ => rewrite Ht, Htext in H; apply block_text_inj in H; try done end. eauto.
  - split.
    + intros n r [[<- <-]|[Hne H]]%lookup_insert_Some; [done|]. by apply Hrows.
    + intros n n' r r' [[<- <-]|[Hne H]]%lookup_insert_Some [[<- <-]|[Hne' H']]%lookup_insert_Some Hbase; try done.
      * symmetry. by apply (Hfresh n' r').
      * by apply (Hfresh n r).
      * by apply (Hinj n n' r r').
Qed.

Record request (a : LogApplyNodeSubnetAllocation) (name : string) (c : ClusterCidr) : Prop := {
  req_name : NodeName_parse (sa_node_name a) = Ok name;
  req_ip : is_Some (parse_ipv4 (sa_node_ip a));
  req_cidr : ClusterCidr_parse (sa_cluster_cidr a) = Ok c;
  req_prefix : cc_prefix c <= 24
}.

(** What an allocation does: it finds the node's subnet, or takes a free block
    of the range, or the range is full. *)
Lemma allocate_cases a name c t :
  request a name c -> subnets_ok t ->
  (exists r, t !! name = Some r /\ allocate_node_subnet a t = Ok t)
  \/ (exists r i, t !! name = None /\ allocate_node_subnet a t = Ok (<[name := r]> t)
        /\ subnets_ok (<[name := r]> t) /\ 0 <= i < subnet_count (cc_prefix c)
        /\ sr_subnet_base_int r = cc_network c + i * 256)
  \/ (t !! name = None /\ allocate_node_subnet a t = Err SubnetExhausted
      /\ forall i, 0 <= i < subnet_count (cc_prefix c) -> base_taken (cc_network c + i * 256) t = true).
Proof.
  intros [Hname [ip Hip] Hc Hp] Hok. destruct (cluster_cidr_range _ _ Hc) as [Hcb Hcp].
  unfold allocate_node_subnet, allocate_node_subnet_row. rewrite Hname, Hip, Hc. cbn [map_parse ok_or result_bind].
  rewrite (proj2 (Z.ltb_ge _ _)) by lia. destruct (t !! name) as [r|] eqn:Hr.
  { left. exists r. split; [done|]. destruct (proj1 Hok name r Hr) as [Hrow Hn]. cbn [result_bind].
    destruct (put_fresh r t Hok Hrow) as [-> _].
    - intros n r' Hn' Hb. rewrite Hn. by apply (proj2 Hok n name r' r).
    - rewrite Hn, insert_id by done. done. }
  right. set (count := subnet_count (cc_prefix c)).
  assert (Hcount : Z.of_nat (Z.to_nat count) = count) by (apply Z2Nat.id; unfold count, subnet_count; lia).
  destruct (first_free_spec (cc_network c) 0 (Z.to_nat count) t) as [Hsome Hnone].
  destruct (first_free (cc_network c) 0 (Z.to_nat count) t) as [base|].
  - left. destruct (Hsome base eq_refl) as (i & Hi & Hbase & Hfree).
    destruct (block_range c i Hcb ltac:(lia) ltac:(unfold count in *; lia)) as (Heq & Hb & Hm).
    rewrite <- Hbase in Heq, Hb, Hm. fold (block_text base). rewrite pod_subnet_of_block by done. cbn [result_bind].
    match goal with |- context [put_node_subnet ?row t] => set (r := row) end.
    assert (Hrow : row_ok r) by done.
    destruct (put_fresh r t Hok Hrow) as [Hput Hok'].
    { intros n r' Hn Hb'. exfalso. assert (base_taken base t = true) by (apply base_taken_spec; eauto). congruence. }
    exists r, i. unfold count in *. split; [done|]. split; [done|]. split; [done|]. split; [lia|done].
  - right. split; [done|]. split; [done|]. intros i Hi.
    destruct (block_range c i Hcb ltac:(lia) Hi) as (<- & _). apply Hnone; [done|]. unfold count in *. lia.
Qed.

Inductive subnet_step (t : SubnetTable) : SubnetTable -> Prop :=
| step_allocate a t' : allocate_node_subnet a t = Ok t' -> subnet_step t t'
| step_delete name : subnet_step t (delete_node_subnet name t).

(** An allocation that succeeds was a well-formed request. *)
Lemma allocate_request a t t' :
  allocate_node_subnet a t = Ok t' -> exists name c, request a name c.
Proof.
  unfold allocate_node_subnet, allocate_node_subnet_row.
  destruct (NodeName_parse (sa_node_name a)) as [name|] eqn:Hn; [|done].
  destruct (parse_ipv4 (sa_node_ip a)) as [ip|] eqn:Hi; [|done].
  destruct (ClusterCidr_parse (sa_cluster_cidr a)) as [c|] eqn:Hc; [|done]. cbn [map_parse ok_or result_bind].
  destruct (Z.ltb_spec 24 (cc_prefix c)); [done|]. intros _. exists name, c. split; eauto.
Qed.

Lemma subnet_steps_ok t : rtc subnet_step ∅ t -> subnets_ok t.
Proof.
  intros H. refine (rtc_ind_r (fun t => subnets_ok t) ∅ _ _ t H).
  { split; intros n; intros; by rewrite lookup_empty in *. }
  clear. intros t t' _ Hstep Hok. destruct Hstep as [a t' Ha|name].
  - destruct (allocate_request _ _ _ Ha) as (name & c & Hreq).
    destruct (allocate_cases a name c t Hreq Hok) as [(r & _ & H)|[(r & i & _ & H & Hok' & _)|(_ & H & _)]];
      rewrite H in Ha; simplify_eq; done.
  - destruct Hok as [Hrows Hinj]. unfold delete_node_subnet. split.
    + intros n r [_ Hr]%lookup_delete_Some. by apply Hrows.
    + intros n n' r r' [_ Hr]%lookup_delete_Some [_ Hr']%lookup_delete_Some. by apply Hinj.
Qed.

Definition in_block (r : LogApplyNodeSubnetRow) (ip : Z) : Prop :=
  sr_subnet_base_int r <= ip < sr_subnet_base_int r + 256.

(** C18.  Pod subnets are disjoint and allocation is complete: after any sequence of
    allocations and deletions, no address lies in the subnets of two nodes; a
    well-formed request then either returns with the node's subnet in the
    table and every other node's subnet unchanged (a subnet the node had is
    kept, a new one is a /24 block of the cluster range), or fails because
    every block of the range is taken.  It never panics and never hits the
    unique constraint. *)
Theorem node_subnets_disjoint_and_complete t a name c
    (Hreach : rtc subnet_step ∅ t) (Hreq : request a name c) :
  (forall n n' r r' ip, t !! n = Some r -> t !! n' = Some r' -> in_block r ip -> in_block r' ip -> n = n')
  /\ ((exists t' r i, allocate_node_subnet a t = Ok t' /\ t' = <[name := r]> t
         /\ (t !! name = Some r
             \/ t !! name = None /\ 0 <= i < subnet_count (cc_prefix c)
                /\ sr_subnet_base_int r = cc_network c + i * 256))
      \/ (allocate_node_subnet a t = Err SubnetExhausted /\ t !! name = None
          /\ forall i, 0 <= i < subnet_count (cc_prefix c) -> base_taken (cc_network c + i * 256) t = true)).
Proof.
  pose proof (subnet_steps_ok t Hreach) as Hok. split.
  - intros n n' r r' ip Hr Hr' Hip Hip'. apply (proj2 Hok n n' r r'); [done..|].
    destruct (proj1 Hok n r Hr) as [(_ & _ & Hm) _], (proj1 Hok n' r' Hr') as [(_ & _ & Hm') _].
    unfold in_block in *. apply Z.mod_divide in Hm as [q Hq], Hm' as [q' Hq']; [|done..]. lia.
  - destruct (allocate_cases a name c t Hreq Hok) as [(r & Hr & H)|[(r & i & Hn & H & _ & Hi)|(Hn & H & Hall)]].
    + left. exists t, r, 0. split; [done|]. rewrite insert_id by done. eauto.
    + left. exists (<[name := r]> t), r, i. eauto.
    + by right.
Qed.

(** ** Examples *)

Definition sample_request (name : string) : LogApplyNodeSubnetAllocation :=
  mkSubnetAllocation name "10.42.0.0/23" "192.0.2.7".

Definition sample_table : SubnetTable :=
  match allocate_node_subnet (sample_request "a") ∅ with
  | Ok t => match allocate_node_subnet (sample_request "b") t with Ok t' => t' | Err _ => ∅ end
  | Err _ => ∅
  end.

Lemma node_subnets_disjoint_and_complete_witness :
  (exists ra rb, sample_table !! "a" = Some ra /\ sample_table !! "b" = Some rb
    /\ sr_subnet ra = "10.42.0.0/24" /\ sr_subnet rb = "10.42.1.0/24" /\ ~ in_block ra (sr_subnet_base_int rb))
  /\ allocate_node_subnet (sample_request "c") sample_table = Err SubnetExhausted.
Proof.
  assert (Hreach : rtc subnet_step ∅ sample_table).
  { eapply rtc_l; [apply (step_allocate _ (sample_request "a")); vm_compute; reflexivity|].
    eapply rtc_l; [apply (step_allocate _ (sample_request "b")); vm_compute; reflexivity|]. reflexivity. }
  assert (Hreq : request (sample_request "c") "c" (mkClusterCidr 170524672 23)).
  { split; [vm_compute; reflexivity|by eexists|vm_compute; reflexivity|cbn; lia]. }
  destruct (node_subnets_disjoint_and_complete sample_table (sample_request "c") "c" _ Hreach Hreq) as [Hdis Hcase].
  split.
  - eexists _, _. split; [vm_compute; reflexivity|]. split; [vm_compute; reflexivity|]. split; [done|]. split; [done|].
    intros Hin. assert ("a" = "b") as [=]. eapply (Hdis "a" "b"); [vm_compute; reflexivity..|exact Hin|].
    unfold in_block. cbn. lia.
  - destruct Hcase as [(t' & r & i & H & _)|[H _]]; [|done]. vm_compute in H. done.
Defined.
