(* ===== verification/SqliteState.v ===== *)
(** * The SQLite state machine: tables and appliers

    [klights-cluster-datastore/src/sqlite/live_apply/state/]: what each mutation
    of a committed entry does to the tables.  A table is a finite map from its
    primary or unique key to its other columns ([schema.rs]); the index tables
    map a resource to its rows.  The history of watch events is a list in the
    order of the event identifiers.  A failed statement makes the whole function
    fail, and the caller rolls back, so an error carries no state.

    Stored bodies are values, not bytes: two stored texts are equal exactly when
    the values are ([value_eq_dec]).  chrono's parser, the [json_patch] merge and
    the text of a float are parameters.

    The lemmas, used by [CommittedApply]: after any mutations, the label, field
    and owner rows of a resource are those extracted from its body and a resource
    without a row has none ([mutations_index]); the mutations of a commit write no
    version but the commit's and leave the counter and the stream positions alone
    ([mutations_write]); and a conflict always reports a violated precondition
    ([genuine_mutations]). *)

From stdpp Require Import sorting.
From S2P Require Import Prelude Text Json Watch Apply StaleResource StatusMerge StatusRegistry ResourceSemantics Selectors KeyCodec LogApply ResourceShape ResourceIndex NodeSubnets.

Local Open Scope string_scope.
Local Open Scope rs_scope.

(** ** Errors *)

Inductive ApplyConflictCode :=
| CodeNotFound
| CodeAlreadyExists
| CodeUidPrecondition
| CodeResourceVersionPrecondition.

Inductive DbError :=
| Conflict (code : ApplyConflictCode) (message : string)
| OtherError (message : string)
| SqliteError (message : string)
| InvalidTemplate (error : LiveCommitResourceVersionError)
| Panicked.

Definition code_debug (code : ApplyConflictCode) : string :=
  match code with
  | CodeNotFound => "NotFound"
  | CodeAlreadyExists => "AlreadyExists"
  | CodeUidPrecondition => "UidPrecondition"
  | CodeResourceVersionPrecondition => "ResourceVersionPrecondition"
  end.

(** [Display] of a conflict. *)
Definition conflict_text (code : ApplyConflictCode) (message : string) : string :=
  code_debug code +:+ ": " +:+ message.

Definition apply_precondition_error (violation : ApplyPreconditionViolation) : DbError :=
  match violation with
  | AlreadyExists => Conflict CodeAlreadyExists "Resource already exists (409 Conflict)"
  | NotFound => Conflict CodeNotFound "Resource not found (404 Not Found)"
  | UidViolation _ _ => Conflict CodeUidPrecondition "UID precondition failed (409 Conflict)"
  | ResourceVersionViolation expected actual =>
      Conflict CodeResourceVersionPrecondition
        ("resourceVersion precondition failed: expected " +:+ to_string expected +:+ " got " +:+ to_string actual
         +:+ " (409 Conflict)")
  end.

(** ** Tables *)

Abbreviation NsKey := (string * string * string * string)%type.
Abbreviation ClusterKey := (string * string * string)%type.

Record ResRow := mkResRow {
  rw_id : Z; rw_uid : string; rw_resource_version : Z; rw_created_rv : Z; rw_data : Value
}.

Record ResourceTables := mkResTables {
  namespaced_resources : gmap NsKey ResRow;
  cluster_resources : gmap ClusterKey ResRow;
  resource_labels : gmap NsKey (list (string * string));
  resource_fields : gmap NsKey (list (string * string));
  resource_owner_refs : gmap NsKey (list OwnerRef)
}.

Record NamespaceRow := mkNsRow { ns_uid : string; ns_resource_version : Z; ns_data : Value }.

Record EventRow := mkEventRow {
  ev_api_version : string; ev_kind : string; ev_namespace : option string; ev_name : string;
  ev_resource_version : Z; ev_type : string; ev_data : Value
}.

Record FloorRow := mkFloor { fl_rv : Z; fl_event_id : Z; fl_position_exact : bool }.

(** [watch_seq] is the row of [sqlite_sequence]. *)
Record WatchTables := mkWatchTables {
  watch_events : list (Z * EventRow);
  watch_seq : Z;
  watch_replay_floors : gmap ClusterKey FloorRow
}.

Record CleanupRow := mkCleanup { ci_resource_version : Z; ci_created_at_ms : Z; ci_pod_data : Value }.

Record SqliteState := mkDb {
  db_resources : ResourceTables;
  db_namespaces : gmap string NamespaceRow;
  db_watch : WatchTables;
  db_outbox : gmap string LogApplyAppliedOutboxRow;
  db_watermarks : gmap (string * Z) Z;
  db_cleanup : gmap (string * string * string * string * string) CleanupRow;
  db_subnets : gmap string LogApplyNodeSubnetRow;
  db_dataplane : gmap string LogApplyNodeDataplaneRow;
  db_meta : gmap string string;
  db_rv : Z
}.

Definition empty_db : SqliteState :=
  mkDb (mkResTables ∅ ∅ ∅ ∅ ∅) ∅ (mkWatchTables [] 0 ∅) ∅ ∅ ∅ ∅ ∅ ∅ 0.

Definition set_resources (t : ResourceTables) (s : SqliteState) : SqliteState :=
  mkDb t (db_namespaces s) (db_watch s) (db_outbox s) (db_watermarks s) (db_cleanup s) (db_subnets s)
    (db_dataplane s) (db_meta s) (db_rv s).
Definition set_namespaces (n : gmap string NamespaceRow) (s : SqliteState) : SqliteState :=
  mkDb (db_resources s) n (db_watch s) (db_outbox s) (db_watermarks s) (db_cleanup s) (db_subnets s)
    (db_dataplane s) (db_meta s) (db_rv s).
Definition set_watch (w : WatchTables) (s : SqliteState) : SqliteState :=
  mkDb (db_resources s) (db_namespaces s) w (db_outbox s) (db_watermarks s) (db_cleanup s) (db_subnets s)
    (db_dataplane s) (db_meta s) (db_rv s).
Definition set_outbox (o : gmap string LogApplyAppliedOutboxRow) (s : SqliteState) : SqliteState :=
  mkDb (db_resources s) (db_namespaces s) (db_watch s) o (db_watermarks s) (db_cleanup s) (db_subnets s)
    (db_dataplane s) (db_meta s) (db_rv s).
Definition set_watermarks (w : gmap (string * Z) Z) (s : SqliteState) : SqliteState :=
  mkDb (db_resources s) (db_namespaces s) (db_watch s) (db_outbox s) w (db_cleanup s) (db_subnets s)
    (db_dataplane s) (db_meta s) (db_rv s).
Definition set_cleanup c (s : SqliteState) : SqliteState :=
  mkDb (db_resources s) (db_namespaces s) (db_watch s) (db_outbox s) (db_watermarks s) c (db_subnets s)
    (db_dataplane s) (db_meta s) (db_rv s).
Definition set_subnets n (s : SqliteState) : SqliteState :=
  mkDb (db_resources s) (db_namespaces s) (db_watch s) (db_outbox s) (db_watermarks s) (db_cleanup s) n
    (db_dataplane s) (db_meta s) (db_rv s).
Definition set_dataplane d (s : SqliteState) : SqliteState :=
  mkDb (db_resources s) (db_namespaces s) (db_watch s) (db_outbox s) (db_watermarks s) (db_cleanup s) (db_subnets s)
    d (db_meta s) (db_rv s).
Definition set_meta m (s : SqliteState) : SqliteState :=
  mkDb (db_resources s) (db_namespaces s) (db_watch s) (db_outbox s) (db_watermarks s) (db_cleanup s) (db_subnets s)
    (db_dataplane s) m (db_rv s).
Definition set_rv rv (s : SqliteState) : SqliteState :=
  mkDb (db_resources s) (db_namespaces s) (db_watch s) (db_outbox s) (db_watermarks s) (db_cleanup s) (db_subnets s)
    (db_dataplane s) (db_meta s) rv.

(** ** Watch history *)

(** [COALESCE(namespace, '#cluster')]. *)
Definition namespace_key (namespace : option string) : string := unwrap_or "#cluster" namespace.

Definition same_identity_rv (a b : EventRow) : bool :=
  (ev_api_version a =?s ev_api_version b) && (ev_kind a =?s ev_kind b)
  && (namespace_key (ev_namespace a) =?s namespace_key (ev_namespace b)) && (ev_name a =?s ev_name b)
  && (ev_resource_version a =? ev_resource_version b)%Z.

(** [COALESCE(MAX(id), 0)]. *)
Definition max_event_id (events : list (Z * EventRow)) : Z :=
  match events with [] => 0 | e :: events' => fold_right Z.max e.1 events'.*1 end.

Fixpoint insert_event (id : Z) (row : EventRow) (events : list (Z * EventRow)) : list (Z * EventRow) :=
  match events with
  | [] => [(id, row)]
  | (id', row') :: events' => if (id <? id')%Z then (id, row) :: events else (id', row') :: insert_event id row events'
  end.

(** The [INSERT], with the primary key checked before the unique index.  A hit of
    the unique index is benign when the stored row has the same type and data. *)
Definition insert_event_row (event_id : option Z) (row : EventRow) (w : WatchTables) : result DbError WatchTables :=
  let id := unwrap_or (Z.max (watch_seq w) (max_event_id (watch_events w)) + 1)%Z event_id in
  if (i64_max <? id)%Z then Err (SqliteError "database or disk is full")
  else if existsb (fun e => e.1 =? id)%Z (watch_events w) then Err (SqliteError "UNIQUE constraint failed: watch_events.id")
  else
    match List.find (fun e => same_identity_rv row e.2) (watch_events w) with
    | Some (_, existing) =>
        if (ev_type existing =?s ev_type row) && bool_decide (ev_data existing = ev_data row) then Ok w
        else Err (SqliteError "UNIQUE constraint failed: index 'idx_watch_events_identity_rv'")
    | None => Ok (mkWatchTables (insert_event id row (watch_events w)) (Z.max (watch_seq w) id) (watch_replay_floors w))
    end.

Definition insert_watch_event_in_conn (event_id : option Z) (canonicalize_object : bool) (row : EventRow)
    (s : SqliteState) : result DbError SqliteState :=
  let data := if canonicalize_object
              then hydrate_watch_event_data (ev_data row) (ev_api_version row) (ev_kind row) (ev_namespace row)
                     (ev_name row) (ev_resource_version row)
              else ev_data row in
  let? w := insert_event_row event_id
              (mkEventRow (ev_api_version row) (ev_kind row) (ev_namespace row) (ev_name row)
                 (ev_resource_version row) (ev_type row) data) (db_watch s) in
  Ok (set_watch w s).

Record StagedPostCommit := mkStaged {
  sp_api_version : string; sp_kind : string; sp_namespace : option string; sp_resource_version : Z
}.

Definition staged (row : EventRow) : StagedPostCommit :=
  mkStaged (ev_api_version row) (ev_kind row) (ev_namespace row) (ev_resource_version row).

Definition apply_put_watch_event (row : LogApplyWatchEventRow) (s : SqliteState)
    : result DbError (SqliteState * StagedPostCommit) :=
  let event := mkEventRow (wr_api_version row) (wr_kind row) (wr_namespace row) (wr_name row)
                 (wr_resource_version row) (wr_event_type row) (wr_data row) in
  let? s := insert_watch_event_in_conn (wr_event_id row) false event s in
  Ok (s, staged event).

(** *** Retention *)

Definition DEFAULT_MIN_WATCH_EVENTS_PER_SCOPE : Z := 1024.
Definition MIN_SCOPE_COUNT_BEFORE_EXPIRING_SCOPES : Z := 16.

Definition watch_events_min_scope_rows (max_rows : Z) : Z :=
  Z.min DEFAULT_MIN_WATCH_EVENTS_PER_SCOPE (Z.max 1 max_rows).

Definition watch_events_min_scope_rows_for_scope_count (max_rows scope_count : Z) : Z :=
  if (max_rows <=? 0)%Z || (scope_count <=? 0)%Z then 0%Z
  else
    let fair_share := (max_rows / scope_count)%Z in
    let dynamic_floor :=
      if (fair_share =? 0)%Z && (scope_count <=? MIN_SCOPE_COUNT_BEFORE_EXPIRING_SCOPES)%Z then 1%Z else fair_share in
    Z.min (watch_events_min_scope_rows max_rows) dynamic_floor.

Definition event_scope (row : EventRow) : ClusterKey :=
  (ev_api_version row, ev_kind row, namespace_key (ev_namespace row)).

Definition scope_count (events : list (Z * EventRow)) : Z :=
  Z.of_nat (length (remove_dups ((fun e => event_scope e.2) <$> events))).

(** [ROW_NUMBER() OVER (PARTITION BY scope ORDER BY id DESC)]. *)
Definition scope_rank (events : list (Z * EventRow)) (e : Z * EventRow) : Z :=
  Z.of_nat (length (filter (fun e' => bool_decide (event_scope e'.2 = event_scope e.2) && (e.1 <=? e'.1)%Z = true) events)).

(** [LIMIT n]: a negative limit is none. *)
Definition sql_limit {A} (n : Z) (l : list A) : list A := if (n <? 0)%Z then l else take (Z.to_nat n) l.

Definition gc_candidates (max_rows batch_cap min_scope_rows : Z) (events : list (Z * EventRow))
    : list (Z * EventRow) :=
  sql_limit batch_cap
    (filter (fun e => ((e.1 <=? max_event_id events - max_rows)%Z && (min_scope_rows <? scope_rank events e)%Z) = true)
       events).

Definition raise_floor (floors : gmap ClusterKey FloorRow) (e : Z * EventRow) : gmap ClusterKey FloorRow :=
  let key := event_scope e.2 in
  <[key := match floors !! key with
           | Some floor =>
               mkFloor (Z.max (fl_rv floor) (ev_resource_version e.2)) (Z.max (fl_event_id floor) e.1) true
           | None => mkFloor (ev_resource_version e.2) e.1 true
           end]> floors.

Definition gc_watch_events_in_tx (max_rows batch_cap : Z) (w : WatchTables) : WatchTables :=
  let min_scope_rows := watch_events_min_scope_rows_for_scope_count max_rows (scope_count (watch_events w)) in
  let candidates := gc_candidates max_rows batch_cap min_scope_rows (watch_events w) in
  mkWatchTables (filter (fun e => e.1 ∉ candidates.*1) (watch_events w)) (watch_seq w)
    (fold_left raise_floor candidates (watch_replay_floors w)).

Definition apply_gc_watch_events (max_rows batch_cap : Z) (s : SqliteState) : SqliteState :=
  set_watch (gc_watch_events_in_tx max_rows batch_cap (db_watch s)) s.

(** ** Resources *)

Inductive ResourceScope :=
| Namespaced (namespace : string)
| ClusterScope.

Record ResourceIdentity := mkIdentity {
  ri_api_version : string; ri_kind : string; ri_scope : ResourceScope; ri_name : string
}.

#[export] Instance ResourceScope_eq_dec : EqDecision ResourceScope.
Proof. solve_decision. Defined.
#[export] Instance ResourceIdentity_eq_dec : EqDecision ResourceIdentity.
Proof. solve_decision. Defined.

Definition identity_namespace (i : ResourceIdentity) : option string :=
  match ri_scope i with Namespaced namespace => Some namespace | ClusterScope => None end.

Definition index_namespace (i : ResourceIdentity) : string :=
  match ri_scope i with Namespaced namespace => namespace | ClusterScope => "" end.

Definition resource_identity (api_version kind : string) (namespace : option string) (name : string)
    : ResourceIdentity :=
  if use_namespaced_table api_version kind namespace
  then mkIdentity api_version kind (Namespaced (unwrap_or "default" namespace)) name
  else mkIdentity api_version kind ClusterScope name.

Definition ns_key (i : ResourceIdentity) (namespace : string) : NsKey := (ri_api_version i, ri_kind i, namespace, ri_name i).
Definition cluster_key (i : ResourceIdentity) : ClusterKey := (ri_api_version i, ri_kind i, ri_name i).
Definition index_key (i : ResourceIdentity) : NsKey := ns_key i (index_namespace i).

Definition get_existing_resource (i : ResourceIdentity) (t : ResourceTables) : option ResRow :=
  match ri_scope i with
  | Namespaced namespace => namespaced_resources t !! ns_key i namespace
  | ClusterScope => cluster_resources t !! cluster_key i
  end.

(** The rowid SQLite gives a new row of a table without [AUTOINCREMENT]. *)
Definition new_rowid {K} `{Countable K} (rows : gmap K ResRow) : Z :=
  (map_fold (fun _ row top => Z.max (rw_id row) top) 0 rows + 1)%Z.

(** [INSERT .. ON CONFLICT DO UPDATE]: an existing row keeps [id] and [created_rv]. *)
Definition upsert_row {K} `{Countable K} (key : K) (uid : string) (resource_version : Z) (data : Value)
    (rows : gmap K ResRow) : gmap K ResRow :=
  <[key := match rows !! key with
           | Some row => mkResRow (rw_id row) uid resource_version (rw_created_rv row) data
           | None => mkResRow (new_rowid rows) uid resource_version resource_version data
           end]> rows.

Definition upsert_resource (i : ResourceIdentity) (uid : string) (resource_version : Z) (data : Value)
    (t : ResourceTables) : ResourceTables :=
  match ri_scope i with
  | Namespaced namespace =>
      mkResTables (upsert_row (ns_key i namespace) uid resource_version data (namespaced_resources t))
        (cluster_resources t) (resource_labels t) (resource_fields t) (resource_owner_refs t)
  | ClusterScope =>
      mkResTables (namespaced_resources t)
        (upsert_row (cluster_key i) uid resource_version data (cluster_resources t)) (resource_labels t)
        (resource_fields t) (resource_owner_refs t)
  end.

Definition delete_resource_row (i : ResourceIdentity) (t : ResourceTables) : ResourceTables :=
  match ri_scope i with
  | Namespaced namespace =>
      mkResTables (delete (ns_key i namespace) (namespaced_resources t)) (cluster_resources t) (resource_labels t)
        (resource_fields t) (resource_owner_refs t)
  | ClusterScope =>
      mkResTables (namespaced_resources t) (delete (cluster_key i) (cluster_resources t)) (resource_labels t)
        (resource_fields t) (resource_owner_refs t)
  end.

(** *** Indexes *)

Definition delete_indexes (key : NsKey) (t : ResourceTables) : ResourceTables :=
  mkResTables (namespaced_resources t) (cluster_resources t) (delete key (resource_labels t))
    (delete key (resource_fields t)) (delete key (resource_owner_refs t)).

(** The rows of one resource; none is no entry. *)
Definition add_rows {A} (key : NsKey) (rows : list A) (m : gmap NsKey (list A)) : gmap NsKey (list A) :=
  match rows with
  | [] => m
  | _ => <[key := (unwrap_or [] (m !! key) ++ rows)%list]> m
  end.

Section Parameters.

Context (parse_from_rfc3339 : string -> option Z).
Context (float_to_string : Z -> string).
Context (merge : Value -> Value -> Value).

Definition insert_indexes (api_version kind : string) (key : NsKey) (data : Value) (t : ResourceTables)
    : ResourceTables :=
  mkResTables (namespaced_resources t) (cluster_resources t)
    (add_rows key (extract_labels data) (resource_labels t))
    (add_rows key (extract_fields float_to_string api_version kind data) (resource_fields t))
    (add_rows key (extract_owner_refs data) (resource_owner_refs t)).

Definition upsert_indexes (i : ResourceIdentity) (data : Value) (t : ResourceTables) : ResourceTables :=
  insert_indexes (ri_api_version i) (ri_kind i) (index_key i) data (delete_indexes (index_key i) t).

(** *** Normalising a put *)

Definition row_identity (row : LogApplyResourceRow) : ResourceIdentity :=
  resource_identity (rr_api_version row) (rr_kind row) (rr_namespace row) (rr_name row).

Definition validate_put_resource_apply_preconditions (row : LogApplyResourceRow) (existing : option ResRow)
    : result DbError unit :=
  match validate_apply_preconditions
          (mkApplyPreconditions (rr_require_absent row) (rr_require_existing row) (rr_precondition_uid row)
             (rr_precondition_resource_version row))
          ((fun e => mkCurrentResourceState (Some (rw_uid e)) (rw_resource_version e)) <$> existing) with
  | Ok _ => Ok tt
  | Err violation => Err (apply_precondition_error violation)
  end.

Definition set_row (uid : string) (precondition_rv : option Z) (data : Value) (row : LogApplyResourceRow)
    : LogApplyResourceRow :=
  mkResourceRow (rr_api_version row) (rr_kind row) (rr_namespace row) (rr_name row) uid (rr_resource_version row)
    data (rr_require_absent row) (rr_require_existing row) (rr_precondition_uid row) precondition_rv
    (rr_status_only row).

Definition hydrate_row (row : LogApplyResourceRow) (data : Value) : Value :=
  ensure_pod_status_ip_arrays
    (hydrate_watch_event_data data (rr_api_version row) (rr_kind row) (rr_namespace row) (rr_name row)
       (rr_resource_version row)) (rr_api_version row) (rr_kind row).

Definition merge_status_only_row_with_existing (row : LogApplyResourceRow) (existing : option ResRow)
    : result DbError LogApplyResourceRow :=
  if negb (rr_status_only row) then Ok row
  else
    match existing with
    | None => Ok row
    | Some e =>
        let freshness := freshness_of (rr_precondition_resource_version row) (rw_resource_version e) in
        let status :=
          merge_status_for_apply parse_from_rfc3339 (rr_api_version row) (rr_kind row) (rw_data e)
            (unwrap_or (Object []) (get "status" (rr_data row))) freshness ReplicatedApply in
        match rw_data e with
        | Object live =>
            let precondition_rv :=
              match freshness with
              | Stale => if rr_precondition_uid row =?os Some (rw_uid e) then None
                         else rr_precondition_resource_version row
              | Fresh => rr_precondition_resource_version row
              end in
            Ok (set_row (rw_uid e) precondition_rv (hydrate_row row (Object (obj_insert "status" status live))) row)
        | _ => Err (OtherError "status-only log_apply target is not a JSON object")
        end
    end.

Definition metadata_generation (data : Value) : option Z := v ← pointer ["metadata"; "generation"] data; as_i64 v.

Definition incoming_uid (row : LogApplyResourceRow) : option string :=
  or_else (metadata_uid (rr_data row)) (if is_empty (rr_uid row) then None else Some (rr_uid row)).

Definition preserve_newer_same_uid_row_on_stale_committed_put (row : LogApplyResourceRow) (existing : option ResRow)
    : LogApplyResourceRow :=
  if rr_status_only row then row
  else
    match rr_precondition_resource_version row, existing with
    | Some expected_rv, Some e =>
        if (rw_resource_version e <=? expected_rv)%Z then row
        else if negb (incoming_uid row =?os Some (rw_uid e)) then row
        else if has_deletion_timestamp (rw_data e) then row
        else
          match metadata_generation (rw_data e), metadata_generation (rr_data row) with
          | Some existing_generation, Some incoming_generation =>
              if (existing_generation <=? incoming_generation)%Z then row
              else set_row (rw_uid e) (Some expected_rv) (hydrate_row row (rw_data e)) row
          | _, _ => set_row (rw_uid e) (Some expected_rv) (hydrate_row row (rw_data e)) row
          end
    | _, _ => row
    end.

Definition pod_terminating_condition_time (data : Value) : option string :=
  conditions ← pointer_array ["status"; "conditions"] data;
  head (omap (fun condition =>
    let is_readiness := (get_str "type" condition =?os Some "Ready")
                        || (get_str "type" condition =?os Some "ContainersReady") in
    let is_false := get_str "status" condition =?os Some "False" in
    let is_terminating := get_str "reason" condition =?os Some "PodTerminating" in
    if is_readiness && is_false && is_terminating then get_str "lastTransitionTime" condition else None) conditions).

Definition deletion_timestamp_text (data : Value) : option string :=
  opt_filter non_blank_str (pointer_str ["metadata"; "deletionTimestamp"] data).

Definition deterministic_terminating_unready_timestamp (data existing : Value) : option string :=
  or_else (deletion_timestamp_text data)
    (or_else (deletion_timestamp_text existing)
       (or_else (pod_terminating_condition_time data) (pod_terminating_condition_time existing))).

Definition EPOCH : string := "1970-01-01T00:00:00Z".

Definition preserve_same_uid_server_metadata_from_existing (row : LogApplyResourceRow) (existing : option ResRow)
    : LogApplyResourceRow :=
  match existing with
  | None => row
  | Some e =>
      if negb (incoming_uid row =?os Some (rw_uid e)) then row
      else
        let existing_data := rw_data e in
        let data := preserve_server_metadata_fields_from_existing (rr_data row) existing_data in
        let data :=
          if is_some_and (rr_precondition_resource_version row) (fun expected => negb (expected =? rw_resource_version e)%Z)
          then apply_same_uid_stale_full_resource_policy (rr_api_version row) (rr_kind row) data existing_data
          else data in
        let data :=
          if is_pod (rr_api_version row) (rr_kind row) && has_deletion_timestamp existing_data
          then mark_terminating_pod_unready_at data
                 (unwrap_or EPOCH (deterministic_terminating_unready_timestamp data existing_data))
          else data in
        set_row (rr_uid row) (rr_precondition_resource_version row) data row
  end.

Definition normalize_committed_resource_for_apply (row : LogApplyResourceRow) (existing : option ResRow)
    : result DbError LogApplyResourceRow :=
  let? row := merge_status_only_row_with_existing row existing in
  let row := preserve_newer_same_uid_row_on_stale_committed_put row existing in
  Ok (preserve_same_uid_server_metadata_from_existing row existing).

(** *** Applying *)

(** [emit_watch_from_bytes]. *)
Definition emit_watch (emit_watch_events : bool) (i : ResourceIdentity) (resource_version : Z) (event_type : string)
    (data : Value) (s : SqliteState) : result DbError (SqliteState * option StagedPostCommit) :=
  if negb emit_watch_events then Ok (s, None)
  else
    let event := mkEventRow (ri_api_version i) (ri_kind i) (identity_namespace i) (ri_name i) resource_version
                   event_type data in
    let? s := insert_watch_event_in_conn None true event s in
    Ok (s, Some (staged event)).

Definition write_resource (i : ResourceIdentity) (uid : string) (resource_version : Z) (data : Value)
    (s : SqliteState) : SqliteState :=
  set_resources (upsert_indexes i data (upsert_resource i uid resource_version data (db_resources s))) s.

Definition apply_put_resource (row : LogApplyResourceRow) (emit_watch_events : bool) (s : SqliteState)
    : result DbError (SqliteState * option StagedPostCommit) :=
  let i := row_identity row in
  let existing := get_existing_resource i (db_resources s) in
  try? validate_put_resource_apply_preconditions row existing in
  let? row := normalize_committed_resource_for_apply row existing in
  let same := is_some_and existing (fun e =>
    (rw_resource_version e =? rr_resource_version row)%Z && bool_decide (rw_data e = rr_data row)) in
  match decide_resource_put (opt_is_some existing) same with
  | WriteNoOp => Ok (set_resources (upsert_indexes i (rr_data row) (db_resources s)) s, None)
  | Write event_type =>
      emit_watch emit_watch_events i (rr_resource_version row) (event_type_as_str event_type) (rr_data row)
        (write_resource i (rr_uid row) (rr_resource_version row) (rr_data row) s)
  end.

(** [apply_latest_patch_to_current_resource]. *)
Definition apply_latest_patch_to_current_resource (patch : LogApplyResourcePatch) (current : ResRow)
    (namespace : option string) : result DbError Value :=
  match validate_apply_preconditions
          (mkApplyPreconditions false false (rp_precondition_uid patch) (rp_precondition_resource_version patch))
          (Some (mkCurrentResourceState (Some (rw_uid current)) (rw_resource_version current))) with
  | Err violation => Err (apply_precondition_error violation)
  | Ok _ =>
      let pod_delete_mark := is_pod_delete_mark_patch (rp_api_version patch) (rp_kind patch) (rp_patch patch) in
      let effective_patch :=
        if pod_delete_mark then pod_delete_mark_patch_without_status (rp_patch patch) else rp_patch patch in
      let patched := match rp_patch_kind patch with Merge => merge (rw_data current) effective_patch end in
      let patched :=
        if pod_delete_mark
        then mark_terminating_pod_unready_at patched
               (unwrap_or EPOCH
                  (or_else (rp_terminating_pod_unready_timestamp patch)
                     (or_else (pod_delete_mark_transition_time (rp_patch patch))
                        (deterministic_terminating_unready_timestamp patched (rw_data current)))))
        else patched in
      match validate_metadata_uid_immutable patched (rw_data current) with
      | Err message => Err (SqliteError message)
      | Ok _ =>
          let patched := ensure_metadata_identity patched namespace (rp_name patch) in
          let patched := preserve_server_metadata_fields_from_existing patched (rw_data current) in
          let patched := ensure_resource_type_meta patched (rp_api_version patch) (rp_kind patch) in
          let patched :=
            if opt_is_none (metadata_uid patched)
            then get_mut "metadata" (map_object (obj_insert "uid" (Str (rw_uid current)))) patched else patched in
          let patched :=
            hydrate_watch_event_data patched (rp_api_version patch) (rp_kind patch) namespace (rp_name patch)
              (rp_resource_version patch) in
          Ok (ensure_pod_status_ip_arrays patched (rp_api_version patch) (rp_kind patch))
      end
  end.

Definition apply_patch_resource_latest (patch : LogApplyResourcePatch) (emit_watch_events : bool) (s : SqliteState)
    : result DbError (SqliteState * option StagedPostCommit) :=
  let i := resource_identity (rp_api_version patch) (rp_kind patch) (rp_namespace patch) (rp_name patch) in
  match get_existing_resource i (db_resources s) with
  | None =>
      if rp_require_existing patch then Err (Conflict CodeNotFound "Resource not found (404 Not Found)")
      else Ok (s, None)
  | Some current =>
      let? patched_data := apply_latest_patch_to_current_resource patch current (identity_namespace i) in
      emit_watch emit_watch_events i (rp_resource_version patch) "MODIFIED" patched_data
        (write_resource i (rw_uid current) (rp_resource_version patch) patched_data s)
  end.

Definition apply_delete_resource (resource_version : Z) (key : LogApplyResourceKey) (emit_watch_events : bool)
    (s : SqliteState) : result DbError (SqliteState * option StagedPostCommit) :=
  let i := resource_identity (rk_api_version key) (rk_kind key) (rk_namespace key) (rk_name key) in
  match get_existing_resource i (db_resources s) with
  | None => Ok (s, None)
  | Some current =>
      let requested_uid := if is_empty (rk_uid key) then None else Some (rk_uid key) in
      match decide_resource_delete requested_uid (rk_precondition_resource_version key)
              (Some (mkCurrentResourceState (Some (rw_uid current)) (rw_resource_version current))) with
      | Err violation => Err (apply_precondition_error violation)
      | Ok DeleteNoOp => Ok (s, None)
      | Ok (Delete event_type) =>
          emit_watch emit_watch_events i resource_version (event_type_as_str event_type) (rw_data current)
            (set_resources (delete_indexes (index_key i) (delete_resource_row i (db_resources s))) s)
      end
  end.

(** [resolve_noop_put_resource_in_tx]: [None] when the put changes nothing. *)
Definition resolve_noop_put_resource_in_tx (row : LogApplyResourceRow) (s : SqliteState)
    : result DbError (option LogApplyResourceRow) :=
  match get_existing_resource (row_identity row) (db_resources s) with
  | None => Ok (Some row)
  | Some e =>
      let existing_data := clear_metadata_resource_version (rw_data e) in
      if negb (value_eqb (rr_data row) existing_data) then Ok (Some row)
      else
        try? validate_put_resource_apply_preconditions row (Some e) in
        let? normalized := normalize_committed_resource_for_apply row (Some e) in
        if value_eqb (clear_metadata_resource_version (rr_data normalized)) existing_data then Ok None
        else Ok (Some row)
  end.

(** ** Namespaces *)

Definition namespace_event (name : string) (resource_version : Z) (event_type : string) (data : Value) : EventRow :=
  mkEventRow "v1" "Namespace" None name resource_version event_type data.

Definition put_namespace_row (row : LogApplyNamespaceRow) (emit_watch_events : bool) (s : SqliteState)
    : result DbError (SqliteState * option StagedPostCommit) :=
  let existing := db_namespaces s !! nr_name row in
  if is_some_and existing (fun e =>
       (ns_resource_version e =? nr_resource_version row)%Z && bool_decide (ns_data e = nr_data row))
  then Ok (s, None)
  else
    let s := set_namespaces
               (<[nr_name row := mkNsRow (nr_uid row) (nr_resource_version row) (nr_data row)]> (db_namespaces s)) s in
    if negb emit_watch_events then Ok (s, None)
    else
      let event := namespace_event (nr_name row) (nr_resource_version row)
                     (if opt_is_some existing then "MODIFIED" else "ADDED") (nr_data row) in
      let? s := insert_watch_event_in_conn None true event s in
      Ok (s, Some (staged event)).

Definition delete_namespace_row (resource_version : Z) (name : string) (emit_watch_events : bool) (s : SqliteState)
    : result DbError (SqliteState * option StagedPostCommit) :=
  match db_namespaces s !! name with
  | None => Ok (s, None)
  | Some e =>
      let s := set_namespaces (delete name (db_namespaces s)) s in
      if negb emit_watch_events then Ok (s, None)
      else
        let event := namespace_event name resource_version "DELETED" (ns_data e) in
        let? s := insert_watch_event_in_conn None true event s in
        Ok (s, Some (staged event))
  end.

(** The row of a resource other than a Pod in the namespace. *)
Definition is_content (name : string) (key : NsKey) : bool :=
  let '(_, kind, namespace, _) := key in (namespace =?s name) && negb (kind =?s "Pod").

(** Delete the rows, then their index entries. *)
Definition delete_namespace_contents_rows (name : string) (t : ResourceTables) : ResourceTables :=
  let rows := filter (fun e => is_content name e.1 = true) (map_to_list (namespaced_resources t)) in
  let t := mkResTables (filter (fun e => is_content name e.1 = false) (namespaced_resources t)) (cluster_resources t)
             (resource_labels t) (resource_fields t) (resource_owner_refs t) in
  fold_left (fun t e => delete_indexes e.1 t) rows t.

(** ** Ledger, cleanup intents, network, metadata *)

Definition put_applied_outbox (row : LogApplyAppliedOutboxRow) (s : SqliteState) : SqliteState :=
  set_outbox (<[or_idempotency_key row := row]> (db_outbox s)) s.

Definition delete_applied_outbox (idempotency_key : string) (s : SqliteState) : SqliteState :=
  set_outbox (delete idempotency_key (db_outbox s)) s.

Definition gc_applied_outbox_rows (cutoff_ms : Z) (s : SqliteState) : SqliteState :=
  set_outbox (filter (fun e => negb (or_first_seen_ms e.2 <? cutoff_ms)%Z = true) (db_outbox s)) s.

Definition put_pod_cleanup_intent (row : LogApplyPodCleanupIntentRow) (s : SqliteState) : SqliteState :=
  set_cleanup (<[(cr_node_name row, cr_namespace row, cr_pod_name row, cr_pod_uid row, cr_reason row)
                 := mkCleanup (cr_resource_version row) (cr_created_at_ms row) (cr_pod_data row)]> (db_cleanup s)) s.

Definition delete_pod_cleanup_intent (key : LogApplyPodCleanupIntentKey) (s : SqliteState) : SqliteState :=
  set_cleanup (delete (ck_node_name key, ck_namespace key, ck_pod_name key, ck_pod_uid key, ck_reason key)
                 (db_cleanup s)) s.

Definition delete_pod_cleanup_intents_for_node (node_name : string) (s : SqliteState) : SqliteState :=
  set_cleanup (filter (fun e => let '(node, _, _, _, _) := e.1 in negb (node =?s node_name) = true) (db_cleanup s)) s.

Definition subnet_error (e : SubnetError) : DbError :=
  match e with
  | SubnetOther message => OtherError message
  | SubnetUnique => SqliteError "UNIQUE constraint failed: node_subnets.subnet"
  | SubnetExhausted => SqliteError "Query returned no rows"
  | SubnetPanic => Panicked
  end.

Definition with_subnets (r : result SubnetError SubnetTable) (s : SqliteState) : result DbError SqliteState :=
  match r with Ok t => Ok (set_subnets t s) | Err e => Err (subnet_error e) end.

(** Under the [CHECK] constraints of the table. *)
Definition put_node_dataplane (row : LogApplyNodeDataplaneRow) (s : SqliteState) : result DbError SqliteState :=
  if ((dr_mode row =?s "root") || (dr_mode row =?s "rootless"))
     && ((dr_encryption row =?s "enabled") || (dr_encryption row =?s "disabled"))
  then Ok (set_dataplane (<[dr_node_name row := row]> (db_dataplane s)) s)
  else Err (SqliteError "CHECK constraint failed").

(** ** Dispatch *)

(** The effects push of [apply_cluster_mutation]. *)
Definition push_effect (effects : list StagedPostCommit) (r : result DbError (SqliteState * option StagedPostCommit))
    : result DbError (SqliteState * list StagedPostCommit) :=
  let? out := r in Ok (out.1, effects ++ option_list out.2)%list.

Definition silent (effects : list StagedPostCommit) (s : SqliteState)
    : result DbError (SqliteState * list StagedPostCommit) := Ok (s, effects).

Definition apply_cluster_mutation (commit_resource_version : Z) (mutation : ClusterMutation) (emit_watch_events : bool)
    (st : SqliteState * list StagedPostCommit) : result DbError (SqliteState * list StagedPostCommit) :=
  let '(s, effects) := st in
  match mutation with
  | FResource (RPutResource row) =>
      if negb (rr_resource_version row =? commit_resource_version)%Z
      then Err (OtherError "resource row RV does not match commit RV")
      else push_effect effects (apply_put_resource row emit_watch_events s)
  | FResource (RPatchResourceLatest patch) =>
      if negb (rp_resource_version patch =? commit_resource_version)%Z
      then Err (OtherError "resource patch RV does not match commit RV")
      else push_effect effects (apply_patch_resource_latest patch emit_watch_events s)
  | FResource (RDeleteResource key) =>
      push_effect effects (apply_delete_resource commit_resource_version key emit_watch_events s)
  | FResource (RFinalizeBoundPod _) =>
      Err (OtherError "bound Pod finalization was not resolved before state-machine apply")
  | FNamespace (NPutNamespace row) =>
      if negb (nr_resource_version row =? commit_resource_version)%Z
      then Err (OtherError "namespace row RV does not match commit RV")
      else push_effect effects (put_namespace_row row emit_watch_events s)
  | FNamespace (NDeleteNamespace name) =>
      push_effect effects (delete_namespace_row commit_resource_version name emit_watch_events s)
  | FNamespace (NDeleteNamespaceContents name) =>
      silent effects (set_resources (delete_namespace_contents_rows name (db_resources s)) s)
  | FWatchHistory (WPutWatchEvent row) =>
      let? out := apply_put_watch_event row s in Ok (out.1, effects ++ [out.2])%list
  | FWatchHistory (WGcWatchEvents max_rows batch_cap) => silent effects (apply_gc_watch_events max_rows batch_cap s)
  | FNetwork (NwPutNodeSubnet row) =>
      let? s := with_subnets (put_node_subnet row (db_subnets s)) s in silent effects s
  | FNetwork (NwAllocateNodeSubnet allocation) =>
      let? s := with_subnets (allocate_node_subnet allocation (db_subnets s)) s in silent effects s
  | FNetwork (NwDeleteNodeSubnet node_name) =>
      silent effects (set_subnets (NodeSubnets.delete_node_subnet node_name (db_subnets s)) s)
  | FNetwork (NwPutNodeDataplane row) => let? s := put_node_dataplane row s in silent effects s
  | FNetwork (NwDeleteNodeDataplane node_name) =>
      silent effects (set_dataplane (delete node_name (db_dataplane s)) s)
  | FOutboxLedger (OPutAppliedOutbox row) => silent effects (put_applied_outbox row s)
  | FOutboxLedger (ODeleteAppliedOutbox key) => silent effects (delete_applied_outbox key s)
  | FOutboxLedger (OGcAppliedOutbox cutoff_ms _) => silent effects (gc_applied_outbox_rows cutoff_ms s)
  | FClusterMeta (MAdvanceResourceVersion _) => silent effects s
  | FClusterMeta (MPutKlightsMeta key value) => silent effects (set_meta (<[key := value]> (db_meta s)) s)
  | FPodCleanup (CPutPodCleanupIntent row) =>
      if negb (cr_resource_version row =? commit_resource_version)%Z
      then Err (OtherError "pod cleanup intent RV does not match commit RV")
      else silent effects (put_pod_cleanup_intent row s)
  | FPodCleanup (CDeletePodCleanupIntent key) => silent effects (delete_pod_cleanup_intent key s)
  | FPodCleanup (CDeletePodCleanupIntentsForNode node_name) =>
      silent effects (delete_pod_cleanup_intents_for_node node_name s)
  end.

(** The loop over the mutations of a commit. *)
Fixpoint apply_mutations (commit_resource_version : Z) (emit_watch_events : bool) (mutations : list LogApplyMutation)
    (st : SqliteState * list StagedPostCommit) : result DbError (SqliteState * list StagedPostCommit) :=
  match mutations with
  | [] => Ok st
  | mutation :: mutations' =>
      let? st := apply_cluster_mutation commit_resource_version (to_cluster_mutation mutation) emit_watch_events st in
      apply_mutations commit_resource_version emit_watch_events mutations' st
  end.

(** ** The indexes are exact *)

Definition rows_at {A} (key : NsKey) (m : gmap NsKey (list A)) : list A := unwrap_or [] (m !! key).

(** The body an index key stands for: a cluster-scoped resource has the empty
    namespace there. *)
Definition body_at (key : NsKey) (t : ResourceTables) : option Value :=
  let '(api_version, kind, namespace, name) := key in
  rw_data <$> if is_empty namespace then cluster_resources t !! (api_version, kind, name)
              else namespaced_resources t !! key.

Definition exact_for {A} (extract : string -> string -> Value -> list A) (m : gmap NsKey (list A))
    (t : ResourceTables) : Prop :=
  forall api_version kind namespace name,
    rows_at (api_version, kind, namespace, name) m
    = match body_at (api_version, kind, namespace, name) t with
      | Some data => extract api_version kind data
      | None => []
      end.

Record index_ok (t : ResourceTables) : Prop := {
  labels_exact : exact_for (fun _ _ => extract_labels) (resource_labels t) t;
  fields_exact : exact_for (extract_fields float_to_string) (resource_fields t) t;
  owners_exact : exact_for (fun _ _ => extract_owner_refs) (resource_owner_refs t) t;
  namespaces_named : forall api_version kind name, namespaced_resources t !! (api_version, kind, "", name) = None
}.

Definition scope_ok (i : ResourceIdentity) : Prop :=
  match ri_scope i with Namespaced namespace => namespace <> "" | ClusterScope => True end.

Lemma is_empty_false s : s <> "" -> is_empty s = false.
Proof. by destruct s. Qed.

Lemma rows_at_add {A} (key k : NsKey) (rows : list A) m :
  rows_at k (add_rows key rows (delete key m)) = if decide (k = key) then rows else rows_at k m.
Proof.
  unfold rows_at, add_rows. destruct (decide (k = key)) as [->|Hne].
  - destruct rows; [by rewrite lookup_delete_eq|]. by rewrite lookup_insert_eq, lookup_delete_eq.
  - destruct rows; [by rewrite lookup_delete_ne|]. by rewrite lookup_insert_ne, lookup_delete_ne.
Qed.

Lemma rows_at_delete {A} (key k : NsKey) (m : gmap NsKey (list A)) :
  rows_at k (delete key m) = if decide (k = key) then [] else rows_at k m.
Proof.
  unfold rows_at. destruct (decide (k = key)) as [->|Hne]; [by rewrite lookup_delete_eq|by rewrite lookup_delete_ne].
Qed.

Lemma body_at_upsert i uid rv data t key :
  scope_ok i ->
  body_at key (upsert_resource i uid rv data t) = if decide (key = index_key i) then Some data else body_at key t.
Proof.
  intros Hs. destruct i as [av kd [ns|] nm], key as [[[av' kd'] ns'] nm'];
    unfold upsert_resource, upsert_row, body_at, index_key, ns_key, cluster_key, index_namespace in *;
    cbn [ri_scope ri_api_version ri_kind ri_name namespaced_resources cluster_resources] in *.
  - destruct (decide _) as [[= -> -> -> ->]|Hne].
    + rewrite is_empty_false, lookup_insert_eq by done. by destruct (_ !! _).
    + destruct (is_empty ns'); [done|]. by rewrite lookup_insert_ne.
  - destruct (decide _) as [[= -> -> -> ->]|Hne]; cbn [is_empty].
    + rewrite lookup_insert_eq. by destruct (_ !! _).
    + destruct ns'; cbn [is_empty]; [|done]. rewrite lookup_insert_ne; [done|]. congruence.
Qed.

Lemma body_at_delete i t key :
  scope_ok i -> body_at key (delete_resource_row i t) = if decide (key = index_key i) then None else body_at key t.
Proof.
  intros Hs. destruct i as [av kd [ns|] nm], key as [[[av' kd'] ns'] nm'];
    unfold delete_resource_row, body_at, index_key, ns_key, cluster_key, index_namespace in *;
    cbn [ri_scope ri_api_version ri_kind ri_name namespaced_resources cluster_resources] in *.
  - destruct (decide _) as [[= -> -> -> ->]|Hne].
    + by rewrite is_empty_false, lookup_delete_eq.
    + destruct (is_empty ns'); [done|]. by rewrite lookup_delete_ne.
  - destruct (decide _) as [[= -> -> -> ->]|Hne]; cbn [is_empty].
    + by rewrite lookup_delete_eq.
    + destruct ns'; cbn [is_empty]; [|done]. rewrite lookup_delete_ne; [done|]. congruence.
Qed.

Lemma exact_for_write {A} (extract : string -> string -> Value -> list A) m i uid rv data t t' :
  scope_ok i -> exact_for extract m t ->
  (forall key, body_at key t' = body_at key (upsert_resource i uid rv data t)) ->
  exact_for extract
    (add_rows (index_key i) (extract (ri_api_version i) (ri_kind i) data) (delete (index_key i) m)) t'.
Proof.
  intros Hs Hm Ht' av kd ns nm. rewrite rows_at_add, Ht', body_at_upsert by done.
  destruct (decide _) as [Heq|Hne]; [|apply Hm]. unfold index_key, ns_key in Heq. by injection Heq as -> -> _ _.
Qed.

Lemma exact_for_delete {A} (extract : string -> string -> Value -> list A) m i t t' :
  scope_ok i -> exact_for extract m t -> (forall key, body_at key t' = body_at key (delete_resource_row i t)) ->
  exact_for extract (delete (index_key i) m) t'.
Proof.
  intros Hs Hm Ht' av kd ns nm. rewrite rows_at_delete, Ht', body_at_delete by done.
  destruct (decide _); [done|apply Hm].
Qed.

Lemma index_ok_write i uid rv data t :
  scope_ok i -> index_ok t -> index_ok (upsert_indexes i data (upsert_resource i uid rv data t)).
Proof.
  intros Hs [Hl Hf Ho Hn]. unfold upsert_indexes, insert_indexes, delete_indexes.
  assert (Hsame : forall t0, resource_labels (upsert_resource i uid rv data t0) = resource_labels t0
    /\ resource_fields (upsert_resource i uid rv data t0) = resource_fields t0
    /\ resource_owner_refs (upsert_resource i uid rv data t0) = resource_owner_refs t0)
    by (intros t0; unfold upsert_resource; by destruct (ri_scope i)).
  destruct (Hsame t) as (-> & -> & ->). split; cbn.
  - by eapply (exact_for_write (fun _ _ => extract_labels)).
  - by eapply exact_for_write.
  - by eapply (exact_for_write (fun _ _ => extract_owner_refs)).
  - intros av kd nm. unfold upsert_resource, upsert_row. destruct i as [av' kd' [ns|] nm']; cbn; [|apply Hn].
    rewrite lookup_insert_ne; [apply Hn|]. unfold scope_ok in Hs. cbn in Hs. unfold ns_key. cbn. congruence.
Qed.

Lemma index_ok_delete i t :
  scope_ok i -> index_ok t -> index_ok (delete_indexes (index_key i) (delete_resource_row i t)).
Proof.
  intros Hs [Hl Hf Ho Hn].
  assert (Hsame : forall t0, resource_labels (delete_resource_row i t0) = resource_labels t0
    /\ resource_fields (delete_resource_row i t0) = resource_fields t0
    /\ resource_owner_refs (delete_resource_row i t0) = resource_owner_refs t0)
    by (intros t0; unfold delete_resource_row; by destruct (ri_scope i)).
  unfold delete_indexes. destruct (Hsame t) as (-> & -> & ->). split; cbn.
  - by eapply (exact_for_delete (fun _ _ => extract_labels)).
  - by eapply exact_for_delete.
  - by eapply (exact_for_delete (fun _ _ => extract_owner_refs)).
  - intros av kd nm. unfold delete_resource_row. destruct (ri_scope i); cbn; [|apply Hn].
    apply lookup_delete_None. right. apply Hn.
Qed.

Lemma existing_body i t e :
  scope_ok i -> get_existing_resource i t = Some e -> body_at (index_key i) t = Some (rw_data e).
Proof.
  destruct i as [av kd [ns|] nm]; unfold scope_ok, get_existing_resource, body_at, index_key, ns_key, cluster_key; cbn; intros Hs He.
  - by rewrite is_empty_false, He.
  - by rewrite He.
Qed.

Lemma existing_scope i t e : index_ok t -> get_existing_resource i t = Some e -> scope_ok i.
Proof.
  intros Hok. destruct i as [av kd [ns|] nm]; unfold scope_ok, get_existing_resource, ns_key; cbn; [|done].
  intros He ->. by rewrite (namespaces_named t Hok) in He.
Qed.

Lemma index_ok_refresh i e t :
  scope_ok i -> index_ok t -> get_existing_resource i t = Some e -> index_ok (upsert_indexes i (rw_data e) t).
Proof.
  intros Hs [Hl Hf Ho Hn] He. unfold upsert_indexes, insert_indexes, delete_indexes.
  assert (Hbody : forall key, body_at key t = body_at key (upsert_resource i "" 0 (rw_data e) t)).
  { intros key. rewrite body_at_upsert by done. destruct (decide _) as [->|]; [|done]. by apply existing_body. }
  split; cbn; [by eapply (exact_for_write (fun _ _ => extract_labels))|by eapply exact_for_write| |done].
  by eapply (exact_for_write (fun _ _ => extract_owner_refs)).
Qed.

Lemma identity_scope api_version kind namespace name :
  namespace <> Some "" -> scope_ok (resource_identity api_version kind namespace name).
Proof.
  intros Hns. unfold resource_identity, scope_ok. destruct (use_namespaced_table _ _ _); cbn; [|done].
  destruct namespace as [ns|]; [|done]. cbn. congruence.
Qed.

(** *** Deleting the contents of a namespace *)

Lemma delete_all_indexes {A} (rows : list (NsKey * A)) t k :
  let t' := fold_left (fun t e => delete_indexes e.1 t) rows t in
  namespaced_resources t' = namespaced_resources t /\ cluster_resources t' = cluster_resources t
  /\ rows_at k (resource_labels t') = (if bool_decide (k ∈ rows.*1) then [] else rows_at k (resource_labels t))
  /\ rows_at k (resource_fields t') = (if bool_decide (k ∈ rows.*1) then [] else rows_at k (resource_fields t))
  /\ rows_at k (resource_owner_refs t')
     = (if bool_decide (k ∈ rows.*1) then [] else rows_at k (resource_owner_refs t)).
Proof.
  revert t. induction rows as [|[key a] rows IH]; intros t; [done|]. cbn [fold_left fst fmap list_fmap].
  destruct (IH (delete_indexes key t)) as (-> & -> & -> & -> & ->). cbn. rewrite !rows_at_delete.
  repeat split; (destruct (decide (k = key)) as [->|Hne];
    [by rewrite (bool_decide_eq_true_2 (key ∈ key :: _)) by (by left); case_bool_decide|]);
    rewrite (bool_decide_ext (k ∈ key :: rows.*1) (k ∈ rows.*1)); try done; rewrite elem_of_cons; naive_solver.
Qed.

Lemma index_ok_contents name t : index_ok t -> index_ok (delete_namespace_contents_rows name t).
Proof.
  intros [Hl Hf Ho Hn]. unfold delete_namespace_contents_rows.
  set (rows := filter _ (map_to_list _)). set (t0 := mkResTables _ _ _ _ _).
  assert (Hlisted : forall key, key ∈ rows.*1 <-> is_content name key = true /\ is_Some (namespaced_resources t !! key)).
  { intros key. unfold rows. rewrite list_elem_of_fmap. split.
    - intros ([key' row] & -> & [Hc Hin]%list_elem_of_filter). apply elem_of_map_to_list in Hin. cbn in *. eauto.
    - intros [Hc [row Hrow]]. exists (key, row). rewrite list_elem_of_filter, elem_of_map_to_list. done. }
  assert (Hbody : forall key, body_at key t0 = if bool_decide (key ∈ rows.*1) then None else body_at key t).
  { intros [[[av kd] ns] nm]. unfold body_at, t0. cbn [namespaced_resources cluster_resources].
    destruct (is_empty ns) eqn:Hns.
    - destruct ns; [|done]. case_bool_decide as Hin; [|done]. apply Hlisted in Hin as [_ [row Hrow]]. by rewrite Hn in Hrow.
    - rewrite map_lookup_filter. case_bool_decide as Hin.
      + apply Hlisted in Hin as [Hc [row Hrow]]. rewrite Hrow. cbn. rewrite option_guard_False; [done|]. cbn in Hc |- *. congruence.
      + destruct (namespaced_resources t !! _) as [row|] eqn:Hrow; [|done]. cbn [mbind option_bind].
        rewrite option_guard_True; [done|]. cbn [fst]. destruct (is_content name (av, kd, ns, nm)) eqn:Hc; [|done].
        destruct Hin. apply Hlisted. eauto. }
  pose proof (delete_all_indexes rows t0) as Hall. cbn zeta in Hall.
  set (t' := fold_left _ rows t0) in *.
  assert (Hbody' : forall key, body_at key t' = body_at key t0).
  { intros [[[av kd] ns] nm]. unfold body_at. destruct (Hall (av, kd, ns, nm)) as (-> & -> & _). done. }
  split.
  1-3: intros av kd ns nm; destruct (Hall (av, kd, ns, nm)) as (_ & _ & H1 & H2 & H3);
    rewrite ?H1, ?H2, ?H3, Hbody', Hbody; unfold t0; cbn [resource_labels resource_fields resource_owner_refs];
    case_bool_decide; [done|]; auto.
  intros av kd nm. destruct (Hall (av, kd, "", nm)) as (-> & _). unfold t0. cbn. rewrite map_lookup_filter, Hn. done.
Qed.

(** *** Every mutation *)

Lemma set_watch_same s : set_watch (db_watch s) s = s.
Proof. by destruct s. Qed.

Lemma insert_watch_frame event_id canonicalize row s s' :
  insert_watch_event_in_conn event_id canonicalize row s = Ok s' -> exists w, s' = set_watch w s.
Proof. unfold insert_watch_event_in_conn. destruct (insert_event_row _ _ _); [|done]. intros [= <-]. eauto. Qed.

Lemma emit_watch_frame emit i rv event_type data s out :
  emit_watch emit i rv event_type data s = Ok out -> exists w, out.1 = set_watch w s.
Proof.
  unfold emit_watch. destruct emit; cbn [negb].
  - destruct (insert_watch_event_in_conn _ _ _ _) as [s'|] eqn:Hi; [|done]. cbn. intros [= <-].
    by eapply insert_watch_frame.
  - intros [= <-]. exists (db_watch s). by rewrite set_watch_same.
Qed.

(** A mutation that names a namespace names a non-empty one. *)
Definition named (mutation : LogApplyMutation) : Prop :=
  match mutation with PutResource row => rr_namespace row <> Some "" | _ => True end.

Lemma put_index row emit s out :
  rr_namespace row <> Some "" -> index_ok (db_resources s) -> apply_put_resource row emit s = Ok out ->
  index_ok (db_resources out.1).
Proof.
  intros Hns Hok. unfold apply_put_resource. pose proof (identity_scope (rr_api_version row) (rr_kind row) _ (rr_name row) Hns) as Hs.
  fold (row_identity row) in Hs. set (i := row_identity row) in *.
  destruct (validate_put_resource_apply_preconditions _ _); [|done]. cbn [result_bind].
  destruct (normalize_committed_resource_for_apply _ _) as [row'|]; [|done]. cbn [result_bind].
  unfold decide_resource_put. destruct (get_existing_resource i (db_resources s)) as [e|] eqn:He; cbn [opt_is_some is_some_and andb].
  - destruct (_ && bool_decide _) eqn:Hsame.
    + intros [= <-]. cbn. apply andb_true_iff in Hsame as [_ <-%bool_decide_eq_true]. by apply index_ok_refresh.
    + intros (w & ->)%emit_watch_frame. cbn. by apply index_ok_write.
  - intros (w & ->)%emit_watch_frame. cbn. by apply index_ok_write.
Qed.

Lemma patch_index patch emit s out :
  index_ok (db_resources s) -> apply_patch_resource_latest patch emit s = Ok out -> index_ok (db_resources out.1).
Proof.
  intros Hok. unfold apply_patch_resource_latest. set (i := resource_identity _ _ _ _).
  destruct (get_existing_resource i (db_resources s)) as [e|] eqn:He.
  - destruct (apply_latest_patch_to_current_resource _ _ _) as [data|]; [|done]. cbn [result_bind].
    intros (w & ->)%emit_watch_frame. cbn. apply index_ok_write; [|done]. by eapply existing_scope.
  - destruct (rp_require_existing patch); [done|]. by intros [= <-].
Qed.

Lemma delete_index rv key emit s out :
  index_ok (db_resources s) -> apply_delete_resource rv key emit s = Ok out -> index_ok (db_resources out.1).
Proof.
  intros Hok. unfold apply_delete_resource. set (i := resource_identity _ _ _ _).
  destruct (get_existing_resource i (db_resources s)) as [e|] eqn:He; [|by intros [= <-]].
  destruct (decide_resource_delete _ _ _) as [[|event_type]|]; [by intros [= <-]| |done].
  intros (w & ->)%emit_watch_frame. cbn. apply index_ok_delete; [|done]. by eapply existing_scope.
Qed.

(** The result of an operation that leaves the resource tables alone. *)
Lemma namespace_put_frame row emit s out :
  put_namespace_row row emit s = Ok out -> db_resources out.1 = db_resources s.
Proof.
  unfold put_namespace_row. destruct (is_some_and _ _); [by intros [= <-]|]. destruct emit; cbn [negb]; [|by intros [= <-]].
  destruct (insert_watch_event_in_conn _ _ _ _) as [s'|] eqn:Hi; [|done]. cbn. intros [= <-].
  apply insert_watch_frame in Hi as [w ->]. done.
Qed.

Lemma namespace_delete_frame rv name emit s out :
  delete_namespace_row rv name emit s = Ok out -> db_resources out.1 = db_resources s.
Proof.
  unfold delete_namespace_row. destruct (_ !! name); [|by intros [= <-]]. destruct emit; cbn [negb]; [|by intros [= <-]].
  destruct (insert_watch_event_in_conn _ _ _ _) as [s'|] eqn:Hi; [|done]. cbn. intros [= <-].
  apply insert_watch_frame in Hi as [w ->]. done.
Qed.

Lemma push_effect_ok effects r st :
  push_effect effects r = Ok st -> exists out, r = Ok out /\ st.1 = out.1.
Proof. unfold push_effect. destruct r as [out|]; [|done]. cbn. intros [= <-]. eauto. Qed.

Lemma with_subnets_ok r s s' : with_subnets r s = Ok s' -> exists t, s' = set_subnets t s.
Proof. unfold with_subnets. destruct r; [|done]. intros [= <-]. eauto. Qed.

Lemma mutation_index rv m emit s effects st :
  named m -> index_ok (db_resources s) ->
  apply_cluster_mutation rv (to_cluster_mutation m) emit (s, effects) = Ok st -> index_ok (db_resources st.1).
Proof.
  intros Hm Hok. destruct m; cbn [to_cluster_mutation apply_cluster_mutation]; unfold silent.
  all: try (intros [= <-]; done).
  all: try (destruct (negb _); [done|]).
  all: try (intros (out & Hr & ->)%push_effect_ok).
  - by eapply put_index.
  - by eapply patch_index.
  - by eapply delete_index.
  - by rewrite (namespace_put_frame _ _ _ _ Hr).
  - by rewrite (namespace_delete_frame _ _ _ _ _ Hr).
  - intros [= <-]. cbn. by apply index_ok_contents.
  - destruct (with_subnets _ _) as [s'|] eqn:Hw; [|done]. apply with_subnets_ok in Hw as [t ->]. by intros [= <-].
  - destruct (with_subnets _ _) as [s'|] eqn:Hw; [|done]. apply with_subnets_ok in Hw as [t ->]. by intros [= <-].
  - unfold put_node_dataplane. destruct (_ && _); [|done]. by intros [= <-].
  - unfold apply_put_watch_event. destruct (insert_watch_event_in_conn _ _ _ _) as [s'|] eqn:Hi; [|done].
    cbn. intros [= <-]. apply insert_watch_frame in Hi as [w ->]. done.
  - by intros [= <-].
Qed.

Lemma mutations_index rv emit ms st st' :
  Forall named ms -> index_ok (db_resources st.1) -> apply_mutations rv emit ms st = Ok st' ->
  index_ok (db_resources st'.1).
Proof.
  intros Hms. revert st. induction Hms as [|m ms Hm _ IH]; intros st Hok; cbn [apply_mutations]; [by intros [= <-]|].
  destruct (apply_cluster_mutation _ _ _ st) as [st1|] eqn:H1; [|done]. cbn [result_bind]. apply IH.
  destruct st as [s effects]. by eapply mutation_index.
Qed.

(** *** What a mutation writes *)

(** Every row of [m'] is a row of [m] or was written at [rv]. *)
Definition rows_fresh {K A} `{Countable K} (version : A -> Z) (rv : Z) (m m' : gmap K A) : Prop :=
  forall k row, m' !! k = Some row -> m !! k = Some row \/ version row = rv.

(** From [s] to [s'] the counter and the stream positions stay, and each new row
    of a resource, of a namespace or of the watch log carries [rv]. *)
Record writes (rv : Z) (s s' : SqliteState) : Prop := {
  writes_watermarks : db_watermarks s' = db_watermarks s;
  writes_rv : db_rv s' = db_rv s;
  writes_namespaced : rows_fresh rw_resource_version rv (namespaced_resources (db_resources s))
                        (namespaced_resources (db_resources s'));
  writes_cluster : rows_fresh rw_resource_version rv (cluster_resources (db_resources s))
                     (cluster_resources (db_resources s'));
  writes_namespaces : rows_fresh ns_resource_version rv (db_namespaces s) (db_namespaces s');
  writes_events : forall e, e ∈ watch_events (db_watch s') -> e ∈ watch_events (db_watch s) \/ ev_resource_version e.2 = rv
}.

Lemma rows_fresh_refl {K A} `{Countable K} (version : A -> Z) rv (m : gmap K A) : rows_fresh version rv m m.
Proof. by left. Qed.

Lemma rows_fresh_trans {K A} `{Countable K} (version : A -> Z) rv (m1 m2 m3 : gmap K A) :
  rows_fresh version rv m1 m2 -> rows_fresh version rv m2 m3 -> rows_fresh version rv m1 m3.
Proof. intros H1 H2 k row H3. destruct (H2 k row H3) as [H4|H4]; [|by right]. by apply H1. Qed.

Lemma rows_fresh_insert {K A} `{Countable K} (version : A -> Z) rv (m : gmap K A) k row :
  version row = rv -> rows_fresh version rv m (<[k := row]> m).
Proof. intros Hv k' row' [[<- <-]|[_ H']]%lookup_insert_Some; [by right|by left]. Qed.

Lemma rows_fresh_sub {K A} `{Countable K} (version : A -> Z) rv (m m' : gmap K A) :
  m' ⊆ m -> rows_fresh version rv m m'.
Proof. intros Hsub k row Hk. left. by eapply lookup_weaken. Qed.

Create HintDb writes.
#[local] Hint Resolve rows_fresh_refl rows_fresh_insert : writes.

Lemma writes_refl rv s : writes rv s s.
Proof. split; auto with writes. Qed.

Lemma writes_trans rv s1 s2 s3 : writes rv s1 s2 -> writes rv s2 s3 -> writes rv s1 s3.
Proof.
  intros [a1 b1 c1 d1 e1 f1] [a2 b2 c2 d2 e2 f2]. split; try congruence; try by eapply rows_fresh_trans.
  intros e [?|?]%f2; eauto.
Qed.

(** A step that leaves resources, namespaces and the log alone. *)
Lemma writes_other rv s s' :
  db_resources s' = db_resources s -> db_namespaces s' = db_namespaces s -> db_watch s' = db_watch s ->
  db_watermarks s' = db_watermarks s -> db_rv s' = db_rv s -> writes rv s s'.
Proof. intros Hr Hn Hw Hm Hv. split; rewrite ?Hr, ?Hn, ?Hw; auto with writes. Qed.

Lemma insert_event_elem id row events e : e ∈ insert_event id row events -> e = (id, row) \/ e ∈ events.
Proof.
  induction events as [|[id' row'] events IH]; cbn [insert_event].
  - intros ->%list_elem_of_singleton. by left.
  - destruct (id <? id')%Z; rewrite !elem_of_cons; clear -IH; [tauto|]. intros [?|?%IH]; tauto.
Qed.

Lemma insert_event_row_elem event_id row w w' e :
  insert_event_row event_id row w = Ok w' -> e ∈ watch_events w' -> e ∈ watch_events w \/ e.2 = row.
Proof.
  unfold insert_event_row. destruct (_ <? _)%Z; [done|]. destruct (existsb _ _); [done|].
  destruct (List.find _ _) as [[? existing]|].
  - destruct (_ && _); [|done]. intros [= <-]. by left.
  - intros [= <-] [->|?]%insert_event_elem; auto.
Qed.

Lemma writes_watch_insert rv event_id canonicalize row s s' :
  ev_resource_version row = rv -> insert_watch_event_in_conn event_id canonicalize row s = Ok s' -> writes rv s s'.
Proof.
  intros Hrv. unfold insert_watch_event_in_conn. destruct (insert_event_row _ _ _) as [w|] eqn:Hi; [|done].
  intros [= <-]. split; auto with writes. cbn. intros e He.
  destruct (insert_event_row_elem _ _ _ _ e Hi He) as [?|He2]; [by left|right]. by rewrite He2.
Qed.

Lemma writes_emit rv emit i event_type data s out :
  emit_watch emit i rv event_type data s = Ok out -> writes rv s out.1.
Proof.
  unfold emit_watch. destruct emit; cbn [negb]; [|intros [= <-]; apply writes_refl].
  destruct (insert_watch_event_in_conn _ _ _ _) as [s'|] eqn:Hi; [|done]. intros [= <-].
  by eapply writes_watch_insert in Hi.
Qed.

Lemma writes_resource i uid rv data s : writes rv s (write_resource i uid rv data s).
Proof.
  unfold write_resource, upsert_resource, upsert_row. split; cbn; auto with writes.
  - destruct (ri_scope i); cbn; auto with writes. apply rows_fresh_insert. by destruct (_ !! _).
  - destruct (ri_scope i); cbn; auto with writes. apply rows_fresh_insert. by destruct (_ !! _).
Qed.

Lemma normalized_rv row existing row' :
  normalize_committed_resource_for_apply row existing = Ok row' -> rr_resource_version row' = rr_resource_version row.
Proof.
  unfold normalize_committed_resource_for_apply.
  destruct (merge_status_only_row_with_existing row existing) as [row1|] eqn:H1; [|done]. intros [= <-].
  assert (rr_resource_version row1 = rr_resource_version row) as <-.
  { revert H1. unfold merge_status_only_row_with_existing. destruct (negb _); [by intros [= <-]|].
    destruct existing as [e|]; [|by intros [= <-]]. destruct (rw_data e); try done. by intros [= <-]. }
  assert (Hp : forall r, rr_resource_version (preserve_same_uid_server_metadata_from_existing r existing)
                         = rr_resource_version r).
  { intros r. unfold preserve_same_uid_server_metadata_from_existing. destruct existing; [|done]. by destruct (negb _). }
  rewrite Hp. unfold preserve_newer_same_uid_row_on_stale_committed_put. by repeat case_match.
Qed.

Lemma put_writes row emit s out :
  apply_put_resource row emit s = Ok out -> writes (rr_resource_version row) s out.1.
Proof.
  unfold apply_put_resource. destruct (validate_put_resource_apply_preconditions _ _); [|done]. cbn [result_bind].
  destruct (normalize_committed_resource_for_apply _ _) as [row'|] eqn:Hn; [|done]. cbn [result_bind].
  rewrite <- (normalized_rv _ _ _ Hn). destruct (decide_resource_put _ _) as [|event_type].
  - intros [= <-]. split; cbn; auto with writes.
  - intros H%writes_emit. eapply writes_trans; [apply writes_resource|done].
Qed.

Lemma patch_writes patch emit s out :
  apply_patch_resource_latest patch emit s = Ok out -> writes (rp_resource_version patch) s out.1.
Proof.
  unfold apply_patch_resource_latest. destruct (get_existing_resource _ _) as [e|].
  - destruct (apply_latest_patch_to_current_resource _ _ _) as [data|]; [|done]. cbn [result_bind].
    intros H%writes_emit. eapply writes_trans; [apply writes_resource|done].
  - destruct (rp_require_existing patch); [done|]. intros [= <-]. apply writes_refl.
Qed.

Lemma delete_writes rv key emit s out : apply_delete_resource rv key emit s = Ok out -> writes rv s out.1.
Proof.
  unfold apply_delete_resource. destruct (get_existing_resource _ _) as [e|]; [|intros [= <-]; apply writes_refl].
  destruct (decide_resource_delete _ _ _) as [[|event_type]|]; [intros [= <-]; apply writes_refl| |done].
  intros H%writes_emit. eapply writes_trans; [|done]. unfold delete_resource_row.
  split; cbn; auto with writes; destruct (ri_scope _); cbn; auto with writes; apply rows_fresh_sub, delete_subseteq.
Qed.

Lemma namespace_put_writes row emit s out :
  put_namespace_row row emit s = Ok out -> writes (nr_resource_version row) s out.1.
Proof.
  unfold put_namespace_row. destruct (is_some_and _ _); [intros [= <-]; apply writes_refl|].
  set (s1 := set_namespaces _ s). assert (H1 : writes (nr_resource_version row) s s1) by (split; cbn; auto with writes).
  destruct emit; cbn [negb]; [|by intros [= <-]]. destruct (insert_watch_event_in_conn _ _ _ _) as [s'|] eqn:Hi; [|done].
  intros [= <-]. eapply writes_trans; [done|]. by eapply writes_watch_insert in Hi.
Qed.

Lemma namespace_delete_writes rv name emit s out : delete_namespace_row rv name emit s = Ok out -> writes rv s out.1.
Proof.
  unfold delete_namespace_row. destruct (_ !! name) as [e|]; [|intros [= <-]; apply writes_refl].
  set (s1 := set_namespaces _ s).
  assert (H1 : writes rv s s1) by (split; cbn; auto with writes; apply rows_fresh_sub, delete_subseteq).
  destruct emit; cbn [negb]; [|by intros [= <-]]. destruct (insert_watch_event_in_conn _ _ _ _) as [s'|] eqn:Hi; [|done].
  intros [= <-]. eapply writes_trans; [done|]. by eapply writes_watch_insert in Hi.
Qed.

(** An event of the log entry carries the version of the commit. *)
Definition event_stamped (rv : Z) (mutation : LogApplyMutation) : Prop :=
  match mutation with PutWatchEvent row => wr_resource_version row = rv | _ => True end.

Lemma contents_writes rv name s :
  writes rv s (set_resources (delete_namespace_contents_rows name (db_resources s)) s).
Proof.
  unfold delete_namespace_contents_rows. set (t0 := mkResTables _ _ _ _ _). set (rows := filter _ (map_to_list _)).
  destruct (delete_all_indexes rows t0 ("", "", "", "")) as (H1 & H2 & _). cbn zeta in H1, H2.
  split; cbn [db_resources db_namespaces db_watch db_watermarks db_rv set_resources]; rewrite ?H1, ?H2;
    auto with writes. apply rows_fresh_sub, map_filter_subseteq.
Qed.

Lemma mutation_writes rv m emit s effects st :
  event_stamped rv m -> apply_cluster_mutation rv (to_cluster_mutation m) emit (s, effects) = Ok st -> writes rv s st.1.
Proof.
  intros Hm. destruct m; cbn [to_cluster_mutation apply_cluster_mutation]; unfold silent.
  all: try (intros [= <-]; by apply writes_other).
  all: try (destruct (negb _) eqn:Hrv; [done|]; apply negb_false_iff, Z.eqb_eq in Hrv; rewrite <- Hrv).
  all: try (intros (out & Hr & ->)%push_effect_ok).
  - by eapply put_writes.
  - by eapply patch_writes.
  - by eapply delete_writes.
  - by eapply namespace_put_writes.
  - by eapply namespace_delete_writes.
  - intros [= <-]. apply contents_writes.
  - destruct (with_subnets _ _) as [s'|] eqn:Hw; [|done]. apply with_subnets_ok in Hw as [t ->]. intros [= <-]. by apply writes_other.
  - destruct (with_subnets _ _) as [s'|] eqn:Hw; [|done]. apply with_subnets_ok in Hw as [t ->]. intros [= <-]. by apply writes_other.
  - unfold put_node_dataplane. destruct (_ && _); [|done]. intros [= <-]. by apply writes_other.
  - intros [= <-]. split; cbn; auto with writes. intros e [_ He]%list_elem_of_filter. by left.
  - unfold apply_put_watch_event. destruct (insert_watch_event_in_conn _ _ _ _) as [s'|] eqn:Hi; [|done].
    intros [= <-]. eapply writes_watch_insert in Hi; done.
  - intros [= <-]. by apply writes_other.
Qed.

Lemma mutations_write rv emit ms st st' :
  Forall (event_stamped rv) ms -> apply_mutations rv emit ms st = Ok st' -> writes rv st.1 st'.1.
Proof.
  intros Hms. revert st. induction Hms as [|m ms Hm _ IH]; intros st; cbn [apply_mutations];
    [intros [= <-]; apply writes_refl|].
  destruct (apply_cluster_mutation _ _ _ st) as [st1|] eqn:H1; [|done]. cbn [result_bind]. intros H2.
  destruct st as [s effects]. eapply writes_trans; [by eapply mutation_writes|by apply IH].
Qed.

(** *** Where conflicts come from *)

(** A conflict reports a violated precondition. *)
Definition genuine {A} (r : result DbError A) : Prop :=
  match r with
  | Err (Conflict code message) => exists violation, apply_precondition_error violation = Conflict code message
  | _ => True
  end.

Lemma genuine_bind {A B} (r : result DbError A) (f : A -> result DbError B) :
  genuine r -> (forall a, genuine (f a)) -> genuine (result_bind r f).
Proof. destruct r as [a|e]; cbn; auto. Qed.

Lemma genuine_violation {A} violation : genuine (A := A) (Err (apply_precondition_error violation)).
Proof. unfold genuine. destruct (apply_precondition_error violation) eqn:H; eauto. Qed.

Lemma genuine_insert event_id canonicalize row s : genuine (insert_watch_event_in_conn event_id canonicalize row s).
Proof. unfold insert_watch_event_in_conn, insert_event_row. repeat case_match; by simplify_eq/=. Qed.

Lemma genuine_emit emit i rv event_type data s : genuine (emit_watch emit i rv event_type data s).
Proof. unfold emit_watch. destruct (negb emit); [done|]. by apply genuine_bind; [apply genuine_insert|]. Qed.

Lemma genuine_validate row existing : genuine (validate_put_resource_apply_preconditions row existing).
Proof. unfold validate_put_resource_apply_preconditions. destruct (validate_apply_preconditions _ _); [done|apply genuine_violation]. Qed.

Lemma genuine_normalize row existing : genuine (normalize_committed_resource_for_apply row existing).
Proof.
  unfold normalize_committed_resource_for_apply. apply genuine_bind; [|done].
  unfold merge_status_only_row_with_existing. repeat case_match; done.
Qed.

Lemma genuine_noop row s : genuine (resolve_noop_put_resource_in_tx row s).
Proof.
  unfold resolve_noop_put_resource_in_tx. destruct (get_existing_resource _ _); [|done]. destruct (negb _); [done|].
  apply genuine_bind; [apply genuine_validate|intros _]. apply genuine_bind; [apply genuine_normalize|intros row'].
  by destruct (value_eqb _ _).
Qed.

Lemma genuine_push effects r : genuine r -> genuine (push_effect effects r).
Proof. intros H. by apply genuine_bind. Qed.

Lemma genuine_put row emit s : genuine (apply_put_resource row emit s).
Proof.
  unfold apply_put_resource. apply genuine_bind; [apply genuine_validate|intros _].
  apply genuine_bind; [apply genuine_normalize|intros row']. destruct (decide_resource_put _ _); [done|apply genuine_emit].
Qed.

Lemma genuine_patch patch emit s : genuine (apply_patch_resource_latest patch emit s).
Proof.
  unfold apply_patch_resource_latest. destruct (get_existing_resource _ _) as [e|].
  - apply genuine_bind; [|intros; apply genuine_emit]. unfold apply_latest_patch_to_current_resource.
    destruct (validate_apply_preconditions _ _); [|apply genuine_violation]. by destruct (validate_metadata_uid_immutable _ _).
  - destruct (rp_require_existing patch); [|done]. by exists NotFound.
Qed.

Lemma genuine_delete rv key emit s : genuine (apply_delete_resource rv key emit s).
Proof.
  unfold apply_delete_resource. destruct (get_existing_resource _ _); [|done].
  destruct (decide_resource_delete _ _ _) as [[]|]; [done|apply genuine_emit|apply genuine_violation].
Qed.

Lemma genuine_subnets r s : genuine (with_subnets r s).
Proof. destruct r as [|[]]; done. Qed.

Lemma genuine_mutation rv m emit st : genuine (apply_cluster_mutation rv (to_cluster_mutation m) emit st).
Proof.
  destruct st as [s effects]. destruct m; cbn [to_cluster_mutation apply_cluster_mutation]; try done;
    try (destruct (negb _); [done|]); try apply genuine_push; try done.
  - apply genuine_put.
  - apply genuine_patch.
  - apply genuine_delete.
  - unfold put_namespace_row. destruct (is_some_and _ _); [done|]. destruct (negb emit); [done|].
    apply genuine_bind; [apply genuine_insert|done].
  - unfold delete_namespace_row. destruct (_ !! _); [|done]. destruct (negb emit); [done|].
    apply genuine_bind; [apply genuine_insert|done].
  - apply genuine_bind; [apply genuine_subnets|done].
  - apply genuine_bind; [apply genuine_subnets|done].
  - unfold put_node_dataplane. by destruct (_ && _).
  - apply genuine_bind; [|done]. unfold apply_put_watch_event. apply genuine_bind; [apply genuine_insert|done].
Qed.

Lemma genuine_mutations rv emit ms st : genuine (apply_mutations rv emit ms st).
Proof.
  revert st. induction ms as [|m ms IH]; intros st; [done|]. cbn [apply_mutations].
  apply genuine_bind; [apply genuine_mutation|apply IH].
Qed.

Lemma index_ok_empty : index_ok (db_resources empty_db).
Proof.
  split; try (intros av kd ns nm; unfold rows_at, body_at; cbn; rewrite !lookup_empty; by destruct (is_empty ns)).
  intros. apply lookup_empty.
Qed.

End Parameters.
