(* ===== verification/CommittedApply.v ===== *)
(** * Committed apply

    [klights-cluster-datastore/src/sqlite/live_apply/coordinator.rs]: how one
    committed log entry is applied in a transaction.  The entry is a template
    without resource versions; the coordinator answers a repeated idempotency
    key from the ledger, drops a stream position that was applied, records a
    stale status snapshot in the ledger only, and otherwise stamps the template
    with the next resource version and applies its mutations behind a savepoint.
    A precondition conflict rolls the attempt back and is recorded as the
    entry's answer.

    The wire codec of stored answers is generated code: [encode] and [decode] are
    parameters.  The resource version counter stays below [i64::MAX].

    The theorems: every stream position takes effect once and in order, and what
    does not take effect leaves the database as it was; a rejected entry changes
    the ledger and its stream position only, and its replay gets the same answer;
    an entry consumes at most one resource version and writes no other; and the
    index tables stay exact, so that an indexed list request is answered as if
    every body were decoded. *)

From S2P Require Import Prelude Text Json Watch Apply StaleResource StatusMerge StatusRegistry ResourceSemantics Selectors KeyCodec LogApply ResourceShape ResourceIndex NodeSubnets SqliteState.

Local Open Scope string_scope.
Local Open Scope rs_scope.

(** ** Outcomes *)

Inductive StorageResponse :=
| RespResource (resource_version : Z) (data : Value)
| RespAck (resource_version : Z)
| RespNodeSubnet (row : LogApplyNodeSubnetRow)
| RespError (message : string).

Inductive NoPublicChangeReason :=
| DuplicateIdempotencyKey
| DuplicateWatermark
| StaleStatusStamp
| EqualStatusStamp
| LedgerOnly.

Inductive CommittedApplyRejection :=
| RejNotFound (message : string)
| RejAlreadyExists (message : string)
| RejUidConflict (message : string)
| RejResourceVersionConflict (message : string)
| RejInvalidCommit (message : string).

Inductive CommittedApplyOutcome :=
| Visible (resource_version : Z) (resource : option Resource)
| NoPublicChange (resource_version : Z) (reason : NoPublicChangeReason)
| Rejected (rejection : CommittedApplyRejection).

Inductive PodEndpointEffect := NotApplicable | Unchanged | Changed.

Record RaftLogApplyOutcome := mkOutcome {
  committed_outcome : CommittedApplyOutcome;
  returned_resource : option Resource;
  pod_endpoint_effect : PodEndpointEffect;
  pending : list StagedPostCommit
}.

Definition outcome_try_new (outcome : CommittedApplyOutcome) (pending : list StagedPostCommit)
    (effect : PodEndpointEffect) : RaftLogApplyOutcome :=
  mkOutcome outcome match outcome with Visible _ resource => resource | _ => None end effect pending.

Definition with_returned_resource (resource : option Resource) (o : RaftLogApplyOutcome) : RaftLogApplyOutcome :=
  mkOutcome (committed_outcome o) resource (pod_endpoint_effect o) (pending o).

(** ** Endpoint facts of a Pod *)

Record PodEndpointState := mkEndpointState {
  pe_ready : bool; pe_terminal : bool; pe_labels : option Value; pe_pod_ip : option Value;
  pe_pod_ips : option Value; pe_deletion_timestamp : option Value
}.

Definition differs_from (self updated : PodEndpointState) : bool :=
  let differ a b := negb (opt_eqb value_eqb a b) in
  negb (Bool.eqb (pe_ready self) (pe_ready updated)) || negb (Bool.eqb (pe_terminal self) (pe_terminal updated))
  || differ (pe_labels self) (pe_labels updated) || differ (pe_pod_ip self) (pe_pod_ip updated)
  || differ (pe_pod_ips self) (pe_pod_ips updated)
  || differ (pe_deletion_timestamp self) (pe_deletion_timestamp updated).

Definition pod_endpoint_state (pod : Value) : PodEndpointState :=
  let status := get "status" pod in
  let metadata := get "metadata" pod in
  let ready_condition :=
    conditions ← (s ← status; get_array "conditions" s);
    List.find (fun condition => get_str "type" condition =?os Some "Ready") conditions in
  let phase := s ← status; get_str "phase" s in
  mkEndpointState ((c ← ready_condition; get_str "status" c) =?os Some "True")
    ((phase =?os Some "Failed") || (phase =?os Some "Succeeded"))
    (m ← metadata; get "labels" m) (s ← status; get "podIP" s) (s ← status; get "podIPs" s)
    (m ← metadata; get "deletionTimestamp" m).

Definition endpoint_effect (target : option (option string * string)) (before after : option Value)
    : PodEndpointEffect :=
  match target with
  | None => NotApplicable
  | Some _ =>
      match before, after with
      | Some before, Some after =>
          if differs_from (pod_endpoint_state before) (pod_endpoint_state after) then Changed else Unchanged
      | _, _ => Unchanged
      end
  end.

Definition status_pod (mutation : LogApplyMutation) : option (option string * string) :=
  match mutation with
  | PutResource row =>
      if (rr_api_version row =?s "v1") && (rr_kind row =?s "Pod") && rr_status_only row
      then Some (rr_namespace row, rr_name row) else None
  | _ => None
  end.

Definition pod_status_target (commit : LogApplyCommit) : option (option string * string) :=
  head (omap status_pod (lc_mutations commit)).

Definition pod_state_in_tx (target : option (option string * string)) (s : SqliteState) : option Value :=
  match target with
  | None => None
  | Some (Some namespace, name) =>
      rw_data <$> namespaced_resources (db_resources s) !! ("v1", "Pod", namespace, name)
  | Some (None, name) => rw_data <$> cluster_resources (db_resources s) !! ("v1", "Pod", name)
  end.

(** ** Rejections *)

Definition committed_rejection_from_conflict (code : ApplyConflictCode) (message : string) : CommittedApplyRejection :=
  match code with
  | CodeNotFound => RejNotFound message
  | CodeAlreadyExists => RejAlreadyExists message
  | CodeUidPrecondition => RejUidConflict message
  | CodeResourceVersionPrecondition => RejResourceVersionConflict message
  end.

Definition committed_rejection_from_message (message : string) : CommittedApplyRejection :=
  if contains "resourceVersion" message then RejResourceVersionConflict message
  else if contains "UID" message || contains "uid" message then RejUidConflict message
  else if contains "already exists" message then RejAlreadyExists message
  else if contains "not found" message then RejNotFound message
  else RejInvalidCommit message.

(** ** Transaction primitives *)

Definition next_resource_version_in_tx (s : SqliteState) : Z * SqliteState :=
  let next := (db_rv s + 1)%Z in (next, set_rv next s).

Definition watch_event_allocator_high_water (s : SqliteState) : Z := watch_seq (db_watch s).

Definition advance_metadata_rv_to_at_least_tx (resource_version : Z) (s : SqliteState) : SqliteState :=
  if (db_rv s <? resource_version)%Z then set_rv resource_version s else s.

Definition watermark_key (w : OutboxStreamWatermark) : string * Z := (wm_client_id w, wm_stream_id w).

Definition decide_position (last_seq : option Z) (watermark : option OutboxStreamWatermark)
    : result DbError OutboxWatermarkDecision :=
  match decide_outbox_watermark last_seq watermark with
  | Ok decision => Ok decision
  | Err _ => Err (OtherError "outbox stream seq must be positive")
  end.

Definition outbox_watermark_decision_in_tx (watermark : option OutboxStreamWatermark) (s : SqliteState)
    : result DbError OutboxWatermarkDecision :=
  match watermark with
  | None => decide_position None None
  | Some w =>
      try? decide_position None (Some w) in
      decide_position (db_watermarks s !! watermark_key w) (Some w)
  end.

Definition upsert_outbox_watermark_in_tx (w : OutboxStreamWatermark) (s : SqliteState) : SqliteState :=
  set_watermarks (<[watermark_key w := wm_stream_seq w]> (db_watermarks s)) s.

Definition upsert_watermark (w : option OutboxStreamWatermark) (s : SqliteState) : SqliteState :=
  match w with Some w => upsert_outbox_watermark_in_tx w s | None => s end.

(** [SELECT MAX(status_stamp) FROM applied_outbox WHERE subject_key = ?1]. *)
Definition max_status_stamp (subject_key : string) (s : SqliteState) : option Z :=
  map_fold (fun _ row top =>
    if or_subject_key row =?s subject_key
    then match or_status_stamp row, top with
         | Some stamp, Some top => Some (Z.max stamp top)
         | Some stamp, None => Some stamp
         | None, _ => top
         end
    else top) None (db_outbox s).

(** ** The commit to apply *)

Record ApplyCommit := mkApplyCommit {
  ac_resource_version : Z;
  ac_outbox_watermark : option OutboxStreamWatermark;
  ac_mutations : list LogApplyMutation;
  ac_preserve_historical_bytes : bool
}.

Definition set_mutations (ms : list LogApplyMutation) (c : ApplyCommit) : ApplyCommit :=
  mkApplyCommit (ac_resource_version c) (ac_outbox_watermark c) ms (ac_preserve_historical_bytes c).

Definition set_commit_rv (rv : Z) (c : ApplyCommit) : ApplyCommit :=
  mkApplyCommit rv (ac_outbox_watermark c) (ac_mutations c) (ac_preserve_historical_bytes c).

Definition validate_live (commit : LogApplyCommit) : result DbError unit :=
  match validate_live_template commit with Ok _ => Ok tt | Err e => Err (InvalidTemplate e) end.

Definition from_live (commit : LogApplyCommit) : result DbError ApplyCommit :=
  try? validate_live commit in
  Ok (mkApplyCommit (lc_resource_version commit) (lc_outbox_watermark commit) (lc_mutations commit) false).

Definition from_snapshot (operation : SnapshotRestoreOperation) : ApplyCommit :=
  mkApplyCommit (sro_resource_version operation) (sro_outbox_watermark operation) (sro_mutations operation) true.

(** *** Finalizations *)

Definition finalization_applies (f : LogApplyPodActorFinalization) (data : Value) : bool :=
  let assigned_node := opt_filter non_empty_str (pointer_str ["spec"; "nodeName"] data) in
  let has_finalizers := is_some_and (pointer_array ["metadata"; "finalizers"] data)
                          (fun finalizers => match finalizers with [] => false | _ => true end) in
  let terminating :=
    is_some_and (pointer_str ["metadata"; "deletionTimestamp"] data) non_empty_str
    || ((pointer_str ["status"; "phase"] data =?os Some "Failed")
        && (pointer_str ["status"; "reason"] data =?os Some "NodeLost")) in
  (assigned_node =?os Some (pf_node_name f)) && negb has_finalizers && terminating.

Definition resolve_finalization (commit_rv : Z) (s : SqliteState) (mutation : LogApplyMutation) : list LogApplyMutation :=
  match mutation with
  | FinalizeBoundPod f =>
      match namespaced_resources (db_resources s) !! ("v1", "Pod", pf_namespace f, pf_name f) with
      | None => []
      | Some current =>
          if negb (rw_uid current =?s pf_pod_uid f) then []
          else if negb (finalization_applies f (rw_data current)) then []
          else
            [ PutWatchEvent (mkWatchEventRow None "v1" "Pod" (Some (pf_namespace f)) (pf_name f) commit_rv "DELETED"
                (hydrate_watch_event_data (rw_data current) "v1" "Pod" (Some (pf_namespace f)) (pf_name f) commit_rv));
              DeleteResource (mkResourceKey "v1" "Pod" (Some (pf_namespace f)) (pf_name f) (rw_uid current)
                (Some (rw_resource_version current))) ]
      end
  | _ => [mutation]
  end.

Definition resolve_bound_pod_finalizations_in_tx (commit : ApplyCommit) (s : SqliteState) : ApplyCommit :=
  set_mutations (concat (resolve_finalization (ac_resource_version commit) s <$> ac_mutations commit)) commit.

Definition is_put_watch_event (mutation : LogApplyMutation) : bool :=
  match mutation with PutWatchEvent _ => true | _ => false end.

Section Parameters.

Context (parse_from_rfc3339 : string -> option Z).
Context (float_to_string : Z -> string).
Context (merge : Value -> Value -> Value).
Context (encode : StorageResponse -> result string string).
Context (decode : string -> result string StorageResponse).

(** *** No-op puts *)

(** The mutations that remain, and whether one was dropped. *)
Fixpoint resolve_noops (mutations : list LogApplyMutation) (s : SqliteState)
    : result DbError (list LogApplyMutation * bool) :=
  match mutations with
  | [] => Ok ([], false)
  | mutation :: mutations' =>
      match mutation with
      | PutResource row =>
          let? resolved := resolve_noop_put_resource_in_tx parse_from_rfc3339 row s in
          let? rest := resolve_noops mutations' s in
          match resolved with
          | Some row => Ok (PutResource row :: rest.1, rest.2)
          | None => Ok (rest.1, true)
          end
      | _ => let? rest := resolve_noops mutations' s in Ok (mutation :: rest.1, rest.2)
      end
  end.

Definition resolve_noop_put_resources_in_tx (commit : ApplyCommit) (s : SqliteState) : result DbError ApplyCommit :=
  if ac_preserve_historical_bytes commit then Ok commit
  else
    let? resolved := resolve_noops (ac_mutations commit) s in
    let commit := if resolved.2 && forallb is_put_applied_outbox resolved.1 then set_commit_rv (db_rv s) commit else commit in
    Ok (set_mutations resolved.1 commit).

(** *** Stamping *)

Definition stamp_rv (rv current : Z) : Z := if (current =? 0)%Z then rv else current.

Definition stamp_data (rv row_rv : Z) (preserve : bool) (data : Value) (api_version kind : string)
    (namespace : option string) (name : string) : Value :=
  if (row_rv =? rv)%Z && negb preserve
  then hydrate_watch_event_data data api_version kind namespace name rv else data.

Definition is_ack (r : result string StorageResponse) : bool :=
  match r with Ok (RespAck _) => true | _ => false end.

Definition encode_or_default (response : StorageResponse) : string :=
  match encode response with Ok bytes => bytes | Err _ => "" end.

Definition stamp_outbox_row (rv : Z) (row : LogApplyAppliedOutboxRow) : LogApplyAppliedOutboxRow :=
  mkOutboxRow (or_idempotency_key row) (or_subject_key row) (or_operation row) (or_first_seen_ms row)
    (or_else (or_applied_rv row) (Some rv))
    (if is_empty (or_result_proto row) || is_ack (decode (or_result_proto row))
     then encode_or_default (RespAck rv) else or_result_proto row)
    (or_status_stamp row).

Definition stamp_mutation (rv : Z) (preserve : bool) (mutation : LogApplyMutation) : LogApplyMutation :=
  match mutation with
  | PutResource row =>
      let row_rv := stamp_rv rv (rr_resource_version row) in
      PutResource (mkResourceRow (rr_api_version row) (rr_kind row) (rr_namespace row) (rr_name row) (rr_uid row) row_rv
        (stamp_data rv row_rv preserve (rr_data row) (rr_api_version row) (rr_kind row) (rr_namespace row) (rr_name row))
        (rr_require_absent row) (rr_require_existing row) (rr_precondition_uid row)
        (rr_precondition_resource_version row) (rr_status_only row))
  | PatchResourceLatest patch =>
      PatchResourceLatest (mkResourcePatch (rp_api_version patch) (rp_kind patch) (rp_namespace patch) (rp_name patch)
        (stamp_rv rv (rp_resource_version patch)) (rp_patch_kind patch) (rp_patch patch) (rp_require_existing patch)
        (rp_precondition_uid patch) (rp_precondition_resource_version patch)
        (rp_terminating_pod_unready_timestamp patch))
  | PutNamespace row =>
      let row_rv := stamp_rv rv (nr_resource_version row) in
      PutNamespace (mkNamespaceRow (nr_name row) (nr_uid row) row_rv
        (stamp_data rv row_rv preserve (nr_data row) "v1" "Namespace" None (nr_name row)))
  | PutWatchEvent row =>
      let row_rv := stamp_rv rv (wr_resource_version row) in
      PutWatchEvent (mkWatchEventRow (wr_event_id row) (wr_api_version row) (wr_kind row) (wr_namespace row) (wr_name row)
        row_rv (wr_event_type row)
        (stamp_data rv row_rv preserve (wr_data row) (wr_api_version row) (wr_kind row) (wr_namespace row) (wr_name row)))
  | PutPodCleanupIntent row =>
      PutPodCleanupIntent (mkCleanupRow (cr_node_name row) (cr_namespace row) (cr_pod_name row) (cr_pod_uid row)
        (cr_reason row) (stamp_rv rv (cr_resource_version row)) (cr_created_at_ms row) (cr_pod_data row))
  | PutAppliedOutbox row => PutAppliedOutbox (stamp_outbox_row rv row)
  | AdvanceResourceVersion resource_version => AdvanceResourceVersion (Z.max resource_version rv)
  | _ => mutation
  end.

Definition stamp_provisional_resource_version_in_tx (commit : ApplyCommit) (s : SqliteState) : ApplyCommit * SqliteState :=
  let does_not_advance_public_rv := forallb is_put_applied_outbox (ac_mutations commit) in
  let '(rv, s) :=
    if (ac_resource_version commit =? 0)%Z && does_not_advance_public_rv then (db_rv s, s)
    else if (ac_resource_version commit =? 0)%Z then next_resource_version_in_tx s
    else (ac_resource_version commit, s) in
  (set_commit_rv rv (set_mutations (stamp_mutation rv (ac_preserve_historical_bytes commit) <$> ac_mutations commit)
     commit), s).

(** ** What the caller gets back *)

Inductive ReturnedResourceTarget :=
| TargetResource (api_version kind : string) (namespace : option string) (name : string)
| TargetNamespace (name : string).

Definition mutation_target (mutation : LogApplyMutation) : option ReturnedResourceTarget :=
  match mutation with
  | PutResource row =>
      Some (TargetResource (rr_api_version row) (rr_kind row) (rr_namespace row) (rr_name row))
  | PatchResourceLatest patch =>
      Some (TargetResource (rp_api_version patch) (rp_kind patch) (rp_namespace patch) (rp_name patch))
  | PutNamespace row => Some (TargetNamespace (nr_name row))
  | _ => None
  end.

Definition returned_resource_target (commit : ApplyCommit) : option ReturnedResourceTarget :=
  head (omap mutation_target (ac_mutations commit)).

Definition read_returned_resource_in_tx (target : ReturnedResourceTarget) (s : SqliteState) : option Resource :=
  match target with
  | TargetResource api_version kind (Some namespace) name =>
      (fun row => mkResource (rw_id row) api_version kind (Some namespace) name (rw_uid row) (rw_resource_version row)
                    (rw_data row))
        <$> namespaced_resources (db_resources s) !! (api_version, kind, namespace, name)
  | TargetResource api_version kind None name =>
      (fun row => mkResource (rw_id row) api_version kind None name (rw_uid row) (rw_resource_version row) (rw_data row))
        <$> cluster_resources (db_resources s) !! (api_version, kind, name)
  | TargetNamespace name =>
      (fun row => mkResource 0 "v1" "Namespace" None name (ns_uid row) (ns_resource_version row) (ns_data row))
        <$> db_namespaces s !! name
  end.

Definition uid_from_data (data : Value) : string := unwrap_or "" (pointer_str ["metadata"; "uid"] data).

Definition deleted_key (mutation : LogApplyMutation) : option LogApplyResourceKey :=
  match mutation with DeleteResource key => Some key | _ => None end.

Definition deleted_event (key : LogApplyResourceKey) (commit_rv : Z) (mutation : LogApplyMutation)
    : option LogApplyWatchEventRow :=
  match mutation with
  | PutWatchEvent row =>
      if (wr_event_type row =?s "DELETED") && (wr_api_version row =?s rk_api_version key)
         && (wr_kind row =?s rk_kind key) && (wr_namespace row =?os rk_namespace key) && (wr_name row =?s rk_name key)
         && (wr_resource_version row =? commit_rv)%Z
      then Some row else None
  | _ => None
  end.

Definition deleted_resource_from_stamped_commit (commit : ApplyCommit) : option Resource :=
  key ← head (omap deleted_key (ac_mutations commit));
  row ← head (omap (deleted_event key (ac_resource_version commit)) (ac_mutations commit));
  Some (mkResource 0 (wr_api_version row) (wr_kind row) (wr_namespace row) (wr_name row) (uid_from_data (wr_data row))
          (unwrap_or (wr_resource_version row) (rk_precondition_resource_version key))
          (clear_metadata_resource_version (wr_data row))).

(** ** Applying a commit *)

Definition gap_error (last_seq next_seq : Z) : DbError :=
  OtherError ("outbox stream gap for seq " +:+ to_string next_seq +:+ ": last committed seq is " +:+ to_string last_seq).

Definition apply_commit_in_tx_with_watch_events (commit : ApplyCommit) (emit_watch_events : bool) (s : SqliteState)
    : result DbError (SqliteState * (Z * list StagedPostCommit * option Resource)) :=
  if (ac_resource_version commit <? 0)%Z
  then Err (OtherError "log_apply commit resourceVersion must be non-negative")
  else
    let commit := resolve_bound_pod_finalizations_in_tx commit s in
    let emit_watch_events := emit_watch_events && negb (existsb is_put_watch_event (ac_mutations commit)) in
    let? decision := outbox_watermark_decision_in_tx (ac_outbox_watermark commit) s in
    let? commit := match decision with
                   | WApply => resolve_noop_put_resources_in_tx commit s
                   | _ => Ok commit
                   end in
    let '(commit, s) := stamp_provisional_resource_version_in_tx commit s in
    let applied_rv := ac_resource_version commit in
    let watermark := ac_outbox_watermark commit in
    match watermark, ac_mutations commit with
    | Some w, [] =>
        Ok (advance_metadata_rv_to_at_least_tx applied_rv (upsert_outbox_watermark_in_tx w s), (applied_rv, [], None))
    | _, _ =>
        match decision with
        | WDuplicate => Ok (advance_metadata_rv_to_at_least_tx applied_rv s, (applied_rv, [], None))
        | WGap last_seq next_seq => Err (gap_error last_seq next_seq)
        | WApply =>
            let deleted_resource := deleted_resource_from_stamped_commit commit in
            let target := returned_resource_target commit in
            let? applied := apply_mutations parse_from_rfc3339 float_to_string merge applied_rv emit_watch_events
                              (ac_mutations commit) (s, []) in
            let '(s, pending) := applied in
            let applied_mutation :=
              or_else deleted_resource (t ← target; read_returned_resource_in_tx t s) in
            Ok (advance_metadata_rv_to_at_least_tx applied_rv (upsert_watermark watermark s),
                (applied_rv, pending, applied_mutation))
        end
    end.

Definition apply_commit_in_tx_returning_rv_and_mutation_with_context (commit : LogApplyCommit) (s : SqliteState)
    : result DbError (SqliteState * (Z * list StagedPostCommit * option Resource)) :=
  let has_explicit_watch_history := existsb is_put_watch_event (lc_mutations commit) in
  let? live := from_live commit in
  apply_commit_in_tx_with_watch_events live (negb has_explicit_watch_history) s.

Definition apply_commit_in_tx_with_context (commit : LogApplyCommit) (s : SqliteState)
    : result DbError (SqliteState * list StagedPostCommit) :=
  let? out := apply_commit_in_tx_returning_rv_and_mutation_with_context commit s in
  Ok (out.1, out.2.1.2).

Definition apply_snapshot_restore_operation_in_tx (operation : SnapshotRestoreOperation) (emit_watch_events : bool)
    (s : SqliteState) : result DbError (SqliteState * (Z * list StagedPostCommit * option Resource)) :=
  apply_commit_in_tx_with_watch_events (from_snapshot operation) emit_watch_events s.

(** *** The ledger *)

Definition outbox_row (mutation : LogApplyMutation) : option LogApplyAppliedOutboxRow :=
  match mutation with PutAppliedOutbox row => Some row | _ => None end.

(** [Resource::try_from_data], with the [Display] text of its error. *)
Definition resource_try_from_data (data : Value) : result string Resource :=
  match get_str "apiVersion" data with
  | None => Err "resource missing apiVersion"
  | Some api_version =>
      match get_str "kind" data with
      | None => Err "resource missing kind"
      | Some kind =>
          match pointer_str ["metadata"; "name"] data with
          | None => Err "resource missing metadata.name"
          | Some name =>
              Ok (mkResource 0 api_version kind
                    (opt_filter non_empty_str (pointer_str ["metadata"; "namespace"] data)) name (uid_from_data data)
                    (unwrap_or 0%Z (text ← pointer_str ["metadata"; "resourceVersion"] data; parse_i64 text)) data)
          end
      end
  end.

Definition with_resource_version (rv : Z) (r : Resource) : Resource :=
  mkResource (r_id r) (r_api_version r) (r_kind r) (r_namespace r) (r_name r) (r_uid r) rv (r_data r).

Definition receipt_from_applied_outbox (row : LogApplyAppliedOutboxRow)
    : result DbError (option Z * option string * option Resource) :=
  match decode (or_result_proto row) with
  | Ok (RespError message) => Ok (or_applied_rv row, Some message, None)
  | Ok (RespResource resource_version data) =>
      match resource_try_from_data data with
      | Ok resource => Ok (or_applied_rv row, None, Some (with_resource_version resource_version resource))
      | Err error => Err (OtherError error)
      end
  | Ok _ => Ok (or_applied_rv row, None, None)
  | Err e => Err (OtherError ("failed to decode applied_outbox result: " +:+ e))
  end.

(** [APPLIED_OUTBOX_UPDATE_RESULT], for the finalization of a Pod. *)
Definition record_finalization (template : option LogApplyAppliedOutboxRow) (applied : option Resource) (rv : Z)
    (s : SqliteState) : result DbError SqliteState :=
  match template, applied with
  | Some template, Some resource =>
      if (or_operation template =?s POD_METADATA_OPERATION) && (r_api_version resource =?s "v1")
         && (r_kind resource =?s "Pod")
      then
        match encode (RespResource (r_resource_version resource) (r_data resource)) with
        | Err e => Err (OtherError ("failed to encode durable actor-finalization receipt: " +:+ e))
        | Ok result_proto =>
            match db_outbox s !! or_idempotency_key template with
            | None => Err (OtherError "committed actor-finalization receipt had no applied_outbox ledger row")
            | Some row =>
                Ok (set_outbox (<[or_idempotency_key template :=
                      mkOutboxRow (or_idempotency_key row) (or_subject_key template) (or_operation row)
                        (or_first_seen_ms row) (Some rv) result_proto (or_status_stamp template)]> (db_outbox s)) s)
            end
        end
      else Ok s
  | _, _ => Ok s
  end.

(** *** The raft entry point *)

(** What the reader of the position sees: the counter and the last event id. *)
Definition visible_change (before after : SqliteState) : bool :=
  (db_rv before <? db_rv after)%Z
  || (watch_event_allocator_high_water before <? watch_event_allocator_high_water after)%Z.

Definition replay_from_ledger (existing : LogApplyAppliedOutboxRow) (effect : PodEndpointEffect)
    : result DbError RaftLogApplyOutcome :=
  let? receipt := receipt_from_applied_outbox existing in
  match receipt with
  | (_, Some message, _) => Ok (outcome_try_new (Rejected (committed_rejection_from_message message)) [] effect)
  | (None, None, _) => Err (OtherError "duplicate applied_outbox row has no applied resourceVersion")
  | (Some resource_version, None, returned) =>
      Ok (with_returned_resource returned
            (outcome_try_new (NoPublicChange resource_version DuplicateIdempotencyKey) [] effect))
  end.

(** The last applied stamp of the subject, when the incoming one is not newer. *)
Definition stale_stamp (commit : LogApplyCommit) (s : SqliteState) : option (option Z * Z) :=
  match stamped_pod_status_subject_and_stamp commit with
  | None => None
  | Some (subject_key, incoming_stamp) =>
      let last_applied_stamp := max_status_stamp subject_key s in
      match decide_status_stamp last_applied_stamp (Some incoming_stamp) with
      | RecordLedgerOnly => Some (last_applied_stamp, incoming_stamp)
      | ApplyResourceMutation => None
      end
  end.

(** [Option<i64>] orders [None] first. *)
Definition stamp_cmp (last_applied_stamp : option Z) (incoming_stamp : Z) : comparison :=
  match last_applied_stamp with None => Lt | Some last => (last ?= incoming_stamp)%Z end.

Definition record_ledger_only (commit : LogApplyCommit) (last_applied_stamp : option Z) (incoming_stamp : Z)
    (effect : PodEndpointEffect) (s : SqliteState) : result DbError (SqliteState * RaftLogApplyOutcome) :=
  let? outbox_commit := from_live (commit_with_outbox_rows_only commit) in
  let? out := apply_commit_in_tx_with_watch_events (set_commit_rv (db_rv s) outbox_commit) true s in
  let '(s, (applied_rv, pending, _)) := out in
  let? reason := match stamp_cmp last_applied_stamp incoming_stamp with
                 | Gt => Ok StaleStatusStamp
                 | Eq => Ok EqualStatusStamp
                 | Lt => Err (OtherError "status-stamp decision recorded ledger-only for a newer stamp")
                 end in
  Ok (s, outcome_try_new (NoPublicChange applied_rv reason) pending effect).

(** The state after [ROLLBACK TO raft_apply_attempt] with the rejection noted. *)
Definition record_rejection (watermark : option OutboxStreamWatermark) (template : option LogApplyAppliedOutboxRow)
    (message : string) (s : SqliteState) : SqliteState :=
  let s := upsert_watermark watermark s in
  match template with
  | None => s
  | Some row =>
      put_applied_outbox (mkOutboxRow (or_idempotency_key row) (or_subject_key row) (or_operation row)
        (or_first_seen_ms row) None (encode_or_default (RespError message)) (or_status_stamp row)) s
  end.

Definition attempt (commit : LogApplyCommit) (template : option LogApplyAppliedOutboxRow) (s : SqliteState)
    : result DbError (SqliteState * RaftLogApplyOutcome) :=
  let pod_target := pod_status_target commit in
  let pod_before := pod_state_in_tx pod_target s in
  match apply_commit_in_tx_returning_rv_and_mutation_with_context commit s with
  | Ok (s', (rv, pending, resource)) =>
      let? s' := record_finalization template resource rv s' in
      let outcome :=
        if visible_change s s' || bool_decide (is_Some resource) then Visible rv resource else NoPublicChange rv LedgerOnly in
      Ok (s', outcome_try_new outcome pending (endpoint_effect pod_target pod_before (pod_state_in_tx pod_target s')))
  | Err (Conflict code text) =>
      let message := conflict_text code text in
      Ok (record_rejection (lc_outbox_watermark commit) template message s,
          outcome_try_new (Rejected (committed_rejection_from_conflict code message)) []
            (endpoint_effect pod_target pod_before pod_before))
  | Err e => Err e
  end.

Definition apply_commit_in_tx_for_raft_with_context (commit : LogApplyCommit) (s : SqliteState)
    : result DbError (SqliteState * RaftLogApplyOutcome) :=
  let pod_target := pod_status_target commit in
  let pod_before := pod_state_in_tx pod_target s in
  let effect := endpoint_effect pod_target pod_before pod_before in
  try? validate_live commit in
  match lc_mutations commit, lc_outbox_watermark commit with
  | [], None => Ok (s, outcome_try_new (NoPublicChange (db_rv s) LedgerOnly) [] NotApplicable)
  | _, _ =>
      let outbox_template := head (omap outbox_row (lc_mutations commit)) in
      match (template ← outbox_template; db_outbox s !! or_idempotency_key template) with
      | Some existing => let? outcome := replay_from_ledger existing effect in Ok (s, outcome)
      | None =>
          let? decision := outbox_watermark_decision_in_tx (lc_outbox_watermark commit) s in
          match decision, stale_stamp commit s with
          | WDuplicate, _ => Ok (s, outcome_try_new (NoPublicChange (db_rv s) DuplicateWatermark) [] effect)
          | _, Some (last, incoming) => record_ledger_only commit last incoming effect s
          | _, None => attempt commit outbox_template s
          end
      end
  end.

(** ** Commits, taken apart *)

(** How a successful apply gets from [s] to [s']. *)
Inductive applied (commit : ApplyCommit) (s s' : SqliteState) : Prop :=
| Applied d c1 c2 s1
    (applied_decision : outbox_watermark_decision_in_tx (ac_outbox_watermark commit) s = Ok d)
    (applied_noops : match d with
                     | WApply => resolve_noop_put_resources_in_tx (resolve_bound_pod_finalizations_in_tx commit s) s
                     | _ => Ok (resolve_bound_pod_finalizations_in_tx commit s)
                     end = Ok c1)
    (applied_stamp : stamp_provisional_resource_version_in_tx c1 s = (c2, s1))
    (applied_body :
       (exists w, ac_outbox_watermark commit = Some w /\ ac_mutations c2 = [] /\
          s' = advance_metadata_rv_to_at_least_tx (ac_resource_version c2) (upsert_outbox_watermark_in_tx w s1))
       \/ (d = WDuplicate /\ s' = advance_metadata_rv_to_at_least_tx (ac_resource_version c2) s1)
       \/ (d = WApply /\ exists emit s2 pending,
            apply_mutations parse_from_rfc3339 float_to_string merge (ac_resource_version c2) emit (ac_mutations c2)
              (s1, []) = Ok (s2, pending) /\
            s' = advance_metadata_rv_to_at_least_tx (ac_resource_version c2)
                   (upsert_watermark (ac_outbox_watermark commit) s2))).

Lemma noops_watermark c s c1 :
  resolve_noop_put_resources_in_tx c s = Ok c1 -> ac_outbox_watermark c1 = ac_outbox_watermark c.
Proof.
  unfold resolve_noop_put_resources_in_tx. destruct (ac_preserve_historical_bytes c); [by intros [= <-]|].
  destruct (resolve_noops _ s) as [[ms b]|]; [|done]. cbn. intros [= <-]. by destruct (_ && _).
Qed.

Lemma stamp_watermark c s c2 s1 :
  stamp_provisional_resource_version_in_tx c s = (c2, s1) -> ac_outbox_watermark c2 = ac_outbox_watermark c.
Proof.
  unfold stamp_provisional_resource_version_in_tx. set (p := if _ && _ then _ else _). destruct p as [rv s2].
  by intros [= <- <-].
Qed.

Lemma apply_commit_applied commit emit s s' out :
  apply_commit_in_tx_with_watch_events commit emit s = Ok (s', out) -> applied commit s s'.
Proof.
  unfold apply_commit_in_tx_with_watch_events. destruct (_ <? _)%Z; [done|]. set (c := resolve_bound_pod_finalizations_in_tx commit s).
  set (emit' := emit && _). change (ac_outbox_watermark c) with (ac_outbox_watermark commit).
  destruct (outbox_watermark_decision_in_tx (ac_outbox_watermark commit) s) as [d|] eqn:Hd; [|done]. cbn [result_bind].
  destruct (match d with WApply => resolve_noop_put_resources_in_tx c s | _ => Ok c end) as [c1|] eqn:Hn; [|done].
  cbn [result_bind]. destruct (stamp_provisional_resource_version_in_tx c1 s) as [c2 s1] eqn:Hs.
  assert (Hw : ac_outbox_watermark c2 = ac_outbox_watermark commit).
  { rewrite (stamp_watermark _ _ _ _ Hs). destruct d; [by rewrite (noops_watermark _ _ _ Hn)|..]; by injection Hn as <-. }
  rewrite Hw. intros H. eapply Applied; [done..|]. revert H.
  assert (Hmain : match d with
    | WDuplicate => Ok (advance_metadata_rv_to_at_least_tx (ac_resource_version c2) s1, (ac_resource_version c2, [], None))
    | WGap last_seq next_seq => Err (gap_error last_seq next_seq)
    | WApply => let deleted_resource := deleted_resource_from_stamped_commit c2 in
            let target := returned_resource_target c2 in
            let? applied := apply_mutations parse_from_rfc3339 float_to_string merge (ac_resource_version c2) emit'
                              (ac_mutations c2) (s1, []) in
            let '(s, pending) := applied in
            Ok (advance_metadata_rv_to_at_least_tx (ac_resource_version c2) (upsert_watermark (ac_outbox_watermark commit) s),
                (ac_resource_version c2, pending, or_else deleted_resource (t ← target; read_returned_resource_in_tx t s)))
    end = Ok (s', out) ->
    (d = WDuplicate /\ s' = advance_metadata_rv_to_at_least_tx (ac_resource_version c2) s1)
    \/ (d = WApply /\ exists emit s2 pending,
          apply_mutations parse_from_rfc3339 float_to_string merge (ac_resource_version c2) emit (ac_mutations c2)
            (s1, []) = Ok (s2, pending) /\
          s' = advance_metadata_rv_to_at_least_tx (ac_resource_version c2)
                 (upsert_watermark (ac_outbox_watermark commit) s2))).
  { destruct d; [|intros [= <- <-]; by left|done]. cbn zeta. destruct (apply_mutations _ _ _ _ _ _ _) as [[s2 pending]|] eqn:Ha; [|done].
    cbn [result_bind]. intros [= <- <-]. right. split; [done|]. by exists emit', s2, pending. }
  destruct (ac_outbox_watermark commit) as [w|]; [|auto]. destruct (ac_mutations c2) eqn:Hms; [|auto].
  intros [= <- <-]. left. by exists w.
Qed.

(** *** The mutations that are applied *)

Lemma finalizations_forall (P : LogApplyMutation -> Prop) rv s ms :
  (forall m, (forall f, m <> FinalizeBoundPod f) -> m ∈ ms -> P m) ->
  (forall row, wr_resource_version row = rv -> P (PutWatchEvent row)) ->
  (forall key, P (DeleteResource key)) ->
  Forall P (concat (resolve_finalization rv s <$> ms)).
Proof.
  intros Hm Hw Hd. induction ms as [|m ms IH]; [constructor|]. cbn. apply Forall_app. split.
  - assert (Hself : (forall f, m <> FinalizeBoundPod f) -> Forall P [m]).
    { intros Hne. repeat constructor. apply Hm; [done|by left]. }
    destruct m; try by apply Hself. cbn. repeat case_match; repeat constructor; auto.
  - apply IH. intros m' Hne Hin. apply Hm; [done|by right].
Qed.

Lemma finalizations_keep_row rv s ms :
  existsb is_put_applied_outbox ms = true ->
  existsb is_put_applied_outbox (concat (resolve_finalization rv s <$> ms)) = true.
Proof.
  induction ms as [|m ms IH]; [done|]. cbn. rewrite existsb_app, !orb_true_iff. intros [Hm|Hm]; [left|right; auto].
  destruct m; try done.
Qed.

Lemma noops_forall (P : LogApplyMutation -> Prop) s ms ms' b :
  Forall P ms -> resolve_noops ms s = Ok (ms', b) -> Forall P ms'.
Proof.
  intros HP. revert ms' b. induction HP as [|m ms Hm _ IH]; intros ms' b; [by intros [= <- <-]|].
  cbn [resolve_noops]. destruct m; try (destruct (resolve_noops ms s) as [[rest c]|]; [|done]; cbn;
    intros [= <- <-]; constructor; [done|by eapply IH]).
  destruct (resolve_noop_put_resource_in_tx _ row s) as [o|] eqn:Ho; [|done]. cbn [result_bind].
  destruct (resolve_noops ms s) as [[rest c]|]; [|done]. cbn. destruct o as [row'|]; intros [= <- <-]; [|by eapply IH].
  constructor; [|by eapply IH]. revert Ho. unfold resolve_noop_put_resource_in_tx.
  destruct (get_existing_resource _ _); [|by intros [= <-]]. destruct (negb _); [by intros [= <-]|].
  destruct (validate_put_resource_apply_preconditions _ _); [|done]. cbn.
  destruct (normalize_committed_resource_for_apply _ _ _); [|done]. cbn. destruct (value_eqb _ _); by intros [= <-].
Qed.

Lemma noops_keep_row s ms ms' b :
  existsb is_put_applied_outbox ms = true -> resolve_noops ms s = Ok (ms', b) ->
  existsb is_put_applied_outbox ms' = true.
Proof.
  revert ms' b. induction ms as [|m ms IH]; intros ms' b; [done|]. cbn [existsb resolve_noops].
  destruct m; try (cbn [is_put_applied_outbox orb]; intros Hin; destruct (resolve_noops ms s) as [[rest c]|]; [|done];
    cbn; intros [= <- <-]; cbn; by eauto).
  cbn [is_put_applied_outbox orb]. intros Hin. destruct (resolve_noop_put_resource_in_tx _ row s) as [o|]; [|done].
  cbn [result_bind]. destruct (resolve_noops ms s) as [[rest c]|]; [|done]. cbn.
  destruct o; intros [= <- <-]; cbn; by eauto.
Qed.

Lemma stamp_row rv preserve m : is_put_applied_outbox (stamp_mutation rv preserve m) = is_put_applied_outbox m.
Proof. by destruct m. Qed.

Lemma stamp_rows_all rv preserve ms :
  forallb is_put_applied_outbox (stamp_mutation rv preserve <$> ms) = forallb is_put_applied_outbox ms.
Proof. induction ms as [|m ms IH]; [done|]. cbn. by rewrite stamp_row, IH. Qed.

Lemma stamp_rows_some rv preserve ms :
  existsb is_put_applied_outbox (stamp_mutation rv preserve <$> ms) = existsb is_put_applied_outbox ms.
Proof. induction ms as [|m ms IH]; [done|]. cbn. by rewrite stamp_row, IH. Qed.

(** *** Commits without a version *)

(** A live template, or the ledger rows of one at the current version. *)
Record fresh (commit : ApplyCommit) (s : SqliteState) : Prop := {
  fresh_live : ac_preserve_historical_bytes commit = false;
  fresh_rv : ac_resource_version commit = 0%Z
             \/ (ac_resource_version commit = db_rv s /\ forallb is_put_applied_outbox (ac_mutations commit) = true);
  fresh_events : Forall (event_stamped 0) (ac_mutations commit)
}.

Lemma finalizations_ledger rv s ms :
  forallb is_put_applied_outbox ms = true -> concat (resolve_finalization rv s <$> ms) = ms.
Proof.
  induction ms as [|m ms IH]; [done|]. cbn. rewrite andb_true_iff. intros [Hm Hms]. rewrite IH by done. by destruct m.
Qed.

Lemma fresh_finalizations commit s : fresh commit s -> fresh (resolve_bound_pod_finalizations_in_tx commit s) s.
Proof.
  intros [Hl Hrv He]. split; cbn [resolve_bound_pod_finalizations_in_tx set_mutations ac_preserve_historical_bytes
    ac_resource_version ac_mutations].
  - done.
  - destruct Hrv as [?|[? Hall]]; [by left|right]. by rewrite finalizations_ledger.
  - destruct Hrv as [Hrv|[_ Hall]]; [|by rewrite finalizations_ledger].
    apply finalizations_forall; [|intros row Hr; cbn; congruence|done]. intros m _ Hin. by eapply Forall_forall in He.
Qed.

Lemma fresh_noops commit s c1 : fresh commit s -> resolve_noop_put_resources_in_tx commit s = Ok c1 -> fresh c1 s.
Proof.
  intros [Hl Hrv He]. unfold resolve_noop_put_resources_in_tx. rewrite Hl.
  destruct (resolve_noops (ac_mutations commit) s) as [[ms b]|] eqn:Hn; [|done]. cbn. intros [= <-].
  assert (He' : Forall (event_stamped 0) ms) by by eapply noops_forall.
  destruct (b && forallb is_put_applied_outbox ms) eqn:Hb; split; cbn; try done.
  - right. split; [done|]. by apply andb_true_iff in Hb as [_ ?].
  - destruct Hrv as [?|[? Hall]]; [by left|right]. split; [done|]. apply forallb_forall.
    assert (Forall (fun m => is_put_applied_outbox m = true) ms) as Hms.
    { eapply noops_forall; [|done]. apply Forall_forall. intros m Hm%list_elem_of_In. by eapply forallb_forall in Hall. }
    intros m Hm%list_elem_of_In. by eapply Forall_forall in Hms.
Qed.

Lemma fresh_stamp commit s c2 s1 :
  fresh commit s -> stamp_provisional_resource_version_in_tx commit s = (c2, s1) ->
  Forall (event_stamped (ac_resource_version c2)) (ac_mutations c2) /\
  ((s1 = s /\ ac_resource_version c2 = db_rv s /\ forallb is_put_applied_outbox (ac_mutations c2) = true)
   \/ (s1 = set_rv (db_rv s + 1) s /\ ac_resource_version c2 = db_rv s + 1)%Z).
Proof.
  intros [Hl Hrv He]. unfold stamp_provisional_resource_version_in_tx.
  set (p := if (_ =? 0)%Z && _ then _ else _). destruct p as [rv s2] eqn:Hp. intros [= <- <-]. split.
  - cbn. apply Forall_fmap. eapply Forall_impl; [exact He|]. intros m Hm. destruct m; try done. cbn in Hm |- *.
    by rewrite Hm.
  - cbn [ac_resource_version ac_mutations set_commit_rv set_mutations]. rewrite stamp_rows_all. revert Hp. unfold p. destruct (Z.eqb_spec (ac_resource_version commit) 0) as [H0|H0]; cbn [andb].
    + destruct (forallb is_put_applied_outbox (ac_mutations commit)) eqn:Hall; cbn; intros [= <- <-]; auto.
    + intros [= <- <-]. destruct Hrv as [?|[? ?]]; [done|]. by left.
Qed.

Lemma ledger_mutations rv emit ms s effects st :
  forallb is_put_applied_outbox ms = true ->
  apply_mutations parse_from_rfc3339 float_to_string merge rv emit ms (s, effects) = Ok st ->
  exists o, st.1 = set_outbox o s.
Proof.
  revert s effects. induction ms as [|m ms IH]; intros s effects; [intros _ [= <-]; exists (db_outbox s); by destruct s|].
  cbn [forallb]. rewrite andb_true_iff. intros [Hm Hms]. destruct m; try done. cbn. intros [o ->]%IH; [|done]. by exists o.
Qed.

(** *** The effect of a commit *)

Definition ledger_step (s s' : SqliteState) : Prop := exists o wm, s' = set_watermarks wm (set_outbox o s).

Definition version_step (s s' : SqliteState) : Prop :=
  exists s2 wm, writes (db_rv s + 1) (set_rv (db_rv s + 1) s) s2 /\ s' = set_watermarks wm s2.

Lemma set_same s : set_watermarks (db_watermarks s) (set_outbox (db_outbox s) s) = s.
Proof. by destruct s. Qed.

Lemma advance_current rv s : (rv <= db_rv s)%Z -> advance_metadata_rv_to_at_least_tx rv s = s.
Proof. intros H. unfold advance_metadata_rv_to_at_least_tx. destruct (Z.ltb_spec (db_rv s) rv); [lia|done]. Qed.

Lemma upsert_watermark_rv w s : db_rv (upsert_watermark w s) = db_rv s.
Proof. by destruct w. Qed.

Lemma upsert_watermark_set w s : exists wm, upsert_watermark w s = set_watermarks wm s.
Proof. destruct w; [by eexists|]. exists (db_watermarks s). by destruct s. Qed.

Lemma applied_step commit s s' : fresh commit s -> applied commit s s' -> ledger_step s s' \/ version_step s s'.
Proof.
  intros Hf%fresh_finalizations [d c1 c2 s1 Hd Hn Hs Hb].
  assert (Hf1 : fresh c1 s) by (destruct d; [by eapply fresh_noops|..]; by injection Hn as <-).
  destruct (fresh_stamp _ _ _ _ Hf1 Hs) as [He [(-> & Hrv & Hall)|[-> Hrv]]]; rewrite Hrv in *; [left|right].
  - destruct Hb as [(w & _ & _ & ->)|[[-> ->]|(-> & emit & s2 & pending & Ha & ->)]].
    + rewrite advance_current by done. exists (db_outbox s), (<[watermark_key w := wm_stream_seq w]> (db_watermarks s)). by destruct s.
    + rewrite advance_current by done. exists (db_outbox s), (db_watermarks s). by rewrite set_same.
    + apply ledger_mutations in Ha as [o Ho]; [|done]. cbn in Ho. subst s2.
      rewrite advance_current by (rewrite upsert_watermark_rv; done).
      destruct (upsert_watermark_set (ac_outbox_watermark commit) (set_outbox o s)) as [wm ->]. by exists o, wm.
  - set (sv := set_rv (db_rv s + 1) s) in *. assert (Hrefl : writes (db_rv s + 1) sv sv) by apply writes_refl.
    destruct Hb as [(w & _ & _ & ->)|[[-> ->]|(-> & emit & s2 & pending & Ha & ->)]].
    + rewrite advance_current by done. by exists sv, (<[watermark_key w := wm_stream_seq w]> (db_watermarks s)).
    + rewrite advance_current by done. exists sv, (db_watermarks s). split; [done|]. by destruct s.
    + apply mutations_write in Ha; [|done]. cbn in Ha. rewrite advance_current by (rewrite upsert_watermark_rv, (writes_rv _ _ _ Ha); done).
      destruct (upsert_watermark_set (ac_outbox_watermark commit) s2) as [wm ->]. by exists s2, wm.
Qed.

(** *** Stream positions *)

Lemma validated_event m : validate_mutation m = Ok tt -> event_stamped 0 m.
Proof.
  destruct m; try done. cbn. destruct (validate_json_resource_version _ _); [|done]. cbn.
  destruct (validate_json_resource_version _ _); [|done]. cbn. unfold validate_zero.
  by destruct (Z.eqb_spec (wr_resource_version row) 0).
Qed.

Lemma validated_template commit :
  validate_live_template commit = Ok tt ->
  lc_resource_version commit = 0%Z /\ Forall (event_stamped 0) (lc_mutations commit).
Proof.
  unfold validate_live_template, validate_zero. destruct (Z.eqb_spec (lc_resource_version commit) 0); [|done]. cbn.
  intros Hms. split; [done|]. induction (lc_mutations commit) as [|m ms IH]; [constructor|]. cbn in Hms.
  destruct (validate_mutation m) as [[]|] eqn:Hm; [|done]. constructor; [by apply validated_event|by apply IH].
Qed.

Lemma from_live_fresh commit c s :
  from_live commit = Ok c ->
  fresh c s /\ ac_outbox_watermark c = lc_outbox_watermark commit /\ ac_mutations c = lc_mutations commit.
Proof.
  unfold from_live, validate_live. destruct (validate_live_template commit) as [[]|] eqn:Hv; [|done]. cbn.
  intros [= <-]. destruct (validated_template commit Hv) as [Hrv Hev]. repeat split; cbn; auto.
Qed.

Lemma has_row_nonempty ms : existsb is_put_applied_outbox ms = true -> ms <> [].
Proof. by destruct ms. Qed.

Lemma position_recorded commit s s' w :
  fresh commit s -> ac_outbox_watermark commit = Some w ->
  existsb is_put_applied_outbox (ac_mutations commit) = true -> applied commit s s' ->
  outbox_watermark_decision_in_tx (Some w) s = Ok WDuplicate
  \/ (outbox_watermark_decision_in_tx (Some w) s = Ok WApply
      /\ db_watermarks s' = <[watermark_key w := wm_stream_seq w]> (db_watermarks s)).
Proof.
  intros Hf Hw Hrow [d c1 c2 s1 Hd Hn Hs Hb]. rewrite Hw in *.
  apply fresh_finalizations in Hf. apply (finalizations_keep_row (ac_resource_version commit) s) in Hrow.
  assert (Hrow1 : existsb is_put_applied_outbox (ac_mutations c1) = true).
  { destruct d; [|by injection Hn as <-..]. revert Hn. unfold resolve_noop_put_resources_in_tx. rewrite (fresh_live _ _ Hf).
    cbn [resolve_bound_pod_finalizations_in_tx set_mutations ac_mutations].
    destruct (resolve_noops _ s) as [[ms b]|] eqn:Hms; [|done]. intros [= <-]. cbn. by eapply noops_keep_row. }
  assert (Hf1 : fresh c1 s) by (destruct d; [by eapply fresh_noops|..]; by injection Hn as <-).
  assert (Hrow2 : existsb is_put_applied_outbox (ac_mutations c2) = true).
  { revert Hs. unfold stamp_provisional_resource_version_in_tx. destruct (if _ && _ then _ else _) as [rv s2].
    intros [= <- <-]. cbn. by rewrite stamp_rows_some. }
  destruct Hb as [(w' & _ & Hnil & _)|[[-> _]|(-> & emit & s2 & pending & Ha & ->)]].
  - by apply has_row_nonempty in Hrow2.
  - by left.
  - right. split; [done|]. destruct (fresh_stamp _ _ _ _ Hf1 Hs) as [He Hs1]. apply mutations_write in Ha; [|done].
    assert (Hadv : forall rv t, db_watermarks (advance_metadata_rv_to_at_least_tx rv t) = db_watermarks t)
      by (intros rv t; unfold advance_metadata_rv_to_at_least_tx; by destruct (_ <? _)%Z).
    rewrite Hadv. cbn in Ha |- *. rewrite (writes_watermarks _ _ _ Ha). by destruct Hs1 as [(-> & _)|[-> _]].
Qed.

Lemma genuine_noops ms s : genuine (resolve_noops ms s).
Proof.
  induction ms as [|m ms IH]; [done|]. cbn [resolve_noops].
  destruct m; try (apply genuine_bind; [done|by intros []]). apply genuine_bind; [apply genuine_noop|intros o].
  apply genuine_bind; [done|]. by intros []; destruct o.
Qed.

Lemma genuine_decision w s : genuine (outbox_watermark_decision_in_tx w s).
Proof.
  unfold outbox_watermark_decision_in_tx, decide_position. destruct w as [w|]; [|done].
  destruct (decide_outbox_watermark None _); [|done]. cbn [result_bind]. by destruct (decide_outbox_watermark _ _).
Qed.

(** A conflict comes from the body of a commit at its stream position. *)
Lemma conflict_position commit emit s code message :
  apply_commit_in_tx_with_watch_events commit emit s = Err (Conflict code message) ->
  outbox_watermark_decision_in_tx (ac_outbox_watermark commit) s = Ok WApply
  /\ exists violation, apply_precondition_error violation = Conflict code message.
Proof.
  unfold apply_commit_in_tx_with_watch_events. destruct (_ <? _)%Z; [done|]. set (c := resolve_bound_pod_finalizations_in_tx commit s).
  set (emit' := emit && _). change (ac_outbox_watermark c) with (ac_outbox_watermark commit).
  destruct (outbox_watermark_decision_in_tx (ac_outbox_watermark commit) s) as [d|e] eqn:Hd; cbn [result_bind].
  2:{ pose proof (genuine_decision (ac_outbox_watermark commit) s) as Hg. rewrite Hd in Hg. intros [= ->].
      revert Hd. unfold outbox_watermark_decision_in_tx, decide_position. destruct (ac_outbox_watermark commit) as [w|]; [|done].
      destruct (decide_outbox_watermark None _); [|done]. cbn [result_bind]. by destruct (decide_outbox_watermark _ _). }
  destruct d as [| |last next].
  - intros Hr. split; [done|]. enough (Hg : genuine (A := SqliteState * (Z * list StagedPostCommit * option Resource))
      (Err (Conflict code message))) by exact Hg. rewrite <- Hr. apply genuine_bind.
    + unfold resolve_noop_put_resources_in_tx. destruct (ac_preserve_historical_bytes c); [done|].
      apply genuine_bind; [apply genuine_noops|done].
    + intros c1. destruct (stamp_provisional_resource_version_in_tx c1 s) as [c2 s1].
      assert (Hm : forall w, genuine (let? applied := apply_mutations parse_from_rfc3339 float_to_string merge
          (ac_resource_version c2) emit' (ac_mutations c2) (s1, []) in let '(s, pending) := applied in
          Ok (advance_metadata_rv_to_at_least_tx (ac_resource_version c2) (upsert_watermark w s),
              (ac_resource_version c2, pending, or_else (deleted_resource_from_stamped_commit c2)
                 (t ← returned_resource_target c2; read_returned_resource_in_tx t s))))).
      { intros w. apply genuine_bind; [apply genuine_mutations|]. by intros []. }
      destruct (ac_outbox_watermark c2); [destruct (ac_mutations c2); [done|]|]; apply Hm.
  - cbn [result_bind]. destruct (stamp_provisional_resource_version_in_tx c s) as [c2 s1].
    destruct (ac_outbox_watermark c2); [destruct (ac_mutations c2)|]; done.
  - cbn [result_bind]. destruct (stamp_provisional_resource_version_in_tx c s) as [c2 s1].
    destruct (ac_outbox_watermark c2); [destruct (ac_mutations c2)|]; done.
Qed.

(** *** The raft entry point, taken apart *)

Definition ledger_template (commit : LogApplyCommit) : option LogApplyAppliedOutboxRow :=
  head (omap outbox_row (lc_mutations commit)).

Definition ledger_answer (commit : LogApplyCommit) (s : SqliteState) : option LogApplyAppliedOutboxRow :=
  template ← ledger_template commit; db_outbox s !! or_idempotency_key template.

Definition rejects (outcome : CommittedApplyOutcome) : Prop :=
  match outcome with Rejected _ => True | _ => False end.

(** Two ledgers with rows of the same keys in the same places. *)
Definition same_keys (o o' : gmap string LogApplyAppliedOutboxRow) : Prop := or_idempotency_key <$> o = or_idempotency_key <$> o'.

Inductive raft_result (commit : LogApplyCommit) (s : SqliteState) : SqliteState -> CommittedApplyOutcome -> Prop :=
| RaftKept outcome : ~ rejects outcome -> raft_result commit s s outcome
| RaftReplayed existing applied_rv message returned :
    ledger_answer commit s = Some existing ->
    receipt_from_applied_outbox existing = Ok (applied_rv, Some message, returned) ->
    raft_result commit s s (Rejected (committed_rejection_from_message message))
| RaftApplied c s1 o outcome :
    outbox_watermark_decision_in_tx (lc_outbox_watermark commit) s <> Ok WDuplicate ->
    fresh c s -> ac_outbox_watermark c = lc_outbox_watermark commit ->
    (ac_mutations c = lc_mutations commit
     \/ ac_mutations c = filter (fun m => is_put_applied_outbox m = true) (lc_mutations commit)) ->
    applied c s s1 -> same_keys o (db_outbox s1) -> ~ rejects outcome -> raft_result commit s (set_outbox o s1) outcome
| RaftRejected violation code message :
    outbox_watermark_decision_in_tx (lc_outbox_watermark commit) s = Ok WApply ->
    apply_precondition_error violation = Conflict code message ->
    raft_result commit s
      (record_rejection (lc_outbox_watermark commit) (ledger_template commit) (conflict_text code message) s)
      (Rejected (committed_rejection_from_conflict code (conflict_text code message))).

Lemma set_outbox_same s : set_outbox (db_outbox s) s = s.
Proof. by destruct s. Qed.

Lemma record_finalization_outbox template resource rv s s' :
  record_finalization template resource rv s = Ok s' -> exists o, s' = set_outbox o s /\ same_keys o (db_outbox s).
Proof.
  unfold record_finalization. intros H.
  assert (Hsame : s = s' -> exists o, s' = set_outbox o s /\ same_keys o (db_outbox s)).
  { intros <-. exists (db_outbox s). by rewrite set_outbox_same. }
  destruct template as [template|], resource as [resource|]; try (apply Hsame; congruence).
  destruct (_ && _); [|apply Hsame; congruence]. destruct (encode _); [|done].
  destruct (db_outbox s !! _) as [row|] eqn:Hrow; [|done]. injection H as <-. eexists. split; [done|].
  unfold same_keys. rewrite fmap_insert. cbn. apply insert_id. by rewrite lookup_fmap, Hrow.
Qed.

Lemma attempt_result commit s s' o :
  outbox_watermark_decision_in_tx (lc_outbox_watermark commit) s <> Ok WDuplicate ->
  attempt commit (ledger_template commit) s = Ok (s', o) -> raft_result commit s s' (committed_outcome o).
Proof.
  intros Hd. unfold attempt, apply_commit_in_tx_returning_rv_and_mutation_with_context.
  destruct (from_live commit) as [c|e] eqn:Hl; cbn [result_bind].
  2:{ revert Hl. unfold from_live, validate_live. destruct (validate_live_template commit) as [[]|]; [done|]. by intros [= <-]. }
  destruct (from_live_fresh commit c s Hl) as (Hf & Hw & Hms).
  destruct (apply_commit_in_tx_with_watch_events c _ s) as [[s1 [[rv pending] resource]]|e] eqn:Ha.
  - apply apply_commit_applied in Ha. destruct (record_finalization _ _ _ s1) as [s2|] eqn:Hr; [|done]. cbn [result_bind].
    intros [= <- <-]. apply record_finalization_outbox in Hr as (o' & -> & Hkeys). cbn.
    eapply RaftApplied; [done..|by left|done|done|]. destruct (_ || _); by intros [].
  - destruct e as [code message| | | |]; try done. intros [= <- <-]. cbn.
    apply conflict_position in Ha as [Hd' [v Hv]]. rewrite Hw in Hd'. by eapply RaftRejected.
Qed.

Lemma raft_cases commit s s' o :
  apply_commit_in_tx_for_raft_with_context commit s = Ok (s', o) -> raft_result commit s s' (committed_outcome o).
Proof.
  unfold apply_commit_in_tx_for_raft_with_context. set (effect := endpoint_effect _ _ _).
  destruct (validate_live commit) as [[]|]; [|done]. cbn [result_bind]. fold (ledger_template commit).
  fold (ledger_answer commit s). intros H.
  assert (Hrest : match ledger_answer commit s with
    | Some existing => let? outcome := replay_from_ledger existing effect in Ok (s, outcome)
    | None =>
        let? decision := outbox_watermark_decision_in_tx (lc_outbox_watermark commit) s in
        match decision, stale_stamp commit s with
        | WDuplicate, _ => Ok (s, outcome_try_new (NoPublicChange (db_rv s) DuplicateWatermark) [] effect)
        | _, Some (last, incoming) => record_ledger_only commit last incoming effect s
        | _, None => attempt commit (ledger_template commit) s
        end
    end = Ok (s', o) \/ (s' = s /\ ~ rejects (committed_outcome o))).
  { destruct (lc_mutations commit), (lc_outbox_watermark commit); auto. injection H as <- <-. right. split; [done|]. by intros []. }
  clear H. destruct Hrest as [H|[-> Hn]]; [|by apply RaftKept]. revert H.
  destruct (ledger_answer commit s) as [existing|] eqn:He.
  { unfold replay_from_ledger. destruct (receipt_from_applied_outbox existing) as [[[applied_rv message] returned]|] eqn:Hr;
      [|done]. cbn. destruct message as [message|].
    - assert (Hsame : forall (a : option Z) (x : result DbError RaftLogApplyOutcome),
        match a with Some _ => x | None => x end = x) by by intros [].
      rewrite Hsame. intros [= <- <-]. by eapply RaftReplayed.
    - destruct applied_rv; [|done]. intros [= <- <-]. apply RaftKept. by intros []. }
  destruct (outbox_watermark_decision_in_tx (lc_outbox_watermark commit) s) as [d|] eqn:Hd; [|done]. cbn [result_bind].
  assert (d = WDuplicate \/ d <> WDuplicate) as [->|Hne] by (destruct d; auto; by right); [intros [= <- <-]; apply RaftKept; by intros []|].
  assert (Hd' : outbox_watermark_decision_in_tx (lc_outbox_watermark commit) s <> Ok WDuplicate) by (rewrite Hd; congruence).
  destruct (stale_stamp commit s) as [[last incoming]|].
  - intros H. assert (Hl : record_ledger_only commit last incoming effect s = Ok (s', o)) by by destruct d. clear H.
    revert Hl. unfold record_ledger_only. destruct (from_live _) as [c|] eqn:Hl; [|done]. cbn [result_bind].
    destruct (from_live_fresh _ c s Hl) as ([Hlive _ Hev] & Hw & Hms).
    destruct (apply_commit_in_tx_with_watch_events _ true s) as [[s1 [[rv pending] resource]]|] eqn:Ha; [|done].
    cbn [result_bind]. destruct (stamp_cmp last incoming); cbn [result_bind]; try done; intros [= <- <-]; cbn.
    all: apply apply_commit_applied in Ha; rewrite <- (set_outbox_same s1); apply (RaftApplied _ _ (set_commit_rv (db_rv s) c) s1);
      [done| |exact Hw|right; exact Hms|done|done|by intros []].
    all: split; cbn; [done| |done]; right; split; [done|]; rewrite Hms; cbn; apply forallb_forall;
      intros m Hm%list_elem_of_In; by apply list_elem_of_filter in Hm as [? _].
  - intros H. apply attempt_result; [done|]. by destruct d.
Qed.

(** ** Deliveries *)

(** An error abandons the transaction. *)
Definition delivery (commit : LogApplyCommit) (s : SqliteState) : SqliteState :=
  match apply_commit_in_tx_for_raft_with_context commit s with Ok (s', _) => s' | Err _ => s end.

(** Deliver in order; the first result lists the commits that moved a stream. *)
Fixpoint deliver (commits : list LogApplyCommit) (s : SqliteState) : list LogApplyCommit * SqliteState :=
  match commits with
  | [] => ([], s)
  | commit :: commits' =>
      let s1 := delivery commit s in
      let '(accepted, s2) := deliver commits' s1 in
      (if bool_decide (db_watermarks s1 = db_watermarks s) then accepted else commit :: accepted, s2)
  end.

Definition stream_position (key : string * Z) (commit : LogApplyCommit) : option Z :=
  w ← lc_outbox_watermark commit; if bool_decide (watermark_key w = key) then Some (wm_stream_seq w) else None.

Definition last_position (key : string * Z) (s : SqliteState) : Z := unwrap_or 0%Z (db_watermarks s !! key).

(** A commit of an outbox stream, with its ledger row, as the leader authors every
    outbox entry ([append_applied_outbox_ledger_mutation]).  Without one an entry
    can come down to its stream position alone, which is recorded unchecked. *)
Definition tracked (commit : LogApplyCommit) : Prop :=
  is_Some (lc_outbox_watermark commit) /\ existsb is_put_applied_outbox (lc_mutations commit) = true.

Lemma next_position w s :
  outbox_watermark_decision_in_tx (Some w) s = Ok WApply -> wm_stream_seq w = (last_position (watermark_key w) s + 1)%Z.
Proof.
  unfold outbox_watermark_decision_in_tx, decide_position, decide_outbox_watermark, last_position.
  destruct (Z.leb_spec (wm_stream_seq w) 0); [done|]. cbn [result_bind]. destruct (_ !! _) as [last|].
  - destruct (Z.leb_spec (wm_stream_seq w) last); [done|]. destruct (Z.eqb_spec (wm_stream_seq w) (saturating_i64 (last + 1))); [|done].
    intros _. cbn. unfold saturating_i64, i64_max, i64_min in *. lia.
  - by destruct (Z.eqb_spec (wm_stream_seq w) 1).
Qed.

Lemma filter_keep_row ms :
  existsb is_put_applied_outbox ms = true ->
  existsb is_put_applied_outbox (filter (fun m => is_put_applied_outbox m = true) ms) = true.
Proof.
  induction ms as [|m ms IH]; [done|]. cbn [existsb]. rewrite filter_cons. destruct (decide _) as [Hm|Hm].
  - intros _. cbn. by rewrite Hm.
  - apply not_true_is_false in Hm. by rewrite Hm.
Qed.

Lemma record_rejection_watermarks w template message s :
  db_watermarks (record_rejection (Some w) template message s)
  = <[watermark_key w := wm_stream_seq w]> (db_watermarks s).
Proof. by destruct template. Qed.

Lemma delivery_position commit w s :
  tracked commit -> lc_outbox_watermark commit = Some w ->
  delivery commit s = s
  \/ (wm_stream_seq w = (last_position (watermark_key w) s + 1)%Z
      /\ db_watermarks (delivery commit s) = <[watermark_key w := wm_stream_seq w]> (db_watermarks s)).
Proof.
  intros [_ Hrow] Hw. unfold delivery.
  destruct (apply_commit_in_tx_for_raft_with_context commit s) as [[s' o]|] eqn:Hr; [|by left].
  apply raft_cases in Hr. destruct Hr as [outcome _|existing applied_rv message returned _ _|c s1 o' outcome Hd Hf Hcw Hms Ha _ _|v code message Hd _].
  - by left.
  - by left.
  - right. rewrite Hw in *. assert (Hrow' : existsb is_put_applied_outbox (ac_mutations c) = true).
    { destruct Hms as [->| ->]; [done|]. by apply filter_keep_row. }
    destruct (position_recorded c s s1 w Hf Hcw Hrow' Ha) as [?|[Hd' Hwm]]; [done|]. split; [by apply next_position|done].
  - right. rewrite Hw in *. split; [by apply next_position|]. apply record_rejection_watermarks.
Qed.

Lemma delivery_moves commit s :
  tracked commit ->
  if bool_decide (db_watermarks (delivery commit s) = db_watermarks s) then delivery commit s = s
  else forall key, match stream_position key commit with
                   | Some seq => seq = (last_position key s + 1)%Z /\ last_position key (delivery commit s) = seq
                   | None => last_position key (delivery commit s) = last_position key s
                   end.
Proof.
  intros Ht. pose proof Ht as [[w Hw] _]. destruct (delivery_position commit w s Ht Hw) as [->|[Hseq Hwm]];
    [by rewrite bool_decide_eq_true_2|].
  rewrite bool_decide_eq_false_2.
  - intros key. unfold stream_position, last_position in *. rewrite Hw. cbn. case_bool_decide as Hk.
    + subst key. split; [done|]. by rewrite Hwm, lookup_insert_eq.
    + by rewrite Hwm, lookup_insert_ne by done.
  - rewrite Hwm. intros Heq. apply (f_equal (fun m => m !! watermark_key w)) in Heq. rewrite lookup_insert_eq in Heq.
    unfold last_position in Hseq. rewrite <- Heq in Hseq. cbn in Hseq. lia.
Qed.

Lemma deliver_positions commits s key :
  Forall tracked commits ->
  (last_position key s <= last_position key (deliver commits s).2)%Z /\
  omap (stream_position key) (deliver commits s).1
  = seqZ (last_position key s + 1) (last_position key (deliver commits s).2 - last_position key s).
Proof.
  intros Hc. revert s. induction Hc as [|commit commits Ht _ IH]; intros s; cbn [deliver].
  { cbn. split; [lia|]. by rewrite Z.sub_diag. }
  specialize (IH (delivery commit s)). pose proof (delivery_moves commit s Ht) as Hm.
  destruct (deliver commits (delivery commit s)) as [accepted s2]. cbn [fst snd] in *.
  case_bool_decide; [by rewrite Hm in IH|]. specialize (Hm key). destruct IH as [Hle Hseq].
  cbn [omap list_omap]. destruct (stream_position key commit) as [seq|].
  - destruct Hm as [Hs Hl]. rewrite Hl, Hs in *. split; [lia|]. rewrite seqZ_cons by lia. f_equal. rewrite Hseq. f_equal; lia.
  - rewrite Hm in *. by split.
Qed.

Lemma deliver_accepted commits s :
  Forall tracked commits -> deliver (deliver commits s).1 s = deliver commits s.
Proof.
  intros Hc. revert s. induction Hc as [|commit commits Ht _ IH]; intros s; [done|]. cbn [deliver].
  specialize (IH (delivery commit s)). pose proof (delivery_moves commit s Ht) as Hm.
  destruct (deliver commits (delivery commit s)) as [accepted s2]. cbn [fst snd] in *.
  case_bool_decide as Hb; [by rewrite Hm in IH|]. cbn [deliver]. rewrite IH. by rewrite bool_decide_eq_false_2.
Qed.

(** Each position of an outbox stream takes effect once and in order.
    Whatever order the entries of any number of streams are delivered in, with
    repeats, gaps and failed attempts, the entries that move a stream have the
    positions [1, 2, .., n] of that stream, [n] is the recorded position, and the
    other deliveries leave no trace: delivering only those that moved a stream
    gives the same database. *)
Theorem stream_exactly_once commits (Htracked : Forall tracked commits) :
  let '(accepted, s) := deliver commits empty_db in
  (forall key, omap (stream_position key) accepted = seqZ 1 (last_position key s))
  /\ deliver accepted empty_db = (accepted, s).
Proof.
  pose proof (deliver_accepted commits empty_db Htracked) as Hagain.
  pose proof (fun key => deliver_positions commits empty_db key Htracked) as Hpos.
  destruct (deliver commits empty_db) as [accepted s]. cbn [fst snd] in *. split; [|done]. intros key.
  destruct (Hpos key) as [_ ->]. f_equal. unfold last_position. cbn. rewrite lookup_empty. cbn. lia.
Qed.

(** ** Rejections are recorded *)

(** The recorded text of a conflict names its kind. *)
Lemma rejection_classified violation code message :
  apply_precondition_error violation = Conflict code message ->
  committed_rejection_from_message (conflict_text code message)
  = committed_rejection_from_conflict code (conflict_text code message).
Proof.
  destruct violation; cbn [apply_precondition_error]; intros [= <- <-]; by vm_compute.
Qed.

Lemma replayed_answer commit existing applied_rv message returned s s' o t :
  apply_commit_in_tx_for_raft_with_context commit s = Ok (s', o) -> ledger_answer commit t = Some existing ->
  receipt_from_applied_outbox existing = Ok (applied_rv, Some message, returned) ->
  exists o', apply_commit_in_tx_for_raft_with_context commit t = Ok (t, o')
             /\ committed_outcome o' = Rejected (committed_rejection_from_message message) /\ pending o' = [].
Proof.
  unfold apply_commit_in_tx_for_raft_with_context. destruct (validate_live commit) as [[]|]; [|done]. cbn [result_bind].
  intros _ Ha Hr. unfold ledger_answer, ledger_template in Ha. rewrite Ha. unfold replay_from_ledger. rewrite Hr.
  destruct (lc_mutations commit); [done|]. eexists. by destruct applied_rv.
Qed.

(** C12.  A rejected entry changes nothing but the ledger and its stream
    position, and the answer is durable: at any later state that still has the
    entry's ledger row, delivering the entry again returns the same rejection,
    publishes nothing and leaves the database as it is. *)
Theorem rejection_durable commit s s' o rejection
    (Hcodec : forall message, exists bytes, encode (RespError message) = Ok bytes /\ decode bytes = Ok (RespError message))
    (Happly : apply_commit_in_tx_for_raft_with_context commit s = Ok (s', o))
    (Hrejected : committed_outcome o = Rejected rejection) :
  (exists ledger positions, s' = set_watermarks positions (set_outbox ledger s)) /\
  forall t row, ledger_answer commit s' = Some row -> ledger_answer commit t = Some row ->
    exists o', apply_commit_in_tx_for_raft_with_context commit t = Ok (t, o')
               /\ committed_outcome o' = Rejected rejection /\ pending o' = [].
Proof.
  pose proof Happly as Hr. apply raft_cases in Hr. rewrite Hrejected in Hr.
  inversion Hr as [outcome Hn|existing applied_rv message returned Ha Hm|? ? ? ? ? ? ? ? ? ? Hn|v code message Hd Hv]; subst.
  - by destruct Hn.
  - split; [exists (db_outbox s'), (db_watermarks s'); by rewrite set_same|]. intros t row Hrow Ht.
    rewrite Ha in Hrow. injection Hrow as <-. by eapply replayed_answer.
  - by destruct Hn.
  - split; [|intros t row Hrow Ht].
    + unfold record_rejection. destruct (upsert_watermark_set (lc_outbox_watermark commit) s) as [wm ->].
      destruct (ledger_template commit) as [template|]; [by eexists _, wm|].
      exists (db_outbox s), wm. by rewrite set_outbox_same.
    + rewrite <- (rejection_classified v) by done. eapply replayed_answer; [done..|].
      unfold ledger_answer in Hrow. destruct (ledger_template commit) as [template|]; [|done]. cbn in Hrow.
      rewrite lookup_insert_eq in Hrow. injection Hrow as <-. unfold receipt_from_applied_outbox. cbn.
      destruct (Hcodec (conflict_text code message)) as (bytes & He & Hdec). unfold encode_or_default. by rewrite He, Hdec.
Qed.

(** ** Versions *)

(** No version in the database is ahead of the counter. *)
Record versions_ok (s : SqliteState) : Prop := {
  vo_namespaced : forall key row, namespaced_resources (db_resources s) !! key = Some row -> (rw_resource_version row <= db_rv s)%Z;
  vo_cluster : forall key row, cluster_resources (db_resources s) !! key = Some row -> (rw_resource_version row <= db_rv s)%Z;
  vo_namespaces : forall name row, db_namespaces s !! name = Some row -> (ns_resource_version row <= db_rv s)%Z;
  vo_events : forall e, e ∈ watch_events (db_watch s) -> (ev_resource_version e.2 <= db_rv s)%Z
}.

Lemma delivery_step commit s : ledger_step s (delivery commit s) \/ version_step s (delivery commit s).
Proof.
  assert (Hkept : ledger_step s s) by (exists (db_outbox s), (db_watermarks s); by rewrite set_same).
  unfold delivery. destruct (apply_commit_in_tx_for_raft_with_context commit s) as [[s' o]|] eqn:Hr; [|by left].
  apply raft_cases in Hr. destruct Hr as [outcome _|existing applied_rv message returned _ _|c s1 o' outcome _ Hf _ _ Ha _ _|v code message _ _].
  - by left.
  - by left.
  - destruct (applied_step c s s1 Hf Ha) as [(o2 & wm & ->)|(s2 & wm & Hw & ->)]; [left; by exists o', wm|right].
    exists (set_outbox o' s2), wm. split; [|done]. eapply writes_trans; [done|]. by apply writes_other.
  - left. unfold record_rejection. destruct (upsert_watermark_set (lc_outbox_watermark commit) s) as [wm ->].
    destruct (ledger_template commit) as [template|]; [by eexists _, wm|]. exists (db_outbox s), wm. by rewrite set_outbox_same.
Qed.

Lemma rows_fresh_bound {K A} `{Countable K} (version : A -> Z) (rv : Z) (m m' : gmap K A) :
  rows_fresh version (rv + 1) m m' -> (forall k row, m !! k = Some row -> version row <= rv)%Z ->
  forall k row, m' !! k = Some row -> (version row <= rv + 1)%Z.
Proof. intros Hf Hb k row Hk. destruct (Hf k row Hk) as [Hold| ->]; [apply Hb in Hold|]; lia. Qed.

Lemma delivery_versions commit s : versions_ok s -> versions_ok (delivery commit s).
Proof.
  intros [Ha Hb Hc Hd]. destruct (delivery_step commit s) as [(o & wm & ->)|(s2 & wm & [? Hrv Hn Hcl Hns Hev] & ->)]; [done|].
  split; cbn in *; rewrite Hrv.
  - by eapply rows_fresh_bound.
  - by eapply rows_fresh_bound.
  - by eapply rows_fresh_bound.
  - intros e [He| ->]%Hev; [apply Hd in He|]; lia.
Qed.

Lemma deliver_versions commits s : versions_ok s -> versions_ok (deliver commits s).2.
Proof.
  revert s. induction commits as [|commit commits IH]; intros s Hok; [done|]. cbn [deliver].
  specialize (IH _ (delivery_versions commit s Hok)). by destruct (deliver commits (delivery commit s)).
Qed.

Lemma versions_ok_empty : versions_ok empty_db.
Proof. split; cbn; try (intros ? ? H; by rewrite lookup_empty in H). intros e He. by apply not_elem_of_nil in He. Qed.

(** C9.  A resource version names one state.  After any deliveries no stored row
    and no watch event is ahead of the counter; a further delivery either leaves
    the counter, all resources, namespaces and the watch log as they were, or
    moves the counter by exactly one and gives that version, larger than every
    version handed out before, to every row and event it writes. *)
Theorem versions_never_reused commits commit :
  let s := (deliver commits empty_db).2 in
  let s' := delivery commit s in
  versions_ok s /\
  ((db_rv s' = db_rv s /\ db_resources s' = db_resources s /\ db_namespaces s' = db_namespaces s
    /\ db_watch s' = db_watch s)
   \/ (db_rv s' = db_rv s + 1
       /\ rows_fresh rw_resource_version (db_rv s + 1) (namespaced_resources (db_resources s)) (namespaced_resources (db_resources s'))
       /\ rows_fresh rw_resource_version (db_rv s + 1) (cluster_resources (db_resources s)) (cluster_resources (db_resources s'))
       /\ rows_fresh ns_resource_version (db_rv s + 1) (db_namespaces s) (db_namespaces s')
       /\ forall e, e ∈ watch_events (db_watch s') ->
            e ∈ watch_events (db_watch s) \/ ev_resource_version e.2 = db_rv s + 1)%Z).
Proof.
  intros s s'. split; [apply deliver_versions, versions_ok_empty|].
  unfold s'. destruct (delivery_step commit s) as [(o & wm & ->)|(s2 & wm & [? Hrv Hn Hcl Hns Hev] & ->)]; [by left|right].
  by split_and!.
Qed.

(** ** Indexed lists *)

Lemma stamp_named rv preserve m : named m -> named (stamp_mutation rv preserve m).
Proof. by destruct m. Qed.

Lemma applied_index commit s s' :
  Forall named (ac_mutations commit) -> index_ok float_to_string (db_resources s) -> applied commit s s' ->
  index_ok float_to_string (db_resources s').
Proof.
  intros Hnamed Hok [d c1 c2 s1 Hd Hn Hs Hb].
  assert (Hadv : forall rv t, db_resources (advance_metadata_rv_to_at_least_tx rv t) = db_resources t)
    by (intros rv t; unfold advance_metadata_rv_to_at_least_tx; by destruct (_ <? _)%Z).
  assert (Hup : forall w t, db_resources (upsert_watermark w t) = db_resources t) by by intros [].
  set (c := resolve_bound_pod_finalizations_in_tx commit s) in *.
  assert (Hc : Forall named (ac_mutations c)).
  { apply finalizations_forall; [|done|done]. intros m _ Hin. by eapply Forall_forall in Hnamed. }
  assert (Hc1 : Forall named (ac_mutations c1)).
  { destruct d; [|by injection Hn as <-..]. revert Hn. unfold resolve_noop_put_resources_in_tx.
    destruct (ac_preserve_historical_bytes c); [by intros [= <-]|]. destruct (resolve_noops _ s) as [[ms b]|] eqn:Hms; [|done].
    intros [= <-]. cbn. by eapply noops_forall. }
  assert (Hc2 : Forall named (ac_mutations c2) /\ db_resources s1 = db_resources s).
  { revert Hs. unfold stamp_provisional_resource_version_in_tx. destruct (if _ && _ then _ else _) as [rv s2] eqn:Hp.
    intros [= <- <-]. split; [cbn; apply Forall_fmap; eapply Forall_impl; [exact Hc1|]; intros m; apply stamp_named|].
    revert Hp. destruct (_ =? 0)%Z, (forallb _ _); cbn; by intros [= <- <-]. }
  destruct Hc2 as [Hc2 Hs1].
  destruct Hb as [(w & _ & _ & ->)|[[-> ->]|(-> & emit & s2 & pending & Ha & ->)]]; rewrite Hadv.
  - cbn. by rewrite Hs1.
  - by rewrite Hs1.
  - rewrite Hup. apply (mutations_index _ _ _ _ _ _ _ _ Hc2) in Ha; [done|]. cbn. by rewrite Hs1.
Qed.

Lemma delivery_index commit s :
  Forall named (lc_mutations commit) -> index_ok float_to_string (db_resources s) ->
  index_ok float_to_string (db_resources (delivery commit s)).
Proof.
  intros Hnamed Hok. unfold delivery. destruct (apply_commit_in_tx_for_raft_with_context commit s) as [[s' o]|] eqn:Hr; [|done].
  apply raft_cases in Hr. destruct Hr as [outcome _|existing applied_rv message returned _ _|c s1 o' outcome _ _ _ Hms Ha _ _|v code message _ _].
  - done.
  - done.
  - cbn. apply (applied_index c s s1); [|done..]. destruct Hms as [->| ->]; [done|].
    apply Forall_forall. intros m [_ Hin]%list_elem_of_filter. by eapply Forall_forall in Hnamed.
  - unfold record_rejection. by destruct (ledger_template commit), (lc_outbox_watermark commit).
Qed.

Lemma deliver_index commits s :
  Forall (fun commit => Forall named (lc_mutations commit)) commits -> index_ok float_to_string (db_resources s) ->
  index_ok float_to_string (db_resources (deliver commits s).2).
Proof.
  intros Hc. revert s. induction Hc as [|commit commits Hn _ IH]; intros s Hok; [done|]. cbn [deliver].
  specialize (IH _ (delivery_index commit s Hn Hok)). by destruct (deliver commits (delivery commit s)).
Qed.

(** C11.  A list request answered from the index tables is answered as if every
    body were decoded.  After any deliveries the plan for the label and field
    selectors, evaluated over the index rows stored for a resource, selects it
    exactly when its body matches; the owner rows are those its body names; and
    what is not stored has no index rows. *)
Theorem indexed_list_exact commits labels fields api_version kind base_params
    (Hnamed : Forall (fun commit => Forall named (lc_mutations commit)) commits) :
  let t := db_resources (deliver commits empty_db).2 in
  forall namespace name,
    let key := (api_version, kind, namespace, name) in
    match body_at key t with
    | Some data =>
        rows_at key (resource_owner_refs t) = extract_owner_refs data /\
        (labels_ok data ->
         plan_selects_rows float_to_string (build_selector_pushdown labels fields api_version kind (length base_params))
           base_params (rows_at key (resource_labels t)) (rows_at key (resource_fields t)) api_version kind data
         = matches_resource labels data
           && FieldSelector_matches_with_identity float_to_string fields api_version kind data)
    | None => rows_at key (resource_labels t) = [] /\ rows_at key (resource_fields t) = []
              /\ rows_at key (resource_owner_refs t) = []
    end.
Proof.
  intros t namespace name key.
  assert (index_ok float_to_string t) as [Hl Hf Ho _] by (apply deliver_index; [done|apply index_ok_empty]).
  specialize (Hl api_version kind namespace name). specialize (Hf api_version kind namespace name).
  specialize (Ho api_version kind namespace name). fold key in Hl, Hf, Ho. rewrite Hl, Hf, Ho.
  destruct (body_at key t) as [data|]; [|done]. split; [done|]. apply selector_pushdown_exact.
Qed.

End Parameters.

(** ** Examples *)

Definition sample_encode (response : StorageResponse) : result string string :=
  match response with
  | RespError message => Ok (String "E" message)
  | RespAck _ => Ok "A"
  | _ => Err "not in the sample"
  end.

Definition sample_decode (bytes : string) : result string StorageResponse :=
  match bytes with
  | String "E" message => Ok (RespError message)
  | String "A" EmptyString => Ok (RespAck 0)
  | _ => Err "not in the sample"
  end.

Definition sample_row (name value : string) (require_absent : bool) : LogApplyResourceRow :=
  mkResourceRow "v1" "ConfigMap" (Some "default") name ("uid-" +:+ name) 0
    (Object [("apiVersion", Str "v1"); ("data", Object [("k", Str value)]); ("kind", Str "ConfigMap");
             ("metadata", Object [("labels", Object [("app", Str value)]); ("name", Str name);
                                  ("namespace", Str "default"); ("uid", Str ("uid-" +:+ name))])])
    require_absent false None None false.

(** The entry of a stream at a position, with its ledger key. *)
Definition sample_commit (key : string) (seq : Z) (row : LogApplyResourceRow) : LogApplyCommit :=
  mkCommit 0 (Some (mkWatermark "n1" 1 seq))
    [PutResource row; PutAppliedOutbox (mkOutboxRow key "subject" "ConfigMap" 0 None "A" None)].

Definition sample_deliveries : list LogApplyCommit :=
  [ sample_commit "k1" 1 (sample_row "a" "x" true); sample_commit "k1" 1 (sample_row "a" "x" true);
    sample_commit "k3" 3 (sample_row "c" "x" true); sample_commit "k2" 2 (sample_row "b" "x" true);
    sample_commit "k2b" 2 (sample_row "b" "y" false); sample_commit "k3" 3 (sample_row "a" "y" true);
    sample_commit "k4" 4 (sample_row "b" "x" false) ].

Abbreviation sample_deliver := (deliver (fun _ => None) (fun _ => "") (fun _ patch => patch) sample_encode sample_decode).
Abbreviation sample_apply :=
  (apply_commit_in_tx_for_raft_with_context (fun _ => None) (fun _ => "") (fun _ patch => patch) sample_encode sample_decode).

(** A repeat, a gap, a second entry at a position, a rejection and a put that
    changes nothing. *)
Lemma stream_exactly_once_witness :
  omap (stream_position ("n1", 1%Z)) (sample_deliver sample_deliveries empty_db).1 = [1; 2; 3; 4]%Z
  /\ let '(accepted, s) := sample_deliver sample_deliveries empty_db in
     (forall key, omap (stream_position key) accepted = seqZ 1 (last_position key s))
     /\ sample_deliver accepted empty_db = (accepted, s).
Proof.
  split; [vm_compute; reflexivity|]. apply stream_exactly_once. repeat constructor; cbn; eauto.
Defined.

Definition sample_first : SqliteState := (sample_deliver [sample_commit "k1" 1 (sample_row "a" "x" true)] empty_db).2.
Definition sample_conflict : LogApplyCommit := sample_commit "k2" 2 (sample_row "a" "y" true).

(** The rejection of an attempt that left a ledger row for the entry. *)
Definition recorded_rejection (commit : LogApplyCommit) (r : result DbError (SqliteState * RaftLogApplyOutcome))
    : option CommittedApplyRejection :=
  match r with
  | Ok (s', o) =>
      match committed_outcome o, ledger_answer commit s' with
      | Rejected rejection, Some _ => Some rejection
      | _, _ => None
      end
  | Err _ => None
  end.

Lemma rejection_durable_witness :
  exists s' o rejection, sample_apply sample_conflict sample_first = Ok (s', o)
  /\ committed_outcome o = Rejected rejection
  /\ exists o', sample_apply sample_conflict s' = Ok (s', o') /\ committed_outcome o' = Rejected rejection /\ pending o' = [].
Proof.
  assert (Hr : recorded_rejection sample_conflict (sample_apply sample_conflict sample_first)
               = Some (RejAlreadyExists "AlreadyExists: Resource already exists (409 Conflict)"))
    by (vm_compute; reflexivity).
  destruct (sample_apply sample_conflict sample_first) as [[s' o]|] eqn:Happly; [|discriminate Hr]. cbn [recorded_rejection] in Hr.
  destruct (committed_outcome o) as [| |rejection] eqn:Ho; [discriminate Hr..|].
  destruct (ledger_answer sample_conflict s') as [row|] eqn:Hrow; [|discriminate Hr].
  exists s', o, rejection. split; [reflexivity|]. split; [exact Ho|].
  refine (proj2 (rejection_durable _ _ _ sample_encode sample_decode sample_conflict sample_first s' o rejection _ Happly Ho)
            s' row Hrow Hrow).
  intros message. exists (String "E" message). split; reflexivity.
Defined.

Lemma indexed_list_exact_witness :
  let t := db_resources (sample_deliver sample_deliveries empty_db).2 in
  let key := ("v1", "ConfigMap", "default", "a") in
  exists data, body_at key t = Some data
  /\ plan_selects_rows (fun _ => "") (build_selector_pushdown [In "app" ["x"; "z"]] [] "v1" "ConfigMap" 2)
       ["v1"; "ConfigMap"] (rows_at key (resource_labels t)) (rows_at key (resource_fields t)) "v1" "ConfigMap" data = true.
Proof.
  intros t key. destruct (body_at key t) as [data|] eqn:Hb; [|exfalso; vm_compute in Hb; discriminate].
  exists data. split; [done|].
  pose proof (indexed_list_exact (fun _ => None) (fun _ => "") (fun _ patch => patch) sample_encode sample_decode
    sample_deliveries [In "app" ["x"; "z"]] [] "v1" "ConfigMap" ["v1"; "ConfigMap"]) as H.
  specialize (H ltac:(repeat constructor; discriminate) "default" "a"). cbn zeta in H. fold t key in H. rewrite Hb in H.
  destruct H as [_ H]. vm_compute in Hb. injection Hb as <-.
  refine (eq_trans (H _) _); [|vm_compute; reflexivity].
  intros m [= <-]. split; [repeat constructor; rewrite ?elem_of_cons, ?elem_of_nil; naive_solver|repeat constructor; by eexists].
Defined.
