(* ===== verification/Rbac.v ===== *)
(** * RBAC rules

    [klights-auth/src/rbac_rule_evaluator.rs]: which requests a policy rule
    grants, which subjects an identity is, and when the rules a user holds cover
    a rule the user wants to write (the privilege-escalation check). *)

From S2P Require Import Prelude Text Json Selectors.
Local Open Scope string_scope.
Local Open Scope rs_scope.

Record PolicyRule := mkPolicyRule {
  verbs : list string;
  api_groups : list string;
  resources : list string;
  resource_names : list string;
  non_resource_urls : list string
}.

Inductive SubjectKind := User | Group | ServiceAccount.

Record Subject := mkSubject {
  subject_kind : SubjectKind; subject_name : string; subject_namespace : option string
}.

Record RuleMatchRequest := mkRuleMatchRequest {
  rq_verb : string;
  rq_api_group : option string;
  rq_resource : option string;
  rq_subresource : option string;
  rq_resource_name : option string;
  rq_non_resource_url : option string;
  rq_field_selector : option string
}.

Definition is_nil {A} (l : list A) : bool := match l with [] => true | _ => false end.

(** [l.iter().any(|x| x == "*" || x == s)]. *)
Definition any_or_star (l : list string) (s : string) : bool :=
  existsb (fun x => (x =?s "*") || (x =?s s)) l.

Definition matches_verb (verbs : list string) (verb : string) : bool := any_or_star verbs verb.
Definition matches_api_group (groups : list string) (group : string) : bool := any_or_star groups group.

(** One pattern of [matches_resource] and [matches_non_resource_url]. *)
Definition pattern_matches (pattern text : string) : bool :=
  if pattern =?s "*" then true
  else match strip_suffix "*" pattern with
       | Some prefix => starts_with prefix text
       | None => pattern =?s text
       end.

Definition matches_resource (resources : list string) (resource : string) : bool :=
  existsb (fun r => pattern_matches r resource) resources.

Definition matches_non_resource_url (urls : list string) (url : string) : bool :=
  existsb (fun u => pattern_matches u url) urls.

Definition part_names_resource (resource_names : list string) (part : string) : bool :=
  match strip_prefix "metadata.name=" (trim part) with
  | Some name => any_or_star resource_names (trim name)
  | None => false
  end.

Definition field_selector_matches_resource_names (field_selector : string) (resource_names : list string)
  : bool :=
  if is_empty field_selector then false
  else existsb (part_names_resource resource_names) (split "," field_selector).

(** The [resourceNames] restriction at the end of [rule_matches]. *)
Definition names_match (rule : PolicyRule) (request : RuleMatchRequest) : bool :=
  let verb := rq_verb request in
  if is_nil (resource_names rule) then true
  else if (verb =?s "create") || (verb =?s "deletecollection") then false
  else if (verb =?s "list") || (verb =?s "watch")
  then field_selector_matches_resource_names (unwrap_or "" (rq_field_selector request)) (resource_names rule)
  else match rq_resource_name request with
       | None => false
       | Some req_name => any_or_star (resource_names rule) req_name
       end.

Definition full_resource (resource : string) (subresource : option string) : string :=
  match subresource with Some sr => resource +:+ "/" +:+ sr | None => resource end.

Definition rule_matches (rule : PolicyRule) (request : RuleMatchRequest) : bool :=
  let has_resources := negb (is_nil (resources rule)) in
  let has_non_resource_urls := negb (is_nil (non_resource_urls rule)) in
  if Bool.eqb has_resources has_non_resource_urls then false
  else match rq_non_resource_url request with
       | Some url =>
           if negb has_non_resource_urls then false
           else if negb (matches_verb (verbs rule) (rq_verb request)) then false
           else matches_non_resource_url (non_resource_urls rule) url
       | None =>
           match rq_resource request with
           | None => false
           | Some resource =>
               if negb has_resources then false
               else if negb (matches_verb (verbs rule) (rq_verb request)) then false
               else if negb (matches_api_group (api_groups rule) (unwrap_or "" (rq_api_group request)))
               then false
               else if negb (matches_resource (resources rule)
                               (full_resource resource (rq_subresource request)))
               then false
               else names_match rule request
           end
       end.

Definition subject_matches (subject : Subject) (username : string) (groups : list string) : bool :=
  match subject_kind subject with
  | User => subject_name subject =?s username
  | Group => existsb (fun g => g =?s subject_name subject) groups
  | ServiceAccount =>
      match subject_namespace subject with
      | Some ns => ("system:serviceaccount:" +:+ ns +:+ ":" +:+ subject_name subject) =?s username
      | None => false
      end
  end.

(** ** Coverage *)

Record AtomicRule := mkAtomicRule {
  at_verb : string;
  at_api_group : option string;
  at_resource : option string;
  at_resource_name : option string;
  at_non_resource_url : option string
}.

(** One iteration of the innermost loop of [breakdown_rule]: the atoms of one
    verb, group and resource. *)
Definition resource_atoms (rule : PolicyRule) (verb group resource : string) : list AtomicRule :=
  if is_nil (resource_names rule)
  then [mkAtomicRule verb (Some group) (Some resource) None None]
  else (fun name => mkAtomicRule verb (Some group) (Some resource) (Some name) None)
         <$> resource_names rule.

Definition breakdown_rule (rule : PolicyRule) : list AtomicRule :=
  ((if is_nil (resources rule) then []
    else flat_map (fun verb =>
           flat_map (fun group =>
             flat_map (fun resource => resource_atoms rule verb group resource) (resources rule))
             (api_groups rule)) (verbs rule))
   ++ (if is_nil (non_resource_urls rule) then []
       else flat_map (fun verb =>
              (fun url => mkAtomicRule verb None None None (Some url)) <$> non_resource_urls rule)
              (verbs rule)))%list.

Definition owner_covers_resource_name (owner : PolicyRule) (requested_name : option string) : bool :=
  if is_nil (resource_names owner) then true
  else match requested_name with
       | None => false
       | Some name => any_or_star (resource_names owner) name
       end.

Definition atomic_rule_covered (owner : PolicyRule) (atom : AtomicRule) : bool :=
  match at_non_resource_url atom with
  | Some url =>
      negb (is_nil (non_resource_urls owner))
      && matches_verb (verbs owner) (at_verb atom)
      && matches_non_resource_url (non_resource_urls owner) url
  | None =>
      if is_nil (resources owner) then false
      else matches_verb (verbs owner) (at_verb atom)
           && matches_api_group (api_groups owner) (unwrap_or "" (at_api_group atom))
           && matches_resource (resources owner) (unwrap_or "" (at_resource atom))
           && owner_covers_resource_name owner (at_resource_name atom)
  end.

Definition rules_cover (holder : list PolicyRule) (requested : PolicyRule) : bool :=
  forallb (fun atom => existsb (fun owner => atomic_rule_covered owner atom) holder)
    (breakdown_rule requested).

Definition rules_cover_all (holder requested : list PolicyRule) : bool :=
  forallb (rules_cover holder) requested.

(** ** Well-formed rules *)

Definition star_free (s : string) : bool := negb (any_char (Ascii.eqb "*") s).

(** A pattern has no star but a trailing one. *)
Definition pattern_ok (pattern : string) : bool :=
  match strip_suffix "*" pattern with Some prefix => star_free prefix | None => true end.

(** A rule targets resources or URLs, not both. *)
Definition rule_targets_one (rule : PolicyRule) : bool :=
  xorb (is_nil (resources rule)) (is_nil (non_resource_urls rule)).

Definition rule_ok (rule : PolicyRule) : bool :=
  rule_targets_one rule && forallb pattern_ok (resources rule) && forallb pattern_ok (non_resource_urls rule).

(** ** Lemmas *)

Lemma any_or_star_true l s : any_or_star l s = true <-> "*" ∈ l \/ s ∈ l.
Proof.
  unfold any_or_star. rewrite existsb_exists. setoid_rewrite <- list_elem_of_In.
  setoid_rewrite orb_true_iff. setoid_rewrite String.eqb_eq. naive_solver.
Qed.

(** A wildcard list that covers the text of an entry covers what the entry covers. *)
Lemma any_or_star_trans owner l s :
  (forall x, x ∈ l -> x = "*" \/ x = s -> any_or_star owner x = true) ->
  any_or_star l s = true -> any_or_star owner s = true.
Proof.
  rewrite !any_or_star_true. intros H [Hin|Hin].
  - pose proof (H _ Hin (or_introl eq_refl)) as Ho. rewrite any_or_star_true in Ho. tauto.
  - pose proof (H _ Hin (or_intror eq_refl)) as Ho. by rewrite any_or_star_true in Ho.
Qed.

Lemma starts_with_true p s : starts_with p s = true <-> exists r, s = p +:+ r.
Proof.
  unfold starts_with. destruct (strip_prefix p s) as [r|] eqn:E.
  - apply strip_prefix_Some in E. simpl. naive_solver.
  - split; [done|]. intros [r Hr]. apply strip_prefix_Some in Hr. congruence.
Qed.

Lemma pattern_matches_true p t :
  pattern_matches p t = true <-> p = t \/ exists q r, p = q +:+ "*" /\ t = q +:+ r.
Proof.
  unfold pattern_matches. destruct (String.eqb_spec p "*") as [->|Hp].
  { split; [|done]. intros _. right. by exists "", t. }
  destruct (strip_suffix "*" p) as [q|] eqn:E.
  - apply strip_suffix_Some in E as ->. rewrite starts_with_true. split.
    + intros [r ->]. right. by exists q, r.
    + intros [<-|(q' & r & Heq & ->)]; [by exists "*"|].
      apply str_app_inj_r in Heq as [-> _]; [|done]. by exists r.
  - rewrite String.eqb_eq. split; [tauto|]. intros [|(q & r & -> & _)]; [done|].
    by rewrite strip_suffix_app in E.
Qed.

Lemma prefix_or_star q r p :
  q +:+ r = p +:+ "*" -> (exists u, p = q +:+ u) \/ q = p +:+ "*".
Proof.
  revert p. induction q as [|c q IH]; intros p; [by left; exists p|].
  destruct p as [|d p]; simpl.
  - intros [= -> H]. right. by destruct q.
  - intros [= -> H]. destruct (IH _ H) as [[u ->]| ->]; [left; by exists u|by right].
Qed.

Lemma star_free_no_star p : star_free (p +:+ "*") = false.
Proof. unfold star_free. rewrite any_char_app. simpl. by rewrite orb_true_r. Qed.

Lemma pattern_matches_trans q p t :
  pattern_ok q = true -> pattern_matches q p = true -> pattern_matches p t = true ->
  pattern_matches q t = true.
Proof.
  intros Hok. rewrite !pattern_matches_true.
  intros [->|(q' & r & -> & ->)] Hp; [done|]. right.
  unfold pattern_ok in Hok. rewrite strip_suffix_app in Hok.
  destruct Hp as [<-|(p' & r2 & Heq & ->)]; [by exists q', r|].
  destruct (prefix_or_star _ _ _ Heq) as [[u ->]| ->].
  - exists q', (u +:+ r2). by rewrite str_app_assoc.
  - by rewrite star_free_no_star in Hok.
Qed.

Lemma patterns_trans owner p t :
  forallb pattern_ok owner = true -> existsb (fun q => pattern_matches q p) owner = true ->
  pattern_matches p t = true -> existsb (fun q => pattern_matches q t) owner = true.
Proof.
  rewrite forallb_forall, !existsb_exists. intros Hok (q & Hin & Hq) Hp.
  exists q. split; [done|]. by eapply pattern_matches_trans; [apply Hok|..].
Qed.

Lemma covered_by holder requested atom :
  rules_cover holder requested = true -> atom ∈ breakdown_rule requested ->
  exists owner, owner ∈ holder /\ atomic_rule_covered owner atom = true.
Proof.
  unfold rules_cover. rewrite forallb_forall. intros H Hin%list_elem_of_In.
  specialize (H _ Hin). apply existsb_exists in H as (owner & Ho & Hc).
  exists owner. by rewrite list_elem_of_In.
Qed.

Lemma resource_atom_in rule verb group resource name :
  verb ∈ verbs rule -> group ∈ api_groups rule -> resource ∈ resources rule ->
  match name with None => resource_names rule = [] | Some n => n ∈ resource_names rule end ->
  mkAtomicRule verb (Some group) (Some resource) name None ∈ breakdown_rule rule.
Proof.
  intros Hv Hg Hr Hn. unfold breakdown_rule. apply elem_of_app. left.
  assert (is_nil (resources rule) = false) as -> by (by destruct (resources rule); [inversion Hr|]).
  apply list_elem_of_In, in_flat_map. exists verb. split; [by apply list_elem_of_In|].
  apply in_flat_map. exists group. split; [by apply list_elem_of_In|].
  apply in_flat_map. exists resource. split; [by apply list_elem_of_In|].
  apply list_elem_of_In. unfold resource_atoms. destruct name as [n|].
  - destruct (resource_names rule) eqn:E; [inversion Hn|]. apply list_elem_of_fmap. by exists n.
  - rewrite Hn. by left.
Qed.

Lemma url_atom_in rule verb url :
  verb ∈ verbs rule -> url ∈ non_resource_urls rule ->
  mkAtomicRule verb None None None (Some url) ∈ breakdown_rule rule.
Proof.
  intros Hv Hu. unfold breakdown_rule. apply elem_of_app. right.
  assert (is_nil (non_resource_urls rule) = false) as ->
    by (by destruct (non_resource_urls rule); [inversion Hu|]).
  apply list_elem_of_In, in_flat_map. exists verb. split; [by apply list_elem_of_In|].
  apply list_elem_of_In, list_elem_of_fmap. by exists url.
Qed.

Lemma any_or_star_pick l s :
  any_or_star l s = true -> exists x, x ∈ l /\ forall owner, any_or_star owner x = true -> any_or_star owner s = true.
Proof.
  rewrite any_or_star_true. intros [H|H]; [exists "*"|exists s]; (split; [done|]); intros owner;
    rewrite !any_or_star_true; tauto.
Qed.

Lemma is_nil_true {A} (l : list A) : is_nil l = true <-> l = [].
Proof. by destruct l. Qed.

(** What a rule that names resources grants by name depends on one of its names. *)
Lemma names_match_pick rule req :
  names_match rule req = true ->
  exists name, match name with None => resource_names rule = [] | Some n => n ∈ resource_names rule end
    /\ forall owner, owner_covers_resource_name owner name = true -> names_match owner req = true.
Proof.
  unfold names_match at 1. destruct (is_nil (resource_names rule)) eqn:Enil.
  { intros _. exists None. split; [by apply is_nil_true|]. intros owner.
    unfold owner_covers_resource_name, names_match. by destruct (is_nil (resource_names owner)). }
  destruct (_ || _) eqn:Ecreate; [done|]. destruct ((_ =?s "list") || _) eqn:Elist; intros H.
  - unfold field_selector_matches_resource_names in H.
    destruct (is_empty _) eqn:Eempty; [done|]. apply existsb_exists in H as (part & Hin & Hp).
    unfold part_names_resource in Hp.
    destruct (strip_prefix _ (trim part)) as [nm|] eqn:Enm; [|done].
    apply any_or_star_pick in Hp as (n & Hn & Hstep). exists (Some n). split; [done|]. intros owner.
    unfold owner_covers_resource_name, names_match. destruct (is_nil (resource_names owner)); [done|].
    rewrite Ecreate, Elist. intros Ho. unfold field_selector_matches_resource_names. rewrite Eempty.
    apply existsb_exists. exists part. split; [done|]. unfold part_names_resource. rewrite Enm. auto.
  - destruct (rq_resource_name req) as [nm|] eqn:Enm; [|done].
    apply any_or_star_pick in H as (n & Hn & Hstep). exists (Some n). split; [done|]. intros owner.
    unfold owner_covers_resource_name, names_match. destruct (is_nil (resource_names owner)); [done|].
    rewrite Ecreate, Elist, Enm. auto.
Qed.

(** [rule_matches] as a conjunction. *)
Lemma rule_matches_true rule req :
  rule_matches rule req = true <->
  rule_targets_one rule = true /\ matches_verb (verbs rule) (rq_verb req) = true /\
  match rq_non_resource_url req with
  | Some url => matches_non_resource_url (non_resource_urls rule) url = true
  | None => exists resource, rq_resource req = Some resource
      /\ matches_api_group (api_groups rule) (unwrap_or "" (rq_api_group req)) = true
      /\ matches_resource (resources rule) (full_resource resource (rq_subresource req)) = true
      /\ names_match rule req = true
  end.
Proof.
  unfold rule_matches, rule_targets_one.
  destruct (resources rule) as [|r rs] eqn:Er, (non_resource_urls rule) as [|u us] eqn:Eu; cbn [is_nil negb Bool.eqb xorb];
    try (split; [done|by intros []]);
    destruct (rq_non_resource_url req) as [url|]; try (destruct (rq_resource req) as [res|]);
    destruct (matches_verb _ _); cbn [negb];
    try (split; [done|by intros (?&?&?)]); try (split; [done|by intros (?&?&?&?&?)]); try tauto.
  - split; [done|]. intros (_ & _ & res' & _ & _ & H & _). done.
  - split.
    + destruct (matches_api_group _ _) eqn:E1, (matches_resource _ _) eqn:E2; cbn [negb]; try done.
      intros. split_and!; try done. by exists res.
    + intros (_ & _ & res' & [= <-] & -> & -> & ->). done.
Qed.

(** A covered rule grants nothing the rules held do not. *)
Lemma cover_grants holder requested req :
  forallb rule_ok holder = true ->
  rules_cover holder requested = true ->
  rule_matches requested req = true ->
  exists owner, owner ∈ holder /\ rule_matches owner req = true.
Proof.
  intros Hok Hcover (_ & Hverb & Hrest)%rule_matches_true.
  apply any_or_star_pick in Hverb as (v & Hv & Hvstep).
  assert (Hrule : forall owner, owner ∈ holder -> rule_ok owner = true).
  { rewrite forallb_forall in Hok. intros o Ho%list_elem_of_In. auto. }
  destruct (rq_non_resource_url req) as [url|] eqn:Eurl.
  - apply existsb_exists in Hrest as (u & Hu%list_elem_of_In & Hmatch).
    destruct (covered_by _ _ _ Hcover (url_atom_in _ _ _ Hv Hu)) as (owner & Ho & Hc).
    specialize (Hrule _ Ho). unfold rule_ok in Hrule. rewrite !andb_true_iff in Hrule.
    unfold atomic_rule_covered in Hc. cbn in Hc. rewrite !andb_true_iff in Hc.
    exists owner. split; [done|]. apply rule_matches_true. rewrite Eurl.
    destruct Hrule as [[Hone _] Hp], Hc as [[_ Hcv] Hcu].
    split_and!; [done|by apply Hvstep|by eapply patterns_trans].
  - destruct Hrest as (res & Eres & Hg & Hr & Hn).
    apply any_or_star_pick in Hg as (g & Hg & Hgstep).
    apply existsb_exists in Hr as (p & Hp%list_elem_of_In & Hmatch).
    apply names_match_pick in Hn as (name & Hname & Hnstep).
    destruct (covered_by _ _ _ Hcover (resource_atom_in _ _ _ _ _ Hv Hg Hp Hname)) as (owner & Ho & Hc).
    specialize (Hrule _ Ho). unfold rule_ok in Hrule. rewrite !andb_true_iff in Hrule.
    unfold atomic_rule_covered in Hc. cbn in Hc. destruct (is_nil (resources owner)) eqn:Enil; [done|].
    rewrite !andb_true_iff in Hc. destruct Hrule as [[Hone Hpat] _], Hc as [[[Hcv Hcg] Hcr] Hcn].
    exists owner. split; [done|]. apply rule_matches_true. rewrite Eurl.
    split_and!; [done|by apply Hvstep|]. exists res.
    split_and!; [done|by apply Hgstep|by eapply patterns_trans|by apply Hnstep].
Qed.

(** The escalation check is sound: when the rules a user holds cover the
    rules the user wants to grant, every request one of those would allow is
    already allowed by one of the rules held.  The rules held target resources
    or URLs, not both, and have stars at the end of a pattern only. *)
Theorem rules_cover_all_sound holder requested req :
  forallb rule_ok holder = true ->
  rules_cover_all holder requested = true ->
  existsb (fun rule => rule_matches rule req) requested = true ->
  existsb (fun owner => rule_matches owner req) holder = true.
Proof.
  unfold rules_cover_all. rewrite (forallb_forall (rules_cover holder)), !existsb_exists.
  intros Hok Hcover (rule & Hin & Hm).
  destruct (cover_grants holder rule req Hok (Hcover _ Hin) Hm) as (owner & Ho & Hown).
  exists owner. by rewrite <- list_elem_of_In.
Qed.

Definition pod_get (name : string) : RuleMatchRequest :=
  mkRuleMatchRequest "get" None (Some "pods") (Some "log") (Some name) None None.

Lemma rules_cover_all_sound_witness :
  existsb (fun owner => rule_matches owner (pod_get "web-1"))
    [mkPolicyRule ["list"] [""] ["secrets"] [] [];
     mkPolicyRule ["get"; "watch"] ["*"] ["pods*"] [] []] = true.
Proof.
  apply (rules_cover_all_sound _ [mkPolicyRule ["get"] [""] ["pods/*"] ["web-1"] []]); reflexivity.
Defined.

Lemma pattern_matches_refl p : pattern_matches p p = true.
Proof. apply pattern_matches_true. by left. Qed.

(** A user may always grant what the user holds: rules held, whatever
    their shape, cover themselves, so the escalation check never stops a write
    of rules taken from the user's own. *)
Theorem held_rules_covered holder requested :
  requested ⊆ holder -> rules_cover_all holder requested = true.
Proof.
  intros Hsub. apply forallb_forall. intros rule Hin%list_elem_of_In. apply forallb_forall.
  intros atom Hatom. apply existsb_exists. exists rule.
  split; [by apply list_elem_of_In, Hsub|]. unfold breakdown_rule in Hatom.
  apply in_app_iff in Hatom as [Hatom|Hatom]; case_match; try done;
    apply in_flat_map in Hatom as (v & Hv%list_elem_of_In & Hatom).
  - apply in_flat_map in Hatom as (g & Hg%list_elem_of_In & Hatom).
    apply in_flat_map in Hatom as (r & Hr & Hatom).
    assert (Hres : matches_resource (resources rule) r = true).
    { apply existsb_exists. exists r. split; [done|apply pattern_matches_refl]. }
    unfold resource_atoms in Hatom. destruct (is_nil (resource_names rule)) eqn:En.
    + destruct Hatom as [<-|[]]. unfold atomic_rule_covered, owner_covers_resource_name. cbn.
      rewrite H, En, Hres. unfold matches_verb, matches_api_group.
      rewrite !andb_true_iff, !any_or_star_true. auto.
    + apply list_elem_of_In, list_elem_of_fmap in Hatom as (n & -> & Hn).
      unfold atomic_rule_covered, owner_covers_resource_name. cbn. rewrite H, En, Hres.
      unfold matches_verb, matches_api_group. rewrite !andb_true_iff, !any_or_star_true. auto.
  - apply list_elem_of_In, list_elem_of_fmap in Hatom as (u & -> & Hu).
    unfold atomic_rule_covered. cbn. rewrite H. unfold matches_verb.
    rewrite !andb_true_iff, any_or_star_true. split_and!; auto.
    apply existsb_exists. exists u. split; [by apply list_elem_of_In|apply pattern_matches_refl].
Qed.

Lemma held_rules_covered_witness :
  rules_cover_all [mkPolicyRule ["get"] [""] ["pods"] ["a"] []; mkPolicyRule ["get"] [] [] [] ["/api/*"]]
    [mkPolicyRule ["get"] [] [] [] ["/api/*"]] = true.
Proof. apply held_rules_covered. set_solver. Defined.

(** ** Where coverage and matching disagree *)

(** A pattern that ends in two stars matches texts that begin with a star, yet
    covers the pattern that matches everything. *)
Example double_star_covers_all :
  let held := mkPolicyRule ["get"] ["*"] ["**"] [] [] in
  let wanted := mkPolicyRule ["get"] ["*"] ["*"] [] [] in
  rules_cover_all [held] [wanted] = true
  /\ rule_matches wanted (pod_get "web-1") = true /\ rule_matches held (pod_get "web-1") = false.
Proof. by repeat split. Qed.
