(* ===== verification/Authorizer.v ===== *)
(** * Authorization

    [klights-auth/src]: identities, request attributes, the RBAC policy stores,
    the four authorizers and their chain; and the escalation admission of
    [k8s-native-service/src/current/rbac_admission.rs].

    The authorizers read their stores between other writes; one call sees one
    state of its store, so a store is a pure function here.  The decoders of
    stored roles and bindings, generated by serde, are fields of the store. *)

From S2P Require Import Prelude Text Json Selectors Rbac.
Local Open Scope string_scope.
Local Open Scope rs_scope.

(** ** Identities and requests *)

Record AuthenticatedIdentity := mkIdentity {
  username : string; groups : list string; uid : option string; extra : list (string * string)
}.

(** [groups.contains(&g)]. *)
Definition list_contains (l : list string) (g : string) : bool := existsb (fun x => x =?s g) l.

Definition is_admin (self : AuthenticatedIdentity) : bool := list_contains (groups self) "system:masters".

Definition append_authenticated (groups : list string) : list string :=
  if list_contains groups "system:authenticated" then groups
  else (groups ++ ["system:authenticated"])%list.

Definition client_cert (username : string) (groups : list string) : AuthenticatedIdentity :=
  mkIdentity username (append_authenticated groups) None [].

Definition bootstrap (token_id : string) (auth_extra_groups : list string) : AuthenticatedIdentity :=
  mkIdentity ("system:bootstrap:" +:+ token_id)
    (append_authenticated ("system:bootstrappers" :: auth_extra_groups)) None [].

Definition service_account (username : string) (groups : list string) (uid : option string)
  : AuthenticatedIdentity := mkIdentity username (append_authenticated groups) uid [].

Definition anonymous : AuthenticatedIdentity :=
  mkIdentity "system:anonymous" ["system:unauthenticated"] None [].

Inductive RequestKind := Resource | NonResource.

#[export] Instance RequestKind_eq_dec : EqDecision RequestKind.
Proof. solve_decision. Defined.

Record AuthorizationRequest := mkAuthorizationRequest {
  ar_kind : RequestKind;
  ar_verb : string;
  ar_api_group : option string;
  ar_api_version : option string;
  ar_resource : option string;
  ar_subresource : option string;
  ar_namespace : option string;
  ar_name : option string;
  ar_non_resource_url : option string;
  ar_field_selector : option string;
  ar_label_selector : option string;
  ar_resource_request : bool
}.

Definition non_empty_text (s : string) : option string := if is_empty s then None else Some s.

Definition resource_request (verb api_group api_version resource : string)
    (subresource namespace name : option string) : AuthorizationRequest :=
  mkAuthorizationRequest Resource verb (non_empty_text api_group) (non_empty_text api_version)
    (Some resource) subresource namespace name None None None true.

Definition non_resource_request (verb url : string) : AuthorizationRequest :=
  mkAuthorizationRequest NonResource verb None None None None None None (Some url) None None false.

Definition with_field_selector (selector : option string) (r : AuthorizationRequest)
  : AuthorizationRequest :=
  mkAuthorizationRequest (ar_kind r) (ar_verb r) (ar_api_group r) (ar_api_version r) (ar_resource r)
    (ar_subresource r) (ar_namespace r) (ar_name r) (ar_non_resource_url r) selector
    (ar_label_selector r) (ar_resource_request r).

(** ** Decisions *)

Record AuthorizationDecision := mkDecision {
  allowed : bool; denied : bool; reason : string; evaluation_error : option string
}.

Definition allow (reason : string) := mkDecision true false reason None.
Definition deny (reason : string) := mkDecision false true reason None.
Definition no_opinion := mkDecision false false "" None.

Abbreviation Authorizer := (AuthenticatedIdentity -> AuthorizationRequest -> AuthorizationDecision).

(** The loop of [AuthorizerChain::authorize], with the last evaluation error. *)
Fixpoint chain_loop (authorizers : list Authorizer) (ident : AuthenticatedIdentity)
    (request : AuthorizationRequest) (last_error : option string) : AuthorizationDecision :=
  match authorizers with
  | [] =>
      match last_error with
      | Some err => deny ("no authorizer allowed: " +:+ err)
      | None => deny "no authorizer allowed"
      end
  | authorizer :: rest =>
      let decision := authorizer ident request in
      if allowed decision then decision
      else if denied decision then decision
      else chain_loop rest ident request (or_else (evaluation_error decision) last_error)
  end.

Definition AuthorizerChain_authorize (authorizers : list Authorizer) : Authorizer :=
  fun ident request => chain_loop authorizers ident request None.

Definition SystemMastersAuthorizer : Authorizer := fun ident _ =>
  if is_admin ident then allow "system:masters bypass" else no_opinion.

Definition DenyAuthorizer : Authorizer := fun _ _ => deny "RBAC denial".

(** ** Bootstrap tokens *)

Definition is_bootstrap_identity (ident : AuthenticatedIdentity) : bool :=
  list_contains (groups ident) "system:bootstrappers".

Definition is_csr_resource (request : AuthorizationRequest) : bool :=
  if bool_decide (ar_kind request <> Resource) then false
  else is_some_and (ar_resource request) (fun r => r =?s "certificatesigningrequests")
       && is_some_and (ar_api_group request) (fun g => g =?s "certificates.k8s.io").

Definition is_allowed_csr_verb (request : AuthorizationRequest) : bool :=
  list_contains ["create"; "get"; "list"; "watch"] (ar_verb request).

Definition is_discovery_url (request : AuthorizationRequest) : bool :=
  if bool_decide (ar_kind request <> NonResource) then false
  else if negb (ar_verb request =?s "get") then false
  else match ar_non_resource_url request with
       | None => false
       | Some url =>
           list_contains ["/api"; "/api/"; "/apis"; "/apis/"; "/healthz"; "/livez"; "/readyz"; "/openapi";
                          "/openapi/*"; "/version"; "/version/"] url
           || starts_with "/api/" url || starts_with "/apis/" url || starts_with "/openapi/" url
       end.

Definition BootstrapCsrAuthorizer : Authorizer := fun ident request =>
  if negb (is_bootstrap_identity ident) then no_opinion
  else if is_csr_resource request && is_allowed_csr_verb request then allow "bootstrap CSR access"
  else if is_discovery_url request then allow "bootstrap discovery access"
  else deny "bootstrap tokens may only access CSR resources and discovery".

(** ** RBAC policy stores *)

Record ResolvedBinding := mkResolvedBinding {
  rb_subjects : list Subject; rb_rules : list PolicyRule; rb_namespace : option string
}.

Class RbacPolicyStore (S : Type) :=
  list_bindings_for_namespace : S -> option string -> list ResolvedBinding.

(** What the authorizer and the admission rely on: the bindings of no namespace
    are the cluster-wide ones, and they apply in every namespace. *)
Class RbacPolicyStoreLaws (S : Type) `{RbacPolicyStore S} := {
  cluster_bindings_unscoped (s : S) b :
    b ∈ list_bindings_for_namespace s None -> rb_namespace b = None;
  cluster_bindings_everywhere (s : S) ns b :
    b ∈ list_bindings_for_namespace s None -> b ∈ list_bindings_for_namespace s (Some ns);
  namespaced_bindings_scoped (s : S) ns b :
    b ∈ list_bindings_for_namespace s (Some ns) -> rb_namespace b = None \/ rb_namespace b = Some ns
}.

Record EffectiveResourceRule := mkEffectiveResourceRule {
  er_verbs : list string; er_api_group : string; er_resource : string; er_resource_names : list string
}.

Record EffectiveNonResourceRule := mkEffectiveNonResourceRule {
  en_verbs : list string; en_non_resource_urls : list string
}.

#[export] Instance EffectiveResourceRule_eq_dec : EqDecision EffectiveResourceRule.
Proof. solve_decision. Defined.
#[export] Instance EffectiveNonResourceRule_eq_dec : EqDecision EffectiveNonResourceRule.
Proof. solve_decision. Defined.

(** [if !l.contains(&x) { l.push(x) }]. *)
Definition push_new {A} `{EqDecision A} (l : list A) (x : A) : list A :=
  if bool_decide (x ∈ l) then l else (l ++ [x])%list.

Definition binding_applies (ident : AuthenticatedIdentity) (binding : ResolvedBinding) : bool :=
  existsb (fun s => subject_matches s (username ident) (groups ident)) (rb_subjects binding).

(** The resource rules of one policy rule, in the order of the loops. *)
Definition effective_resource_rules (rule : PolicyRule) : list EffectiveResourceRule :=
  flat_map (fun resource =>
    (fun api_group => mkEffectiveResourceRule (verbs rule) api_group resource (resource_names rule))
      <$> api_groups rule) (resources rule).

Definition effective_non_resource_rules (rule : PolicyRule) : list EffectiveNonResourceRule :=
  if is_nil (non_resource_urls rule) then []
  else [mkEffectiveNonResourceRule (verbs rule) (non_resource_urls rule)].

Section Store.
Context {S : Type} `{RbacPolicyStore S}.

Definition enumerate_effective_rules (store : S) (ident : AuthenticatedIdentity)
    (namespace : option string)
  : list EffectiveResourceRule * list EffectiveNonResourceRule * bool :=
  let rules := flat_map rb_rules
                 (List.filter (binding_applies ident) (list_bindings_for_namespace store namespace)) in
  (fold_left push_new (flat_map effective_resource_rules rules) [],
   fold_left push_new (flat_map effective_non_resource_rules rules) [], false).

(** ** The RBAC authorizer *)

Definition rule_request (request : AuthorizationRequest) : RuleMatchRequest :=
  mkRuleMatchRequest (ar_verb request) (ar_api_group request) (ar_resource request)
    (ar_subresource request) (ar_name request) (ar_non_resource_url request) (ar_field_selector request).

(** The rule matches, and a binding of a namespace does not grant a URL. *)
Definition rule_grants (request : AuthorizationRequest) (binding : ResolvedBinding) (rule : PolicyRule)
  : bool :=
  rule_matches rule (rule_request request)
  && negb (bool_decide (ar_kind request = NonResource) && opt_is_some (rb_namespace binding)).

Definition RbacAuthorizer (store : S) : Authorizer := fun ident request =>
  if existsb (fun binding => binding_applies ident binding
                             && existsb (rule_grants request binding) (rb_rules binding))
       (list_bindings_for_namespace store (ar_namespace request))
  then allow "RBAC: allowed by rule" else no_opinion.
End Store.

(** ** The stores *)

Definition default_service_account_subject (namespace : string) (subject : Subject) : Subject :=
  match subject_kind subject, subject_namespace subject with
  | ServiceAccount, None => mkSubject ServiceAccount (subject_name subject) (Some namespace)
  | _, _ => subject
  end.

Definition default_service_account_subjects (subjects : list Subject) (namespace : string)
  : list Subject := default_service_account_subject namespace <$> subjects.

Definition subject_kind_of (kind_str : string) : option SubjectKind :=
  if kind_str =?s "User" then Some User
  else if kind_str =?s "Group" then Some Group
  else if kind_str =?s "ServiceAccount" then Some ServiceAccount
  else None.

Definition parse_subject (s : Value) : option Subject :=
  kind_str ← get_str "kind" s;
  name ← get_str "name" s;
  kind ← subject_kind_of kind_str;
  Some (mkSubject kind name (get_str "namespace" s)).

Definition parse_subjects (subjects : list Value) : list Subject := omap parse_subject subjects.

Definition is_supported_role_ref_api_group (api_group : string) : bool :=
  is_empty api_group || (api_group =?s "rbac.authorization.k8s.io").

(** The store of a list of bindings. *)
Record InMemoryRbacPolicyStore := mkInMemoryStore { im_bindings : list ResolvedBinding }.

#[export] Instance in_memory_store : RbacPolicyStore InMemoryRbacPolicyStore := fun self namespace =>
  (fun b => match rb_namespace b with
            | Some ns => mkResolvedBinding (default_service_account_subjects (rb_subjects b) ns)
                           (rb_rules b) (rb_namespace b)
            | None => b
            end)
  <$> List.filter (fun b => opt_is_none (rb_namespace b)
                            || opt_is_some namespace && bool_decide (rb_namespace b = namespace))
        (im_bindings self).

Record RoleRef := mkRoleRef { rr_api_group : string; rr_kind : string; rr_name : string }.
Record BindingObject := mkBindingObject { bo_role_ref : RoleRef; bo_subjects : list Value }.

(** A stored role decodes to its rules: [RuleObject] has the fields of
    [PolicyRule], which [parse_rules] copies. *)
Record ReaderBackedRbacPolicyStore := mkReaderStore {
  list_cluster_rbac_resources : string -> result string (list Value);
  list_namespaced_rbac_resources : string -> string -> result string (list Value);
  decode_role : Value -> option (list PolicyRule);
  decode_binding : Value -> option BindingObject
}.

Abbreviation RoleMap := (gmap string (list PolicyRule)).

Definition metadata_name (item : Value) : option string :=
  m ← get "metadata" item; n ← get "name" m; as_str n.

(** The body of the loops of [load_cluster_roles] and [load_namespaced_roles]. *)
Definition load_role (self : ReaderBackedRbacPolicyStore) (map : RoleMap) (item : Value) : RoleMap :=
  match metadata_name item, decode_role self item with
  | Some name, Some rules => <[name := rules]> map
  | _, _ => map
  end.

Definition load_cluster_roles (self : ReaderBackedRbacPolicyStore) : result string RoleMap :=
  let? items := list_cluster_rbac_resources self "ClusterRole" in
  Ok (fold_left (load_role self) items ∅).

Definition load_namespaced_roles (self : ReaderBackedRbacPolicyStore) (namespace : string)
  : result string RoleMap :=
  let? items := list_namespaced_rbac_resources self namespace "Role" in
  Ok (fold_left (load_role self) items ∅).

Definition resolve_cluster_role_binding (self : ReaderBackedRbacPolicyStore) (cluster_roles : RoleMap)
    (crb : Value) : option ResolvedBinding :=
  binding ← decode_binding self crb;
  if negb (is_supported_role_ref_api_group (rr_api_group (bo_role_ref binding))) then None
  else if negb (rr_kind (bo_role_ref binding) =?s "ClusterRole") then None
  else rules ← cluster_roles !! rr_name (bo_role_ref binding);
       Some (mkResolvedBinding (parse_subjects (bo_subjects binding)) rules None).

Definition resolve_role_binding (self : ReaderBackedRbacPolicyStore) (roles cluster_roles : RoleMap)
    (namespace : string) (rb : Value) : option ResolvedBinding :=
  binding ← decode_binding self rb;
  if negb (is_supported_role_ref_api_group (rr_api_group (bo_role_ref binding))) then None
  else
    rules ← (if rr_kind (bo_role_ref binding) =?s "Role" then roles !! rr_name (bo_role_ref binding)
             else if rr_kind (bo_role_ref binding) =?s "ClusterRole"
             then cluster_roles !! rr_name (bo_role_ref binding)
             else None);
    Some (mkResolvedBinding
            (default_service_account_subjects (parse_subjects (bo_subjects binding)) namespace)
            rules (Some namespace)).

(** [if let Ok(list) = ...]: a failed read contributes nothing. *)
Definition ok_or_nil {E A} (r : result E (list A)) : list A := match r with Ok l => l | Err _ => [] end.

Definition namespace_bindings (self : ReaderBackedRbacPolicyStore) (cluster_roles : RoleMap) (ns : string)
  : list ResolvedBinding :=
  match load_namespaced_roles self ns with
  | Err _ => []
  | Ok roles => omap (resolve_role_binding self roles cluster_roles ns)
                  (ok_or_nil (list_namespaced_rbac_resources self ns "RoleBinding"))
  end.

#[export] Instance reader_backed_store : RbacPolicyStore ReaderBackedRbacPolicyStore := fun self namespace =>
  match load_cluster_roles self with
  | Err _ => []
  | Ok cluster_roles =>
      (omap (resolve_cluster_role_binding self cluster_roles)
         (ok_or_nil (list_cluster_rbac_resources self "ClusterRoleBinding"))
       ++ match namespace with Some ns => namespace_bindings self cluster_roles ns | None => [] end)%list
  end.

#[export] Instance in_memory_store_laws : RbacPolicyStoreLaws InMemoryRbacPolicyStore.
Proof.
  split; intros s; unfold list_bindings_for_namespace, in_memory_store.
  - intros b (b' & -> & Hb)%list_elem_of_fmap. apply list_elem_of_In, filter_In in Hb as [_ Hb].
    by destruct (rb_namespace b') eqn:E.
  - intros ns b (b' & -> & Hb)%list_elem_of_fmap. apply list_elem_of_In, filter_In in Hb as [Hin Hb].
    apply list_elem_of_fmap. exists b'. split; [done|]. apply list_elem_of_In, filter_In.
    by destruct (rb_namespace b').
  - intros ns b (b' & -> & Hb)%list_elem_of_fmap. apply list_elem_of_In, filter_In in Hb as [_ Hb].
    destruct (rb_namespace b') as [n|] eqn:E; [|by left]. simpl in *. right.
    by apply bool_decide_eq_true in Hb.
Qed.

#[export] Instance reader_backed_store_laws : RbacPolicyStoreLaws ReaderBackedRbacPolicyStore.
Proof.
  assert (Hc : forall self roles (l : list Value) b, b ∈ omap (resolve_cluster_role_binding self roles) l -> rb_namespace b = None).
  { intros self roles l b (v & _ & Hv)%list_elem_of_omap. unfold resolve_cluster_role_binding in Hv.
    destruct (decode_binding self v); simpl in Hv; [|done]. repeat case_match; try done.
    destruct (roles !! _); simpl in Hv; [|done]. by injection Hv as <-. }
  assert (Hn : forall self roles croles ns (l : list Value) b,
    b ∈ omap (resolve_role_binding self roles croles ns) l -> rb_namespace b = Some ns).
  { intros self roles croles ns l b (v & _ & Hv)%list_elem_of_omap. unfold resolve_role_binding in Hv.
    destruct (decode_binding self v); simpl in Hv; [|done]. case_match; [done|].
    match type of Hv with (?o ≫= _) = _ => destruct o; simpl in Hv; [|done] end. by injection Hv as <-. }
  assert (Hnil : forall b : ResolvedBinding, b ∈ [] -> False) by (intros b Hb; inversion Hb).
  split; intros s; unfold list_bindings_for_namespace, reader_backed_store.
  - intros b Hb. destruct (load_cluster_roles s) as [roles|]; [|by apply Hnil in Hb].
    rewrite app_nil_r in Hb. by eapply Hc.
  - intros ns b Hb. destruct (load_cluster_roles s) as [roles|]; [|by apply Hnil in Hb].
    rewrite app_nil_r in Hb. apply elem_of_app. by left.
  - intros ns b Hb. destruct (load_cluster_roles s) as [roles|]; [|by apply Hnil in Hb].
    apply elem_of_app in Hb as [Hb|Hb]; [left; by eapply Hc|right].
    unfold namespace_bindings in Hb.
    destruct (load_namespaced_roles s ns); [by eapply Hn|by apply Hnil in Hb].
Qed.

(** ** The node authorizer *)

Record NodePolicyStore := mkNodePolicyStore {
  get_pod_node : string -> string -> option string;
  list_pods_on_node : string -> list (string * string);
  get_pod_referenced_objects : string -> string -> string -> list string
}.

Definition parse_node_name (ident : AuthenticatedIdentity) : option string :=
  if negb (list_contains (groups ident) "system:nodes") then None
  else opt_filter (fun s => negb (is_empty s)) (strip_prefix "system:node:" (username ident)).

Definition opt_is (o : option string) (s : string) : bool := is_some_and o (fun x => x =?s s).

Definition check_node_access (node_name : string) (request : AuthorizationRequest)
  : AuthorizationDecision :=
  let verb := ar_verb request in
  let own := opt_is (ar_name request) node_name in
  if (verb =?s "get") && own then allow "node can get own node"
  else if ((verb =?s "update") || (verb =?s "patch")) && (opt_is (ar_subresource request) "status" && own)
  then allow "node can update own node status"
  else no_opinion.

Definition check_lease_access (node_name : string) (request : AuthorizationRequest)
  : AuthorizationDecision :=
  if list_contains ["get"; "update"; "patch"; "create"] (ar_verb request)
     && (opt_is (ar_namespace request) "kube-node-lease" && opt_is (ar_name request) node_name)
  then allow "node can manage own lease" else no_opinion.

Definition part_names_node (node_name part : string) : bool :=
  match split_once "=" (trim part) with
  | None => false
  | Some (field, value) => (trim field =?s "spec.nodeName") && (trim value =?s node_name)
  end.

Definition field_selector_matches_node (field_selector node_name : string) : bool :=
  existsb (part_names_node node_name) (split "," field_selector).

(** The pod named by the request is bound to the node. *)
Definition pod_on_node (store : NodePolicyStore) (node_name : string) (request : AuthorizationRequest)
  : bool :=
  match ar_namespace request, ar_name request with
  | Some ns, Some name => opt_is (get_pod_node store ns name) node_name
  | _, _ => false
  end.

Definition check_pod_access (store : option NodePolicyStore) (node_name : string)
    (request : AuthorizationRequest) : AuthorizationDecision :=
  let verb := ar_verb request in
  if list_contains ["get"; "list"; "watch"] verb then
    match store with
    | None => no_opinion
    | Some store =>
        if ((verb =?s "list") || (verb =?s "watch"))
           && negb (field_selector_matches_node (unwrap_or "" (ar_field_selector request)) node_name)
        then no_opinion
        else if (verb =?s "get") && negb (pod_on_node store node_name request) then no_opinion
        else allow "node can read pods"
    end
  else if ((verb =?s "update") || (verb =?s "patch")) && opt_is (ar_subresource request) "status" then
    match store with
    | None => no_opinion
    | Some store =>
        if negb (pod_on_node store node_name request) then no_opinion
        else allow "node can update pod status"
    end
  else no_opinion.

Definition check_referenced_object_read (store : option NodePolicyStore) (node_name resource_kind : string)
    (request : AuthorizationRequest) : AuthorizationDecision :=
  if list_contains ["get"; "list"; "watch"] (ar_verb request) then
    match store with
    | None => no_opinion
    | Some store =>
        match ar_namespace request, ar_name request with
        | Some ns, Some name =>
            if existsb (fun pod => (pod.1 =?s ns)
                 && list_contains (get_pod_referenced_objects store pod.1 pod.2 resource_kind) name)
                 (list_pods_on_node store node_name)
            then allow "node can read object referenced by own pod" else no_opinion
        | _, _ => no_opinion
        end
    end
  else no_opinion.

Definition referenced_kinds : list string :=
  ["secrets"; "configmaps"; "persistentvolumeclaims"; "persistentvolumes"; "serviceaccounts"].

Definition NodeAuthorizer (store : option NodePolicyStore) : Authorizer := fun ident request =>
  match parse_node_name ident with
  | None => no_opinion
  | Some node_name =>
      if bool_decide (ar_kind request = NonResource) then no_opinion
      else match ar_resource request with
           | None => no_opinion
           | Some resource =>
               if resource =?s "nodes" then check_node_access node_name request
               else if resource =?s "leases" then check_lease_access node_name request
               else if resource =?s "pods" then check_pod_access store node_name request
               else if list_contains referenced_kinds resource
               then check_referenced_object_read store node_name resource request
               else no_opinion
           end
  end.

(** The production chain. *)
Definition default_chain_with_rbac {S} `{RbacPolicyStore S} (rbac : S) (node : NodePolicyStore)
  : list Authorizer :=
  [SystemMastersAuthorizer; BootstrapCsrAuthorizer; RbacAuthorizer rbac; NodeAuthorizer (Some node);
   DenyAuthorizer].

(** ** Escalation admission *)

Definition RBAC_GROUP : string := "rbac.authorization.k8s.io".

(** The two [Forbidden] errors, with the values their messages show. *)
Inductive RbacWriteError :=
| EscalateForbidden (username kind resource : string)
| BindForbidden (username kind ref_resource ref_name : string).

(** [s.rsplit_once(c)]. *)
Fixpoint rsplit_once (c : ascii) (s : string) : option (string * string) :=
  match s with
  | EmptyString => None
  | String a s' =>
      match rsplit_once c s' with
      | Some (x, y) => Some (String a x, y)
      | None => if Ascii.eqb a c then Some (EmptyString, s') else None
      end
  end.

Definition api_group_of (api_version : string) : string :=
  match rsplit_once "/" api_version with Some (g, _) => g | None => "" end.

Definition string_array (value : option Value) : list string :=
  omap as_str (unwrap_or [] (v ← value; as_array v)).

Definition parse_policy_rules (rules : option Value) : list PolicyRule :=
  match (v ← rules; as_array v) with
  | None => []
  | Some arr =>
      (fun rule => mkPolicyRule (string_array (get "verbs" rule)) (string_array (get "apiGroups" rule))
         (string_array (get "resources" rule)) (string_array (get "resourceNames" rule))
         (string_array (get "nonResourceURLs" rule))) <$> arr
  end.

Section Admission.
Context {S : Type} `{RbacPolicyStore S}.
(** The inputs: the authorizer, the policy store, and the query of a role by
    kind, namespace and name. *)
Context (authorizer : Authorizer) (policy_store : S)
  (get_resource : string -> option string -> string -> result string (option Value)).

Definition holder_rules (ident : AuthenticatedIdentity) (namespace : option string) : list PolicyRule :=
  let '(resource_rules, non_resource_rules, _) :=
    enumerate_effective_rules policy_store ident namespace in
  (((fun r => mkPolicyRule (er_verbs r) [er_api_group r] [er_resource r] (er_resource_names r) [])
      <$> resource_rules)
   ++ ((fun r => mkPolicyRule (en_verbs r) [] [] [] (en_non_resource_urls r)) <$> non_resource_rules))%list.

Definition has_verb (ident : AuthenticatedIdentity) (verb resource : string)
    (namespace name : option string) : bool :=
  allowed (authorizer ident (resource_request verb RBAC_GROUP "v1" resource None namespace name)).

Definition enforce_role_escalation (ident : AuthenticatedIdentity) (kind : string)
    (namespace : option string) (object : Value) : result RbacWriteError unit :=
  let requested := parse_policy_rules (get "rules" object) in
  if is_nil requested then Ok tt
  else
    let holder_ns := if kind =?s "ClusterRole" then None else namespace in
    if rules_cover_all (holder_rules ident holder_ns) requested then Ok tt
    else
      let resource := if kind =?s "ClusterRole" then "clusterroles" else "roles" in
      if has_verb ident "escalate" resource namespace None then Ok tt
      else Err (EscalateForbidden (username ident) kind resource).

Definition referenced_role_rules (ref_kind ref_name : string) (binding_namespace : option string)
  : list PolicyRule :=
  let found r := match r with Ok o => o | Err _ => None end in
  let resource :=
    if ref_kind =?s "ClusterRole" then found (get_resource "ClusterRole" None ref_name)
    else if ref_kind =?s "Role"
    then ns ← binding_namespace; found (get_resource "Role" (Some ns) ref_name)
    else None in
  match resource with Some data => parse_policy_rules (get "rules" data) | None => [] end.

Definition enforce_binding_escalation (ident : AuthenticatedIdentity) (kind : string)
    (namespace : option string) (object : Value) : result RbacWriteError unit :=
  match get "roleRef" object with
  | None => Ok tt
  | Some role_ref =>
      let ref_kind := unwrap_or "" (get_str "kind" role_ref) in
      let ref_name := unwrap_or "" (get_str "name" role_ref) in
      if is_empty ref_name then Ok tt
      else
        let role_rules := referenced_role_rules ref_kind ref_name namespace in
        if is_nil role_rules then Ok tt
        else if rules_cover_all (holder_rules ident namespace) role_rules then Ok tt
        else
          let ref_resource := if ref_kind =?s "ClusterRole" then "clusterroles" else "roles" in
          if has_verb ident "bind" ref_resource namespace (Some ref_name) then Ok tt
          else Err (BindForbidden (username ident) kind ref_resource ref_name)
  end.

Definition enforce_rbac_write_authorization (ident : AuthenticatedIdentity)
    (api_version kind : string) (namespace : option string) (object : Value) : result RbacWriteError unit :=
  if negb (api_group_of api_version =?s RBAC_GROUP) then Ok tt
  else if is_admin ident then Ok tt
  else if list_contains ["Role"; "ClusterRole"] kind
  then enforce_role_escalation ident kind namespace object
  else if list_contains ["RoleBinding"; "ClusterRoleBinding"] kind
  then enforce_binding_escalation ident kind namespace object
  else Ok tt.
End Admission.

(** ** What a user holds *)

Section Held.
Context {S : Type} `{RbacPolicyStore S}.
Implicit Types (store : S) (ident : AuthenticatedIdentity).

(** Every rule of the store targets resources or URLs, with trailing stars only. *)
Definition store_ok store : Prop :=
  forall ns b rule, b ∈ list_bindings_for_namespace store ns -> rule ∈ rb_rules b -> rule_ok rule = true.

Lemma push_new_elem {A} `{EqDecision A} (l acc : list A) x :
  x ∈ fold_left push_new l acc -> x ∈ l \/ x ∈ acc.
Proof.
  revert acc. induction l as [|y l IH]; intros acc; simpl; [by right|].
  intros [Hx|Hx]%IH; [left; by right|]. unfold push_new in Hx. case_bool_decide; [by right|].
  rewrite elem_of_app, list_elem_of_singleton in Hx. rewrite elem_of_cons. tauto.
Qed.

(** A rule of a binding that applies to the identity. *)
Definition bound_rule store ident ns rule : Prop :=
  exists b, b ∈ list_bindings_for_namespace store ns /\ binding_applies ident b = true
    /\ rule ∈ rb_rules b.

Lemma enumerated_bound {A} `{EqDecision A} (f : PolicyRule -> list A) store ident ns x :
  x ∈ fold_left push_new
        (flat_map f (flat_map rb_rules
           (List.filter (binding_applies ident) (list_bindings_for_namespace store ns)))) [] ->
  exists rule, bound_rule store ident ns rule /\ x ∈ f rule.
Proof.
  intros [Hx|Hx]%push_new_elem; [|inversion Hx].
  apply list_elem_of_In, in_flat_map in Hx as (rule & Hr & Hx%list_elem_of_In).
  apply in_flat_map in Hr as (b & [Hb Ha]%filter_In & Hr%list_elem_of_In).
  exists rule. split; [|done]. exists b. by rewrite list_elem_of_In.
Qed.

(** One pattern of a list of good patterns is good. *)
Lemma patterns_ok_elem l p : forallb pattern_ok l = true -> p ∈ l -> pattern_ok p = true.
Proof. rewrite forallb_forall. intros Hl Hp%list_elem_of_In. auto. Qed.

Lemma any_or_star_incl l x s : x ∈ l -> any_or_star [x] s = true -> any_or_star l s = true.
Proof.
  rewrite !any_or_star_true, !list_elem_of_singleton. intros Hx [<-|<-]; auto.
Qed.

(** A rule held comes from a rule of a binding, which grants at least as much. *)
Lemma holder_rule_bound store ident ns owner :
  store_ok store -> owner ∈ holder_rules store ident ns ->
  rule_ok owner = true /\
  exists rule, bound_rule store ident ns rule
    /\ forall req, rule_matches owner req = true -> rule_matches rule req = true.
Proof.
  intros Hok. unfold holder_rules, enumerate_effective_rules. rewrite elem_of_app.
  intros [(e & -> & He)%list_elem_of_fmap|(e & -> & He)%list_elem_of_fmap];
    apply enumerated_bound in He as (rule & Hbound & He);
    pose proof Hbound as (b & Hb & _ & Hr); pose proof (Hok _ _ _ Hb Hr) as Hrok;
    unfold rule_ok in Hrok; rewrite !andb_true_iff in Hrok; destruct Hrok as [[Hone Hres] Hurl].
  - apply list_elem_of_In, in_flat_map in He as (p & Hp%list_elem_of_In & He%list_elem_of_In).
    apply list_elem_of_fmap in He as (g & -> & Hg). cbn [er_verbs er_api_group er_resource er_resource_names]. split.
    { unfold rule_ok. cbn. by rewrite (patterns_ok_elem _ _ Hres Hp). }
    exists rule. split; [done|]. intros req (_ & Hv & Hm)%rule_matches_true. cbn [verbs api_groups resources non_resource_urls] in Hv, Hm.
    apply rule_matches_true. split_and!; [done..|]. destruct (rq_non_resource_url req); [done|].
    destruct Hm as (res & Hq & Hgm & Hrm & Hnm). exists res. split_and!; [done|..|done].
    + by eapply any_or_star_incl.
    + apply existsb_exists. exists p. rewrite <- list_elem_of_In. split; [done|].
      unfold matches_resource in Hrm. cbn in Hrm. by rewrite orb_false_r in Hrm.
  - unfold effective_non_resource_rules in He. destruct (is_nil _) eqn:En; [inversion He|].
    apply list_elem_of_singleton in He as ->. cbn [en_verbs en_non_resource_urls]. split.
    { unfold rule_ok, rule_targets_one. cbn. by rewrite En, Hurl. }
    exists rule. split; [done|]. intros req (_ & Hv & Hm)%rule_matches_true. cbn [verbs api_groups resources non_resource_urls] in Hv, Hm.
    apply rule_matches_true. split_and!; [done..|]. destruct (rq_non_resource_url req); [done|].
    by destruct Hm as (? & _ & Hg & _).
Qed.

(** Rules that the holder's cover grant only what a bound rule grants. *)
Lemma covered_bound store ident ns requested req :
  store_ok store -> rules_cover_all (holder_rules store ident ns) requested = true ->
  existsb (fun rule => rule_matches rule req) requested = true ->
  exists rule, bound_rule store ident ns rule /\ rule_matches rule req = true.
Proof.
  unfold rules_cover_all. rewrite forallb_forall, existsb_exists. intros Hok Hcover (r & Hin & Hm).
  destruct (cover_grants (holder_rules store ident ns) r req) as (owner & Ho & Hown); [|auto..|].
  { apply forallb_forall. intros o Ho%list_elem_of_In. by eapply holder_rule_bound. }
  destruct (holder_rule_bound _ _ _ _ Hok Ho) as (_ & rule & Hb & Himp). eauto.
Qed.
End Held.

Section NoEscalation.
Context {S : Type} `{RbacPolicyStoreLaws S}.
Implicit Types (store : S) (ident : AuthenticatedIdentity) (request : AuthorizationRequest).

(** The requests that rules granted in a scope are about: all, cluster-wide, and
    the resource requests of the namespace otherwise. *)
Definition in_scope (scope : option string) request : Prop :=
  match scope with
  | None => True
  | Some ns => ar_kind request = Resource /\ ar_namespace request = Some ns
  end.

Lemma bound_rule_allowed store ident scope rule request :
  bound_rule store ident scope rule -> rule_matches rule (rule_request request) = true ->
  in_scope scope request -> allowed (RbacAuthorizer store ident request) = true.
Proof using All.
  intros (b & Hb & Happ & Hr) Hm Hscope. unfold RbacAuthorizer.
  assert (existsb (fun b => binding_applies ident b && existsb (rule_grants request b) (rb_rules b))
            (list_bindings_for_namespace store (ar_namespace request)) = true) as ->; [|done].
  apply existsb_exists. exists b. rewrite <- list_elem_of_In, Happ.
  assert (Hgrant : b ∈ list_bindings_for_namespace store (ar_namespace request)
    /\ rule_grants request b rule = true).
  { unfold rule_grants. rewrite Hm. destruct scope as [ns|]; simpl in Hscope.
    - destruct Hscope as [-> ->]. done.
    - rewrite (cluster_bindings_unscoped store b Hb), andb_false_r. split; [|done].
      destruct (ar_namespace request); [by apply cluster_bindings_everywhere|done]. }
  destruct Hgrant as [Hin Hg]. split; [done|]. apply existsb_exists. exists rule.
  by rewrite <- list_elem_of_In.
Qed.


(** Binding roles does not escalate: when the admission accepts a binding
    to a role it could read, from a user without the bind verb on that role,
    every request in the binding's scope that the role grants was already allowed
    to that user by RBAC. *)
Theorem binding_write_no_escalation authorizer store get_resource ident kind namespace object
    role_ref ref_kind ref_name request :
  let ref_resource := if ref_kind =?s "ClusterRole" then "clusterroles" else "roles" in
  store_ok store ->
  get "roleRef" object = Some role_ref ->
  get_str "kind" role_ref = Some ref_kind -> get_str "name" role_ref = Some ref_name -> ref_name <> "" ->
  enforce_binding_escalation authorizer store get_resource ident kind namespace object = Ok tt ->
  has_verb authorizer ident "bind" ref_resource namespace (Some ref_name) = false ->
  in_scope namespace request ->
  existsb (fun rule => rule_matches rule (rule_request request))
    (referenced_role_rules get_resource ref_kind ref_name namespace) = true ->
  allowed (RbacAuthorizer store ident request) = true.
Proof using All.
  intros ref_resource Hok Href Hkind Hname Hne Hadmit Hverb Hscope Hgrant.
  unfold enforce_binding_escalation in Hadmit. rewrite Href, Hkind, Hname in Hadmit.
  cbn [unwrap_or] in Hadmit. fold ref_resource in Hadmit. rewrite Hverb in Hadmit.
  assert (is_empty ref_name = false) as E by (by destruct ref_name). rewrite E in Hadmit.
  destruct (referenced_role_rules _ _ _ _) as [|r rs] eqn:Er; [done|].
  cbn [is_nil] in Hadmit. destruct (rules_cover_all _ _) eqn:Ec; [|done].
  destruct (covered_bound _ _ _ _ _ Hok Ec Hgrant) as (rule & Hb & Hm).
  by eapply bound_rule_allowed.
Qed.

(** The binding check fails open: when the read of the referenced
    ClusterRole fails, the binding is admitted whatever the user holds. *)
Theorem unreadable_role_admitted authorizer store get_resource ident kind namespace object role_ref
    ref_name error :
  get "roleRef" object = Some role_ref ->
  get_str "kind" role_ref = Some "ClusterRole" -> get_str "name" role_ref = Some ref_name ->
  get_resource "ClusterRole" None ref_name = Err error ->
  enforce_binding_escalation authorizer store get_resource ident kind namespace object = Ok tt.
Proof.
  intros Href Hkind Hname Herr. unfold enforce_binding_escalation.
  rewrite Href, Hkind, Hname. cbn [unwrap_or]. destruct (is_empty ref_name); [done|].
  unfold referenced_role_rules. by rewrite Herr.
Qed.
End NoEscalation.

(** ** Runs *)

Lemma in_memory_store_ok bindings :
  forallb (fun b => forallb rule_ok (rb_rules b)) bindings = true -> store_ok (mkInMemoryStore bindings).
Proof.
  rewrite forallb_forall. intros Hall ns b rule Hb Hr.
  apply list_elem_of_fmap in Hb as (b' & -> & Hb). apply list_elem_of_In, filter_In in Hb as [Hin _].
  specialize (Hall _ Hin). rewrite forallb_forall in Hall. apply Hall, list_elem_of_In.
  by destruct (rb_namespace b').
Qed.

(** A user who may read pods in one namespace. *)
Definition dev : AuthenticatedIdentity := client_cert "dev" [].
Definition dev_store : InMemoryRbacPolicyStore :=
  mkInMemoryStore
    [mkResolvedBinding [mkSubject User "dev" None]
       [mkPolicyRule ["get"; "list"] [""] ["pods"; "pods/log"] [] []] (Some "team")].
Definition empty_node_store : NodePolicyStore :=
  mkNodePolicyStore (fun _ _ => None) (fun _ => []) (fun _ _ _ => []).
Definition dev_chain : Authorizer :=
  AuthorizerChain_authorize (default_chain_with_rbac dev_store empty_node_store).
Definition log_reader_role : Value :=
  Object [("rules", Array [Object
    [("apiGroups", Array [Str ""]); ("resources", Array [Str "pods/log"]); ("verbs", Array [Str "get"])]])].
Definition log_reader_binding : Value :=
  Object [("roleRef", Object [("kind", Str "Role"); ("name", Str "log-reader")])].
Definition read_log : AuthorizationRequest :=
  resource_request "get" "" "v1" "pods" (Some "log") (Some "team") (Some "web-1").


Lemma binding_write_no_escalation_witness : allowed (RbacAuthorizer dev_store dev read_log) = true.
Proof.
  apply (binding_write_no_escalation dev_chain dev_store (fun _ _ _ => Ok (Some log_reader_role)) dev
           "RoleBinding" (Some "team") log_reader_binding
           (Object [("kind", Str "Role"); ("name", Str "log-reader")]) "Role" "log-reader" read_log).
  - by apply in_memory_store_ok.
  - reflexivity.
  - reflexivity.
  - reflexivity.
  - done.
  - vm_compute. reflexivity.
  - vm_compute. reflexivity.
  - done.
  - vm_compute. reflexivity.
Defined.

(** A user without cluster rights may bind cluster-admin while the role cannot
    be read. *)
Lemma unreadable_role_admitted_witness :
  enforce_binding_escalation dev_chain dev_store (fun _ _ _ => Err "leader unavailable") dev
    "ClusterRoleBinding" None
    (Object [("roleRef", Object [("kind", Str "ClusterRole"); ("name", Str "cluster-admin")])]) = Ok tt.
Proof.
  by apply (unreadable_role_admitted _ _ _ _ _ _ _
              (Object [("kind", Str "ClusterRole"); ("name", Str "cluster-admin")]) "cluster-admin"
              "leader unavailable").
Defined.

(** A rule with resources and URLs grants nothing, but counts as held: its
    holder may write a role that allows everything. *)
Example malformed_rule_counts_as_held :
  let store := mkInMemoryStore [mkResolvedBinding [mkSubject User "dev" None]
                 [mkPolicyRule ["*"] ["*"] ["*"] [] ["/healthz"]] None] in
  let authorizer := AuthorizerChain_authorize (default_chain_with_rbac store empty_node_store) in
  let role := Object [("rules", Array [Object [("apiGroups", Array [Str "*"]);
                ("resources", Array [Str "*"]); ("verbs", Array [Str "*"])]])] in
  allowed (authorizer dev read_log) = false
  /\ has_verb authorizer dev "escalate" "clusterroles" None None = false
  /\ enforce_rbac_write_authorization authorizer store (fun _ _ _ => Ok None) dev
       "rbac.authorization.k8s.io/v1" "ClusterRole" None role = Ok tt.
Proof. vm_compute. by repeat split. Qed.

(** ** The chain *)

(** An authorizer that leaves the request to the next one. *)
Definition abstains (ident : AuthenticatedIdentity) (request : AuthorizationRequest) (a : Authorizer) : Prop :=
  allowed (a ident request) = false /\ denied (a ident request) = false.

Lemma chain_loop_exact authorizers ident request last_error :
  let d := chain_loop authorizers ident request last_error in
  (allowed d = true /\ exists pre a post, authorizers = (pre ++ a :: post)%list
     /\ Forall (abstains ident request) pre /\ a ident request = d)
  \/ (allowed d = false /\ denied d = true
      /\ (Forall (abstains ident request) authorizers
          \/ exists pre a post, authorizers = (pre ++ a :: post)%list
               /\ Forall (abstains ident request) pre /\ a ident request = d)).
Proof.
  revert last_error. induction authorizers as [|a rest IH]; intros last_error; cbn [chain_loop].
  { right. destruct last_error; (split_and!; [done..|by left]). }
  destruct (allowed (a ident request)) eqn:Ea.
  { left. split; [done|]. by exists [], a, rest. }
  destruct (denied (a ident request)) eqn:Ed.
  { right. split_and!; [done..|]. right. by exists [], a, rest. }
  assert (Habs : abstains ident request a) by done.
  destruct (IH (or_else (evaluation_error (a ident request)) last_error))
    as [(Hd & pre & b & post & -> & Hpre & Hb)|(Hd & Hn & [Hall|(pre & b & post & -> & Hpre & Hb)])].
  - left. split; [done|]. exists (a :: pre), b, post. split_and!; [done|by constructor|done].
  - right. split_and!; [done..|]. left. by constructor.
  - right. split_and!; [done..|]. right. exists (a :: pre), b, post. split_and!; [done|by constructor|done].
Qed.

(** C40.  The chain fails closed, for any authorizers: it never abstains; it
    allows a request only with the decision of an authorizer that allows it while
    every earlier one abstains; when all abstain, evaluation errors included, the
    request is denied. *)
Theorem chain_fails_closed authorizers ident request :
  let d := AuthorizerChain_authorize authorizers ident request in
  allowed d || denied d = true
  /\ (allowed d = true <-> exists pre a post, authorizers = (pre ++ a :: post)%list
        /\ Forall (abstains ident request) pre /\ allowed (a ident request) = true)
  /\ (Forall (abstains ident request) authorizers -> denied d = true).
Proof.
  intros d. unfold d, AuthorizerChain_authorize.
  pose proof (chain_loop_exact authorizers ident request None) as Hexact. cbn zeta in Hexact.
  split_and!.
  - destruct Hexact as [[-> _]|(_ & -> & _)]; [done|apply orb_true_r].
  - split.
    + destruct Hexact as [(Hd & pre & a & post & ? & ? & Ha)|[? _]]; [|congruence].
      intros _. exists pre, a, post. by rewrite Ha.
    + intros (pre & a & post & -> & Hpre & Ha). clear Hexact d. generalize (@None string).
      induction Hpre as [|b pre [Hb1 Hb2] _ IH]; intros e; cbn [chain_loop app]; [by rewrite Ha|].
      by rewrite Hb1, Hb2.
  - clear Hexact d. generalize (@None string).
    induction authorizers as [|a l IH]; intros e Hall; cbn [chain_loop]; [by destruct e|].
    apply Forall_cons in Hall as [[-> ->] Hl]. auto.
Qed.

(** Bootstrap tokens are confined: whatever RBAC and the node relations
    would grant, the production chain allows a bootstrap identity outside
    system:masters exactly the CSR verbs create, get, list and watch and the
    discovery URLs. *)
Theorem bootstrap_confined {S} `{RbacPolicyStore S} (rbac : S) node ident request :
  is_bootstrap_identity ident = true -> is_admin ident = false ->
  allowed (AuthorizerChain_authorize (default_chain_with_rbac rbac node) ident request)
  = is_csr_resource request && is_allowed_csr_verb request || is_discovery_url request.
Proof.
  intros Hb Ha. unfold AuthorizerChain_authorize, default_chain_with_rbac. cbn [chain_loop].
  unfold SystemMastersAuthorizer at 1 2 3. rewrite Ha. cbn [allowed denied no_opinion].
  unfold BootstrapCsrAuthorizer. rewrite Hb. cbn [negb].
  destruct (is_csr_resource request && is_allowed_csr_verb request); [done|].
  by destruct (is_discovery_url request).
Qed.

Lemma bootstrap_confined_witness :
  allowed (AuthorizerChain_authorize
    (default_chain_with_rbac
       (mkInMemoryStore [mkResolvedBinding [mkSubject Group "system:authenticated" None]
                           [mkPolicyRule ["*"] ["*"] ["*"] [] []] None]) empty_node_store)
    (bootstrap "abcdef" ["system:bootstrappers:worker"]) read_log) = false.
Proof. by rewrite bootstrap_confined. Defined.
