(* ===== verification/ListScope.v ===== *)
(** * Lists authorized by a field selector

    A list or watch restricted by name (RBAC [resourceNames]) or by node (the node
    authorizer) is authorized by reading the text of its field selector, which
    the server then parses and applies with other code.  This file composes the
    two: what the parsed selector matches is what was authorized. *)

From stdpp Require Import sorting.
From S2P Require Import Prelude Text Json Selectors Rbac Authorizer.
Local Open Scope string_scope.
Local Open Scope rs_scope.
#[local] Arguments String.append !_ _ : simpl nomatch.

(** ** What [trim] removes *)

Definition invisible (s : string) : Prop := all_chars (fun c => negb (is_visible c)) s = true.

(** Comparisons of byte values, as [lia] reads them. *)
Ltac byte_facts :=
  repeat match goal with
  | H : (_ || _) = true |- _ => apply orb_true_iff in H as [H|H]
  | H : (_ && _) = true |- _ => apply andb_true_iff in H as [? H]
  | H : (_ =? _)%N = true |- _ => apply N.eqb_eq in H
  | H : (_ <=? _)%N = true |- _ => apply N.leb_le in H
  end;
  rewrite ?andb_true_iff, ?negb_true_iff, ?andb_false_iff, ?N.leb_gt, ?N.ltb_ge; try lia;
  split_and!; try done; lia.

Lemma ws_len_invisible l n :
  ws_len (Ascii.N_of_ascii <$> take 3 l) = n ->
  forallb (fun c => negb (is_visible c)) (take n l) = true.
Proof.
  unfold ws_len, is_visible. intros <-.
  destruct l as [|a [|b [|c l]]]; csimpl; repeat case_match; csimpl; try done;
    byte_facts.
Qed.

Lemma ws_len_rev_invisible l n :
  ws_len_rev (Ascii.N_of_ascii <$> take 3 l) = n ->
  forallb (fun c => negb (is_visible c)) (take n l) = true.
Proof.
  unfold ws_len_rev. intros <-.
  assert (H1 : forall a, forallb (fun c => negb (is_visible c)) (take (ws_len [Ascii.N_of_ascii a]) [a]) = true)
    by (intros a; by apply (ws_len_invisible [a])).
  assert (H2 : forall a b, ws_len [Ascii.N_of_ascii b; Ascii.N_of_ascii a] = 2%nat ->
    negb (is_visible a) && negb (is_visible b) = true).
  { intros a b H%(ws_len_invisible [b; a]). simpl in H. rewrite !andb_true_iff in H.
    rewrite andb_true_iff. tauto. }
  assert (H3 : forall a b c, ws_len [Ascii.N_of_ascii c; Ascii.N_of_ascii b; Ascii.N_of_ascii a] = 3%nat ->
    negb (is_visible a) && negb (is_visible b) && negb (is_visible c) = true).
  { intros a b c H%(ws_len_invisible [c; b; a]). simpl in H. rewrite !andb_true_iff in H.
    rewrite !andb_true_iff. tauto. }
  destruct l as [|a [|b [|c l]]]; cbn [take fmap list_fmap]; [done|apply H1|..];
    specialize (H1 a); destruct (ws_len [Ascii.N_of_ascii a]) as [|[|k]] eqn:E1.
  all: try (unfold ws_len in E1; case_match; lia).
  all: try (simpl in *; rewrite !andb_true_iff in *; naive_solver).
  all: destruct (ws_len [_; _]) as [|[|[|k]]] eqn:E2; try done.
  all: try (apply H2 in E2; simpl; rewrite !andb_true_iff in *; naive_solver).
  all: destruct (ws_len [_; _; _]) as [|[|[|[|k3]]]] eqn:E3; try done.
  all: apply H3 in E3; simpl; rewrite !andb_true_iff in *; naive_solver.
Qed.

Lemma trim_fuel_suffix ws fuel l :
  (forall l, forallb (fun c => negb (is_visible c)) (take (ws (Ascii.N_of_ascii <$> take 3 l)) l) = true) ->
  exists w, l = (w ++ trim_fuel fuel ws l)%list /\ forallb (fun c => negb (is_visible c)) w = true.
Proof.
  intros Hws. revert l. induction fuel as [|fuel IH]; intros l; [by exists []|]. cbn [trim_fuel].
  destruct (ws _) as [|n] eqn:E; [by exists []|].
  specialize (Hws l). rewrite E in Hws. destruct (IH (drop (S n) l)) as (w & Hw & Hinv).
  exists (take (S n) l ++ w)%list. rewrite forallb_app, Hws, Hinv. split; [|done].
  rewrite <- app_assoc, <- Hw. by rewrite take_drop.
Qed.

(** A text is what [trim] keeps between two invisible texts. *)
Lemma trim_decompose s : exists w1 w2, s = w1 +:+ trim s +:+ w2 /\ invisible w1 /\ invisible w2.
Proof.
  assert (Hstart : exists w1, s = w1 +:+ trim_start s /\ invisible w1).
  { destruct (trim_fuel_suffix ws_len (length (bytes_of s)) (bytes_of s)) as (w & Hw & Hinv);
      [intros; by eapply ws_len_invisible|].
    exists (str_of w). unfold trim_start, invisible, all_chars.
    rewrite String.list_ascii_of_string_of_list_ascii. split; [|done].
    rewrite <- str_of_app, <- Hw. by rewrite String.string_of_list_ascii_of_string. }
  assert (Hend : forall t, exists w2, t = trim_end t +:+ w2 /\ invisible w2).
  { intros t. destruct (trim_fuel_suffix ws_len_rev (length (rev (bytes_of t))) (rev (bytes_of t)))
      as (w & Hw & Hinv); [intros; by eapply ws_len_rev_invisible|].
    exists (str_of (rev w)). unfold trim_end, invisible, all_chars.
    rewrite String.list_ascii_of_string_of_list_ascii. split.
    - rewrite <- str_of_app, <- rev_app_distr, <- Hw, rev_involutive.
      by rewrite String.string_of_list_ascii_of_string.
    - rewrite forallb_forall in *. intros c Hc%in_rev. auto. }
  destruct Hstart as (w1 & Hs & H1). destruct (Hend (trim_start s)) as (w2 & He & H2).
  exists w1, w2. split_and!; [|done..]. unfold trim. by rewrite <- He.
Qed.

(** ** Pieces between commas and terms of the parser *)

Definition comma_free (s : string) : Prop := any_char (Ascii.eqb ",") s = false.
Definition left_bound (x : string) : Prop := x = "" \/ exists x', x = x' +:+ ",".
Definition right_bound (y : string) : Prop := y = "" \/ exists y', y = "," +:+ y'.

Lemma split_once_comma_free s :
  match split_once "," s with
  | Some (a, b) => comma_free a /\ s = a +:+ "," +:+ b
  | None => comma_free s
  end.
Proof.
  unfold comma_free. destruct (split_once "," s) as [[a b]|] eqn:E.
  - split; [|by apply split_once_Some]. revert a E. induction s as [|c s IH]; intros a; [done|].
    cbn [split_once strip_prefix]. destruct (Ascii.eqb "," c) eqn:Ec; [by intros [= <- _]|].
    destruct (split_once "," s) as [[a' b']|]; [|done]. intros [= <- <-].
    by rewrite any_char_cons, Ec, IH.
  - induction s as [|c s IH]; [done|]. cbn [split_once strip_prefix] in E.
    rewrite any_char_cons. destruct (Ascii.eqb "," c); [done|].
    destruct (split_once "," s) as [[]|]; [done|]. auto.
Qed.

(** A piece of [split(',')] has no comma and lies between commas or ends. *)
Lemma split_piece fuel s p :
  (String.length s <= fuel)%nat -> p ∈ split_fuel fuel "," s ->
  exists x y, s = x +:+ p +:+ y /\ left_bound x /\ right_bound y /\ comma_free p.
Proof.
  revert s. induction fuel as [|fuel IH]; intros s Hlen.
  { cbn [split_fuel]. intros ->%list_elem_of_singleton. destruct s; [|simpl in Hlen; lia].
    exists "", "". by repeat split; auto; left. }
  pose proof (split_once_comma_free s) as Hs. cbn [split_fuel].
  destruct (split_once "," s) as [[a b]|].
  - destruct Hs as [Ha ->]. rewrite !str_app_length in Hlen. cbn [String.length] in Hlen.
    rewrite elem_of_cons. intros [->|Hp].
    + exists "", ("," +:+ b). split_and!; [done|by left|right; by exists b|done].
    + destruct (IH b) as (x & y & -> & Hx & Hy & Hc); [lia|done|].
      exists (a +:+ "," +:+ x), y. split_and!; [by rewrite !str_app_assoc|..|done|done]. right.
      destruct Hx as [->|[x' ->]]; [by exists a|]. exists (a +:+ "," +:+ x'). by rewrite !str_app_assoc.
  - intros ->%list_elem_of_singleton. exists "", "". rewrite str_app_nil_r. by repeat split; auto; left.
Qed.

(** The term being read is a prefix of the first term returned. *)
Lemma term_extends s cur esc : exists z, cur +:+ z ∈ split_terms_loop s cur esc.
Proof.
  revert cur esc. induction s as [|c s IH]; intros cur esc; cbn [split_terms_loop].
  { exists "". rewrite str_app_nil_r. by left. }
  assert (Hstep : forall e, exists z, cur +:+ z ∈ split_terms_loop s (cur +:+ String c "") e).
  { intros e. destruct (IH (cur +:+ String c "") e) as [z Hz]. exists (String c z).
    by rewrite str_app_assoc in Hz. }
  repeat case_match; try apply Hstep. exists "". rewrite str_app_nil_r. by left.
Qed.

Lemma term_of_piece p y cur esc :
  comma_free p -> right_bound y ->
  exists y', cur +:+ p +:+ y' ∈ split_terms_loop (p +:+ y) cur esc /\ right_bound y'.
Proof.
  unfold comma_free. revert cur esc. induction p as [|c p IH]; intros cur esc Hp Hy.
  - simpl. destruct Hy as [->|[y2 ->]].
    { exists "". rewrite str_app_nil_r. split; [by left|by left]. }
    cbn [String.append split_terms_loop]. destruct esc.
    + destruct (term_extends y2 (cur +:+ ",") false) as [z Hz]. exists ("," +:+ z).
      rewrite str_app_assoc in Hz. split; [done|right; by exists z].
    + exists "". rewrite str_app_nil_r. split; [by left|by left].
  - rewrite any_char_cons in Hp. apply orb_false_iff in Hp as [Hc Hp].
    rewrite Ascii.eqb_sym in Hc. cbn [String.append split_terms_loop]. rewrite Hc.
    assert (Hstep : forall e, exists y', cur +:+ String c (p +:+ y')
      ∈ split_terms_loop (p +:+ y) (cur +:+ String c "") e /\ right_bound y').
    { intros e. destruct (IH (cur +:+ String c "") e Hp Hy) as (y' & Hin & Hy'). exists y'.
      by rewrite str_app_assoc in Hin. }
    repeat case_match; apply Hstep.
Qed.

Lemma left_bound_tail c x : left_bound (String c x) -> left_bound x.
Proof.
  intros [|[[|d x'] Hx]]; [done|..]; simpl in Hx; injection Hx as -> ->; [by left|right; by exists x'].
Qed.

(** The piece lies in one term of the parser. *)
Lemma piece_in_term x p y cur esc :
  comma_free p -> left_bound x -> right_bound y ->
  exists x' y', x' +:+ p +:+ y' ∈ split_terms_loop (x +:+ p +:+ y) cur esc
    /\ (x' = cur +:+ x \/ left_bound x') /\ right_bound y'.
Proof.
  intros Hp Hx Hy. revert cur esc Hx. induction x as [|c x IH]; intros cur esc Hx.
  { destruct (term_of_piece p y cur esc Hp Hy) as (y' & Hin & Hy'). exists cur, y'.
    rewrite str_app_nil_r. auto. }
  apply left_bound_tail in Hx. cbn [String.append split_terms_loop].
  assert (Hstep : forall e, exists x' y', x' +:+ p +:+ y'
    ∈ split_terms_loop (x +:+ p +:+ y) (cur +:+ String c "") e
    /\ (x' = cur +:+ String c x \/ left_bound x') /\ right_bound y').
  { intros e. destruct (IH (cur +:+ String c "") e Hx) as (x' & y' & Hin & Hx' & Hy').
    exists x', y'. by rewrite str_app_assoc in Hx'. }
  repeat case_match; try apply Hstep.
  destruct (IH "" false Hx) as (x' & y' & Hin & Hx' & Hy'). exists x', y'. split_and!; [by right|..|done].
  right. by destruct Hx' as [->|].
Qed.

(** ** The requirement a piece becomes *)

Definition token_of (tok : string) (o : FieldSelectorOperator) : Prop :=
  tok = "!=" /\ o = NotEquals \/ tok = "==" /\ o = Equals \/ tok = "=" /\ o = Equals.

Lemma operator_at_Some t o raw :
  operator_at t = Some (o, raw) -> exists tok, t = tok +:+ raw /\ token_of tok o.
Proof.
  unfold operator_at, token_of.
  destruct (strip_prefix "!=" t) eqn:E1; [|destruct (strip_prefix "==" t) eqn:E2;
    [|destruct (strip_prefix "=" t) eqn:E3; [|done]]]; intros [= <- <-].
  - apply strip_prefix_Some in E1. exists "!=". auto.
  - apply strip_prefix_Some in E2. exists "==". auto.
  - apply strip_prefix_Some in E3. exists "=". auto.
Qed.

(** The operator found is the first: no text before an equals sign is shorter
    than the field. *)
Lemma find_operator_first t field o raw :
  find_operator t = Some (field, o, raw) ->
  (exists tok, t = field +:+ tok +:+ raw /\ token_of tok o)
  /\ forall X R, t = X +:+ "=" +:+ R -> exists Z, X = field +:+ Z.
Proof.
  revert field. induction t as [|c t IH]; intros field; [done|]. cbn [find_operator].
  destruct (operator_at (String c t)) as [[o' raw']|] eqn:E.
  { intros [= <- <- <-]. split; [by apply operator_at_Some|]. intros X R _. by exists X. }
  destruct (find_operator t) as [[[f' o'] raw']|]; [|done]. intros [= <- <- <-].
  destruct (IH f' eq_refl) as [(tok & -> & Htok) Hfirst]. split; [by exists tok|].
  intros [|d X] R HX; simpl in HX; injection HX as -> HX.
  - exfalso. unfold operator_at in E. cbn [strip_prefix] in E.
    change (Ascii.eqb "!" "=") with false in E. change (Ascii.eqb "=" "=") with true in E.
    cbn iota in E. repeat case_match; done.
  - destruct (Hfirst X R HX) as [Z ->]. by exists Z.
Qed.

(** In an escaped text an equals sign follows a backslash. *)
Lemma escape_no_bare_equals w a l R :
  is_special l = false -> escape w = a +:+ String l (String "=" R) -> False.
Proof.
  intros Hl. revert a. induction w as [|c w IH]; intros a; [by destruct a|]. cbn [escape].
  destruct (is_special c) eqn:Hc.
  - destruct a as [|d [|d2 a]]; simpl.
    + intros [= <- _]. done.
    + intros [= _ <- _]. congruence.
    + intros [= _ _ Hw]. by eapply IH.
  - destruct a as [|d a]; simpl; [intros [= -> Hw]|intros [= -> Hw]; by eapply IH].
    pose proof (strip_eq_escape w) as Hs. by rewrite Hw in Hs.
Qed.

Lemma str_snoc s : s <> "" -> exists s' l, s = s' +:+ String l "".
Proof.
  induction s as [|c s IH]; [done|]. intros _. destruct s as [|d s]; [by exists "", c|].
  destruct IH as (s' & l & ->); [done|]. by exists (String c s'), l.
Qed.

Lemma str_app_inj_l a x y : a +:+ x = a +:+ y -> x = y.
Proof. induction a; simpl; [done|]. intros [=]. auto. Qed.

Lemma str_snoc_inj a b c d : a +:+ String c "" = b +:+ String d "" -> a = b /\ c = d.
Proof. intros H. apply str_app_inj_r in H as [-> [= ->]]; done. Qed.

(** A token at the start of a text whose marked character is no token character. *)
Lemma token_before tok o raw z l R :
  token_of tok o -> Ascii.eqb "!" l = false -> Ascii.eqb "=" l = false ->
  tok +:+ raw = z +:+ String l R -> exists z', raw = z' +:+ String l R.
Proof.
  intros Htok Hb He. unfold token_of in Htok.
  assert (Htwo : forall t1 t2, Ascii.eqb t1 l = false -> Ascii.eqb t2 l = false ->
    String t1 (String t2 raw) = z +:+ String l R -> exists z', raw = z' +:+ String l R).
  { intros t1 t2 H1 H2. destruct z as [|c1 [|c2 z]]; simpl.
    - intros [= -> _]. by rewrite Ascii.eqb_refl in H1.
    - intros [= _ -> _]. by rewrite Ascii.eqb_refl in H2.
    - intros [= _ _ ->]. by exists z. }
  destruct Htok as [[-> _]|[[-> _]|[-> _]]]; simpl; [by apply Htwo..|].
  destruct z as [|c1 z]; simpl.
  - intros [= <- _]. done.
  - intros [= _ ->]. by exists z.
Qed.

(** A field of the server's list of supported fields: visible, and without the
    characters of the selector syntax. *)
Definition is_plain_char (c : ascii) : bool := is_visible c && is_field_char c.
Definition plain_field (f : string) : bool := negb (is_empty f) && all_chars is_plain_char f.

Lemma term_requirement x w f R r :
  left_bound x -> invisible w -> f <> "" -> all_chars is_field_char f = true ->
  parse_field_requirement (x +:+ w +:+ f +:+ "=" +:+ R) = Ok r -> plain_field (fr_field r) = true ->
  fr_field r = f /\ fr_operator r = Equals
  /\ (R = escape (fr_value r) \/ R = "=" +:+ escape (fr_value r)).
Proof.
  intros Hx Hw Hne Hf Hparse Hplain. unfold parse_field_requirement, parse_requirement in Hparse.
  destruct (find_operator _) as [[[field o] raw]|] eqn:E; [|done]. cbn [ok_or result_bind fst snd] in Hparse.
  rewrite unescape_value_loop in Hparse. destruct (unescape_loop raw) as [value|] eqn:Eu; [|done].
  injection Hparse as <-. cbn [fr_field fr_operator fr_value] in *.
  apply (unescape_only_escapes (String.length raw)) in Eu; [|done].
  apply find_operator_first in E as [(tok & Hterm & Htok) Hfirst].
  destruct (Hfirst (x +:+ w +:+ f) R) as [Z HZ]; [by rewrite !str_app_assoc|].
  assert (Hrest : tok +:+ raw = Z +:+ "=" +:+ R).
  { apply (str_app_inj_l field). rewrite <- Hterm, <- (str_app_assoc field), <- HZ.
    by rewrite !str_app_assoc. }
  destruct (decide (Z = "")) as [->|HZne].
  - rewrite str_app_nil_r in HZ. subst field. unfold plain_field in Hplain.
    apply andb_true_iff in Hplain as [_ Hplain]. rewrite !all_chars_app, !andb_true_iff in Hplain.
    destruct Hplain as (Hpx & Hpw & _).
    assert (x = "") as ->.
    { destruct Hx as [|[x' ->]]; [done|]. rewrite all_chars_app in Hpx.
      apply andb_true_iff in Hpx as [_ Hpx]. done. }
    assert (w = "") as ->.
    { destruct w as [|c w]; [done|]. apply andb_true_iff in Hpw as [Hc _], Hw as [Hc' _].
      unfold is_plain_char in Hc. apply andb_true_iff in Hc as [Hc _]. by rewrite Hc in Hc'. }
    subst raw. destruct Htok as [[-> _]|[[-> ->]|[-> ->]]]; simpl in Hrest; injection Hrest as Hrest;
      subst; auto; done.
  - exfalso. destruct (str_snoc Z HZne) as (Z0 & l & ->), (str_snoc f Hne) as (f' & l' & ->).
    assert (l' = l) as ->.
    { rewrite <- !str_app_assoc in HZ. by apply str_snoc_inj in HZ as [_ ->]. }
    rewrite all_chars_app in Hf. apply andb_true_iff in Hf as [_ [Hl _]%andb_true_iff].
    pose proof (field_char_spec _ Hl) as (_ & _ & He & Hb).
    rewrite str_app_assoc in Hrest. simpl in Hrest.
    destruct (token_before _ _ _ _ _ _ Htok Hb He Hrest) as [z' Hraw].
    rewrite Eu in Hraw. eapply escape_no_bare_equals; [|done].
    unfold is_field_char in Hl. by apply andb_true_iff in Hl as [?%negb_true_iff _].
Qed.

(** Label text is printed as it is. *)
Lemma escape_label w : label_text_ok w = true -> escape w = w.
Proof.
  induction w as [|c w IH]; [done|]. intros [Hc Hw]%andb_true_iff. cbn [escape].
  assert (is_special c = false) as -> by (by destruct c as [[] [] [] [] [] [] [] []]).
  by rewrite IH.
Qed.

Lemma label_invisible w : label_text_ok w = true -> invisible w -> w = "".
Proof.
  destruct w as [|c w]; [done|]. intros [Hc _]%andb_true_iff [Hi _]%andb_true_iff.
  by rewrite (label_char_visible c Hc) in Hi.
Qed.

(** The value a piece asks for is the value the requirement has. *)
Lemma piece_value v w y value :
  label_word (trim v) = true -> invisible w -> right_bound y -> label_text_ok value = true ->
  v +:+ w +:+ y = value \/ v +:+ w +:+ y = "=" +:+ value -> trim v = value.
Proof.
  intros [Hne Hv]%label_word_spec Hw Hy Hval [Heq|Heq].
  - pose proof Hval as Hsplit. rewrite <- Heq in Hsplit. unfold label_text_ok in Hsplit.
    rewrite !all_chars_app, !andb_true_iff in Hsplit. destruct Hsplit as (H1 & H2 & H3).
    rewrite (label_invisible w) in Heq by done.
    assert (y = "") as -> by (by destruct Hy as [|[y' ->]]).
    simpl in Heq. rewrite str_app_nil_r in Heq. subst value. by apply label_text_trim.
  - exfalso. destruct (trim_decompose v) as (w1 & w2 & Hdec & Hw1 & _).
    destruct (trim v) as [|c t] eqn:Et; [done|]. apply andb_true_iff in Hv as [Hc _].
    rewrite Hdec in Heq. destruct w1 as [|d w1]; simpl in Heq; injection Heq as -> _; [done|].
    by apply andb_true_iff in Hw1 as [Hd _].
Qed.

Lemma try_map_elem {E A B} (g : A -> result E B) l bs a :
  try_map g l = Ok bs -> a ∈ l -> exists b, b ∈ bs /\ g a = Ok b.
Proof.
  revert bs. induction l as [|a' l IH]; intros bs; [intros _ Hin; inversion Hin|]. cbn [try_map].
  destruct (g a') as [b|] eqn:Eg; [|done]. cbn [result_bind].
  destruct (try_map g l) as [bs'|]; [|done]. cbn [result_bind]. intros [= <-].
  rewrite elem_of_cons. intros [->|Hin]; [exists b; split; [by left|done]|].
  destruct (IH bs' eq_refl Hin) as (b' & ? & ?). exists b'. split; [by right|done].
Qed.

(** Every non-empty term of the selector became a requirement. *)
Lemma parsed_term s fs term :
  FieldSelector_parse s = Ok fs -> term ∈ split_terms s -> term <> "" ->
  exists r, r ∈ fs /\ parse_field_requirement term = Ok r.
Proof.
  intros Hparse Hin Hne. eapply try_map_elem; [exact Hparse|].
  apply list_elem_of_In, filter_In. split; [|by destruct term].
  apply list_elem_of_In. by rewrite (merge_sort_Permutation str_le (split_terms s)).
Qed.

(** A piece [f=v] of the text is a requirement of the parsed selector. *)
Lemma piece_required s fs p f v :
  p ∈ split "," s -> trim p = f +:+ "=" +:+ v -> f <> "" -> all_chars is_field_char f = true ->
  label_word (trim v) = true -> FieldSelector_parse s = Ok fs ->
  Forall (fun r => plain_field (fr_field r) = true) fs ->
  exists r, r ∈ fs /\ fr_field r = f /\ fr_operator r = Equals
    /\ (label_text_ok (fr_value r) = true -> fr_value r = trim v).
Proof.
  intros Hin Htrim Hne Hf Hv Hparse Hplain.
  destruct (split_piece _ _ _ (le_n _) Hin) as (x & y & -> & Hx & Hy & Hc).
  destruct (piece_in_term x p y "" false Hc Hx Hy) as (x' & y' & Hterm & Hx' & Hy').
  assert (Hxb : left_bound x') by (by destruct Hx' as [->|]).
  destruct (trim_decompose p) as (w1 & w2 & Hp & Hw1 & Hw2). rewrite Htrim in Hp.
  assert (Hsplit : x' +:+ p +:+ y' = x' +:+ w1 +:+ f +:+ "=" +:+ (v +:+ w2 +:+ y')).
  { rewrite Hp. by rewrite !str_app_assoc. }
  assert (Hpne : forall a b, a +:+ p +:+ b <> "").
  { intros a b Hab. apply (f_equal String.length) in Hab. rewrite Hp, !str_app_length in Hab.
    simpl in Hab. lia. }
  destruct (parsed_term _ fs (x' +:+ p +:+ y') Hparse) as (r & Hr & Hreq); [|apply Hpne|].
  { unfold split_terms. specialize (Hpne x y). by destruct (x +:+ p +:+ y). }
  rewrite Hsplit in Hreq. rewrite Forall_forall in Hplain.
  destruct (term_requirement _ _ _ _ _ Hxb Hw1 Hne Hf Hreq (Hplain _ Hr)) as (Hfield & Hop & HR).
  exists r. split_and!; [done..|]. intros Hval. symmetry.
  eapply piece_value; [done|exact Hw2|exact Hy'|done|]. by rewrite (escape_label _ Hval) in HR.
Qed.

Section Matching.
Context (float_to_string : Z -> string).

(** An object a selector matches has the values its requirements ask for. *)
Lemma matched_value fs api kind object r value :
  FieldSelector_matches_with_identity float_to_string fs api kind object = true ->
  r ∈ fs -> fr_operator r = Equals ->
  resolve_field_value float_to_string object (fr_field r) = Some value -> value = fr_value r.
Proof.
  unfold FieldSelector_matches_with_identity. rewrite forallb_forall. intros Hall Hin%list_elem_of_In Hop Hv.
  specialize (Hall _ Hin). unfold field_matches_with_identity, matches_value in Hall.
  rewrite Hv, Hop in Hall. by apply String.eqb_eq in Hall.
Qed.

(** C31.  A list authorized by name returns only those names: when a rule that
    names resources grants a list or watch with a field selector, every object
    the server's parser matches with that selector bears one of the rule's names.
    The fields are plain, as the server's check of supported fields requires, and
    the names are Kubernetes names, none of them the wildcard. *)
Theorem named_list_confined rule request selector fs api kind object name :
  rule_matches rule request = true -> rq_non_resource_url request = None ->
  rq_verb request = "list" \/ rq_verb request = "watch" ->
  resource_names rule <> [] -> forallb label_word (resource_names rule) = true ->
  rq_field_selector request = Some selector -> FieldSelector_parse selector = Ok fs ->
  Forall (fun r => plain_field (fr_field r) = true) fs ->
  FieldSelector_matches_with_identity float_to_string fs api kind object = true ->
  resolve_field_value float_to_string object "metadata.name" = Some name -> label_text_ok name = true ->
  name ∈ resource_names rule.
Proof.
  intros Hm Hurl Hverb Hnames Hlabels Hsel Hparse Hplain Hmatch Hname Hlabel.
  apply rule_matches_true in Hm as (_ & _ & Hm). rewrite Hurl in Hm. destruct Hm as (_ & _ & _ & _ & Hm).
  unfold names_match in Hm. rewrite Hsel in Hm. cbn [unwrap_or] in Hm.
  assert (is_nil (resource_names rule) = false) as E by (by destruct (resource_names rule)).
  rewrite E in Hm. assert (Hlist : field_selector_matches_resource_names selector (resource_names rule) = true)
    by (by destruct Hverb as [Hv|Hv]; rewrite Hv in Hm).
  unfold field_selector_matches_resource_names in Hlist. destruct (is_empty selector); [done|].
  apply existsb_exists in Hlist as (p & Hp%list_elem_of_In & Hpart). unfold part_names_resource in Hpart.
  destruct (strip_prefix _ _) as [v|] eqn:Ev; [|done]. apply strip_prefix_Some in Ev.
  assert (Hin : trim v ∈ resource_names rule /\ label_word (trim v) = true).
  { rewrite forallb_forall in Hlabels. apply any_or_star_true in Hpart as [Hstar|Hin].
    - by apply list_elem_of_In, Hlabels in Hstar.
    - split; [done|]. by apply Hlabels, list_elem_of_In. }
  destruct Hin as [Hin Hword].
  destruct (piece_required selector fs p "metadata.name" v) as (r & Hr & Hfield & Hop & Hval); try done.
  rewrite <- Hfield in Hname.
  pose proof (matched_value _ _ _ _ _ _ Hmatch Hr Hop Hname) as ->. by rewrite Hval.
Qed.

(** A node lists only its own pods: when the node authorizer allows a node
    to list or watch pods with a field selector, every pod the server's parser
    matches with that selector is bound to that node. *)
Theorem node_list_confined store ident request node selector fs pod bound :
  allowed (NodeAuthorizer store ident request) = true ->
  parse_node_name ident = Some node -> label_word node = true ->
  ar_resource request = Some "pods" -> ar_verb request = "list" \/ ar_verb request = "watch" ->
  ar_field_selector request = Some selector -> FieldSelector_parse selector = Ok fs ->
  Forall (fun r => plain_field (fr_field r) = true) fs ->
  FieldSelector_matches_with_identity float_to_string fs "v1" "Pod" pod = true ->
  resolve_field_value float_to_string pod "spec.nodeName" = Some bound -> label_text_ok bound = true ->
  bound = node.
Proof.
  intros Hallow Hnode Hword Hres Hverb Hsel Hparse Hplain Hmatch Hbound Hlabel.
  unfold NodeAuthorizer in Hallow. rewrite Hnode, Hres in Hallow.
  destruct (bool_decide _); [done|]. cbn in Hallow.
  assert (Hlist : field_selector_matches_node selector node = true).
  { unfold check_pod_access in Hallow. rewrite Hsel in Hallow. cbn [unwrap_or] in Hallow.
    destruct store; [|by destruct Hverb as [Hv|Hv]; rewrite Hv in Hallow].
    destruct (field_selector_matches_node selector node); [done|].
    by destruct Hverb as [Hv|Hv]; rewrite Hv in Hallow. }
  apply existsb_exists in Hlist as (p & Hp%list_elem_of_In & Hpart). unfold part_names_node in Hpart.
  destruct (split_once "=" (trim p)) as [[f v]|] eqn:Ev; [|done]. apply split_once_Some in Ev.
  apply andb_true_iff in Hpart as [Hf%String.eqb_eq Hv%String.eqb_eq].
  destruct (trim_decompose f) as (w1 & w2 & Hdec & Hw1 & Hw2). rewrite Hf in Hdec.
  assert (Hchars : forall w, invisible w -> all_chars is_field_char w = true).
  { intros w. apply all_chars_weaken. by intros [[] [] [] [] [] [] [] []]. }
  destruct (piece_required selector fs p f v) as (r & Hr & Hfield & Hop & Hval); try done.
  - intros ->. by destruct w1.
  - by rewrite Hdec, !all_chars_app, (Hchars w1 Hw1), (Hchars w2 Hw2).
  - by rewrite Hv.
  - assert (Hvis : fr_field r = "spec.nodeName").
    { rewrite Forall_forall in Hplain. pose proof (Hplain _ Hr) as Hpl. unfold plain_field in Hpl.
      apply andb_true_iff in Hpl as [_ Hpl]. rewrite Hfield in Hpl |- *. rewrite <- Hf. symmetry.
      apply trim_visible. eapply all_chars_weaken; [|exact Hpl]. by intros c [? _]%andb_true_iff. }
    rewrite <- Hvis in Hbound.
    pose proof (matched_value _ _ _ _ _ _ Hmatch Hr Hop Hbound) as ->. by rewrite Hval.
Qed.
End Matching.

(** ** Runs *)

Definition float_text (_ : Z) : string := "".
Definition named_pod (name node : string) : Value :=
  Object [("metadata", Object [("name", Str name)]); ("spec", Object [("nodeName", Str node)])].

Lemma named_list_confined_witness : "web-1" ∈ ["db-0"; "web-1"].
Proof.
  apply (named_list_confined float_text (mkPolicyRule ["list"] [""] ["pods"] ["db-0"; "web-1"] [])
           (mkRuleMatchRequest "list" None (Some "pods") None None None
              (Some "spec.nodeName!=n2,metadata.name=web-1"))
           "spec.nodeName!=n2,metadata.name=web-1"
           [mkFieldRequirement "metadata.name" Equals "web-1"; mkFieldRequirement "spec.nodeName" NotEquals "n2"]
           "v1" "Pod" (named_pod "web-1" "n1") "web-1");
    [vm_compute; reflexivity|reflexivity|by left|done|reflexivity|reflexivity|vm_compute; reflexivity|
     by repeat constructor|vm_compute; reflexivity|reflexivity|reflexivity].
Defined.

Lemma node_list_confined_witness : "n1" = "n1".
Proof.
  apply (node_list_confined float_text (Some empty_node_store)
           (client_cert "system:node:n1" ["system:nodes"])
           (with_field_selector (Some "spec.nodeName=n1,metadata.name!=web-2")
              (resource_request "watch" "" "v1" "pods" None None None))
           "n1" "spec.nodeName=n1,metadata.name!=web-2"
           [mkFieldRequirement "metadata.name" NotEquals "web-2"; mkFieldRequirement "spec.nodeName" Equals "n1"]
           (named_pod "web-1" "n1"));
    [vm_compute; reflexivity|reflexivity|reflexivity|reflexivity|by right|reflexivity|vm_compute; reflexivity|
     by repeat constructor|vm_compute; reflexivity|reflexivity|reflexivity].
Defined.

(** Without the server's check of supported fields the names would not confine
    the list: an escaped comma hides the name from the parser but not from the
    authorizer. *)
Example escaped_comma_hides_name :
  let selector := "spec.a\,metadata.name=web-1" in
  let secret := Object [("metadata", Object [("name", Str "secret")]);
                        ("spec", Object [("a\,metadata", Object [("name", Str "web-1")])])] in
  field_selector_matches_resource_names selector ["web-1"] = true
  /\ match FieldSelector_parse selector with
     | Ok fs => FieldSelector_matches_with_identity float_text fs "example.com/v1" "Thing" secret = true
     | Err _ => False
     end.
Proof. vm_compute. by split. Qed.
