(* ===== verification/WatchCache.v ===== *)
(** * The watch cache

    [klights-watch/src/cache.rs] with its filter ([filter.rs]): the informer cache
    a controller or kubelet reads, filled by LIST replacements and kept current
    by watch events.

    The state is guarded by one lock, so an operation is one step.  The hash maps
    are [gmap]s: every loop over one treats its entries independently, or its
    result is sorted.  The wake-up of waiters is left out.  A formatted error
    message is a constructor that names it. *)

From stdpp Require Import sorting.
From S2P Require Import Prelude Text Json Selectors Replay Watch.
Local Open Scope string_scope.
Local Open Scope rs_scope.

Record CacheReadinessRequest := mkScope {
  cs_api_version : string;
  cs_kind : string;
  cs_namespace : option string;
  cs_label_selector : option string;
  cs_field_selector : option string
}.

#[export] Instance scope_eq_dec : EqDecision CacheReadinessRequest.
Proof. solve_decision. Defined.
#[export] Instance scope_countable : Countable CacheReadinessRequest.
Proof.
  refine (inj_countable'
    (fun s => (cs_api_version s, cs_kind s, cs_namespace s, cs_label_selector s, cs_field_selector s))
    (fun '(a, k, n, l, f) => mkScope a k n l f) _).
  by intros [].
Defined.

Inductive WatchCacheError :=
| InvalidLabelSelector (e : LabelSelectorParseError)
| InvalidFieldSelector (e : FieldSelectorParseError)
| InvalidScope (field : string)
| InvalidPosition (e : ReplayError)
| OutsideScope
| NewerThanSnapshot
| DuplicateIdentity
| NegativeListVersion
| ListPositionMismatch
| ScopeNotReady (scope : CacheReadinessRequest)
| NoBaseline.

(** ** The filter *)

Record ResourceFilter := mkFilter {
  rf_api_version : string;
  rf_kind : string;
  rf_namespace : option string;
  rf_label_selector : option LabelSelector;
  rf_field_selector : option FieldSelector
}.

Definition normalized (selector : option string) : option string :=
  opt_filter (fun s => negb (is_empty (trim s))) selector.

Definition parse_label (selector : option string) : result LabelSelectorParseError (option LabelSelector) :=
  match normalized selector with
  | None => Ok None
  | Some s => let? parsed := parse_label_selector s in Ok (Some parsed)
  end.

Definition parse_field (selector : option string) : result FieldSelectorParseError (option FieldSelector) :=
  match normalized selector with
  | None => Ok None
  | Some s => let? parsed := FieldSelector_parse s in Ok (Some parsed)
  end.

(** [for_list] and [for_cache_scope] read the same five fields. *)
Definition filter_for (request : CacheReadinessRequest) : result WatchCacheError ResourceFilter :=
  match parse_label (cs_label_selector request) with
  | Err e => Err (InvalidLabelSelector e)
  | Ok label =>
      match parse_field (cs_field_selector request) with
      | Err e => Err (InvalidFieldSelector e)
      | Ok field => Ok (mkFilter (cs_api_version request) (cs_kind request) (cs_namespace request) label field)
      end
  end.

Definition matches_identity (self : ResourceFilter) (resource : Resource) : bool :=
  (r_api_version resource =?s rf_api_version self) && (r_kind resource =?s rf_kind self)
  && is_none_or (rf_namespace self) (fun expected => bool_decide (r_namespace resource = Some expected)).

(** The checks of [CacheReadinessRequest::try_new]. *)
Definition cache_scope (request : CacheReadinessRequest) : result WatchCacheError CacheReadinessRequest :=
  if is_empty (cs_api_version request) then Err (InvalidScope "watch.api_version")
  else if is_empty (cs_kind request) then Err (InvalidScope "watch.kind")
  else if is_some_and (cs_namespace request) is_empty then Err (InvalidScope "watch.namespace")
  else Ok request.

(** ** State *)

Abbreviation CacheKey := (string * string * option string * string)%type.

Definition cache_key (resource : Resource) : CacheKey :=
  (r_api_version resource, r_kind resource, r_namespace resource, r_name resource).

Record CachedResource := mkCached { cr_resource : Resource; cr_position : option WatchReplayPosition }.

Record CachedScope := mkCachedScope {
  sc_position : option WatchReplayPosition; sc_members : gmap CacheKey CachedResource
}.

Record WatchCacheState := mkCache {
  wc_resources : gmap CacheKey CachedResource;
  wc_tombstones : gmap CacheKey WatchReplayPosition;
  wc_scopes : gmap CacheReadinessRequest CachedScope;
  wc_pinned : gset CacheKey;
  wc_ready : gset CacheReadinessRequest
}.

Definition new_cache : WatchCacheState := mkCache ∅ ∅ ∅ ∅ ∅.

Definition cache_get (state : WatchCacheState) (key : CacheKey) : option Resource :=
  cr_resource <$> wc_resources state !! key.

Definition cache_insert (state : WatchCacheState) (resource : Resource) : WatchCacheState :=
  let key := cache_key resource in
  mkCache (<[key := mkCached resource None]> (wc_resources state)) (wc_tombstones state)
    (wc_scopes state) ({[key]} ∪ wc_pinned state) (wc_ready state).

Definition mark_ready (state : WatchCacheState) (scope : CacheReadinessRequest)
  : result WatchCacheError WatchCacheState :=
  if opt_is_none (wc_scopes state !! scope) then Err NoBaseline
  else Ok (mkCache (wc_resources state) (wc_tombstones state) (wc_scopes state) (wc_pinned state)
             ({[scope]} ∪ wc_ready state)).

Definition clear_ready (state : WatchCacheState) (scope : CacheReadinessRequest) : WatchCacheState :=
  mkCache (wc_resources state) (wc_tombstones state) (wc_scopes state) (wc_pinned state)
    (wc_ready state ∖ {[scope]}).

Definition is_ready (state : WatchCacheState) (scope : CacheReadinessRequest) : bool :=
  bool_decide (scope ∈ wc_ready state).

(** Some scope has the key as a member. *)
Definition member_of_some (scopes : gmap CacheReadinessRequest CachedScope) (key : CacheKey) : bool :=
  existsb (fun kv => opt_is_some (sc_members kv.2 !! key)) (map_to_list scopes).

(** [pinned_resources.contains(key) || scopes.values().any(...)]. *)
Definition retained (state : WatchCacheState) (key : CacheKey) : bool :=
  bool_decide (key ∈ wc_pinned state) || member_of_some (wc_scopes state) key.

(** [left.namespace.cmp(&right.namespace).then_with(|| left.name.cmp(&right.name))]. *)
Definition opt_str_compare (a b : option string) : comparison :=
  match a, b with
  | None, None => Eq
  | None, Some _ => Lt
  | Some _, None => Gt
  | Some x, Some y => String.compare x y
  end.

Definition list_le (left right : Resource) : Prop :=
  match opt_str_compare (r_namespace left) (r_namespace right) with
  | Lt => True
  | Gt => False
  | Eq => str_le (r_name left) (r_name right)
  end.

#[export] Instance list_le_dec left right : Decision (list_le left right).
Proof. unfold list_le. destruct (opt_str_compare _ _); apply _. Defined.

Record ResourceListResult := mkListResult {
  lr_items : list Resource; lr_resource_version : Z; lr_position : option WatchReplayPosition
}.

(** [ResourceListResult::try_new] without a continuation. *)
Definition list_result (items : list Resource) (resource_version : Z) (position : option WatchReplayPosition)
  : result WatchCacheError ResourceListResult :=
  if (resource_version <? 0)%Z then Err NegativeListVersion
  else if is_some_and position (fun p => is_err (validate p)
            || negb (pos_resource_version p =? resource_version)%Z)
  then Err ListPositionMismatch
  else Ok (mkListResult items resource_version position).

Section Cache.
Context (float_to_string : Z -> string).

Definition filter_matches (self : ResourceFilter) (resource : Resource) : bool :=
  matches_identity self resource
  && is_none_or (rf_label_selector self) (fun s => matches_resource s (r_data resource))
  && is_none_or (rf_field_selector self) (fun s =>
       FieldSelector_matches_with_identity float_to_string s (r_api_version resource) (r_kind resource)
         (r_data resource)).

Definition cache_list (state : WatchCacheState) (request : CacheReadinessRequest)
  : result WatchCacheError ResourceListResult :=
  let? filter := filter_for request in
  let? scope := cache_scope request in
  if negb (bool_decide (scope ∈ wc_ready state)) then Err (ScopeNotReady scope)
  else
    let scope_state := wc_scopes state !! scope in
    let items := match scope_state with
                 | Some s => List.filter (filter_matches filter)
                               (cr_resource <$> (map_to_list (sc_members s)).*2)
                 | None => []
                 end in
    let position := s ← scope_state; sc_position s in
    list_result (merge_sort list_le items)
      (match position with Some p => pos_resource_version p | None => 0%Z end) position.

(** One resource of a replacement: the members, the tombstones and the resources. *)
Definition replace_one (position : WatchReplayPosition)
    (acc : gmap CacheKey CachedResource * gmap CacheKey WatchReplayPosition * gmap CacheKey CachedResource)
    (resource : Resource) :=
  let '(members, tombstones, resources) := acc in
  let key := cache_key resource in
  let cached := mkCached resource (Some position) in
  let keep_newer_tombstone := is_some_and (tombstones !! key) (fun tombstone =>
    position_eqb tombstone position || negb (permits_successor tombstone position)) in
  let keep_newer_resource := is_some_and (resources !! key) (fun current =>
    is_some_and (cr_position current) (fun p => negb (permits_successor p position))) in
  if keep_newer_tombstone || keep_newer_resource
  then (<[key := cached]> members, tombstones, resources)
  else (<[key := cached]> members, delete key tombstones, <[key := cached]> resources).

(** The removal of the prior members that nothing retains. *)
Definition drop_unretained (state : WatchCacheState) (prior : list CacheKey)
  : gmap CacheKey CachedResource :=
  fold_left (fun resources key => if retained state key then resources else delete key resources)
    prior (wc_resources state).

Definition replace_scope (state : WatchCacheState) (request : CacheReadinessRequest)
    (resources : list Resource) (position : WatchReplayPosition) : result WatchCacheError WatchCacheState :=
  let? filter := filter_for request in
  let? scope := cache_scope request in
  match validate position with
  | Err e => Err (InvalidPosition e)
  | Ok _ =>
      if existsb (fun r => negb (filter_matches filter r)) resources then Err OutsideScope
      else if existsb (fun r => (pos_resource_version position <? r_resource_version r)%Z) resources
      then Err NewerThanSnapshot
      else if negb (bool_decide (NoDup (cache_key <$> resources))) then Err DuplicateIdentity
      else if is_some_and (s ← wc_scopes state !! scope; sc_position s)
                (fun current => negb (permits_successor current position))
      then Ok state
      else
        let prior := match wc_scopes state !! scope with
                     | Some s => (map_to_list (sc_members s)).*1
                     | None => []
                     end in
        let '(members, tombstones, resources') :=
          fold_left (replace_one position) resources (∅, wc_tombstones state, wc_resources state) in
        let state' := mkCache resources' tombstones
          (<[scope := mkCachedScope (Some position) members]> (wc_scopes state))
          (wc_pinned state) (wc_ready state) in
        Ok (mkCache (drop_unretained state' prior) (wc_tombstones state') (wc_scopes state')
              (wc_pinned state') (wc_ready state'))
  end.

Record ResourceEvent := mkEvent {
  ev_type : EventType; ev_resource : Resource; ev_resume_position : option WatchReplayPosition
}.

(** A position strictly after another, in the cursor order. *)
Definition strict_successor (current delivered : WatchReplayPosition) : bool :=
  negb (position_eqb delivered current) && permits_successor current delivered.

Definition scope_successor (scope_state : CachedScope) (event : ResourceEvent) : bool :=
  match sc_position scope_state, ev_resume_position event with
  | Some current, Some delivered => strict_successor current delivered
  | None, Some _ => true
  | _, None =>
      is_none_or (sc_members scope_state !! cache_key (ev_resource event)) (fun current =>
        (r_resource_version (cr_resource current) <=? r_resource_version (ev_resource event))%Z)
  end.

(** One iteration of the loop over the scopes: the new state of the scope when
    the event applies to it. *)
Definition apply_to_scope (event : ResourceEvent) (scope : CacheReadinessRequest) (scope_state : CachedScope)
  : option CachedScope :=
  let resource := ev_resource event in
  let key := cache_key resource in
  match filter_for scope with
  | Err _ => None
  | Ok filter =>
      if negb (matches_identity filter resource) then None
      else if negb (scope_successor scope_state event) then None
      else
        let members :=
          match ev_type event with
          | Deleted => delete key (sc_members scope_state)
          | _ => if filter_matches filter resource
                 then <[key := mkCached resource (ev_resume_position event)]> (sc_members scope_state)
                 else delete key (sc_members scope_state)
          end in
        Some (mkCachedScope (or_else (ev_resume_position event) (sc_position scope_state)) members)
  end.

Definition apply_to_scopes (event : ResourceEvent) (scopes : gmap CacheReadinessRequest CachedScope)
  : gmap CacheReadinessRequest CachedScope :=
  map_imap (fun scope s => Some (unwrap_or s (apply_to_scope event scope s))) scopes.

Definition applied_to_scope (event : ResourceEvent) (scopes : gmap CacheReadinessRequest CachedScope)
  : bool := existsb (fun kv => opt_is_some (apply_to_scope event kv.1 kv.2)) (map_to_list scopes).

Definition global_successor (state : WatchCacheState) (event : ResourceEvent) : bool :=
  let key := cache_key (ev_resource event) in
  match ev_resume_position event with
  | Some delivered =>
      is_none_or (wc_tombstones state !! key) (fun tombstone => strict_successor tombstone delivered)
      && is_none_or (wc_resources state !! key) (fun current =>
           is_none_or (cr_position current) (fun p => strict_successor p delivered))
  | None =>
      is_none_or (wc_resources state !! key) (fun current =>
        (r_resource_version (cr_resource current) <=? r_resource_version (ev_resource event))%Z)
  end.

(** The last match of [apply_event], when the event succeeds globally. *)
Definition apply_globally (state : WatchCacheState) (event : ResourceEvent) : WatchCacheState :=
  let resource := ev_resource event in
  let key := cache_key resource in
  match ev_type event with
  | Deleted =>
      let state' := mkCache (wc_resources state)
        (match ev_resume_position event with
         | Some position => <[key := position]> (wc_tombstones state)
         | None => wc_tombstones state
         end) (wc_scopes state) (wc_pinned state ∖ {[key]}) (wc_ready state) in
      mkCache (if retained state' key then wc_resources state' else delete key (wc_resources state'))
        (wc_tombstones state') (wc_scopes state') (wc_pinned state') (wc_ready state')
  | _ =>
      mkCache (<[key := mkCached resource (ev_resume_position event)]> (wc_resources state))
        (delete key (wc_tombstones state)) (wc_scopes state) (wc_pinned state) (wc_ready state)
  end.

Definition apply_event (state : WatchCacheState) (event : ResourceEvent)
  : WatchCacheState * option Resource :=
  match ev_type event with
  | Bookmark | ErrorEvent => (state, None)
  | _ =>
      let state' := mkCache (wc_resources state) (wc_tombstones state)
        (apply_to_scopes event (wc_scopes state)) (wc_pinned state) (wc_ready state) in
      let applied := applied_to_scope event (wc_scopes state) in
      let global := global_successor state' event in
      if negb global && negb applied then (state', None)
      else ((if global then apply_globally state' event else state'), Some (ev_resource event))
  end.

(** ** Steps *)

Inductive cache_op :=
| OpInsert (resource : Resource)
| OpReplace (request : CacheReadinessRequest) (resources : list Resource) (position : WatchReplayPosition)
| OpEvent (event : ResourceEvent)
| OpReady (scope : CacheReadinessRequest)
| OpClear (scope : CacheReadinessRequest).

(** An operation that fails leaves the state as it was. *)
Definition run_op (state : WatchCacheState) (op : cache_op) : WatchCacheState :=
  let or_same r := match r with Ok s => s | Err _ => state end in
  match op with
  | OpInsert resource => cache_insert state resource
  | OpReplace request resources position => or_same (replace_scope state request resources position)
  | OpEvent event => (apply_event state event).1
  | OpReady scope => or_same (mark_ready state scope)
  | OpClear scope => clear_ready state scope
  end.

Definition run_ops (state : WatchCacheState) (ops : list cache_op) : WatchCacheState :=
  fold_left run_op ops state.
End Cache.

(** ** The invariant *)

Section Invariant.
Context (float_to_string : Z -> string).
Abbreviation filter_matches := (filter_matches float_to_string).
Abbreviation run_op := (run_op float_to_string).

(** A scope has parsed selectors, a valid position, and members that match its
    filter under their own keys. *)
Definition scope_wf (scope : CacheReadinessRequest) (s : CachedScope) : Prop :=
  cache_scope scope = Ok scope /\ exists f p, filter_for scope = Ok f /\ sc_position s = Some p /\ valid p
    /\ forall k c, sc_members s !! k = Some c ->
         cache_key (cr_resource c) = k /\ filter_matches f (cr_resource c) = true.

Definition cache_wf (state : WatchCacheState) : Prop :=
  (forall scope s, wc_scopes state !! scope = Some s -> scope_wf scope s)
  /\ (forall k c, wc_resources state !! k = Some c -> cache_key (cr_resource c) = k)
  /\ (forall scope, scope ∈ wc_ready state -> is_Some (wc_scopes state !! scope)).

Lemma cache_scope_Ok request scope : cache_scope request = Ok scope -> scope = request.
Proof. unfold cache_scope. repeat case_match; congruence. Qed.

Lemma strict_successor_spec c d :
  strict_successor c d = true <-> d <> c /\ permits_successor c d = true.
Proof.
  unfold strict_successor. rewrite andb_true_iff, negb_true_iff, <- not_true_iff_false, position_eqb_eq. done.
Qed.

(** What a replacement leaves in each map, resource by resource. *)
Lemma replace_fold position l acc :
  let '(members, tombstones, resources) := fold_left (replace_one position) l acc in
  members = list_to_map (reverse ((fun r => (cache_key r, mkCached r (Some position))) <$> l)) ∪ acc.1.1
  /\ ((forall k c, acc.2 !! k = Some c -> cache_key (cr_resource c) = k) ->
      forall k c, resources !! k = Some c -> cache_key (cr_resource c) = k).
Proof.
  revert acc. induction l as [|r l IH]; intros [[m t] rs]; cbn [fold_left].
  { split; [|done]. cbn. by rewrite (left_id_L ∅ (∪)). }
  specialize (IH (replace_one position (m, t, rs) r)).
  destruct (fold_left _ l _) as [[m' t'] rs'] eqn:E. destruct IH as [Hm Hr]. split.
  - rewrite Hm. csimpl. rewrite reverse_cons, list_to_map_app.
    rewrite <- (assoc_L (∪)). f_equal. cbn [list_to_map foldr].
    rewrite insert_empty, <- insert_union_singleton_l.
    unfold replace_one. by destruct (_ || _).
  - intros Hrs k c. apply Hr. unfold replace_one. clear -Hrs. destruct (_ || _); simpl; [done|].
    intros k' c'. rewrite lookup_insert_Some. intros [[<- <-]|[_ ?]]; [done|by apply Hrs].
Qed.

Lemma drop_unretained_lookup state prior k c :
  drop_unretained state prior !! k = Some c -> wc_resources state !! k = Some c.
Proof.
  unfold drop_unretained. generalize (wc_resources state). induction prior as [|k' prior IH]; [done|].
  cbn [fold_left]. intros rs H%IH. destruct (retained state k'); [done|].
  by apply lookup_delete_Some in H as [_ ?].
Qed.

Lemma new_member_elem position l k c :
  list_to_map (M := gmap CacheKey CachedResource)
    (reverse ((fun r => (cache_key r, mkCached r (Some position))) <$> l)) !! k = Some c ->
  exists r, r ∈ l /\ k = cache_key r /\ c = mkCached r (Some position).
Proof.
  intros H%elem_of_list_to_map_2. rewrite elem_of_reverse in H.
  apply list_elem_of_fmap in H as (r & [= -> ->] & Hr). eauto.
Qed.
(** The effects of a replacement that is not refused as stale. *)
Lemma replace_scope_Ok state request resources position state' :
  replace_scope float_to_string state request resources position = Ok state' ->
  state' = state \/
  exists f, filter_for request = Ok f /\ cache_scope request = Ok request /\ valid position
    /\ forallb (filter_matches f) resources = true /\ NoDup (cache_key <$> resources)
    /\ wc_ready state' = wc_ready state
    /\ wc_scopes state' = <[request := mkCachedScope (Some position) (list_to_map (reverse
         ((fun r => (cache_key r, mkCached r (Some position))) <$> resources)))]> (wc_scopes state)
    /\ ((forall k c, wc_resources state !! k = Some c -> cache_key (cr_resource c) = k) ->
        forall k c, wc_resources state' !! k = Some c -> cache_key (cr_resource c) = k).
Proof.
  unfold replace_scope. destruct (filter_for request) as [f|] eqn:Ef; [|done]. cbn [result_bind].
  destruct (cache_scope request) as [scope|] eqn:Es; [|done]. cbn [result_bind].
  pose proof (cache_scope_Ok _ _ Es) as ->.
  destruct (validate_cases position) as [[-> Hv]|[Hv _]].
  2: { by destruct (validate position). }
  destruct (existsb _ resources) eqn:Em; [done|].
  destruct (existsb (fun r => (_ <? _)%Z) resources); [done|].
  destruct (bool_decide (NoDup _)) eqn:En; cbn [negb]; [|done]. apply bool_decide_eq_true in En.
  destruct (is_some_and _ _); [intros [= ->]; by left|].
  pose proof (replace_fold position resources (∅, wc_tombstones state, wc_resources state)) as Hfold.
  destruct (fold_left (replace_one position) resources _) as [[m t] rs]. destruct Hfold as [-> Hrs].
  intros [= <-]. right. exists f. cbn [wc_ready wc_scopes wc_resources fst]. split_and!; try done.
  - apply forallb_forall. intros r Hr. apply not_false_iff_true. intros Hf.
    apply not_true_iff_false in Em. apply Em, existsb_exists. exists r. by rewrite Hf.
  - by rewrite (right_id_L ∅ (∪)).
  - intros Hk k c H%drop_unretained_lookup. by apply (Hrs Hk).
Qed.

Lemma apply_to_scope_wf event scope s s' :
  scope_wf scope s -> (ev_type event = Added \/ ev_type event = Modified \/ ev_type event = Deleted) ->
  apply_to_scope float_to_string event scope s = Some s' -> scope_wf scope s'.
Proof.
  intros (Hscope & f & p & Hf & Hp & Hv & Hm) Htype. unfold apply_to_scope. rewrite Hf.
  destruct (matches_identity f (ev_resource event)); [|done].
  destruct (scope_successor s event) eqn:Esucc; [|done]. intros [= <-].
  assert (Hpos : exists p', or_else (ev_resume_position event) (sc_position s) = Some p' /\ valid p').
  { unfold scope_successor in Esucc. rewrite Hp in Esucc |- *.
    destruct (ev_resume_position event) as [d|]; cbn; [|by exists p].
    apply strict_successor_spec in Esucc as [_ Hd%permits_successor_valid]. exists d. tauto. }
  destruct Hpos as (p' & Hp' & Hv'). split; [done|]. exists f, p'. split_and!; try done.
  intros k c. cbn [sc_members].
  assert (Hdel : delete (cache_key (ev_resource event)) (sc_members s) !! k = Some c ->
    cache_key (cr_resource c) = k /\ filter_matches f (cr_resource c) = true)
    by (intros [_ ?]%lookup_delete_Some; auto).
  destruct (filter_matches f (ev_resource event)) eqn:Ef; destruct (ev_type event); try done;
    rewrite lookup_insert_Some; intros [[<- <-]|[_ ?]]; auto.
Qed.
Lemma apply_to_scopes_lookup event scopes scope :
  apply_to_scopes float_to_string event scopes !! scope
  = (fun s => unwrap_or s (apply_to_scope float_to_string event scope s)) <$> scopes !! scope.
Proof. unfold apply_to_scopes. rewrite map_lookup_imap. by destruct (scopes !! scope). Qed.

(** The parts of the state an event leaves alone, and its effect on the scopes. *)
Lemma apply_event_parts state event :
  let state' := (apply_event float_to_string state event).1 in
  wc_ready state' = wc_ready state
  /\ wc_scopes state' = (match ev_type event with
                         | Bookmark | ErrorEvent => wc_scopes state
                         | _ => apply_to_scopes float_to_string event (wc_scopes state)
                         end)
  /\ ((forall k c, wc_resources state !! k = Some c -> cache_key (cr_resource c) = k) ->
      forall k c, wc_resources state' !! k = Some c -> cache_key (cr_resource c) = k).
Proof.
  assert (Hglobal : forall st, wc_ready (apply_globally st event) = wc_ready st
    /\ wc_scopes (apply_globally st event) = wc_scopes st
    /\ ((forall k c, wc_resources st !! k = Some c -> cache_key (cr_resource c) = k) ->
        forall k c, wc_resources (apply_globally st event) !! k = Some c -> cache_key (cr_resource c) = k)).
  { intros st. unfold apply_globally. destruct (ev_type event); split_and!; try done; intros Hk k c;
      cbn [wc_resources]; rewrite ?lookup_insert_Some; try (intros [[<- <-]|[_ ?]]; auto; done).
    destruct (retained _ _); [auto|]. intros [_ ?]%lookup_delete_Some; auto. }
  unfold apply_event. destruct (ev_type event) eqn:Et; cbn [fst]; try done;
    destruct (negb _ && negb _); cbn [fst]; try done; destruct (global_successor _ _); try done;
    match goal with |- context [apply_globally ?st event] => destruct (Hglobal st) as (H1 & H2 & H3) end;
    rewrite H1, H2; done.
Qed.

Lemma run_op_wf state op : cache_wf state -> cache_wf (run_op state op).
Proof.
  intros (Hs & Hk & Hr). destruct op as [r|request rs p|event|scope|scope]; cbn [WatchCache.run_op].
  - split_and!; [done| |done]. intros k c. cbn [wc_resources cache_insert].
    rewrite lookup_insert_Some. intros [[<- <-]|[_ ?]]; auto.
  - destruct (replace_scope _ state request rs p) as [state'|] eqn:E; [|done].
    apply replace_scope_Ok in E as [->|(f & Hf & Hc & Hv & Hm & Hn & Er & Es & Ek)]; [done|].
    unfold cache_wf. rewrite Er, Es. split_and!; [|auto|].
    + intros scope s. rewrite lookup_insert_Some. intros [[<- <-]|[_ ?]]; [|auto].
      split; [done|]. exists f, p. split_and!; try done. intros k c (r & Hin & -> & ->)%new_member_elem.
      rewrite forallb_forall in Hm. by split; [|apply Hm, list_elem_of_In].
    + intros scope [s Hin]%Hr. rewrite lookup_insert_is_Some. destruct (decide (request = scope)); eauto.
  - destruct (apply_event_parts state event) as (Er & Es & Ek). unfold cache_wf. rewrite Er, Es.
    assert (Hev : forall s, ev_type event = Added \/ ev_type event = Modified \/ ev_type event = Deleted ->
      forall scope, apply_to_scopes float_to_string event (wc_scopes state) !! scope = Some s -> scope_wf scope s).
    { intros s Htype scope. rewrite apply_to_scopes_lookup. intros (s0 & H0 & ->)%fmap_Some.
      destruct (apply_to_scope float_to_string event scope s0) eqn:E; cbn; [|auto].
      by eapply apply_to_scope_wf; [apply Hs|..]. }
    assert (Hdom : forall scope, is_Some (wc_scopes state !! scope) ->
      is_Some (apply_to_scopes float_to_string event (wc_scopes state) !! scope))
      by (intros scope; by rewrite apply_to_scopes_lookup, fmap_is_Some).
    split_and!; [|auto|]; destruct (ev_type event); eauto.
  - unfold mark_ready. destruct (wc_scopes state !! scope) eqn:E; cbn; [|done].
    split_and!; try done. intros scope'. cbn. rewrite elem_of_union, elem_of_singleton.
    intros [->|?]; [by rewrite E|auto].
  - split_and!; try done. intros scope'. cbn. rewrite elem_of_difference. intros [? _]. auto.
Qed.

Lemma run_ops_wf ops : cache_wf (run_ops float_to_string new_cache ops).
Proof.
  unfold run_ops. assert (Hnew : cache_wf new_cache).
  { split_and!; cbn; [intros ?? H|intros ?? H|set_solver]; by rewrite lookup_empty in H. }
  revert Hnew. generalize new_cache. induction ops as [|op ops IH]; intros state Hwf; [done|].
  cbn [fold_left]. by apply IH, run_op_wf.
Qed.

(** The resources of a scope's members. *)
Definition member_list (s : CachedScope) : list Resource := cr_resource <$> (map_to_list (sc_members s)).*2.

Lemma members_all_match scope s f :
  scope_wf scope s -> filter_for scope = Ok f ->
  List.filter (filter_matches f) (member_list s) = member_list s.
Proof.
  intros (_ & f' & _ & Hf' & _ & _ & Hm) Hf. assert (f' = f) as -> by congruence.
  assert (Hall : forall r, r ∈ member_list s -> filter_matches f r = true).
  { intros r (c & -> & Hc)%list_elem_of_fmap. apply list_elem_of_fmap in Hc as ([k c'] & -> & Hc).
    apply elem_of_map_to_list in Hc. by apply (Hm k). }
  induction (member_list s) as [|r l IH]; [done|]. cbn [List.filter].
  rewrite Hall by (by left). f_equal. apply IH. intros r' Hr. apply Hall. by right.
Qed.

(** A ready scope of a well-formed cache lists its members. *)
Lemma list_ready state scope :
  cache_wf state -> scope ∈ wc_ready state ->
  exists s p, wc_scopes state !! scope = Some s /\ sc_position s = Some p
    /\ cache_list float_to_string state scope
       = Ok (mkListResult (merge_sort list_le (member_list s)) (pos_resource_version p) (Some p)).
Proof.
  intros (Hs & _ & Hr) Hin. destruct (Hr _ Hin) as [s Hscope]. pose proof (Hs _ _ Hscope) as Hwf.
  pose proof Hwf as (Hc & f & p & Hf & Hp & Hv & _). exists s, p. split_and!; try done.
  unfold cache_list. rewrite Hf, Hc. cbn [result_bind]. rewrite bool_decide_true by done. cbn [negb].
  rewrite Hscope. cbn [mbind option_bind]. rewrite Hp. fold (member_list s).
  rewrite (members_all_match _ _ _ Hwf Hf). unfold list_result.
  destruct (Z.ltb_spec (pos_resource_version p) 0); [unfold valid in Hv; lia|].
  cbn [is_some_and]. destruct (validate_cases p) as [[-> _]|[_ ?]]; [|done]. by rewrite Z.eqb_refl.
Qed.

(** The cache is well formed after any operations, whatever their
    arguments: every scope has parsed selectors and a valid position, every
    member of a scope matches the scope's filter and is stored under its own
    identity, and only scopes with a baseline are ready. *)
Theorem cache_always_wf ops : cache_wf (run_ops float_to_string new_cache ops).
Proof. apply run_ops_wf. Qed.
End Invariant.

(** ** LIST and WATCH *)

Section Refinement.
Context (float_to_string : Z -> string).
Abbreviation filter_matches := (filter_matches float_to_string).
Abbreviation Store := (gmap CacheKey Resource).

(** The store the events report. *)
Definition store_step (store : Store) (event : ResourceEvent) : Store :=
  match ev_type event with
  | Added | Modified => <[cache_key (ev_resource event) := ev_resource event]> store
  | Deleted => delete (cache_key (ev_resource event)) store
  | Bookmark | ErrorEvent => store
  end.

Definition store_after (store : Store) (events : list ResourceEvent) : Store :=
  fold_left store_step events store.

(** The part of a store a filter selects. *)
Definition view (f : ResourceFilter) (store : Store) : Store :=
  filter (fun kr => filter_matches f kr.2 = true) store.

(** Events with positions, each strictly after the one before. *)
Fixpoint ordered_from (p : WatchReplayPosition) (events : list ResourceEvent) : Prop :=
  match events with
  | [] => True
  | e :: rest => exists q, ev_resume_position e = Some q /\ strict_successor p q = true /\ ordered_from q rest
  end.

(** The operations on the cache that deliver the log to a scope: each event in
    order, events delivered again, and operations that concern other scopes. *)
Inductive delivers (scope : CacheReadinessRequest)
  : list ResourceEvent -> list cache_op -> list ResourceEvent -> Prop :=
| delivers_nil seen : delivers scope seen [] []
| delivers_next seen e ops rest :
    delivers scope (seen ++ [e]) ops rest -> delivers scope seen (OpEvent e :: ops) (e :: rest)
| delivers_again seen e ops rest :
    e ∈ seen -> delivers scope seen ops rest -> delivers scope seen (OpEvent e :: ops) rest
| delivers_other seen op ops rest :
    match op with OpEvent _ => False | OpReplace request _ _ => request <> scope | _ => True end ->
    delivers scope seen ops rest -> delivers scope seen (op :: ops) rest.
Definition store_keyed (store : Store) : Prop := forall k r, store !! k = Some r -> cache_key r = k.

Lemma store_step_keyed store e : store_keyed store -> store_keyed (store_step store e).
Proof.
  intros Hk k r. unfold store_step. destruct (ev_type e);
    rewrite ?lookup_insert_Some, ?lookup_delete_Some; try (intros [[<- <-]|[_ ?]]; auto; done);
    try (intros [_ ?]; auto); auto.
Qed.

(** Strictly after is an order on positions. *)
Lemma strict_after_le q p pe :
  permits_successor q p = true -> strict_successor p pe = true -> strict_successor q pe = true.
Proof.
  rewrite !strict_successor_spec. intros Hq [Hne Hp]. split; [|by eapply permits_successor_trans].
  intros ->. by apply Hne, permits_successor_antisym.
Qed.

Lemma not_after_later q pe pe' :
  strict_successor q pe = true -> strict_successor q pe' = false -> strict_successor pe pe' = false.
Proof.
  rewrite <- !not_true_iff_false. intros Hq Hn Hp. apply Hn. eapply strict_after_le; [|done].
  by apply strict_successor_spec in Hq as [_ ?].
Qed.

(** The identity part of a filter is a matter of the key. *)
Lemma matches_identity_key f r r' : cache_key r = cache_key r' -> matches_identity f r = matches_identity f r'.
Proof. unfold cache_key, matches_identity. intros [= -> -> -> _]. done. Qed.

Lemma filter_matches_identity f r : filter_matches f r = true -> matches_identity f r = true.
Proof. unfold WatchCache.filter_matches. rewrite !andb_true_iff. tauto. Qed.

(** A stored object of another identity is in no view of the filter. *)
Lemma view_other_identity f store r :
  store_keyed store -> matches_identity f r = false -> view f store !! cache_key r = None.
Proof.
  intros Hk Hid. apply map_lookup_filter_None. right. intros r' Hr' Hm.
  apply filter_matches_identity in Hm. cbn in Hm. rewrite (matches_identity_key f r' r) in Hm by eauto.
  congruence.
Qed.

(** The effect of an event on a view. *)
Lemma view_step f store e :
  store_keyed store ->
  view f (store_step store e) =
  match ev_type e with
  | Added | Modified =>
      if filter_matches f (ev_resource e) then <[cache_key (ev_resource e) := ev_resource e]> (view f store)
      else delete (cache_key (ev_resource e)) (view f store)
  | Deleted => delete (cache_key (ev_resource e)) (view f store)
  | Bookmark | ErrorEvent => view f store
  end.
Proof.
  intros Hk. unfold view, store_step. destruct (ev_type e); try done; try apply map_filter_delete.
  all: destruct (filter_matches f (ev_resource e)) eqn:Ef; [by apply map_filter_insert_True|].
  all: rewrite map_filter_insert_False by (cbn; congruence); by rewrite map_filter_delete.
Qed.

(** The scope holds the filter's view of the store, at a position no later than
    [p], and has seen the events [seen]. *)
Definition tracks (scope : CacheReadinessRequest) (f : ResourceFilter) (p : WatchReplayPosition)
    (store : Store) (seen : list ResourceEvent) (state : WatchCacheState) : Prop :=
  exists s q, wc_scopes state !! scope = Some s /\ sc_position s = Some q /\ permits_successor q p = true
    /\ cr_resource <$> sc_members s = view f store
    /\ forall e, e ∈ seen -> matches_identity f (ev_resource e) = true ->
         match ev_type e with Bookmark | ErrorEvent => True
         | _ => exists pe, ev_resume_position e = Some pe /\ strict_successor q pe = false end.
Abbreviation run_op := (run_op float_to_string).

(** An event whose effect on the scope is none leaves the scope's entry. *)
Lemma event_scope_lookup state e scope s :
  wc_scopes state !! scope = Some s ->
  wc_scopes (run_op state (OpEvent e)) !! scope
  = Some (match ev_type e with Bookmark | ErrorEvent => s
          | _ => unwrap_or s (apply_to_scope float_to_string e scope s) end).
Proof.
  intros Hs. cbn [WatchCache.run_op]. destruct (apply_event_parts float_to_string state e) as (_ & -> & _).
  destruct (ev_type e); rewrite ?apply_to_scopes_lookup, Hs; done.
Qed.

Lemma tracks_next scope f p q store seen state e :
  filter_for scope = Ok f -> store_keyed store -> tracks scope f p store seen state ->
  ev_resume_position e = Some q -> strict_successor p q = true ->
  tracks scope f q (store_step store e) (seen ++ [e]) (run_op state (OpEvent e)).
Proof.
  intros Hf Hk (s & c & Hs & Hc & Hle & Hview & Hseen) Hpos Hafter.
  pose proof (strict_after_le _ _ _ Hle Hafter) as Hcq. pose proof Hcq as [_ Hcp]%strict_successor_spec.
  unfold tracks. rewrite (event_scope_lookup _ _ _ _ Hs). rewrite (view_step _ _ _ Hk).
  assert (Hold : forall e', e' ∈ (seen ++ [e])%list -> e' ∈ seen \/ e' = e).
  { intros e'. rewrite elem_of_app, list_elem_of_singleton. done. }
  destruct (matches_identity f (ev_resource e)) eqn:Hid.
  - assert (Happly : apply_to_scope float_to_string e scope s = Some (mkCachedScope (Some q)
      (match ev_type e with
       | Deleted => delete (cache_key (ev_resource e)) (sc_members s)
       | _ => if filter_matches f (ev_resource e)
              then <[cache_key (ev_resource e) := mkCached (ev_resource e) (Some q)]> (sc_members s)
              else delete (cache_key (ev_resource e)) (sc_members s)
       end))).
    { unfold apply_to_scope, scope_successor. rewrite Hf, Hid, Hc, Hpos, Hcq. done. }
    rewrite Happly. destruct (ev_type e) eqn:Et.
    4,5: exists s, c; split_and!; try done; intros e' [?| ->]%Hold Hid'; [by apply Hseen|by rewrite Et].
    all: eexists; exists q; split_and!; [done|done| | |].
    all: try (apply permits_successor_refl; by apply permits_successor_valid in Hcp as [_ ?]).
    all: try (cbn [unwrap_or sc_members]; try destruct (filter_matches f (ev_resource e));
              by rewrite ?fmap_insert, ?fmap_delete, Hview).
    all: intros e' [Hin| ->]%Hold Hid'.
    all: try (rewrite Et; exists q; split; [done|]; apply not_true_iff_false; rewrite strict_successor_spec; tauto).
    all: specialize (Hseen _ Hin Hid'); destruct (ev_type e'); try done; destruct Hseen as (pe & ? & ?);
      (exists pe; split; [done|by eapply not_after_later]).
  - assert (Happly : apply_to_scope float_to_string e scope s = None).
    { unfold apply_to_scope. by rewrite Hf, Hid. }
    rewrite Happly. assert (Hnone : view f store !! cache_key (ev_resource e) = None)
      by (by apply view_other_identity).
    assert (Hno : filter_matches f (ev_resource e) = false).
    { apply not_true_iff_false. intros Hm%filter_matches_identity. congruence. }
    exists s, c. rewrite Hno, delete_id by done.
    split_and!; [by destruct (ev_type e)|done|done|by destruct (ev_type e)|].
    intros e' [?| ->]%Hold Hid'; [by apply Hseen|congruence].
Qed.

Lemma tracks_again scope f p store seen state e :
  filter_for scope = Ok f -> tracks scope f p store seen state -> e ∈ seen ->
  tracks scope f p store seen (run_op state (OpEvent e)).
Proof.
  intros Hf (s & c & Hs & Hc & Hle & Hview & Hseen) Hin. exists s, c. split_and!; try done.
  rewrite (event_scope_lookup _ _ _ _ Hs). f_equal.
  assert (Hnone : match ev_type e with Bookmark | ErrorEvent => True
    | _ => apply_to_scope float_to_string e scope s = None end).
  { specialize (Hseen _ Hin). unfold apply_to_scope, scope_successor. rewrite Hf, Hc.
    destruct (matches_identity f (ev_resource e)); [|by destruct (ev_type e)].
    specialize (Hseen eq_refl). destruct (ev_type e); try done;
      destruct Hseen as (pe & -> & ->); done. }
  destruct (ev_type e); try done; by rewrite Hnone.
Qed.

Lemma tracks_other scope f p store seen state op :
  match op with OpEvent _ => False | OpReplace request _ _ => request <> scope | _ => True end ->
  tracks scope f p store seen state -> tracks scope f p store seen (run_op state op).
Proof.
  intros Hop (s & c & Hs & Hrest). exists s, c. split; [|done].
  destruct op as [r|request rs q|e|sc|sc]; cbn [WatchCache.run_op]; try done.
  - destruct (replace_scope _ _ _ _ _) eqn:E; [|done].
    apply replace_scope_Ok in E as [->|(? & _ & _ & _ & _ & _ & _ & -> & _)]; [done|].
    by rewrite lookup_insert_ne.
  - unfold mark_ready. by destruct (opt_is_none _).
Qed.

Lemma tracks_run scope f p store seen state ops events :
  filter_for scope = Ok f -> store_keyed store -> delivers scope seen ops events ->
  ordered_from p events -> tracks scope f p store seen state ->
  exists p' seen', tracks scope f p' (store_after store events) seen' (run_ops float_to_string state ops).
Proof.
  intros Hf Hk Hdel. revert p store state Hk. induction Hdel as
    [seen|seen e ops rest _ IH|seen e ops rest Hin _ IH|seen op ops rest Hop _ IH];
    intros p store state Hk Hord Ht; [by exists p, seen|..].
  - destruct Hord as (q & Hq & Hs & Hrest). apply (IH q (store_step store e)); [by apply store_step_keyed|done|].
    by eapply tracks_next.
  - apply (IH p store); [done..|]. by apply tracks_again.
  - apply (IH p store); [done..|]. by apply tracks_other.
Qed.
(** A snapshot: the resources a LIST of the filter returns from a store. *)
Definition snapshot (f : ResourceFilter) (store : Store) (resources : list Resource) : Prop :=
  resources ≡ₚ (map_to_list (view f store)).*2.

Lemma snapshot_pairs f store resources :
  store_keyed store -> snapshot f store resources ->
  (fun r => (cache_key r, r)) <$> resources ≡ₚ map_to_list (view f store).
Proof.
  intros Hk Hsnap. rewrite Hsnap, <- list_fmap_compose.
  assert (Hkv : forall k r, (k, r) ∈ map_to_list (view f store) -> cache_key r = k).
  { intros k r Hin%elem_of_map_to_list. apply map_lookup_filter_Some in Hin as [Hin _]. by apply Hk. }
  induction (map_to_list (view f store)) as [|[k r] l IH]; csimpl; [done|].
  rewrite (Hkv k r) by (by left). f_equiv. apply IH. intros k' r' Hin. apply Hkv. by right.
Qed.

Lemma snapshot_nodup f store resources :
  store_keyed store -> snapshot f store resources -> NoDup (cache_key <$> resources).
Proof.
  intros Hk Hsnap. pose proof (snapshot_pairs _ _ _ Hk Hsnap) as Hp.
  apply (fmap_Permutation fst) in Hp. rewrite <- list_fmap_compose in Hp.
  change (fst ∘ (fun r => (cache_key r, r))) with cache_key in Hp.
  rewrite Hp. apply NoDup_fst_map_to_list.
Qed.

Lemma snapshot_members f store resources p :
  store_keyed store -> snapshot f store resources ->
  cr_resource <$> list_to_map (M := gmap CacheKey CachedResource)
    (reverse ((fun r => (cache_key r, mkCached r (Some p))) <$> resources)) = view f store.
Proof.
  intros Hk Hsnap. rewrite <- list_to_map_fmap.
  rewrite <- (list_to_map_to_list (view f store)). apply list_to_map_proper.
  - rewrite <- list_fmap_compose. change (fst ∘ prod_map id cr_resource) with (fst (A := CacheKey) (B := CachedResource)).
    rewrite reverse_Permutation, <- list_fmap_compose. by eapply snapshot_nodup.
  - rewrite reverse_Permutation, <- list_fmap_compose. by apply snapshot_pairs.
Qed.

(** The snapshot of a store is accepted as the baseline of the scope. *)
Lemma replace_accepts state scope f store resources p :
  filter_for scope = Ok f -> cache_scope scope = Ok scope -> store_keyed store ->
  snapshot f store resources -> valid p ->
  Forall (fun r => (r_resource_version r <= pos_resource_version p)%Z) resources ->
  match (s ← wc_scopes state !! scope; sc_position s) with
  | Some c => permits_successor c p = true
  | None => True
  end ->
  tracks scope f p store [] (run_op state (OpReplace scope resources p)).
Proof.
  intros Hf Hc Hk Hsnap Hv Hrv Hpos. cbn [WatchCache.run_op].
  assert (Hmatch : existsb (fun r => negb (filter_matches f r)) resources = false).
  { apply not_true_iff_false. intros (r & Hin%list_elem_of_In & Hr)%existsb_exists.
    rewrite Hsnap in Hin. apply list_elem_of_fmap in Hin as ([k r'] & -> & Hin).
    apply elem_of_map_to_list, map_lookup_filter_Some in Hin as [_ Hin]. cbn in *. by rewrite Hin in Hr. }
  assert (Hold : existsb (fun r => (pos_resource_version p <? r_resource_version r)%Z) resources = false).
  { apply not_true_iff_false. intros (r & Hin%list_elem_of_In & Hr%Z.ltb_lt)%existsb_exists.
    rewrite Forall_forall in Hrv. specialize (Hrv _ Hin). lia. }
  assert (Hstale : is_some_and (s ← wc_scopes state !! scope; sc_position s)
    (fun current => negb (permits_successor current p)) = false).
  { destruct (s ← _; _); cbn; [by rewrite Hpos|done]. }
  unfold replace_scope. rewrite Hf, Hc. cbn [result_bind].
  destruct (validate_cases p) as [[-> _]|[_ ?]]; [|done]. rewrite Hmatch, Hold.
  rewrite bool_decide_true by (by eapply snapshot_nodup). cbn [negb]. rewrite Hstale.
  pose proof (replace_fold p resources (∅, wc_tombstones state, wc_resources state)) as Hfold.
  destruct (fold_left (replace_one p) resources _) as [[m t] rs]. destruct Hfold as [-> _].
  eexists; exists p. cbn [wc_scopes fst]. rewrite lookup_insert_eq, (right_id_L ∅ (∪)).
  split_and!; [done|done|by apply permits_successor_refl|by apply snapshot_members|].
  intros e He. inversion He.
Qed.
Lemma opt_str_compare_trans a b c x :
  opt_str_compare a b = x -> opt_str_compare b c = x -> opt_str_compare a c = x.
Proof. destruct a, b, c; simpl; try congruence. apply str_compare_trans. Qed.

Lemma opt_str_compare_eq a b : opt_str_compare a b = Eq <-> a = b.
Proof. destruct a, b; simpl; rewrite ?str_compare_eq; split; congruence. Qed.

#[local] Instance list_le_trans : Transitive list_le.
Proof.
  intros a b c. unfold list_le.
  destruct (opt_str_compare (r_namespace a) (r_namespace b)) eqn:E1; try done;
    destruct (opt_str_compare (r_namespace b) (r_namespace c)) eqn:E2; try done.
  - rewrite (opt_str_compare_trans _ _ _ _ E1 E2). apply str_leb_trans.
  - apply opt_str_compare_eq in E1 as ->. by rewrite E2.
  - apply opt_str_compare_eq in E2 as <-. by rewrite E1.
  - by rewrite (opt_str_compare_trans _ _ _ _ E1 E2).
Qed.

#[local] Instance list_le_total : Total list_le.
Proof.
  intros a b. unfold list_le.
  destruct (r_namespace a) as [x|], (r_namespace b) as [y|]; simpl; auto; try apply str_leb_total.
  rewrite (String.compare_antisym y x). destruct (String.compare x y); simpl; auto. apply str_leb_total.
Qed.

Lemma run_ops_app state ops ops' :
  run_ops float_to_string state (ops ++ ops') = run_ops float_to_string (run_ops float_to_string state ops) ops'.
Proof. apply fold_left_app. Qed.

(** C15.  LIST and WATCH refine the store: after any earlier use of the cache, a
    scope filled from a snapshot of the store and then given the store's events
    in order, with events delivered again and operations on other scopes in
    between, lists without error exactly the objects of the store that match its
    selectors, in order of namespace and name. *)
Theorem list_watch_refines_store before scope f store resources p events ops :
  let state := run_ops float_to_string new_cache before in
  filter_for scope = Ok f -> cache_scope scope = Ok scope -> store_keyed store ->
  snapshot f store resources -> valid p ->
  Forall (fun r => (r_resource_version r <= pos_resource_version p)%Z) resources ->
  match (s ← wc_scopes state !! scope; sc_position s) with
  | Some c => permits_successor c p = true
  | None => True
  end ->
  ordered_from p events -> delivers scope [] ops events ->
  exists result, cache_list float_to_string
      (run_ops float_to_string state (OpReplace scope resources p :: ops ++ [OpReady scope])) scope = Ok result
    /\ lr_items result ≡ₚ (map_to_list (view f (store_after store events))).*2
    /\ StronglySorted list_le (lr_items result).
Proof.
  intros state Hf Hc Hk Hsnap Hv Hrv Hpos Hord Hdel.
  pose proof (replace_accepts state scope f store resources p Hf Hc Hk Hsnap Hv Hrv Hpos) as Ht.
  destruct (tracks_run _ _ _ _ _ _ _ _ Hf Hk Hdel Hord Ht) as (p' & seen' & Hend).
  assert (Hready := tracks_other scope f p' _ seen' _ (OpReady scope) I Hend).
  set (final := run_ops float_to_string state (OpReplace scope resources p :: ops ++ [OpReady scope])).
  assert (Hfinal : final = run_op (run_ops float_to_string (run_op state (OpReplace scope resources p)) ops)
    (OpReady scope)).
  { unfold final. cbn [run_ops fold_left]. change (fold_left run_op) with
      (fun l s => run_ops float_to_string s l). cbn beta. by rewrite run_ops_app. }
  rewrite <- Hfinal in Hready. destruct Hready as (s & q & Hs & _ & _ & Hview & _).
  assert (Hwf : cache_wf float_to_string final).
  { unfold final, state. rewrite <- run_ops_app. apply run_ops_wf. }
  assert (Hin : scope ∈ wc_ready final).
  { rewrite Hfinal. destruct Hend as (s0 & ? & Hs0 & _). revert Hs0.
    generalize (run_ops float_to_string (run_op state (OpReplace scope resources p)) ops). intros st Hs0.
    cbn [WatchCache.run_op]. unfold mark_ready. rewrite Hs0. cbn. set_solver. }
  destruct (list_ready _ _ _ Hwf Hin) as (s' & p'' & Hs' & _ & Hlist).
  assert (s' = s) as -> by congruence. eexists. split; [done|]. cbn [lr_items].
  split; [|apply (StronglySorted_merge_sort list_le)].
  rewrite merge_sort_Permutation. unfold member_list. rewrite <- Hview, map_to_list_fmap.
  by rewrite <- !list_fmap_compose.
Qed.
End Refinement.

(** ** A run *)

Definition float_zero_text (_ : Z) : string := "0.0".

Definition pod_scope : CacheReadinessRequest :=
  mkScope "v1" "Pod" (Some "team") (Some "app=web") None.
Definition pod_filter : ResourceFilter :=
  mkFilter "v1" "Pod" (Some "team") (Some [Equality "app" "web"]) None.
Definition labelled_pod (name app : string) (rv : Z) : Resource :=
  mkResource 1 "v1" "Pod" (Some "team") name "uid" rv
    (Object [("metadata", Object [("labels", Object [("app", Str app)])])]).
Definition pod_store : gmap CacheKey Resource :=
  <[cache_key (labelled_pod "a" "web" 3) := labelled_pod "a" "web" 3]>
    {[cache_key (labelled_pod "b" "db" 4) := labelled_pod "b" "db" 4]}.
(** Pod a leaves the selector, pod b enters it. *)
Definition leaves : ResourceEvent :=
  mkEvent Modified (labelled_pod "a" "db" 6) (Some (Position 6 11 0)).
Definition enters : ResourceEvent :=
  mkEvent Modified (labelled_pod "b" "web" 7) (Some (Position 7 12 0)).

Lemma list_watch_refines_store_witness :
  exists result, cache_list float_zero_text
      (run_ops float_zero_text (run_ops float_zero_text new_cache [])
         (OpReplace pod_scope [labelled_pod "a" "web" 3] (Position 5 10 0)
          :: [OpEvent leaves; OpEvent leaves; OpInsert (labelled_pod "x" "web" 1); OpEvent enters]
          ++ [OpReady pod_scope])) pod_scope = Ok result
    /\ lr_items result ≡ₚ (map_to_list (view float_zero_text pod_filter
                             (store_after pod_store [leaves; enters]))).*2
    /\ StronglySorted list_le (lr_items result).
Proof.
  apply (list_watch_refines_store float_zero_text [] pod_scope pod_filter pod_store
           [labelled_pod "a" "web" 3] (Position 5 10 0) [leaves; enters]
           [OpEvent leaves; OpEvent leaves; OpInsert (labelled_pod "x" "web" 1); OpEvent enters]).
  - vm_compute. reflexivity.
  - reflexivity.
  - intros k r. unfold pod_store. rewrite lookup_insert_Some, lookup_singleton_Some. naive_solver.
  - unfold snapshot. vm_compute. reflexivity.
  - unfold valid. cbn. lia.
  - repeat constructor. cbn. lia.
  - exact I.
  - exists (Position 6 11 0). split_and!; [done|done|]. by exists (Position 7 12 0).
  - apply delivers_next, delivers_again; [by left|]. apply delivers_other; [done|].
    apply delivers_next, delivers_nil.
Defined.
