(* ===== verification/Scheduler.v ===== *)
(** * The scheduler: filtering and scoring

    [klights-controllers/src/scheduler]: the typed view of nodes and pods
    ([types.rs]), the predicates that filter nodes ([predicates.rs]) and the
    scores that rank them ([scoring.rs]).

    Quantities are [i64]; sums wrap as in a release build.  Hash maps are [gmap]s;
    where the code takes the first entry of one (the reported extended resource),
    the order of [map_to_list] stands for the map's. *)

From S2P Require Import Prelude Text.
Local Open Scope string_scope.
Local Open Scope rs_scope.
Local Open Scope Z_scope.

(** ** Types *)

Abbreviation Labels := (gmap string string).

(** [a + b] and [a - b] on [i64]. *)
Definition add64 (a b : Z) : Z := wrap_i64 (a + b).
Definition sub64 (a b : Z) : Z := wrap_i64 (a - b).
Definition mul64 (a b : Z) : Z := wrap_i64 (a * b).

Record NodeResources := mkNodeResources {
  nr_cpu_milli : Z; nr_memory_ki : Z; nr_pods : Z; nr_extended : gmap string Z
}.

Record HostPortRequest := mkHostPort { hp_port : Z; hp_protocol : string; hp_host_ip : option string }.

#[export] Instance HostPortRequest_eq_dec : EqDecision HostPortRequest.
Proof. solve_decision. Defined.

Definition is_wildcard_host_ip (value : option string) : bool :=
  is_none_or value (fun v => (v =?s "") || (v =?s "0.0.0.0") || (v =?s "::")).

Definition host_ips_conflict (left right : option string) : bool :=
  is_wildcard_host_ip left || is_wildcard_host_ip right || bool_decide (left = right).

Definition conflicts_with (self other : HostPortRequest) : bool :=
  (hp_port self =? hp_port other) && eq_ignore_ascii_case (hp_protocol self) (hp_protocol other)
  && host_ips_conflict (hp_host_ip self) (hp_host_ip other).

Record PodResources := mkPodResources {
  pr_cpu_milli : Z;
  pr_memory_ki : Z;
  pr_extended : gmap string Z;
  pr_host_port_requests : list HostPortRequest;
  pr_overhead_cpu_milli : Z;
  pr_overhead_memory_ki : Z
}.

Definition effective_cpu_milli (self : PodResources) : Z :=
  add64 (pr_cpu_milli self) (pr_overhead_cpu_milli self).
Definition effective_memory_ki (self : PodResources) : Z :=
  add64 (pr_memory_ki self) (pr_overhead_memory_ki self).

Inductive TaintEffect := NoSchedule | PreferNoSchedule | NoExecute.
#[export] Instance TaintEffect_eq_dec : EqDecision TaintEffect.
Proof. solve_decision. Defined.

Record Taint := mkTaint { tn_key : string; tn_value : option string; tn_effect : TaintEffect }.

Inductive TolerationOperator := TolEqual | TolExists.

Record Toleration := mkToleration {
  tl_key : option string; tl_value : option string; tl_operator : TolerationOperator;
  tl_effect : option TaintEffect
}.

Inductive PreemptionPolicy := PreemptLowerPriority | PreemptNever.

Record SchedulableNode := mkNode {
  nd_name : string;
  nd_ready : bool;
  nd_unschedulable : bool;
  nd_taints : list Taint;
  nd_labels : Labels;
  nd_allocatable : NodeResources;
  nd_capacity : NodeResources
}.

Inductive LabelSelectorOperator := LsIn | LsNotIn | LsExists | LsDoesNotExist.

Record LabelSelectorRequirement := mkLsRequirement {
  ls_key : string; ls_operator : LabelSelectorOperator; ls_values : list string
}.

Record LabelSelectorTerm := mkLsTerm {
  ls_match_labels : Labels; ls_match_expressions : list LabelSelectorRequirement
}.

Definition contains_str (l : list string) (s : string) : bool := existsb (fun v => v =?s s) l.

Definition ls_requirement_matches (self : LabelSelectorRequirement) (labels : Labels) : bool :=
  let label_value := labels !! ls_key self in
  match ls_operator self with
  | LsIn => is_some_and label_value (contains_str (ls_values self))
  | LsNotIn => is_none_or label_value (fun v => negb (contains_str (ls_values self) v))
  | LsExists => opt_is_some label_value
  | LsDoesNotExist => opt_is_none label_value
  end.

(** All entries of a map are entries of the labels. *)
Definition labels_include (labels required : Labels) : bool :=
  forallb (fun kv => bool_decide (labels !! kv.1 = Some kv.2)) (map_to_list required).

Definition ls_term_matches (self : LabelSelectorTerm) (labels : Labels) : bool :=
  labels_include labels (ls_match_labels self)
  && forallb (fun r => ls_requirement_matches r labels) (ls_match_expressions self).

Definition ls_term_is_empty (self : LabelSelectorTerm) : bool :=
  bool_decide (ls_match_labels self = ∅) && bool_decide (length (ls_match_expressions self) = 0%nat).

Inductive NodeSelectorOperator := NsIn | NsNotIn | NsExists | NsDoesNotExist | NsGt | NsLt.

Record NodeSelectorRequirement := mkNsRequirement {
  ns_key : string; ns_operator : NodeSelectorOperator; ns_values : list string
}.

Record NodeSelectorTerm := mkNsTerm {
  nt_match_expressions : list NodeSelectorRequirement; nt_match_fields : list NodeSelectorRequirement
}.

Record PreferredNodeSelectorTerm := mkPreferred { pf_weight : Z; pf_preference : NodeSelectorTerm }.

Inductive SpreadAction := DoNotSchedule | ScheduleAnyway.
Inductive NodeInclusionPolicy := Honor | Ignore.

Record TopologySpreadConstraint := mkSpread {
  ts_max_skew : Z;
  ts_min_domains : option Z;
  ts_topology_key : string;
  ts_when_unsatisfiable : SpreadAction;
  ts_label_selector : option LabelSelectorTerm;
  ts_match_label_keys : list string;
  ts_node_affinity_policy : NodeInclusionPolicy;
  ts_node_taints_policy : NodeInclusionPolicy
}.

Record PodAffinityTerm := mkAffinity {
  pa_label_selector : option LabelSelectorTerm;
  pa_namespaces : option (list string);
  pa_namespace_selector : option LabelSelectorTerm;
  pa_topology_key : string
}.

Record PodSchedulingConstraints := mkPodConstraints {
  pc_namespace : string;
  pc_labels : Labels;
  pc_node_selector : Labels;
  pc_required_node_affinity : list NodeSelectorTerm;
  pc_preferred_node_affinity : list PreferredNodeSelectorTerm;
  pc_required_pod_affinity : list PodAffinityTerm;
  pc_required_pod_anti_affinity : list PodAffinityTerm;
  pc_topology_spread_constraints : list TopologySpreadConstraint;
  pc_tolerations : list Toleration;
  pc_resources : PodResources;
  pc_host_port_requests : list HostPortRequest;
  pc_priority : Z;
  pc_priority_class_name : option string;
  pc_preemption_policy : option PreemptionPolicy
}.

Record ScheduledPod := mkScheduledPod {
  sp_namespace : string; sp_name : string; sp_node_name : string; sp_labels : Labels
}.

Record InterPodAffinityContext := mkContext {
  ic_existing_pods : list ScheduledPod;
  ic_nodes_by_name : gmap string SchedulableNode;
  ic_node_labels_by_name : gmap string Labels;
  ic_namespace_labels_by_name : gmap string Labels
}.

Definition default_context : InterPodAffinityContext := mkContext [] ∅ ∅ ∅.

(** ** Predicates *)

(** The closure of [check_taints] and [prefer_no_schedule_penalty]. *)
Definition tolerates (taint : Taint) (tol : Toleration) : bool :=
  let effect_ok := is_none_or (tl_effect tol) (fun e => bool_decide (e = tn_effect taint)) in
  let key_ok := bool_decide (tl_key tol = Some (tn_key taint)) in
  match tl_operator tol with
  | TolExists => if opt_is_none (tl_key tol) then true else key_ok && effect_ok
  | TolEqual => key_ok && bool_decide (tl_value tol = tn_value taint) && effect_ok
  end.

Definition tolerated (pod : PodSchedulingConstraints) (taint : Taint) : bool :=
  existsb (tolerates taint) (pc_tolerations pod).

Definition hard_taint (taint : Taint) : bool :=
  match tn_effect taint with NoSchedule | NoExecute => true | PreferNoSchedule => false end.

Definition check_taints (node : SchedulableNode) (pod : PodSchedulingConstraints) : option string :=
  match List.find (fun t => hard_taint t && negb (tolerated pod t)) (nd_taints node) with
  | Some t => Some ("taint " +:+ tn_key t +:+ "/" +:+ unwrap_or "" (tn_value t) +:+ " not tolerated")
  | None => None
  end.

Definition first_i64 (values : list string) : Z :=
  unwrap_or 0 (v ← head values; parse_i64 v).

Definition requirement_matches_label (node : SchedulableNode) (req : NodeSelectorRequirement) : bool :=
  let label := nd_labels node !! ns_key req in
  let node_val := unwrap_or "" label in
  match ns_operator req with
  | NsIn => if opt_is_some label then contains_str (ns_values req) node_val else false
  | NsNotIn => negb (contains_str (ns_values req) node_val)
  | NsExists => opt_is_some label
  | NsDoesNotExist => opt_is_none label
  | NsGt => first_i64 (ns_values req) <? unwrap_or 0 (parse_i64 node_val)
  | NsLt => unwrap_or 0 (parse_i64 node_val) <? first_i64 (ns_values req)
  end.

(** The fields of a node hold its name, always present. *)
Definition requirement_matches_field (node_val : string) (req : NodeSelectorRequirement) : bool :=
  if ns_key req =?s "metadata.name" then
    let first := unwrap_or "" (head (ns_values req)) in
    match ns_operator req with
    | NsIn => contains_str (ns_values req) node_val
    | NsNotIn => negb (contains_str (ns_values req) node_val)
    | NsExists => true
    | NsDoesNotExist => false
    | NsGt => negb (str_leb node_val first)
    | NsLt => negb (str_leb first node_val)
    end
  else true.

Definition term_matches (node : SchedulableNode) (term : NodeSelectorTerm) : bool :=
  forallb (requirement_matches_label node) (nt_match_expressions term)
  && forallb (requirement_matches_field (nd_name node)) (nt_match_fields term).

Definition node_selector_and_affinity_match (node : SchedulableNode) (pod : PodSchedulingConstraints) : bool :=
  labels_include (nd_labels node) (pc_node_selector pod)
  && match pc_required_node_affinity pod with
     | [] => true
     | terms => existsb (term_matches node) terms
     end.

Definition namespace_selector_matches (namespace : string) (selector : LabelSelectorTerm)
    (context : InterPodAffinityContext) : bool :=
  if ls_term_is_empty selector then true
  else is_some_and (ic_namespace_labels_by_name context !! namespace) (ls_term_matches selector).

Definition namespace_matches_term (existing_namespace pod_namespace : string) (term : PodAffinityTerm)
    (context : InterPodAffinityContext) : bool :=
  match (fun l => contains_str l existing_namespace) <$> pa_namespaces term,
        (fun s => namespace_selector_matches existing_namespace s context) <$> pa_namespace_selector term with
  | Some explicit, Some selector => explicit && selector
  | Some explicit, None => explicit
  | None, Some selector => selector
  | None, None => existing_namespace =?s pod_namespace
  end.

Definition pod_matches_affinity_term (existing : ScheduledPod) (pod : PodSchedulingConstraints)
    (term : PodAffinityTerm) (context : InterPodAffinityContext) : bool :=
  is_some_and (pa_label_selector term) (fun s => ls_term_matches s (sp_labels existing))
  && namespace_matches_term (sp_namespace existing) (pc_namespace pod) term context.

Definition pods_share_topology (candidate_node : SchedulableNode) (existing : ScheduledPod)
    (term : PodAffinityTerm) (context : InterPodAffinityContext) : bool :=
  if is_empty (pa_topology_key term) then false
  else match nd_labels candidate_node !! pa_topology_key term with
       | None => false
       | Some candidate_value =>
           bool_decide ((labels ← ic_node_labels_by_name context !! sp_node_name existing;
                         labels !! pa_topology_key term) = Some candidate_value)
       end.

Definition matching_pods_in_topology (candidate_node : SchedulableNode) (pod : PodSchedulingConstraints)
    (term : PodAffinityTerm) (context : InterPodAffinityContext) : list ScheduledPod :=
  List.filter (fun existing => pod_matches_affinity_term existing pod term context
                               && pods_share_topology candidate_node existing term context)
    (ic_existing_pods context).

Definition required_pod_affinity_matches (node : SchedulableNode) (pod : PodSchedulingConstraints)
    (context : InterPodAffinityContext) : bool :=
  forallb (fun term => match matching_pods_in_topology node pod term context with [] => false | _ => true end)
    (pc_required_pod_affinity pod).

Definition required_pod_anti_affinity_matches (node : SchedulableNode) (pod : PodSchedulingConstraints)
    (context : InterPodAffinityContext) : bool :=
  forallb (fun term => match matching_pods_in_topology node pod term context with [] => true | _ => false end)
    (pc_required_pod_anti_affinity pod).

(** ** Topology spread *)

Definition node_included_for_topology_spread (node : SchedulableNode) (pod : PodSchedulingConstraints)
    (constraint : TopologySpreadConstraint) : bool :=
  match ts_node_affinity_policy constraint with
  | Honor => node_selector_and_affinity_match node pod
  | Ignore => true
  end
  && match ts_node_taints_policy constraint with
     | Honor => opt_is_none (check_taints node pod)
     | Ignore => true
     end.

Definition pod_matches_topology_spread_selector (existing : ScheduledPod) (pod : PodSchedulingConstraints)
    (constraint : TopologySpreadConstraint) : bool :=
  if negb (sp_namespace existing =?s pc_namespace pod) then false
  else if opt_is_none (ts_label_selector constraint)
          && bool_decide (length (ts_match_label_keys constraint) = 0%nat) then false
  else is_none_or (ts_label_selector constraint) (fun s => ls_term_matches s (sp_labels existing))
       && forallb (fun key => is_none_or (pc_labels pod !! key) (fun value =>
            bool_decide (sp_labels existing !! key = Some value))) (ts_match_label_keys constraint).

Definition eligible_domain_counts (pod : PodSchedulingConstraints) (constraint : TopologySpreadConstraint)
    (context : InterPodAffinityContext) : gmap string Z :=
  fold_left (fun domains node =>
    if node_included_for_topology_spread node pod constraint
    then match nd_labels node !! ts_topology_key constraint with
         | Some domain => match domains !! domain with
                          | Some _ => domains
                          | None => <[domain := 0]> domains
                          end
         | None => domains
         end
    else domains)
    (map_to_list (ic_nodes_by_name context)).*2 ∅.

(** One existing pod of the counting loop. *)
Definition count_pod (pod : PodSchedulingConstraints) (constraint : TopologySpreadConstraint)
    (context : InterPodAffinityContext) (domain_counts : gmap string Z) (existing : ScheduledPod)
  : gmap string Z :=
  if negb (pod_matches_topology_spread_selector existing pod constraint) then domain_counts
  else match ic_nodes_by_name context !! sp_node_name existing with
       | None => domain_counts
       | Some existing_node =>
           if negb (node_included_for_topology_spread existing_node pod constraint) then domain_counts
           else match nd_labels existing_node !! ts_topology_key constraint with
                | None => domain_counts
                | Some domain => alter (Z.add 1) domain domain_counts
                end
       end.

Record TopologySpreadEvaluation := mkEvaluation {
  te_candidate_count : Z; te_global_min : Z; te_max_count : Z
}.

Definition list_min (l : list Z) : Z := match l with [] => 0 | x :: l' => fold_left Z.min l' x end.
Definition list_max (l : list Z) : Z := match l with [] => 0 | x :: l' => fold_left Z.max l' x end.

Definition evaluate_topology_spread (node : SchedulableNode) (pod : PodSchedulingConstraints)
    (constraint : TopologySpreadConstraint) (context : InterPodAffinityContext)
  : option TopologySpreadEvaluation :=
  if is_empty (ts_topology_key constraint) || (ts_max_skew constraint <=? 0) then None
  else
    candidate_domain ← nd_labels node !! ts_topology_key constraint;
    let eligible := eligible_domain_counts pod constraint context in
    if opt_is_none (eligible !! candidate_domain) then None
    else
      let domain_counts := fold_left (count_pod pod constraint context) (ic_existing_pods context) eligible in
      let values := (map_to_list domain_counts).*2 in
      let min_domains := unwrap_or 1 (ts_min_domains constraint) in
      let global_min := if (0 <? min_domains) && (Z.of_nat (size domain_counts) <? min_domains)
                        then 0 else list_min values in
      Some (mkEvaluation (unwrap_or 0 (domain_counts !! candidate_domain)) global_min (list_max values)).

Definition topology_spread_constraints_match (node : SchedulableNode) (pod : PodSchedulingConstraints)
    (context : InterPodAffinityContext) : bool :=
  forallb (fun constraint =>
    match ts_when_unsatisfiable constraint with
    | ScheduleAnyway => true
    | DoNotSchedule =>
        is_some_and (evaluate_topology_spread node pod constraint context) (fun evaluation =>
          te_candidate_count evaluation + 1 - te_global_min evaluation <=? ts_max_skew constraint)
    end) (pc_topology_spread_constraints pod).

(** ** Resource fit *)

(** Adding the entries of a map of extended resources to another. *)
Definition add_extended (acc extended : gmap string Z) : gmap string Z :=
  fold_left (fun m kv => <[kv.1 := add64 (unwrap_or 0 (m !! kv.1)) kv.2]> m) (map_to_list extended) acc.

Definition host_port_conflict (requested : list HostPortRequest) (existing : list PodResources) : bool :=
  existsb (fun request => existsb (fun e => existsb (conflicts_with request) (pr_host_port_requests e))
                            existing) requested.

(** The failures in the order the code pushes them. *)
Definition fit_failures (node : SchedulableNode) (pod : PodSchedulingConstraints)
    (existing : list PodResources) : list string :=
  let requested_cpu := fold_left (fun acc e => add64 acc (effective_cpu_milli e)) existing
                         (effective_cpu_milli (pc_resources pod)) in
  let requested_mem := fold_left (fun acc e => add64 acc (effective_memory_ki e)) existing
                         (effective_memory_ki (pc_resources pod)) in
  let requested_extended := fold_left (fun acc e => add_extended acc (pr_extended e)) existing
                              (pr_extended (pc_resources pod)) in
  let allocatable := nd_allocatable node in
  ((if nr_cpu_milli allocatable <? requested_cpu then ["Insufficient cpu"] else [])
   ++ (if nr_memory_ki allocatable <? requested_mem then ["Insufficient memory"] else [])
   ++ (if nr_pods allocatable <? Z.of_nat (length existing) + 1 then ["Too many pods"] else [])
   ++ omap (fun kv => if unwrap_or 0 (nr_extended allocatable !! kv.1) <? kv.2
                      then Some ("Insufficient " +:+ kv.1) else None) (map_to_list requested_extended)
   ++ (if host_port_conflict (pc_host_port_requests pod) existing
       then ["node(s) didn't have free host ports"] else []))%list.

Definition check_resource_fit (node : SchedulableNode) (pod : PodSchedulingConstraints)
    (existing : list PodResources) : option string := head (fit_failures node pod existing).

Definition node_fit_with_context (node : SchedulableNode) (pod : PodSchedulingConstraints)
    (existing : list PodResources) (context : InterPodAffinityContext) : list string :=
  ((if nd_unschedulable node then ["node(s) were unschedulable"] else [])
   ++ (if negb (nd_ready node) then ["node(s) were not ready"] else [])
   ++ option_list (check_taints node pod)
   ++ (if negb (node_selector_and_affinity_match node pod)
       then ["node(s) didn't match Pod's node affinity/selector"] else [])
   ++ (if negb (required_pod_affinity_matches node pod context)
       then ["node(s) didn't match Pod's pod affinity rules"] else [])
   ++ (if negb (required_pod_anti_affinity_matches node pod context)
       then ["node(s) didn't match Pod's pod anti-affinity rules"] else [])
   ++ (if negb (topology_spread_constraints_match node pod context)
       then ["node(s) didn't satisfy Pod's topology spread constraints"] else [])
   ++ option_list (check_resource_fit node pod existing))%list.

Definition node_fit (node : SchedulableNode) (pod : PodSchedulingConstraints)
    (existing : list PodResources) : list string :=
  node_fit_with_context node pod existing default_context.

(** ** Scores *)

Definition sum64 (l : list Z) : Z := fold_left add64 l 0.

Definition topology_spread_schedule_anyway_score (node : SchedulableNode) (pod : PodSchedulingConstraints)
    (context : InterPodAffinityContext) : Z :=
  sum64 (omap (fun constraint =>
    match ts_when_unsatisfiable constraint with
    | DoNotSchedule => None
    | ScheduleAnyway =>
        evaluation ← evaluate_topology_spread node pod constraint context;
        Some (mul64 (sub64 (te_max_count evaluation) (te_candidate_count evaluation)) 100)
    end) (pc_topology_spread_constraints pod)).

Definition preferred_node_affinity_score (node : SchedulableNode) (pod : PodSchedulingConstraints) : Z :=
  sum64 ((fun term => Z.max 1 (Z.min 100 (pf_weight term)))
           <$> List.filter (fun term => term_matches node (pf_preference term))
                 (pc_preferred_node_affinity pod)).

Definition PREFER_NO_SCHEDULE_PENALTY : Z := -100.

Definition prefer_no_schedule_penalty (node : SchedulableNode) (pod : PodSchedulingConstraints) : Z :=
  fold_left (fun penalty taint =>
    if negb (bool_decide (tn_effect taint = PreferNoSchedule)) then penalty
    else if tolerated pod taint then penalty else add64 penalty PREFER_NO_SCHEDULE_PENALTY)
    (nd_taints node) 0.

(** [(remaining * 100) / allocatable], 100 when nothing is allocatable. *)
Definition remaining_pct (remaining allocatable : Z) : Z :=
  if 0 <? allocatable then Z.quot (mul64 remaining 100) allocatable else 100.

Definition score_node (node : SchedulableNode) (pod : PodSchedulingConstraints)
    (existing : list PodResources) : Z :=
  let allocatable := nd_allocatable node in
  let remaining_cpu := fold_left (fun r e => sub64 r (effective_cpu_milli e)) existing
                         (sub64 (nr_cpu_milli allocatable) (effective_cpu_milli (pc_resources pod))) in
  let remaining_mem := fold_left (fun r e => sub64 r (effective_memory_ki e)) existing
                         (sub64 (nr_memory_ki allocatable) (effective_memory_ki (pc_resources pod))) in
  let remaining_pods := Z.max 0 (sub64 (sub64 (nr_pods allocatable) (Z.of_nat (length existing))) 1) in
  add64 (add64 (add64 (add64 (remaining_pct remaining_cpu (nr_cpu_milli allocatable))
                             (remaining_pct remaining_mem (nr_memory_ki allocatable)))
                      (remaining_pct remaining_pods (nr_pods allocatable)))
               (prefer_no_schedule_penalty node pod))
        (preferred_node_affinity_score node pod).

(** The selection loop: the nodes of the best score so far, in order. *)
Definition best_step (score : SchedulableNode -> Z) (acc : list SchedulableNode * Z) (node : SchedulableNode)
  : list SchedulableNode * Z :=
  let '(best_nodes, best_score) := acc in
  match score node ?= best_score with
  | Gt => ([node], score node)
  | Eq => ((best_nodes ++ [node])%list, best_score)
  | Lt => acc
  end.

(** [min_by(|a, b| a.name.cmp(&b.name))]: the first of the least names. *)
Definition min_by_name (nodes : list SchedulableNode) : option SchedulableNode :=
  match nodes with
  | [] => None
  | n :: rest =>
      Some (fold_left (fun best m => if str_leb (nd_name best) (nd_name m) then best else m) rest n)
  end.

Definition select_by_score (score : SchedulableNode -> Z) (nodes : list SchedulableNode) : option string :=
  nd_name <$> min_by_name (fold_left (best_step score) nodes ([], i64_min)).1.

Definition select_best_node (nodes : list SchedulableNode) (pod : PodSchedulingConstraints)
    (existing_resources : list (string * list PodResources)) : option string :=
  let resource_map := collect_map existing_resources in
  select_by_score (fun node => score_node node pod (unwrap_or [] (resource_map !! nd_name node))) nodes.

(** [if !all_reasons.contains(r) { all_reasons.push(r) }]. *)
Definition push_reason (all_reasons : list string) (r : string) : list string :=
  if contains_str all_reasons r then all_reasons else (all_reasons ++ [r])%list.

(** ** No overcommitment *)

Definition total (f : PodResources -> Z) (pods : list PodResources) : Z := foldr (fun p s => f p + s) 0 pods.

Definition full_cpu (r : PodResources) : Z := pr_cpu_milli r + pr_overhead_cpu_milli r.
Definition full_memory (r : PodResources) : Z := pr_memory_ki r + pr_overhead_memory_ki r.
Definition full_extended (key : string) (r : PodResources) : Z := unwrap_or 0 (pr_extended r !! key).

Lemma total_nonneg f pods : Forall (fun p => 0 <= f p) pods -> 0 <= total f pods.
Proof. induction 1; simpl; lia. Qed.

(** A sum of non-negative amounts within [i64] does not wrap. *)
Lemma sum_exact (f g : PodResources -> Z) pods acc :
  (forall p, p ∈ pods -> g p = f p) -> Forall (fun p => 0 <= f p) pods -> 0 <= acc ->
  acc + total f pods <= i64_max -> fold_left (fun s p => add64 s (g p)) pods acc = acc + total f pods.
Proof.
  revert acc. induction pods as [|p pods IH]; intros acc Hg Hpos Hacc Hmax; simpl in *; [lia|].
  apply Forall_cons in Hpos as [Hp Hpos]. pose proof (total_nonneg _ _ Hpos).
  assert (Hadd : add64 acc (g p) = acc + f p).
  { rewrite Hg by (by left). apply wrap_i64_small. unfold in_i64, i64_min, i64_max in *. lia. }
  rewrite Hadd, IH; [lia| |done|lia|lia]. intros q Hq. apply Hg. by right.
Qed.

Lemma effective_exact a b : 0 <= a + b <= i64_max -> add64 a b = a + b.
Proof. intros. apply wrap_i64_small. unfold in_i64, i64_min, i64_max in *. lia. Qed.

Lemma add_extended_lookup acc e k :
  add_extended acc e !! k
  = match e !! k with Some v => Some (add64 (unwrap_or 0 (acc !! k)) v) | None => acc !! k end.
Proof.
  unfold add_extended.
  assert (Hl : forall l : list (string * Z), NoDup l.*1 -> forall acc : gmap string Z,
    fold_left (fun m kv => <[kv.1 := add64 (unwrap_or 0 (m !! kv.1)) kv.2]> m) l acc !! k
    = match list_to_map (M := gmap string Z) l !! k with
      | Some v => Some (add64 (unwrap_or 0 (acc !! k)) v) | None => acc !! k end).
  { induction l as [|[k' v] l IH]; intros Hnd m; [done|]. cbn [fmap list_fmap fst] in Hnd.
    apply NoDup_cons in Hnd as [Hnot Hnd]. cbn [fold_left fst snd]. rewrite IH by done.
    rewrite list_to_map_cons. destruct (decide (k' = k)) as [->|Hne].
    - rewrite (not_elem_of_list_to_map_1 l k Hnot), !lookup_insert_eq. done.
    - by rewrite !lookup_insert_ne. }
  rewrite Hl by apply NoDup_fst_map_to_list. by rewrite list_to_map_to_list.
Qed.

(** The amount of one extended resource after adding a list of pods. *)
Lemma extended_sum key pods acc :
  Forall (fun p => 0 <= full_extended key p) pods -> is_Some (acc !! key) -> 0 <= unwrap_or 0 (acc !! key) ->
  unwrap_or 0 (acc !! key) + total (full_extended key) pods <= i64_max ->
  fold_left (fun m p => add_extended m (pr_extended p)) pods acc !! key
  = Some (unwrap_or 0 (acc !! key) + total (full_extended key) pods).
Proof.
  revert acc. induction pods as [|p pods IH]; intros acc Hpos [a Ha] Hacc Hmax; cbn [fold_left total foldr] in *.
  { rewrite Ha. cbn. f_equal. lia. }
  apply Forall_cons in Hpos as [Hp Hpos]. pose proof (total_nonneg _ _ Hpos) as Ht. unfold total in Ht.
  assert (Hstep : add_extended acc (pr_extended p) !! key = Some (unwrap_or 0 (acc !! key) + full_extended key p)).
  { rewrite add_extended_lookup. unfold full_extended in *. rewrite Ha in *. cbn [unwrap_or] in *.
    destruct (pr_extended p !! key); cbn [unwrap_or] in *; f_equal; [|lia].
    apply wrap_i64_small. unfold in_i64, i64_min, i64_max in *. lia. }
  rewrite IH; rewrite ?Hstep; cbn [unwrap_or]; [f_equal; unfold total; lia|done|done|lia|unfold total; lia].
Qed.

Lemma if_nil {A} (b : bool) (x : A) : (if b then [x] else []) = [] -> b = false.
Proof. by destruct b. Qed.

(** What a fitting node passed. *)
Lemma fit_no_failures node pod existing context :
  node_fit_with_context node pod existing context = [] -> fit_failures node pod existing = [].
Proof.
  unfold node_fit_with_context. intros H. repeat apply app_nil in H as [_ H].
  unfold check_resource_fit in H. by destruct (fit_failures node pod existing).
Qed.

(** The other predicates a fitting node passed. *)
Lemma fit_predicates node pod existing context :
  node_fit_with_context node pod existing context = [] ->
  nd_ready node = true /\ nd_unschedulable node = false
  /\ (forall t, t ∈ nd_taints node -> hard_taint t = true -> tolerated pod t = true)
  /\ node_selector_and_affinity_match node pod = true
  /\ required_pod_affinity_matches node pod context = true
  /\ required_pod_anti_affinity_matches node pod context = true
  /\ topology_spread_constraints_match node pod context = true.
Proof.
  unfold node_fit_with_context. intros H.
  apply app_nil in H as [Hu H]. apply app_nil in H as [Hr H]. apply app_nil in H as [Ht H].
  apply app_nil in H as [Hn H]. apply app_nil in H as [Ha H]. apply app_nil in H as [Hx H].
  apply app_nil in H as [Hs _]. apply if_nil in Hu, Hr, Hn, Ha, Hx, Hs.
  apply negb_false_iff in Hr, Hn, Ha, Hx, Hs. repeat split; try done.
  intros t Hin Hhard. unfold check_taints in Ht. destruct (List.find _ _) eqn:Hf; [done|].
  eapply find_none in Hf; [|by apply list_elem_of_In]. cbn in Hf. rewrite Hhard in Hf. by apply negb_false_iff in Hf.
Qed.

(** The amounts of a list of pods are non-negative and their sum is within [i64]. *)
Definition in_range (f : PodResources -> Z) (pods : list PodResources) : Prop :=
  Forall (fun p => 0 <= f p) pods /\ total f pods <= i64_max.

Lemma total_in_range f p pods :
  in_range f (p :: pods) -> 0 <= f p /\ f p + total f pods <= i64_max /\ Forall (fun q => 0 <= f q) pods.
Proof. intros [Hpos Hmax]. apply Forall_cons in Hpos as [Hp Hpos]. auto. Qed.

(** The sum of effective amounts is the exact total. *)
Lemma effective_sum f g pod existing :
  (forall p, 0 <= f p <= i64_max -> g p = f p) -> in_range f (pod :: existing) ->
  fold_left (fun acc e => add64 acc (g e)) existing (g pod) = total f (pod :: existing).
Proof.
  intros Hg (Hp & Hmax & Hpos)%total_in_range. pose proof (total_nonneg _ _ Hpos).
  rewrite (Hg pod) by lia. apply (sum_exact f); try done.
  intros q Hq. apply Hg. rewrite Forall_forall in Hpos. split; [by apply Hpos|].
  enough (f q <= total f existing) by lia. clear -Hq Hpos.
  induction existing as [|e l IH]; [by apply not_elem_of_nil in Hq|]. cbn [total foldr].
  assert (Hl : Forall (fun r => 0 <= f r) l) by (apply Forall_forall; intros r Hr; apply Hpos; by right).
  pose proof (total_nonneg _ _ Hl) as Ht. unfold total in *.
  apply elem_of_cons in Hq as [->|Hq]; [lia|].
  specialize (IH ltac:(intros r Hr; apply Hpos; by right) Hq). specialize (Hpos e ltac:(by left)). lia.
Qed.

Lemma effective_cpu_full p : 0 <= full_cpu p <= i64_max -> effective_cpu_milli p = full_cpu p.
Proof. apply effective_exact. Qed.

Lemma effective_memory_full p : 0 <= full_memory p <= i64_max -> effective_memory_ki p = full_memory p.
Proof. apply effective_exact. Qed.

Lemma omap_nil {A B} (f : A -> option B) l x : omap f l = [] -> x ∈ l -> f x = None.
Proof.
  intros Hnil Hx. destruct (f x) as [y|] eqn:E; [|done].
  assert (Hy : y ∈ omap f l) by (apply list_elem_of_omap; eauto). rewrite Hnil in Hy. by apply not_elem_of_nil in Hy.
Qed.

(** What a node without resource failures has room for. *)
Lemma fit_failures_nil node pod existing :
  fit_failures node pod existing = [] -> let allocatable := nd_allocatable node in
  fold_left (fun acc e => add64 acc (effective_cpu_milli e)) existing (effective_cpu_milli (pc_resources pod))
    <= nr_cpu_milli allocatable
  /\ fold_left (fun acc e => add64 acc (effective_memory_ki e)) existing (effective_memory_ki (pc_resources pod))
       <= nr_memory_ki allocatable
  /\ Z.of_nat (length existing) + 1 <= nr_pods allocatable
  /\ (forall key v, fold_left (fun acc e => add_extended acc (pr_extended e)) existing
                      (pr_extended (pc_resources pod)) !! key = Some v ->
        v <= unwrap_or 0 (nr_extended allocatable !! key))
  /\ host_port_conflict (pc_host_port_requests pod) existing = false.
Proof.
  intros Hfit allocatable. unfold fit_failures in Hfit. fold allocatable in Hfit.
  apply app_nil in Hfit as [Hc Hfit]. apply app_nil in Hfit as [Hm Hfit].
  apply app_nil in Hfit as [Hp Hfit]. apply app_nil in Hfit as [He Hh].
  apply if_nil in Hc, Hm, Hp, Hh. apply Z.ltb_ge in Hc, Hm, Hp. repeat split; [done..| |done].
  intros key v Hkey%elem_of_map_to_list. eapply omap_nil in He; [|exact Hkey]. cbn [fst snd] in He.
  destruct (unwrap_or 0 _ <? _) eqn:El in He; [done|]. by apply Z.ltb_ge in El.
Qed.

(** C36.  A node that passes the filter is not overcommitted: when the amounts
    are non-negative and add up within [i64], the processor time, the memory and
    every extended resource the pod asks for, of the pod and the pods already on
    the node together, overheads included, stay within what the node can allocate;
    there is room for one more pod; and no host port of the pod is taken. *)
Theorem fit_no_overcommit node pod existing context :
  node_fit_with_context node pod existing context = [] ->
  in_range full_cpu (pc_resources pod :: existing) -> in_range full_memory (pc_resources pod :: existing) ->
  (forall key, in_range (full_extended key) (pc_resources pod :: existing)) ->
  let allocatable := nd_allocatable node in
  total full_cpu (pc_resources pod :: existing) <= nr_cpu_milli allocatable
  /\ total full_memory (pc_resources pod :: existing) <= nr_memory_ki allocatable
  /\ Z.of_nat (length existing) + 1 <= nr_pods allocatable
  /\ (forall key, is_Some (pr_extended (pc_resources pod) !! key) ->
        total (full_extended key) (pc_resources pod :: existing) <= unwrap_or 0 (nr_extended allocatable !! key))
  /\ host_port_conflict (pc_host_port_requests pod) existing = false.
Proof.
  intros (Hc & Hm & Hp & He & Hh)%fit_no_failures%fit_failures_nil Hcpu Hmem Hext allocatable.
  rewrite (effective_sum full_cpu) in Hc by (try done; apply effective_cpu_full).
  rewrite (effective_sum full_memory) in Hm by (try done; apply effective_memory_full).
  repeat split; [done..| |done]. intros key Hkey. apply He.
  destruct (Hext key) as [Hpos Hmax]. apply Forall_cons in Hpos as [Hpod Hpos]. by rewrite extended_sum.
Qed.

(** A ready node without taints or labels, and a pod that only asks for resources. *)
Definition plain_node (name : string) (allocatable : NodeResources) : SchedulableNode :=
  mkNode name true false [] ∅ allocatable allocatable.

Definition plain_pod (priority : Z) (resources : PodResources) : PodSchedulingConstraints :=
  mkPodConstraints "default" ∅ ∅ [] [] [] [] [] [] resources (pr_host_port_requests resources) priority None None.

Definition gpu_pod : PodResources := mkPodResources 500 1024 {["gpu" := 1]} [mkHostPort 80 "TCP" None] 50 64.

Definition gpu_guest : PodResources := mkPodResources 500 1024 {["gpu" := 1]} [mkHostPort 80 "UDP" None] 50 64.

Lemma gpu_in_range key : in_range (full_extended key) [gpu_pod; gpu_guest].
Proof.
  assert (Hone : 0 <= unwrap_or 0 (({["gpu" := 1]} : gmap string Z) !! key) <= 1).
  { destruct (decide ("gpu" = key)) as [<-|Hne]; [by vm_compute|]. by rewrite lookup_singleton_ne. }
  unfold in_range, full_extended, total, i64_max. cbn [foldr gpu_pod gpu_guest pr_extended].
  rewrite !Forall_cons, Forall_nil. cbn [gpu_pod gpu_guest pr_extended]. lia.
Qed.

Definition gpu_node : SchedulableNode := plain_node "n1" (mkNodeResources 1100 2176 2 {["gpu" := 2]}).

(** Two such pods fill the node exactly: a third is refused. *)
Example full_node_refuses :
  node_fit gpu_node (plain_pod 0 gpu_pod) [gpu_guest; gpu_guest] = ["Insufficient cpu"].
Proof. by vm_compute. Qed.

Lemma fit_no_overcommit_witness :
  total full_cpu [gpu_pod; gpu_guest] <= 1100
  /\ total full_memory [gpu_pod; gpu_guest] <= 2176
  /\ 2 <= 2
  /\ (forall key, is_Some (pr_extended gpu_pod !! key) ->
        total (full_extended key) [gpu_pod; gpu_guest] <= unwrap_or 0 (({["gpu" := 2]} : gmap string Z) !! key))
  /\ host_port_conflict (pc_host_port_requests (plain_pod 0 gpu_pod)) [gpu_guest] = false.
Proof.
  apply (fit_no_overcommit gpu_node (plain_pod 0 gpu_pod) [gpu_guest] default_context).
  - by vm_compute.
  - split; [by repeat constructor|by vm_compute].
  - split; [by repeat constructor|by vm_compute].
  - exact gpu_in_range.
Defined.

(** Outside that range the sum wraps: a pod that asks for the largest amount of
    processor time fits a node of one core as soon as another pod runs there. *)
Example wrapped_request_fits :
  let node := plain_node "n1" (mkNodeResources 1000 4096 10 ∅) in
  let pod := plain_pod 0 (mkPodResources i64_max 0 ∅ [] 0 0) in
  node_fit node pod [] = ["Insufficient cpu"]
  /\ node_fit node pod [mkPodResources 100 0 ∅ [] 0 0] = [].
Proof. by vm_compute. Qed.
