(* ===== verification/Preemption.v ===== *)
(** * The scheduler: preemption and the pipeline

    [klights-controllers/src/scheduler/preemption.rs], the choice of victims on a
    node, and [engine.rs], the pipeline that filters, scores and preempts.  The
    extraction of the typed views from JSON is left out. *)

From S2P Require Import Prelude Text Scheduler.
Local Open Scope string_scope.
Local Open Scope rs_scope.
Local Open Scope Z_scope.

Record ExistingPod := mkExistingPod {
  ep_namespace : string; ep_name : string; ep_priority : Z; ep_resources : PodResources; ep_labels : Labels
}.

Record PodDisruptionBudgetConstraint := mkPdb {
  pdb_namespace : string; pdb_name : string; pdb_selector : LabelSelectorTerm; pdb_disruptions_allowed : Z
}.

Record PreemptionVictim := mkVictim { vi_namespace : string; vi_name : string }.

#[export] Instance PreemptionVictim_eq_dec : EqDecision PreemptionVictim.
Proof. solve_decision. Defined.

(** A stable sort, as [sort_by]. *)
Fixpoint insert_by {A} (le : A -> A -> bool) (x : A) (l : list A) : list A :=
  match l with
  | [] => [x]
  | y :: l' => if le x y then x :: l else y :: insert_by le x l'
  end.

Definition sort_by {A} (le : A -> A -> bool) (l : list A) : list A := foldr (insert_by le) [] l.

(** [a.cmp(b).then_with(..)] as a boolean order: less, or equal and the rest. *)
Definition then_with (c : comparison) (rest : comparison) : comparison :=
  match c with Eq => rest | _ => c end.

Definition priority_name_cmp (a b : ExistingPod) : comparison :=
  then_with (ep_priority a ?= ep_priority b)
    (then_with (String.compare (ep_namespace a) (ep_namespace b)) (String.compare (ep_name a) (ep_name b))).

Definition cmp_le (c : comparison) : bool := match c with Gt => false | _ => true end.

Definition bool_cmp (a b : bool) : comparison :=
  match a, b with false, true => Lt | true, false => Gt | _, _ => Eq end.

(** ** Disruption budgets *)

Abbreviation Budgets := (gmap (string * string) Z).

Definition pdb_key (pdb : PodDisruptionBudgetConstraint) : string * string := (pdb_namespace pdb, pdb_name pdb).

Definition pdb_disruptions_by_key (pdbs : list PodDisruptionBudgetConstraint) : Budgets :=
  fold_left (fun m pdb => <[pdb_key pdb := Z.max (pdb_disruptions_allowed pdb) 0]> m) pdbs ∅.

Definition matching_pdb_keys (pod : ExistingPod) (pdbs : list PodDisruptionBudgetConstraint)
  : list (string * string) :=
  pdb_key <$> List.filter (fun pdb => (pdb_namespace pdb =?s ep_namespace pod)
                                      && ls_term_matches (pdb_selector pdb) (ep_labels pod)) pdbs.

Definition candidate_violates_pdb (pdbs : list PodDisruptionBudgetConstraint) (remaining : Budgets)
    (candidate : ExistingPod) : bool :=
  existsb (fun key => unwrap_or 0 (remaining !! key) <=? 0) (matching_pdb_keys candidate pdbs).

Definition record_pdb_disruption (candidate : ExistingPod) (pdbs : list PodDisruptionBudgetConstraint)
    (remaining : Budgets) : Budgets :=
  fold_left (fun m key => <[key := saturating_i64 (unwrap_or 0 (m !! key) - 1)]> m)
    (matching_pdb_keys candidate pdbs) remaining.

(** ** Fit on a node *)

Definition default_pod_resources : PodResources := mkPodResources 0 0 ∅ [] 0 0.

(** The sum of the pods on the node; the overhead is in the sums. *)
Definition allocate (acc : PodResources) (p : ExistingPod) : PodResources :=
  let r := ep_resources p in
  mkPodResources (add64 (pr_cpu_milli acc) (effective_cpu_milli r))
    (add64 (pr_memory_ki acc) (effective_memory_ki r))
    (add_extended (pr_extended acc) (pr_extended r))
    (pr_host_port_requests acc ++ pr_host_port_requests r)%list
    (pr_overhead_cpu_milli acc) (pr_overhead_memory_ki acc).

Definition over_cpu (node : SchedulableNode) (allocated requested : PodResources) : bool :=
  nr_cpu_milli (nd_allocatable node) <? add64 (pr_cpu_milli allocated) (effective_cpu_milli requested).
Definition over_memory (node : SchedulableNode) (allocated requested : PodResources) : bool :=
  nr_memory_ki (nd_allocatable node) <? add64 (pr_memory_ki allocated) (effective_memory_ki requested).
Definition over_extended (allocated requested : PodResources) (key : string) (allocatable_val : Z) : bool :=
  allocatable_val <? add64 (unwrap_or 0 (pr_extended allocated !! key)) (unwrap_or 0 (pr_extended requested !! key)).
Definition port_taken (allocated : PodResources) (request : HostPortRequest) : bool :=
  existsb (conflicts_with request) (pr_host_port_requests allocated).

Definition resource_fit_failures (node : SchedulableNode) (allocated requested : PodResources) : list string :=
  ((if over_cpu node allocated requested then ["Insufficient cpu"] else [])
   ++ (if over_memory node allocated requested then ["Insufficient memory"] else [])
   ++ omap (fun kv => if over_extended allocated requested kv.1 kv.2
                      then Some ("Insufficient " +:+ kv.1) else None)
        (map_to_list (nr_extended (nd_allocatable node)))
   ++ (if existsb (port_taken allocated) (pr_host_port_requests requested)
       then ["node(s) didn't have free host ports"] else []))%list.

Definition request_relieves_fit_failure (node : SchedulableNode) (allocated requested candidate : PodResources)
  : bool :=
  over_cpu node allocated requested && (0 <? effective_cpu_milli candidate)
  || over_memory node allocated requested && (0 <? effective_memory_ki candidate)
  || existsb (fun kv => over_extended allocated requested kv.1 kv.2
                        && (0 <? unwrap_or 0 (pr_extended candidate !! kv.1)))
       (map_to_list (nr_extended (nd_allocatable node)))
  || existsb (fun request => port_taken allocated request && port_taken candidate request)
       (pr_host_port_requests requested).

(** ** Victims *)

Definition swap_remove {A} (index : nat) (l : list A) : list A :=
  match last l with Some x => removelast (<[index := x]> l) | None => l end.

(** The index of the first element that satisfies a test. *)
Fixpoint position {A} (p : A -> bool) (l : list A) : option nat :=
  match l with
  | [] => None
  | x :: l' => if p x then Some 0%nat else S <$> position p l'
  end.

Definition remove_host_port_request (allocated : list HostPortRequest) (request : HostPortRequest)
  : list HostPortRequest :=
  match position (fun item => bool_decide (item = request)) allocated with
  | Some index => swap_remove index allocated
  | None => allocated
  end.

(** Taking a candidate's resources out of the allocated ones. *)
Definition release (allocated : PodResources) (candidate : PodResources) : PodResources :=
  mkPodResources (saturating_i64 (pr_cpu_milli allocated - effective_cpu_milli candidate))
    (saturating_i64 (pr_memory_ki allocated - effective_memory_ki candidate))
    (fold_left (fun m kv => <[kv.1 := saturating_i64 (unwrap_or 0 (m !! kv.1) - kv.2)]> m)
       (map_to_list (pr_extended candidate)) (pr_extended allocated))
    (fold_left remove_host_port_request (pr_host_port_requests candidate) (pr_host_port_requests allocated))
    (pr_overhead_cpu_milli allocated) (pr_overhead_memory_ki allocated).

Definition victim_of (p : ExistingPod) : PreemptionVictim := mkVictim (ep_namespace p) (ep_name p).

Definition victim_order (pdbs : list PodDisruptionBudgetConstraint) (remaining : Budgets) (a b : ExistingPod)
  : bool :=
  cmp_le (then_with (bool_cmp (candidate_violates_pdb pdbs remaining a) (candidate_violates_pdb pdbs remaining b))
            (priority_name_cmp a b)).

(** The greedy loop; an iteration removes a candidate, so their number bounds it. *)
Fixpoint victim_loop (fuel : nat) (node : SchedulableNode) (requested : PodResources)
    (pdbs : list PodDisruptionBudgetConstraint) (candidates : list ExistingPod) (allocated : PodResources)
    (victims : list PreemptionVictim) (remaining : Budgets) : option (list PreemptionVictim) :=
  match fuel with
  | O => None
  | S fuel' =>
      let candidates := sort_by (victim_order pdbs remaining) candidates in
      index ← position (fun c => request_relieves_fit_failure node allocated requested (ep_resources c)) candidates;
      candidate ← candidates !! index;
      let allocated := release allocated (ep_resources candidate) in
      let victims := (victims ++ [victim_of candidate])%list in
      match resource_fit_failures node allocated requested with
      | [] => Some victims
      | _ => victim_loop fuel' node requested pdbs (delete index candidates) allocated victims
               (record_pdb_disruption candidate pdbs remaining)
      end
  end.

Definition select_preemption_victims_with_pdbs (node : SchedulableNode) (pod : PodSchedulingConstraints)
    (existing_pods : list ExistingPod) (pdbs : list PodDisruptionBudgetConstraint)
  : option (list PreemptionVictim) :=
  match pc_preemption_policy pod with
  | Some PreemptNever => None
  | _ =>
      let candidates := sort_by (fun a b => cmp_le (priority_name_cmp a b))
        (List.filter (fun p => ep_priority p <? pc_priority pod) existing_pods) in
      let allocated := fold_left allocate existing_pods default_pod_resources in
      match resource_fit_failures node allocated (pc_resources pod) with
      | [] => None
      | _ => victim_loop (length candidates) node (pc_resources pod) pdbs candidates allocated []
               (pdb_disruptions_by_key pdbs)
      end
  end.

(** ** The pipeline *)

Record NodeExistingPods := mkNodeExistingPods { ne_node_name : string; ne_pods : list ExistingPod }.

Record SchedulingDecision := mkSchedulingDecision {
  sd_selected_node : option string;
  sd_failed_reasons : list string;
  sd_preemption_victims : list string;
  sd_unschedulable_message : option string
}.

Definition success (node : string) := mkSchedulingDecision (Some node) [] [] None.
Definition failed (reasons : list string) := mkSchedulingDecision None reasons [] None.
Definition failed_with_message (reasons : list string) (message : string) :=
  mkSchedulingDecision None reasons [] (Some message).
Definition victim_text (v : PreemptionVictim) : string := vi_namespace v +:+ "/" +:+ vi_name v.
Definition preempt_with_victims (node : string) (victims : list PreemptionVictim) :=
  mkSchedulingDecision (Some node) [] (victim_text <$> victims) None.

Definition preempt (node : string) (victims : list string) := mkSchedulingDecision (Some node) [] victims None.
Definition is_success (self : SchedulingDecision) : bool := opt_is_some (sd_selected_node self).

(** Filter and score without preemption and without the pods of other nodes. *)
Definition schedule (nodes : list SchedulableNode) (pod : PodSchedulingConstraints)
    (existing_resources : list (string * list PodResources)) : SchedulingDecision :=
  let resource_map := collect_map existing_resources in
  let reasons_of node := node_fit node pod (unwrap_or [] (resource_map !! nd_name node)) in
  let fits node := match reasons_of node with [] => true | _ => false end in
  let all_reasons := fold_left push_reason (flat_map reasons_of nodes) [] in
  match List.filter fits nodes with
  | [] => failed all_reasons
  | fit_nodes =>
      match select_best_node fit_nodes pod existing_resources with
      | Some name => success name
      | None => failed ["no node selected after scoring"]
      end
  end.

Definition preemption_recoverable_reason (reason : string) : bool :=
  (reason =?s "Too many pods") || starts_with "Insufficient " reason
  || (reason =?s "node(s) didn't have free host ports").

Definition is_victim (victims : list PreemptionVictim) (pod : ExistingPod) : bool :=
  bool_decide (victim_of pod ∈ victims).

Definition resources_after_preemption (existing : list ExistingPod) (victims : list PreemptionVictim)
  : list PodResources := ep_resources <$> List.filter (fun pod => negb (is_victim victims pod)) existing.

Record PreemptionCandidate := mkCandidate {
  ca_node_name : string;
  ca_victims : list PreemptionVictim;
  ca_highest_victim_priority : Z;
  ca_priority_sum : Z;
  ca_victim_count : Z
}.

Definition victim_priority (existing : list ExistingPod) (victim : PreemptionVictim) : Z :=
  match List.find (fun pod => bool_decide (victim_of pod = victim)) existing with
  | Some pod => ep_priority pod
  | None => i64_max
  end.

Definition PreemptionCandidate_new (node_name : string) (victims : list PreemptionVictim)
    (existing : list ExistingPod) : PreemptionCandidate :=
  let priorities := victim_priority existing <$> victims in
  mkCandidate node_name victims (fold_left Z.max priorities i64_min)
    (fold_left (fun sum p => saturating_i64 (sum + p)) priorities 0) (Z.of_nat (length victims)).

Definition is_better_than (self other : PreemptionCandidate) : bool :=
  match then_with (ca_highest_victim_priority self ?= ca_highest_victim_priority other)
          (then_with (ca_priority_sum self ?= ca_priority_sum other)
             (then_with (ca_victim_count self ?= ca_victim_count other)
                (String.compare (ca_node_name self) (ca_node_name other)))) with
  | Lt => true
  | _ => false
  end.

Record NodeFilterFailure := mkFilterFailure { nf_node : SchedulableNode; nf_reasons : list string }.

Definition pods_on (existing_map : gmap string (list ExistingPod)) (node : SchedulableNode)
  : list ExistingPod := unwrap_or [] (existing_map !! nd_name node).

(** One failed node of the preemption loop: the candidate it offers. *)
Definition preemption_on (pod : PodSchedulingConstraints) (existing_map : gmap string (list ExistingPod))
    (pdbs : list PodDisruptionBudgetConstraint) (failure : NodeFilterFailure) : option PreemptionCandidate :=
  if negb (forallb preemption_recoverable_reason (nf_reasons failure)) then None
  else
    let node := nf_node failure in
    let existing := pods_on existing_map node in
    victims ← select_preemption_victims_with_pdbs node pod existing pdbs;
    match node_fit node pod (resources_after_preemption existing victims) with
    | [] => Some (PreemptionCandidate_new (nd_name node) victims existing)
    | _ => None
    end.

Definition better_candidate (best : option PreemptionCandidate) (candidate : PreemptionCandidate)
  : option PreemptionCandidate :=
  if is_none_or best (fun current => is_better_than candidate current) then Some candidate else best.

Definition try_preemption (failed_nodes : list NodeFilterFailure) (pod : PodSchedulingConstraints)
    (existing_map : gmap string (list ExistingPod)) (all_reasons : list string)
    (pdbs : list PodDisruptionBudgetConstraint) : SchedulingDecision :=
  match fold_left better_candidate (omap (preemption_on pod existing_map pdbs) failed_nodes) None with
  | Some candidate => preempt_with_victims (ca_node_name candidate) (ca_victims candidate)
  | None =>
      failed_with_message all_reasons
        ("0/" +:+ to_string (Z.of_nat (length failed_nodes)) +:+ " nodes are available: "
         +:+ String.concat ", " all_reasons +:+ ".")
  end.

Definition build_inter_pod_affinity_context (nodes : list SchedulableNode)
    (existing_resources : list NodeExistingPods) (namespace_labels : gmap string Labels)
  : InterPodAffinityContext :=
  mkContext
    (flat_map (fun ne => (fun p => mkScheduledPod (ep_namespace p) (ep_name p) (ne_node_name ne) (ep_labels p))
                           <$> ne_pods ne) existing_resources)
    (collect_map ((fun node => (nd_name node, node)) <$> nodes))
    (collect_map ((fun node => (nd_name node, nd_labels node)) <$> nodes))
    namespace_labels.

Definition select_best_node_with_topology_spread (nodes : list SchedulableNode) (pod : PodSchedulingConstraints)
    (existing_resources : list (string * list PodResources)) (context : InterPodAffinityContext)
  : option string :=
  if forallb (fun c => match ts_when_unsatisfiable c with ScheduleAnyway => false | DoNotSchedule => true end)
       (pc_topology_spread_constraints pod)
  then select_best_node nodes pod existing_resources
  else
    let resource_map := collect_map existing_resources in
    select_by_score (fun node =>
      add64 (score_node node pod (unwrap_or [] (resource_map !! nd_name node)))
        (topology_spread_schedule_anyway_score node pod context)) nodes.

Definition schedule_multi_node_with_context (nodes : list SchedulableNode) (pod : PodSchedulingConstraints)
    (existing_resources : list NodeExistingPods) (namespace_labels : gmap string Labels)
    (pdbs : list PodDisruptionBudgetConstraint) : SchedulingDecision :=
  let existing_map := collect_map ((fun ne => (ne_node_name ne, ne_pods ne)) <$> existing_resources) in
  let context := build_inter_pod_affinity_context nodes existing_resources namespace_labels in
  let reasons_of node :=
    node_fit_with_context node pod (ep_resources <$> pods_on existing_map node) context in
  let fits node := match reasons_of node with [] => true | _ => false end in
  let failed_nodes := (fun node => mkFilterFailure node (reasons_of node))
                        <$> List.filter (fun node => negb (fits node)) nodes in
  let all_reasons := fold_left push_reason (flat_map nf_reasons failed_nodes) [] in
  match List.filter fits nodes with
  | [] => try_preemption failed_nodes pod existing_map all_reasons pdbs
  | fit_nodes =>
      match select_best_node_with_topology_spread fit_nodes pod
              ((fun ne => (ne_node_name ne, ep_resources <$> ne_pods ne)) <$> existing_resources) context with
      | Some name => success name
      | None => failed ["no node selected after scoring"]
      end
  end.

Definition select_preemption_victims (node : SchedulableNode) (pod : PodSchedulingConstraints)
    (existing : list ExistingPod) : option (list PreemptionVictim) :=
  select_preemption_victims_with_pdbs node pod existing [].

Definition schedule_multi_node (nodes : list SchedulableNode) (pod : PodSchedulingConstraints)
    (existing_resources : list NodeExistingPods) : SchedulingDecision :=
  schedule_multi_node_with_context nodes pod existing_resources ∅ [].

(** ** Selection *)

Lemma insert_by_perm {A} (le : A -> A -> bool) x l : insert_by le x l ≡ₚ x :: l.
Proof. induction l as [|y l IH]; simpl; [done|]. destruct (le x y); [done|]. rewrite IH. constructor. Qed.

Lemma sort_by_perm {A} (le : A -> A -> bool) l : sort_by le l ≡ₚ l.
Proof. induction l as [|x l IH]; simpl; [done|]. unfold sort_by in *. simpl. by rewrite insert_by_perm, IH. Qed.

(** The best nodes so far are those of the highest score, and some is kept. *)
Lemma best_fold score nodes :
  (forall n, i64_min <= score n) ->
  let '(best, s) := fold_left (best_step score) nodes ([], i64_min) in
  (forall n, n ∈ best <-> n ∈ nodes /\ score n = s) /\ (forall n, n ∈ nodes -> score n <= s)
  /\ (best = [] -> nodes = [] /\ s = i64_min).
Proof.
  intros Hmin. induction nodes as [|n nodes IH] using rev_ind.
  { split_and!; try done; intros n; rewrite elem_of_nil; tauto. }
  rewrite fold_left_app. destruct (fold_left (best_step score) nodes ([], i64_min)) as [best s].
  destruct IH as (Hbest & Hle & Hne). cbn [fold_left best_step].
  destruct (Z.compare_spec (score n) s) as [Heq|Hlt|Hgt].
  - split_and!.
    + intros m. rewrite !elem_of_app, !list_elem_of_singleton, Hbest. naive_solver.
    + intros m. rewrite elem_of_app, list_elem_of_singleton. intros [?| ->]; [auto|lia].
    + intros H. by apply app_nil in H as [_ ?].
  - split_and!.
    + intros m. rewrite Hbest, elem_of_app, list_elem_of_singleton. split; [tauto|].
      intros [[?| ->] ?]; [done|lia].
    + intros m. rewrite elem_of_app, list_elem_of_singleton. intros [?| ->]; [auto|lia].
    + intros [_ ->]%Hne. specialize (Hmin n). lia.
  - split_and!; [|intros m; rewrite elem_of_app, list_elem_of_singleton; intros [?%Hle| ->]; lia|done].
    intros m. rewrite list_elem_of_singleton, elem_of_app, list_elem_of_singleton. split.
    + intros ->. auto.
    + intros [[?%Hle| ->] ?]; [lia|done].
Qed.

Lemma min_by_name_spec nodes :
  match min_by_name nodes with
  | None => nodes = []
  | Some n => n ∈ nodes /\ forall m, m ∈ nodes -> str_leb (nd_name n) (nd_name m) = true
  end.
Proof.
  destruct nodes as [|n nodes]; [done|]. cbn [min_by_name]. induction nodes as [|m nodes IH] using rev_ind.
  { split; [by left|]. intros m ->%list_elem_of_singleton. apply str_leb_refl. }
  rewrite fold_left_app. cbn [fold_left]. set (b := fold_left _ nodes n) in *.
  destruct IH as [Hb Hle]. change (n :: nodes ++ [m])%list with ((n :: nodes) ++ [m])%list.
  destruct (str_leb (nd_name b) (nd_name m)) eqn:E.
  - split; [apply elem_of_app; by left|]. intros x. rewrite elem_of_app, list_elem_of_singleton.
    intros [?| ->]; auto.
  - assert (Hmb : str_leb (nd_name m) (nd_name b) = true)
      by (by destruct (str_leb_total (nd_name b) (nd_name m)); [congruence|]).
    split; [apply elem_of_app; right; by apply list_elem_of_singleton|].
    intros x. rewrite elem_of_app, list_elem_of_singleton. intros [Hx| ->]; [|apply str_leb_refl].
    eapply str_leb_trans; [exact Hmb|auto].
Qed.

(** Selection by score: a node of the highest score, the least name among them. *)
Lemma select_by_score_spec score nodes :
  (forall n, i64_min <= score n) ->
  match select_by_score score nodes with
  | None => nodes = []
  | Some name => exists n, n ∈ nodes /\ nd_name n = name
      /\ forall m, m ∈ nodes -> score m <= score n
                             /\ (score m = score n -> str_leb name (nd_name m) = true)
  end.
Proof.
  intros Hmin. unfold select_by_score. pose proof (best_fold score nodes Hmin) as Hfold.
  destruct (fold_left (best_step score) nodes ([], i64_min)) as [best s]. destruct Hfold as (Hbest & Hle & Hne).
  cbn [fst]. pose proof (min_by_name_spec best) as Hsel. destruct (min_by_name best) as [n|]; cbn.
  - destruct Hsel as [Hin Hleast]. pose proof (proj1 (Hbest n) Hin) as [Hn Hs].
    exists n. split_and!; try done. intros m Hm. rewrite Hs. split; [auto|]. intros Hsm.
    apply Hleast, Hbest. auto.
  - by apply Hne in Hsel as [? _].
Qed.

Lemma add64_min a b : i64_min <= add64 a b.
Proof.
  unfold add64, wrap_i64, i64_min.
  pose proof (Z.mod_pos_bound (a + b + 9223372036854775808) 18446744073709551616). lia.
Qed.

(** The score the pipeline ranks nodes by. *)
Definition pipeline_score (pod : PodSchedulingConstraints) (existing : list (string * list PodResources))
    (context : InterPodAffinityContext) (node : SchedulableNode) : Z :=
  let base := score_node node pod (unwrap_or [] (collect_map existing !! nd_name node)) in
  if forallb (fun c => match ts_when_unsatisfiable c with ScheduleAnyway => false | DoNotSchedule => true end)
       (pc_topology_spread_constraints pod)
  then base else add64 base (topology_spread_schedule_anyway_score node pod context).

(** A node of the highest score, the least name among equals. *)
Definition best_of (score : SchedulableNode -> Z) (nodes : list SchedulableNode) (n : SchedulableNode) : Prop :=
  n ∈ nodes /\ forall m, m ∈ nodes ->
    score m <= score n /\ (score m = score n -> str_leb (nd_name n) (nd_name m) = true).

(** Among fitting nodes the pipeline always selects a best one. *)
Lemma select_fitting_spec nodes pod existing context :
  match select_best_node_with_topology_spread nodes pod existing context with
  | None => nodes = []
  | Some name => exists n, nd_name n = name /\ best_of (pipeline_score pod existing context) nodes n
  end.
Proof.
  assert (Hsel : select_best_node_with_topology_spread nodes pod existing context
    = select_by_score (pipeline_score pod existing context) nodes).
  { unfold select_best_node_with_topology_spread, select_best_node, pipeline_score. by case_match. }
  rewrite Hsel. pose proof (select_by_score_spec (pipeline_score pod existing context) nodes) as Hspec.
  destruct (select_by_score _ nodes) as [name|]; [|apply Hspec].
  - destruct Hspec as (n & Hn & <- & Hbest); [|by exists n].
    intros n. unfold pipeline_score. case_match; [unfold score_node|]; apply add64_min.
  - intros n. unfold pipeline_score. case_match; [unfold score_node|]; apply add64_min.
Qed.

(** ** Victims *)

(** Every victim is one of the candidates, at least one is taken, and the request
    then fits by the loop's own account. *)
Lemma victim_loop_spec fuel node requested pdbs candidates allocated victims remaining result :
  victim_loop fuel node requested pdbs candidates allocated victims remaining = Some result ->
  exists vs, result = (victims ++ vs)%list /\ vs <> []
    /\ forall v, v ∈ vs -> exists c, c ∈ candidates /\ victim_of c = v.
Proof.
  revert candidates allocated victims remaining. induction fuel as [|fuel IH]; intros candidates allocated
    victims remaining; [done|]. cbn [victim_loop].
  set (sorted := sort_by (victim_order pdbs remaining) candidates).
  assert (Hperm : sorted ≡ₚ candidates) by apply sort_by_perm.
  destruct (position _ sorted) as [index|]; [|done]. cbn [mbind option_bind].
  destruct (sorted !! index) as [c|] eqn:Ec; [|done]. cbn [mbind option_bind].
  assert (Hc : c ∈ candidates) by (rewrite <- Hperm; by eapply list_elem_of_lookup_2).
  destruct (resource_fit_failures _ _ _).
  - intros [= <-]. exists [victim_of c]. split_and!; [done..|].
    intros v ->%list_elem_of_singleton. eauto.
  - intros (vs & -> & _ & Hvs)%IH. exists (victim_of c :: vs). split_and!; [by rewrite <- app_assoc|done|].
    intros v. rewrite elem_of_cons. intros [->|Hv]; [eauto|].
    destruct (Hvs _ Hv) as (c' & Hc' & <-). exists c'. split; [|done]. rewrite <- Hperm.
    apply list_elem_of_lookup in Hc' as [i Hi]. rewrite list_lookup_delete in Hi.
    case_decide; by eapply list_elem_of_lookup_2.
Qed.

(** The number of candidates is enough fuel: more of it changes nothing. *)
Lemma victim_loop_fuel fuel node requested pdbs candidates allocated victims remaining :
  (length candidates <= fuel)%nat ->
  victim_loop fuel node requested pdbs candidates allocated victims remaining
  = victim_loop (length candidates) node requested pdbs candidates allocated victims remaining.
Proof.
  remember (length candidates) as n eqn:Hn. revert fuel candidates Hn allocated victims remaining.
  induction n as [|n IH]; intros [|fuel] candidates Hn allocated victims remaining Hle; try done; [|lia|].
  { symmetry in Hn. by apply nil_length_inv in Hn as ->. }
  cbn [victim_loop]. set (sorted := sort_by (victim_order pdbs remaining) candidates).
  assert (Hlen : length sorted = S n) by (unfold sorted; by rewrite sort_by_perm).
  destruct (position _ sorted) as [index|]; [|done]. cbn [mbind option_bind].
  destruct (sorted !! index) as [c|] eqn:Ec; [|done]. cbn [mbind option_bind].
  destruct (resource_fit_failures _ _ _); [done|]. apply IH; [|lia].
  apply lookup_lt_Some in Ec as Hlt. rewrite length_delete; [lia|done].
Qed.

(** What makes a choice of victims acceptable. *)
Definition lawful_victims (node : SchedulableNode) (pod : PodSchedulingConstraints)
    (existing : list ExistingPod) (victims : list PreemptionVictim) : Prop :=
  pc_preemption_policy pod <> Some PreemptNever /\ victims <> []
  /\ (forall v, v ∈ victims -> exists p, p ∈ existing /\ victim_of p = v /\ ep_priority p < pc_priority pod)
  /\ node_fit node pod (resources_after_preemption existing victims) = [].

Lemma select_victims_spec node pod existing pdbs victims :
  select_preemption_victims_with_pdbs node pod existing pdbs = Some victims ->
  pc_preemption_policy pod <> Some PreemptNever /\ victims <> []
  /\ forall v, v ∈ victims -> exists p, p ∈ existing /\ victim_of p = v /\ ep_priority p < pc_priority pod.
Proof.
  unfold select_preemption_victims_with_pdbs. intros H.
  assert (Hpol : pc_preemption_policy pod <> Some PreemptNever).
  { intros Hp. by rewrite Hp in H. }
  split; [done|]. assert (Hloop : exists candidates allocated remaining fuel,
    victim_loop fuel node (pc_resources pod) pdbs candidates allocated [] remaining = Some victims
    /\ candidates ≡ₚ List.filter (fun p => ep_priority p <? pc_priority pod) existing).
  { destruct (pc_preemption_policy pod) as [[]|]; [|done|]; destruct (resource_fit_failures _ _ _);
      try done; do 4 eexists; (split; [exact H|apply sort_by_perm]). }
  destruct Hloop as (candidates & allocated & remaining & fuel & Hv & Hperm).
  apply victim_loop_spec in Hv as (vs & -> & Hne & Hvs). split; [done|]. cbn [app].
  intros v (c & Hc & <-)%Hvs. rewrite Hperm in Hc. apply list_elem_of_In, filter_In in Hc as [Hin Hp%Z.ltb_lt].
  exists c. by rewrite list_elem_of_In.
Qed.

Lemma preemption_on_spec pod existing_map pdbs failure candidate :
  preemption_on pod existing_map pdbs failure = Some candidate ->
  ca_node_name candidate = nd_name (nf_node failure)
  /\ lawful_victims (nf_node failure) pod (pods_on existing_map (nf_node failure)) (ca_victims candidate).
Proof.
  unfold preemption_on. destruct (negb _); [done|].
  destruct (select_preemption_victims_with_pdbs _ _ _ _) as [victims|] eqn:E; cbn [mbind option_bind]; [|done].
  destruct (node_fit _ _ _) eqn:Efit; [|done]. intros [= <-].
  apply select_victims_spec in E as (? & ? & ?). done.
Qed.

Lemma best_candidate_elem l best c :
  fold_left better_candidate l best = Some c -> c ∈ l \/ best = Some c.
Proof.
  revert best. induction l as [|x l IH]; intros best; cbn [fold_left]; [by right|].
  intros [Hin|Hb]%IH; [left; by right|]. unfold better_candidate in Hb.
  destruct (is_none_or _ _); [injection Hb as ->; left; by left|by right].
Qed.

(** Not being better is a total preorder. *)
Lemma not_better_trans x y z :
  is_better_than x y = false -> is_better_than y z = false -> is_better_than x z = false.
Proof.
  unfold is_better_than, then_with. intros Hxy Hyz.
  repeat case_match; try done;
    repeat match goal with
    | H : (_ ?= _) = Eq |- _ => apply Z.compare_eq_iff in H
    | H : (_ ?= _) = Lt |- _ => apply (proj1 (Z.compare_lt_iff _ _)) in H
    | H : (_ ?= _) = Gt |- _ => apply (proj1 (Z.compare_gt_iff _ _)) in H
    end; try lia;
    repeat match goal with
    | H : String.compare _ _ = Eq |- _ => apply str_compare_eq in H; rewrite H in *
    end; rewrite ?str_compare_refl in *; exfalso; try congruence.
  all: enough (Gt = Lt) by done; etrans; [symmetry|eassumption]; by eapply str_compare_trans.
Qed.

Lemma better_not_worse x y : is_better_than x y = true -> is_better_than y x = false.
Proof.
  unfold is_better_than, then_with.
  rewrite (Z.compare_antisym (ca_highest_victim_priority x)), (Z.compare_antisym (ca_priority_sum x)),
    (Z.compare_antisym (ca_victim_count x)), (String.compare_antisym (ca_node_name x)).
  by repeat (case_match; simplify_eq/=).
Qed.

Lemma not_better_refl x : is_better_than x x = false.
Proof. unfold is_better_than. by rewrite !Z.compare_refl, str_compare_refl. Qed.

(** The loop keeps a candidate no other one is better than. *)
Lemma best_candidate_least l best d :
  d ∈ l \/ best = Some d ->
  exists c, fold_left better_candidate l best = Some c /\ is_better_than d c = false.
Proof.
  revert best d. induction l as [|x l IH]; intros best d; cbn [fold_left].
  { intros [Hd| ->]; [by apply not_elem_of_nil in Hd|]. exists d. by rewrite not_better_refl. }
  rewrite elem_of_cons. intros Hd.
  assert (Hstep : d ∈ l \/ exists e, better_candidate best x = Some e /\ is_better_than d e = false).
  { destruct Hd as [[->|Hl]| ->]; [right|by left|right]; unfold better_candidate.
    - destruct (is_none_or best _) eqn:Eb; [exists x; auto using not_better_refl|].
      destruct best as [b|]; [exists b; auto|done].
    - cbn [is_none_or]. destruct (is_better_than x d) eqn:Eb; eauto using better_not_worse, not_better_refl. }
  destruct Hstep as [Hl|(e & He & Hde)]; [apply IH; by left|].
  destruct (IH (better_candidate best x) e) as (c & Hc & Hec); [by right|].
  exists c. split; [done|]. by eapply not_better_trans.
Qed.

(** ** The pipeline *)

Definition existing_by_node (existing : list NodeExistingPods) : gmap string (list ExistingPod) :=
  collect_map ((fun ne => (ne_node_name ne, ne_pods ne)) <$> existing).

(** The node passes every predicate with the pods it runs. *)
Definition fits (nodes : list SchedulableNode) (pod : PodSchedulingConstraints)
    (existing : list NodeExistingPods) (namespace_labels : gmap string Labels) (node : SchedulableNode) : bool :=
  match node_fit_with_context node pod (ep_resources <$> pods_on (existing_by_node existing) node)
          (build_inter_pod_affinity_context nodes existing namespace_labels) with
  | [] => true
  | _ => false
  end.

Lemma placed_best nodes pod existing namespace_labels pdbs :
  existsb (fits nodes pod existing namespace_labels) nodes = true ->
  exists n, schedule_multi_node_with_context nodes pod existing namespace_labels pdbs = success (nd_name n)
    /\ best_of (pipeline_score pod ((fun ne => (ne_node_name ne, ep_resources <$> ne_pods ne)) <$> existing)
                  (build_inter_pod_affinity_context nodes existing namespace_labels))
         (List.filter (fits nodes pod existing namespace_labels) nodes) n.
Proof.
  intros (node & Hin & Hfit)%existsb_exists. unfold schedule_multi_node_with_context.
  fold (existing_by_node existing).
  change (fun node => match node_fit_with_context node pod _ _ with [] => true | _ => false end)
    with (fits nodes pod existing namespace_labels).
  destruct (List.filter (fits nodes pod existing namespace_labels) nodes) as [|n0 l] eqn:Ef.
  { assert (Hf : In node (List.filter (fits nodes pod existing namespace_labels) nodes)) by (by apply filter_In).
    by rewrite Ef in Hf. }
  pose proof (select_fitting_spec (n0 :: l) pod
    ((fun ne => (ne_node_name ne, ep_resources <$> ne_pods ne)) <$> existing)
    (build_inter_pod_affinity_context nodes existing namespace_labels)) as Hsel.
  destruct (select_best_node_with_topology_spread _ _ _ _) as [name|]; [|done].
  destruct Hsel as (n & <- & Hbest). by exists n.
Qed.

(** C32.  The scheduler places a pod whenever some node fits: the decision then
    evicts nothing and names a fitting node of the highest score, the first by
    name among equals; it fails or preempts only when every node is unfit. *)
Theorem schedule_picks_best nodes pod existing namespace_labels pdbs :
  existsb (fits nodes pod existing namespace_labels) nodes = true ->
  exists n, schedule_multi_node_with_context nodes pod existing namespace_labels pdbs = success (nd_name n)
    /\ best_of (pipeline_score pod ((fun ne => (ne_node_name ne, ep_resources <$> ne_pods ne)) <$> existing)
                  (build_inter_pod_affinity_context nodes existing namespace_labels))
         (List.filter (fits nodes pod existing namespace_labels) nodes) n.
Proof. apply placed_best. Qed.

(** The failures the filter reports when no node fits. *)
Definition filter_failures (nodes : list SchedulableNode) (pod : PodSchedulingConstraints)
    (existing : list NodeExistingPods) (namespace_labels : gmap string Labels) : list NodeFilterFailure :=
  (fun node => mkFilterFailure node
     (node_fit_with_context node pod (ep_resources <$> pods_on (existing_by_node existing) node)
        (build_inter_pod_affinity_context nodes existing namespace_labels))) <$> nodes.

Lemma filter_all {A} (f : A -> bool) l : existsb f l = false ->
  List.filter f l = [] /\ List.filter (fun x => negb (f x)) l = l.
Proof.
  induction l as [|x l IH]; [done|]. cbn [existsb List.filter]. intros [-> H]%orb_false_iff.
  destruct (IH H) as [-> ->]. done.
Qed.

Lemma unfit_preempts nodes pod existing namespace_labels pdbs :
  existsb (fits nodes pod existing namespace_labels) nodes = false ->
  exists reasons, schedule_multi_node_with_context nodes pod existing namespace_labels pdbs
  = try_preemption (filter_failures nodes pod existing namespace_labels) pod (existing_by_node existing) reasons pdbs.
Proof.
  intros [Hnone Hall]%filter_all. unfold schedule_multi_node_with_context. fold (existing_by_node existing).
  change (fun node => match node_fit_with_context node pod _ _ with [] => true | _ => false end)
    with (fits nodes pod existing namespace_labels).
  rewrite Hnone.
  change (fun node => negb match node_fit_with_context node pod _ _ with [] => true | _ => false end)
    with (fun node => negb (fits nodes pod existing namespace_labels node)).
  rewrite Hall. eexists. done.
Qed.

Lemma placed_by_preemption nodes pod existing namespace_labels pdbs name :
  existsb (fits nodes pod existing namespace_labels) nodes = false ->
  sd_selected_node (schedule_multi_node_with_context nodes pod existing namespace_labels pdbs) = Some name ->
  exists node victims, node ∈ nodes /\ nd_name node = name
    /\ sd_preemption_victims (schedule_multi_node_with_context nodes pod existing namespace_labels pdbs)
       = victim_text <$> victims
    /\ lawful_victims node pod (pods_on (existing_by_node existing) node) victims.
Proof.
  intros Hnone. destruct (unfit_preempts _ _ _ _ pdbs Hnone) as [reasons ->].
  unfold try_preemption. destruct (fold_left better_candidate _ None) as [c|] eqn:Ec; [|done].
  cbn [sd_selected_node sd_preemption_victims preempt_with_victims]. intros [= <-].
  apply best_candidate_elem in Ec as [Hc|]; [|done].
  apply list_elem_of_omap in Hc as (failure & Hf & Hc). apply preemption_on_spec in Hc as [Hname Hlaw].
  apply list_elem_of_fmap in Hf as (node & -> & Hnode). by exists node, (ca_victims c).
Qed.


(** Preemption is complete and picks the least harm: when no node fits and
    some node offers a set of victims, the pod is placed by preemption, and no node
    offers victims that are better by the order of the code (the highest priority
    evicted, then the sum of the priorities, the number of victims and the name). *)
Theorem preemption_least nodes pod existing namespace_labels pdbs failure d :
  existsb (fits nodes pod existing namespace_labels) nodes = false ->
  failure ∈ filter_failures nodes pod existing namespace_labels ->
  preemption_on pod (existing_by_node existing) pdbs failure = Some d ->
  exists c, schedule_multi_node_with_context nodes pod existing namespace_labels pdbs
            = preempt_with_victims (ca_node_name c) (ca_victims c)
    /\ is_better_than d c = false
    /\ exists chosen, chosen ∈ filter_failures nodes pod existing namespace_labels
         /\ preemption_on pod (existing_by_node existing) pdbs chosen = Some c.
Proof.
  intros Hnone Hf Hd. destruct (unfit_preempts _ _ _ _ pdbs Hnone) as [reasons ->].
  destruct (best_candidate_least (omap (preemption_on pod (existing_by_node existing) pdbs)
    (filter_failures nodes pod existing namespace_labels)) None d) as (c & Hc & Hbetter).
  { left. apply list_elem_of_omap. eauto. }
  exists c. unfold try_preemption. rewrite Hc. repeat split; [done|].
  apply best_candidate_elem in Hc as [Hc|]; [|done]. apply list_elem_of_omap in Hc as (chosen & ? & ?). eauto.
Qed.

Lemma resources_after_none existing : resources_after_preemption existing [] = ep_resources <$> existing.
Proof.
  unfold resources_after_preemption. f_equal. induction existing as [|p l IH]; [done|].
  cbn [List.filter]. unfold is_victim at 1. rewrite bool_decide_eq_false_2 by apply not_elem_of_nil.
  cbn [negb]. by rewrite IH.
Qed.

(** Every node the pipeline selects passes the filter with the pods that stay. *)
Lemma placed_fits nodes pod existing namespace_labels pdbs name :
  sd_selected_node (schedule_multi_node_with_context nodes pod existing namespace_labels pdbs) = Some name ->
  exists node victims context, node ∈ nodes /\ nd_name node = name
    /\ sd_preemption_victims (schedule_multi_node_with_context nodes pod existing namespace_labels pdbs)
       = victim_text <$> victims
    /\ node_fit_with_context node pod
         (resources_after_preemption (pods_on (existing_by_node existing) node) victims) context = [].
Proof.
  intros Hsel. destruct (existsb (fits nodes pod existing namespace_labels) nodes) eqn:Hfits.
  - destruct (placed_best _ _ _ _ pdbs Hfits) as (node & Heq & Hbest & _). rewrite Heq in *.
    injection Hsel as <-. apply list_elem_of_In, filter_In in Hbest as [Hin Hfit].
    exists node, [], (build_inter_pod_affinity_context nodes existing namespace_labels).
    rewrite list_elem_of_In, resources_after_none. repeat split; [done|].
    unfold fits in Hfit. by destruct (node_fit_with_context _ _ _ _).
  - destruct (placed_by_preemption _ _ _ _ _ _ Hfits Hsel) as (node & victims & ? & ? & ? & _ & _ & _ & Hfit).
    by exists node, victims, default_context.
Qed.

(** ** What preemption does not reach *)

(** A pod with a required pod affinity never preempts: the node is checked again
    without the pods of the other nodes, where no affinity is met. *)
Lemma affinity_never_preempts pod existing_map pdbs failure :
  pc_required_pod_affinity pod <> [] -> preemption_on pod existing_map pdbs failure = None.
Proof.
  intros Hne. unfold preemption_on. case_match; [done|].
  destruct (select_preemption_victims_with_pdbs _ _ _ _); [|done]. cbn [mbind option_bind].
  destruct (node_fit _ _ _) eqn:Hfit; [|done]. exfalso. unfold node_fit, node_fit_with_context in Hfit.
  do 4 apply app_nil in Hfit as [_ Hfit]. apply app_nil in Hfit as [Haff _].
  apply if_nil in Haff. apply negb_false_iff in Haff. unfold required_pod_affinity_matches in Haff.
  by destruct (pc_required_pod_affinity pod).
Qed.

(** ** Witnesses *)

Definition cpu_pod (cpu : Z) : PodResources := mkPodResources cpu 64 ∅ [] 0 0.

Definition two_nodes : list SchedulableNode :=
  [plain_node "n1" (mkNodeResources 1000 4096 10 ∅); plain_node "n2" (mkNodeResources 1000 4096 10 ∅)].

(** One pod of 600m on each node, of priority 5 on [n1] and 3 on [n2]. *)
Definition running : list NodeExistingPods :=
  [mkNodeExistingPods "n1" [mkExistingPod "default" "web" 5 (cpu_pod 600) ∅];
   mkNodeExistingPods "n2" [mkExistingPod "default" "batch" 3 (cpu_pod 600) ∅]].

Lemma schedule_picks_best_witness :
  exists n, schedule_multi_node_with_context two_nodes (plain_pod 10 (cpu_pod 200)) running ∅ [] = success (nd_name n)
    /\ best_of (pipeline_score (plain_pod 10 (cpu_pod 200))
                  ((fun ne => (ne_node_name ne, ep_resources <$> ne_pods ne)) <$> running)
                  (build_inter_pod_affinity_context two_nodes running ∅))
         (List.filter (fits two_nodes (plain_pod 10 (cpu_pod 200)) running ∅) two_nodes) n.
Proof. apply (schedule_picks_best two_nodes (plain_pod 10 (cpu_pod 200)) running ∅ []). by vm_compute. Defined.


Lemma preemption_least_witness :
  exists c, schedule_multi_node_with_context two_nodes (plain_pod 10 (cpu_pod 800)) running ∅ []
            = preempt_with_victims (ca_node_name c) (ca_victims c)
    /\ is_better_than (mkCandidate "n1" [mkVictim "default" "web"] 5 5 1) c = false
    /\ exists chosen, chosen ∈ filter_failures two_nodes (plain_pod 10 (cpu_pod 800)) running ∅
         /\ preemption_on (plain_pod 10 (cpu_pod 800)) (existing_by_node running) [] chosen = Some c.
Proof.
  apply (preemption_least two_nodes (plain_pod 10 (cpu_pod 800)) running ∅ []
    (mkFilterFailure (plain_node "n1" (mkNodeResources 1000 4096 10 ∅)) ["Insufficient cpu"])).
  - by vm_compute.
  - apply list_elem_of_lookup_2 with 0%nat. by vm_compute.
  - by vm_compute.
Defined.

(** The pod of the lower priority is evicted. *)
Example evicts_lower_priority :
  schedule_multi_node_with_context two_nodes (plain_pod 10 (cpu_pod 800)) running ∅ []
  = preempt_with_victims "n2" [mkVictim "default" "batch"].
Proof. by vm_compute. Qed.

(** A node that is full by the number of its pods alone is reported as recoverable
    and no victim is taken, whatever the priorities. *)
Example full_by_count_not_preempted :
  let node := plain_node "n1" (mkNodeResources 1000 4096 1 ∅) in
  let existing := [mkNodeExistingPods "n1" [mkExistingPod "default" "web" 0 (cpu_pod 100) ∅]] in
  schedule_multi_node_with_context [node] (plain_pod 1000 (cpu_pod 100)) existing ∅ []
  = failed_with_message ["Too many pods"] "0/1 nodes are available: Too many pods."
  /\ preemption_recoverable_reason "Too many pods" = true.
Proof. by vm_compute. Qed.
