(* ===== verification/SchedAdapter.v ===== *)
(** * The scheduler on JSON objects

    [klights-controllers/src/scheduler/adapter.rs], the entry points on JSON of
    [engine.rs] and the quantity helpers of [types.rs]: the typed view of a node,
    a pod and a disruption budget is extracted from the stored objects, and the
    pipeline of [Preemption] decides on it.  Fields that are absent or of another
    type take the defaults of the code; entries that do not parse are left out. *)

From S2P Require Import Prelude Text Json Quantity Scheduler Preemption.
Local Open Scope string_scope.
Local Open Scope rs_scope.
Local Open Scope Z_scope.

(** ** Quantities *)

Definition parse_cpu_quantity (s : string) : Z := unwrap_or 0 (parse_resource_quantity "cpu" s).
Definition parse_memory_quantity (s : string) : Z := unwrap_or 0 (parse_resource_quantity "memory" s).
Definition parse_scalar_quantity (key s : string) : Z := unwrap_or 0 (parse_resource_quantity key s).

(** ** Maps and lists of strings *)

Definition string_entries (obj : Map) : Labels :=
  collect_map (omap (fun kv => s ← as_str kv.2; Some (kv.1, s)) obj).

Definition extract_labels (pod_value : Value) (toks : list string) : Labels :=
  unwrap_or ∅ (string_entries <$> pointer_object toks pod_value).

(** [v.get(k)], an array, each item mapped by a partial function. *)
Definition get_items {A} (k : string) (f : Value -> option A) (v : Value) : list A :=
  omap f (unwrap_or [] (get_array k v)).

Definition pointer_items {A} (toks : list string) (f : Value -> option A) (v : Value) : list A :=
  omap f (unwrap_or [] (pointer_array toks v)).

(** ** Taints, tolerations and selectors *)

Definition taint_effect (s : string) : option TaintEffect :=
  if s =?s "NoSchedule" then Some NoSchedule
  else if s =?s "PreferNoSchedule" then Some PreferNoSchedule
  else if s =?s "NoExecute" then Some NoExecute
  else None.

Definition extract_taint (v : Value) : option Taint :=
  key ← get_str "key" v;
  effect ← get_str "effect" v ≫= taint_effect;
  Some (mkTaint key (get_str "value" v) effect).

Definition extract_toleration (v : Value) : option Toleration :=
  let operator := if unwrap_or "" (get_str "operator" v) =?s "Exists" then TolExists else TolEqual in
  Some (mkToleration (get_str "key" v) (get_str "value" v) operator (get_str "effect" v ≫= taint_effect)).

Definition node_selector_operator (s : string) : option NodeSelectorOperator :=
  if s =?s "In" then Some NsIn
  else if s =?s "NotIn" then Some NsNotIn
  else if s =?s "Exists" then Some NsExists
  else if s =?s "DoesNotExist" then Some NsDoesNotExist
  else if s =?s "Gt" then Some NsGt
  else if s =?s "Lt" then Some NsLt
  else None.

Definition extract_node_selector_requirement (v : Value) : option NodeSelectorRequirement :=
  key ← get_str "key" v;
  operator ← get_str "operator" v ≫= node_selector_operator;
  Some (mkNsRequirement key operator (get_items "values" as_str v)).

Definition extract_node_selector_term (v : Value) : option NodeSelectorTerm :=
  Some (mkNsTerm (get_items "matchExpressions" extract_node_selector_requirement v)
                 (get_items "matchFields" extract_node_selector_requirement v)).

Definition extract_preferred_node_selector_term (v : Value) : option PreferredNodeSelectorTerm :=
  weight ← get "weight" v ≫= as_i64;
  preference ← get "preference" v ≫= extract_node_selector_term;
  Some (mkPreferred weight preference).

Definition label_selector_operator (s : string) : option LabelSelectorOperator :=
  if s =?s "In" then Some LsIn
  else if s =?s "NotIn" then Some LsNotIn
  else if s =?s "Exists" then Some LsExists
  else if s =?s "DoesNotExist" then Some LsDoesNotExist
  else None.

Definition extract_label_selector_requirement (v : Value) : option LabelSelectorRequirement :=
  key ← get_str "key" v;
  operator ← get_str "operator" v ≫= label_selector_operator;
  Some (mkLsRequirement key operator (get_items "values" as_str v)).

Definition extract_label_selector_term (v : Value) : option LabelSelectorTerm :=
  Some (mkLsTerm (unwrap_or ∅ (string_entries <$> (get "matchLabels" v ≫= as_object)))
                 (get_items "matchExpressions" extract_label_selector_requirement v)).

Definition extract_pod_affinity_term (v : Value) : option PodAffinityTerm :=
  topology_key ← get_str "topologyKey" v;
  Some (mkAffinity (get "labelSelector" v ≫= extract_label_selector_term)
          ((fun items : list Value => omap as_str items) <$> get_array "namespaces" v)
          (get "namespaceSelector" v ≫= extract_label_selector_term) topology_key).

Definition extract_node_inclusion_policy (v : option Value) : option NodeInclusionPolicy :=
  s ← v ≫= as_str;
  if s =?s "Honor" then Some Honor else if s =?s "Ignore" then Some Ignore else None.

Definition spread_action (s : string) : option SpreadAction :=
  if s =?s "DoNotSchedule" then Some DoNotSchedule
  else if s =?s "ScheduleAnyway" then Some ScheduleAnyway
  else None.

Definition extract_topology_spread_constraint (v : Value) : option TopologySpreadConstraint :=
  max_skew ← get "maxSkew" v ≫= as_i64;
  topology_key ← get_str "topologyKey" v;
  when_unsatisfiable ← get_str "whenUnsatisfiable" v ≫= spread_action;
  Some (mkSpread max_skew (get "minDomains" v ≫= as_i64) topology_key when_unsatisfiable
          (get "labelSelector" v ≫= extract_label_selector_term) (get_items "matchLabelKeys" as_str v)
          (unwrap_or Honor (extract_node_inclusion_policy (get "nodeAffinityPolicy" v)))
          (unwrap_or Ignore (extract_node_inclusion_policy (get "nodeTaintsPolicy" v)))).

(** ** Resources *)

(** Bytes in [KiB], rounded towards zero. *)
Definition bytes_ki (bytes : Z) : Z := Z.quot bytes 1024.

Definition standard_resource (key : string) : bool := (key =?s "cpu") || (key =?s "memory").

(** The scalar resources of a node, entry by entry. *)
Definition scalar_entry (kv : string * Value) : option (string * Z) :=
  if standard_resource kv.1 || (kv.1 =?s "pods") then None
  else
    q ← as_str kv.2;
    let parsed := parse_scalar_quantity kv.1 q in
    if 0 <? parsed then Some (kv.1, parsed) else None.

Definition resource_str (key : string) (resources : option Value) : option string :=
  v ← resources; get_str key v.

Definition memory_ki (q : string) : Z := bytes_ki (parse_memory_quantity q).

Definition extract_node_resources (node_value : Value) (toks : list string) : NodeResources :=
  let resources := pointer toks node_value in
  let entries : Map := unwrap_or [] (pointer_object toks node_value) in
  mkNodeResources
    (unwrap_or 0 (parse_cpu_quantity <$> resource_str "cpu" resources))
    (unwrap_or 0 (memory_ki <$> resource_str "memory" resources))
    (unwrap_or 0 (s ← resource_str "pods" resources; parse_i64 s))
    (collect_map (omap scalar_entry entries)).

(** One port of a container. *)
Definition extract_host_port (port : Value) : option HostPortRequest :=
  host_port ← get "hostPort" port ≫= as_i64;
  if negb ((1 <=? host_port) && (host_port <=? 65535)) then None
  else
    let non_empty s := if is_empty s then None else Some s in
    Some (mkHostPort host_port (unwrap_or "TCP" (get_str "protocol" port ≫= non_empty))
            (get_str "hostIP" port ≫= non_empty)).

Definition extract_host_port_requests (pod_value : Value) : list HostPortRequest :=
  flat_map (fun toks => flat_map (get_items "ports" extract_host_port)
                          (unwrap_or [] (pointer_array toks pod_value)))
    [["spec"; "initContainers"]; ["spec"; "containers"]].

(** The keys a container requests besides the standard ones. *)
Definition container_extended_keys (container : Value) : list string :=
  List.filter (fun key => negb (standard_resource key))
    (fst <$> unwrap_or [] (pointer_object ["resources"; "requests"] container)).

Definition extended_keys (pod_value : Value) : gset string :=
  list_to_set (flat_map (fun toks => flat_map container_extended_keys (unwrap_or [] (pointer_array toks pod_value)))
                 [["spec"; "containers"]; ["spec"; "initContainers"]]).

Definition extract_pod_extended_resources (pod_value : Value) : gmap string Z :=
  collect_map (omap (fun key =>
    let value := calculate_pod_effective_resource_for_key pod_value "requests" key in
    if 0 <? value then Some (key, value) else None) (elements (extended_keys pod_value))).

Definition extract_pod_resources (pod_value : Value) : PodResources :=
  mkPodResources
    (calculate_pod_effective_resource_for_key pod_value "requests" "cpu")
    (bytes_ki (calculate_pod_effective_resource_for_key pod_value "requests" "memory"))
    (extract_pod_extended_resources pod_value)
    (extract_host_port_requests pod_value)
    (unwrap_or 0 (parse_cpu_quantity <$> pointer_str ["spec"; "overhead"; "cpu"] pod_value))
    (unwrap_or 0 (memory_ki <$> pointer_str ["spec"; "overhead"; "memory"] pod_value)).

Definition extract_existing_pod_resources (pod_value : Value) : PodResources := extract_pod_resources pod_value.

(** ** Nodes and pods *)

Definition ready_condition (condition : Value) : bool :=
  (get_str "type" condition =?os Some "Ready") && (get_str "status" condition =?os Some "True").

Definition extract_schedulable_node (node_value : Value) : SchedulableNode :=
  mkNode (unwrap_or "" (pointer_str ["metadata"; "name"] node_value))
    (is_some_and (pointer_array ["status"; "conditions"] node_value) (existsb ready_condition))
    (unwrap_or false (v ← pointer ["spec"; "unschedulable"] node_value; as_bool v))
    (pointer_items ["spec"; "taints"] extract_taint node_value)
    (extract_labels node_value ["metadata"; "labels"])
    (extract_node_resources node_value ["status"; "allocatable"])
    (extract_node_resources node_value ["status"; "capacity"]).

Definition preemption_policy (s : string) : option PreemptionPolicy :=
  if s =?s "PreemptLowerPriority" then Some PreemptLowerPriority
  else if s =?s "Never" then Some PreemptNever
  else None.

Definition pod_priority (pod_value : Value) : Z :=
  unwrap_or 0 (v ← pointer ["spec"; "priority"] pod_value; as_i64 v).

Definition required_terms : string := "requiredDuringSchedulingIgnoredDuringExecution".

Definition extract_pod_constraints (pod_value : Value) : PodSchedulingConstraints :=
  let resources := extract_pod_resources pod_value in
  mkPodConstraints
    (unwrap_or "default" (pointer_str ["metadata"; "namespace"] pod_value))
    (extract_labels pod_value ["metadata"; "labels"])
    (extract_labels pod_value ["spec"; "nodeSelector"])
    (pointer_items ["spec"; "affinity"; "nodeAffinity"; required_terms; "nodeSelectorTerms"]
       extract_node_selector_term pod_value)
    (pointer_items ["spec"; "affinity"; "nodeAffinity"; "preferredDuringSchedulingIgnoredDuringExecution"]
       extract_preferred_node_selector_term pod_value)
    (pointer_items ["spec"; "affinity"; "podAffinity"; required_terms] extract_pod_affinity_term pod_value)
    (pointer_items ["spec"; "affinity"; "podAntiAffinity"; required_terms] extract_pod_affinity_term pod_value)
    (pointer_items ["spec"; "topologySpreadConstraints"] extract_topology_spread_constraint pod_value)
    (pointer_items ["spec"; "tolerations"] extract_toleration pod_value)
    resources
    (pr_host_port_requests resources)
    (pod_priority pod_value)
    (s ← pointer_str ["spec"; "priorityClassName"] pod_value; if is_empty s then None else Some s)
    (s ← pointer_str ["spec"; "preemptionPolicy"] pod_value; preemption_policy s).

Definition extract_existing_pod (pod_value : Value) : ExistingPod :=
  mkExistingPod (unwrap_or "default" (pointer_str ["metadata"; "namespace"] pod_value))
    (unwrap_or "" (pointer_str ["metadata"; "name"] pod_value))
    (pod_priority pod_value)
    (extract_pod_resources pod_value)
    (extract_labels pod_value ["metadata"; "labels"]).

(** ** Entry points *)

Definition extract_metadata_labels (value : Value) : Labels := extract_labels value ["metadata"; "labels"].

Definition extract_pdb_constraint (value : Value) : option PodDisruptionBudgetConstraint :=
  name ← pointer_str ["metadata"; "name"] value;
  selector ← extract_label_selector_term (unwrap_or Null (pointer ["spec"; "selector"] value));
  Some (mkPdb (unwrap_or "default" (pointer_str ["metadata"; "namespace"] value)) name selector
          (unwrap_or 0 (v ← pointer ["status"; "disruptionsAllowed"] value; as_i64 v))).

Definition namespace_entry (namespace : Value) : option (string * Labels) :=
  name ← pointer_str ["metadata"; "name"] namespace; Some (name, extract_metadata_labels namespace).

Definition existing_of (entry : string * list Value) : NodeExistingPods :=
  mkNodeExistingPods entry.1 (extract_existing_pod <$> entry.2).

Definition schedule_from_json_with_policy (nodes : list Value) (pod : Value)
    (existing_pods_per_node : list (string * list Value)) (namespaces pdbs : list Value) : SchedulingDecision :=
  schedule_multi_node_with_context (extract_schedulable_node <$> nodes) (extract_pod_constraints pod)
    (existing_of <$> existing_pods_per_node) (collect_map (omap namespace_entry namespaces))
    (omap extract_pdb_constraint pdbs).

Definition schedule_from_json_with_namespaces (nodes : list Value) (pod : Value)
    (existing_pods_per_node : list (string * list Value)) (namespaces : list Value) : SchedulingDecision :=
  schedule_from_json_with_policy nodes pod existing_pods_per_node namespaces [].

Definition schedule_from_json (nodes : list Value) (pod : Value)
    (existing_pods_per_node : list (string * list Value)) : SchedulingDecision :=
  schedule_from_json_with_policy nodes pod existing_pods_per_node [] [].

(** ** Ranges *)

Lemma parse_or_zero_range key s : 0 <= unwrap_or 0 (parse_resource_quantity key s) <= i64_max.
Proof.
  destruct (parse_resource_quantity key s) as [v|] eqn:E; cbn [unwrap_or]; [|by vm_compute].
  by eapply parse_resource_quantity_bounds.
Qed.

Lemma fmap_or_zero_range (f : string -> Z) (o : option string) :
  (forall s, 0 <= f s <= i64_max) -> 0 <= unwrap_or 0 (f <$> o) <= i64_max.
Proof. intros Hf. destruct o; cbn; [apply Hf|by vm_compute]. Qed.

Lemma sum_i64_upper l : sum_i64 l <= i64_max.
Proof.
  unfold sum_i64. destruct l as [|x l] using rev_ind; [by vm_compute|].
  rewrite fold_left_app. cbn [fold_left]. apply wrap_i64_range.
Qed.

(** The effective amount of a pod is non-negative even where its sum wraps. *)
Lemma effective_resource_range pod bucket key :
  0 <= calculate_pod_effective_resource_for_key pod bucket key <= i64_max.
Proof.
  unfold calculate_pod_effective_resource_for_key.
  pose proof (sum_i64_upper (containers_quantities pod ["spec"; "containers"] bucket key)).
  pose proof (containers_quantities_bounds pod ["spec"; "initContainers"] bucket key) as Hinit.
  assert (0 <= unwrap_or 0 (max_i64 (containers_quantities pod ["spec"; "initContainers"] bucket key)) <= i64_max).
  { destruct Hinit as [|x l Hx Hl]; cbn [max_i64 unwrap_or]; [by vm_compute|].
    revert x Hx. induction Hl as [|y l Hy Hl IH]; intros x Hx; cbn [fold_left]; [done|]. apply IH. lia. }
  lia.
Qed.

Lemma bytes_ki_bounds b : 0 <= b -> 0 <= bytes_ki b /\ 1024 * bytes_ki b <= b < 1024 * bytes_ki b + 1024.
Proof.
  intros Hb. unfold bytes_ki. pose proof (Z.quot_rem' b 1024). pose proof (Z.rem_bound_pos b 1024).
  pose proof (Z.quot_pos b 1024). lia.
Qed.

(** What the extracted amounts satisfy, whatever the object is. *)
Definition wf_port (p : HostPortRequest) : Prop :=
  1 <= hp_port p <= 65535 /\ hp_protocol p <> "" /\ hp_host_ip p <> Some "".

Definition wf_amounts (m : gmap string Z) : Prop :=
  forall key v, m !! key = Some v -> 0 < v <= i64_max /\ standard_resource key = false.

Record wf_resources (r : PodResources) : Prop := {
  wf_cpu : 0 <= pr_cpu_milli r <= i64_max;
  wf_memory : 0 <= pr_memory_ki r <= Z.quot i64_max 1024;
  wf_overhead_cpu : 0 <= pr_overhead_cpu_milli r <= i64_max;
  wf_overhead_memory : 0 <= pr_overhead_memory_ki r <= Z.quot i64_max 1024;
  wf_extended : wf_amounts (pr_extended r);
  wf_ports : Forall wf_port (pr_host_port_requests r)
}.

Record wf_node_resources (r : NodeResources) : Prop := {
  wf_node_cpu : 0 <= nr_cpu_milli r <= i64_max;
  wf_node_memory : 0 <= nr_memory_ki r <= Z.quot i64_max 1024;
  wf_node_pods : in_i64 (nr_pods r);
  wf_node_extended : wf_amounts (nr_extended r)
}.

Lemma bytes_ki_range b : 0 <= b <= i64_max -> 0 <= bytes_ki b <= Z.quot i64_max 1024.
Proof. intros Hb. unfold bytes_ki. split; [apply Z.quot_pos; lia|apply Z.quot_le_mono; lia]. Qed.

Lemma memory_ki_range o : 0 <= unwrap_or 0 (memory_ki <$> o) <= Z.quot i64_max 1024.
Proof. destruct o; cbn [fmap option_fmap option_map unwrap_or]; [|by vm_compute]. apply bytes_ki_range, parse_or_zero_range. Qed.

Lemma host_ports_wf pod_value : Forall wf_port (extract_host_port_requests pod_value).
Proof.
  apply Forall_forall. intros p Hp. unfold extract_host_port_requests in Hp.
  apply list_elem_of_In, in_flat_map in Hp as (toks & _ & Hp). apply in_flat_map in Hp as (container & _ & Hp).
  apply list_elem_of_In, list_elem_of_omap in Hp as (port & _ & Hp). unfold extract_host_port in Hp.
  apply bind_Some in Hp as (z & _ & Hp). destruct (negb _) eqn:Hr; [done|].
  apply negb_false_iff, andb_true_iff in Hr as [H1%Z.leb_le H2%Z.leb_le]. injection Hp as <-.
  repeat split; cbn [hp_port hp_protocol hp_host_ip]; [done..| |].
  - destruct (get_str "protocol" port) as [[|]|]; done.
  - destruct (get_str "hostIP" port) as [[|]|]; done.
Qed.

Lemma pod_extended_wf pod_value : wf_amounts (extract_pod_extended_resources pod_value).
Proof.
  intros key v H%collect_map_lookup. apply list_elem_of_omap in H as (k & Hk & H). cbv zeta in H.
  destruct (0 <? _) eqn:Hpos; [|done]. injection H as -> <-. apply Z.ltb_lt in Hpos.
  split; [split; [done|apply effective_resource_range]|].
  apply elem_of_elements, elem_of_list_to_set, list_elem_of_In, in_flat_map in Hk as (toks & _ & Hk).
  apply in_flat_map in Hk as (container & _ & Hk). apply filter_In in Hk as [_ Hk]. by apply negb_true_iff.
Qed.

Lemma node_extended_wf (entries : Map) : wf_amounts (collect_map (omap scalar_entry entries)).
Proof.
  intros key v H%collect_map_lookup. apply list_elem_of_omap in H as ([k w] & _ & H).
  unfold scalar_entry in H. cbn [fst snd] in H. destruct (standard_resource k) eqn:Hs; [done|]. cbn [orb] in H.
  case_match; [done|]. apply bind_Some in H as (q & _ & H). cbv zeta in H.
  destruct (0 <? _) eqn:Hpos; [|done]. injection H as <- <-. apply Z.ltb_lt in Hpos. split; [|done]. split; [done|apply parse_or_zero_range].
Qed.

Lemma pod_resources_wf pod_value : wf_resources (extract_pod_resources pod_value).
Proof.
  split; cbn.
  - apply effective_resource_range.
  - apply bytes_ki_range, effective_resource_range.
  - apply fmap_or_zero_range. intros s. apply parse_or_zero_range.
  - apply memory_ki_range.
  - apply pod_extended_wf.
  - apply host_ports_wf.
Qed.

Lemma node_resources_wf node_value toks : wf_node_resources (extract_node_resources node_value toks).
Proof.
  split; cbn [extract_node_resources nr_cpu_milli nr_memory_ki nr_pods nr_extended].
  - apply fmap_or_zero_range. intros s. apply parse_or_zero_range.
  - apply memory_ki_range.
  - destruct (resource_str "pods" _) as [s|]; cbn; [|by vm_compute].
    destruct (parse_i64 s) as [z|] eqn:Hz; cbn [unwrap_or]; [|by vm_compute].
    apply parse_i64_range in Hz. done.
  - apply node_extended_wf.
Qed.

Lemma as_i64_or_zero_range (o : option Value) : in_i64 (unwrap_or 0 (v ← o; as_i64 v)).
Proof.
  assert (H0 : in_i64 0) by done. destruct o as [[| |[z|]| | |]|]; try exact H0.
  change (unwrap_or 0 _) with (unwrap_or 0 (checked_i64 z)).
  destruct (checked_i64 z) eqn:Hz; [by eapply checked_i64_range|done].
Qed.

(** The typed view is well formed whatever JSON it is read from: the
    amounts of a pod and a node are non-negative and in range even where a sum of
    containers wraps, memory leaves room for [KiB] sums, scalar resources are
    positive and never named [cpu] or [memory], host ports are real ports with a
    protocol, and the ports checked for a pod are those recorded for it. *)
Theorem extracted_well_typed (node_value pod_value : Value) :
  wf_node_resources (nd_allocatable (extract_schedulable_node node_value))
  /\ wf_node_resources (nd_capacity (extract_schedulable_node node_value))
  /\ wf_resources (pc_resources (extract_pod_constraints pod_value))
  /\ pc_host_port_requests (extract_pod_constraints pod_value)
     = pr_host_port_requests (ep_resources (extract_existing_pod pod_value))
  /\ wf_resources (ep_resources (extract_existing_pod pod_value))
  /\ in_i64 (pc_priority (extract_pod_constraints pod_value))
  /\ pc_priority (extract_pod_constraints pod_value) = ep_priority (extract_existing_pod pod_value).
Proof.
  repeat apply conj; try done;
    apply node_resources_wf || apply pod_resources_wf || apply as_i64_or_zero_range.
Qed.

(** ** Placement on the objects *)

(** The memory a pod asks for and a node offers, in bytes as written. *)
Definition memory_bytes (pod_value : Value) : Z :=
  calculate_pod_effective_resource_for_key pod_value "requests" "memory"
  + unwrap_or 0 (parse_memory_quantity <$> pointer_str ["spec"; "overhead"; "memory"] pod_value).

Definition node_memory_bytes (node_value : Value) : Z :=
  unwrap_or 0 (parse_memory_quantity <$> resource_str "memory" (pointer ["status"; "allocatable"] node_value)).

Definition total_bytes (pods : list Value) : Z := foldr (fun p s => memory_bytes p + s) 0 pods.

(** The pods given for a node, and those of them that are not victims. *)
Definition running_on (existing : list (string * list Value)) (name : string) : list Value :=
  unwrap_or [] (collect_map existing !! name).

Definition staying (victims : list PreemptionVictim) (pods : list Value) : list Value :=
  List.filter (fun p => negb (is_victim victims (extract_existing_pod p))) pods.

Lemma pods_on_json existing node :
  pods_on (existing_by_node (existing_of <$> existing)) node = extract_existing_pod <$> running_on existing (nd_name node).
Proof.
  unfold pods_on, running_on, existing_by_node. rewrite <- list_fmap_compose.
  change (_ ∘ existing_of) with (fun kv : string * list Value => (kv.1, extract_existing_pod <$> kv.2)).
  rewrite (collect_map_fmap (fun ps : list Value => extract_existing_pod <$> ps)), lookup_fmap. by destruct (collect_map existing !! nd_name node).
Qed.

Lemma staying_json victims pods :
  resources_after_preemption (extract_existing_pod <$> pods) victims
  = extract_pod_resources <$> staying victims pods.
Proof.
  unfold resources_after_preemption, staying. induction pods as [|p l IH]; [done|].
  cbn [fmap list_fmap List.filter]. destruct (negb _); [|done]. cbn [fmap list_fmap]. by rewrite <- IH.
Qed.

Lemma parse_memory_bytes_ki o :
  1024 * unwrap_or 0 (memory_ki <$> o) <= unwrap_or 0 (parse_memory_quantity <$> o)
    < 1024 * unwrap_or 0 (memory_ki <$> o) + 1024.
Proof.
  destruct o as [q|]; cbn [fmap option_fmap option_map unwrap_or]; [|done].
  apply bytes_ki_bounds, parse_or_zero_range.
Qed.

Lemma memory_bytes_ki pod_value :
  memory_bytes pod_value <= 1024 * full_memory (extract_pod_resources pod_value) + 2046.
Proof.
  unfold memory_bytes, full_memory. cbn [extract_pod_resources pr_memory_ki pr_overhead_memory_ki].
  pose proof (parse_memory_bytes_ki (pointer_str ["spec"; "overhead"; "memory"] pod_value)).
  pose proof (bytes_ki_bounds _ (proj1 (effective_resource_range pod_value "requests" "memory"))). lia.
Qed.

Lemma total_bytes_ki pods :
  total_bytes pods <= 1024 * total full_memory (extract_pod_resources <$> pods) + 2046 * Z.of_nat (length pods).
Proof.
  induction pods as [|p l IH]; [done|]. pose proof (memory_bytes_ki p). unfold total_bytes, total in *.
  cbn [foldr fmap list_fmap length]. lia.
Qed.

(** Up to 512 pods the memory sums cannot wrap. *)
Lemma memory_in_range pods :
  (length pods <= 512)%nat -> in_range full_memory (extract_pod_resources <$> pods).
Proof.
  assert (Hone : forall p, 0 <= full_memory (extract_pod_resources p) <= 18014398509481982).
  { intros p. destruct (pod_resources_wf p). unfold full_memory. change (Z.quot i64_max 1024) with 9007199254740991 in *. lia. }
  intros Hlen. split; [apply Forall_fmap, Forall_forall; intros p _; apply Hone|].
  enough (total full_memory (extract_pod_resources <$> pods) <= 18014398509481982 * Z.of_nat (length pods)).
  { unfold i64_max. lia. }
  clear Hlen. unfold total. induction pods as [|p l IH]; [done|]. cbn [fmap list_fmap foldr length].
  specialize (Hone p). lia.
Qed.

(** What the objects of a node, the pod placed on it and the pods that stay
    there satisfy. *)
Record accepted (node_value pod : Value) (stay : list Value) : Prop := {
  accepted_ready : exists conditions, pointer_array ["status"; "conditions"] node_value = Some conditions
                     /\ existsb ready_condition conditions = true;
  accepted_schedulable : pointer ["spec"; "unschedulable"] node_value <> Some (Bool true);
  accepted_taints : forall t, t ∈ pointer_items ["spec"; "taints"] extract_taint node_value ->
    hard_taint t = true ->
    exists tol, tol ∈ pointer_items ["spec"; "tolerations"] extract_toleration pod /\ tolerates t tol = true;
  accepted_selector : forall k v, extract_labels pod ["spec"; "nodeSelector"] !! k = Some v ->
    extract_labels node_value ["metadata"; "labels"] !! k = Some v;
  accepted_slots : exists s n, resource_str "pods" (pointer ["status"; "allocatable"] node_value) = Some s
    /\ parse_i64 s = Some n /\ Z.of_nat (length (pod :: stay)) <= n;
  accepted_ports : host_port_conflict (extract_host_port_requests pod) (extract_pod_resources <$> stay) = false;
  accepted_memory : (length (pod :: stay) <= 512)%nat ->
    total_bytes (pod :: stay) <= node_memory_bytes node_value + 2046 * Z.of_nat (length (pod :: stay))
}.

Lemma labels_include_lookup labels required k v :
  labels_include labels required = true -> required !! k = Some v -> labels !! k = Some v.
Proof.
  unfold labels_include. intros H Hk%elem_of_map_to_list. rewrite forallb_forall in H.
  apply list_elem_of_In, H, bool_decide_eq_true in Hk. done.
Qed.

Lemma fit_accepted node_value pod stay context :
  node_fit_with_context (extract_schedulable_node node_value) (extract_pod_constraints pod)
    (extract_pod_resources <$> stay) context = [] ->
  accepted node_value pod stay.
Proof.
  intros Hfit. destruct (fit_predicates _ _ _ _ Hfit) as (Hready & Hcordon & Htaints & Hsel & _).
  destruct (fit_failures_nil _ _ _ (fit_no_failures _ _ _ _ Hfit)) as (_ & Hmem & Hslots & _ & Hports).
  split.
  - cbn [extract_schedulable_node nd_ready] in Hready. unfold is_some_and in Hready.
    destruct (pointer_array _ _) as [conditions|]; [by exists conditions|done].
  - intros Hp. cbn [extract_schedulable_node nd_unschedulable] in Hcordon. by rewrite Hp in Hcordon.
  - intros t Hin Hhard. specialize (Htaints t Hin Hhard). unfold tolerated in Htaints.
    apply existsb_exists in Htaints as (tol & Htol%list_elem_of_In & ?). eauto.
  - intros k v. apply andb_true_iff in Hsel as [Hsel _]. by apply labels_include_lookup.
  - rewrite length_fmap in Hslots. cbn [extract_schedulable_node nd_allocatable extract_node_resources nr_pods] in Hslots.
    destruct (resource_str "pods" _) as [s|] eqn:Hs; cbn [mbind option_bind unwrap_or] in Hslots; [|lia].
    destruct (parse_i64 s) as [n|] eqn:Hn; cbn [unwrap_or] in Hslots; [|lia].
    exists s, n. cbn [length]. split; [done|]. split; [exact Hn|lia].
  - exact Hports.
  - intros Hlen. pose proof (memory_in_range _ Hlen) as Hrange.
    change (extract_pod_resources <$> pod :: stay) with
      (extract_pod_resources pod :: (extract_pod_resources <$> stay)) in Hrange.
    cbn [extract_pod_constraints pc_resources] in Hmem.
    rewrite (effective_sum full_memory) in Hmem by (try done; apply effective_memory_full).
    pose proof (total_bytes_ki (pod :: stay)) as Hbytes.
    pose proof (parse_memory_bytes_ki (resource_str "memory" (pointer ["status"; "allocatable"] node_value))) as Hnode.
    cbn [extract_schedulable_node nd_allocatable extract_node_resources nr_memory_ki] in Hmem.
    unfold node_memory_bytes. cbn [fmap list_fmap] in Hbytes. unfold list_fmap in *. lia.
Qed.

Lemma json_placement nodes pod existing namespaces pdbs name :
  sd_selected_node (schedule_from_json_with_policy nodes pod existing namespaces pdbs) = Some name ->
  exists node_value victims, node_value ∈ nodes
    /\ unwrap_or "" (pointer_str ["metadata"; "name"] node_value) = name
    /\ sd_preemption_victims (schedule_from_json_with_policy nodes pod existing namespaces pdbs)
       = victim_text <$> victims
    /\ accepted node_value pod (staying victims (running_on existing name)).
Proof.
  intros (node & victims & context & Hin & Hname & Hvictims & Hfit)%placed_fits.
  apply list_elem_of_fmap in Hin as (node_value & -> & Hin). rewrite pods_on_json, staying_json, Hname in Hfit.
  exists node_value, victims. split; [done|]. split; [exact Hname|]. split; [exact Hvictims|].
  by eapply fit_accepted.
Qed.


(** A node object with the given amounts, and a pod of one container. *)
Definition node_object (name cpu memory pods : string) : Value :=
  Object [("metadata", Object [("name", Str name)]);
          ("status", Object [("allocatable", Object [("cpu", Str cpu); ("memory", Str memory); ("pods", Str pods)]);
                             ("conditions", Array [Object [("status", Str "True"); ("type", Str "Ready")]])])].

Definition pod_object (name cpu memory : string) (priority : Z) : Value :=
  Object [("metadata", Object [("name", Str name); ("namespace", Str "default")]);
          ("spec", Object [("containers", Array [Object [("resources",
             Object [("requests", Object [("cpu", Str cpu); ("memory", Str memory)])])]]);
             ("priority", Num (NInt priority))])].


(** Requests are rounded down to [KiB]: two pods of 1023 bytes fit a node of 1023 bytes. *)
Example memory_rounded_down :
  sd_selected_node (schedule_from_json [node_object "n1" "1" "1023" "10"] (pod_object "b" "1m" "1023" 0)
                      [("n1", [pod_object "a" "1m" "1023" 0])]) = Some "n1".
Proof. by vm_compute. Qed.

(** A request written as a JSON number is not counted. *)
Example numeric_request_ignored :
  let pod := Object [("spec", Object [("containers", Array [Object [("resources",
               Object [("requests", Object [("cpu", Num (NInt 64))])])]])])] in
  pr_cpu_milli (extract_pod_resources pod) = 0.
Proof. by vm_compute. Qed.
