(* ===== verification/SchedService.v ===== *)
(** * The scheduling service

    [klights-controllers/src/scheduler/service.rs] and [placement.rs]: the service
    that lists nodes and pods, asks the engine for a decision, checks it again
    against the live state, writes the binding and marks the victims.

    The service reaches the cluster through ports; [PodPorts] is their interface
    over a state of the world, and a handler is a state-passing computation that
    may fail ([M]).  Every port call may change the world, so other writers can be
    part of an instance.  The wall clock is the argument [transition_time]. *)

From Stdlib Require Import Sorted.
From S2P Require Import Prelude Text Json Watch StatusMerge Scheduler Preemption SchedAdapter.
Local Open Scope string_scope.
Local Open Scope rs_scope.
Local Open Scope Z_scope.

(** ** Ports *)

Inductive PodRepositoryError :=
| InvalidRequest (field message : string)
| NotFound (namespace name : string)
| UidMismatch (expected actual : string)
| AlreadyExists (message : string)
| Conflict (message : string)
| Forbidden (message : string)
| Unprocessable (message : string)
| Internal (message : string)
| Unavailable (message : string)
| CorruptResponse (message : string)
| Timeout
| Cancelled.

Inductive ResourceListScope := ClusterScope | AllNamespaces.

Record ReplaceRequest := mkReplace {
  rp_namespace : string; rp_name : string; rp_body : Value; rp_expected_resource_version : Z
}.

(** A computation on a world [W] that may fail. *)
Definition M (W A : Type) : Type := W -> result PodRepositoryError A * W.

Definition ret {W A} (a : A) : M W A := fun w => (Ok a, w).
Definition fail {W A} (e : PodRepositoryError) : M W A := fun w => (Err e, w).
Definition bind {W A B} (m : M W A) (k : A -> M W B) : M W B :=
  fun w => match m w with (Ok a, w') => k a w' | (Err e, w') => (Err e, w') end.

Notation "'let!' x := m 'in' k" := (bind m (fun x => k))
  (at level 10, x name, m at level 100, k at level 200) : rs_scope.
Notation "'do!' m 'in' k" := (bind m (fun _ => k))
  (at level 10, m at level 100, k at level 200) : rs_scope.

Class PodPorts (W : Type) := {
  list_pods : M W (list Resource);
  get_pod : string -> string -> M W (option Resource);
  list_resources : string -> string -> ResourceListScope -> W -> result string (list Resource) * W;
  replace_pod : ReplaceRequest -> M W Resource;
  replace_pod_including_status : ReplaceRequest -> M W Resource;
  write_pod_status : string -> string -> Value -> option Z -> M W Resource;
  enqueue_marked_retry : string -> string -> string -> Value -> M W unit;
  dispatch_resource_mutation_effects : Value -> Value -> W -> W;
  emit_pod_event : Value -> string -> string -> W -> W
}.

Definition validate_required (field value : string) : result PodRepositoryError unit :=
  if is_empty (trim value) then Err (InvalidRequest field "must not be empty") else Ok tt.

Definition lift {W A} (r : result PodRepositoryError A) : M W A := fun w => (r, w).

(** ** Objects *)

Definition pod_creation_timestamp (pod : Value) : string :=
  unwrap_or "" (pointer_str ["metadata"; "creationTimestamp"] pod).

Definition pod_namespace (pod : Resource) : string :=
  unwrap_or "default" (or_else (r_namespace pod) (pointer_str ["metadata"; "namespace"] (r_data pod))).

Definition compare_pod_scheduling_order (a b : Resource) : comparison :=
  then_with (pod_priority (r_data b) ?= pod_priority (r_data a))
    (then_with (String.compare (pod_creation_timestamp (r_data a)) (pod_creation_timestamp (r_data b)))
       (then_with (String.compare (pod_namespace a) (pod_namespace b)) (String.compare (r_name a) (r_name b)))).

Definition unbound (pod : Value) : bool := is_none_or (pointer_str ["spec"; "nodeName"] pod) is_empty.

Definition sorted_unbound_pods (pods : list Resource) : list Resource :=
  sort_by (fun a b => cmp_le (compare_pod_scheduling_order a b))
    (List.filter (fun pod => unbound (r_data pod)) pods).

Definition reserved_pod_body (pod : Resource) (node_name : string) : Value :=
  map_object (fun object => obj_alter (map_object (obj_insert "nodeName" (Str node_name))) "spec"
                              (obj_or_insert "spec" (Object []) object)) (r_data pod).

Definition pod_counts_toward_node_allocated (pod : Value) (node_name pending_namespace pending_name : string) : bool :=
  if opt_is_some (pointer_str ["metadata"; "deletionTimestamp"] pod)
     || negb (pointer_str ["spec"; "nodeName"] pod =?os Some node_name)
  then false
  else
    let namespace := unwrap_or "default" (pointer_str ["metadata"; "namespace"] pod) in
    let name := pointer_str ["metadata"; "name"] pod in
    if (namespace =?s pending_namespace) && (name =?os Some pending_name) then false
    else negb (terminal_phase (pointer_str ["status"; "phase"] pod)).

(** ** Decisions *)

Record PodPreemptionCandidate := mkPreempted {
  pp_namespace : string; pp_name : string; pp_resource_version : Z; pp_data : Value
}.

Record PodSchedulingDecision := mkDecision {
  de_node_name : option string;
  de_unschedulable_message : option string;
  de_preemption_victims : list PodPreemptionCandidate
}.

Definition scheduling_decision_to_api (decision : SchedulingDecision) : PodSchedulingDecision :=
  mkDecision (sd_selected_node decision) (sd_unschedulable_message decision)
    ((fun victim => let '(namespace, name) := match split_once "/" victim with
                                              | Some p => p
                                              | None => (victim, "")
                                              end in
                    mkPreempted namespace name 0 Null) <$> sd_preemption_victims decision).

(** The placement adapter hands the request to the engine. *)
Definition place_pod (nodes : list Value) (incoming_pod : Value) (existing : list (string * list Value))
    (namespaces disruption_budgets : list Value) : SchedulingDecision :=
  schedule_from_json_with_policy nodes incoming_pod existing namespaces disruption_budgets.

Section Service.
Context {W : Type} `{PodPorts W}.

Definition get_pod_by_name (namespace name : string) : M W (option Resource) :=
  do! lift (validate_required "pod.namespace" namespace) in
  do! lift (validate_required "pod.name" name) in
  get_pod namespace name.

Definition list_controller_resources (api_version kind : string) (scope : ResourceListScope)
  : M W (list Resource) :=
  fun w => match list_resources api_version kind scope w with
           | (Ok items, w') => (Ok items, w')
           | (Err message, w') => (Err (Unavailable message), w')
           end.

(** The pods of the list that are the victims, with their data. *)
Definition victim_candidates (node_name : string) (incoming_priority : Z) (victim_names : list string)
    (pods : list Resource) : list PodPreemptionCandidate :=
  omap (fun resource =>
    if negb (pod_counts_toward_node_allocated (r_data resource) node_name "" "")
       || (incoming_priority <=? pod_priority (r_data resource))
    then None
    else
      let namespace := pod_namespace resource in
      if contains_str victim_names (namespace +:+ "/" +:+ r_name resource)
      then Some (mkPreempted namespace (r_name resource) (r_resource_version resource) (r_data resource))
      else None) pods.

Definition collect_preemption_victims_with_data (node_name : string) (incoming : Value)
    (victim_names : list string) : M W (list PodPreemptionCandidate) :=
  let! pods := list_pods in
  ret (victim_candidates node_name (pod_priority incoming) victim_names pods).

Definition hydrate_preemption_victims (decision : PodSchedulingDecision) (incoming_pod : Value)
  : M W PodSchedulingDecision :=
  match de_preemption_victims decision, de_node_name decision with
  | [], _ | _, None => ret decision
  | victims, Some node_name =>
      let victim_keys := (fun v => pp_namespace v +:+ "/" +:+ pp_name v) <$> victims in
      let! hydrated := collect_preemption_victims_with_data node_name incoming_pod victim_keys in
      ret (mkDecision (de_node_name decision) (de_unschedulable_message decision) hydrated)
  end.

Definition explicit_node_name (pod : Value) : option string :=
  s ← pointer_str ["spec"; "nodeName"] pod; if is_empty s then None else Some s.

(** The pods that count towards each node, by name of the node. *)
Definition existing_per_node (nodes pods : list Resource) (reservations : list Value) (namespace pod_name : string)
  : list (string * list Value) :=
  (fun node_name =>
     let counts pod := pod_counts_toward_node_allocated pod node_name namespace pod_name in
     (node_name, (List.filter counts (r_data <$> pods) ++ List.filter counts reservations)%list))
  <$> sort_by str_leb (r_name <$> nodes).

Record PodSchedulingView := mkView {
  vw_nodes : list Resource; vw_pods : list Resource; vw_namespaces : list Resource; vw_pdbs : list Resource
}.

(** The decision on given lists. *)
Definition decide_on (view : PodSchedulingView) (reservations : list Value) (pod : Value) (namespace pod_name : string)
  : SchedulingDecision :=
  place_pod (r_data <$> vw_nodes view) pod
    (existing_per_node (vw_nodes view) (vw_pods view) reservations namespace pod_name)
    (r_data <$> vw_namespaces view) (r_data <$> vw_pdbs view).

Definition schedule_pod_from_snapshot (snapshot : PodSchedulingView) (pod : Value) (namespace pod_name : string)
    (reservations : list Value) : M W PodSchedulingDecision :=
  match explicit_node_name pod with
  | Some node_name => ret (mkDecision (Some node_name) None [])
  | None =>
      hydrate_preemption_victims
        (scheduling_decision_to_api (decide_on snapshot reservations pod namespace pod_name)) pod
  end.

Definition schedule_pod_on_available_nodes (pod : Value) (namespace pod_name : string) : M W PodSchedulingDecision :=
  match explicit_node_name pod with
  | Some node_name => ret (mkDecision (Some node_name) None [])
  | None =>
      let! nodes := list_controller_resources "v1" "Node" ClusterScope in
      let! namespaces := list_controller_resources "v1" "Namespace" ClusterScope in
      let! pdbs := list_controller_resources "policy/v1" "PodDisruptionBudget" AllNamespaces in
      let! all_pods := list_pods in
      hydrate_preemption_victims
        (scheduling_decision_to_api (decide_on (mkView nodes all_pods namespaces pdbs) [] pod namespace pod_name)) pod
  end.

Definition scheduler_snapshot : M W PodSchedulingView :=
  let! nodes := list_controller_resources "v1" "Node" ClusterScope in
  let! pods := list_pods in
  let! namespaces := list_controller_resources "v1" "Namespace" ClusterScope in
  let! pdbs := list_controller_resources "policy/v1" "PodDisruptionBudget" AllNamespaces in
  ret (mkView nodes pods namespaces pdbs).

Definition planned_node_still_fits (namespace name : string) (pod : Value) (planned_node : string) : M W bool :=
  let! live_decision := schedule_pod_on_available_nodes pod namespace name in
  ret (de_node_name live_decision =?os Some planned_node).

(** ** Marking the victims *)

Definition mark_pod_preempted_metadata (data : Value) (transition_time : string) : Value :=
  get_mut "metadata" (map_object (fun metadata =>
    obj_or_insert "deletionGracePeriodSeconds" (Num (NInt 0))
      (obj_or_insert "deletionTimestamp" (Str transition_time) metadata))) data.

Definition scheduled_true (transition_time : string) : Value :=
  Object [("lastTransitionTime", Str transition_time); ("status", Str "True"); ("type", Str "PodScheduled")].

Definition disruption_target (preemptor_namespace preemptor_name transition_time : string) : Value :=
  Object [("lastTransitionTime", Str transition_time);
          ("message", Str ("Preempted by pod " +:+ preemptor_namespace +:+ "/" +:+ preemptor_name +:+ " on node"));
          ("reason", Str "PreemptionByScheduler"); ("status", Str "True"); ("type", Str "DisruptionTarget")].

Definition has_bound_node (data : Value) : bool :=
  is_some_and (pointer_str ["spec"; "nodeName"] data) (fun node_name => negb (is_empty node_name)).

(** The conditions of a preempted pod. *)
Definition preempted_conditions (bound : bool) (condition : Value) (transition_time : string) (conditions : list Value)
  : list Value :=
  let pod_scheduled_true :=
    if bound
    then [unwrap_or (scheduled_true transition_time)
            (List.find (fun c => has_type "PodScheduled" c && (get_str "status" c =?os Some "True")) conditions)]
    else [] in
  (List.filter (fun c => negb (has_type "DisruptionTarget" c) && (negb bound || negb (has_type "PodScheduled" c)))
     conditions ++ pod_scheduled_true ++ [condition])%list.

Definition preempted_status (data : Value) (preemptor_namespace preemptor_name transition_time : string) : Value :=
  let status := match get "status" data with Some (Object m) => m | _ => [] end in
  let rewrite v := match v with
                   | Array conditions =>
                       Array (preempted_conditions (has_bound_node data)
                                (disruption_target preemptor_namespace preemptor_name transition_time)
                                transition_time conditions)
                   | _ => v
                   end in
  Object (obj_alter rewrite "conditions" (obj_or_insert "conditions" (Array []) status)).

(** The body written for a victim. *)
Definition preempted_body (data : Value) (preemptor_namespace preemptor_name transition_time : string) : Value :=
  let data := mark_pod_preempted_metadata data transition_time in
  let status := merge_pod_status_for_update "v1" "Pod" data
                  (preempted_status data preemptor_namespace preemptor_name transition_time) SchedulerOwner in
  map_object (obj_insert "status" status) data.

Definition is_conflict (e : PodRepositoryError) : bool := match e with Conflict _ => true | _ => false end.

(** The retry loop, [attempts] of them to go; the last one does not retry.  [None]
    is the end of the loop, which the code declares unreachable. *)
Fixpoint mark_loop (attempts : nat) (namespace name preemptor_namespace preemptor_name transition_time : string)
    (resource_version : Z) (data : Value) : M W (option Resource) :=
  match attempts with
  | O => ret None
  | S more =>
      fun w =>
        match replace_pod_including_status
                (mkReplace namespace name (preempted_body data preemptor_namespace preemptor_name transition_time)
                   resource_version) w with
        | (Ok updated, w') => (Ok (Some updated), w')
        | (Err error, w') =>
            if (0 <? more)%nat && is_conflict error
            then (let! current := get_pod_by_name namespace name in
                  match current with
                  | None => fail (NotFound namespace name)
                  | Some current =>
                      mark_loop more namespace name preemptor_namespace preemptor_name transition_time
                        (r_resource_version current) (r_data current)
                  end) w'
            else (Err error, w')
        end
  end.

Definition MAX_RETRIES : nat := 5.

Definition mark_preemption_candidate (victim : PodPreemptionCandidate)
    (preemptor_namespace preemptor_name transition_time : string) : M W (option Resource) :=
  mark_loop MAX_RETRIES (pp_namespace victim) (pp_name victim) preemptor_namespace preemptor_name transition_time
    (pp_resource_version victim) (pp_data victim).

Definition effects (new old : Value) : M W unit := fun w => (Ok tt, dispatch_resource_mutation_effects new old w).

(** A victim of which the loop ran out would stop the task; the remaining ones are
    then not marked, as after an error. *)
Fixpoint apply_pod_preemption (victims : list PodPreemptionCandidate)
    (preemptor_namespace preemptor_name transition_time : string) : M W unit :=
  match victims with
  | [] => ret tt
  | victim :: rest =>
      let! marked := mark_preemption_candidate victim preemptor_namespace preemptor_name transition_time in
      match marked with
      | None => fail (Internal "preemption termination retry loop exhausted without returning")
      | Some updated =>
          do! enqueue_marked_retry (pp_namespace victim) (pp_name victim) (r_uid updated) (r_data updated) in
          do! effects (r_data updated) (pp_data victim) in
          apply_pod_preemption rest preemptor_namespace preemptor_name transition_time
      end
  end.

(** ** Binding *)

Definition unschedulable_condition (message transition_time : string) : Value :=
  Object [("lastTransitionTime", Str transition_time); ("message", Str message); ("reason", Str "Unschedulable");
          ("status", Str "False"); ("type", Str "PodScheduled")].

Definition decided_body (body : Value) (decision : PodSchedulingDecision) (transition_time : string) : Value :=
  let with_spec := get_mut "spec" (map_object (fun spec =>
    match de_node_name decision with
    | Some node_name => obj_insert "nodeName" (Str node_name) spec
    | None => obj_remove "nodeName" spec
    end)) body in
  let condition := match de_unschedulable_message decision with
                   | Some message => unschedulable_condition message transition_time
                   | None => scheduled_true transition_time
                   end in
  get_mut "status" (map_object (fun status =>
    obj_alter (fun v => match v with
                        | Array conditions =>
                            Array (List.filter (fun c => negb (has_type "PodScheduled" c)) conditions ++ [condition])
                        | _ => v
                        end) "conditions" (obj_or_insert "conditions" (Array []) status))) with_spec.

Definition condition_string_field (condition : Value) (field : string) : option string :=
  s ← get_str field condition; if is_empty s then None else Some s.

Definition pod_scheduled_condition_signature (status : option Value)
  : option (string * option string * option string) :=
  conditions ← (v ← status; get_array "conditions" v);
  condition ← List.find (has_type "PodScheduled") conditions;
  status_text ← condition_string_field condition "status";
  Some (status_text, condition_string_field condition "reason", condition_string_field condition "message").

Definition pod_scheduled_condition_changed (current_pod desired_status : Value) : bool :=
  negb (bool_decide (pod_scheduled_condition_signature (get "status" current_pod)
                     = pod_scheduled_condition_signature (Some desired_status))).

Definition allocation_changed : PodSchedulingDecision :=
  mkDecision None (Some "node allocation changed before scheduler bind") [].

(** The decision, unless the planned node is no longer the one chosen. *)
Definition recheck (namespace name : string) (pod : Value) (decision : PodSchedulingDecision)
  : M W PodSchedulingDecision :=
  match de_node_name decision with
  | None => ret decision
  | Some node_name =>
      let! fits := planned_node_still_fits namespace name pod node_name in
      ret (if fits then decision else allocation_changed)
  end.

(** The writes of a decided body. *)
Definition write_decided (namespace name : string) (current : Resource) (body : Value) : M W (Resource * bool) :=
  let desired_status := get "status" body in
  let spec_changed := negb (opt_eqb value_eqb (get "spec" body) (get "spec" (r_data current))) in
  let status_changed := is_some_and desired_status (pod_scheduled_condition_changed (r_data current)) in
  let request := mkReplace namespace name body (r_resource_version current) in
  let! written := if spec_changed && status_changed then replace_pod_including_status request
                  else if spec_changed then replace_pod request
                  else ret current in
  let! final := match desired_status with
                | Some status =>
                    if status_changed && negb spec_changed
                    then write_pod_status namespace name status (Some (r_resource_version written))
                    else ret written
                | None => ret written
                end in
  ret (final, status_changed).

Definition emit (pod : Value) (message : string) (instance : string) : M W unit :=
  fun w => (Ok tt, emit_pod_event pod message instance w).

(** Writing a decision: the binding first, then the victims, then the event. *)
Definition commit_decision (namespace name : string) (current : Resource) (decision : PodSchedulingDecision)
    (transition_time : string) : M W (option Resource) :=
  let! written := write_decided namespace name current (decided_body (r_data current) decision transition_time) in
  do! apply_pod_preemption (de_preemption_victims decision) namespace name transition_time in
  do! match de_unschedulable_message decision with
      | Some message =>
          if snd written then emit (r_data (fst written)) message (unwrap_or "" (de_node_name decision)) else ret tt
      | None => ret tt
      end in
  ret (Some (fst written)).

Definition apply_scheduling_decision_to_pod (namespace name : string) (current : Resource)
    (decision : PodSchedulingDecision) (transition_time : string) : M W (option Resource) :=
  let! decision := recheck namespace name (r_data current) decision in
  commit_decision namespace name current decision transition_time.

Definition schedule_pending_pod_with_decision (namespace name : string) (decision : PodSchedulingDecision)
    (transition_time : string) : M W (option Resource) :=
  let! found := get_pod_by_name namespace name in
  match found with
  | None => ret None
  | Some current =>
      if has_bound_node (r_data current) then ret (Some current)
      else apply_scheduling_decision_to_pod namespace name current decision transition_time
  end.

Definition schedule_pending_pod (namespace name transition_time : string) : M W (option Resource) :=
  let! found := get_pod_by_name namespace name in
  match found with
  | None => ret None
  | Some current =>
      if has_bound_node (r_data current) then ret (Some current)
      else
        let! decision := schedule_pod_on_available_nodes (r_data current) namespace name in
        apply_scheduling_decision_to_pod namespace name current decision transition_time
  end.

(** ** Waves *)

Definition SCHED_BIND_CONCURRENCY : nat := 8.

(** The decisions of a wave: each pod placed reserves its node for the next ones. *)
Fixpoint plan_wave (snapshot : PodSchedulingView) (wave : list Resource) (reservations : list Value)
  : M W (list (Resource * PodSchedulingDecision)) :=
  match wave with
  | [] => ret []
  | pod :: rest =>
      let! decision := schedule_pod_from_snapshot snapshot (r_data pod) (pod_namespace pod) (r_name pod) reservations in
      let reservations := match de_node_name decision with
                          | Some node_name => (reservations ++ [reserved_pod_body pod node_name])%list
                          | None => reservations
                          end in
      let! planned := plan_wave snapshot rest reservations in
      ret ((pod, decision) :: planned)
  end.

End Service.

(** ** Order *)

Lemma then_with_opp c d : CompOpp (then_with c d) = then_with (CompOpp c) (CompOpp d).
Proof. by destruct c. Qed.

Lemma compare_order_antisym a b :
  compare_pod_scheduling_order b a = CompOpp (compare_pod_scheduling_order a b).
Proof.
  unfold compare_pod_scheduling_order. rewrite !then_with_opp, <- Z.compare_antisym.
  by rewrite <- !String.compare_antisym.
Qed.

Lemma insert_by_sorted {A} (le : A -> A -> bool) x l :
  (forall y z, le y z = false -> le z y = true) ->
  Sorted (fun y z => le y z = true) l -> Sorted (fun y z => le y z = true) (insert_by le x l).
Proof.
  intros Htotal. induction l as [|y l IH]; intros Hs; cbn [insert_by]; [by repeat constructor|].
  destruct (le x y) eqn:E; [by constructor; [|constructor]|]. apply Sorted_inv in Hs as [Hs Hy].
  constructor; [by apply IH|]. destruct l as [|z l]; cbn [insert_by]; [constructor; auto|].
  inversion Hy; subst. destruct (le x z); constructor; auto.
Qed.

Lemma sort_by_sorted {A} (le : A -> A -> bool) l :
  (forall y z, le y z = false -> le z y = true) -> Sorted (fun y z => le y z = true) (sort_by le l).
Proof. intros Htotal. induction l as [|x l IH]; [constructor|]. by apply insert_by_sorted. Qed.

Lemma sorted_weaken {A} (R S : A -> A -> Prop) l : (forall x y, R x y -> S x y) -> Sorted R l -> Sorted S l.
Proof. intros HRS. induction 1 as [|x l _ IH Hx]; constructor; [done|]. destruct Hx; constructor; auto. Qed.

(** Pods are scheduled by priority: the service takes exactly the pods without
    a node, those of a higher priority before those of a lower one. *)
Theorem unbound_by_priority pods :
  sorted_unbound_pods pods ≡ₚ List.filter (fun pod => unbound (r_data pod)) pods
  /\ StronglySorted (fun a b => pod_priority (r_data b) <= pod_priority (r_data a)) (sorted_unbound_pods pods).
Proof.
  split; [apply sort_by_perm|]. apply Sorted_StronglySorted; [intros ???; lia|].
  eapply sorted_weaken; [|apply sort_by_sorted].
  - intros a b Hle. cbn beta in Hle. unfold cmp_le, compare_pod_scheduling_order, then_with in Hle.
    destruct (Z.compare_spec (pod_priority (r_data b)) (pod_priority (r_data a))); [lia|lia|done].
  - intros a b. rewrite (compare_order_antisym a b). by destruct (compare_pod_scheduling_order a b).
Qed.

(** ** Placement on the lists that were read *)

(** The stored name of a node is the one in its object. *)
Definition named_nodes (nodes : list Resource) : Prop :=
  Forall (fun node => pointer_str ["metadata"; "name"] (r_data node) = Some (r_name node)) nodes.

(** The pods and reservations that count towards a node for a pending pod. *)
Definition counted (pods : list Resource) (reservations : list Value) (node_name namespace pod_name : string)
  : list Value :=
  let counts pod := pod_counts_toward_node_allocated pod node_name namespace pod_name in
  (List.filter counts (r_data <$> pods) ++ List.filter counts reservations)%list.

Lemma collect_map_keyed {A} (f : string -> A) l n : n ∈ l -> collect_map ((fun k => (k, f k)) <$> l) !! n = Some (f n).
Proof.
  intros Hn. destruct (collect_map_is_Some ((fun k => (k, f k)) <$> l) n (f n)) as [v Hv].
  { apply list_elem_of_fmap. eauto. }
  apply collect_map_lookup in Hv as Hin. apply list_elem_of_fmap in Hin as (k & [= -> ->] & _). done.
Qed.

(** What it means that the lists accept a pod on a node. *)
Definition placed_well (view : PodSchedulingView) (reservations : list Value) (pod : Value)
    (namespace pod_name node_name : string) : Prop :=
  exists node victims, node ∈ vw_nodes view /\ r_name node = node_name
    /\ accepted (r_data node) pod
         (staying victims (counted (vw_pods view) reservations node_name namespace pod_name)).

Lemma decide_on_sound view reservations pod namespace pod_name node_name :
  named_nodes (vw_nodes view) ->
  sd_selected_node (decide_on view reservations pod namespace pod_name) = Some node_name ->
  placed_well view reservations pod namespace pod_name node_name.
Proof.
  intros Hnamed (node_value & victims & Hin & Hname & _ & Hacc)%json_placement.
  apply list_elem_of_fmap in Hin as (node & -> & Hin).
  assert (Hn : pointer_str ["metadata"; "name"] (r_data node) = Some (r_name node)) by (by eapply Forall_forall in Hnamed).
  rewrite Hn in Hname. cbn [unwrap_or] in Hname. exists node, victims. split; [done|]. split; [done|].
  unfold running_on, existing_per_node in Hacc.
  rewrite (collect_map_keyed (fun n => counted (vw_pods view) reservations n namespace pod_name)) in Hacc; [done|].
  rewrite sort_by_perm. apply list_elem_of_fmap. eauto.
Qed.

Section Soundness.
Context {W : Type} `{PodPorts W}.
Implicit Types (w : W).

(** The lists a decision on the live state is made of. *)
Definition read_view : M W PodSchedulingView :=
  let! nodes := list_controller_resources "v1" "Node" ClusterScope in
  let! namespaces := list_controller_resources "v1" "Namespace" ClusterScope in
  let! pdbs := list_controller_resources "policy/v1" "PodDisruptionBudget" AllNamespaces in
  let! all_pods := list_pods in
  ret (mkView nodes all_pods namespaces pdbs).

Lemma bind_Ok {A B} (m : M W A) (k : A -> M W B) w b w' :
  bind m k w = (Ok b, w') -> exists a w1, m w = (Ok a, w1) /\ k a w1 = (Ok b, w').
Proof. unfold bind. destruct (m w) as [[a|e] w1]; [eauto|done]. Qed.

Lemma hydrate_node decision pod w d w' :
  hydrate_preemption_victims decision pod w = (Ok d, w') -> de_node_name d = de_node_name decision.
Proof.
  unfold hydrate_preemption_victims. destruct (de_preemption_victims decision); [by intros [= <-]|].
  destruct (de_node_name decision) eqn:Hn; [|by intros [= <-]].
  intros (victims & w1 & _ & [= <- _])%bind_Ok. done.
Qed.

Lemma available_nodes_view pod namespace pod_name w d w' :
  explicit_node_name pod = None ->
  schedule_pod_on_available_nodes pod namespace pod_name w = (Ok d, w') ->
  exists view w1, read_view w = (Ok view, w1)
    /\ de_node_name d = sd_selected_node (decide_on view [] pod namespace pod_name).
Proof.
  intros Hnone. unfold schedule_pod_on_available_nodes, read_view. rewrite Hnone.
  intros (nodes & w1 & H1 & (namespaces & w2 & H2 & (pdbs & w3 & H3 & (pods & w4 & H4 & Hd)%bind_Ok)%bind_Ok)%bind_Ok)%bind_Ok.
  exists (mkView nodes pods namespaces pdbs), w4. unfold bind at 1. rewrite H1. unfold bind at 1. rewrite H2.
  unfold bind at 1. rewrite H3. unfold bind at 1. rewrite H4. split; [done|]. by apply hydrate_node in Hd.
Qed.

Lemma not_bound_explicit pod : has_bound_node pod = false -> explicit_node_name pod = None.
Proof.
  unfold has_bound_node, explicit_node_name. destruct (pointer_str _ pod) as [s|]; [|done]. cbn.
  by destruct (is_empty s).
Qed.


End Soundness.

Section Plans.
Context {W : Type} `{PodPorts W}.
Implicit Types (w : W).

(** A loop that has an attempt to make never falls off its end. *)
Lemma mark_loop_returns attempts namespace name pns pn t rv data w w' :
  mark_loop (S attempts) namespace name pns pn t rv data w <> (Ok None, w').
Proof.
  revert rv data w. induction attempts as [|attempts IH]; intros rv data w Hr; cbn [mark_loop] in Hr;
    destruct (replace_pod_including_status _ w) as [[updated|e] w1]; try done.
  destruct ((0 <? S attempts)%nat && is_conflict e); [|done].
  apply bind_Ok in Hr as (current & w2 & _ & Hr). destruct current as [current|]; [|done]. by eapply IH.
Qed.

(** Marking a victim always ends in a written pod or an error: the end of the
    retry loop, which the code declares unreachable, is not reached, whatever the
    ports answer. *)
Theorem marking_returns victim preemptor_namespace preemptor_name transition_time w :
  match fst (mark_preemption_candidate victim preemptor_namespace preemptor_name transition_time w) with
  | Ok result => result <> None
  | Err _ => True
  end.
Proof.
  destruct (mark_preemption_candidate _ _ _ _ w) as [[result|e] w'] eqn:Hm; [|done]. cbn [fst]. intros ->.
  exact (mark_loop_returns 4 _ _ _ _ _ _ _ _ _ Hm).
Qed.

(** The reservations the pods placed so far make. *)
Definition reserved (planned : list (Resource * PodSchedulingDecision)) : list Value :=
  omap (fun p => reserved_pod_body (fst p) <$> de_node_name (snd p)) planned.

Lemma snapshot_decision snapshot pod namespace pod_name reservations w d w' :
  explicit_node_name pod = None ->
  schedule_pod_from_snapshot snapshot pod namespace pod_name reservations w = (Ok d, w') ->
  de_node_name d = sd_selected_node (decide_on snapshot reservations pod namespace pod_name).
Proof. intros Hnone. unfold schedule_pod_from_snapshot. rewrite Hnone. by intros ?%hydrate_node. Qed.

Lemma plan_wave_placed snapshot wave reservations planned w w' pre pod d post node_name :
  named_nodes (vw_nodes snapshot) -> Forall (fun p => explicit_node_name (r_data p) = None) wave ->
  plan_wave snapshot wave reservations w = (Ok planned, w') -> planned = (pre ++ ((pod, d) :: post))%list ->
  de_node_name d = Some node_name ->
  placed_well snapshot (reservations ++ reserved pre)%list (r_data pod) (pod_namespace pod) (r_name pod) node_name.
Proof.
  intros Hnamed Hwave. revert reservations planned w w' pre.
  induction Hwave as [|p wave Hp Hwave IH]; intros reservations planned w w' pre Hplan Hsplit Hd.
  { injection Hplan as <- _. by destruct pre. }
  cbn [plan_wave] in Hplan. apply bind_Ok in Hplan as (d1 & w1 & Hd1 & Hplan).
  apply bind_Ok in Hplan as (planned' & w2 & Hplan & [= <- _]).
  destruct pre as [|[q dq] pre]; cbn [app] in Hsplit.
  - injection Hsplit as -> -> ->. cbn [reserved omap list_omap]. rewrite app_nil_r. apply decide_on_sound; [done|].
    rewrite <- Hd. symmetry. by eapply snapshot_decision.
  - injection Hsplit as -> -> Hsplit. eapply IH in Hplan; [|exact Hsplit|exact Hd].
    cbn [reserved omap list_omap fst snd].
    destruct (de_node_name dq) as [n|]; cbn [fmap option_fmap option_map]; [|done].
    by rewrite <- app_assoc in Hplan.
Qed.

(** Pods of a wave do not compete: when the service plans a wave of pods, the
    node planned for each of them is accepted by the snapshot together with every
    pod placed before it in the wave. *)
Theorem wave_counts_reservations snapshot wave planned w w' pre pod d post node_name :
  named_nodes (vw_nodes snapshot) -> Forall (fun p => explicit_node_name (r_data p) = None) wave ->
  plan_wave snapshot wave [] w = (Ok planned, w') -> planned = (pre ++ ((pod, d) :: post))%list ->
  de_node_name d = Some node_name ->
  placed_well snapshot (reserved pre) (r_data pod) (pod_namespace pod) (r_name pod) node_name.
Proof. apply (plan_wave_placed snapshot wave []). Qed.

End Plans.

(** ** The body of a victim *)

Lemma mark_metadata_fields m md t :
  obj_get "metadata" m = Some (Object md) ->
  exists m', mark_pod_preempted_metadata (Object m) t = Object m'
    /\ (forall k, k <> "metadata" -> obj_get k m' = obj_get k m)
    /\ pointer ["metadata"; "deletionTimestamp"] (Object m')
       = Some (unwrap_or (Str t) (obj_get "deletionTimestamp" md)).
Proof.
  intros Hm. eexists. split; [done|]. split; [intros k Hk; by rewrite obj_get_alter_ne|].
  cbn [pointer pointer_step]. rewrite obj_get_alter_eq, Hm. cbn [fmap option_fmap option_map mbind option_bind map_object].
  cbn [pointer_step]. by rewrite obj_get_or_insert_ne, obj_get_or_insert_eq by done.
Qed.

(** The scheduler carries every condition of another owner that the pod has. *)
Lemma preempted_carries bound condition t conditions c :
  c ∈ conditions -> foreign SchedulerOwner c = true -> c ∈ preempted_conditions bound condition t conditions.
Proof.
  intros Hc Hf. apply elem_of_app. left. apply list_elem_of_In, filter_In. split; [by apply list_elem_of_In|].
  unfold foreign, has_type in *. destruct (get_str "type" c) as [ty|]; [|done]. cbn in Hf |- *.
  unfold is_scheduler_owned_condition in Hf. apply negb_true_iff, orb_false_iff in Hf as [-> ->].
  by rewrite orb_true_r.
Qed.

Lemma preempted_status_shape data pns pn t st cs :
  get "status" data = Some (Object st) -> obj_get "conditions" st = Some (Array cs) ->
  exists m, preempted_status data pns pn t = Object m
    /\ (forall k, k <> "conditions" -> obj_get k m = obj_get k st)
    /\ obj_get "conditions" m
       = Some (Array (preempted_conditions (has_bound_node data) (disruption_target pns pn t) t cs)).
Proof.
  intros Hst Hcs. unfold preempted_status. rewrite Hst. eexists. split; [done|]. split.
  - intros k Hk. rewrite obj_get_alter_ne, obj_get_or_insert_ne by done. done.
  - by rewrite obj_get_alter_eq, obj_get_or_insert_eq, Hcs.
Qed.

(** Merging adds no condition to those the scheduler carries. *)
Lemma scheduler_conditions current st inc cs bound condition t m4 :
  get "status" current = Some (Object st) -> obj_get "conditions" st = Some (Array cs) ->
  obj_get "conditions" inc = Some (Array (preempted_conditions bound condition t cs)) ->
  merge_pod_status_for_update "v1" "Pod" current (Object inc) SchedulerOwner = Object m4 ->
  obj_get "conditions" m4 = Some (Array (preempted_conditions bound condition t cs)).
Proof.
  intros Hst Hcs Hinc Hmerge. destruct (merge_stages SchedulerOwner current inc) as (m3 & Hm & _ & Hc).
  rewrite Hmerge in Hm. injection Hm as ->. rewrite preserve_fields_rebuilt, Hc by (by left).
  unfold no_conditions. rewrite Hinc. cbn [opt_is_none opt_is_some negb andb]. do 2 f_equal.
  unfold merged_conditions, get_array. rewrite get_object, Hinc. cbn [mbind option_bind as_array unwrap_or].
  destruct (missing _ (preservable SchedulerOwner current)) as [|c l] eqn:Hmiss; [apply app_nil_r|]. exfalso.
  assert (Hc' : c ∈ missing (types_of (preempted_conditions bound condition t cs)) (preservable SchedulerOwner current))
    by (rewrite Hmiss; by left).
  destruct (missing_typed _ _ _ Hc') as [ty Hty]. destruct (missing_elem _ _ _ _ Hc' Hty) as [Hin Hnot].
  apply list_elem_of_In, filter_In in Hin as [Hin Hf]. apply Hnot, list_elem_of_omap. exists c. split; [|done].
  apply preempted_carries; [|done]. apply list_elem_of_In. revert Hin. unfold pointer_array.
  destruct current as [| | | | |m]; try done. rewrite get_object in Hst. cbn [pointer pointer_step]. rewrite Hst.
  cbn [mbind option_bind pointer_step]. by rewrite Hcs.
Qed.

(** A victim is marked for deletion and nothing else of it is lost: the body
    written for it has a deletion timestamp (its own if it had one), its spec, every
    status field, and its conditions with the disruption target added and, for a
    bound pod, one true PodScheduled condition. *)
Theorem victim_marked_exact m md st cs preemptor_namespace preemptor_name t :
  obj_get "metadata" m = Some (Object md) -> obj_get "status" m = Some (Object st) -> NoDup st.*1 ->
  obj_get "conditions" st = Some (Array cs) ->
  let body := preempted_body (Object m) preemptor_namespace preemptor_name t in
  pointer ["metadata"; "deletionTimestamp"] body = Some (unwrap_or (Str t) (obj_get "deletionTimestamp" md))
  /\ get "spec" body = obj_get "spec" m
  /\ pointer_array ["status"; "conditions"] body
     = Some (preempted_conditions (has_bound_node (Object m)) (disruption_target preemptor_namespace preemptor_name t)
               t cs)
  /\ forall k, k <> "conditions" -> pointer ["status"; k] body = obj_get k st.
Proof.
  intros Hmd Hst Hnd Hcs. unfold preempted_body. cbv zeta.
  destruct (mark_metadata_fields m md t Hmd) as (m1 & -> & Hm1 & Hdel).
  assert (Hst1 : get "status" (Object m1) = Some (Object st)) by (rewrite get_object, Hm1 by done; done).
  assert (Hbound : has_bound_node (Object m1) = has_bound_node (Object m)).
  { unfold has_bound_node, pointer_str. cbn [pointer pointer_step]. by rewrite Hm1. }
  destruct (preempted_status_shape (Object m1) preemptor_namespace preemptor_name t st cs Hst1 Hcs)
    as (inc & -> & Hinc & Hcond). rewrite Hbound in Hcond.
  assert (Hlive : live_status (Object m1) = st) by (unfold live_status; by rewrite Hst1).
  destruct (merge_stages SchedulerOwner (Object m1) inc) as (m3 & Hmerge & _ & _).
  cbn [map_object]. rewrite Hmerge. split_and!.
  - cbn [pointer pointer_step] in Hdel |- *. by rewrite obj_get_insert_ne.
  - rewrite get_object, obj_get_insert_ne, Hm1 by done. done.
  - unfold pointer_array. cbn [pointer pointer_step]. rewrite obj_get_insert_eq. cbn [mbind option_bind pointer_step].
    by rewrite (scheduler_conditions _ _ _ _ _ _ _ _ Hst1 Hcs Hcond Hmerge).
  - intros k Hk. cbn [pointer pointer_step]. rewrite obj_get_insert_eq. cbn [mbind option_bind pointer_step].
    assert (Hf := merged_field SchedulerOwner (Object m1) inc k).
    rewrite Hlive, Hmerge, get_object, Hinc in Hf by done. specialize (Hf Hnd Hk eq_refl).
    rewrite Hf. unfold filled. by destruct (rebuilds_status_field _ _), (obj_get k st).
Qed.

(** ** A world in memory

    The ports over lists of stored objects with optimistic concurrency, another
    writer that may act before each call, and a pod whose writes are refused. *)

Module Memory.

Record World := mkWorld {
  w_pods : list Resource;
  w_nodes : list Resource;
  w_writers : list (list Resource -> list Resource);
  w_refused : option string
}.

Definition with_pods (pods : list Resource) (w : World) : World :=
  mkWorld pods (w_nodes w) (w_writers w) (w_refused w).

(** The next writer acts, then the call. *)
Definition call {A} (f : World -> A * World) (w : World) : A * World :=
  match w_writers w with
  | [] => f w
  | writer :: rest => f (mkWorld (writer (w_pods w)) (w_nodes w) rest (w_refused w))
  end.

Definition is_named (namespace name : string) (r : Resource) : bool :=
  (pod_namespace r =?s namespace) && (r_name r =?s name).

Definition with_data (data : Value) (version : Z) (r : Resource) : Resource :=
  mkResource (r_id r) (r_api_version r) (r_kind r) (r_namespace r) (r_name r) (r_uid r) version data.

Definition update (namespace name : string) (f : Resource -> Value) (expected : Z) : M World Resource :=
  call (fun w =>
    if w_refused w =?os Some name then (Err (Unavailable "write refused"), w)
    else
      match List.find (is_named namespace name) (w_pods w) with
      | None => (Err (NotFound namespace name), w)
      | Some r =>
          if negb (r_resource_version r =? expected) then (Err (Conflict "resource version changed"), w)
          else
            let r' := with_data (f r) (expected + 1) r in
            (Ok r', with_pods ((fun p => if is_named namespace name p then r' else p) <$> w_pods w) w)
      end).

Definition keep_status (body : Value) (r : Resource) : Value :=
  match get "status" (r_data r) with
  | Some status => map_object (obj_insert "status" status) body
  | None => body
  end.

#[export] Instance memory_ports : PodPorts World := {|
  list_pods := call (fun w => (Ok (w_pods w), w));
  get_pod namespace name := call (fun w => (Ok (List.find (is_named namespace name) (w_pods w)), w));
  list_resources api_version kind scope := call (fun w => (Ok (if kind =?s "Node" then w_nodes w else []), w));
  replace_pod r := update (rp_namespace r) (rp_name r) (keep_status (rp_body r)) (rp_expected_resource_version r);
  replace_pod_including_status r :=
    update (rp_namespace r) (rp_name r) (fun _ => rp_body r) (rp_expected_resource_version r);
  write_pod_status namespace name status expected :=
    update namespace name (fun r => map_object (obj_insert "status" status) (r_data r)) (unwrap_or 0 expected);
  enqueue_marked_retry namespace name uid data := ret tt;
  dispatch_resource_mutation_effects new old w := w;
  emit_pod_event pod message instance w := w
|}.

(** Objects of the examples. *)
Definition node (name : string) : Resource :=
  mkResource 1 "v1" "Node" None name "n" 1 (node_object name "1" "1Gi" "10").

Definition pod (name uid : string) (version priority : Z) (cpu : string) (node_name : option string) : Resource :=
  mkResource 1 "v1" "Pod" (Some "default") name uid version
    (Object [("metadata", Object [("name", Str name); ("namespace", Str "default")]);
             ("spec", Object ([("containers", Array [Object [("resources",
                Object [("requests", Object [("cpu", Str cpu)])])]])]
                ++ match node_name with Some n => [("nodeName", Str n)] | None => [] end
                ++ [("priority", Num (NInt priority))])%list);
             ("status", Object [("conditions", Array []); ("phase", Str "Pending")])]).

Definition node_of (name : string) (w : World) : option string :=
  r ← List.find (is_named "default" name) (w_pods w); pointer_str ["spec"; "nodeName"] (r_data r).

End Memory.

(** ** Runs *)

Section Runs.
Import Memory.

Definition nodes_only (names : list string) : list Resource := node <$> names.

Definition quiet (pods : list Resource) (names : list string) : World := mkWorld pods (nodes_only names) [] None.

Definition two_pending : list Resource := [pod "a" "ua" 1 0 "600m" None; pod "b" "ub" 1 0 "600m" None].

Definition plan_of (wave : list Resource) (w : World) : list (string * option string) :=
  match scheduler_snapshot w with
  | (Ok snapshot, w') =>
      match plan_wave snapshot wave [] w' with
      | (Ok planned, _) => (fun p => (r_name (fst p), de_node_name (snd p))) <$> planned
      | (Err _, _) => []
      end
  | (Err _, _) => []
  end.

(** Two equal pods and two equal nodes: the wave plans one pod on each. *)
Example wave_spreads :
  plan_of two_pending (quiet two_pending ["n1"; "n2"]) = [("a", Some "n1"); ("b", Some "n2")].
Proof. by vm_compute. Qed.

(** When the second binding runs first, the live decision for it is [n1], and the
    pod is left unbound and unschedulable although [n2], which was planned, fits. *)
Example planned_pod_rejected :
  let w := quiet two_pending ["n1"; "n2"] in
  let decision := mkDecision (Some "n2") None [] in
  let '(result, w') := schedule_pending_pod_with_decision "default" "b" decision "t" w in
  is_ok result = true /\ node_of "b" w' = None
  /\ fst (planned_node_still_fits "default" "b" (r_data (pod "b" "ub" 1 0 "600m" None)) "n2" w) = Ok false
  /\ node_fit (extract_schedulable_node (r_data (node "n2"))) (extract_pod_constraints (r_data (pod "b" "ub" 1 0 "600m" None)))
       [] = [].
Proof. by vm_compute. Qed.

(** The victim is replaced by a pod of the same name and a higher priority before
    it is marked: the conflict is resolved by marking the new pod. *)
Example recreated_pod_marked :
  let victim := pod "web" "u1" 5 0 "800m" (Some "n1") in
  let recreated := pod "web" "u2" 9 1000 "800m" (Some "n2") in
  let w := mkWorld [victim] (nodes_only ["n1"]) [fun _ => [recreated]] None in
  let '(result, w') := mark_preemption_candidate (mkPreempted "default" "web" 5 (r_data victim)) "default" "high" "t" w in
  is_ok result = true
  /\ (fun r => (r_uid r, pod_priority (r_data r), pointer_str ["metadata"; "deletionTimestamp"] (r_data r)))
       <$> w_pods w' = [("u2", 1000, Some "t")].
Proof. by vm_compute. Qed.

(** The preempting pod is bound before its victim is marked: when the mark is
    refused, both stay on the node and ask for more than it has. *)
Example bound_without_eviction :
  let pods := [pod "high" "uh" 1 10 "800m" None; pod "low" "ul" 1 0 "800m" (Some "n1")] in
  let '(result, w') := schedule_pending_pod "default" "high" "t" (mkWorld pods (nodes_only ["n1"]) [] (Some "low")) in
  is_err result = true /\ node_of "high" w' = Some "n1" /\ node_of "low" w' = Some "n1"
  /\ (fun r => pointer_str ["metadata"; "deletionTimestamp"] (r_data r)) <$> w_pods w' = [None; None].
Proof. by vm_compute. Qed.

(** With a store that accepts the writes the victim is marked. *)
Example preemption_completes :
  let pods := [pod "high" "uh" 1 10 "800m" None; pod "low" "ul" 1 0 "800m" (Some "n1")] in
  let '(result, w') := schedule_pending_pod "default" "high" "t" (quiet pods ["n1"]) in
  is_ok result = true /\ node_of "high" w' = Some "n1"
  /\ (fun r => pointer_str ["metadata"; "deletionTimestamp"] (r_data r)) <$> w_pods w' = [None; Some "t"].
Proof. by vm_compute. Qed.

Definition pending_b : Resource := pod "b" "ub" 1 0 "600m" None.

Lemma nodes_named names : named_nodes (nodes_only names).
Proof. apply Forall_fmap, Forall_forall. intros name _. done. Qed.


Lemma wave_counts_reservations_witness :
  placed_well (mkView (nodes_only ["n1"; "n2"]) two_pending [] []) (reserved [(pod "a" "ua" 1 0 "600m" None, mkDecision (Some "n1") None [])])
    (r_data pending_b) "default" "b" "n2".
Proof.
  eapply (wave_counts_reservations (mkView (nodes_only ["n1"; "n2"]) two_pending [] []) two_pending _
    (quiet two_pending ["n1"; "n2"]) _ _ pending_b (mkDecision (Some "n2") None []) [] "n2").
  - apply nodes_named.
  - by repeat constructor.
  - vm_compute. reflexivity.
  - vm_compute. reflexivity.
  - done.
Defined.

Lemma victim_marked_exact_witness :
  let m := [("metadata", Object []); ("spec", Object [("nodeName", Str "n1")]);
            ("status", Object [("conditions", Array []); ("phase", Str "Running")])] in
  pointer_array ["status"; "conditions"] (preempted_body (Object m) "default" "high" "t")
  = Some [scheduled_true "t"; disruption_target "default" "high" "t"].
Proof.
  apply (victim_marked_exact
    [("metadata", Object []); ("spec", Object [("nodeName", Str "n1")]);
     ("status", Object [("conditions", Array []); ("phase", Str "Running")])]
    [] [("conditions", Array []); ("phase", Str "Running")] [] "default" "high" "t"); try done.
  apply (bool_decide_unpack _). by vm_compute.
Defined.

End Runs.
