(* ===== verification/NodeRouting.v ===== *)
(** * Node routing: addresses, dataplane metadata and the projection onto Node bodies

    [klights-types/src/network.rs] (annotations, peer mode, host-port range),
    [klights-cluster-store/src/topology.rs] (dataplane metadata and its parsers)
    and [klights-cluster-core/src/node_projection.rs] (what a heartbeat may change
    of a stored Node).  The address parser and printer are those of
    [std::net::IpAddr]; base64 is a parameter.  A panic of an indexed write to a
    value that is neither an object nor null is [None].

    The lemma [range_round_trip]: a host-port range survives printing and parsing. *)

From S2P Require Import Prelude Text Json KeyCodec StaleResource StatusMerge StatusRegistry NodeSubnets.

Local Open Scope string_scope.
Local Open Scope rs_scope.

(** ** Addresses *)

Inductive IpAddr :=
| V4 (ip : Z)
| V6 (segments : list Z).

Definition radix_digit (radix : Z) (c : ascii) : option Z :=
  let n := Z.of_N (Ascii.N_of_ascii c) in
  let d := if (48 <=? n)%Z && (n <=? 57)%Z then Some (n - 48)%Z
           else if (97 <=? n)%Z && (n <=? 122)%Z then Some (n - 87)%Z
           else if (65 <=? n)%Z && (n <=? 90)%Z then Some (n - 55)%Z
           else None in
  opt_filter (fun d => d <? radix)%Z d.

(** The digits a text starts with, and the rest. *)
Fixpoint span_digits (radix : Z) (l : list ascii) : list Z * list ascii :=
  match l with
  | [] => ([], [])
  | c :: l' =>
      match radix_digit radix c with
      | Some d => let '(ds, rest) := span_digits radix l' in (d :: ds, rest)
      | None => ([], l)
      end
  end.

(** [read_number]: at most [max_digits] digits, below [bound]. *)
Definition read_number (radix : Z) (max_digits : nat) (allow_zero_prefix : bool) (bound : Z) (l : list ascii)
    : option (Z * list ascii) :=
  let '(ds, rest) := span_digits radix l in
  let value := fold_left (fun acc d => acc * radix + d)%Z ds 0%Z in
  let leading_zero := is_some_and (head ds) (fun d => d =? 0)%Z && (1 <? length ds)%nat in
  if (length ds =? 0)%nat || (max_digits <? length ds)%nat || negb (value <? bound)%Z
     || (negb allow_zero_prefix && leading_zero)
  then None else Some (value, rest).

Definition read_given_char (c : ascii) (l : list ascii) : option (list ascii) :=
  match l with a :: l' => if Ascii.eqb a c then Some l' else None | [] => None end.

Definition read_octet := read_number 10 3 false 256.

Definition read_ipv4_addr (l : list ascii) : option (Z * list ascii) :=
  '(a, l) ← read_octet l; l ← read_given_char "." l;
  '(b, l) ← read_octet l; l ← read_given_char "." l;
  '(c, l) ← read_octet l; l ← read_given_char "." l;
  '(d, l) ← read_octet l;
  Some (a * 16777216 + b * 65536 + c * 256 + d, l)%Z.

(** [read_groups] into [remaining] slots: the groups, whether the last two are an
    embedded IPv4 address, and the rest. *)
Fixpoint read_groups (remaining : nat) (first : bool) (l : list ascii) : list Z * bool * list ascii :=
  match remaining with
  | O => ([], false, l)
  | S more =>
      let after_separator := if first then Some l else read_given_char ":" l in
      match (if (more =? 0)%nat then None else l' ← after_separator; read_ipv4_addr l') with
      | Some (ip, rest) => ([ip / 65536; ip mod 65536]%Z, true, rest)
      | None =>
          match (l' ← after_separator; read_number 16 4 true 65536 l') with
          | Some (group, rest) =>
              let '(groups, ipv4, rest) := read_groups more false rest in (group :: groups, ipv4, rest)
          | None => ([], false, l)
          end
      end
  end.

Definition read_ipv6_addr (l : list ascii) : option (list Z * list ascii) :=
  let '(head, head_ipv4, l) := read_groups 8 true l in
  if (length head =? 8)%nat then Some (head, l)
  else if head_ipv4 then None
  else
    l ← read_given_char ":" l; l ← read_given_char ":" l;
    let '(tail, _, l) := read_groups (8 - (length head + 1)) true l in
    Some (head ++ replicate (8 - length head - length tail) 0%Z ++ tail, l)%list.

(** [str::parse::<IpAddr>]. *)
Definition IpAddr_parse (s : string) : option IpAddr :=
  let parsed :=
    match read_ipv4_addr (bytes_of s) with
    | Some (ip, rest) => Some (V4 ip, rest)
    | None => '(segments, rest) ← read_ipv6_addr (bytes_of s); Some (V6 segments, rest)
    end in
  '(ip, rest) ← parsed; match rest with [] => Some ip | _ => None end.

Definition hex_digit (d : Z) : ascii := Ascii.ascii_of_N (Z.to_N (if (d <? 10)%Z then d + 48 else d + 87)).

Fixpoint strip_zeroes (ds : list Z) : list Z :=
  match ds with
  | d :: ds' => if (d =? 0)%Z && (0 <? length ds')%nat then strip_zeroes ds' else ds
  | [] => []
  end.

(** [{:x}] of a [u16]. *)
Definition hex_u16 (n : Z) : string :=
  str_of (hex_digit <$> strip_zeroes [n / 4096 mod 16; n / 256 mod 16; n / 16 mod 16; n mod 16]%Z).

Definition fmt_subslice (segments : list Z) : string := String.concat ":" (hex_u16 <$> segments).

(** The first of the longest runs of zero segments, as [(start, length)]. *)
Fixpoint longest_zeroes (i : nat) (current longest : nat * nat) (segments : list Z) : nat * nat :=
  match segments with
  | [] => longest
  | segment :: segments' =>
      if (segment =? 0)%Z
      then
        let current := (if (current.2 =? 0)%nat then i else current.1, S current.2) in
        longest_zeroes (S i) current (if (longest.2 <? current.2)%nat then current else longest) segments'
      else longest_zeroes (S i) (0, 0)%nat longest segments'
  end.

Definition IpAddr_to_string (ip : IpAddr) : string :=
  match ip with
  | V4 ip => ipv4_to_string ip
  | V6 ([0; 0; 0; 0; 0; 65535; a; b])%Z => "::ffff:" +:+ ipv4_to_string (a * 65536 + b)
  | V6 segments =>
      let '(start, len) := longest_zeroes 0 (0, 0)%nat (0, 0)%nat segments in
      if (1 <? len)%nat
      then fmt_subslice (take start segments) +:+ "::" +:+ fmt_subslice (drop (start + len) segments)
      else fmt_subslice segments
  end.

(** ** Host-port ranges and peer modes *)

(** [str::parse::<u16>] after the sign, with the text of its error. *)
Fixpoint parse_u16_digits (acc : Z) (l : list ascii) : result string Z :=
  match l with
  | [] => Ok acc
  | c :: l' =>
      match radix_digit 10 c with
      | None => Err "invalid digit found in string"
      | Some d =>
          let next := (acc * 10 + d)%Z in
          if (65535 <? next)%Z then Err "number too large to fit in target type" else parse_u16_digits next l'
      end
  end.

Definition parse_u16 (s : string) : result string Z :=
  match bytes_of s with
  | [] => Err "cannot parse integer from empty string"
  | "+"%char :: (_ :: _) as l => parse_u16_digits 0 (tail l)
  | l => parse_u16_digits 0 l
  end.

Record HostPortRange := mkRange { hr_start : Z; hr_end : Z }.

Definition HostPortRange_parse (raw : string) : result string HostPortRange :=
  let trimmed := trim raw in
  match split_once "-" trimmed with
  | None => Err ("HostPortRange must be 'start-end', got '" +:+ trimmed +:+ "'")
  | Some (start, end_) =>
      match parse_u16 start, parse_u16 end_ with
      | Err error, _ => Err ("HostPortRange start '" +:+ start +:+ "' invalid: " +:+ error)
      | _, Err error => Err ("HostPortRange end '" +:+ end_ +:+ "' invalid: " +:+ error)
      | Ok start, Ok end_ =>
          if (start =? 0)%Z || (end_ =? 0)%Z || (end_ <? start)%Z
          then Err ("HostPortRange '" +:+ trimmed +:+ "' must be non-zero and start <= end")
          else Ok (mkRange start end_)
      end
  end.

Definition HostPortRange_to_string (r : HostPortRange) : string :=
  to_string (hr_start r) +:+ "-" +:+ to_string (hr_end r).

Inductive NodePeerMode := PeerRoot | PeerRootless.

Definition parse_node_peer_mode (value : option string) : result string NodePeerMode :=
  match value with
  | None => Ok PeerRoot
  | Some value =>
      if value =?s "root" then Ok PeerRoot
      else if value =?s "rootless" then Ok PeerRootless
      else Err ("annotation 'klights.io/mode' has invalid value '" +:+ value +:+ "'; expected 'root' or 'rootless'")
  end.

(** ** Dataplane metadata *)

Inductive DataplaneEncryption := EncEnabled | EncDisabled.
Inductive DataplaneMode := DpRoot | DpRootless.

Definition DataplaneEncryption_parse (raw : option string) : result string DataplaneEncryption :=
  match opt_filter non_empty_str (trim <$> raw) with
  | None => Ok EncEnabled
  | Some value =>
      if value =?s "enabled" then Ok EncEnabled
      else if value =?s "disabled" then Ok EncDisabled
      else Err ("invalid dataplane encryption mode '" +:+ value +:+ "', expected enabled or disabled")
  end.

Definition DataplaneEncryption_as_str (e : DataplaneEncryption) : string :=
  match e with EncEnabled => "enabled" | EncDisabled => "disabled" end.

Definition DataplaneMode_parse (raw : string) : result string DataplaneMode :=
  let value := trim raw in
  if value =?s "root" then Ok DpRoot
  else if value =?s "rootless" then Ok DpRootless
  else Err ("invalid dataplane mode '" +:+ value +:+ "', expected root or rootless").

Definition DataplaneMode_as_str (m : DataplaneMode) : string :=
  match m with DpRoot => "root" | DpRootless => "rootless" end.

Record DataplanePeerMetadata := mkPeerMetadata {
  pm_node_name : string; pm_mode : DataplaneMode; pm_encryption : DataplaneEncryption;
  pm_public_key : option string; pm_endpoint : IpAddr; pm_port : option Z
}.

(** [base64::engine::general_purpose::STANDARD.decode]. *)
Definition WireGuardPublicKey_parse (base64_decode : string -> option (list ascii)) (raw : string)
    : result string string :=
  let trimmed := trim raw in
  match base64_decode trimmed with
  | None => Err "WireGuard public key must be base64"
  | Some bytes =>
      if negb (length bytes =? 32)%nat
      then Err ("WireGuard public key must decode to 32 bytes, got " +:+ to_string (Z.of_nat (length bytes)))
      else Ok trimmed
  end.

Definition peer_metadata_try_new (base64_decode : string -> option (list ascii)) (node_name : string)
    (mode : DataplaneMode) (encryption : DataplaneEncryption) (public_key endpoint : option string) (port : option Z)
    : result string DataplanePeerMetadata :=
  if is_empty (trim node_name) then Err "dataplane peer node_name is required"
  else
    let? endpoint := ok_or endpoint "dataplane peer endpoint is required" in
    let? endpoint := ok_or (IpAddr_parse endpoint) "dataplane peer endpoint must be an IP address" in
    let? public_key :=
      match encryption with
      | EncEnabled =>
          let? raw := ok_or public_key "WireGuard public key is required when encryption is enabled" in
          let? port := ok_or port "WireGuard listen port is required when encryption is enabled" in
          if (port =? 0)%Z then Err "WireGuard listen port must be non-zero"
          else let? key := WireGuardPublicKey_parse base64_decode raw in Ok (Some key)
      | EncDisabled => Ok None
      end in
    Ok (mkPeerMetadata node_name mode encryption public_key endpoint (opt_filter (fun p => negb (p =? 0)%Z) port)).

(** ** Writing to a Node body *)

Definition set_json_string_field (key value : string) (object : Map) : Map * bool :=
  if (v ← obj_get key object; as_str v) =?os Some value then (object, false)
  else (obj_insert key (Str value) object, true).

Definition remove_field (key : string) (object : Map) : Map * bool :=
  (obj_remove key object, obj_contains_key key object).

(** [entry(key).or_insert({})], replaced by [{}] when it is not an object, then a
    write to it. *)
Definition with_object_entry (key : string) (f : Map -> Map * bool) (object : Map) : Map * bool :=
  let inner := unwrap_or [] (v ← obj_get key object; as_object v) in
  let '(inner, changed) := f inner in
  (obj_insert key (Object inner) object, changed).

Definition on_object (f : Map -> Map * bool) (v : Value) : Value * bool :=
  match v with Object m => let '(m, changed) := f m in (Object m, changed) | _ => (v, false) end.

(** Two writes to the same object; either may change it. *)
Definition then_set (f g : Map -> Map * bool) (object : Map) : Map * bool :=
  let '(object, a) := f object in let '(object, b) := g object in (object, a || b).

Definition DATAPLANE_ENDPOINT_ANNOTATION : string := "klights.io/dataplane-endpoint".
Definition DATAPLANE_PORT_ANNOTATION : string := "klights.io/dataplane-port".
Definition DATAPLANE_MODE_ANNOTATION : string := "klights.io/dataplane-mode".
Definition DATAPLANE_ENCRYPTION_ANNOTATION : string := "klights.io/dataplane-encryption".
Definition DATAPLANE_PUBLIC_KEY_ANNOTATION : string := "klights.io/dataplane-public-key".

Definition set_or_remove (key : string) (value : option string) : Map -> Map * bool :=
  match value with Some value => set_json_string_field key value | None => remove_field key end.

Definition set_node_dataplane_annotations (node : Value) (endpoint mode encryption : string)
    (public_key : option string) (port : option Z) : Value * bool :=
  on_object (with_object_entry "metadata" (with_object_entry "annotations"
    (then_set (set_json_string_field DATAPLANE_ENDPOINT_ANNOTATION endpoint)
      (then_set (set_json_string_field DATAPLANE_MODE_ANNOTATION mode)
        (then_set (set_json_string_field DATAPLANE_ENCRYPTION_ANNOTATION encryption)
          (then_set (set_or_remove DATAPLANE_PORT_ANNOTATION (to_string <$> port))
            (set_or_remove DATAPLANE_PUBLIC_KEY_ANNOTATION public_key))))))) node.

Definition set_pod_cidrs (pod_cidr : string) (spec : Map) : Map * bool :=
  let desired := Array [Str pod_cidr] in
  if opt_eqb value_eqb (obj_get "podCIDRs" spec) (Some desired) then (spec, false)
  else (obj_insert "podCIDRs" desired spec, true).

Definition set_node_pod_cidr (node : Value) (pod_cidr : string) : Value * bool :=
  let pod_cidr := trim pod_cidr in
  if is_empty pod_cidr then (node, false)
  else on_object (with_object_entry "spec"
         (then_set (set_json_string_field "podCIDR" pod_cidr) (set_pod_cidrs pod_cidr))) node.

Definition set_node_external_ip_from_dataplane_annotation (node : Value) : Value * bool :=
  match opt_filter non_empty_str
          (trim <$> (annotations ← pointer_object ["metadata"; "annotations"] node;
                     v ← obj_get DATAPLANE_ENDPOINT_ANNOTATION annotations; as_str v)) with
  | Some endpoint => set_node_external_ip node endpoint
  | None => (node, false)
  end.

(** ** Heartbeats *)

Definition MANAGED_ROLE_LABELS : list string :=
  ["node-role.kubernetes.io/controlplane"; "node-role.kubernetes.io/control-plane"; "node-role.kubernetes.io/master";
   "node-role.kubernetes.io/leader"; "node-role.kubernetes.io/replica"; "node-role.kubernetes.io/worker"].

Definition prune_klights_managed_node_role_labels (node : Value) : Value :=
  get_mut "metadata" (get_mut "labels" (map_object (fun labels =>
    fold_left (fun m key => obj_remove key m) MANAGED_ROLE_LABELS labels))) node.

Definition merge_metadata_object_field (field : string) (overlay : option Value) (desired : Value) : Value :=
  match overlay ≫= as_object with
  | None => desired
  | Some overlay =>
      get_mut "metadata" (map_object (fun metadata =>
        let entry := unwrap_or [] (v ← obj_get field metadata; as_object v) in
        obj_insert field (Object (fold_left (fun m e => obj_insert e.1 e.2 m) overlay entry)) metadata)) desired
  end.

Definition node_status_external_ip (node : Value) : option string :=
  opt_filter non_empty_str (trim <$>
    (addresses ← pointer_array ["status"; "addresses"] node;
     head (omap (fun address => if is_external_ip address then get_str "address" address else None) addresses))).

(** [v[key] = value]: a null becomes an object, another value panics. *)
Definition index_insert (key : string) (value v : Value) : option Value :=
  match v with
  | Null => Some (Object [(key, value)])
  | Object m => Some (Object (obj_insert key value m))
  | _ => None
  end.

Definition index_insert_from (key : string) (existing : Value) (v : Value) : option Value :=
  match get key existing with Some value => index_insert key value v | None => Some v end.

Definition merge_existing_node_mutable_fields (parse_from_rfc3339 : string -> option Z) (desired existing : Value)
    : option Value :=
  let desired_labels := pointer ["metadata"; "labels"] desired in
  let desired_annotations := pointer ["metadata"; "annotations"] desired in
  let desired_creation_timestamp := pointer ["metadata"; "creationTimestamp"] desired in
  let desired_has_external_ip := opt_is_some (node_status_external_ip desired) in
  let existing_external_ip := node_status_external_ip existing in
  desired ← index_insert_from "metadata" existing desired;
  let desired := prune_klights_managed_node_role_labels desired in
  let desired := merge_metadata_object_field "labels" desired_labels desired in
  let desired := merge_metadata_object_field "annotations" desired_annotations desired in
  let desired :=
    match desired_creation_timestamp with
    | Some timestamp => get_mut "metadata" (map_object (obj_insert "creationTimestamp" timestamp)) desired
    | None => desired
    end in
  desired ← index_insert_from "spec" existing desired;
  let desired :=
    match existing_external_ip with
    | Some ip => if desired_has_external_ip then desired else (set_node_external_ip desired ip).1
    | None => desired
    end in
  Some (get_mut "status" (fun status => merge_node_status_for_update parse_from_rfc3339 status existing) desired).

(** ** A range is read back as it was printed *)

Lemma radix_digit_char d : is_digit_Z d -> radix_digit 10 (digit_char d) = Some d.
Proof.
  intros Hd%digit_Z_cases. rewrite !elem_of_cons in Hd. destruct_or?; subst; try done. by apply not_elem_of_nil in Hd.
Qed.

Lemma value_of_digits_ge acc l : Forall is_digit_Z l -> (0 <= acc)%Z -> (acc <= value_of_digits acc l)%Z.
Proof.
  intros Hl. revert acc. induction Hl as [|d l Hd _ IH]; intros acc Hacc; [done|].
  change (value_of_digits acc (d :: l)) with (value_of_digits (acc * 10 + d) l). unfold is_digit_Z in Hd.
  specialize (IH (acc * 10 + d)%Z ltac:(lia)). lia.
Qed.

Lemma parse_u16_digits_text acc l :
  Forall is_digit_Z l -> (0 <= acc)%Z -> (value_of_digits acc l <= 65535)%Z ->
  parse_u16_digits acc (digit_char <$> l) = Ok (value_of_digits acc l).
Proof.
  intros Hl. revert acc. induction Hl as [|d l Hd Hl IH]; intros acc Hacc Hv; [done|]. cbn [fmap list_fmap parse_u16_digits].
  rewrite radix_digit_char by done. cbn zeta. change (value_of_digits acc (d :: l)) with (value_of_digits (acc * 10 + d) l) in *.
  unfold is_digit_Z in Hd. pose proof (value_of_digits_ge (acc * 10 + d) l Hl ltac:(lia)).
  destruct (Z.ltb_spec 65535 (acc * 10 + d)); [lia|]. apply IH; [lia|done].
Qed.

Lemma port_round_trip n : (0 <= n <= 65535)%Z -> parse_u16 (to_string n) = Ok n.
Proof.
  intros Hn. rewrite to_string_nonneg by lia. unfold parse_u16, digit_text.
  rewrite String.list_ascii_of_string_of_list_ascii. destruct (digits_spec n ltac:(lia)) as (Hd & Hv & Hne).
  pose proof (parse_u16_digits_text 0 (digits n) Hd ltac:(lia) ltac:(lia)) as Hp. rewrite Hv in Hp.
  destruct (digits n) as [|d l]; [done|]. cbn [fmap list_fmap] in *. apply Forall_cons_1 in Hd as [Hd _].
  apply digit_Z_cases in Hd. rewrite !elem_of_cons in Hd. destruct_or?; subst; try exact Hp. by apply not_elem_of_nil in Hd.
Qed.

(** Every range that can be stored is read back as it was printed. *)
Lemma range_round_trip r :
  (1 <= hr_start r <= hr_end r)%Z -> (hr_end r <= 65535)%Z -> HostPortRange_parse (HostPortRange_to_string r) = Ok r.
Proof.
  intros Hs He. destruct r as [start end_]. cbn in *. unfold HostPortRange_parse, HostPortRange_to_string. cbn [hr_start hr_end].
  destruct (to_string_digits start ltac:(lia)) as [Hds _]. destruct (to_string_digits end_ ltac:(lia)) as [Hde _].
  rewrite trim_visible.
  - change "-" with (String "-" ""). rewrite split_once_app by (eapply any_char_none; [exact Hds|]; by intros c; destruct c as [[][][][][][][][]]).
    rewrite !port_round_trip by lia. destruct (Z.eqb_spec start 0); [lia|]. destruct (Z.eqb_spec end_ 0); [lia|].
    destruct (Z.ltb_spec end_ start); [lia|]. done.
  - unfold all_chars in *. rewrite !bytes_of_app, !forallb_app.
    apply (all_chars_weaken _ _ (to_string start) digit_visible) in Hds.
    apply (all_chars_weaken _ _ (to_string end_) digit_visible) in Hde. unfold all_chars in *. by rewrite Hds, Hde.
Qed.
