(* ===== verification/Commands.v ===== *)
(** * Storage commands and the outbox values

    [klights-cluster-core/src/command.rs] (the commands clients and workers submit,
    lease-renewal admission), [resource.rs] (batch operations) and [outbox.rs]
    (operations, subject keys, delivery errors and their classification).  The
    serde forms are not modelled.

    The lemmas: an operation is recovered from its name, and a classified error is
    never reclassified. *)

From S2P Require Import Prelude Text Json KeyCodec Apply StaleResource LogApply.

Local Open Scope string_scope.
Local Open Scope rs_scope.

(** ** Commands *)

Inductive ResourceBatchPutMode := BatchCreate | BatchUpdate.

Inductive ResourceBatchOperation :=
| BatchPut (api_version kind : string) (namespace : option string) (name : string) (data : Value)
    (mode : ResourceBatchPutMode) (preconditions : ResourcePreconditions)
| BatchDelete (api_version kind : string) (namespace : option string) (name : string)
    (preconditions : ResourcePreconditions).

(** Several names are also those of mutations. *)
Module Command.

Inductive StorageCommand :=
| CreateResource (api_version kind : string) (namespace : option string) (name : string) (data : Value)
| UpdateResource (api_version kind : string) (namespace : option string) (name : string) (data : Value)
    (expected_rv : Z) (preconditions : ResourcePreconditions) (preserve_status : bool)
| DeleteResource (api_version kind : string) (namespace : option string) (name : string)
    (preconditions : ResourcePreconditions)
| FinalizeBoundPod (namespace name pod_uid node_name : string) (observed_resource_version : Z)
| DeleteResourceWithTombstone (api_version kind : string) (namespace : option string) (name : string)
    (preconditions : ResourcePreconditions) (grace_seconds : Z)
| PatchResource (api_version kind : string) (namespace : option string) (name : string) (patch_kind : PatchKind)
    (patch : Value) (preconditions : ResourcePreconditions) (strict_resource_version : bool)
| UpdateStatus (api_version kind : string) (namespace : option string) (name : string) (status : Value)
    (expected_rv : option Z) (preconditions : ResourcePreconditions) (observed_status_stamp : option Z)
| ApplyResourceBatch (operations : list ResourceBatchOperation)
| CreateNamespace (name : string) (data : Value)
| UpdateNamespace (name : string) (data : Value) (expected_rv : Z)
| DeleteNamespace (name : string)
| DeleteNamespaceContents (name : string)
| AllocateNodeSubnet (node_name subnet node_ip : string)
| UpdateNodePeerAttributes (node_name mode : string) (hostport_range : option string)
| UpdateNodeDataplane (node_name mode encryption : string) (public_key : option string) (endpoint : string)
    (port : option Z)
| DeleteNodeSubnet (node_name : string)
| PodSlotTryAdmit (namespace pod_name pod_uid node_name : string)
| PodSlotMarkTerminating (namespace pod_name pod_uid node_name : string)
| PodSlotClearIfUid (namespace pod_name pod_uid node_name : string)
| MovePodToCleanupIntent (node_name namespace pod_name pod_uid reason : string)
| DeletePodCleanupIntent (node_name namespace pod_name pod_uid reason : string)
| DeletePodCleanupIntentsForNode (node_name : string)
| WatchEventAppend (event_bytes : string) (rv : Z)
| GcWatchEvents (max_rows batch_cap : Z)
| GcAppliedOutbox (cutoff_ms : Z)
| AdvanceResourceVersion (min_rv new_rv : Z)
| EnsureClusterMetadata (cluster_id : string)
| SetKlightsMeta (key value : string).

Definition variant_name (command : StorageCommand) : string :=
  match command with
  | CreateResource _ _ _ _ _ => "CreateResource"
  | UpdateResource _ _ _ _ _ _ _ _ => "UpdateResource"
  | DeleteResource _ _ _ _ _ => "DeleteResource"
  | FinalizeBoundPod _ _ _ _ _ => "FinalizeBoundPod"
  | DeleteResourceWithTombstone _ _ _ _ _ _ => "DeleteResourceWithTombstone"
  | PatchResource _ _ _ _ _ _ _ _ => "PatchResource"
  | UpdateStatus _ _ _ _ _ _ _ _ => "UpdateStatus"
  | ApplyResourceBatch _ => "ApplyResourceBatch"
  | CreateNamespace _ _ => "CreateNamespace"
  | UpdateNamespace _ _ _ => "UpdateNamespace"
  | DeleteNamespace _ => "DeleteNamespace"
  | DeleteNamespaceContents _ => "DeleteNamespaceContents"
  | AllocateNodeSubnet _ _ _ => "AllocateNodeSubnet"
  | UpdateNodePeerAttributes _ _ _ => "UpdateNodePeerAttributes"
  | UpdateNodeDataplane _ _ _ _ _ _ => "UpdateNodeDataplane"
  | DeleteNodeSubnet _ => "DeleteNodeSubnet"
  | PodSlotTryAdmit _ _ _ _ => "PodSlotTryAdmit"
  | PodSlotMarkTerminating _ _ _ _ => "PodSlotMarkTerminating"
  | PodSlotClearIfUid _ _ _ _ => "PodSlotClearIfUid"
  | MovePodToCleanupIntent _ _ _ _ _ => "MovePodToCleanupIntent"
  | DeletePodCleanupIntent _ _ _ _ _ => "DeletePodCleanupIntent"
  | DeletePodCleanupIntentsForNode _ => "DeletePodCleanupIntentsForNode"
  | WatchEventAppend _ _ => "WatchEventAppend"
  | GcWatchEvents _ _ => "GcWatchEvents"
  | GcAppliedOutbox _ => "GcAppliedOutbox"
  | AdvanceResourceVersion _ _ => "AdvanceResourceVersion"
  | EnsureClusterMetadata _ => "EnsureClusterMetadata"
  | SetKlightsMeta _ _ => "SetKlightsMeta"
  end.

End Command.

Abbreviation StorageCommand := Command.StorageCommand.

(** ** Lease renewal *)

Inductive LeaseRenewCommandError :=
| NotLeaseMutation
| InvalidTarget
| AuthoringNodeMismatch (authoring_node lease_name : string).

Definition lease_error_to_string (e : LeaseRenewCommandError) : string :=
  match e with
  | NotLeaseMutation => "LeaseRenew must carry a Lease create/update command"
  | InvalidTarget => "LeaseRenew must target coordination.k8s.io/v1 Lease in kube-node-lease"
  | AuthoringNodeMismatch authoring_node lease_name =>
      "LeaseRenew authoring node " +:+ authoring_node +:+ " cannot renew Lease " +:+ lease_name
  end.

Definition validate_lease_renew_command (command : StorageCommand) (authoring_node : string)
    : result LeaseRenewCommandError unit :=
  let? target :=
    match command with
    | Command.CreateResource api_version kind namespace name _
    | Command.UpdateResource api_version kind namespace name _ _ _ _ => Ok (api_version, kind, namespace, name)
    | _ => Err NotLeaseMutation
    end in
  let '(api_version, kind, namespace, name) := target in
  if negb (api_version =?s "coordination.k8s.io/v1") || negb (kind =?s "Lease")
     || negb (namespace =?os Some "kube-node-lease")
  then Err InvalidTarget
  else if negb (name =?s authoring_node) then Err (AuthoringNodeMismatch authoring_node name)
  else Ok tt.

(** ** Outbox operations *)

Inductive OutboxOperation :=
| PodStatus | RuntimeReconcile | ProbeReadiness | DeadlineExceeded | ContainerStatusSnapshot
| EphemeralContainerStatuses | PodMetadata | NodeRegistration | NodeDataplane | NodeStatus | LeaseRenew | EventCreate.

#[export] Instance OutboxOperation_eq_dec : EqDecision OutboxOperation.
Proof. solve_decision. Defined.

Definition ALL_OPERATIONS : list OutboxOperation :=
  [PodStatus; RuntimeReconcile; ProbeReadiness; DeadlineExceeded; ContainerStatusSnapshot;
   EphemeralContainerStatuses; PodMetadata; NodeRegistration; NodeDataplane; NodeStatus; LeaseRenew; EventCreate].

Definition operation_as_str (o : OutboxOperation) : string :=
  match o with
  | PodStatus => "PodStatus"
  | RuntimeReconcile => "RuntimeReconcile"
  | ProbeReadiness => "ProbeReadiness"
  | DeadlineExceeded => "DeadlineExceeded"
  | ContainerStatusSnapshot => "ContainerStatusSnapshot"
  | EphemeralContainerStatuses => "EphemeralContainerStatuses"
  | PodMetadata => "PodMetadata"
  | NodeRegistration => "NodeRegistration"
  | NodeDataplane => "NodeDataplane"
  | NodeStatus => "NodeStatus"
  | LeaseRenew => "LeaseRenew"
  | EventCreate => "EventCreate"
  end.

Definition operation_try_from (value : string) : result string OutboxOperation :=
  ok_or (List.find (fun o => operation_as_str o =?s value) ALL_OPERATIONS) ("unknown outbox operation: " +:+ value).

(** ** Delivery errors *)

Inductive OutboxApplyError :=
| Retryable (message : string)
| ConflictTerminal (message : string)
| OutboxNotFound (message : string)
| UidMismatch (expected actual : string).

Definition outbox_error_to_string (e : OutboxApplyError) : string :=
  match e with
  | Retryable message | ConflictTerminal message | OutboxNotFound message => message
  | UidMismatch expected actual => "delivery UID mismatch: expected " +:+ expected +:+ ", actual " +:+ actual
  end.

Definition is_terminal (e : OutboxApplyError) : bool :=
  match e with Retryable _ => false | _ => true end.

Definition pod_target (command : StorageCommand) : option (string * string * ResourcePreconditions) :=
  let on_pod (api_version kind : string) (namespace : option string) name preconditions :=
    namespace ← namespace;
    if (api_version =?s "v1") && (kind =?s "Pod") then Some (namespace, name, preconditions) else None in
  match command with
  | Command.UpdateStatus api_version kind namespace name _ _ preconditions _
  | Command.UpdateResource api_version kind namespace name _ _ preconditions _
  | Command.PatchResource api_version kind namespace name _ _ preconditions _
  | Command.DeleteResource api_version kind namespace name preconditions
  | Command.DeleteResourceWithTombstone api_version kind namespace name preconditions _ =>
      on_pod api_version kind namespace name preconditions
  | _ => None
  end.

Definition classify_apply_error (error : OutboxApplyError) : OutboxApplyError :=
  match error with
  | Retryable message =>
      let lower := to_ascii_lowercase message in
      if contains "uid mismatch" lower || contains "uid precondition failed" lower
      then UidMismatch "<unknown>" "<unknown>"
      else if contains "not found" lower then OutboxNotFound message
      else if contains "conflict" lower || contains "precondition failed" lower then ConflictTerminal message
      else Retryable message
  | other => other
  end.

Definition classify_apply_error_for_command (command : StorageCommand) (error : OutboxApplyError) : OutboxApplyError :=
  match error with
  | Retryable message =>
      if contains "query returned no rows" (to_ascii_lowercase message) && opt_is_some (pod_target command)
      then ConflictTerminal message
      else classify_apply_error (Retryable message)
  | other => other
  end.

(** ** Subject keys *)

Definition resource_key_parts (api_version kind : string) (namespace : option string) (name : string)
    (uid : option string) : string :=
  let key := match namespace with
             | Some namespace => api_version +:+ "/" +:+ kind +:+ "/" +:+ namespace +:+ "/" +:+ name
             | None => api_version +:+ "/" +:+ kind +:+ "/" +:+ name
             end in
  match opt_filter non_empty_str uid with Some uid => key +:+ "/" +:+ uid | None => key end.

Definition resource_subject_key (api_version kind : string) (namespace : option string) (name : string) (data : Value)
    : string :=
  resource_key_parts api_version kind namespace name (pointer_str ["metadata"; "uid"] data).

Definition subject_key_for_command (command : StorageCommand) : string :=
  match command with
  | Command.CreateResource api_version kind namespace name data
  | Command.UpdateResource api_version kind namespace name data _ _ _ =>
      resource_subject_key api_version kind namespace name data
  | Command.UpdateStatus api_version kind namespace name _ _ preconditions _
  | Command.DeleteResource api_version kind namespace name preconditions
  | Command.PatchResource api_version kind namespace name _ _ preconditions _ =>
      resource_key_parts api_version kind namespace name (pre_uid preconditions)
  | Command.CreateNamespace name data | Command.UpdateNamespace name data _ =>
      resource_subject_key "v1" "Namespace" None name data
  | Command.DeleteNamespace name | Command.DeleteNamespaceContents name =>
      resource_key_parts "v1" "Namespace" None name None
  | Command.FinalizeBoundPod namespace name pod_uid _ _ =>
      resource_key_parts "v1" "Pod" (Some namespace) name (Some pod_uid)
  | Command.ApplyResourceBatch operations =>
      match head operations with
      | Some (BatchPut api_version kind namespace name _ _ _) | Some (BatchDelete api_version kind namespace name _) =>
          "batch:" +:+ api_version +:+ "/" +:+ kind +:+ "/" +:+ unwrap_or "" namespace +:+ "/" +:+ name
      | None => "batch:empty"
      end
  | other => Command.variant_name other
  end.

(** The worker-observed stamp of a Pod status snapshot. *)
Definition pod_status_stamp_of (command : StorageCommand) : option Z :=
  match command with Command.UpdateStatus _ _ _ _ _ _ _ observed_status_stamp => observed_status_stamp | _ => None end.

(** ** Lemmas *)

Lemma operation_round_trip o : operation_try_from (operation_as_str o) = Ok o.
Proof. by destruct o. Qed.

(** An error that was classified as terminal stays what it is, and a classified
    retryable one is retried again. *)
Lemma classify_stable command error :
  classify_apply_error_for_command command (classify_apply_error_for_command command error)
  = classify_apply_error_for_command command error.
Proof.
  destruct error as [message| | |]; try done. unfold classify_apply_error_for_command, classify_apply_error.
  destruct (contains "query returned no rows" _ && _) eqn:Hq; [done|].
  destruct (contains "uid mismatch" _ || _) eqn:Hu; [done|]. destruct (contains "not found" _) eqn:Hn; [done|].
  destruct (contains "conflict" _ || _) eqn:Hc; [done|]. by rewrite Hq, Hu, Hn, Hc.
Qed.
