(* ===== verification/EntryApply.v ===== *)
(** * Applying an entry does not stop the state machine

    A committed entry that fails with anything but a precondition conflict is fatal:
    raft reports a storage error and the node stops applying
    ([klights-replication/src/state_machine.rs], over
    [CommittedApply.apply_commit_in_tx_for_raft_with_context]).  This file finds out
    what an entry needs to be free of that: rows that carry no version of their own,
    no two mutations that log the same object, and none of the mutations that can
    violate a table constraint.

    [runs P r] is the weakest precondition the proofs go through: [r] is a conflict,
    or a result with [P].  The last part says what a put whose version precondition
    fails leaves behind. *)

From S2P Require Import Prelude Text Json Watch Apply KeyCodec StaleResource StatusMerge ResourceSemantics LogApply ResourceShape ResourceIndex NodeSubnets SqliteState CommittedApply.

Local Open Scope string_scope.
Local Open Scope rs_scope.

(** ** Results that are conflicts at worst *)

Definition runs {A} (P : A -> Prop) (r : result DbError A) : Prop :=
  match r with Ok a => P a | Err (Conflict _ _) => True | Err _ => False end.

Lemma runs_bind {A B} (P : B -> Prop) (r : result DbError A) (k : A -> result DbError B) :
  runs (fun a => runs P (k a)) r -> runs P (result_bind r k).
Proof. by destruct r as [a|[]]. Qed.

Lemma runs_mono {A} (P Q : A -> Prop) r : runs P r -> (forall a, P a -> Q a) -> runs Q r.
Proof. destruct r as [a|[]]; cbn; auto. Qed.

Lemma runs_violation {A} (P : A -> Prop) violation : runs P (Err (apply_precondition_error violation)).
Proof. by destruct violation. Qed.

(** ** Room in the watch log *)

(** What the unique index of the log tells objects apart by. *)
Definition event_key (row : EventRow) : NsKey :=
  (ev_api_version row, ev_kind row, namespace_key (ev_namespace row), ev_name row).

Definition identity_key (i : ResourceIdentity) : NsKey :=
  (ri_api_version i, ri_kind i, namespace_key (identity_namespace i), ri_name i).

Definition high_id (w : WatchTables) : Z := Z.max (watch_seq w) (max_event_id (watch_events w)).

(** Events of the objects [keys] can be logged at version [rv]. *)
Record roomy (rv : Z) (keys : list NsKey) (w : WatchTables) : Prop := {
  roomy_distinct : NoDup keys;
  roomy_new : forall e, e ∈ watch_events w -> ev_resource_version e.2 = rv -> event_key e.2 ∉ keys;
  roomy_seq : (0 <= watch_seq w)%Z;
  roomy_ids : (high_id w + Z.of_nat (length keys) <= i64_max)%Z
}.

Lemma max_event_id_le events bound :
  (0 <= bound)%Z -> (forall e, e ∈ events -> e.1 <= bound)%Z -> (max_event_id events <= bound)%Z.
Proof.
  intros H0 Hb. destruct events as [|e events]; [done|]. cbn. assert (He : (e.1 <= bound)%Z) by (apply Hb; by left).
  assert (Hr : forall x, x ∈ events.*1 -> (x <= bound)%Z).
  { intros x (y & -> & Hy)%list_elem_of_fmap. apply Hb. by right. }
  clear Hb. induction events as [|x l IH]; cbn; [done|].
  apply Z.max_lub; [apply Hr; by left|]. apply IH. intros y Hy. apply Hr. by right.
Qed.

Lemma max_event_id_ge events e : e ∈ events -> (e.1 <= max_event_id events)%Z.
Proof.
  destruct events as [|e0 events]; [by intros ?%not_elem_of_nil|]. cbn. intros Hin. induction events as [|x l IH]; cbn.
  - by apply list_elem_of_singleton in Hin as ->.
  - rewrite !elem_of_cons in Hin. destruct Hin as [->|[->|Hin]]; [|lia|].
    + assert (e0.1 <= fold_right Z.max e0.1 l.*1)%Z by (apply IH; by left). lia.
    + assert (e.1 <= fold_right Z.max e0.1 l.*1)%Z by (apply IH; by right). lia.
Qed.

Lemma same_identity_key a b : same_identity_rv a b = true -> event_key a = event_key b /\ ev_resource_version a = ev_resource_version b.
Proof.
  unfold same_identity_rv, event_key. rewrite !andb_true_iff, !String.eqb_eq, Z.eqb_eq.
  by intros ((((-> & ->) & ->) & ->) & ->).
Qed.

Lemma insert_runs rv key keys row w :
  roomy rv (key :: keys) w -> event_key row = key -> ev_resource_version row = rv ->
  runs (roomy rv keys) (insert_event_row None row w).
Proof.
  intros [Hnd Hnew Hseq Hids] Hk Hrv. apply NoDup_cons in Hnd as [Hkey Hnd]. unfold insert_event_row. cbn [unwrap_or].
  fold (high_id w). cbn [length] in Hids. destruct (Z.ltb_spec i64_max (high_id w + 1)); [lia|].
  destruct (existsb _ _) eqn:Hex.
  { apply existsb_exists in Hex as (e & He%list_elem_of_In & Hid%Z.eqb_eq). apply max_event_id_ge in He. unfold high_id in Hid. lia. }
  destruct (List.find _ _) as [e|] eqn:Hf.
  { apply List.find_some in Hf as [He%list_elem_of_In [Hke Hre]%same_identity_key]. exfalso.
    apply (Hnew e He); [congruence|]. apply elem_of_cons. left. congruence. }
  cbn. split; [done| |cbn; lia|].
  - cbn. intros e [->|He]%insert_event_elem Hr; cbn in *; [by rewrite Hk|]. intros Hin. apply (Hnew e He Hr). by right.
  - unfold high_id at 1. cbn [watch_seq watch_events]. unfold i64_max in *.
    assert (max_event_id (insert_event (high_id w + 1) row (watch_events w)) <= high_id w + 1)%Z.
    { apply max_event_id_le; [unfold high_id; lia|]. intros e [->|He%max_event_id_ge]%insert_event_elem; cbn; [lia|]. unfold high_id. lia. }
    unfold high_id in *. lia.
Qed.

Lemma roomy_skip rv key keys w : roomy rv (key :: keys) w -> roomy rv keys w.
Proof.
  intros [[_ Hnd]%NoDup_cons Hnew Hseq Hids]. split; [done| |done|cbn in Hids; lia].
  intros e He Hr Hin. apply (Hnew e He Hr). by right.
Qed.

(** ** Mutations *)

(** The objects a mutation may log. *)
Definition mutation_keys (emit : bool) (m : LogApplyMutation) : list NsKey :=
  let key (i : ResourceIdentity) := if emit then [identity_key i] else [] in
  match m with
  | PutWatchEvent row => [(wr_api_version row, wr_kind row, namespace_key (wr_namespace row), wr_name row)]
  | PutResource row => key (row_identity row)
  | PatchResourceLatest patch =>
      key (resource_identity (rp_api_version patch) (rp_kind patch) (rp_namespace patch) (rp_name patch))
  | DeleteResource k => key (resource_identity (rk_api_version k) (rk_kind k) (rk_namespace k) (rk_name k))
  | PutNamespace row => if emit then [("v1", "Namespace", namespace_key None, nr_name row)] else []
  | DeleteNamespace name => if emit then [("v1", "Namespace", namespace_key None, name)] else []
  | _ => []
  end.

Definition commit_keys (emit : bool) (ms : list LogApplyMutation) : list NsKey := concat (mutation_keys emit <$> ms).

(** A merge patch that says nothing of [metadata.uid]. *)
Definition entry_keeps_uid (e : string * Value) : bool :=
  negb (e.1 =?s "metadata")
  || match e.2 with Object meta => forallb (fun e => negb (e.1 =?s "uid")) meta | _ => false end.

Definition patch_keeps_uid (patch : Value) : bool :=
  match patch with Object m => forallb entry_keeps_uid m | _ => false end.

(** Not one of the mutations a table constraint, or an unresolved form, can stop. *)
Definition constraint_free (m : LogApplyMutation) : Prop :=
  match m with
  | PutNodeSubnet _ | AllocateNodeSubnet _ | FinalizeBoundPod _ => False
  | PutNodeDataplane row =>
      (dr_mode row = "root" \/ dr_mode row = "rootless") /\ (dr_encryption row = "enabled" \/ dr_encryption row = "disabled")
  | PatchResourceLatest patch => patch_keeps_uid (rp_patch patch) = true
  | PutWatchEvent row => wr_event_id row = None
  | _ => True
  end.

(** A row of the commit carries its version. *)
Definition carries (rv : Z) (m : LogApplyMutation) : Prop :=
  match m with
  | PutResource row => rr_resource_version row = rv
  | PatchResourceLatest patch => rp_resource_version patch = rv
  | PutNamespace row => nr_resource_version row = rv
  | PutWatchEvent row => wr_resource_version row = rv
  | PutPodCleanupIntent row => cr_resource_version row = rv
  | _ => True
  end.

(** A write of the status alone finds a JSON object. *)
Definition settled (s : SqliteState) (m : LogApplyMutation) : Prop :=
  match m with
  | PutResource row =>
      rr_status_only row = true ->
      forall e, get_existing_resource (row_identity row) (db_resources s) = Some e -> exists m, rw_data e = Object m
  | _ => True
  end.

Definition full_write (m : LogApplyMutation) : Prop :=
  match m with PutResource row => rr_status_only row = false | _ => True end.

Lemma full_write_settled s m : full_write m -> settled s m.
Proof. destruct m; cbn; try done. by intros ->. Qed.

Lemma conn_runs rv key keys canonicalize row s :
  roomy rv (key :: keys) (db_watch s) -> event_key row = key -> ev_resource_version row = rv ->
  runs (fun s' => roomy rv keys (db_watch s')) (insert_watch_event_in_conn None canonicalize row s).
Proof. intros Hr Hk Hv. unfold insert_watch_event_in_conn. apply runs_bind. by eapply runs_mono; [eapply insert_runs|]. Qed.

Lemma emit_runs rv keys (emit : bool) i event_type data s :
  roomy rv ((if emit then [identity_key i] else []) ++ keys)%list (db_watch s) ->
  runs (fun out => roomy rv keys (db_watch out.1)) (emit_watch emit i rv event_type data s).
Proof.
  unfold emit_watch. destruct emit; [|done]. cbn. intros Hr. apply runs_bind. eapply runs_mono; [by eapply conn_runs|]. done.
Qed.

Lemma roomy_drop rv (emit : bool) key keys w : roomy rv ((if emit then [key] else []) ++ keys)%list w -> roomy rv keys w.
Proof. destruct emit; [apply roomy_skip|done]. Qed.

Lemma normalize_runs parse row existing :
  (rr_status_only row = true -> forall e, existing = Some e -> exists m, rw_data e = Object m) ->
  runs (fun row' => rr_resource_version row' = rr_resource_version row) (normalize_committed_resource_for_apply parse row existing).
Proof.
  intros Hs. destruct (normalize_committed_resource_for_apply parse row existing) as [row'|e] eqn:Hn;
    [cbn; by eapply normalized_rv|]. exfalso. revert Hn. unfold normalize_committed_resource_for_apply.
  destruct (merge_status_only_row_with_existing parse row existing) as [row1|e1] eqn:Hm; [done|]. intros _. revert Hm.
  unfold merge_status_only_row_with_existing. destruct (rr_status_only row) eqn:Hso; cbn [negb]; [|done].
  destruct existing as [r|]; [|done]. destruct (Hs eq_refl r eq_refl) as [m ->]. done.
Qed.

Lemma validate_runs row existing : runs (fun _ => True) (validate_put_resource_apply_preconditions row existing).
Proof. unfold validate_put_resource_apply_preconditions. destruct (validate_apply_preconditions _ _); [done|apply runs_violation]. Qed.

Section Parameters.

Context (parse_from_rfc3339 : string -> option Z).
Context (float_to_string : Z -> string).
Context (merge : Value -> Value -> Value).

Lemma put_runs rv keys row emit s :
  rr_resource_version row = rv -> settled s (PutResource row) ->
  roomy rv (mutation_keys emit (PutResource row) ++ keys)%list (db_watch s) ->
  runs (fun out => roomy rv keys (db_watch out.1)) (apply_put_resource parse_from_rfc3339 float_to_string row emit s).
Proof.
  intros Hv Hset Hr. unfold apply_put_resource. apply runs_bind. eapply runs_mono; [apply validate_runs|intros _ _].
  apply runs_bind. eapply runs_mono; [by apply normalize_runs|]. cbn beta. intros row' Hrv.
  destruct (decide_resource_put _ _); [by eapply roomy_drop|]. rewrite Hrv, Hv. by apply emit_runs.
Qed.

Lemma delete_runs rv keys key emit s :
  roomy rv (mutation_keys emit (DeleteResource key) ++ keys)%list (db_watch s) ->
  runs (fun out => roomy rv keys (db_watch out.1)) (apply_delete_resource rv key emit s).
Proof.
  intros Hr. unfold apply_delete_resource. destruct (get_existing_resource _ _); [|by eapply roomy_drop].
  destruct (decide_resource_delete _ _ _) as [[]|]; [by eapply roomy_drop|by apply emit_runs|apply runs_violation].
Qed.

Lemma put_namespace_runs rv keys row emit s :
  nr_resource_version row = rv ->
  roomy rv (mutation_keys emit (PutNamespace row) ++ keys)%list (db_watch s) ->
  runs (fun out => roomy rv keys (db_watch out.1)) (put_namespace_row row emit s).
Proof.
  intros Hv Hr. unfold put_namespace_row. cbn [mutation_keys] in Hr. destruct (is_some_and _ _); [by eapply roomy_drop|].
  destruct emit; [|done]. cbn [negb]. apply runs_bind. eapply runs_mono; [by eapply conn_runs|]. done.
Qed.

Lemma delete_namespace_runs rv keys name emit s :
  roomy rv (mutation_keys emit (DeleteNamespace name) ++ keys)%list (db_watch s) ->
  runs (fun out => roomy rv keys (db_watch out.1)) (delete_namespace_row rv name emit s).
Proof.
  intros Hr. unfold delete_namespace_row. cbn [mutation_keys] in Hr. destruct (_ !! name); [|by eapply roomy_drop]. destruct emit; [|done]. cbn [negb].
  apply runs_bind. eapply runs_mono; [by eapply conn_runs|]. done.
Qed.

(** RFC 7396, as [json_patch::merge] documents it: what the patch does not name stays. *)
Hypothesis merge_keeps_uid :
  forall v patch, patch_keeps_uid patch = true -> metadata_uid (merge v patch) = metadata_uid v.

Lemma uid_immutable_same a b : metadata_uid a = metadata_uid b -> validate_metadata_uid_immutable a b = Ok tt.
Proof.
  unfold validate_metadata_uid_immutable. intros ->. destruct (metadata_uid b) as [uid|]; [|done].
  unfold validate_apply_preconditions. cbn. by rewrite String.eqb_refl.
Qed.

Lemma without_status_keeps_uid patch : patch_keeps_uid patch = true -> patch_keeps_uid (pod_delete_mark_patch_without_status patch) = true.
Proof.
  destruct patch as [| | | | |m]; try done. cbn [pod_delete_mark_patch_without_status map_object patch_keeps_uid]. rewrite !forallb_forall.
  intros H e [_ He]%list_elem_of_In%list_elem_of_filter. by apply H, list_elem_of_In.
Qed.

Lemma latest_runs patch current namespace :
  patch_keeps_uid (rp_patch patch) = true ->
  runs (fun _ => True) (apply_latest_patch_to_current_resource merge patch current namespace).
Proof using merge_keeps_uid.
  intros Hp. unfold apply_latest_patch_to_current_resource.
  destruct (validate_apply_preconditions _ _); [|apply runs_violation]. cbn zeta.
  destruct (is_pod_delete_mark_patch _ _ _); destruct (rp_patch_kind patch); rewrite uid_immutable_same; try done.
  - unfold mark_terminating_pod_unready_at, metadata_uid, pointer_str. rewrite pointer_get_mut_ne by done.
    fold (pointer_str ["metadata"; "uid"] (merge (rw_data current) (pod_delete_mark_patch_without_status (rp_patch patch)))).
    apply merge_keeps_uid. by apply without_status_keeps_uid.
  - by apply merge_keeps_uid.
Qed.

Lemma patch_runs rv keys patch emit s :
  rp_resource_version patch = rv -> patch_keeps_uid (rp_patch patch) = true ->
  roomy rv (mutation_keys emit (PatchResourceLatest patch) ++ keys)%list (db_watch s) ->
  runs (fun out => roomy rv keys (db_watch out.1)) (apply_patch_resource_latest float_to_string merge patch emit s).
Proof using merge_keeps_uid.
  intros <- Hp Hr. cbn [mutation_keys] in Hr. unfold apply_patch_resource_latest. destruct (get_existing_resource _ _) as [current|].
  - apply runs_bind. eapply runs_mono; [by apply latest_runs|]. intros data _. by apply emit_runs.
  - destruct (rp_require_existing patch); [done|]. by eapply roomy_drop.
Qed.

Lemma roomy_gc rv keys max_rows batch_cap w :
  roomy rv keys w -> roomy rv keys (gc_watch_events_in_tx max_rows batch_cap w).
Proof.
  intros [Hnd Hnew Hseq Hids]. split; try done; cbn [gc_watch_events_in_tx watch_events watch_seq].
  - intros e [_ He]%list_elem_of_filter. by apply Hnew.
  - unfold high_id in *. cbn [gc_watch_events_in_tx watch_events watch_seq].
    assert (max_event_id (filter (fun e => e.1 ∉ (gc_candidates max_rows batch_cap
      (watch_events_min_scope_rows_for_scope_count max_rows (scope_count (watch_events w))) (watch_events w)).*1)
      (watch_events w)) <= Z.max (watch_seq w) (max_event_id (watch_events w)))%Z; [|lia].
    apply max_event_id_le; [lia|]. intros e [_ He%max_event_id_ge]%list_elem_of_filter. lia.
Qed.

Lemma push_runs (P : SqliteState -> Prop) effects r :
  runs (fun out => P out.1) r -> runs (fun out => P out.1) (push_effect effects r).
Proof. intros H. unfold push_effect. apply runs_bind. by eapply runs_mono. Qed.

Lemma mutation_runs rv keys m emit s effects :
  constraint_free m -> carries rv m -> settled s m -> roomy rv (mutation_keys emit m ++ keys)%list (db_watch s) ->
  runs (fun st => roomy rv keys (db_watch st.1))
    (apply_cluster_mutation parse_from_rfc3339 float_to_string merge rv (to_cluster_mutation m) emit (s, effects)).
Proof using merge_keeps_uid.
  intros Hc Hv Hs Hr. destruct m; cbn [to_cluster_mutation apply_cluster_mutation]; try done.
  all: try (cbn in Hv; rewrite Hv, Z.eqb_refl; cbn [negb]).
  all: try apply (push_runs (fun s => roomy rv keys (db_watch s))).
  - by apply put_runs.
  - by apply patch_runs.
  - by apply delete_runs.
  - by apply put_namespace_runs.
  - by apply delete_namespace_runs.
  - unfold put_node_dataplane. destruct Hc as [Hm He].
    assert ((dr_mode row =?s "root") || (dr_mode row =?s "rootless") = true) as -> by (by destruct Hm as [-> | ->]).
    assert ((dr_encryption row =?s "enabled") || (dr_encryption row =?s "disabled") = true) as -> by (by destruct He as [-> | ->]).
    done.
  - cbn. by apply roomy_gc.
  - cbn in Hc, Hv, Hr. apply runs_bind. unfold apply_put_watch_event. rewrite Hc. apply runs_bind.
    eapply runs_mono; [by eapply conn_runs|]. done.
  - done.
Qed.

Lemma mutations_run rv emit ms s effects :
  Forall constraint_free ms -> Forall (carries rv) ms -> Forall (settled s) ms -> Forall full_write (tail ms) ->
  roomy rv (commit_keys emit ms) (db_watch s) ->
  runs (fun _ => True) (apply_mutations parse_from_rfc3339 float_to_string merge rv emit ms (s, effects)).
Proof using merge_keeps_uid.
  intros Hc Hv Hset Hf Hr. revert s effects Hset Hr. induction ms as [|m ms IH]; intros s effects Hset Hr; [done|].
  apply Forall_cons in Hc as [Hc1 Hc], Hv as [Hv1 Hv], Hset as [Hs1 Hset]. cbn [tail] in Hf. cbn [apply_mutations].
  change (commit_keys emit (m :: ms)) with (mutation_keys emit m ++ commit_keys emit ms)%list in Hr. apply runs_bind. eapply runs_mono; [by eapply mutation_runs|]. intros [s' effects'] Hr'. apply IH; try done.
  - destruct ms; [done|]. by apply Forall_cons in Hf as [_ ?].
  - eapply Forall_impl; [exact Hf|]. apply full_write_settled.
Qed.

(** ** Commits *)

Lemma noops_sublist s ms ms' b : resolve_noops parse_from_rfc3339 ms s = Ok (ms', b) -> ms' `sublist_of` ms.
Proof.
  revert ms' b. induction ms as [|m ms IH]; intros ms' b; [by intros [= <- <-]|]. cbn [resolve_noops].
  destruct m; try (destruct (resolve_noops _ ms s) as [[rest c]|]; [|done]; cbn; intros [= <- <-]; constructor; by eapply IH).
  destruct (resolve_noop_put_resource_in_tx _ row s) as [o|] eqn:Ho; [|done]. cbn [result_bind].
  destruct (resolve_noops _ ms s) as [[rest c]|]; [|done]. cbn. specialize (IH rest c eq_refl).
  destruct o as [row'|]; intros [= <- <-]; [|by constructor]. replace row' with row; [by constructor|].
  revert Ho. unfold resolve_noop_put_resource_in_tx. destruct (get_existing_resource _ _); [|by intros [= <-]].
  destruct (negb _); [by intros [= <-]|]. destruct (validate_put_resource_apply_preconditions _ _); [|done]. cbn.
  destruct (normalize_committed_resource_for_apply _ _ _); [|done]. cbn. destruct (value_eqb _ _); by intros [= <-].
Qed.

Lemma noop_runs row s : settled s (PutResource row) -> runs (fun _ => True) (resolve_noop_put_resource_in_tx parse_from_rfc3339 row s).
Proof.
  intros Hs. unfold resolve_noop_put_resource_in_tx. cbn in Hs. destruct (get_existing_resource _ _) as [e|]; [|done].
  destruct (negb _); [done|]. apply runs_bind. eapply runs_mono; [apply validate_runs|intros _ _]. apply runs_bind.
  eapply runs_mono; [apply normalize_runs|intros row' _; by destruct (value_eqb _ _)].
  intros Hso e' [= <-]. by apply Hs.
Qed.

Lemma noops_run ms s : Forall (settled s) ms -> runs (fun out => out.1 `sublist_of` ms) (resolve_noops parse_from_rfc3339 ms s).
Proof.
  intros Hs. destruct (resolve_noops parse_from_rfc3339 ms s) as [[ms' b]|e] eqn:Hn; [cbn; by eapply noops_sublist|].
  enough (Hr : runs (fun _ => True) (resolve_noops parse_from_rfc3339 ms s)) by (rewrite Hn in Hr; by destruct e).
  clear Hn. induction Hs as [|m ms Hm _ IH]; [done|]. cbn [resolve_noops].
  destruct m; try (apply runs_bind; by eapply runs_mono).
  apply runs_bind. eapply runs_mono; [by apply noop_runs|]. intros o _. apply runs_bind. eapply runs_mono; [exact IH|].
  intros out _. by destruct o.
Qed.

Lemma Forall_sublist {A} (P : A -> Prop) l l' : l' `sublist_of` l -> Forall P l -> Forall P l'.
Proof.
  rewrite !Forall_forall. intros Hs HP x Hx. apply HP. by eapply elem_of_submseteq, sublist_submseteq.
Qed.

Lemma sublist_tail {A} (P : A -> Prop) l l' : l' `sublist_of` l -> Forall P (tail l) -> Forall P (tail l').
Proof.
  intros Hs Ht. destruct Hs as [|x l1 l2 Hs|x l1 l2 Hs]; cbn in *; [done|by eapply Forall_sublist|].
  assert (Forall P l1) by by eapply Forall_sublist. by apply Forall_tail.
Qed.

Lemma keys_sublist emit ms ms' : ms' `sublist_of` ms -> commit_keys emit ms' `sublist_of` commit_keys emit ms.
Proof.
  induction 1 as [|m l1 l2 _ IH|m l1 l2 _ IH]; [done| |]; unfold commit_keys in *; cbn.
  - by apply sublist_app.
  - by apply sublist_inserts_l.
Qed.

Lemma roomy_sublist rv keys keys' w : keys' `sublist_of` keys -> roomy rv keys w -> roomy rv keys' w.
Proof.
  intros Hs [Hnd Hnew Hseq Hids]. split; [by eapply sublist_NoDup| |done|apply sublist_length in Hs; lia].
  intros e He Hr Hin. apply (Hnew e He Hr). by eapply elem_of_submseteq, sublist_submseteq.
Qed.

Context (encode : StorageResponse -> result string string).
Context (decode : string -> result string StorageResponse).

Abbreviation stamp := (stamp_mutation encode decode).

Lemma stamp_keys rv preserve emit ms : commit_keys emit (stamp rv preserve <$> ms) = commit_keys emit ms.
Proof. unfold commit_keys. induction ms as [|m ms IH]; [done|]. cbn. rewrite IH. f_equal. by destruct m. Qed.

Lemma stamp_carries rv preserve m : carries 0 m -> carries rv (stamp rv preserve m).
Proof. destruct m; cbn; try done; by intros ->. Qed.

Lemma stamp_forall (P : LogApplyMutation -> Prop) rv preserve ms :
  (forall m, P m -> P (stamp rv preserve m)) -> Forall P ms -> Forall P (stamp rv preserve <$> ms).
Proof. intros HP Hms. apply Forall_fmap. by eapply Forall_impl. Qed.

Lemma ledger_keys emit ms : forallb is_put_applied_outbox ms = true -> commit_keys emit ms = [].
Proof. unfold commit_keys. induction ms as [|m ms IH]; [done|]. cbn. rewrite andb_true_iff. intros [Hm ?]. rewrite IH by done. by destruct m. Qed.

(** A template no mutation of which can be stopped, over a log with room. *)
Record applicable (emit : bool) (ms : list LogApplyMutation) (s : SqliteState) : Prop := {
  ap_free : Forall constraint_free ms;
  ap_template : Forall (carries 0) ms;
  ap_settled : Forall (settled s) ms;
  ap_full : Forall full_write (tail ms);
  ap_distinct : NoDup (commit_keys emit ms);
  ap_seq : (0 <= watch_seq (db_watch s))%Z;
  ap_ids : (high_id (db_watch s) + Z.of_nat (length (commit_keys emit ms)) <= i64_max)%Z
}.

Lemma applicable_sublist emit ms ms' s : ms' `sublist_of` ms -> applicable emit ms s -> applicable emit ms' s.
Proof.
  intros Hs [Ha Hb Hc Hd He Hf Hg]. pose proof (keys_sublist emit _ _ Hs) as Hk.
  split; [by eapply Forall_sublist..|by eapply sublist_tail|by eapply sublist_NoDup|done|].
  apply sublist_length in Hk. lia.
Qed.

Lemma stamped_runs emit c s c2 s1 :
  applicable emit (ac_mutations c) s -> fresh c s -> versions_ok s ->
  stamp_provisional_resource_version_in_tx encode decode c s = (c2, s1) ->
  runs (fun _ => True)
    (apply_mutations parse_from_rfc3339 float_to_string merge (ac_resource_version c2) emit (ac_mutations c2) (s1, [])).
Proof using merge_keeps_uid.
  intros [Hfree Htem Hset Hfull Hnd Hseq Hids] Hf Hv Hs. pose proof (fresh_stamp _ _ _ _ _ _ Hf Hs) as [_ Hcase].
  assert (exists rv, ac_mutations c2 = stamp rv (ac_preserve_historical_bytes c) <$> ac_mutations c /\ ac_resource_version c2 = rv)
    as (rv & Hms & Hrv).
  { revert Hs. unfold stamp_provisional_resource_version_in_tx. destruct (if _ && _ then _ else _) as [rv ?].
    intros [= <- <-]. by exists rv. }
  rewrite Hrv in *. rewrite Hms. assert (Hsame : db_resources s1 = db_resources s /\ db_watch s1 = db_watch s).
  { by destruct Hcase as [(-> & _)|(-> & _)]. }
  destruct Hsame as [Hr Hw]. apply mutations_run.
  - apply stamp_forall; [|done]. by intros [].
  - apply Forall_fmap. eapply Forall_impl; [exact Htem|]. intros m. apply stamp_carries.
  - apply stamp_forall; [by intros []|]. eapply Forall_impl; [exact Hset|]. intros []; cbn; by rewrite ?Hr.
  - clear -Hfull. destruct (ac_mutations c); [done|]. cbn in *. apply stamp_forall; [|done]. by intros [].
  - rewrite stamp_keys, Hw. split; try done. intros e He Hre. destruct Hcase as [(_ & _ & Hall)|(_ & Hrv')].
    + rewrite Hms, stamp_rows_all in Hall. rewrite ledger_keys by done. apply not_elem_of_nil.
    + apply (vo_events _ Hv) in He. lia.
Qed.

(** An entry as the leader proposes it: a template of such mutations, or a single
    Pod finalization with its ledger row. *)
Record entry_ok (commit : LogApplyCommit) : Prop := {
  eo_template : validate_live_template commit = Ok tt;
  eo_full : Forall full_write (tail (lc_mutations commit));
  eo_mutations :
    (Forall constraint_free (lc_mutations commit)
     /\ NoDup (commit_keys (negb (existsb is_put_watch_event (lc_mutations commit))) (lc_mutations commit)))
    \/ exists f rows, lc_mutations commit = FinalizeBoundPod f :: rows /\ forallb is_put_applied_outbox rows = true
}.

Lemma validated_carries ms : validate_mutations ms = Ok tt -> Forall (carries 0) ms.
Proof.
  induction ms as [|m ms IH]; [constructor|]. cbn [validate_mutations]. destruct (validate_mutation m) as [[]|] eqn:Hm; [|done].
  cbn. intros Hms. constructor; [|by apply IH]. revert Hm. clear. destruct m; try done; cbn; unfold validate_zero.
  all: repeat (destruct (validate_json_resource_version _ _); [|done]; cbn [result_bind]).
  all: match goal with |- context [(?x =? 0)%Z] => by destruct (Z.eqb_spec x 0) end.
Qed.

Lemma ledger_forall (P : LogApplyMutation -> Prop) rows :
  (forall row, P (PutAppliedOutbox row)) -> forallb is_put_applied_outbox rows = true -> Forall P rows.
Proof.
  intros HP. induction rows as [|m rows IH]; [constructor|]. cbn. rewrite andb_true_iff. intros [Hm Hrows].
  constructor; [|by apply IH]. by destruct m.
Qed.

Lemma finalization_applicable l rows s :
  forallb is_put_applied_outbox rows = true ->
  l = [] \/ (exists row key, l = [PutWatchEvent row; DeleteResource key] /\ wr_event_id row = None /\ wr_resource_version row = 0%Z) ->
  (0 <= watch_seq (db_watch s))%Z -> (high_id (db_watch s) + 1 <= i64_max)%Z ->
  applicable (negb (existsb is_put_watch_event rows) && negb (existsb is_put_watch_event (l ++ rows))) (l ++ rows) s.
Proof.
  intros Hrows Hl Hseq Hids. pose proof (fun emit => ledger_keys emit rows Hrows) as Hk.
  assert (Hall : forall P : LogApplyMutation -> Prop, (forall row, P (PutAppliedOutbox row)) -> Forall P rows)
    by (intros P HP; by apply ledger_forall).
  destruct Hl as [->|(row & key & -> & Hid & Hrv)]; cbn [app existsb is_put_watch_event orb negb].
  - split; try by apply Hall.
    + by apply Forall_tail, Hall.
    + rewrite Hk. constructor.
    + done.
    + rewrite Hk. cbn. lia.
  - rewrite andb_false_r. unfold commit_keys in Hk. split; try (repeat constructor; try done; by apply Hall).
    + unfold commit_keys. cbn. rewrite Hk. apply NoDup_singleton.
    + unfold commit_keys. cbn. rewrite Hk. cbn. lia.
Qed.

(** What remains of an entry once its finalizations are resolved. *)
Lemma resolved_applicable commit s :
  let ms := lc_mutations commit in
  let resolved := concat (resolve_finalization 0 s <$> ms) in
  entry_ok commit -> Forall (settled s) ms -> (0 <= watch_seq (db_watch s))%Z ->
  (high_id (db_watch s) + Z.of_nat (length ms) <= i64_max)%Z ->
  applicable (negb (existsb is_put_watch_event ms) && negb (existsb is_put_watch_event resolved)) resolved s.
Proof.
  intros ms resolved [Ht Hfull Hms] Hset Hseq Hids. subst resolved. fold ms in Hms, Hfull.
  assert (Hcar : Forall (carries 0) ms).
  { apply validated_carries. revert Ht. unfold validate_live_template. by destruct (validate_zero _ _). }
  destruct Hms as [[Hfree Hnd]|(f & rows & Hms & Hrows)].
  - assert (concat (resolve_finalization 0 s <$> ms) = ms) as ->.
    { clear -Hfree. induction Hfree as [|m l Hm _ IH]; [done|]. cbn. rewrite IH. by destruct m. }
    rewrite andb_diag. split; try done. etransitivity; [|exact Hids]. apply Z.add_le_mono_l, inj_le.
    clear. unfold commit_keys. set (emit := negb _). clearbody emit. induction ms as [|m l IH]; [done|]. cbn.
    rewrite length_app. assert (length (mutation_keys emit m) <= 1)%nat; [|lia]. destruct m, emit; cbn; lia.
  - rewrite Hms in *. cbn [fmap list_fmap concat]. rewrite finalizations_ledger by done.
    cbn [existsb is_put_watch_event orb]. apply finalization_applicable; [done| |done|cbn in Hids; lia].
    cbn. repeat case_match; eauto 10.
Qed.

(** The part of a transaction after the stream position was found to be next. *)
Lemma commit_runs emit c s :
  ac_preserve_historical_bytes c = false -> ac_resource_version c = 0%Z \/ ac_resource_version c = db_rv s ->
  (0 <= db_rv s)%Z -> fresh c s -> versions_ok s ->
  outbox_watermark_decision_in_tx (ac_outbox_watermark c) s = Ok WApply ->
  (let resolved := ac_mutations (resolve_bound_pod_finalizations_in_tx c s) in
   applicable (emit && negb (existsb is_put_watch_event resolved)) resolved s) ->
  runs (fun _ => True)
    (apply_commit_in_tx_with_watch_events parse_from_rfc3339 float_to_string merge encode decode c emit s).
Proof using merge_keeps_uid.
  intros Hp Hrv Hpos Hf Hv Hd Hap. unfold apply_commit_in_tx_with_watch_events.
  destruct (Z.ltb_spec (ac_resource_version c) 0); [lia|]. clear H.
  apply fresh_finalizations in Hf. revert Hf Hap. set (c0 := resolve_bound_pod_finalizations_in_tx c s).
  change (ac_outbox_watermark c0) with (ac_outbox_watermark c). rewrite Hd. cbn [result_bind]. cbn zeta.
  set (emit' := emit && _). clearbody emit'. intros Hf Hap. apply runs_bind.
  destruct (resolve_noop_put_resources_in_tx _ c0 s) as [c1|e] eqn:Hn.
  - cbn [runs]. destruct (stamp_provisional_resource_version_in_tx encode decode c1 s) as [c2 s1] eqn:Hs.
    assert (Hf1 : fresh c1 s) by by eapply fresh_noops.
    assert (Hap1 : applicable emit' (ac_mutations c1) s).
    { revert Hn. unfold resolve_noop_put_resources_in_tx. change (ac_preserve_historical_bytes c0) with (ac_preserve_historical_bytes c).
      rewrite Hp. destruct (resolve_noops _ _ s) as [[ms b]|] eqn:Hms; [|done]. cbn. intros [= <-].
      apply noops_sublist in Hms. cbn. by eapply applicable_sublist. }
    pose proof (stamped_runs emit' c1 s c2 s1 Hap1 Hf1 Hv Hs) as Hr.
    destruct (ac_outbox_watermark c2); [destruct (ac_mutations c2); [done|]|]; apply runs_bind;
      (eapply runs_mono; [exact Hr|]); by intros [].
  - revert Hn. unfold resolve_noop_put_resources_in_tx. change (ac_preserve_historical_bytes c0) with (ac_preserve_historical_bytes c).
    rewrite Hp. pose proof (noops_run (ac_mutations c0) s (ap_settled _ _ _ Hap)) as Hr.
    destruct (resolve_noops _ _ s) as [[ms b]|e']; [done|]. cbn. intros [= <-]. by destruct e'.
Qed.

(** What the database needs: a counter, and room for the events of the entry. *)
Record ready (commit : LogApplyCommit) (s : SqliteState) : Prop := {
  ready_versions : versions_ok s;
  ready_rv : (0 <= db_rv s)%Z;
  ready_seq : (0 <= watch_seq (db_watch s))%Z;
  ready_ids : (high_id (db_watch s) + Z.of_nat (length (lc_mutations commit)) <= i64_max)%Z;
  ready_settled : Forall (settled s) (lc_mutations commit)
}.

Lemma entry_runs commit s :
  entry_ok commit -> ready commit s -> outbox_watermark_decision_in_tx (lc_outbox_watermark commit) s = Ok WApply ->
  runs (fun _ => True)
    (apply_commit_in_tx_returning_rv_and_mutation_with_context parse_from_rfc3339 float_to_string merge encode decode commit s).
Proof using merge_keeps_uid.
  intros Hok [Hv Hpos Hseq Hids Hset] Hd. unfold apply_commit_in_tx_returning_rv_and_mutation_with_context.
  destruct (from_live commit) as [c|e] eqn:Hl; cbn [result_bind].
  2:{ revert Hl. unfold from_live, validate_live. by rewrite (eo_template _ Hok). }
  destruct (from_live_fresh commit c s Hl) as (Hf & Hw & Hms). revert Hl. unfold from_live, validate_live.
  rewrite (eo_template _ Hok). cbn [result_bind]. intros [= <-]. destruct (validated_template commit (eo_template _ Hok)) as [Hrv _].
  apply commit_runs; try done; [by left|]. cbn [resolve_bound_pod_finalizations_in_tx set_mutations ac_mutations ac_resource_version].
  rewrite Hrv. by apply resolved_applicable.
Qed.

(** ** The raft entry point *)

(** Mutations that leave the ledger alone. *)
Definition off_ledger (m : LogApplyMutation) : Prop :=
  match m with PutAppliedOutbox _ | DeleteAppliedOutbox _ | GcAppliedOutbox _ _ => False | _ => True end.

(** The mutations end with the ledger row of a key. *)
Definition ends_with_row (key : string) (ms : list LogApplyMutation) : Prop :=
  exists body row, ms = (body ++ [PutAppliedOutbox row])%list /\ or_idempotency_key row = key.

Lemma ends_finalizations key rv s ms :
  ends_with_row key ms -> ends_with_row key (concat (resolve_finalization rv s <$> ms)).
Proof. intros (body & row & -> & Hk). rewrite fmap_app, concat_app. cbn. by eexists _, row. Qed.

Lemma ends_noops key s ms ms' b :
  ends_with_row key ms -> resolve_noops parse_from_rfc3339 ms s = Ok (ms', b) -> ends_with_row key ms'.
Proof.
  intros (body & row & -> & Hk). revert ms' b. induction body as [|m body IH]; intros ms' b.
  { cbn. intros [= <- <-]. by exists [], row. }
  assert (Hcons : forall m l, ends_with_row key l -> ends_with_row key (m :: l)).
  { intros m' l (body' & row' & -> & Hk'). by exists (m' :: body')%list, row'. }
  cbn [app resolve_noops]. destruct m; try (destruct (resolve_noops _ (body ++ _)%list s) as [[rest c]|]; [|done]; cbn;
    intros [= <- <-]; eapply Hcons, IH; done).
  destruct (resolve_noop_put_resource_in_tx _ _ s) as [o|]; [|done]. cbn [result_bind].
  destruct (resolve_noops _ (body ++ _)%list s) as [[rest c]|]; [|done]. cbn.
  destruct o; intros [= <- <-]; [eapply Hcons|]; by eapply IH.
Qed.

Lemma ends_applied key rv emit ms st st' :
  ends_with_row key ms -> apply_mutations parse_from_rfc3339 float_to_string merge rv emit ms st = Ok st' ->
  is_Some (db_outbox st'.1 !! key).
Proof.
  intros (body & row & -> & <-). revert st. induction body as [|m body IH]; intros st; cbn [app apply_mutations].
  - destruct st as [s effects]. cbn. intros [= <-]. cbn. rewrite lookup_insert_eq. by eexists.
  - destruct (apply_cluster_mutation _ _ _ _ _ _ _) as [st1|]; [|done]. cbn [result_bind]. apply IH.
Qed.

Lemma applied_row key c s s' :
  ac_preserve_historical_bytes c = false -> ends_with_row key (ac_mutations c) ->
  outbox_watermark_decision_in_tx (ac_outbox_watermark c) s = Ok WApply ->
  applied parse_from_rfc3339 float_to_string merge encode decode c s s' -> is_Some (db_outbox s' !! key).
Proof.
  intros Hp He Hd [d c1 c2 s1 Hd' Hn Hs Hb]. rewrite Hd in Hd'. injection Hd' as <-.
  apply (ends_finalizations _ (ac_resource_version c) s) in He.
  assert (He1 : ends_with_row key (ac_mutations c1)).
  { revert Hn. unfold resolve_noop_put_resources_in_tx. cbn [resolve_bound_pod_finalizations_in_tx set_mutations ac_mutations
      ac_preserve_historical_bytes]. rewrite Hp. destruct (resolve_noops _ _ s) as [[ms b]|] eqn:Hms; [|done].
    intros [= <-]. cbn. by eapply ends_noops. }
  assert (He2 : ends_with_row key (ac_mutations c2)).
  { revert Hs. unfold stamp_provisional_resource_version_in_tx. destruct (if _ && _ then _ else _) as [rv s2].
    intros [= <- <-]. cbn. destruct He1 as (body & row & -> & Hk). rewrite fmap_app. by eexists _, _. }
  assert (Hadv : forall rv t, db_outbox (advance_metadata_rv_to_at_least_tx rv t) = db_outbox t)
    by (intros rv t; unfold advance_metadata_rv_to_at_least_tx; by destruct (_ <? _)%Z).
  destruct Hb as [(w & _ & Hnil & _)|[[? _]|(_ & emit & s2 & pending & Ha & ->)]]; [|done|].
  - destruct He2 as ([|] & row & Hms & _); by rewrite Hms in Hnil.
  - apply (ends_applied key) in Ha; [|done]. rewrite Hadv.
    destruct (upsert_watermark_set (ac_outbox_watermark c) s2) as [wm ->]. done.
Qed.

Lemma ledger_noops ms s : forallb is_put_applied_outbox ms = true -> resolve_noops parse_from_rfc3339 ms s = Ok (ms, false).
Proof. induction ms as [|m ms IH]; [done|]. cbn. rewrite andb_true_iff. intros [Hm Hms]. destruct m; try done. by rewrite IH. Qed.

Lemma ledger_apply rv emit ms st :
  forallb is_put_applied_outbox ms = true ->
  exists st', apply_mutations parse_from_rfc3339 float_to_string merge rv emit ms st = Ok st'.
Proof.
  revert st. induction ms as [|m ms IH]; intros st; [by eexists|]. cbn [forallb]. rewrite andb_true_iff. intros [Hm Hms].
  destruct st as [s effects]. destruct m; try done. cbn. by apply IH.
Qed.

(** An entry of ledger rows alone is always recorded. *)
Lemma ledger_commit emit c s :
  ac_preserve_historical_bytes c = false -> (0 <= ac_resource_version c)%Z -> forallb is_put_applied_outbox (ac_mutations c) = true ->
  outbox_watermark_decision_in_tx (ac_outbox_watermark c) s = Ok WApply ->
  exists out, apply_commit_in_tx_with_watch_events parse_from_rfc3339 float_to_string merge encode decode c emit s = Ok out.
Proof.
  intros Hp Hpos Hall Hd. unfold apply_commit_in_tx_with_watch_events, resolve_noop_put_resources_in_tx.
  destruct (Z.ltb_spec (ac_resource_version c) 0); [lia|].
  cbn [resolve_bound_pod_finalizations_in_tx set_mutations ac_mutations ac_outbox_watermark ac_preserve_historical_bytes].
  rewrite finalizations_ledger by done. rewrite Hd, Hp. cbn [result_bind]. rewrite ledger_noops by done. cbn [result_bind fst snd andb].
  set (c1 := set_mutations _ _). destruct (stamp_provisional_resource_version_in_tx encode decode c1 s) as [c2 s1] eqn:Hs.
  assert (Hall2 : forallb is_put_applied_outbox (ac_mutations c2) = true).
  { revert Hs. unfold stamp_provisional_resource_version_in_tx. destruct (if _ && _ then _ else _) as [rv s2].
    intros [= <- <-]. cbn. by rewrite stamp_rows_all. }
  set (emit' := emit && _). destruct (ledger_apply (ac_resource_version c2) emit' (ac_mutations c2) (s1, []) Hall2) as [[s2 pending] ->].
  cbn [result_bind]. destruct (ac_outbox_watermark c2); [destruct (ac_mutations c2)|]; by eexists.
Qed.

Lemma ledger_only_ok commit last incoming effect s :
  validate_live_template commit = Ok tt -> (0 <= db_rv s)%Z -> stale_stamp commit s = Some (last, incoming) ->
  outbox_watermark_decision_in_tx (lc_outbox_watermark commit) s = Ok WApply ->
  exists out, record_ledger_only parse_from_rfc3339 float_to_string merge encode decode commit last incoming effect s = Ok out.
Proof.
  intros Ht Hpos Hst Hd. unfold record_ledger_only, from_live, validate_live. rewrite (outbox_rows_only_template _ Ht). cbn [result_bind].
  destruct (ledger_commit true (set_commit_rv (db_rv s) (mkApplyCommit (lc_resource_version (commit_with_outbox_rows_only commit))
    (lc_outbox_watermark (commit_with_outbox_rows_only commit)) (lc_mutations (commit_with_outbox_rows_only commit)) false)) s)
    as [[s' [[rv pending] resource]] ->]; [done|done| |done|].
  { cbn. apply forallb_forall. intros m Hm%list_elem_of_In. by apply list_elem_of_filter in Hm as [? _]. }
  cbn [result_bind]. enough (stamp_cmp last incoming <> Lt) as Hc by (destruct (stamp_cmp last incoming); [by eexists|done|by eexists]).
  revert Hst. unfold stale_stamp, decide_status_stamp. destruct (stamped_pod_status_subject_and_stamp commit) as [[subject stamp]|]; [|done].
  destruct (max_status_stamp subject s) as [top|]; [|done]. destruct (Z.ltb_spec 0 stamp); [|done].
  destruct (Z.leb_spec stamp top); [|done]. cbn. intros [= <- <-]. cbn. by apply Z.compare_ge_iff.
Qed.

Definition keeps_row (commit : LogApplyCommit) : Prop :=
  forall template, ledger_template commit = Some template -> ends_with_row (or_idempotency_key template) (lc_mutations commit).

Lemma attempt_ok commit s :
  entry_ok commit -> ready commit s -> keeps_row commit -> (forall response, exists bytes, encode response = Ok bytes) ->
  outbox_watermark_decision_in_tx (lc_outbox_watermark commit) s = Ok WApply ->
  exists out, attempt parse_from_rfc3339 float_to_string merge encode decode commit (ledger_template commit) s = Ok out.
Proof using merge_keeps_uid.
  intros Hok Hready Hrow Henc Hd. unfold attempt. pose proof (entry_runs commit s Hok Hready Hd) as Hr.
  destruct (apply_commit_in_tx_returning_rv_and_mutation_with_context _ _ _ _ _ commit s) as [[s' [[rv pending] resource]]|e] eqn:Ha.
  2:{ destruct e; try done. by eexists. }
  enough (exists s2, record_finalization encode (ledger_template commit) resource rv s' = Ok s2) as [s2 ->] by by eexists.
  unfold record_finalization. destruct (ledger_template commit) as [template|] eqn:Ht; [|by eexists].
  destruct resource as [r|]; [|by eexists]. destruct (_ && _ && _); [|by eexists].
  destruct (Henc (RespResource (r_resource_version r) (r_data r))) as [bytes ->].
  enough (is_Some (db_outbox s' !! or_idempotency_key template)) as [row ->] by by eexists.
  revert Ha. unfold apply_commit_in_tx_returning_rv_and_mutation_with_context, from_live, validate_live.
  rewrite (eo_template _ Hok). cbn [result_bind]. intros Ha%apply_commit_applied. eapply applied_row; [..|exact Ha]; try done.
  by apply Hrow.
Qed.

Lemma raft_ok commit s d :
  entry_ok commit -> ready commit s -> keeps_row commit -> (forall response, exists bytes, encode response = Ok bytes) ->
  outbox_watermark_decision_in_tx (lc_outbox_watermark commit) s = Ok d -> (forall last next, d <> WGap last next) ->
  ledger_answer commit s = None ->
  exists out, apply_commit_in_tx_for_raft_with_context parse_from_rfc3339 float_to_string merge encode decode commit s = Ok out.
Proof using merge_keeps_uid.
  intros Hok Hready Hrow Henc Hd Hgap Hans. unfold apply_commit_in_tx_for_raft_with_context, validate_live.
  rewrite (eo_template _ Hok). cbn [result_bind]. fold (ledger_template commit). fold (ledger_answer commit s). rewrite Hans, Hd.
  cbn [result_bind]. destruct d as [| |last next]; [| |by destruct (Hgap last next)].
  - enough (exists out, match stale_stamp commit s with
      | Some (last, incoming) => record_ledger_only parse_from_rfc3339 float_to_string merge encode decode commit last incoming
          (endpoint_effect (pod_status_target commit) (pod_state_in_tx (pod_status_target commit) s)
            (pod_state_in_tx (pod_status_target commit) s)) s
      | None => attempt parse_from_rfc3339 float_to_string merge encode decode commit (ledger_template commit) s end = Ok out)
      as [out ->] by (destruct (lc_mutations commit), (lc_outbox_watermark commit); by eexists).
    destruct (stale_stamp commit s) as [[last incoming]|] eqn:Hst; [|by apply attempt_ok].
    by apply ledger_only_ok; [apply Hok|apply Hready|..].
  - destruct (lc_mutations commit), (lc_outbox_watermark commit); by eexists.
Qed.

(** ** Puts whose precondition fails *)

(** The stored objects and their history are the same. *)
Definition same_objects (s s' : SqliteState) : Prop :=
  db_resources s' = db_resources s /\ db_namespaces s' = db_namespaces s /\ db_watch s' = db_watch s.

Lemma stamp_objects c s c2 s1 :
  stamp_provisional_resource_version_in_tx encode decode c s = (c2, s1) ->
  same_objects s s1 /\ exists rv, ac_mutations c2 = stamp rv (ac_preserve_historical_bytes c) <$> ac_mutations c.
Proof.
  unfold stamp_provisional_resource_version_in_tx. destruct (if _ && _ then _ else _) as [rv s2] eqn:Hrv. intros [= <- <-].
  split; [|by exists rv]. revert Hrv. destruct (_ && _); [by intros [= <- <-]|]. destruct (_ =? _)%Z; by intros [= <- <-].
Qed.

Lemma advance_objects rv s : same_objects s (advance_metadata_rv_to_at_least_tx rv s).
Proof. unfold advance_metadata_rv_to_at_least_tx. by destruct (_ <? _)%Z. Qed.

Lemma upsert_objects w s : same_objects s (upsert_watermark w s).
Proof. by destruct w. Qed.

Lemma same_objects_trans s1 s2 s3 : same_objects s1 s2 -> same_objects s2 s3 -> same_objects s1 s3.
Proof. intros (? & ? & ?) (? & ? & ?). split_and!; congruence. Qed.

Abbreviation applied_to := (applied parse_from_rfc3339 float_to_string merge encode decode).

Lemma ledger_applied c s s' :
  ac_preserve_historical_bytes c = false -> forallb is_put_applied_outbox (ac_mutations c) = true ->
  applied_to c s s' -> same_objects s s'.
Proof.
  intros Hp Hall [d c1 c2 s1 Hd Hn Hs Hb].
  assert (Hc1 : forallb is_put_applied_outbox (ac_mutations c1) = true).
  { destruct d; [|injection Hn as <-; cbn; by rewrite finalizations_ledger..]. revert Hn. unfold resolve_noop_put_resources_in_tx.
    cbn [resolve_bound_pod_finalizations_in_tx set_mutations ac_mutations ac_preserve_historical_bytes]. rewrite Hp.
    rewrite finalizations_ledger, ledger_noops by done. by intros [= <-]. }
  destruct (stamp_objects _ _ _ _ Hs) as [Hs1 [rv Hms]].
  destruct Hb as [(w & _ & _ & ->)|[[_ ->]|(_ & emit & s2 & pending & Ha & ->)]]; eapply same_objects_trans; try exact Hs1.
  - eapply same_objects_trans; [apply (upsert_objects (Some w))|apply advance_objects].
  - apply advance_objects.
  - apply ledger_mutations in Ha as [o Ho]; [|by rewrite Hms, stamp_rows_all]. cbn in Ho. subst s2.
    eapply same_objects_trans; [|apply advance_objects]. eapply (same_objects_trans s1 (set_outbox o s1)); [done|apply upsert_objects].
Qed.

(** A put that fails its preconditions is not applied. *)
Lemma refused_not_applied row rows c s s' :
  ac_preserve_historical_bytes c = false -> ac_mutations c = PutResource row :: rows ->
  forallb is_put_applied_outbox rows = true ->
  outbox_watermark_decision_in_tx (ac_outbox_watermark c) s <> Ok WDuplicate ->
  (forall u, validate_put_resource_apply_preconditions row (get_existing_resource (row_identity row) (db_resources s)) <> Ok u) ->
  ~ applied_to c s s'.
Proof.
  intros Hp Hms Hrows Hdup Hval [d c1 c2 s1 Hd Hn Hs Hb]. destruct d; [|by rewrite Hd in Hdup|].
  2:{ injection Hn as <-. destruct (stamp_objects _ _ _ _ Hs) as [_ [rv Hms2]].
      cbn [resolve_bound_pod_finalizations_in_tx set_mutations ac_mutations] in Hms2. rewrite Hms in Hms2.
      destruct Hb as [(w & _ & Hnil & _)|[[? _]|[? _]]]; try done. by rewrite Hms2 in Hnil. }
  assert (Hc1 : ac_mutations c1 = PutResource row :: rows).
  { revert Hn. unfold resolve_noop_put_resources_in_tx. cbn [resolve_bound_pod_finalizations_in_tx set_mutations ac_mutations
      ac_preserve_historical_bytes]. rewrite Hp, Hms. cbn [fmap list_fmap resolve_finalization concat app].
    change (list_fmap _ _ (resolve_finalization (ac_resource_version c) s) rows) with (resolve_finalization (ac_resource_version c) s <$> rows).
    rewrite finalizations_ledger by done. cbn [resolve_noops]. rewrite ledger_noops by done. unfold resolve_noop_put_resource_in_tx.
    destruct (get_existing_resource _ _) as [e|]; [|by intros [= <-]]. destruct (negb _); [by intros [= <-]|].
    destruct (validate_put_resource_apply_preconditions _ _) as [u|]; [|done]. by destruct (Hval u). }
  destruct (stamp_objects _ _ _ _ Hs) as [(Hr & _) [rv Hms2]]. rewrite Hc1 in Hms2.
  destruct Hb as [(w & _ & Hnil & _)|[[? _]|(_ & emit & s2 & pending & Ha & _)]]; [by rewrite Hms2 in Hnil|done|].
  revert Ha. rewrite Hms2. cbn [fmap list_fmap stamp_mutation apply_mutations to_cluster_mutation apply_cluster_mutation].
  destruct (negb _); [done|]. unfold apply_put_resource.
  set (row' := mkResourceRow _ _ _ _ _ _ _ _ _ _ _ _). change (row_identity row') with (row_identity row). rewrite Hr.
  change (validate_put_resource_apply_preconditions row' ?e) with (validate_put_resource_apply_preconditions row e).
  destruct (validate_put_resource_apply_preconditions _ _) as [u|]; [by destruct (Hval u)|done].
Qed.

Lemma delivery_objects commit s :
  (forall c s1, ac_preserve_historical_bytes c = false ->
     outbox_watermark_decision_in_tx (ac_outbox_watermark c) s <> Ok WDuplicate ->
     ac_mutations c = lc_mutations commit -> applied_to c s s1 -> same_objects s s1) ->
  same_objects s (delivery parse_from_rfc3339 float_to_string merge encode decode commit s).
Proof.
  intros Happlied. unfold delivery. destruct (apply_commit_in_tx_for_raft_with_context _ _ _ _ _ commit s) as [[s' o]|] eqn:Hr; [|done].
  apply raft_cases in Hr. destruct Hr as [outcome _|existing applied_rv message returned _ _|c s1 o' outcome Hd Hf Hw Hcms Ha _ _|v code message _ _]; try done.
  - apply (same_objects_trans _ s1); [|done]. destruct Hcms as [Hcms|Hcms].
    + eapply Happlied; [apply Hf|by rewrite Hw|done|done].
    + eapply ledger_applied; [apply Hf| |done]. rewrite Hcms. apply forallb_forall.
      intros m Hm%list_elem_of_In. by apply list_elem_of_filter in Hm as [? _].
  - unfold record_rejection. apply (same_objects_trans _ (upsert_watermark (lc_outbox_watermark commit) s)); [apply upsert_objects|].
    by destruct (ledger_template commit).
Qed.

(** Delivering it leaves the objects and their history as they were. *)
Lemma refused_put row rows commit s :
  lc_mutations commit = PutResource row :: rows -> forallb is_put_applied_outbox rows = true ->
  (forall u, validate_put_resource_apply_preconditions row (get_existing_resource (row_identity row) (db_resources s)) <> Ok u) ->
  same_objects s (delivery parse_from_rfc3339 float_to_string merge encode decode commit s).
Proof.
  intros Hms Hrows Hval. apply delivery_objects. intros c s1 Hp Hd Hcms Ha. exfalso.
  eapply (refused_not_applied row rows c); [done|congruence|done..].
Qed.

(** So does an entry of ledger rows alone. *)
Lemma ledger_delivery commit s :
  forallb is_put_applied_outbox (lc_mutations commit) = true ->
  same_objects s (delivery parse_from_rfc3339 float_to_string merge encode decode commit s).
Proof. intros Hall. apply delivery_objects. intros c s1 Hp _ Hcms. apply ledger_applied; congruence. Qed.

(** ** Creation *)

Lemma get_written i uid rv data s :
  get_existing_resource i (db_resources s) = None ->
  exists id, get_existing_resource i (db_resources (write_resource float_to_string i uid rv data s)) = Some (mkResRow id uid rv rv data).
Proof.
  unfold get_existing_resource, write_resource, upsert_resource, upsert_row. cbn. destruct (ri_scope i); cbn; intros ->;
    rewrite lookup_insert_eq; by eexists.
Qed.

Lemma get_written_ne i j uid rv data s :
  i <> j -> get_existing_resource j (db_resources (write_resource float_to_string i uid rv data s)) = get_existing_resource j (db_resources s).
Proof.
  intros Hne. unfold get_existing_resource, write_resource, upsert_resource, upsert_row. cbn.
  destruct i as [av kind [ns|] name], j as [av' kind' [ns'|] name']; cbn; try done; apply lookup_insert_ne; unfold ns_key, cluster_key; cbn; congruence.
Qed.

Lemma inserted_event id row events : (id, row) ∈ insert_event id row events.
Proof. induction events as [|[id' row'] l IH]; cbn; [by left|]. destruct (id <? id')%Z; [by left|by right]. Qed.

(** What an emitted event leaves in the log. *)
Lemma emitted rv i event_type data s :
  roomy rv [identity_key i] (db_watch s) ->
  exists w data' id, emit_watch true i rv event_type data s
    = Ok (set_watch w s, Some (staged (mkEventRow (ri_api_version i) (ri_kind i) (identity_namespace i) (ri_name i) rv event_type data)))
    /\ (id, mkEventRow (ri_api_version i) (ri_kind i) (identity_namespace i) (ri_name i) rv event_type data') ∈ watch_events w.
Proof.
  intros [_ Hnew Hseq Hids]. unfold emit_watch, insert_watch_event_in_conn, insert_event_row. cbn [negb unwrap_or]. fold (high_id (db_watch s)).
  cbn [length] in Hids. destruct (Z.ltb_spec i64_max (high_id (db_watch s) + 1)); [lia|]. destruct (existsb _ _) eqn:Hex.
  { apply existsb_exists in Hex as (e & He%list_elem_of_In & Hid%Z.eqb_eq). apply max_event_id_ge in He. unfold high_id in Hid. lia. }
  destruct (List.find _ _) as [e|] eqn:Hf.
  { apply List.find_some in Hf as [He%list_elem_of_In [Hke Hre]%same_identity_key]. exfalso.
    apply (Hnew e He); [done|]. rewrite <- Hke. by apply elem_of_cons; left. }
  cbn [result_bind]. eexists _, _, _. split; [done|]. cbn. apply inserted_event.
Qed.

(** The put of an absent object. *)
Lemma put_absent row s :
  rr_require_existing row = false -> get_existing_resource (row_identity row) (db_resources s) = None ->
  apply_put_resource parse_from_rfc3339 float_to_string row true s
  = emit_watch true (row_identity row) (rr_resource_version row) "ADDED" (rr_data row)
      (write_resource float_to_string (row_identity row) (rr_uid row) (rr_resource_version row) (rr_data row) s).
Proof.
  intros Hex Hnone. unfold apply_put_resource. rewrite Hnone.
  unfold validate_put_resource_apply_preconditions, validate_apply_preconditions. cbn. rewrite Hex, andb_false_r. cbn [andb result_bind].
  unfold normalize_committed_resource_for_apply, merge_status_only_row_with_existing, preserve_newer_same_uid_row_on_stale_committed_put. cbn.
  destruct (rr_status_only row) eqn:Hso; cbn; rewrite ?Hso; [done|]. by destruct (rr_precondition_resource_version row).
Qed.

(** An entry of a single put of an absent object. *)
Lemma put_entry_applied row s s' effect :
  let rv := (db_rv s + 1)%Z in
  let commit := mkCommit 0 None [PutResource row] in
  validate_live_template commit = Ok tt -> (0 <= db_rv s)%Z ->
  get_existing_resource (row_identity row) (db_resources s) = None ->
  apply_cluster_mutation parse_from_rfc3339 float_to_string merge rv (to_cluster_mutation (stamp rv false (PutResource row))) true
    (set_rv rv s, []) = Ok (s', effect) -> db_rv s' = rv ->
  delivery parse_from_rfc3339 float_to_string merge encode decode commit s = s'.
Proof.
  intros rv commit Hv Hpos Hnone Ha Hrv.
  assert (exists out, apply_commit_in_tx_returning_rv_and_mutation_with_context parse_from_rfc3339 float_to_string merge
    encode decode commit s = Ok (s', out)) as [[[rv' pending] resource] Hcommit].
  { unfold apply_commit_in_tx_returning_rv_and_mutation_with_context, from_live, validate_live. rewrite Hv. cbn [result_bind].
    unfold apply_commit_in_tx_with_watch_events. cbn. unfold resolve_noop_put_resource_in_tx. rewrite Hnone. cbn.
    cbn in Ha. unfold rv in Ha, Hrv. rewrite Ha. cbn. rewrite advance_current by lia. by eexists. }
  unfold delivery, apply_commit_in_tx_for_raft_with_context, validate_live. rewrite Hv. cbn [result_bind].
  change (head (omap outbox_row (lc_mutations commit))) with (@None LogApplyAppliedOutboxRow). cbn [commit lc_mutations lc_outbox_watermark mbind option_bind].
  cbn [outbox_watermark_decision_in_tx decide_position decide_outbox_watermark result_bind].
  change (stale_stamp commit s) with (@None (option Z * Z)). cbn iota. unfold attempt. rewrite Hcommit. by destruct resource.
Qed.

(** A direct creation of an absent object. *)
Lemma created row s :
  let rv := (db_rv s + 1)%Z in
  let i := row_identity row in
  let data := stamp_data rv rv false (rr_data row) (rr_api_version row) (rr_kind row) (rr_namespace row) (rr_name row) in
  let commit := mkCommit 0 None [PutResource row] in
  validate_live_template commit = Ok tt -> rr_require_existing row = false ->
  get_existing_resource i (db_resources s) = None ->
  versions_ok s -> (0 <= db_rv s)%Z -> (0 <= watch_seq (db_watch s))%Z -> (high_id (db_watch s) + 1 <= i64_max)%Z ->
  exists w data' id,
    delivery parse_from_rfc3339 float_to_string merge encode decode commit s
    = set_watch w (write_resource float_to_string i (rr_uid row) rv data (set_rv rv s))
    /\ (id, mkEventRow (ri_api_version i) (ri_kind i) (identity_namespace i) (ri_name i) rv "ADDED" data') ∈ watch_events w.
Proof.
  intros rv i data commit Hv Hex Hnone Hver Hpos Hseq Hids.
  assert (Hrv0 : rr_resource_version row = 0%Z).
  { revert Hv. unfold validate_live_template. cbn [validate_zero result_bind commit lc_resource_version lc_mutations].
    intros H%validated_carries. by apply Forall_inv in H. }
  assert (Hroom : roomy rv [identity_key i] (db_watch (write_resource float_to_string i (rr_uid row) rv data (set_rv rv s)))).
  { split; [apply NoDup_singleton| |done|done]. intros e He Hre. apply (vo_events _ Hver) in He. lia. }
  destruct (emitted rv i "ADDED" data _ Hroom) as (w & data' & id & Hemit & Hin).
  exists w, data', id. split; [|done].
  eapply put_entry_applied; [done..| |done]. cbn [stamp_mutation to_cluster_mutation apply_cluster_mutation]. rewrite Hrv0.
  cbn [stamp_rv Z.eqb]. cbn [rr_resource_version]. rewrite Z.eqb_refl. cbn [negb].
  rewrite put_absent by done. cbn [rr_resource_version rr_data rr_uid]. unfold push_effect.
  change (row_identity (mkResourceRow _ _ _ _ _ _ _ _ _ _ _ _)) with i. fold rv. fold data. rewrite Hemit. done.
Qed.

End Parameters.
