(* ===== verification/Materialize.v ===== *)
(** * Command materialization: from a command to a committed entry

    [klights-cluster-datastore/src/sqlite/embedded/mod.rs]: the leader reads its
    database and turns a [StorageCommand] into the template of a log entry
    ([build_log_apply_commit_in_tx_from_command]), for a direct write or for a
    delivery of a worker's outbox.  The entry is proposed and applied later, to a
    database other entries may have changed in between; [CommittedApply] is what
    applying it does.

    Stored bodies are values.  Parameters: chrono's formatting, the UUIDs drawn
    ([new_v4 n] is the [n]-th of one materialization), serde_json's parser and
    printer, base64, [json_patch::merge], the wire codec of stored answers and the
    text tokio-rusqlite gives a failed call. *)

From S2P Require Import Prelude Text Json Watch Apply KeyCodec StaleResource StatusMerge StatusRegistry ResourceSemantics LogApply ResourceShape ResourceIndex NodeSubnets NodeRouting Commands SqliteState CommittedApply.

Local Open Scope string_scope.
Local Open Scope rs_scope.

(** ** Errors *)

(** [sqlite_conversion_error]. *)
Definition conversion_error {A} (text : string) : result DbError A := Err (SqliteError text).

Definition map_err_text {A} (r : result string A) : result DbError A :=
  match r with Ok a => Ok a | Err text => conversion_error text end.

(** The text of [DatastoreError::Conflict]. *)
Definition conflict_409 (message : string) : string := message +:+ " (409 Conflict)".

Definition validate_resource_preconditions (preconditions : ResourcePreconditions) (current_uid : string)
    (current_rv : Z) : result DbError unit :=
  match validate_apply_preconditions
          (mkApplyPreconditions false false (pre_uid preconditions) (pre_resource_version preconditions))
          (Some (mkCurrentResourceState (Some current_uid) current_rv)) with
  | Ok _ => Ok tt
  | Err (UidViolation expected _) => conversion_error (conflict_409 ("UID precondition failed: expected " +:+ expected))
  | Err (ResourceVersionViolation expected actual) =>
      conversion_error (conflict_409 ("resourceVersion precondition failed: expected " +:+ to_string expected
                                      +:+ " got " +:+ to_string actual))
  | Err other => conversion_error (conflict_409 (violation_to_string other))
  end.

(** ** Reading the database *)

Definition resource_row_optional_for_update_in_tx (api_version kind : string) (namespace : option string)
    (name : string) (s : SqliteState) : option ResRow :=
  get_existing_resource (resource_identity api_version kind namespace name) (db_resources s).

Definition resource_row_for_update_in_tx (api_version kind : string) (namespace : option string) (name : string)
    (s : SqliteState) : result DbError ResRow :=
  match resource_row_optional_for_update_in_tx api_version kind namespace name s with
  | Some row => Ok row
  | None =>
      conversion_error
        ("Resource not found: " +:+ api_version +:+ "/" +:+ kind +:+ " "
         +:+ (if use_namespaced_table api_version kind namespace then unwrap_or "default" namespace +:+ "/" else "")
         +:+ name)
  end.

Definition namespace_row_in_tx (name : string) (s : SqliteState) : result DbError NamespaceRow :=
  match db_namespaces s !! name with
  | Some row => Ok row
  | None => conversion_error ("Namespace " +:+ name +:+ " not found")
  end.

(** The newest retained event of a resource at or below a version; a later one
    wins a tie. *)
Definition newest_event (api_version kind namespace_key name : string) (resource_version : Z)
    (events : list (Z * EventRow)) : option EventRow :=
  fold_left (fun best e =>
    let row := e.2 in
    if (ev_api_version row =?s api_version) && (ev_kind row =?s kind)
       && (SqliteState.namespace_key (ev_namespace row) =?s namespace_key) && (ev_name row =?s name)
       && (ev_resource_version row <=? resource_version)%Z
       && is_none_or best (fun b => ev_resource_version b <=? ev_resource_version row)%Z
    then Some row else best) events None.

Definition resource_snapshot_for_key_at_rv (api_version kind : string) (namespace : option string) (name : string)
    (resource_version : Z) (s : SqliteState) : option Value :=
  earliest ← head (watch_events (db_watch s));
  if negb (ev_resource_version earliest.2 <=? resource_version + 1)%Z then None
  else
    row ← newest_event api_version kind (namespace_key namespace) name resource_version (watch_events (db_watch s));
    if ev_type row =?s "DELETED" then None else Some (ev_data row).

(** ** Authoring a template *)

(** What a mutation carries as its version, and the mutation without it. *)
Definition zero_version (mutation : LogApplyMutation) : LogApplyMutation * option Z :=
  match mutation with
  | PutResource row =>
      (PutResource (mkResourceRow (rr_api_version row) (rr_kind row) (rr_namespace row) (rr_name row) (rr_uid row) 0
         (clear_metadata_resource_version (rr_data row)) (rr_require_absent row) (rr_require_existing row)
         (rr_precondition_uid row) (rr_precondition_resource_version row) (rr_status_only row)),
       Some (rr_resource_version row))
  | PatchResourceLatest row =>
      (PatchResourceLatest (mkResourcePatch (rp_api_version row) (rp_kind row) (rp_namespace row) (rp_name row) 0
         (rp_patch_kind row) (rp_patch row) (rp_require_existing row) (rp_precondition_uid row)
         (rp_precondition_resource_version row) (rp_terminating_pod_unready_timestamp row)),
       Some (rp_resource_version row))
  | PutNamespace row =>
      (PutNamespace (mkNamespaceRow (nr_name row) (nr_uid row) 0 (clear_metadata_resource_version (nr_data row))),
       Some (nr_resource_version row))
  | PutWatchEvent row =>
      (PutWatchEvent (mkWatchEventRow (wr_event_id row) (wr_api_version row) (wr_kind row) (wr_namespace row)
         (wr_name row) 0 (wr_event_type row) (clear_metadata_resource_version (wr_data row))),
       Some (wr_resource_version row))
  | PutPodCleanupIntent row =>
      (PutPodCleanupIntent (mkCleanupRow (cr_node_name row) (cr_namespace row) (cr_pod_name row) (cr_pod_uid row)
         (cr_reason row) 0 (cr_created_at_ms row) (cr_pod_data row)),
       Some (cr_resource_version row))
  | PutAppliedOutbox row =>
      (PutAppliedOutbox (mkOutboxRow (or_idempotency_key row) (or_subject_key row) (or_operation row)
         (or_first_seen_ms row) None (or_result_proto row) (or_status_stamp row)), None)
  | AdvanceResourceVersion resource_version => (AdvanceResourceVersion 0, Some resource_version)
  | _ => (mutation, None)
  end.

Fixpoint author_mutations (candidate : Z) (mutations : list LogApplyMutation) : result DbError (list LogApplyMutation) :=
  match mutations with
  | [] => Ok []
  | mutation :: mutations' =>
      let '(mutation, observed) := zero_version mutation in
      if is_some_and observed (fun value => negb (value =? 0)%Z && negb (value =? candidate)%Z)
      then Err (OtherError "materialized mutation resourceVersion differs from its private candidate")
      else let? rest := author_mutations candidate mutations' in Ok (mutation :: rest)
  end.

Definition author_live_commit (candidate : Z) (mutations : list LogApplyMutation) : result DbError LogApplyCommit :=
  let? mutations := author_mutations candidate mutations in
  match try_new mutations with Ok commit => Ok commit | Err e => Err (InvalidTemplate e) end.

Definition author_live_commit_from_cluster_mutations (candidate : Z) (mutations : list ClusterMutation)
    : result DbError LogApplyCommit :=
  author_live_commit candidate (into_log_apply_mutation <$> mutations).

(** ** Rebasing a stale Pod metadata update *)

Definition metadata_field (data : Value) (field : string) : option Value :=
  metadata ← get "metadata" data; metadata ← as_object metadata; obj_get field metadata.

(** [metadata_object_mut], then a write. *)
Definition with_metadata_object (f : Map -> Map * bool) (data : Value) : Value * bool :=
  match data with
  | Object obj =>
      let obj := obj_or_insert "metadata" (Object []) obj in
      match obj_get "metadata" obj with
      | Some (Object metadata) =>
          let '(metadata, changed) := f metadata in (Object (obj_insert "metadata" (Object metadata) obj), changed)
      | _ => (Object obj, false)
      end
  | _ => (data, false)
  end.

Definition value_opt_eqb := opt_eqb value_eqb.

Definition apply_metadata_field_delta (rebased base incoming : Value) (field : string) : Value * bool :=
  let incoming_value := metadata_field incoming field in
  if value_opt_eqb (metadata_field base field) incoming_value then (rebased, false)
  else
    with_metadata_object (fun metadata =>
      match incoming_value with
      | Some value =>
          if value_opt_eqb (obj_get field metadata) (Some value) then (metadata, false)
          else (obj_insert field value metadata, true)
      | None => (obj_remove field metadata, obj_contains_key field metadata)
      end) rebased.

Definition drop_removed (base_map incoming_map entries : Map) : Map * bool :=
  fold_left (fun acc key =>
    if obj_contains_key key incoming_map then acc
    else (obj_remove key acc.1, acc.2 || obj_contains_key key acc.1)) base_map.*1 (entries, false).

Definition add_changed (base_map incoming_map : Map) (start : Map * bool) : Map * bool :=
  fold_left (fun acc e =>
    if negb (value_opt_eqb (obj_get e.1 base_map) (Some e.2)) && negb (value_opt_eqb (obj_get e.1 acc.1) (Some e.2))
    then (obj_insert e.1 e.2 acc.1, true) else acc) incoming_map start.

Definition apply_metadata_map_delta (rebased base incoming : Value) (field : string) : Value * bool :=
  let base_value := metadata_field base field in
  let incoming_value := metadata_field incoming field in
  if value_opt_eqb base_value incoming_value then (rebased, false)
  else
    match base_value ≫= as_object, incoming_value ≫= as_object with
    | Some base_map, Some incoming_map =>
        with_metadata_object (with_object_entry field (fun entries =>
          add_changed base_map incoming_map (drop_removed base_map incoming_map entries))) rebased
    | _, _ => apply_metadata_field_delta rebased base incoming field
    end.

Definition rebase_stale_pod_metadata_update (base incoming live : Value) : option Value :=
  let '(rebased, c1) := apply_metadata_field_delta live base incoming "ownerReferences" in
  let '(rebased, c2) := apply_metadata_map_delta rebased base incoming "labels" in
  let '(rebased, c3) := apply_metadata_map_delta rebased base incoming "annotations" in
  let '(rebased, c4) := apply_metadata_field_delta rebased base incoming "deletionTimestamp" in
  let '(rebased, c5) := apply_metadata_field_delta rebased base incoming "deletionGracePeriodSeconds" in
  if c1 || c2 || c3 || c4 || c5 then Some rebased else None.

(** ** Which writes are made against the latest row *)

Definition should_apply_outbox_update_against_latest (operation api_version kind : string) (namespace : option string)
    (name authoring_node : string) : bool :=
  (name =?s authoring_node)
  && (((operation =?s "NodeStatus") && (api_version =?s "v1") && (kind =?s "Node") && opt_is_none namespace)
      || ((operation =?s "LeaseRenew") && (api_version =?s "coordination.k8s.io/v1") && (kind =?s "Lease")
          && (namespace =?os Some "kube-node-lease"))).

Definition should_apply_outbox_status_against_latest (operation api_version kind : string)
    (preconditions : ResourcePreconditions) (observed_status_stamp : option Z) : bool :=
  (api_version =?s "v1") && (kind =?s "Pod")
  && is_some_and (pre_uid preconditions) non_empty_str
  && is_some_and observed_status_stamp (fun stamp => 0 <? stamp)%Z
  && existsb (String.eqb operation)
       ["PodStatus"; "RuntimeReconcile"; "ProbeReadiness"; "DeadlineExceeded"; "ContainerStatusSnapshot";
        "EphemeralContainerStatuses"].

Definition is_unconditional_workload_scale_patch (api_version kind : string) (patch : Value) : bool :=
  if negb (((api_version =?s "apps/v1") && ((kind =?s "Deployment") || (kind =?s "ReplicaSet") || (kind =?s "StatefulSet")))
           || ((api_version =?s "v1") && (kind =?s "ReplicationController"))) then false
  else
    match as_object patch with
    | None => false
    | Some patch_obj =>
        if negb (length patch_obj =? 1)%nat then false
        else
          match (spec ← obj_get "spec" patch_obj; as_object spec) with
          | None => false
          | Some spec_obj => (length spec_obj =? 1)%nat && obj_contains_key "replicas" spec_obj
          end
    end.

Definition should_apply_outbox_patch_against_latest (api_version kind : string) (patch_kind : PatchKind)
    (patch : Value) (preconditions : ResourcePreconditions) (strict_resource_version : bool) : bool :=
  if opt_is_none (pre_uid preconditions) || opt_is_some (pre_resource_version preconditions) then false
  else if negb strict_resource_version then true
  else is_unconditional_workload_scale_patch api_version kind patch
       || ResourceSemantics.is_pod_delete_mark_patch api_version kind patch.

(** The ledger subject of a Pod status command. *)
Definition pod_status_subject_key (api_version kind : string) (namespace : option string) (name : string)
    (uid : option string) : string :=
  let key := match namespace with
             | Some namespace => api_version +:+ "/" +:+ kind +:+ "/" +:+ namespace +:+ "/" +:+ name
             | None => api_version +:+ "/" +:+ kind +:+ "/" +:+ name
             end in
  match opt_filter non_empty_str uid with Some uid => key +:+ "/" +:+ uid | None => key end.

(** ** Materialization *)

Definition DOUBLE_QUOTE : ascii := Ascii.ascii_of_nat 34.

(** [ensure_metadata_uid]: the body and its identifier; [generated] is drawn in any
    case. *)
Definition ensure_metadata_uid (generated : string) (data : Value) : Value * string :=
  match data with
  | Object obj =>
      let obj := obj_or_insert "metadata" (Object []) obj in
      match obj_get "metadata" obj with
      | Some (Object metadata) =>
          match opt_filter non_blank_str (v ← obj_get "uid" metadata; as_str v) with
          | Some uid => (Object obj, uid)
          | None => (Object (obj_insert "metadata" (Object (obj_insert "uid" (Str generated) metadata)) obj), generated)
          end
      | _ => (Object obj, generated)
      end
  | _ => (data, generated)
  end.

Definition panic_or {A} (o : option A) : result DbError A := ok_or o Panicked.

(** Instants, in nanoseconds. *)
Abbreviation Instant := Z.

Definition timestamp_millis (t : Instant) : Z := (t / 1000000)%Z.

Abbreviation Built := (result DbError (LogApplyCommit * Z)).

Definition authored_at (rv : Z) (mutations : list ClusterMutation) : Built :=
  let? commit := author_live_commit_from_cluster_mutations rv mutations in Ok (commit, rv).

(** A commit without mutations. *)
Definition nothing (rv : Z) : Built := let? commit := author_live_commit rv [] in Ok (commit, rv).

Definition positive (rv : Z) : option Z := if (0 <? rv)%Z then Some rv else None.

Definition is_namespace_kind (api_version kind : string) : bool := (api_version =?s "v1") && (kind =?s "Namespace").

Definition put_row (api_version kind : string) (namespace : option string) (name uid : string) (rv : Z) (data : Value)
    (require_absent : bool) (precondition_uid : option string) (precondition_rv : option Z) (status_only : bool)
    : ClusterMutation :=
  FResource (RPutResource (mkResourceRow api_version kind namespace name uid rv data require_absent
    (negb require_absent) precondition_uid precondition_rv status_only)).

Definition put_namespace_mutation (name uid : string) (rv : Z) (data : Value) : ClusterMutation :=
  FNamespace (NPutNamespace (mkNamespaceRow name uid rv data)).

(** The explicit history row of a deletion. *)
Definition deleted_row (api_version kind : string) (namespace : option string) (name : string) (rv : Z) (data : Value)
    : ClusterMutation :=
  FWatchHistory (WPutWatchEvent (mkWatchEventRow None api_version kind namespace name rv "DELETED"
    (hydrate_watch_event_data data api_version kind namespace name rv))).

Definition delete_row (api_version kind : string) (namespace : option string) (name uid : string) (precondition_rv : Z)
    : ClusterMutation :=
  FResource (RDeleteResource (mkResourceKey api_version kind namespace name uid (Some precondition_rv))).

Definition not_cluster_scoped (namespace : option string) : result DbError unit :=
  if opt_is_some namespace then conversion_error "Namespace is cluster-scoped" else Ok tt.

Section Parameters.

Context (parse_from_rfc3339 : string -> option Z).
Context (merge : Value -> Value -> Value).
Context (chrono_format : string -> Instant -> string).
Context (new_v4 : nat -> string).
Context (from_slice : string -> result string Value).
Context (base64_decode : string -> option (list ascii)).

Definition format_time (t : Instant) : string := chrono_format "%Y-%m-%dT%H:%M:%SZ" t.
Definition format_legacy_timestamp (t : Instant) : string := chrono_format "%Y-%m-%dT%H:%M:%S.%fZ" t.

(** *** Leases *)

Definition lease_renew_time_newer (left_time right_time : option string) : bool :=
  match left_time, right_time with
  | None, _ => false
  | Some _, None => true
  | Some left_text, Some right_text =>
      match parse_from_rfc3339 left_text, parse_from_rfc3339 right_text with
      | Some l, Some r => (r <? l)%Z
      | _, _ => match String.compare left_text right_text with Gt => true | _ => false end
      end
  end.

(** [v["spec"]["renewTime"] = ..]. *)
Definition index_insert_2 (key1 key2 : string) (value v : Value) : option Value :=
  inner ← index_insert key2 value (unwrap_or Null (get key1 v)); index_insert key1 inner v.

Definition merge_forwarded_lease_with_live (live incoming : Value) : option Value :=
  incoming ← index_insert_from "metadata" live incoming;
  let live_renew_time := pointer_str ["spec"; "renewTime"] live in
  let incoming_renew_time := pointer_str ["spec"; "renewTime"] incoming in
  match live_renew_time with
  | Some text =>
      if lease_renew_time_newer live_renew_time incoming_renew_time
      then index_insert_2 "spec" "renewTime" (Str text) incoming else Some incoming
  | None => Some incoming
  end.

(** *** Creation *)

Definition build_create_namespace (rv : Z) (now : Instant) (name : string) (data : Value) (s : SqliteState) : Built :=
  if opt_is_some (db_namespaces s !! name)
  then conversion_error (conflict_409 ("namespaces " +:+ String DOUBLE_QUOTE (name +:+ String DOUBLE_QUOTE " already exists")))
  else
    let data := ensure_resource_type_meta data "v1" "Namespace" in
    let data := ensure_metadata_identity data None name in
    let data := ensure_metadata_create_defaults data (new_v4 0) (format_time now) in
    let '(data, uid) := ensure_metadata_uid (new_v4 1) data in
    authored_at rv [put_namespace_mutation name uid rv data].

Definition build_create_resource (operation authoring_node : string) (rv : Z) (now : Instant) (api_version kind : string)
    (namespace : option string) (name : string) (data : Value) (s : SqliteState) : Built :=
  if is_namespace_kind api_version kind
  then try? not_cluster_scoped namespace in build_create_namespace rv now name data s
  else
    let data := ensure_resource_type_meta data api_version kind in
    let data := ensure_metadata_identity data namespace name in
    let data := ensure_metadata_create_defaults data (new_v4 0) (format_time now) in
    let data := ensure_pod_status_ip_arrays data api_version kind in
    let data :=
      if (operation =?s "NodeRegistration") && (api_version =?s "v1") && (kind =?s "Node") && opt_is_none namespace
         && (name =?s authoring_node)
      then (set_node_external_ip_from_dataplane_annotation data).1 else data in
    let '(data, uid) := ensure_metadata_uid (new_v4 1) data in
    authored_at rv [put_row api_version kind namespace name uid rv data true None None false].

(** *** Updates *)

Definition build_update_namespace (rv : Z) (name : string) (data : Value) (preconditions : ResourcePreconditions)
    (s : SqliteState) : Built :=
  let? live := namespace_row_in_tx name s in
  try? validate_resource_preconditions preconditions (ns_uid live) (ns_resource_version live) in
  try? map_err_text (validate_metadata_uid_immutable data (ns_data live)) in
  let data := ensure_resource_type_meta data "v1" "Namespace" in
  let data := ensure_metadata_identity data None name in
  let data := preserve_server_metadata_fields_from_existing data (ns_data live) in
  let '(data, uid) := ensure_metadata_uid (new_v4 0) data in
  authored_at rv [put_namespace_mutation name uid rv data].

(** The body an update against the latest row writes. *)
Definition merge_with_latest (api_version kind : string) (namespace : option string) (live data : Value)
    : result DbError Value :=
  if (api_version =?s "v1") && (kind =?s "Node") && opt_is_none namespace
  then panic_or (merge_existing_node_mutable_fields parse_from_rfc3339 data live)
  else if (api_version =?s "coordination.k8s.io/v1") && (kind =?s "Lease") && (namespace =?os Some "kube-node-lease")
  then panic_or (merge_forwarded_lease_with_live live data)
  else Ok data.

(** The body a stale Pod metadata update was computed from, when it is retained and
    is of the same object. *)
Definition rebase_base (operation api_version kind : string) (namespace : option string) (name : string)
    (expected : option Z) (live : ResRow) (s : SqliteState) : option Value :=
  if (operation =?s "PodMetadata") && (api_version =?s "v1") && (kind =?s "Pod")
  then
    expected ← expected;
    if (expected =? rw_resource_version live)%Z then None
    else
      base ← resource_snapshot_for_key_at_rv api_version kind namespace name expected s;
      if metadata_uid base =?os Some (rw_uid live) then Some base else None
  else None.

Definition build_update_resource (operation authoring_node : string) (rv : Z) (api_version kind : string)
    (namespace : option string) (name : string) (data : Value) (expected_rv : Z) (preconditions : ResourcePreconditions)
    (preserve_status : bool) (s : SqliteState) : Built :=
  let expected := or_else (pre_resource_version preconditions) (positive expected_rv) in
  if is_namespace_kind api_version kind
  then
    try? not_cluster_scoped namespace in
    build_update_namespace rv name data (mkPreconditions (pre_uid preconditions) expected) s
  else
    let against_latest :=
      should_apply_outbox_update_against_latest operation api_version kind namespace name authoring_node in
    let? row := resource_row_for_update_in_tx api_version kind namespace name s in
    let live := rw_data row in
    let validate (expected : option Z) :=
      validate_resource_preconditions (mkPreconditions (pre_uid preconditions) expected) (rw_uid row)
        (rw_resource_version row) in
    let base := if against_latest then None
                else rebase_base operation api_version kind namespace name expected row s in
    let finish (data : Value) (precondition_rv : option Z) :=
      let data := ensure_resource_type_meta data api_version kind in
      let data := ensure_metadata_identity data namespace name in
      let data := ensure_pod_status_ip_arrays data api_version kind in
      let data := if preserve_status || (operation =?s "PodMetadata")
                  then preserve_status_subresource_on_main_update api_version kind live data else data in
      let data := preserve_server_metadata_fields_from_existing data live in
      let '(data, uid) := ensure_metadata_uid (new_v4 0) data in
      authored_at rv [put_row api_version kind namespace name uid rv data false (pre_uid preconditions)
                        precondition_rv false] in
    match base with
    | Some base =>
        try? validate None in
        match rebase_stale_pod_metadata_update base data live with
        | Some rebased => finish rebased None
        | None => nothing rv
        end
    | None =>
        if against_latest
        then
          try? validate None in
          let? data := merge_with_latest api_version kind namespace live data in
          finish data None
        else try? validate expected in finish data expected
    end.

(** *** Status *)

(** Whether the ledger holds a stamp at least as new. *)
Definition stamp_is_stale (subject_key : string) (observed_status_stamp : option Z) (s : SqliteState) : bool :=
  match observed_status_stamp with
  | None => false
  | Some incoming_stamp =>
      match decide_status_stamp (max_status_stamp subject_key s) (Some incoming_stamp) with
      | RecordLedgerOnly => true
      | ApplyResourceMutation => false
      end
  end.

Definition build_update_status (operation : string) (rv : Z) (api_version kind : string) (namespace : option string)
    (name : string) (status : Value) (expected_rv : option Z) (preconditions : ResourcePreconditions)
    (observed_status_stamp : option Z) (s : SqliteState) : Built :=
  let against_latest :=
    should_apply_outbox_status_against_latest operation api_version kind preconditions observed_status_stamp in
  let? row := resource_row_for_update_in_tx api_version kind namespace name s in
  let expected := opt_filter (fun rv => 0 <? rv)%Z expected_rv in
  let live := rw_data row in
  let write :=
    let '(next_status, _) :=
      apply_status_merge parse_from_rfc3339 api_version kind live status (if against_latest then None else expected)
        (rw_resource_version row) (opt_is_some observed_status_stamp) in
    if value_opt_eqb (get "status" live) (Some next_status) then nothing rv
    else
      let? live := panic_or (index_insert "status" next_status live) in
      let live := ensure_resource_type_meta live api_version kind in
      let '(live, uid) := ensure_metadata_uid (new_v4 0) live in
      authored_at rv [put_row api_version kind namespace name uid rv live false (pre_uid preconditions)
                        (if against_latest then None else or_else (pre_resource_version preconditions) expected) true] in
  if against_latest
  then
    try? validate_resource_preconditions (mkPreconditions (pre_uid preconditions) None) (rw_uid row)
           (rw_resource_version row) in
    if stamp_is_stale (pod_status_subject_key api_version kind namespace name (pre_uid preconditions))
         observed_status_stamp s
    then nothing rv else write
  else
    try? validate_resource_preconditions preconditions (rw_uid row) (rw_resource_version row) in
    match expected with
    | Some expected =>
        if negb (expected =? rw_resource_version row)%Z
        then conversion_error (conflict_409 ("resourceVersion precondition failed: expected " +:+ to_string expected
               +:+ " got " +:+ to_string (rw_resource_version row)))
        else write
    | None => write
    end.

(** *** Batches *)

(** One operation; its identifiers are drawn from [draw] on. *)
Definition batch_mutation (rv : Z) (now : Instant) (draw : nat) (operation : ResourceBatchOperation) (s : SqliteState)
    : result DbError ClusterMutation :=
  match operation with
  | BatchPut api_version kind namespace name data mode preconditions =>
      let? data :=
        match mode with
        | BatchCreate =>
            if opt_is_some (resource_row_optional_for_update_in_tx api_version kind namespace name s)
            then conversion_error (api_version +:+ "/" +:+ kind +:+ " " +:+ unwrap_or "" namespace +:+ "/" +:+ name
                                   +:+ " already exists")
            else Ok data
        | BatchUpdate =>
            let? row := resource_row_for_update_in_tx api_version kind namespace name s in
            try? validate_resource_preconditions preconditions (rw_uid row) (rw_resource_version row) in
            try? map_err_text (validate_metadata_uid_immutable data (rw_data row)) in
            Ok (preserve_server_metadata_fields_from_existing data (rw_data row))
        end in
      let create := match mode with BatchCreate => true | BatchUpdate => false end in
      let data := ensure_resource_type_meta data api_version kind in
      let data := ensure_metadata_identity data namespace name in
      let data := if create then ensure_metadata_create_defaults data (new_v4 draw) (format_time now) else data in
      let data := ensure_pod_status_ip_arrays data api_version kind in
      let '(data, uid) := ensure_metadata_uid (new_v4 (S draw)) data in
      Ok (put_row api_version kind namespace name uid rv data create (pre_uid preconditions)
            (pre_resource_version preconditions) false)
  | BatchDelete api_version kind namespace name preconditions =>
      let? row := resource_row_for_update_in_tx api_version kind namespace name s in
      try? validate_resource_preconditions preconditions (rw_uid row) (rw_resource_version row) in
      Ok (delete_row api_version kind namespace name (rw_uid row) (rw_resource_version row))
  end.

Fixpoint batch_mutations (rv : Z) (now : Instant) (draw : nat) (operations : list ResourceBatchOperation)
    (s : SqliteState) : result DbError (list ClusterMutation) :=
  match operations with
  | [] => Ok []
  | operation :: operations' =>
      let? mutation := batch_mutation rv now draw operation s in
      let? rest := batch_mutations rv now (S (S draw)) operations' s in
      Ok (mutation :: rest)
  end.

(** *** Deletion *)

Definition build_delete_resource (rv : Z) (api_version kind : string) (namespace : option string) (name : string)
    (preconditions : ResourcePreconditions) (s : SqliteState) : Built :=
  if is_namespace_kind api_version kind
  then
    try? not_cluster_scoped namespace in
    let? current := namespace_row_in_tx name s in
    try? validate_resource_preconditions preconditions (ns_uid current) (ns_resource_version current) in
    if (0 <? size (filter (fun e => let '(_, _, ns, _) := e.1 in ns = name) (namespaced_resources (db_resources s))))%nat
    then conversion_error (conflict_409 "Namespace has remaining content")
    else authored_at rv [FNamespace (NDeleteNamespace name)]
  else
    let? current := resource_row_for_update_in_tx api_version kind namespace name s in
    try? validate_resource_preconditions preconditions (rw_uid current) (rw_resource_version current) in
    authored_at rv [deleted_row api_version kind namespace name rv (rw_data current);
                    delete_row api_version kind namespace name (rw_uid current) (rw_resource_version current)].

Definition build_finalize_bound_pod (rv : Z) (namespace name pod_uid node_name : string) (observed_resource_version : Z)
    (s : SqliteState) : Built :=
  match resource_row_optional_for_update_in_tx "v1" "Pod" (Some namespace) name s with
  | None => nothing (db_rv s)
  | Some current =>
      if negb (rw_uid current =?s pod_uid) then nothing (db_rv s)
      else
        try? validate_resource_preconditions (mkPreconditions (Some pod_uid) (Some observed_resource_version))
               (rw_uid current) (rw_resource_version current) in
        let finalization := mkFinalization namespace name (rw_uid current) node_name in
        if negb (finalization_applies finalization (rw_data current)) then nothing (db_rv s)
        else authored_at rv [FResource (RFinalizeBoundPod finalization)]
  end.

Definition tombstone_metadata (now : Instant) (grace_seconds : Z) (metadata : Map) : Map :=
  let metadata := if missing_or_empty "deletionTimestamp" metadata
                  then obj_insert "deletionTimestamp" (Str (format_legacy_timestamp now)) metadata else metadata in
  obj_or_insert "deletionGracePeriodSeconds" (Num (NInt grace_seconds)) metadata.

Definition build_delete_with_tombstone (rv : Z) (now : Instant) (api_version kind : string) (namespace : option string)
    (name : string) (preconditions : ResourcePreconditions) (grace_seconds : Z) (s : SqliteState) : Built :=
  let? current := resource_row_for_update_in_tx api_version kind namespace name s in
  try? validate_resource_preconditions preconditions (rw_uid current) (rw_resource_version current) in
  if opt_is_none (metadata ← get "metadata" (rw_data current); as_object metadata)
  then conversion_error ("resource missing metadata for DeleteResourceWithTombstone: " +:+ api_version +:+ "/" +:+ kind
                         +:+ "/" +:+ name)
  else
    let data := get_mut "metadata" (map_object (tombstone_metadata now grace_seconds)) (rw_data current) in
    authored_at rv [deleted_row api_version kind namespace name rv data;
                    delete_row api_version kind namespace name (rw_uid current) (rw_resource_version current)].

Definition build_delete_namespace (rv : Z) (name : string) (s : SqliteState) : Built :=
  if opt_is_none (db_namespaces s !! name) then conversion_error ("Namespace " +:+ name +:+ " not found")
  else authored_at rv [FNamespace (NDeleteNamespaceContents name); FNamespace (NDeleteNamespace name)].

(** *** Patches *)

Definition apply_outbox_patch (live patch : Value) (patch_kind : PatchKind) : result DbError Value :=
  let patched := match patch_kind with Merge => merge live patch end in
  try? map_err_text (validate_metadata_uid_immutable patched live) in
  Ok (preserve_server_metadata_fields_from_existing patched live).

(** The version a stale patch is allowed to apply at: the live one, when only the
    status and server-owned metadata changed since the version it names. *)
Definition patch_expected_version (api_version kind : string) (namespace : option string) (name : string)
    (expected : option Z) (strict_resource_version : bool) (row : ResRow) (s : SqliteState) : option Z :=
  match expected with
  | None => None
  | Some expected =>
      let relaxed :=
        if negb strict_resource_version && negb (expected =? rw_resource_version row)%Z
           && has_builtin_status_subresource api_version kind
        then is_some_and (resource_snapshot_for_key_at_rv api_version kind namespace name expected s) (fun base =>
               (metadata_uid base =?os Some (rw_uid row)) && resource_client_owned_state_equal base (rw_data row))
        else false in
      Some (if relaxed then rw_resource_version row else expected)
  end.

Definition build_patch_resource (rv : Z) (now : Instant) (api_version kind : string) (namespace : option string)
    (name : string) (patch_kind : PatchKind) (patch : Value) (preconditions : ResourcePreconditions)
    (strict_resource_version : bool) (s : SqliteState) : Built :=
  let? row := resource_row_for_update_in_tx api_version kind namespace name s in
  let live_before_patch := rw_data row in
  let expected := patch_expected_version api_version kind namespace name (pre_resource_version preconditions)
                    strict_resource_version row s in
  try? validate_resource_preconditions (mkPreconditions (pre_uid preconditions) expected) (rw_uid row)
         (rw_resource_version row) in
  if should_apply_outbox_patch_against_latest api_version kind patch_kind patch preconditions strict_resource_version
  then
    let terminating_pod_unready_timestamp :=
      if is_zero_grace_pod_delete_mark_patch api_version kind patch then Some (format_legacy_timestamp now) else None in
    authored_at rv [FResource (RPatchResourceLatest (mkResourcePatch api_version kind namespace name rv patch_kind patch
                      true (Some (rw_uid row)) None terminating_pod_unready_timestamp))]
  else
    let? live := apply_outbox_patch live_before_patch patch patch_kind in
    let live := ensure_resource_type_meta live api_version kind in
    let live := ensure_metadata_identity live namespace name in
    let live := ensure_pod_status_ip_arrays live api_version kind in
    let live := preserve_status_subresource_on_main_update api_version kind live_before_patch live in
    let live := preserve_server_metadata_fields_from_existing live live_before_patch in
    let '(live, uid) := ensure_metadata_uid (new_v4 0) live in
    authored_at rv [put_row api_version kind namespace name uid rv live false (pre_uid preconditions)
                      (or_else expected (Some (rw_resource_version row))) false].

(** *** Nodes *)

Definition node_routing_metadata_resource_row_in_tx (node_name : string) (metadata : DataplanePeerMetadata) (rv : Z)
    (s : SqliteState) : option ClusterMutation :=
  current ← cluster_resources (db_resources s) !! ("v1", "Node", node_name);
  let endpoint := IpAddr_to_string (pm_endpoint metadata) in
  let '(node, c1) := match db_subnets s !! node_name with
                     | Some row => set_node_pod_cidr (rw_data current) (sr_subnet row)
                     | None => (rw_data current, false)
                     end in
  let '(node, c2) := set_node_external_ip node endpoint in
  let '(node, c3) := set_node_dataplane_annotations node endpoint (DataplaneMode_as_str (pm_mode metadata))
                       (DataplaneEncryption_as_str (pm_encryption metadata)) (pm_public_key metadata)
                       (pm_port metadata) in
  if c1 || c2 || c3 then Some (put_row "v1" "Node" None node_name (rw_uid current) rv node false None None false)
  else None.

Definition build_update_node_dataplane (rv : Z) (node_name mode encryption : string) (public_key : option string)
    (endpoint : string) (port : option Z) (s : SqliteState) : Built :=
  let? parsed_mode := map_err_text (DataplaneMode_parse mode) in
  let? parsed_encryption := map_err_text (DataplaneEncryption_parse (Some encryption)) in
  let? metadata := map_err_text (peer_metadata_try_new base64_decode node_name parsed_mode parsed_encryption public_key
                                   (Some endpoint) port) in
  let stamped_node := node_routing_metadata_resource_row_in_tx node_name metadata rv s in
  authored_at rv (FNetwork (NwPutNodeDataplane (mkNodeDataplaneRow node_name mode encryption public_key endpoint port))
                  :: option_list stamped_node).

Definition build_update_node_peer_attributes (rv : Z) (node_name mode : string) (hostport_range : option string)
    (s : SqliteState) : Built :=
  match db_subnets s !! node_name with
  | None => nothing rv
  | Some row =>
      let mode := match parse_node_peer_mode (Some mode) with
                  | Ok PeerRootless => "rootless"
                  | Ok PeerRoot | Err _ => "root"
                  end in
      let hostport_range :=
        value ← hostport_range;
        match HostPortRange_parse value with Ok range => Some (HostPortRange_to_string range) | Err _ => None end in
      if (sr_mode row =?s mode) && (sr_hostport_range row =?os hostport_range) then nothing rv
      else authored_at rv [FNetwork (NwPutNodeSubnet (mkNodeSubnetRow (sr_node_name row) (sr_subnet row)
                             (sr_subnet_base_int row) (sr_gateway_ip row) (sr_node_ip row) mode hostport_range))]
  end.

(** *** Cleanup intents, history, ledger and metadata *)

Definition build_move_pod_to_cleanup_intent (rv : Z) (now : Instant) (node_name namespace pod_name pod_uid reason : string)
    (s : SqliteState) : Built :=
  let? row := resource_row_for_update_in_tx "v1" "Pod" (Some namespace) pod_name s in
  if negb (rw_uid row =?s pod_uid) then Err (SqliteError "Query returned no rows")
  else if negb (pointer_str ["spec"; "nodeName"] (rw_data row) =?os Some node_name)
  then Err (SqliteError "Query returned no rows")
  else authored_at rv [FPodCleanup (CPutPodCleanupIntent (mkCleanupRow node_name namespace pod_name pod_uid reason rv
                         (timestamp_millis now) (rw_data row)))].

Definition build_watch_event_append (rv : Z) (event_bytes : string) (watch_rv : Z) : Built :=
  let? event := map_err_text (from_slice event_bytes) in
  let api_version := unwrap_or "" (get_str "api_version" event) in
  let kind := unwrap_or "" (get_str "kind" event) in
  let namespace := get_str "namespace" event in
  let name := unwrap_or "" (get_str "name" event) in
  let event_type := unwrap_or "ADDED" (get_str "type" event) in
  let resource_version := Z.max watch_rv rv in
  let data := hydrate_watch_event_data (unwrap_or Null (get "object" event)) api_version kind namespace name
                resource_version in
  authored_at rv [FWatchHistory (WPutWatchEvent (mkWatchEventRow None api_version kind namespace name resource_version
                    event_type data))].

Definition build_gc_applied_outbox (rv cutoff_ms : Z) (s : SqliteState) : Built :=
  if existsb (fun e => or_first_seen_ms e.2 <? cutoff_ms)%Z (map_to_list (db_outbox s))
  then authored_at rv [FOutboxLedger (OGcAppliedOutbox cutoff_ms [])]
  else nothing (db_rv s).

Definition build_delete_cleanup_intents_for_node (rv : Z) (node_name : string) (s : SqliteState) : Built :=
  if existsb (fun e => let '(node, _, _, _, _) := e.1 in node =?s node_name) (map_to_list (db_cleanup s))
  then authored_at rv [FPodCleanup (CDeletePodCleanupIntentsForNode node_name)]
  else nothing (db_rv s).

Definition build_ensure_cluster_metadata (rv : Z) (cluster_id : string) (s : SqliteState) : Built :=
  match db_meta s !! "cluster_id" with
  | None => authored_at rv [FClusterMeta (MPutKlightsMeta "cluster_id" cluster_id);
                            FClusterMeta (MPutKlightsMeta "leader_epoch" "0")]
  | Some _ => nothing rv
  end.

(** *** Dispatch *)

Definition build_log_apply_commit_in_tx_from_command (command : StorageCommand) (operation authoring_node : string)
    (resource_version_hint : option Z) (now : Instant) (s : SqliteState) : Built :=
  let rv := unwrap_or (saturating_i64 (db_rv s + 1)) resource_version_hint in
  match command with
  | Command.CreateResource api_version kind namespace name data =>
      build_create_resource operation authoring_node rv now api_version kind namespace name data s
  | Command.UpdateResource api_version kind namespace name data expected_rv preconditions preserve_status =>
      build_update_resource operation authoring_node rv api_version kind namespace name data expected_rv preconditions
        preserve_status s
  | Command.UpdateStatus api_version kind namespace name status expected_rv preconditions observed_status_stamp =>
      build_update_status operation rv api_version kind namespace name status expected_rv preconditions
        observed_status_stamp s
  | Command.ApplyResourceBatch operations =>
      let? mutations := batch_mutations rv now 0 operations s in authored_at rv mutations
  | Command.DeleteResource api_version kind namespace name preconditions =>
      build_delete_resource rv api_version kind namespace name preconditions s
  | Command.FinalizeBoundPod namespace name pod_uid node_name observed_resource_version =>
      build_finalize_bound_pod rv namespace name pod_uid node_name observed_resource_version s
  | Command.DeleteResourceWithTombstone api_version kind namespace name preconditions grace_seconds =>
      build_delete_with_tombstone rv now api_version kind namespace name preconditions grace_seconds s
  | Command.UpdateNodeDataplane node_name mode encryption public_key endpoint port =>
      build_update_node_dataplane rv node_name mode encryption public_key endpoint port s
  | Command.CreateNamespace name data => build_create_namespace rv now name data s
  | Command.UpdateNamespace name data expected_rv =>
      build_update_namespace rv name data (mkPreconditions None (Some expected_rv)) s
  | Command.DeleteNamespace name => build_delete_namespace rv name s
  | Command.DeleteNamespaceContents name => authored_at rv [FNamespace (NDeleteNamespaceContents name)]
  | Command.PatchResource api_version kind namespace name patch_kind patch preconditions strict_resource_version =>
      build_patch_resource rv now api_version kind namespace name patch_kind patch preconditions
        strict_resource_version s
  | Command.AllocateNodeSubnet node_name subnet node_ip =>
      authored_at rv [FNetwork (NwAllocateNodeSubnet (mkSubnetAllocation node_name subnet node_ip))]
  | Command.DeleteNodeSubnet node_name => authored_at rv [FNetwork (NwDeleteNodeSubnet node_name)]
  | Command.UpdateNodePeerAttributes node_name mode hostport_range =>
      build_update_node_peer_attributes rv node_name mode hostport_range s
  | Command.PodSlotTryAdmit _ _ _ _ | Command.PodSlotMarkTerminating _ _ _ _ | Command.PodSlotClearIfUid _ _ _ _ =>
      nothing rv
  | Command.MovePodToCleanupIntent node_name namespace pod_name pod_uid reason =>
      build_move_pod_to_cleanup_intent rv now node_name namespace pod_name pod_uid reason s
  | Command.DeletePodCleanupIntent node_name namespace pod_name pod_uid reason =>
      authored_at rv [FPodCleanup (CDeletePodCleanupIntent (mkCleanupKey node_name namespace pod_name pod_uid reason))]
  | Command.DeletePodCleanupIntentsForNode node_name => build_delete_cleanup_intents_for_node rv node_name s
  | Command.WatchEventAppend event_bytes watch_rv => build_watch_event_append rv event_bytes watch_rv
  | Command.GcWatchEvents max_rows batch_cap => authored_at rv [FWatchHistory (WGcWatchEvents max_rows batch_cap)]
  | Command.GcAppliedOutbox cutoff_ms => build_gc_applied_outbox rv cutoff_ms s
  | Command.AdvanceResourceVersion _ new_rv =>
      let rv := Z.max rv new_rv in authored_at rv [FClusterMeta (MAdvanceResourceVersion (Z.max new_rv rv))]
  | Command.EnsureClusterMetadata cluster_id => build_ensure_cluster_metadata rv cluster_id s
  | Command.SetKlightsMeta key value => authored_at rv [FClusterMeta (MPutKlightsMeta key value)]
  end.

Definition resource_version_hint_in_tx (s : SqliteState) : option Z := Some (saturating_i64 (db_rv s + 1)).

(** The entry of a direct write. *)
Definition build_log_apply_commit_for_command (command : StorageCommand) (operation authoring_node : string)
    (now : Instant) (s : SqliteState) : result DbError LogApplyCommit :=
  let? built := build_log_apply_commit_in_tx_from_command command operation authoring_node
                  (resource_version_hint_in_tx s) now s in
  Ok built.1.

(** ** Outbox deliveries *)

Inductive BuildOutboxOutcome :=
| NeedsPropose (commit : LogApplyCommit) (applied_rv : Z) (terminal_error : option OutboxApplyError)
| LeaseRenewShortcircuit
| AlreadyApplied (applied_rv : option Z) (committed_resource : option Resource).

Context (encode : StorageResponse -> result string string).
Context (decode : string -> result string StorageResponse).
Context (json_to_string : Value -> string).
Context (call_error_text : string -> string).

(** [expect] on the template. *)
Definition expect_template (r : result LiveCommitResourceVersionError LogApplyCommit) : result DbError LogApplyCommit :=
  match r with Ok commit => Ok commit | Err _ => Err Panicked end.

Record AppliedOutboxLedgerInput := mkLedgerInput {
  li_idempotency_key : string; li_subject_key : string; li_operation : string; li_first_seen_ms : Z;
  li_status_stamp : option Z; li_terminal_error : option OutboxApplyError
}.

Definition append_applied_outbox_ledger_mutation (commit : LogApplyCommit) (input : AppliedOutboxLedgerInput)
    : result DbError LogApplyCommit :=
  let response := match li_terminal_error input with
                  | None => RespAck 0
                  | Some error => RespError (outbox_error_to_string error)
                  end in
  let row := mkOutboxRow (li_idempotency_key input) (li_subject_key input) (li_operation input) (li_first_seen_ms input)
               None (encode_or_default encode response) (opt_filter (fun stamp => 0 <? stamp)%Z (li_status_stamp input)) in
  expect_template (try_new_with_watermark
    (lc_mutations commit ++ [into_log_apply_mutation (FOutboxLedger (OPutAppliedOutbox row))])%list
    (lc_outbox_watermark commit)).

Definition set_live_commit_watermark (commit : LogApplyCommit) (watermark : option OutboxStreamWatermark)
    : result DbError LogApplyCommit :=
  expect_template (try_new_with_watermark (lc_mutations commit) watermark).

Definition normalize_ledger_only (commit : LogApplyCommit) (rv : Z) (s : SqliteState) : Z :=
  match lc_mutations commit with [] => db_rv s | _ => rv end.

Definition db_error_text (e : DbError) : string :=
  match e with
  | Conflict code message => conflict_text code message
  | OtherError message | SqliteError message => message
  | InvalidTemplate e =>
      "live committed-apply template field " +:+ rve_field e +:+ " requires resourceVersion 0, got "
      +:+ match rve_actual e with Str text => text | v => json_to_string v end
  | Panicked => ""
  end.

Definition outbox_apply_error_from_db_error (e : DbError) : OutboxApplyError :=
  let msg := call_error_text (db_error_text e) in
  if contains "409 Conflict" msg then ConflictTerminal msg else Retryable msg.

(** *** Answers from the ledger *)

Definition decode_error (error : string) : OutboxApplyError := Retryable ("decode cached applied_outbox response: " +:+ error).

Definition cached_outbox_terminal_error (record : option LogApplyAppliedOutboxRow) : result OutboxApplyError (option string) :=
  match record with
  | None => Ok None
  | Some record =>
      if is_empty (or_result_proto record) then Ok None
      else
        match decode (or_result_proto record) with
        | Ok (RespError message) => Ok (Some message)
        | Ok _ => Ok None
        | Err error => Err (decode_error error)
        end
  end.

Definition cached_outbox_committed_resource (record : option LogApplyAppliedOutboxRow)
    : result OutboxApplyError (option Resource) :=
  match record with
  | None => Ok None
  | Some record =>
      match decode (or_result_proto record) with
      | Ok (RespResource resource_version data) =>
          match resource_try_from_data data with
          | Ok resource => Ok (Some (with_resource_version resource_version resource))
          | Err error => Err (Retryable ("decode cached applied_outbox resource identity: " +:+ error))
          end
      | Ok _ => Ok None
      | Err error => Err (decode_error error)
      end
  end.

Definition recorded_rv (record : option LogApplyAppliedOutboxRow) : option Z := record ≫= or_applied_rv.

(** *** Commands that only consume their position *)

Definition uid_bound_pod_target (command : StorageCommand) : option (string * string * string) :=
  '(api_version, kind, namespace, name, preconditions) ←
    match command with
    | Command.UpdateStatus api_version kind namespace name _ _ preconditions _
    | Command.UpdateResource api_version kind namespace name _ _ preconditions _
    | Command.PatchResource api_version kind namespace name _ _ preconditions _
    | Command.DeleteResource api_version kind namespace name preconditions
    | Command.DeleteResourceWithTombstone api_version kind namespace name preconditions _ =>
        Some (api_version, kind, namespace, name, preconditions)
    | _ => None
    end;
  if negb (api_version =?s "v1") || negb (kind =?s "Pod") then None
  else
    namespace ← namespace;
    expected_uid ← opt_filter non_empty_str (pre_uid preconditions);
    Some (namespace, name, expected_uid).

Definition terminal_error_for_stale_uid_bound_pod_in_tx (command : StorageCommand) (s : SqliteState)
    : option OutboxApplyError :=
  '(namespace, name, expected_uid) ← uid_bound_pod_target command;
  match resource_row_optional_for_update_in_tx "v1" "Pod" (Some namespace) name s with
  | Some row => if rw_uid row =?s expected_uid then None else Some (UidMismatch expected_uid (rw_uid row))
  | None => Some (OutboxNotFound ("Pod " +:+ namespace +:+ "/" +:+ name +:+ " not found"))
  end.

Definition should_consume_watermark_for_idempotent_existing_create_in_tx (operation : string) (command : StorageCommand)
    (s : SqliteState) : bool :=
  if negb ((operation =?s "EventCreate") || (operation =?s "NodeRegistration")) then false
  else
    match command with
    | Command.CreateResource api_version kind namespace name _ =>
        opt_is_some (resource_row_optional_for_update_in_tx api_version kind namespace name s)
    | _ => false
    end.

(** *** The entry of a delivery *)

Definition admit_lease_renew (operation : string) (command : StorageCommand) (authoring_node : string)
    (otherwise : result OutboxApplyError BuildOutboxOutcome) : result OutboxApplyError BuildOutboxOutcome :=
  if operation =?s "LeaseRenew"
  then
    match validate_lease_renew_command command authoring_node with
    | Ok _ => Ok LeaseRenewShortcircuit
    | Err err => Err (ConflictTerminal (lease_error_to_string err))
    end
  else otherwise.

Definition ledger_input (idempotency_key operation : string) (command : StorageCommand) (now : Instant)
    (terminal_error : option OutboxApplyError) : AppliedOutboxLedgerInput :=
  mkLedgerInput idempotency_key (subject_key_for_command command) operation (timestamp_millis now)
    (pod_status_stamp_of command) terminal_error.

Definition build_log_apply_commit_for_outbox (idempotency_key operation : string) (command : StorageCommand)
    (authoring_node : string) (now : Instant) (s : SqliteState) : result OutboxApplyError BuildOutboxOutcome :=
  admit_lease_renew operation command authoring_node
    match db_outbox s !! idempotency_key with
    | Some record =>
        let? terminal := cached_outbox_terminal_error (Some record) in
        match terminal with
        | Some message => Err (ConflictTerminal message)
        | None =>
            let? committed_resource := cached_outbox_committed_resource (Some record) in
            Ok (AlreadyApplied (or_applied_rv record) committed_resource)
        end
    | None =>
        let built :=
          let? built := build_log_apply_commit_in_tx_from_command command operation authoring_node
                          (resource_version_hint_in_tx s) now s in
          let '(commit, rv) := built in
          let rv := normalize_ledger_only commit rv s in
          let? commit := append_applied_outbox_ledger_mutation commit
                           (ledger_input idempotency_key operation command now None) in
          Ok (NeedsPropose commit rv None) in
        match built with Ok outcome => Ok outcome | Err e => Err (outbox_apply_error_from_db_error e) end
    end.

(** What the transaction of a stream delivery finds at its position. *)
Inductive StreamPosition :=
| PositionNext
| PositionApplied.

Definition stream_position_in_tx (w : OutboxStreamWatermark) (s : SqliteState) : result DbError StreamPosition :=
  if (wm_stream_seq w <=? 0)%Z then Err (OtherError "outbox stream seq must be positive")
  else
    match db_watermarks s !! watermark_key w with
    | Some last_seq =>
        if (wm_stream_seq w <=? last_seq)%Z then Ok PositionApplied
        else if negb (wm_stream_seq w =? saturating_i64 (last_seq + 1))%Z then Err (gap_error last_seq (wm_stream_seq w))
        else Ok PositionNext
    | None => if negb (wm_stream_seq w =? 1)%Z then Err (gap_error 0 (wm_stream_seq w)) else Ok PositionNext
    end.

(** An entry that records its ledger row and its position, and nothing else. *)
Definition build_ledger_only (watermark : option OutboxStreamWatermark) (rv : Z) (input : AppliedOutboxLedgerInput)
    : result DbError BuildOutboxOutcome :=
  let? commit := author_live_commit rv [] in
  let? commit := set_live_commit_watermark commit watermark in
  let? commit := append_applied_outbox_ledger_mutation commit input in
  Ok (NeedsPropose commit rv (li_terminal_error input)).

(** The delivery at the next position of its stream. *)
Definition build_stream_entry (idempotency_key operation : string) (command : StorageCommand) (authoring_node : string)
    (w : OutboxStreamWatermark) (now : Instant) (s : SqliteState) : result DbError BuildOutboxOutcome :=
  let input := ledger_input idempotency_key operation command now in
  let hint := saturating_i64 (db_rv s + 1) in
  match terminal_error_for_stale_uid_bound_pod_in_tx command s with
  | Some terminal_error => build_ledger_only (Some w) (db_rv s) (input (Some terminal_error))
  | None =>
      if should_consume_watermark_for_idempotent_existing_create_in_tx operation command s
      then build_ledger_only (Some w) hint (input None)
      else
        match build_log_apply_commit_in_tx_from_command command operation authoring_node (Some hint) now s with
        | Ok (commit, rv) =>
            let rv := normalize_ledger_only commit rv s in
            let? commit := set_live_commit_watermark commit (Some w) in
            let? commit := append_applied_outbox_ledger_mutation commit (input None) in
            Ok (NeedsPropose commit rv None)
        | Err error =>
            if contains "409 Conflict" (db_error_text error)
            then build_ledger_only (Some w) (db_rv s) (input (Some (ConflictTerminal (db_error_text error))))
            else Err error
        end
  end.

Definition build_log_apply_commit_for_outbox_with_watermark (idempotency_key operation : string)
    (command : StorageCommand) (authoring_node : string) (watermark : option OutboxStreamWatermark) (now : Instant)
    (s : SqliteState) : result OutboxApplyError BuildOutboxOutcome :=
  match watermark with
  | None => build_log_apply_commit_for_outbox idempotency_key operation command authoring_node now s
  | Some w =>
      let answer (record : option LogApplyAppliedOutboxRow) :=
        let? committed_resource := cached_outbox_committed_resource record in
        Ok (AlreadyApplied (recorded_rv record) committed_resource) in
      admit_lease_renew operation command authoring_node
        match db_outbox s !! idempotency_key with
        | Some record => answer (Some record)
        | None =>
            match stream_position_in_tx w s with
            | Err e => Err (outbox_apply_error_from_db_error e)
            | Ok PositionApplied => answer None
            | Ok PositionNext =>
                match build_stream_entry idempotency_key operation command authoring_node w now s with
                | Ok outcome => Ok outcome
                | Err e => Err (outbox_apply_error_from_db_error e)
                end
            end
        end
  end.

(** ** Applying a delivery in place *)

Inductive OutboxApplyOutcome :=
| OutboxApplied (applied_rv : Z)
| OutboxAlreadyApplied (applied_rv : option Z).

Record CommittedOutboxApply := mkOutboxApply {
  oa_result : OutboxApplyOutcome; oa_resource_changed : bool; oa_pod_endpoint_effect : PodEndpointEffect;
  oa_committed_resource : option Resource
}.

Context (float_to_string : Z -> string).

Definition is_bound_pod_finalization_delivery (command : StorageCommand) (operation : string) : bool :=
  (operation =?s "PodMetadata") && match command with Command.FinalizeBoundPod _ _ _ _ _ => true | _ => false end.

(** [AtomicOutboxMutation]: the version, the stored answer, whether an event is
    pending, and the resource. *)
Definition apply_outbox_command_in_tx_with_context (command : StorageCommand) (operation authoring_node : string)
    (now : Instant) (s : SqliteState) : result DbError (SqliteState * (Z * string * bool * option Resource)) :=
  let? built := build_log_apply_commit_in_tx_from_command command operation authoring_node
                  (Some (saturating_i64 (db_rv s + 1))) now s in
  let? out := apply_commit_in_tx_returning_rv_and_mutation_with_context parse_from_rfc3339 float_to_string merge encode
                decode built.1 s in
  let '(s, (applied_rv, pending, resource)) := out in
  let response :=
    match resource with
    | Some resource =>
        if is_bound_pod_finalization_delivery command operation
        then RespResource (r_resource_version resource) (r_data resource) else RespAck applied_rv
    | None => RespAck applied_rv
    end in
  Ok (s, (applied_rv, encode_or_default encode response, opt_is_some (head pending), resource)).

Definition status_pod_target (command : StorageCommand) : option (option string * string) :=
  match command with
  | Command.UpdateStatus api_version kind namespace name _ _ _ _ =>
      if (api_version =?s "v1") && (kind =?s "Pod") then Some (namespace, name) else None
  | _ => None
  end.

(** The claimed transaction; [None] when the key is known (or its claim was
    collected by the command itself). *)
Definition outbox_transaction (idempotency_key operation : string) (command : StorageCommand) (authoring_node : string)
    (now : Instant) (s : SqliteState) : result DbError (SqliteState * option CommittedOutboxApply) :=
  let target := status_pod_target command in
  let claim := mkOutboxRow idempotency_key "" operation (timestamp_millis now) None "" None in
  let claimed := set_outbox (<[idempotency_key := claim]> (db_outbox s)) s in
  let? out := apply_outbox_command_in_tx_with_context command operation authoring_node now claimed in
  let '(s', (applied_rv, result_proto, changed, resource)) := out in
  match db_outbox s' !! idempotency_key with
  | None => Ok (s', None)
  | Some row =>
      Ok (set_outbox (<[idempotency_key := mkOutboxRow (or_idempotency_key row) (subject_key_for_command command)
            (or_operation row) (or_first_seen_ms row) (Some applied_rv) result_proto (pod_status_stamp_of command)]>
            (db_outbox s')) s',
          Some (mkOutboxApply (OutboxApplied applied_rv) changed
                  (endpoint_effect target (pod_state_in_tx target s) (pod_state_in_tx target s')) resource))
  end.

Definition outbox_known (command : StorageCommand) (record : option LogApplyAppliedOutboxRow)
    : result OutboxApplyError CommittedOutboxApply :=
  let? terminal := cached_outbox_terminal_error record in
  match terminal with
  | Some message => Err (ConflictTerminal message)
  | None =>
      let? committed_resource := cached_outbox_committed_resource record in
      Ok (mkOutboxApply (OutboxAlreadyApplied (recorded_rv record)) false
            (if opt_is_some (status_pod_target command) then Unchanged else NotApplicable) committed_resource)
  end.

Definition apply_outbox_transactionally_effect (idempotency_key operation : string) (command : StorageCommand)
    (authoring_node : string) (now : Instant) (s : SqliteState)
    : SqliteState * result OutboxApplyError CommittedOutboxApply :=
  if operation =?s "LeaseRenew"
  then (s, match validate_lease_renew_command command authoring_node with
           | Ok _ => Ok (mkOutboxApply (OutboxApplied 0) false NotApplicable None)
           | Err err => Err (ConflictTerminal (lease_error_to_string err))
           end)
  else
    match db_outbox s !! idempotency_key with
    | Some record => (s, outbox_known command (Some record))
    | None =>
        match outbox_transaction idempotency_key operation command authoring_node now s with
        | Ok (s', Some applied) => (s', Ok applied)
        | Ok (s', None) => (s', outbox_known command None)
        | Err e => (s, Err (outbox_apply_error_from_db_error e))
        end
    end.

(** [map_committed_apply_error], printed. *)
Definition committed_apply_error_text (e : DbError) : string :=
  let message := "failed to apply raft log_apply commit: " +:+ call_error_text (db_error_text e) in
  let lower := to_ascii_lowercase message in
  let mentions := existsb (fun sub => contains sub lower) in
  if mentions ["unsupported"; "does not support"; "does not implement"; "corrupt"; "decode"; "invalid data"] then message
  else if mentions ["cancel"] then "committed apply was cancelled"
  else if mentions ["timeout"; "timed out"] then "committed apply timed out"
  else message.

Definition rejection_message (r : CommittedApplyRejection) : string :=
  match r with
  | RejNotFound message | RejAlreadyExists message | RejUidConflict message | RejResourceVersionConflict message
  | RejInvalidCommit message => message
  end.

Definition outbox_apply_of_receipt (applied_rv : Z) (terminal_error : option OutboxApplyError)
    (receipt : RaftLogApplyOutcome) : result OutboxApplyError CommittedOutboxApply :=
  match terminal_error, committed_outcome receipt with
  | Some error, _ => Err error
  | None, Rejected rejection => Err (ConflictTerminal (rejection_message rejection))
  | None, Visible rv _ =>
      Ok (mkOutboxApply (OutboxApplied rv) true (pod_endpoint_effect receipt) (returned_resource receipt))
  | None, NoPublicChange rv _ =>
      Ok (mkOutboxApply (OutboxApplied rv) false (pod_endpoint_effect receipt) (returned_resource receipt))
  end.

(** The entry is built and applied in two transactions.  This is the case where no
    other transaction runs in between; [MaterializeSpec] has the general one. *)
Definition apply_outbox_transactionally_with_watermark_effect (idempotency_key operation : string)
    (command : StorageCommand) (authoring_node : string) (watermark : option OutboxStreamWatermark) (now : Instant)
    (s : SqliteState) : SqliteState * result OutboxApplyError CommittedOutboxApply :=
  match watermark with
  | None => apply_outbox_transactionally_effect idempotency_key operation command authoring_node now s
  | Some _ =>
      match build_log_apply_commit_for_outbox_with_watermark idempotency_key operation command authoring_node watermark
              now s with
      | Err e => (s, Err e)
      | Ok LeaseRenewShortcircuit => (s, Ok (mkOutboxApply (OutboxApplied 0) false NotApplicable None))
      | Ok (AlreadyApplied applied_rv committed_resource) =>
          (s, Ok (mkOutboxApply (OutboxAlreadyApplied applied_rv) false Unchanged committed_resource))
      | Ok (NeedsPropose commit applied_rv terminal_error) =>
          match apply_commit_in_tx_for_raft_with_context parse_from_rfc3339 float_to_string merge encode decode commit
                  s with
          | Err e => (s, Err (Retryable (committed_apply_error_text e)))
          | Ok (s', receipt) => (s', outbox_apply_of_receipt applied_rv terminal_error receipt)
          end
      end
  end.

End Parameters.
