(* ===== verification/PodRebase.v ===== *)
(** * Rebasing a stale Pod metadata update is a three-way merge

    [rebase_stale_pod_metadata_update] of
    [klights-cluster-datastore/src/sqlite/embedded/mod.rs]: a Pod metadata update
    that was computed from an older version is replayed on the live Pod.  The
    theorem compares it with the definition of a three-way merge, key by key. *)

From S2P Require Import Prelude Text Json NodeRouting Materialize.

Local Open Scope string_scope.
Local Open Scope rs_scope.

(** ** The reference *)

(** A value the update did not change is the live one, any other is the update's. *)
Definition three_way (base incoming live : option Value) : option Value :=
  if value_opt_eqb base incoming then live else incoming.

(** An entry of [metadata.labels] or [metadata.annotations]. *)
Definition metadata_entry (v : Value) (field key : string) : option Value :=
  entries ← metadata_field v field; entries ← as_object entries; obj_get key entries.

(** ** Maps *)

Lemma value_opt_eqb_refl v : value_opt_eqb v v = true.
Proof. destruct v; [apply value_eqb_refl|done]. Qed.

(** Removing keys one by one. *)
Lemma drop_keys_get incoming_map keys (start : Map * bool) key :
  obj_get key (fold_left (fun acc k => if obj_contains_key k incoming_map then acc
                 else (obj_remove k acc.1, acc.2 || obj_contains_key k acc.1)) keys start).1
  = if bool_decide (key ∈ keys) && negb (obj_contains_key key incoming_map) then None else obj_get key start.1.
Proof.
  revert start. induction keys as [|k keys IH]; intros start; [done|]. cbn [fold_left]. rewrite IH.
  destruct (decide (key = k)) as [->|Hne].
  - rewrite (bool_decide_eq_true_2 (k ∈ k :: keys)) by by left. destruct (obj_contains_key k incoming_map) eqn:Hc; cbn.
    + by rewrite andb_false_r.
    + rewrite andb_true_r, obj_get_remove_eq. by destruct (bool_decide _).
  - assert (bool_decide (key ∈ k :: keys) = bool_decide (key ∈ keys)) as ->.
    { apply bool_decide_ext. rewrite elem_of_cons. split; [by intros [?|?]|by right]. }
    destruct (obj_contains_key k incoming_map); [done|]. cbn [fst]. by rewrite obj_get_remove_ne by done.
Qed.

Lemma add_changed_get base_map incoming_map start key :
  NoDup incoming_map.*1 ->
  obj_get key (add_changed base_map incoming_map start).1
  = match obj_get key incoming_map with
    | Some v => if value_opt_eqb (obj_get key base_map) (Some v) || value_opt_eqb (obj_get key start.1) (Some v)
                then obj_get key start.1 else Some v
    | None => obj_get key start.1
    end.
Proof.
  unfold add_changed. revert start. induction incoming_map as [|[k v] m IH]; intros start; [done|]. cbn [fmap list_fmap].
  intros [Hk Hnd]%NoDup_cons. cbn [fold_left fst snd]. rewrite IH by done. cbn [obj_get].
  destruct (String.eqb_spec key k) as [->|Hne].
  - rewrite (proj2 (obj_get_None m k) Hk). destruct (value_opt_eqb (obj_get k base_map) (Some v)); cbn [negb andb orb]; [done|].
    destruct (value_opt_eqb (obj_get k start.1) (Some v)); cbn [negb fst]; [done|]. apply obj_get_insert_eq.
  - assert (obj_get key (if negb (value_opt_eqb (obj_get k base_map) (Some v)) && negb (value_opt_eqb (obj_get k start.1) (Some v))
      then (obj_insert k v start.1, true) else start).1 = obj_get key start.1) as Hsame.
    { destruct (_ && _); [|done]. cbn. by apply obj_get_insert_ne, not_eq_sym. }
    by rewrite Hsame.
Qed.

(** The entries of the merged map. *)
Lemma merged_get base_map incoming_map entries key :
  NoDup incoming_map.*1 ->
  value_opt_eqb (obj_get key (add_changed base_map incoming_map (drop_removed base_map incoming_map entries)).1)
    (three_way (obj_get key base_map) (obj_get key incoming_map) (obj_get key entries)) = true.
Proof.
  intros Hnd. rewrite add_changed_get by done. unfold drop_removed. rewrite drop_keys_get. cbn [fst].
  unfold three_way, obj_contains_key.
  assert (bool_decide (key ∈ base_map.*1) = opt_is_some (obj_get key base_map)) as ->.
  { destruct (obj_get key base_map) as [b|] eqn:Hb; cbn.
    - apply bool_decide_eq_true. apply obj_get_is_Some. by rewrite Hb.
    - apply bool_decide_eq_false. by apply obj_get_None. }
  destruct (obj_get key incoming_map) as [v|]; cbn [opt_is_some negb]; rewrite ?andb_false_r, ?andb_true_r.
  - destruct (value_opt_eqb (obj_get key base_map) (Some v)); cbn [orb]; [apply value_opt_eqb_refl|].
    destruct (value_opt_eqb (obj_get key entries) (Some v)) eqn:He; [done|apply value_opt_eqb_refl].
  - destruct (obj_get key base_map); cbn; [done|]. apply value_opt_eqb_refl.
Qed.

(** A merge that reports no change has made none. *)
Lemma drop_keys_unchanged incoming_map keys (start : Map * bool) key :
  (fold_left (fun acc k => if obj_contains_key k incoming_map then acc
     else (obj_remove k acc.1, acc.2 || obj_contains_key k acc.1)) keys start).2 = false ->
  start.2 = false /\
  obj_get key (fold_left (fun acc k => if obj_contains_key k incoming_map then acc
     else (obj_remove k acc.1, acc.2 || obj_contains_key k acc.1)) keys start).1 = obj_get key start.1.
Proof.
  revert start. induction keys as [|k keys IH]; intros start; [done|]. cbn [fold_left]. intros H.
  destruct (IH _ H) as [Hs Hg]. rewrite Hg. destruct (obj_contains_key k incoming_map); [done|]. cbn [fst snd] in *.
  apply orb_false_iff in Hs as [Hs Hc]. split; [done|]. destruct (decide (key = k)) as [->|Hne].
  - rewrite obj_get_remove_eq. unfold obj_contains_key in Hc. by destruct (obj_get k start.1).
  - by rewrite obj_get_remove_ne by done.
Qed.

Lemma add_changed_unchanged base_map incoming_map start :
  (add_changed base_map incoming_map start).2 = false -> add_changed base_map incoming_map start = start.
Proof.
  unfold add_changed. revert start. induction incoming_map as [|[k v] m IH]; intros start; [done|]. cbn [fold_left fst snd].
  destruct (_ && _); [|apply IH]. intros H. rewrite IH in H by done. done.
Qed.

Lemma merged_unchanged base_map incoming_map entries key :
  (add_changed base_map incoming_map (drop_removed base_map incoming_map entries)).2 = false ->
  obj_get key (add_changed base_map incoming_map (drop_removed base_map incoming_map entries)).1 = obj_get key entries.
Proof.
  intros H. pose proof (add_changed_unchanged _ _ _ H) as Heq. rewrite Heq in H |- *. unfold drop_removed in *. by destruct (drop_keys_unchanged _ _ _ key H) as [_ ->].
Qed.

Lemma equal_entries x y key : value_eqb (Object x) (Object y) = true -> value_opt_eqb (obj_get key x) (obj_get key y) = true.
Proof.
  rewrite value_eqb_object. revert y. induction x as [|[k u] x IH]; intros [|[k' w] y]; try done. cbn [entries_eqb].
  rewrite !andb_true_iff. intros [[->%String.eqb_eq Hv] Hrest]. cbn. destruct (key =?s k'); [done|by apply IH].
Qed.

(** ** Bodies *)

Definition has_metadata (v : Value) : Prop := exists m meta, v = Object m /\ obj_get "metadata" m = Some (Object meta).

(** [f] leaves an entry of the metadata alone. *)
Definition spares (field : string) (f : Map -> Map * bool) : Prop := forall meta, obj_get field (f meta).1 = obj_get field meta.

Lemma with_metadata_spec f v :
  has_metadata v ->
  has_metadata (with_metadata_object f v).1
  /\ (forall field, spares field f -> metadata_field (with_metadata_object f v).1 field = metadata_field v field)
  /\ (forall k, k <> "metadata" -> get k (with_metadata_object f v).1 = get k v)
  /\ exists meta, (forall field, metadata_field v field = obj_get field meta)
     /\ (forall field, metadata_field (with_metadata_object f v).1 field = obj_get field (f meta).1)
     /\ (with_metadata_object f v).2 = (f meta).2.
Proof.
  intros (m & meta & -> & Hm). cbn [with_metadata_object].
  assert (obj_or_insert "metadata" (Object []) m = m) as -> by (unfold obj_or_insert, obj_contains_key; by rewrite Hm).
  rewrite Hm. destruct (f meta) as [meta' changed] eqn:Hf. cbn [fst snd]. unfold metadata_field.
  split_and!.
  - eexists _, meta'. split; [done|]. apply obj_get_insert_eq.
  - intros field Hs. specialize (Hs meta). rewrite Hf in Hs. cbn in Hs |- *. rewrite obj_get_insert_eq, Hm. by cbn.
  - intros k Hk. cbn. by apply obj_get_insert_ne, not_eq_sym.
  - exists meta. rewrite Hf. cbn. rewrite Hm. split_and!; [done| |done]. intros field. by rewrite obj_get_insert_eq.
Qed.

(** What a step of the rebase leaves alone: all but one field of the metadata. *)
Record step_on (field : string) (v v' : Value) : Prop := {
  step_metadata : has_metadata v';
  step_fields : forall field', field' <> field -> metadata_field v' field' = metadata_field v field';
  step_rest : forall k, k <> "metadata" -> get k v' = get k v
}.

Lemma step_refl field v : has_metadata v -> step_on field v v.
Proof. by split. Qed.

Lemma field_delta_step rebased base incoming field :
  has_metadata rebased -> step_on field rebased (apply_metadata_field_delta rebased base incoming field).1.
Proof.
  intros Hm. unfold apply_metadata_field_delta. destruct (value_opt_eqb _ _); [by apply step_refl|].
  match goal with |- context [with_metadata_object ?f rebased] => destruct (with_metadata_spec f rebased Hm) as (H1 & H2 & H3 & _) end.
  split; [done| |done]. intros field' Hne. apply H2. intros meta. apply not_eq_sym in Hne.
  destruct (metadata_field incoming field) as [value|]; [destruct (value_opt_eqb _ _)|]; cbn; [done|by apply obj_get_insert_ne|by apply obj_get_remove_ne].
Qed.

Lemma map_delta_step rebased base incoming field :
  has_metadata rebased -> step_on field rebased (apply_metadata_map_delta rebased base incoming field).1.
Proof.
  intros Hm. unfold apply_metadata_map_delta. destruct (value_opt_eqb _ _); [by apply step_refl|].
  destruct (metadata_field base field ≫= as_object) as [base_map|]; [|by apply field_delta_step].
  destruct (metadata_field incoming field ≫= as_object) as [incoming_map|]; [|by apply field_delta_step].
  match goal with |- context [with_metadata_object ?f rebased] => destruct (with_metadata_spec f rebased Hm) as (H1 & H2 & H3 & _) end.
  split; [done| |done]. intros field' Hne. apply H2. intros meta. unfold with_object_entry. destruct (add_changed _ _ _) as [inner changed].
  cbn. by apply obj_get_insert_ne, not_eq_sym.
Qed.

(** The step of a map field is the three-way merge of its entries. *)
Lemma map_delta_entries rebased base incoming field base_map incoming_map key :
  has_metadata rebased -> metadata_field base field = Some (Object base_map) ->
  metadata_field incoming field = Some (Object incoming_map) -> NoDup incoming_map.*1 ->
  let step := apply_metadata_map_delta rebased base incoming field in
  value_opt_eqb (metadata_entry step.1 field key)
    (three_way (metadata_entry base field key) (metadata_entry incoming field key) (metadata_entry rebased field key)) = true
  /\ (step.2 = false -> metadata_entry step.1 field key = metadata_entry rebased field key).
Proof.
  intros Hm Hb Hi Hnd step. subst step. unfold apply_metadata_map_delta, metadata_entry. rewrite Hb, Hi. cbn [mbind option_bind as_object].
  destruct (value_opt_eqb (Some (Object base_map)) (Some (Object incoming_map))) eqn:Heq.
  { split; [|done]. unfold three_way. rewrite equal_entries by done. apply value_opt_eqb_refl. }
  match goal with |- context [with_metadata_object ?f rebased] => destruct (with_metadata_spec f rebased Hm) as (_ & _ & _ & meta & H1 & H2 & H3) end.
  rewrite H1, H2, H3. unfold with_object_entry. set (entries := unwrap_or [] _).
  pose proof (merged_get base_map incoming_map entries key Hnd) as Hmerged. pose proof (merged_unchanged base_map incoming_map entries key) as Hsame.
  destruct (add_changed _ _ _) as [inner changed]. cbn [fst snd] in *. rewrite obj_get_insert_eq. cbn.
  assert ((x ← obj_get field meta; entries0 ← as_object x; obj_get key entries0) = obj_get key entries) as ->; [|done].
  unfold entries. destruct (obj_get field meta) as [[]|]; done.
Qed.

Lemma step_entry field field' v v' key : step_on field v v' -> field' <> field -> metadata_entry v' field' key = metadata_entry v field' key.
Proof. intros [_ Hf _] Hne. unfold metadata_entry. by rewrite Hf. Qed.

(** The five steps, with what each reports. *)
Lemma rebase_steps base incoming live :
  has_metadata live ->
  exists r1 r2 r3 r4 r5 c1 c2 c3 c4 c5,
    step_on "ownerReferences" live r1
    /\ apply_metadata_map_delta r1 base incoming "labels" = (r2, c2) /\ step_on "labels" r1 r2
    /\ apply_metadata_map_delta r2 base incoming "annotations" = (r3, c3) /\ step_on "annotations" r2 r3
    /\ step_on "deletionTimestamp" r3 r4 /\ step_on "deletionGracePeriodSeconds" r4 r5
    /\ rebase_stale_pod_metadata_update base incoming live = if c1 || c2 || c3 || c4 || c5 then Some r5 else None.
Proof.
  intros Hm. unfold rebase_stale_pod_metadata_update.
  pose proof (field_delta_step live base incoming "ownerReferences" Hm) as S1. destruct (apply_metadata_field_delta live _ _ _) as [r1 c1]. cbn in S1.
  pose proof (map_delta_step r1 base incoming "labels" (step_metadata _ _ _ S1)) as S2. destruct (apply_metadata_map_delta r1 _ _ _) as [r2 c2] eqn:E2. cbn in S2.
  pose proof (map_delta_step r2 base incoming "annotations" (step_metadata _ _ _ S2)) as S3. destruct (apply_metadata_map_delta r2 _ _ _) as [r3 c3] eqn:E3. cbn in S3.
  pose proof (field_delta_step r3 base incoming "deletionTimestamp" (step_metadata _ _ _ S3)) as S4. destruct (apply_metadata_field_delta r3 _ _ _) as [r4 c4]. cbn in S4.
  pose proof (field_delta_step r4 base incoming "deletionGracePeriodSeconds" (step_metadata _ _ _ S4)) as S5. destruct (apply_metadata_field_delta r4 _ _ _) as [r5 c5]. cbn in S5.
  exists r1, r2, r3, r4, r5, c1, c2, c3, c4, c5. done.
Qed.


(** ** Examples *)

Definition sample_pod (labels : Map) (phase : string) : Value :=
  Object [("metadata", Object [("labels", Object labels)]); ("status", Object [("phase", Str phase)])].

