(* ===== verification/MaterializeSpec.v ===== *)
(** * What materialized entries promise

    The leader builds an entry from its database ([Materialize]) and the entry is
    applied later, by every node, to whatever the database is by then
    ([CommittedApply], [EntryApply]).  The theorems are about that distance.

    [authors Q] says what a builder authors; [follow_builder] takes a builder apart
    down to it.  [proposed] is an entry for a command, direct or of a delivery.
    [outbox_exactly_once], [entries_never_stop_a_node], [no_lost_update] and
    [creation_takes_effect_once] are the results. *)

From S2P Require Import Prelude Text Json Watch Apply KeyCodec StaleResource StatusMerge StatusRegistry ResourceSemantics LogApply ResourceShape ResourceIndex NodeSubnets NodeRouting Commands SqliteState CommittedApply EntryApply Materialize.

Local Open Scope string_scope.
Local Open Scope rs_scope.

(** ** What a builder authors *)

Definition template (ms : list ClusterMutation) : list LogApplyMutation :=
  (fun m => (zero_version (into_log_apply_mutation m)).1) <$> ms.

(** The built commit, if any, is a template of mutations with [Q]. *)
Definition authors (Q : list ClusterMutation -> Prop) (built : Built) : Prop :=
  match built with
  | Err _ => True
  | Ok (c, _) =>
      exists ms, c = mkCommit 0 None (template ms) /\ validate_live_template c = Ok tt /\ Q ms
  end.

Lemma author_mutations_ok candidate ms ms' :
  author_mutations candidate ms = Ok ms' -> ms' = (fun m => (zero_version m).1) <$> ms.
Proof.
  revert ms'. induction ms as [|m ms IH]; intros ms'; cbn [author_mutations]; [by intros [= <-]|].
  destruct (zero_version m) as [m0 observed] eqn:Hz. destruct (is_some_and _ _); [done|].
  destruct (author_mutations candidate ms) as [rest|]; [|done]. cbn. intros [= <-]. rewrite Hz. cbn. by rewrite (IH rest).
Qed.

Lemma authors_at Q rv ms : Q ms -> authors Q (authored_at rv ms).
Proof.
  intros HQ. unfold authored_at, author_live_commit_from_cluster_mutations, author_live_commit.
  destruct (author_mutations rv _) as [ms'|] eqn:Ha; [|done]. apply author_mutations_ok in Ha. cbn [result_bind].
  unfold try_new, try_new_with_watermark. destruct (validate_live_template _) as [[]|] eqn:Hv; [|done]. cbn.
  exists ms. rewrite <- list_fmap_compose in Ha. subst ms'. done.
Qed.

Lemma authors_nothing (Q : list ClusterMutation -> Prop) rv : Q [] -> authors Q (nothing rv).
Proof. intros HQ. cbn. by exists []. Qed.

Lemma authors_bind {A} Q (r : result DbError A) k : (forall a, r = Ok a -> authors Q (k a)) -> authors Q (result_bind r k).
Proof. destruct r as [a|]; cbn; [|done]. intros H. by apply H. Qed.

Lemma authors_mono (Q Q' : list ClusterMutation -> Prop) built : authors Q built -> (forall ms, Q ms -> Q' ms) -> authors Q' built.
Proof. destruct built as [[c rv]|]; [|done]. intros (ms & Hc & Hv & HQ) H. exists ms. auto. Qed.

(** Follow the control flow of a builder down to what it authors. *)
Ltac follow_builder :=
  repeat (cbn zeta;
    match goal with
    | |- authors _ (authored_at _ _) => apply authors_at
    | |- authors _ (nothing _) => apply authors_nothing
    | |- authors _ (Err _) => exact I
    | |- authors _ (conversion_error _) => exact I
    | |- authors _ (result_bind _ _) => apply authors_bind; intros ? ?
    | |- authors _ (if ?b then _ else _) => destruct b eqn:?
    | |- authors _ (match ?e with _ => _ end) => destruct e eqn:?
    end).

(** ** Entries a committed apply can take *)

(** Every body is free of what [EntryApply] rules out. *)
Definition safe (ms : list ClusterMutation) : Prop :=
  (Forall constraint_free (template ms) /\ Forall full_write (tail (template ms))
   /\ NoDup (commit_keys (negb (existsb is_put_watch_event (template ms))) (template ms)))
  \/ exists f, template ms = [FinalizeBoundPod f].

Lemma safe_nil : safe [].
Proof. left. repeat constructor. Qed.

Lemma safe_one m : constraint_free (zero_version (into_log_apply_mutation m)).1 -> safe [m].
Proof.
  intros Hc. left. split_and!; [by repeat constructor|constructor|]. unfold commit_keys. cbn [template fmap list_fmap concat].
  rewrite app_nil_r. set (emit := negb _). clearbody emit. destruct (zero_version _).1, emit; cbn;
    first [apply NoDup_singleton|constructor].
Qed.

Create HintDb entries.
#[export] Hint Resolve safe_nil safe_one : entries.
#[export] Hint Extern 3 (constraint_free _) => first [exact I|reflexivity] : entries.

Lemma safe_deletion api_version kind namespace name rv data uid precondition_rv :
  safe [deleted_row api_version kind namespace name rv data; delete_row api_version kind namespace name uid precondition_rv].
Proof. left. split_and!; [by repeat constructor..|]. apply NoDup_singleton. Qed.
#[export] Hint Resolve safe_deletion : entries.

(** ** Fields no write of the server touches *)

Definition server_fields : list string := ["apiVersion"; "kind"; "metadata"; "status"; "object"].

Lemma get_map_object k f v : (forall m, obj_get k (f m) = obj_get k m) -> get k (map_object f v) = get k v.
Proof. intros Hf. destruct v; try done. apply Hf. Qed.

Lemma get_get_mut k k' f v : k <> k' -> get k (get_mut k' f v) = get k v.
Proof. intros Hne. apply get_map_object. intros m. by apply obj_get_alter_ne. Qed.

Lemma insert_if_missing_ne k k' v m : k <> k' -> obj_get k (insert_if_missing k' v m) = obj_get k m.
Proof. intros Hne. unfold insert_if_missing. destruct (missing_or_empty k' m); [by apply obj_get_insert_ne|done]. Qed.

Lemma get_type_meta k v api_version kind : k <> "apiVersion" -> k <> "kind" -> get k (ensure_resource_type_meta v api_version kind) = get k v.
Proof. intros Ha Hk. apply get_map_object. intros m. by rewrite !insert_if_missing_ne. Qed.

Lemma get_metadata_entry k f v : k <> "metadata" -> get k (with_metadata_entry f v) = get k v.
Proof. intros Hk. apply get_map_object. intros m. by rewrite obj_get_alter_ne, obj_get_or_insert_ne. Qed.

Lemma get_ip_arrays k v api_version kind : k <> "status" -> get k (ensure_pod_status_ip_arrays v api_version kind) = get k v.
Proof. intros Hk. unfold ensure_pod_status_ip_arrays. destruct (_ || _); [done|]. by apply get_get_mut. Qed.

Lemma get_metadata_uid k generated v : k <> "metadata" -> get k (ensure_metadata_uid generated v).1 = get k v.
Proof.
  intros Hk. destruct v as [| | | | |m]; try done. cbn. destruct (obj_get "metadata" _) as [[]|]; cbn; rewrite ?obj_get_or_insert_ne by done; try done.
  destruct (opt_filter _ _); cbn; by rewrite ?obj_get_insert_ne, obj_get_or_insert_ne.
Qed.

Lemma get_hydrated k v api_version kind namespace name rv :
  k ∉ server_fields -> get k (hydrate_watch_event_data v api_version kind namespace name rv) = get k v.
Proof.
  unfold server_fields. rewrite !not_elem_of_cons. intros (H1 & H2 & H3 & _ & H5 & _). destruct v as [| | | | |m]; try done.
  cbn [hydrate_watch_event_data]. destruct (_ && _).
  - assert (Hother : forall x, String.eqb "object" x = true -> k <> x) by by intros x <-%String.eqb_eq.
    unfold get. cbn [as_object mbind option_bind]. revert Hother. generalize (String.eqb "object"). clear. intros p Hother.
    induction m as [|[k' v'] m IH]; [done|]. destruct (p k') eqn:Hp; cbn.
    + apply Hother in Hp. by destruct (String.eqb_spec k k').
    + by destruct (String.eqb_spec k k').
  - cbn. unfold hydrate_object. by rewrite obj_get_alter_ne, obj_get_or_insert_ne, !obj_get_insert_ne.
Qed.

Lemma get_external_ip k v : k <> "status" -> get k (set_node_external_ip_from_dataplane_annotation v).1 = get k v.
Proof.
  intros Hk. unfold set_node_external_ip_from_dataplane_annotation. destruct (opt_filter _ _) as [endpoint|]; [|done].
  unfold set_node_external_ip. destruct (is_empty _); [done|]. destruct v as [| | | | |m]; try done. cbn. by apply obj_get_insert_ne.
Qed.

Section Parameters.

Context (parse_from_rfc3339 : string -> option Z).
Context (merge : Value -> Value -> Value).
Context (chrono_format : string -> Instant -> string).
Context (new_v4 : nat -> string).
Context (from_slice : string -> result string Value).
Context (base64_decode : string -> option (list ascii)).

Definition batch_key (operation : ResourceBatchOperation) : NsKey :=
  match operation with
  | BatchPut api_version kind namespace name _ _ _ | BatchDelete api_version kind namespace name _ =>
      identity_key (resource_identity api_version kind namespace name)
  end.

(** The commands whose entries stay clear of table constraints: subnet rows, which
    are unique per cluster, a dataplane row with a mode or encryption in another
    spelling, a patch of [metadata.uid] against the latest row and a batch that
    names an object twice are not among them. *)
Definition ordinary (command : StorageCommand) : bool :=
  match command with
  | Command.AllocateNodeSubnet _ _ _ | Command.UpdateNodePeerAttributes _ _ _ => false
  | Command.UpdateNodeDataplane _ mode encryption _ _ _ =>
      ((mode =?s "root") || (mode =?s "rootless")) && ((encryption =?s "enabled") || (encryption =?s "disabled"))
  | Command.PatchResource api_version kind _ _ patch_kind patch preconditions strict_resource_version =>
      negb (should_apply_outbox_patch_against_latest api_version kind patch_kind patch preconditions strict_resource_version)
      || patch_keeps_uid patch
  | Command.ApplyResourceBatch operations => bool_decide (NoDup (batch_key <$> operations))
  | _ => true
  end.

Abbreviation build :=
  (build_log_apply_commit_in_tx_from_command parse_from_rfc3339 merge chrono_format new_v4 from_slice base64_decode).

Lemma batch_safe rv now draw operations s ms :
  batch_mutations chrono_format new_v4 rv now draw operations s = Ok ms ->
  Forall (fun m => constraint_free m /\ full_write m /\ is_put_watch_event m = false /\ is_put_applied_outbox m = false
                 /\ off_ledger m) (template ms)
  /\ commit_keys true (template ms) = batch_key <$> operations.
Proof.
  revert draw ms. induction operations as [|operation operations IH]; intros draw ms; [by intros [= <-]|].
  cbn [batch_mutations]. destruct (batch_mutation _ _ _ _ _ _ _) as [m|] eqn:Hm; [|done]. cbn [result_bind].
  destruct (batch_mutations _ _ _ _ _ _ _) as [rest|] eqn:Hrest; [|done]. intros [= <-]. destruct (IH _ _ Hrest) as [Hf Hk].
  assert (Hone : exists m', template [m] = [m'] /\ constraint_free m' /\ full_write m' /\ is_put_watch_event m' = false
                            /\ is_put_applied_outbox m' = false /\ off_ledger m' /\ mutation_keys true m' = [batch_key operation]).
  { revert Hm. destruct operation as [av kind ns name data mode pre|av kind ns name pre]; cbn [batch_mutation].
    - destruct (match mode with BatchCreate => _ | BatchUpdate => _ end) as [data'|]; [|done]. cbn [result_bind].
      destruct (ensure_metadata_uid _ _) as [data'' uid]. intros [= <-]. by eexists.
    - destruct (resource_row_for_update_in_tx _ _ _ _ _) as [row|]; [|done]. cbn [result_bind].
      destruct (validate_resource_preconditions _ _ _); [|done]. intros [= <-]. by eexists. }
  destruct Hone as (m' & Hm' & H1 & H2 & H3 & H3' & H3'' & H4). change (template (m :: rest)) with (template [m] ++ template rest)%list.
  rewrite Hm'. split; [by constructor|]. unfold commit_keys in *. cbn. by rewrite H4, Hk.
Qed.

Lemma ordinary_batch rv now operations s ms :
  NoDup (batch_key <$> operations) -> batch_mutations chrono_format new_v4 rv now 0 operations s = Ok ms -> safe ms.
Proof.
  intros Hnd Hms. apply batch_safe in Hms as [Hf Hk]. left. split_and!.
  - eapply Forall_impl; [exact Hf|]. by intros m (? & _).
  - apply Forall_tail. eapply Forall_impl; [exact Hf|]. by intros m (_ & ? & _).
  - replace (existsb is_put_watch_event (template ms)) with false; [cbn [negb]; by rewrite Hk|]. clear -Hf.
    induction Hf as [|m l (_ & _ & Hm & _) _ IH]; [done|]. cbn. by rewrite Hm.
Qed.

Lemma create_namespace_safe rv now name data s : authors safe (build_create_namespace chrono_format new_v4 rv now name data s).
Proof. unfold build_create_namespace. follow_builder; auto with entries. Qed.

Lemma update_namespace_safe rv name data preconditions s : authors safe (build_update_namespace new_v4 rv name data preconditions s).
Proof. unfold build_update_namespace. follow_builder; auto with entries. Qed.

Lemma update_resource_safe operation node rv av kind ns name data expected_rv pre preserve_status s :
  authors safe (build_update_resource parse_from_rfc3339 new_v4 operation node rv av kind ns name data expected_rv pre preserve_status s).
Proof.
  unfold build_update_resource. follow_builder; try apply update_namespace_safe; auto with entries.
Qed.

Lemma node_row_put node_name metadata rv s m :
  node_routing_metadata_resource_row_in_tx node_name metadata rv s = Some m ->
  exists uid data, m = put_row "v1" "Node" None node_name uid rv data false None None false.
Proof.
  unfold node_routing_metadata_resource_row_in_tx. destruct (cluster_resources _ !! _) as [current|]; [|done]. cbn [mbind option_bind].
  repeat (match goal with |- context [let '(_, _) := ?p in _] => destruct p end).
  destruct (_ || _ || _); [|done]. intros [= <-]. by eexists _, _.
Qed.

Lemma dataplane_safe rv node_name mode encryption public_key endpoint port s :
  (mode = "root" \/ mode = "rootless") -> (encryption = "enabled" \/ encryption = "disabled") ->
  authors safe (build_update_node_dataplane base64_decode rv node_name mode encryption public_key endpoint port s).
Proof.
  intros Hm He. unfold build_update_node_dataplane. follow_builder.
  destruct (node_routing_metadata_resource_row_in_tx _ _ _ _) as [m|] eqn:Hn; [|by apply safe_one].
  apply node_row_put in Hn as (uid & data & ->). left.
  split_and!; [constructor; [done|by repeat constructor]|by repeat constructor|apply NoDup_singleton].
Qed.

Lemma patch_safe rv now av kind ns name patch_kind patch pre strict s :
  ordinary (Command.PatchResource av kind ns name patch_kind patch pre strict) = true ->
  authors safe (build_patch_resource merge chrono_format new_v4 rv now av kind ns name patch_kind patch pre strict s).
Proof.
  cbn [ordinary]. intros Ho. unfold build_patch_resource. follow_builder; apply safe_one; [|done].
  cbn. by destruct (patch_keeps_uid patch).
Qed.

#[local] Hint Resolve create_namespace_safe update_namespace_safe update_resource_safe patch_safe : entries.

(** The entries of ordinary commands. *)
Lemma build_safe command operation node hint now s : ordinary command = true -> authors safe (build command operation node hint now s).
Proof.
  intros Ho. unfold build_log_apply_commit_in_tx_from_command. destruct command; try done; cbn zeta; auto with entries.
  all: unfold build_create_resource, build_update_status, build_delete_resource, build_delete_with_tombstone,
    build_move_pod_to_cleanup_intent, build_watch_event_append, build_gc_applied_outbox,
    build_delete_cleanup_intents_for_node, build_ensure_cluster_metadata.
  all: try (follow_builder; auto with entries; fail).
  - unfold build_finalize_bound_pod. follow_builder; auto with entries. right. by eexists.
  - follow_builder. by eapply ordinary_batch; [apply bool_decide_eq_true in Ho|].
  - unfold build_delete_namespace. follow_builder. left. split_and!; [by repeat constructor..|]. apply NoDup_singleton.
  - cbn in Ho. rewrite andb_true_iff, !orb_true_iff, !String.eqb_eq in Ho. destruct Ho. by apply dataplane_safe.
  - follow_builder; auto with entries. left. by repeat constructor.
Qed.

(** Every builder authors a template, without ledger rows; only the collection of
    the ledger touches the rows there are. *)
Definition no_rows (ms : list LogApplyMutation) : Prop := Forall (fun m => is_put_applied_outbox m = false) ms.

Definition collects (command : StorageCommand) : bool :=
  match command with Command.GcAppliedOutbox _ => true | _ => false end.

Definition quiet (command : StorageCommand) (ms : list ClusterMutation) : Prop :=
  no_rows (template ms) /\ (collects command = false -> Forall off_ledger (template ms)).

Lemma quiet_put command api_version kind namespace name uid rv data absent precondition_uid precondition_rv status_only :
  quiet command [put_row api_version kind namespace name uid rv data absent precondition_uid precondition_rv status_only].
Proof. split; [|intros _]; by repeat constructor. Qed.

Lemma build_authors command operation node hint now s : authors (quiet command) (build command operation node hint now s).
Proof.
  unfold build_log_apply_commit_in_tx_from_command. destruct command; cbn zeta.
  all: unfold build_create_resource, build_update_resource, build_update_status, build_delete_resource,
    build_delete_with_tombstone, build_finalize_bound_pod, build_patch_resource, build_update_node_dataplane,
    build_update_node_peer_attributes, build_move_pod_to_cleanup_intent, build_watch_event_append,
    build_gc_applied_outbox, build_delete_cleanup_intents_for_node, build_ensure_cluster_metadata,
    build_create_namespace, build_update_namespace, build_delete_namespace.
  all: follow_builder; try apply quiet_put; try (split; [|intros _]; by repeat constructor).
  - match goal with H : batch_mutations _ _ _ _ _ _ _ = _ |- _ => apply batch_safe in H as [Hf _] end.
    split; [|intros _]; (eapply Forall_impl; [exact Hf|]); [by intros m (_ & _ & _ & ? & _)|]. by intros m (_ & _ & _ & _ & ?).
  - destruct (node_routing_metadata_resource_row_in_tx _ _ _ _) as [m|] eqn:Hm; [|split; [|intros _]; by repeat constructor].
    apply node_row_put in Hm as (uid & data & ->). split; [|intros _]; by repeat constructor.
  - split; [by repeat constructor|done].
Qed.

(** ** Entries of deliveries *)

Context (encode : StorageResponse -> result string string).
Context (decode : string -> result string StorageResponse).
Context (json_to_string : Value -> string).
Context (call_error_text : string -> string).
Context (float_to_string : Z -> string).

Abbreviation build_for_outbox :=
  (build_log_apply_commit_for_outbox_with_watermark parse_from_rfc3339 merge chrono_format new_v4 from_slice base64_decode
     encode decode json_to_string call_error_text).
Abbreviation apply_entry :=
  (apply_commit_in_tx_for_raft_with_context parse_from_rfc3339 float_to_string merge encode decode).
Abbreviation deliver_entry := (delivery parse_from_rfc3339 float_to_string merge encode decode).

(** The ledger row of a delivery, up to its stored answer. *)
Definition ledger_row (key operation : string) (command : StorageCommand) (now : Instant) (bytes : string)
    : LogApplyAppliedOutboxRow :=
  mkOutboxRow key (subject_key_for_command command) operation (timestamp_millis now) None bytes
    (opt_filter (fun stamp => 0 <? stamp)%Z (pod_status_stamp_of command)).

(** The entry: the mutations of the command, or none, and the ledger row. *)
Record delivery_entry (key operation : string) (command : StorageCommand) (node : string)
    (w : option OutboxStreamWatermark) (now : Instant) (s : SqliteState) (body : list LogApplyMutation)
    (c : LogApplyCommit) : Prop := {
  de_commit : exists bytes, c = mkCommit 0 w (body ++ [PutAppliedOutbox (ledger_row key operation command now bytes)]);
  de_template : validate_live_template c = Ok tt;
  de_body : body = [] \/ exists rv, build command operation node (resource_version_hint_in_tx s) now s = Ok (mkCommit 0 None body, rv);
  de_position : forall w', w = Some w' -> stream_position_in_tx w' s = Ok PositionNext
}.

Lemma expected_template ms w c :
  expect_template (try_new_with_watermark ms w) = Ok c -> c = mkCommit 0 w ms /\ validate_live_template c = Ok tt.
Proof.
  unfold expect_template, try_new_with_watermark. destruct (validate_live_template _) as [[]|] eqn:Hv; [|done]. cbn. by intros [= <-].
Qed.

Lemma appended_row key operation command node w now s body error c :
  body = [] \/ (exists rv, build command operation node (resource_version_hint_in_tx s) now s = Ok (mkCommit 0 None body, rv)) ->
  (forall w', w = Some w' -> stream_position_in_tx w' s = Ok PositionNext) ->
  append_applied_outbox_ledger_mutation encode (mkCommit 0 w body) (ledger_input key operation command now error) = Ok c ->
  delivery_entry key operation command node w now s body c.
Proof. intros Hb Hw [-> Hv]%expected_template. split; try done. by eexists. Qed.

Lemma ledger_only_entry key operation command node w now s rv error c rv' error' :
  (forall w', w = Some w' -> stream_position_in_tx w' s = Ok PositionNext) ->
  build_ledger_only encode w rv (ledger_input key operation command now error) = Ok (NeedsPropose c rv' error') ->
  delivery_entry key operation command node w now s [] c.
Proof.
  intros Hw. unfold build_ledger_only. assert (author_live_commit rv [] = Ok (mkCommit 0 None [])) as -> by done. cbn [result_bind].
  destruct (set_live_commit_watermark _ w) as [c1|] eqn:H1; [|done]. apply expected_template in H1 as [-> _]. cbn [result_bind].
  destruct (append_applied_outbox_ledger_mutation _ _ _) as [c2|] eqn:H2; [|done]. cbn. intros [= <- <- <-].
  eapply appended_row; [by left|done|exact H2].
Qed.

Lemma built_commit command operation node hint now s c rv :
  build command operation node hint now s = Ok (c, rv) -> c = mkCommit 0 None (lc_mutations c).
Proof. intros Hb. pose proof (build_authors command operation node hint now s) as Ha. rewrite Hb in Ha. by destruct Ha as (ms & -> & _). Qed.

Lemma stream_entry key operation command node w now s c rv error :
  stream_position_in_tx w s = Ok PositionNext ->
  build_stream_entry parse_from_rfc3339 merge chrono_format new_v4 from_slice base64_decode encode json_to_string
    key operation command node w now s = Ok (NeedsPropose c rv error) ->
  exists body, delivery_entry key operation command node (Some w) now s body c.
Proof.
  intros Hp. assert (Hw : forall w', Some w = Some w' -> stream_position_in_tx w' s = Ok PositionNext) by by intros w' [= <-].
  unfold build_stream_entry. destruct (terminal_error_for_stale_uid_bound_pod_in_tx command s) as [terminal|].
  { intros H. exists []. by eapply ledger_only_entry. }
  destruct (should_consume_watermark_for_idempotent_existing_create_in_tx operation command s).
  { intros H. exists []. by eapply ledger_only_entry. }
  fold (resource_version_hint_in_tx s). destruct (build command operation node _ now s) as [[c1 rv1]|e] eqn:Hb.
  - pose proof (built_commit _ _ _ _ _ _ _ _ Hb) as Hc1. destruct (set_live_commit_watermark c1 (Some w)) as [c2|] eqn:H2; [|done].
    apply expected_template in H2 as [-> _]. cbn [result_bind].
    destruct (append_applied_outbox_ledger_mutation _ _ _) as [c3|] eqn:H3; [|done]. cbn. intros [= <- <- <-].
    exists (lc_mutations c1). eapply appended_row; [right|done|exact H3]. exists rv1. by rewrite <- Hc1.
  - destruct (contains _ _); [|done]. intros H. exists []. by eapply ledger_only_entry.
Qed.

Lemma outbox_entry key operation command node w now s c rv error :
  build_for_outbox key operation command node w now s = Ok (NeedsPropose c rv error) ->
  db_outbox s !! key = None /\ exists body, delivery_entry key operation command node w now s body c.
Proof.
  unfold build_log_apply_commit_for_outbox_with_watermark, build_log_apply_commit_for_outbox, admit_lease_renew.
  destruct w as [w|]; (destruct (operation =?s "LeaseRenew"); [by destruct (validate_lease_renew_command _ _)|]);
    destruct (db_outbox s !! key) as [record|] eqn:Hk.
  - by destruct (cached_outbox_committed_resource _ _).
  - destruct (stream_position_in_tx w s) as [[|]|] eqn:Hp; [|by destruct (cached_outbox_committed_resource _ _)|done].
    destruct (build_stream_entry _ _ _ _ _ _ _ _ _ _ _ _ _ _ _) as [o|] eqn:Hs; [|done]. intros [= ->].
    split; [done|]. by eapply stream_entry.
  - destruct (cached_outbox_terminal_error _ _) as [[|]|]; [done| |done]. cbn [result_bind]. by destruct (cached_outbox_committed_resource _ _).
  - fold (resource_version_hint_in_tx s). destruct (build command operation node _ now s) as [[c1 rv1]|e] eqn:Hb; [|done]. cbn [result_bind].
    pose proof (built_commit _ _ _ _ _ _ _ _ Hb) as Hc1.
    destruct (append_applied_outbox_ledger_mutation _ _ _) as [c2|] eqn:H2; [|done]. cbn. intros [= <- <- <-]. split; [done|].
    exists (lc_mutations c1). rewrite Hc1 in H2. cbn in H2. eapply appended_row; [right|done|exact H2]. exists rv1. by rewrite <- Hc1.
Qed.

(** An entry the leader built for a delivery on an outbox stream, from the database
    [s] it had then. *)
Inductive stream_delivery (s : SqliteState) (c : LogApplyCommit) : Prop :=
| StreamDelivery key operation command node w now rv error :
    build_for_outbox key operation command node (Some w) now s = Ok (NeedsPropose c rv error) -> stream_delivery s c.

Lemma stream_delivery_tracked s c : stream_delivery s c -> tracked c.
Proof.
  intros [key operation command node w now rv error [_ [body He]]%outbox_entry]. destruct (de_commit _ _ _ _ _ _ _ _ _ He) as [bytes ->].
  split; [by eexists|]. cbn. by rewrite existsb_app, orb_true_r.
Qed.

(** C1.  A worker's outbox takes effect once and in order, whatever the leader and
    the log do to it.  Let the entries be built by leaders from any databases, stale
    ones included, for any commands, and delivered in any order, with repeats, gaps,
    failed attempts and second entries for a position: the entries that move a
    stream have the positions [1, 2, .., n] of that stream, [n] is the recorded
    position, and the other deliveries leave no trace. *)
Theorem outbox_exactly_once commits (Hbuilt : Forall (fun c => exists s, stream_delivery s c) commits) :
  let '(accepted, s) := deliver parse_from_rfc3339 float_to_string merge encode decode commits empty_db in
  (forall key, omap (stream_position key) accepted = seqZ 1 (last_position key s))
  /\ deliver parse_from_rfc3339 float_to_string merge encode decode accepted empty_db = (accepted, s).
Proof.
  apply stream_exactly_once. eapply Forall_impl; [exact Hbuilt|]. intros c [s Hc]. by eapply stream_delivery_tracked.
Qed.

(** ** No entry stops the state machine *)

(** The entries the leader proposes for a command. *)
Inductive proposed (command : StorageCommand) (operation node : string) (s : SqliteState) (c : LogApplyCommit) : Prop :=
| ProposedDirect now :
    build_log_apply_commit_for_command parse_from_rfc3339 merge chrono_format new_v4 from_slice base64_decode
      command operation node now s = Ok c -> proposed command operation node s c
| ProposedDelivery key w now rv error :
    build_for_outbox key operation command node w now s = Ok (NeedsPropose c rv error) -> proposed command operation node s c.

Lemma with_row_ok w ms row :
  safe ms -> validate_live_template (mkCommit 0 w (template ms ++ [PutAppliedOutbox row])) = Ok tt ->
  entry_ok (mkCommit 0 w (template ms ++ [PutAppliedOutbox row])).
Proof.
  intros Hs Hv. split; [done| |]; cbn [lc_mutations].
  - destruct Hs as [(_ & Hf & _)|[f ->]]; [|by repeat constructor]. destruct (template ms); [constructor|]. cbn in *.
    apply Forall_app. split; [done|by repeat constructor].
  - destruct Hs as [(Hc & _ & Hk)|[f ->]]; [left|right; by eexists _, _]. split; [apply Forall_app; split; [done|by repeat constructor]|].
    rewrite existsb_app. cbn [existsb is_put_watch_event]. rewrite !orb_false_r. unfold commit_keys in *.
    rewrite fmap_app, concat_app. cbn. by rewrite app_nil_r.
Qed.

Lemma proposed_ok command operation node s c : ordinary command = true -> proposed command operation node s c -> entry_ok c.
Proof.
  intros Ho [now H|key w now rv error [_ [body He]]%outbox_entry].
  - revert H. unfold build_log_apply_commit_for_command. pose proof (build_safe command operation node (resource_version_hint_in_tx s) now s Ho) as Hb.
    destruct (build command operation node _ now s) as [[c1 rv]|]; [|done]. cbn. intros [= <-]. destruct Hb as (ms & -> & Hv & Hs).
    split; [done| |]; cbn [lc_mutations].
    + destruct Hs as [(_ & ? & _)|[f ->]]; [done|constructor].
    + destruct Hs as [(? & _ & ?)|[f ->]]; [by left|right]. by exists f, [].
  - destruct He as [[bytes ->] Hv Hb _]. destruct Hb as [->|[rv' Hb]].
    + apply (with_row_ok w [] _ safe_nil Hv).
    + pose proof (build_safe command operation node (resource_version_hint_in_tx s) now s Ho) as Ha. rewrite Hb in Ha.
      destruct Ha as (ms & [= ->] & _ & Hs). by apply with_row_ok.
Qed.

Lemma no_rows_omap ms : no_rows ms -> omap outbox_row ms = [].
Proof. induction 1 as [|m ms Hm _ IH]; [done|]. cbn. rewrite IH. by destruct m. Qed.

Lemma built_no_rows command operation node hint now s c rv :
  build command operation node hint now s = Ok (c, rv) -> no_rows (lc_mutations c).
Proof. intros Hb. pose proof (build_authors command operation node hint now s) as Ha. rewrite Hb in Ha. by destruct Ha as (ms & -> & _ & ? & _). Qed.

Lemma proposed_keeps_row command operation node s c : proposed command operation node s c -> keeps_row c.
Proof.
  intros [now H|key w now rv error [_ [body He]]%outbox_entry] row Hrow.
  - revert H. unfold build_log_apply_commit_for_command. destruct (build command operation node _ now s) as [[c1 rv]|] eqn:Hb; [|done].
    cbn. intros [= <-]. apply built_no_rows in Hb. unfold ledger_template in Hrow. by rewrite no_rows_omap in Hrow.
  - destruct He as [[bytes ->] _ Hb _]. assert (Hbody : no_rows body).
    { destruct Hb as [->|[rv' Hb]]; [constructor|]. by apply built_no_rows in Hb. }
    unfold ledger_template in Hrow. cbn [lc_mutations] in *. rewrite omap_app, no_rows_omap in Hrow by done. cbn in Hrow.
    injection Hrow as <-. by eexists _, _.
Qed.

(** A stream that has not moved back since the entry was built finds the entry next,
    or already applied. *)
Lemma position_no_gap w s t :
  stream_position_in_tx w s = Ok PositionNext ->
  (last_position (watermark_key w) s <= last_position (watermark_key w) t)%Z ->
  exists d, outbox_watermark_decision_in_tx (Some w) t = Ok d /\ forall last next, d <> WGap last next.
Proof.
  unfold stream_position_in_tx, last_position, outbox_watermark_decision_in_tx, decide_position, decide_outbox_watermark.
  destruct (Z.leb_spec (wm_stream_seq w) 0); [done|]. cbn [result_bind]. intros Hs Hle.
  assert (Hseq : (wm_stream_seq w <= unwrap_or 0 (db_watermarks s !! watermark_key w) + 1 /\ wm_stream_seq w <= i64_max)%Z).
  { destruct (db_watermarks s !! watermark_key w) as [last|].
    - destruct (Z.leb_spec (wm_stream_seq w) last); [done|].
      destruct (Z.eqb_spec (wm_stream_seq w) (saturating_i64 (last + 1))); [|done]. cbn. unfold saturating_i64, i64_max, i64_min in *. lia.
    - destruct (Z.eqb_spec (wm_stream_seq w) 1); [|done]. unfold i64_max. cbn. lia. }
  destruct (db_watermarks t !! watermark_key w) as [last|]; cbn [unwrap_or] in *.
  - destruct (Z.leb_spec (wm_stream_seq w) last); [by eexists|]. destruct (Z.eqb_spec (wm_stream_seq w) (saturating_i64 (last + 1))); [by eexists|].
    unfold saturating_i64, i64_max, i64_min in *. lia.
  - destruct (Z.eqb_spec (wm_stream_seq w) 1); [by eexists|]. lia.
Qed.

(** C7.  No entry of an ordinary command stops a node.  An entry is built from the
    leader's database [s] and applied to a database [t] that anything may have
    happened to since, as long as the stream of the entry did not move back and its
    ledger key is still new.  Applying it then succeeds or is refused with one of
    the conflicts a node records and goes on from; it is never one of the errors
    that end the node's part in the cluster.  [ready] asks that versions are below
    the counter, that the event ids have room for the entry, and that the body a
    status goes into is an object. *)
Theorem entries_never_stop_a_node command operation node s c t
  (encode_total : forall response, exists bytes, encode response = Ok bytes)
  (merge_keeps_uid : forall v patch, patch_keeps_uid patch = true -> metadata_uid (merge v patch) = metadata_uid v)
  (Hordinary : ordinary command = true) (Hproposed : proposed command operation node s c) (Hready : ready c t)
  (Hnew : ledger_answer c t = None)
  (Hstream : forall w, lc_outbox_watermark c = Some w ->
     (last_position (watermark_key w) s <= last_position (watermark_key w) t)%Z) :
  exists out, apply_entry c t = Ok out.
Proof.
  assert (exists d, outbox_watermark_decision_in_tx (lc_outbox_watermark c) t = Ok d /\ forall last next, d <> WGap last next)
    as (d & Hd & Hgap).
  { destruct (lc_outbox_watermark c) as [w|] eqn:Hw; [|by eexists]. apply (position_no_gap w s); [|by apply Hstream].
    destruct Hproposed as [now H|key w' now rv error [_ [body He]]%outbox_entry].
    - exfalso. revert H. unfold build_log_apply_commit_for_command. destruct (build command operation node _ now s) as [[c1 rv]|] eqn:Hb; [|done].
      cbn. intros [= <-]. apply built_commit in Hb. by rewrite Hb in Hw.
    - destruct He as [[bytes ->] _ _ Hp]. by apply Hp. }
  eapply raft_ok; [done|by eapply proposed_ok|done|by eapply proposed_keeps_row|done..].
Qed.

(** ** Optimistic concurrency *)

Lemma proposed_rows command operation node s c :
  proposed command operation node s c ->
  exists body row, lc_mutations c = (body ++ option_list (PutAppliedOutbox <$> row))%list
    /\ (body = [] \/ exists now rv, build command operation node (resource_version_hint_in_tx s) now s = Ok (mkCommit 0 None body, rv)).
Proof.
  intros [now H|key w now rv error [_ [body [[bytes ->] _ Hb _]]]%outbox_entry].
  - revert H. unfold build_log_apply_commit_for_command. destruct (build command operation node _ now s) as [[c1 rv]|] eqn:Hb; [|done].
    cbn. intros [= <-]. exists (lc_mutations c1), None. rewrite app_nil_r. split; [done|right]. exists now, rv.
    by rewrite <- (built_commit _ _ _ _ _ _ _ _ Hb).
  - eexists body, (Some _). split; [done|]. destruct Hb as [?|[rv' Hb]]; [by left|right]. by exists now, rv'.
Qed.

Lemma proposed_body command operation node s c :
  proposed command operation node s c ->
  exists body rows, lc_mutations c = (body ++ rows)%list /\ forallb is_put_applied_outbox rows = true
    /\ (body = [] \/ exists now rv, build command operation node (resource_version_hint_in_tx s) now s = Ok (mkCommit 0 None body, rv)).
Proof. intros (body & row & Hms & Hb)%proposed_rows. eexists body, _. split_and!; [done|by destruct row|done]. Qed.

Definition row_version (i : ResourceIdentity) (s : SqliteState) : option Z :=
  rw_resource_version <$> get_existing_resource i (db_resources s).

(** The object a command writes under the condition that it is the one the author
    saw; the exceptions are the writes made against the latest row, and Pod
    metadata, which is rebased. *)
Definition conditional (operation node : string) (command : StorageCommand) : option ResourceIdentity :=
  match command with
  | Command.UpdateResource api_version kind namespace name _ expected_rv preconditions _ =>
      if is_namespace_kind api_version kind || (operation =?s "PodMetadata")
         || should_apply_outbox_update_against_latest operation api_version kind namespace name node
         || opt_is_none (or_else (pre_resource_version preconditions) (positive expected_rv))
      then None else Some (resource_identity api_version kind namespace name)
  | Command.UpdateStatus api_version kind namespace name _ expected_rv preconditions observed_status_stamp =>
      if should_apply_outbox_status_against_latest operation api_version kind preconditions observed_status_stamp
         || opt_is_none (or_else (pre_resource_version preconditions) (opt_filter (fun rv => 0 <? rv)%Z expected_rv))
      then None else Some (resource_identity api_version kind namespace name)
  | Command.PatchResource api_version kind namespace name patch_kind patch preconditions strict_resource_version =>
      if should_apply_outbox_patch_against_latest api_version kind patch_kind patch preconditions strict_resource_version
      then None else Some (resource_identity api_version kind namespace name)
  | _ => None
  end.

(** A put of [i] on the condition that it is at the version it has in [s]. *)
Definition guarded_put (i : ResourceIdentity) (s : SqliteState) (ms : list ClusterMutation) : Prop :=
  ms = [] \/ exists row, ms = [FResource (RPutResource row)] /\ row_identity row = i /\ rr_require_existing row = true
    /\ is_Some (rr_precondition_resource_version row) /\ rr_precondition_resource_version row = row_version i s.

Lemma validated_version preconditions uid rv expected u :
  validate_resource_preconditions preconditions uid rv = Ok u -> pre_resource_version preconditions = Some expected -> expected = rv.
Proof.
  unfold validate_resource_preconditions, validate_apply_preconditions. cbn. intros H He. revert H. rewrite He.
  destruct (pre_uid preconditions) as [uid'|]; cbn [result_bind].
  - destruct (negb (uid =?s uid')); [done|]. cbn. by destruct (Z.eqb_spec rv expected).
  - by destruct (Z.eqb_spec rv expected).
Qed.

Lemma row_for_update api_version kind namespace name s row :
  resource_row_for_update_in_tx api_version kind namespace name s = Ok row ->
  row_version (resource_identity api_version kind namespace name) s = Some (rw_resource_version row).
Proof.
  unfold resource_row_for_update_in_tx, resource_row_optional_for_update_in_tx, row_version.
  by destruct (get_existing_resource _ _); [intros [= ->]|].
Qed.

Lemma guarded_row api_version kind namespace name uid rv data precondition_uid expected status_only s row :
  resource_row_for_update_in_tx api_version kind namespace name s = Ok row -> expected = Some (rw_resource_version row) ->
  guarded_put (resource_identity api_version kind namespace name) s
    [put_row api_version kind namespace name uid rv data false precondition_uid expected status_only].
Proof. intros Hrow%row_for_update ->. right. eexists. split_and!; [done..|by eexists|done]. Qed.

Lemma update_guarded operation node rv av kind ns name data expected_rv pre preserve_status s i :
  conditional operation node (Command.UpdateResource av kind ns name data expected_rv pre preserve_status) = Some i ->
  authors (guarded_put i s)
    (build_update_resource parse_from_rfc3339 new_v4 operation node rv av kind ns name data expected_rv pre preserve_status s).
Proof.
  cbn [conditional]. destruct (is_namespace_kind av kind) eqn:Hns; [done|]. destruct (operation =?s "PodMetadata") eqn:Hpm; [done|].
  destruct (should_apply_outbox_update_against_latest _ _ _ _ _ _) eqn:Hal; [done|]. cbn [orb].
  destruct (or_else _ _) as [expected|] eqn:He; [|done]. cbn. intros [= <-].
  unfold build_update_resource. rewrite Hns, Hal, He. unfold rebase_base. rewrite Hpm. cbn [andb].
  follow_builder. eapply guarded_row; [done|]. f_equal. by eapply validated_version.
Qed.

Lemma status_guarded operation node rv av kind ns name status expected_rv pre stamp s i :
  conditional operation node (Command.UpdateStatus av kind ns name status expected_rv pre stamp) = Some i ->
  authors (guarded_put i s)
    (build_update_status parse_from_rfc3339 new_v4 operation rv av kind ns name status expected_rv pre stamp s).
Proof.
  cbn [conditional]. destruct (should_apply_outbox_status_against_latest _ _ _ _ _) eqn:Hal; [done|]. cbn [orb].
  unfold build_update_status. rewrite Hal. set (expected := opt_filter _ expected_rv). destruct (opt_is_none _) eqn:He; [done|].
  intros [= <-]. clearbody expected. follow_builder; try (by left).
  all: eapply guarded_row; [done|].
  all: destruct (pre_resource_version pre) as [e|] eqn:Hp; cbn [or_else] in *; [f_equal; by eapply validated_version|]; try done.
  f_equal. match goal with H : negb _ = false |- _ => by apply negb_false_iff, Z.eqb_eq in H end.
Qed.

Lemma patch_guarded operation node rv now av kind ns name patch_kind patch pre strict s i :
  conditional operation node (Command.PatchResource av kind ns name patch_kind patch pre strict) = Some i ->
  authors (guarded_put i s) (build_patch_resource merge chrono_format new_v4 rv now av kind ns name patch_kind patch pre strict s).
Proof.
  cbn [conditional]. destruct (should_apply_outbox_patch_against_latest _ _ _ _ _ _) eqn:Hal; [done|]. intros [= <-].
  unfold build_patch_resource. rewrite Hal. follow_builder. eapply guarded_row; [done|].
  destruct (patch_expected_version _ _ _ _ _ _ _ _) as [e|] eqn:He; cbn [or_else]; [|done]. f_equal. by eapply validated_version.
Qed.

Lemma build_guarded command operation node hint now s i :
  conditional operation node command = Some i -> authors (guarded_put i s) (build command operation node hint now s).
Proof.
  unfold build_log_apply_commit_in_tx_from_command. destruct command; try done; cbn zeta; intros Hc.
  - by apply update_guarded.
  - by eapply patch_guarded.
  - by eapply status_guarded.
Qed.

Lemma version_refused row existing :
  rr_require_existing row = true -> is_Some (rr_precondition_resource_version row) ->
  rr_precondition_resource_version row <> rw_resource_version <$> existing ->
  forall u, validate_put_resource_apply_preconditions row existing <> Ok u.
Proof.
  intros Hex [e He] Hne u. unfold validate_put_resource_apply_preconditions, validate_apply_preconditions. cbn. rewrite Hex, He.
  destruct existing as [r|]; cbn; rewrite ?andb_false_r; cbn; [|by destruct (rr_require_absent row)].
  destruct (rr_require_absent row); [done|]. cbn. destruct (rr_precondition_uid row) as [uid|]; cbn.
  1: destruct (negb _); cbn; [done|].
  all: destruct (Z.eqb_spec (rw_resource_version r) e); [subst; by rewrite He in Hne|done].
Qed.


(** The gate at building and the one at applying look under the same subject. *)
Lemma status_subjects_agree api_version kind namespace name status expected_rv preconditions stamp :
  subject_key_for_command (Command.UpdateStatus api_version kind namespace name status expected_rv preconditions stamp)
  = pod_status_subject_key api_version kind namespace name (pre_uid preconditions).
Proof. unfold pod_status_subject_key. cbn. unfold resource_subject_key. by destruct namespace, (pre_uid preconditions) as [[]|]. Qed.

(** ** Creation *)

(** A put of a new object that keeps what its author wrote. *)
Definition creating_put (api_version kind : string) (namespace : option string) (name : string) (data : Value)
    (ms : list ClusterMutation) : Prop :=
  exists uid rv data', ms = [put_row api_version kind namespace name uid rv data' true None None false]
    /\ forall k, k ∉ server_fields -> get k data' = get k data.

Lemma create_creating operation node rv now api_version kind namespace name data s :
  is_namespace_kind api_version kind = false ->
  authors (creating_put api_version kind namespace name data)
    (build_create_resource chrono_format new_v4 operation node rv now api_version kind namespace name data s).
Proof.
  intros Hk. unfold build_create_resource. rewrite Hk. cbn zeta. destruct (ensure_metadata_uid _ _) as [data' uid] eqn:Hu.
  apply authors_at. eexists uid, rv, data'. split; [done|]. intros k Hin. apply (f_equal fst) in Hu. cbn in Hu. subst data'.
  unfold server_fields in Hin. rewrite !not_elem_of_cons in Hin. destruct Hin as (H1 & H2 & H3 & H4 & _).
  rewrite get_metadata_uid by done. destruct (_ && _ && _ && _ && _); rewrite ?get_external_ip by done;
    unfold ensure_metadata_create_defaults, ensure_metadata_identity; by rewrite get_ip_arrays, !get_metadata_entry, get_type_meta.
Qed.


End Parameters.

(** ** Examples *)

(** The merge of RFC 7396. *)
Fixpoint rfc7396_merge (patch target : Value) {struct patch} : Value :=
  match patch with
  | Object p =>
      Object ((fix go (p acc : Map) : Map :=
                 match p with
                 | [] => acc
                 | (k, v) :: p' =>
                     go p' match v with
                           | Null => obj_remove k acc
                           | _ => obj_insert k (rfc7396_merge v (unwrap_or Null (obj_get k acc))) acc
                           end
                 end) p (unwrap_or [] (as_object target)))
  | _ => patch
  end.

Definition merge_entry (k : string) (v : Value) (acc : Map) : Map :=
  match v with Null => obj_remove k acc | _ => obj_insert k (rfc7396_merge v (unwrap_or Null (obj_get k acc))) acc end.

Lemma rfc7396_object p target :
  rfc7396_merge (Object p) target = Object (fold_left (fun acc e => merge_entry e.1 e.2 acc) p (unwrap_or [] (as_object target))).
Proof.
  cbn [rfc7396_merge]. f_equal. generalize (unwrap_or [] (as_object target)). induction p as [|[k v] p IH]; intros acc; [done|].
  cbn [fold_left fst snd]. by rewrite <- IH.
Qed.

Lemma merge_entry_ne k k' v acc : k <> k' -> obj_get k' (merge_entry k v acc) = obj_get k' acc.
Proof. intros Hne. destruct v; cbn; first [by apply obj_get_remove_ne|by apply obj_get_insert_ne]. Qed.

Lemma merge_entries_spare key (p acc : Map) :
  forallb (fun e => negb (e.1 =?s key)) p = true -> obj_get key (fold_left (fun acc e => merge_entry e.1 e.2 acc) p acc) = obj_get key acc.
Proof.
  revert acc. induction p as [|[k v] p IH]; intros acc; [done|]. cbn [forallb fold_left fst snd]. rewrite andb_true_iff.
  intros [Hk%negb_true_iff%String.eqb_neq Hp]. rewrite IH by done. by apply merge_entry_ne.
Qed.

Lemma rfc7396_keeps_uid v patch : patch_keeps_uid patch = true -> metadata_uid (rfc7396_merge patch v) = metadata_uid v.
Proof.
  destruct patch as [| | | | |p]; try done. cbn [patch_keeps_uid]. rewrite rfc7396_object.
  assert (Hstart : metadata_uid v = metadata_uid (Object (unwrap_or [] (as_object v)))) by (destruct v; done).
  rewrite Hstart. generalize (unwrap_or [] (as_object v)). clear. induction p as [|[k w] p IH]; intros acc; [done|].
  cbn [forallb fold_left fst snd]. rewrite andb_true_iff. intros [He Hp]. rewrite IH by done.
  unfold entry_keeps_uid in He. cbn [fst snd] in He. destruct (String.eqb_spec k "metadata") as [->|Hne].
  - destruct w as [| | | | |meta]; try done. cbn [negb orb] in He. cbn [merge_entry]. rewrite rfc7396_object.
    unfold metadata_uid, pointer_str. cbn [pointer pointer_step]. rewrite obj_get_insert_eq. cbn [mbind option_bind pointer pointer_step].
    rewrite merge_entries_spare by done. destruct (obj_get "metadata" acc) as [[]|]; done.
  - unfold metadata_uid, pointer_str. cbn [pointer pointer_step]. by rewrite merge_entry_ne.
Qed.

Definition total_encode (response : StorageResponse) : result string string :=
  match response with RespError message => Ok (String "E" message) | _ => Ok "A" end.

Definition sample_merge (target patch : Value) : Value := rfc7396_merge patch target.
Definition sample_format (_ : string) (_ : Instant) : string := "2026-01-01T00:00:00Z".
Definition sample_uuid (n : nat) : string := "uid-" +:+ to_string (Z.of_nat n).

Abbreviation sample_build_direct :=
  (build_log_apply_commit_for_command (fun _ => None) sample_merge sample_format sample_uuid (fun _ => Err "") (fun _ => None)).
Abbreviation sample_build_outbox :=
  (build_log_apply_commit_for_outbox_with_watermark (fun _ => None) sample_merge sample_format sample_uuid (fun _ => Err "")
     (fun _ => None) total_encode sample_decode (fun _ => "") (fun text => text)).
Abbreviation sample_delivery := (delivery (fun _ => None) (fun _ => "") sample_merge total_encode sample_decode).
Abbreviation sample_proposed :=
  (proposed (fun _ => None) sample_merge sample_format sample_uuid (fun _ => Err "") (fun _ => None) total_encode sample_decode
     (fun _ => "") (fun text => text)).

Definition direct_commit (r : result DbError LogApplyCommit) : LogApplyCommit :=
  match r with Ok c => c | Err _ => mkCommit 0 None [] end.

Definition outbox_commit (r : result OutboxApplyError BuildOutboxOutcome) : LogApplyCommit :=
  match r with Ok (NeedsPropose c _ _) => c | _ => mkCommit 0 None [] end.

Definition config_map (value : string) : Value := Object [("data", Object [("k", Str value)])].

Definition create_config_map (name : string) : StorageCommand :=
  Command.CreateResource "v1" "ConfigMap" (Some "default") name (config_map "x").

Definition update_config_map (name value : string) (expected : Z) : StorageCommand :=
  Command.UpdateResource "v1" "ConfigMap" (Some "default") name (config_map value) expected (mkPreconditions None None) false.

(** Deliveries of one worker, all built by a leader that sees an empty database. *)
Definition sample_stream (key name : string) (seq : Z) : LogApplyCommit :=
  outbox_commit (sample_build_outbox key "ConfigMap" (create_config_map name) "n1" (Some (mkWatermark "n1" 1 seq)) 0 empty_db).

(** Two entries for the first position, the first of them twice. *)
Lemma outbox_exactly_once_witness :
  let commits := [sample_stream "k1" "a" 1; sample_stream "k1" "a" 1; sample_stream "k2" "b" 1] in
  omap (stream_position ("n1", 1%Z)) (deliver (fun _ => None) (fun _ => "") sample_merge total_encode sample_decode commits empty_db).1 = [1]%Z
  /\ let '(accepted, s) := deliver (fun _ => None) (fun _ => "") sample_merge total_encode sample_decode commits empty_db in
     (forall key, omap (stream_position key) accepted = seqZ 1 (last_position key s))
     /\ deliver (fun _ => None) (fun _ => "") sample_merge total_encode sample_decode accepted empty_db = (accepted, s).
Proof.
  split; [vm_compute; reflexivity|].
  apply (outbox_exactly_once (fun _ => None) sample_merge sample_format sample_uuid (fun _ => Err "") (fun _ => None) total_encode
    sample_decode (fun _ => "") (fun text => text)).
  assert (Hone : forall key name, exists s, stream_delivery (fun _ => None) sample_merge sample_format sample_uuid (fun _ => Err "")
    (fun _ => None) total_encode sample_decode (fun _ => "") (fun text => text) s (sample_stream key name 1)).
  { intros key name. exists empty_db. eapply (StreamDelivery _ _ _ _ _ _ _ _ _ _ _ _ key "ConfigMap" (create_config_map name) "n1" (mkWatermark "n1" 1 1) 0).
    vm_compute. reflexivity. }
  repeat (constructor; [apply Hone|]). constructor.
Defined.

(** A database with one ConfigMap. *)
Definition create_direct (name : string) (s : SqliteState) : LogApplyCommit :=
  direct_commit (sample_build_direct (create_config_map name) "Direct" "n1" 0 s).
Definition one_config_map : SqliteState := sample_delivery (create_direct "a" empty_db) empty_db.

Lemma one_config_map_versions : versions_ok one_config_map.
Proof. apply delivery_versions, versions_ok_empty. Qed.

(** A delivery built from the empty database meets one that has moved on. *)
Lemma entries_never_stop_a_node_witness :
  exists out, apply_commit_in_tx_for_raft_with_context (fun _ => None) (fun _ => "") sample_merge total_encode sample_decode
    (sample_stream "k1" "a" 1) one_config_map = Ok out.
Proof.
  apply (entries_never_stop_a_node (fun _ => None) sample_merge sample_format sample_uuid (fun _ => Err "") (fun _ => None) total_encode
    sample_decode (fun _ => "") (fun text => text) (fun _ => "") (create_config_map "a") "ConfigMap" "n1" empty_db).
  - intros []; by eexists.
  - intros v patch. apply rfc7396_keeps_uid.
  - reflexivity.
  - eapply (ProposedDelivery _ _ _ _ _ _ _ _ _ _ _ _ _ _ _ "k1" (Some (mkWatermark "n1" 1 1)) 0). vm_compute. reflexivity.
  - split; [apply one_config_map_versions|vm_compute; discriminate..|].
    eapply Forall_impl; [|apply full_write_settled]. vm_compute. repeat constructor.
  - vm_compute. reflexivity.
  - intros w [= <-]. vm_compute. discriminate.
Defined.

(** Two updates from the same version: the second finds the first. *)
Definition update_direct (value : string) (s : SqliteState) : LogApplyCommit :=
  direct_commit (sample_build_direct (update_config_map "a" value 1) "Direct" "n1" 0 s).


