(* ===== verification/EntryExamples.v ===== *)
(** * Entries that do not do what their command says

    Concrete databases and commands, evaluated: entries that stop a node, events and
    writes the distance between building and applying an entry lets through, and
    answers that differ between the two outbox paths.  They mark the edge of the
    theorems of [MaterializeSpec] and [PodRebase]. *)

From S2P Require Import Prelude Text Json Watch Apply KeyCodec LogApply ResourceShape ResourceIndex NodeSubnets NodeRouting Commands SqliteState CommittedApply EntryApply Materialize PodRebase MaterializeSpec.

Local Open Scope string_scope.
Local Open Scope rs_scope.

Abbreviation example_apply :=
  (apply_commit_in_tx_for_raft_with_context (fun _ => None) (fun _ => "") sample_merge total_encode sample_decode).

Definition direct (command : StorageCommand) (s : SqliteState) : LogApplyCommit :=
  direct_commit (sample_build_direct command "Direct" "n1" 0 s).

Definition write (command : StorageCommand) (s : SqliteState) : SqliteState := sample_delivery (direct command s) s.

(** The error of an entry. *)
Definition fatal (c : LogApplyCommit) (s : SqliteState) : option DbError :=
  match example_apply c s with Err e => Some e | Ok _ => None end.

(** ** Entries that stop a node *)

(** The mode is validated trimmed and stored as it came, against a [CHECK]. *)
Definition padded_dataplane : StorageCommand := Command.UpdateNodeDataplane "n1" " root" "disabled" None "10.0.0.1" None.

Lemma padded_mode_stops_a_node :
  fatal (direct padded_dataplane empty_db) empty_db = Some (SqliteError "CHECK constraint failed").
Proof. vm_compute. reflexivity. Qed.

(** A patch of the uid against the latest row is checked where it is too late. *)
Definition patch_uid : StorageCommand :=
  Command.PatchResource "v1" "ConfigMap" (Some "default") "a" Merge
    (Object [("metadata", Object [("uid", Str "other")])]) (mkPreconditions (Some "uid-0") None) false.

Lemma patched_uid_stops_a_node :
  fatal (direct patch_uid one_config_map) one_config_map = Some (SqliteError "metadata.uid is immutable (409 Conflict)").
Proof. vm_compute. reflexivity. Qed.

(** Two operations on one object in a batch log two events at one version. *)
Definition twice_in_a_batch : StorageCommand :=
  let update value := BatchPut "v1" "ConfigMap" (Some "default") "a" (config_map value) BatchUpdate (mkPreconditions None None) in
  Command.ApplyResourceBatch [update "y"; update "z"].

Lemma repeated_object_stops_a_node :
  fatal (direct twice_in_a_batch one_config_map) one_config_map
  = Some (SqliteError "UNIQUE constraint failed: index 'idx_watch_events_identity_rv'").
Proof. vm_compute. reflexivity. Qed.

(** ** Between building and applying *)

(** A deletion logs its event before the delete that turns out to be of another
    object. *)
Definition delete_config_map : StorageCommand :=
  Command.DeleteResource "v1" "ConfigMap" (Some "default") "a" (mkPreconditions None None).

Definition recreated : SqliteState :=
  write (Command.CreateResource "v1" "ConfigMap" (Some "default") "a"
           (Object [("metadata", Object [("uid", Str "second")])]))
    (write delete_config_map one_config_map).

Definition last_event (s : SqliteState) : option (string * Z) :=
  (fun e => (ev_type e.2, ev_resource_version e.2)) <$> last (watch_events (db_watch s)).

Lemma deletion_of_a_successor_is_logged :
  let t := sample_delivery (direct delete_config_map one_config_map) recreated in
  last_event t = Some ("DELETED", 4%Z)
  /\ rw_uid <$> get_existing_resource (resource_identity "v1" "ConfigMap" (Some "default") "a") (db_resources t) = Some "second".
Proof. vm_compute. done. Qed.

(** A Namespace row carries no condition: of two updates from one version both are
    applied. *)
Definition one_namespace : SqliteState := write (Command.CreateNamespace "a" (Object [])) empty_db.

Definition label_namespace (key : string) : StorageCommand :=
  Command.UpdateNamespace "a" (Object [("metadata", Object [("labels", Object [(key, Str "x")])])]) 1.

Definition namespace_labels (s : SqliteState) : option Value := row ← db_namespaces s !! "a"; pointer ["metadata"; "labels"] (ns_data row).

Lemma namespace_update_is_lost :
  let t := sample_delivery (direct (label_namespace "first") one_namespace) one_namespace in
  namespace_labels t = Some (Object [("first", Str "x")])
  /\ namespace_labels (sample_delivery (direct (label_namespace "second") one_namespace) t) = Some (Object [("second", Str "x")]).
Proof. vm_compute. done. Qed.

(** ** Rebasing *)

Definition labelled (labels : list (string * Value)) : Value := Object [("metadata", Object labels)].

(** Without labels to compare with, the labels of the update replace the live ones. *)
Lemma labels_of_another_writer_are_dropped :
  let base := labelled [] in
  let incoming := labelled [("labels", Object [("a", Str "1")])] in
  let live := labelled [("labels", Object [("b", Str "2")])] in
  (rebased ← rebase_stale_pod_metadata_update base incoming live; metadata_field rebased "labels") = Some (Object [("a", Str "1")]).
Proof. vm_compute. done. Qed.

(** A rebased update writes the whole Pod without a condition: a status that arrives
    after it was built is overwritten. *)
Definition pod_with (labels : Value) : Value :=
  Object [("metadata", Object [("labels", labels)]); ("spec", Object []); ("status", Object [("phase", Str "Pending")])].

Definition update_pod (labels : Value) (expected : Z) : StorageCommand :=
  Command.UpdateResource "v1" "Pod" (Some "default") "p" (pod_with labels) expected (mkPreconditions None None) false.

Definition one_pod : SqliteState :=
  write (update_pod (Object [("a", Str "2")]) 1)
    (write (Command.CreateResource "v1" "Pod" (Some "default") "p" (pod_with (Object [("a", Str "1")]))) empty_db).

Definition stale_metadata : LogApplyCommit :=
  direct_commit (sample_build_direct (update_pod (Object [("a", Str "1"); ("b", Str "1")]) 1) "PodMetadata" "n1" 0 one_pod).

Definition run_pod : StorageCommand :=
  Command.UpdateStatus "v1" "Pod" (Some "default") "p" (Object [("phase", Str "Running")]) None (mkPreconditions None None) None.

Definition pod_field (path : list string) (s : SqliteState) : option Value :=
  row ← get_existing_resource (resource_identity "v1" "Pod" (Some "default") "p") (db_resources s); pointer path (rw_data row).

Lemma rebased_update_overwrites_a_status :
  let t := write run_pod one_pod in
  pod_field ["status"; "phase"] t = Some (Str "Running")
  /\ pod_field ["status"; "phase"] (sample_delivery stale_metadata t) = Some (Str "Pending")
  /\ pod_field ["metadata"; "labels"] (sample_delivery stale_metadata t) = Some (Object [("a", Str "2"); ("b", Str "1")]).
Proof. vm_compute. done. Qed.

(** ** Commands and their comments *)

(** The Pod stays where [MovePodToCleanupIntent] found it. *)
Definition bound_pod : SqliteState :=
  write (Command.CreateResource "v1" "Pod" (Some "default") "p" (Object [("spec", Object [("nodeName", Str "n1")])])) empty_db.

Lemma moved_pod_stays :
  let t := write (Command.MovePodToCleanupIntent "n1" "default" "p" "uid-0" "Evicted") bound_pod in
  size (db_cleanup t) = 1%nat /\ pod_field ["spec"; "nodeName"] t = Some (Str "n1").
Proof. vm_compute. done. Qed.

(** The counter advances by one, not to the target. *)
Lemma advance_ignores_its_target : db_rv (write (Command.AdvanceResourceVersion 0 1000) empty_db) = 1%Z.
Proof. vm_compute. reflexivity. Qed.

(** A second cluster id is accepted and ignored. *)
Lemma other_cluster_id_is_accepted :
  let s := write (Command.EnsureClusterMetadata "first") empty_db in
  sample_build_direct (Command.EnsureClusterMetadata "second") "Direct" "n1" 0 s = Ok (mkCommit 0 None [])
  /\ db_meta s !! "cluster_id" = Some "first".
Proof. vm_compute. done. Qed.

(** ** The two outbox paths *)

(** A delivery that was rejected, delivered again: on a stream it is reported as
    applied, otherwise as the recorded conflict. *)
Definition rejected_once : SqliteState :=
  sample_delivery (sample_stream "k1" "a" 1) one_config_map.

Definition answer_again (w : option OutboxStreamWatermark) : result OutboxApplyError BuildOutboxOutcome :=
  sample_build_outbox "k1" "ConfigMap" (create_config_map "a") "n1" w 0 rejected_once.

Lemma rejection_is_answered_as_applied :
  answer_again (Some (mkWatermark "n1" 1 1)) = Ok (AlreadyApplied None None)
  /\ exists message, answer_again None = Err (ConflictTerminal message).
Proof. split; [vm_compute; reflexivity|]. eexists. vm_compute. reflexivity. Qed.
