(* ===== verification/StatusStamps.v ===== *)
(** * The status of a Pod does not go back

    A worker stamps the status updates it queues for a Pod.  The ledger of applied
    deliveries keeps the stamps, and [CommittedApply.stale_stamp] turns an update
    that is not newer than the newest recorded one into a ledger row.  The theorem is
    about whole histories: the updates that take effect on a Pod are in the order of
    their stamps, whatever the order of the log.

    It holds between two collections of the ledger: the rows are the memory of the
    gate, and [GcAppliedOutbox] drops them. *)

From Stdlib Require Import Sorted.
From S2P Require Import Prelude Text Json Watch Apply KeyCodec StaleResource StatusMerge StatusRegistry ResourceSemantics LogApply ResourceShape ResourceIndex NodeSubnets NodeRouting Commands SqliteState CommittedApply EntryApply Materialize MaterializeSpec.

Local Open Scope string_scope.
Local Open Scope rs_scope.

(** ** The newest recorded stamp *)

Lemma max_status_stamp_spec subject s :
  match max_status_stamp subject s with
  | Some top => exists key row, db_outbox s !! key = Some row /\ or_subject_key row = subject /\ or_status_stamp row = Some top
  | None => True
  end /\
  forall key row n, db_outbox s !! key = Some row -> or_subject_key row = subject -> or_status_stamp row = Some n ->
    exists top, max_status_stamp subject s = Some top /\ (n <= top)%Z.
Proof.
  unfold max_status_stamp. apply (map_fold_weak_ind (fun r m =>
    match r with
    | Some top => exists key row, m !! key = Some row /\ or_subject_key row = subject /\ or_status_stamp row = Some top
    | None => True
    end /\
    forall key row n, m !! key = Some row -> or_subject_key row = subject -> or_status_stamp row = Some n ->
      exists top, r = Some top /\ (n <= top)%Z)).
  - split; [done|]. intros key row n H. by rewrite lookup_empty in H.
  - intros key row m r Hnone [IH1 IH2].
    assert (Hold : forall top, r = Some top -> exists key' row', <[key := row]> m !! key' = Some row'
      /\ or_subject_key row' = subject /\ or_status_stamp row' = Some top).
    { intros top ->. destruct IH1 as (k & row' & Hk & Hrest). exists k, row'. split; [|done].
      rewrite lookup_insert_ne; [done|]. intros ->. congruence. }
    assert (Hnew : forall n, or_subject_key row = subject -> or_status_stamp row = Some n -> exists key' row',
      <[key := row]> m !! key' = Some row' /\ or_subject_key row' = subject /\ or_status_stamp row' = Some n).
    { intros n Hs Hn. exists key, row. by rewrite lookup_insert_eq. }
    assert (Hstep : forall r', (forall n, or_subject_key row = subject -> or_status_stamp row = Some n -> exists top, r' = Some top /\ (n <= top)%Z) ->
      (forall top, r = Some top -> exists top', r' = Some top' /\ (top <= top')%Z) ->
      forall k row' n, <[key := row]> m !! k = Some row' -> or_subject_key row' = subject -> or_status_stamp row' = Some n ->
        exists top, r' = Some top /\ (n <= top)%Z).
    { intros r' Hn Ho k row' n [[<- <-]|[_ Hk]]%lookup_insert_Some Hs Hst; [by apply Hn|].
      destruct (IH2 k row' n Hk Hs Hst) as (top & -> & Hle). destruct (Ho top eq_refl) as (top' & -> & Hle').
      exists top'. split; [done|lia]. }
    destruct (String.eqb_spec (or_subject_key row) subject) as [Hs|Hs].
    2:{ split; [by destruct r; [apply Hold|]|]. apply Hstep; [done|]. intros top ->. by exists top. }
    destruct (or_status_stamp row) as [n|] eqn:Hn.
    2:{ split; [by destruct r; [apply Hold|]|]. apply Hstep; [done|]. intros top ->. by exists top. }
    destruct r as [top|].
    + split; [|apply Hstep; [intros n' _ [= <-]|intros ? [= <-]]; eexists; split; done || lia].
      destruct (Z.max_spec n top) as [[_ ->]|[_ ->]]; [by apply Hold|by apply Hnew].
    + split; [by apply Hnew|]. apply Hstep; [intros n' _ [= <-]; by exists n|done].
Qed.

(** ** What a delivery does to the ledger *)

(** At most one ledger row, after mutations that leave the ledger alone. *)
Definition one_row (row : option LogApplyAppliedOutboxRow) (ms : list LogApplyMutation) : Prop :=
  exists body, ms = (body ++ option_list (PutAppliedOutbox <$> row))%list /\ Forall off_ledger body.

Section Parameters.

Context (parse_from_rfc3339 : string -> option Z).
Context (float_to_string : Z -> string).
Context (merge : Value -> Value -> Value).
Context (encode : StorageResponse -> result string string).
Context (decode : string -> result string StorageResponse).

Abbreviation stamp := (stamp_mutation encode decode).
Abbreviation applied_to := (applied parse_from_rfc3339 float_to_string merge encode decode).
Abbreviation deliver_entry := (delivery parse_from_rfc3339 float_to_string merge encode decode).

Lemma one_row_finalizations row rv s ms : one_row row ms -> one_row row (concat (resolve_finalization rv s <$> ms)).
Proof.
  intros (body & -> & Hb). exists (concat (resolve_finalization rv s <$> body)). split.
  - rewrite fmap_app, concat_app. f_equal. by destruct row.
  - apply finalizations_forall; [|done..]. intros m _ Hin. by eapply Forall_forall in Hb.
Qed.

Lemma one_row_noops row s ms ms' b : one_row row ms -> resolve_noops parse_from_rfc3339 ms s = Ok (ms', b) -> one_row row ms'.
Proof.
  intros (body & -> & Hb). revert ms' b. induction Hb as [|m body Hm _ IH]; intros ms' b.
  { destruct row; cbn; intros [= <- <-]; by exists []. }
  assert (Hcons : forall l, one_row row l -> one_row row (m :: l)).
  { intros l (body' & -> & Hb'). exists (m :: body')%list. split; [done|by constructor]. }
  cbn [app resolve_noops].
  destruct m; try (destruct (resolve_noops _ (body ++ _)%list s) as [[rest c]|]; [|done]; cbn; intros [= <- <-]; by eapply Hcons, IH).
  destruct (resolve_noop_put_resource_in_tx _ _ s) as [o|]; [|done]. cbn [result_bind].
  destruct (resolve_noops _ (body ++ _)%list s) as [[rest c]|]; [|done]. cbn. specialize (IH rest c eq_refl).
  destruct o as [row'|]; intros [= <- <-]; [|done]. destruct IH as (body' & -> & Hb').
  exists (PutResource row' :: body')%list. split; [done|by constructor].
Qed.

Lemma one_row_stamp row rv preserve ms : one_row row ms -> one_row (stamp_outbox_row encode decode rv <$> row) (stamp rv preserve <$> ms).
Proof.
  intros (body & -> & Hb). exists (stamp rv preserve <$> body). split; [rewrite fmap_app; by destruct row|].
  apply Forall_fmap. eapply Forall_impl; [exact Hb|]. by intros [].
Qed.

Lemma emit_outbox emit i rv event_type data s out : emit_watch emit i rv event_type data s = Ok out -> db_outbox out.1 = db_outbox s.
Proof.
  unfold emit_watch, insert_watch_event_in_conn. destruct (negb emit); [by intros [= <-]|].
  destruct (insert_event_row _ _ _); [|done]. by intros [= <-].
Qed.

Lemma mutation_outbox rv m emit s effects st :
  off_ledger m -> apply_cluster_mutation parse_from_rfc3339 float_to_string merge rv (to_cluster_mutation m) emit (s, effects) = Ok st ->
  db_outbox st.1 = db_outbox s.
Proof.
  intros Hm. destruct m; try done; cbn [to_cluster_mutation apply_cluster_mutation]; try (by intros [= <-]).
  all: try (destruct (negb _); [done|]); try (by intros [= <-]).
  all: try (intros (out & Hr & ->)%push_effect_ok; cbn [fst]; revert Hr).
  - unfold apply_put_resource. destruct (validate_put_resource_apply_preconditions _ _); [|done]. cbn [result_bind].
    destruct (normalize_committed_resource_for_apply _ _ _); [|done]. cbn [result_bind].
    destruct (decide_resource_put _ _); [by intros [= <-]|]. by intros ->%emit_outbox.
  - unfold apply_patch_resource_latest. destruct (get_existing_resource _ _).
    + destruct (apply_latest_patch_to_current_resource _ _ _ _); [|done]. cbn [result_bind]. by intros ->%emit_outbox.
    + destruct (rp_require_existing patch); [done|]. by intros [= <-].
  - unfold apply_delete_resource. destruct (get_existing_resource _ _); [|by intros [= <-]].
    destruct (decide_resource_delete _ _ _) as [[]|]; [by intros [= <-]|by intros ->%emit_outbox|done].
  - unfold put_namespace_row, insert_watch_event_in_conn. destruct (is_some_and _ _); [by intros [= <-]|]. destruct (negb emit); [by intros [= <-]|].
    destruct (insert_event_row _ _ _); [|done]. by intros [= <-].
  - unfold delete_namespace_row, insert_watch_event_in_conn. destruct (_ !! name); [|by intros [= <-]]. destruct (negb emit); [by intros [= <-]|].
    destruct (insert_event_row _ _ _); [|done]. by intros [= <-].
  - unfold with_subnets. destruct (put_node_subnet _ _); [|done]. by intros [= <-].
  - unfold with_subnets. destruct (allocate_node_subnet _ _); [|done]. by intros [= <-].
  - unfold put_node_dataplane. destruct (_ && _); [|done]. by intros [= <-].
  - unfold apply_put_watch_event, insert_watch_event_in_conn. destruct (insert_event_row _ _ _); [|done]. by intros [= <-].
Qed.

Definition recorded (row : option LogApplyAppliedOutboxRow) (outbox : gmap string LogApplyAppliedOutboxRow) : gmap string LogApplyAppliedOutboxRow :=
  match row with Some row => <[or_idempotency_key row := row]> outbox | None => outbox end.

Lemma mutations_outbox row rv emit ms s effects st :
  one_row row ms -> apply_mutations parse_from_rfc3339 float_to_string merge rv emit ms (s, effects) = Ok st ->
  db_outbox st.1 = recorded row (db_outbox s).
Proof.
  intros (body & -> & Hb). revert s effects. induction Hb as [|m body Hm _ IH]; intros s effects.
  - destruct row; cbn; by intros [= <-].
  - cbn [app apply_mutations]. destruct (apply_cluster_mutation _ _ _ _ _ _ _) as [[s1 effects1]|] eqn:H1; [|done]. cbn [result_bind].
    intros H. apply IH in H. by apply mutation_outbox in H1 as <-.
Qed.

Lemma applied_outbox row c s s' :
  ac_preserve_historical_bytes c = false -> one_row row (ac_mutations c) ->
  outbox_watermark_decision_in_tx (ac_outbox_watermark c) s <> Ok WDuplicate -> applied_to c s s' ->
  exists rv, db_outbox s' = recorded (stamp_outbox_row encode decode rv <$> row) (db_outbox s).
Proof.
  intros Hp Hrow Hdup [d c1 c2 s1 Hd Hn Hs Hb]. apply (one_row_finalizations _ (ac_resource_version c) s) in Hrow.
  assert (Hrow1 : one_row row (ac_mutations c1)).
  { destruct d; [|by injection Hn as <-..]. revert Hn. unfold resolve_noop_put_resources_in_tx.
    cbn [resolve_bound_pod_finalizations_in_tx set_mutations ac_mutations ac_preserve_historical_bytes]. rewrite Hp.
    destruct (resolve_noops _ _ s) as [[ms b]|] eqn:Hms; [|done]. intros [= <-]. cbn. by eapply one_row_noops. }
  assert (exists rv, one_row (stamp_outbox_row encode decode rv <$> row) (ac_mutations c2) /\ db_outbox s1 = db_outbox s) as (rv & Hrow2 & Ho).
  { revert Hs. unfold stamp_provisional_resource_version_in_tx. destruct (if _ && _ then _ else _) as [rv s2] eqn:Hrv. intros [= <- <-].
    exists rv. split; [by apply one_row_stamp|]. revert Hrv. destruct (_ && _); [by intros [= <- <-]|]. destruct (_ =? _)%Z; by intros [= <- <-]. }
  assert (Hadv : forall rv t, db_outbox (advance_metadata_rv_to_at_least_tx rv t) = db_outbox t)
    by (intros rv' t; unfold advance_metadata_rv_to_at_least_tx; by destruct (_ <? _)%Z).
  exists rv. destruct Hb as [(w & _ & Hnil & ->)|[[-> _]|(_ & emit & s2 & pending & Ha & ->)]]; [|by rewrite Hd in Hdup|]; rewrite Hadv.
  - destruct Hrow2 as (body & Hms & _). rewrite Hnil in Hms. destruct row; [by destruct body|]. done.
  - eapply mutations_outbox in Ha; [|done]. cbn in Ha. rewrite <- Ho, <- Ha. by destruct (ac_outbox_watermark c).
Qed.

(** A row of the subject and stamp of [template]. *)
Definition same_stamp (template row : LogApplyAppliedOutboxRow) : Prop :=
  or_subject_key row = or_subject_key template /\ or_status_stamp row = or_status_stamp template.

(** The ledger after a delivery: untouched, or with the row of the entry. *)
Inductive ledger_after (row : option LogApplyAppliedOutboxRow) (s s' : SqliteState) : Prop :=
| LedgerKept : s' = s -> ledger_after row s s'
| LedgerNoRow : row = None -> db_outbox s' = db_outbox s -> ledger_after row s s'
| LedgerRow template row' :
    row = Some template -> db_outbox s !! or_idempotency_key template = None -> same_stamp template row' ->
    db_outbox s' = <[or_idempotency_key template := row']> (db_outbox s) -> ledger_after row s s'.

Lemma one_row_template row c : one_row row (lc_mutations c) -> ledger_template c = row.
Proof.
  intros (body & Hms & Hb). unfold ledger_template. rewrite Hms, omap_app.
  assert (omap outbox_row body = []) as -> by (clear -Hb; induction Hb as [|m l Hm _ IH]; [done|]; cbn; rewrite IH; by destruct m).
  by destruct row.
Qed.

Lemma one_row_filter row ms : one_row row ms -> one_row row (filter (fun m => is_put_applied_outbox m = true) ms).
Proof.
  intros (body & -> & Hb). exists []. split; [|constructor]. rewrite filter_app.
  assert (filter (fun m => is_put_applied_outbox m = true) body = []) as ->.
  { clear -Hb. induction Hb as [|m l Hm _ IH]; [done|]. rewrite filter_cons_False; [done|]. by destruct m. }
  by destruct row.
Qed.

Lemma recorded_after row rv s s' :
  (forall template, row = Some template -> db_outbox s !! or_idempotency_key template = None) ->
  db_outbox s' = recorded (stamp_outbox_row encode decode rv <$> row) (db_outbox s) -> ledger_after row s s'.
Proof. destruct row as [template|]; cbn; intros Hnone H; [|by apply LedgerNoRow]. by eapply LedgerRow; [done|apply Hnone| |exact H]. Qed.

Lemma finalized_after row resource rv rv' s s1 s2 :
  (forall template, row = Some template -> db_outbox s !! or_idempotency_key template = None) ->
  db_outbox s1 = recorded (stamp_outbox_row encode decode rv <$> row) (db_outbox s) ->
  record_finalization encode row resource rv' s1 = Ok s2 -> ledger_after row s s2.
Proof.
  intros Hnone Ho. pose proof (recorded_after row rv s s1 Hnone Ho) as Ha. unfold record_finalization.
  destruct row as [template|]; [|by intros [= <-]]. destruct resource as [r|]; [|by intros [= <-]].
  destruct (_ && _ && _); [|by intros [= <-]]. destruct (encode _); [|done].
  destruct (db_outbox s1 !! or_idempotency_key template) as [row'|]; [|done]. intros [= <-].
  eapply LedgerRow; [done|by apply Hnone| |cbn; rewrite Ho; apply insert_insert_eq]. done.
Qed.

Lemma rejected_after row w message s :
  (forall template, row = Some template -> db_outbox s !! or_idempotency_key template = None) ->
  ledger_after row s (record_rejection encode w row message s).
Proof.
  intros Hnone. unfold record_rejection. destruct (upsert_watermark_set w s) as [wm ->].
  destruct row as [template|]; [|by apply LedgerNoRow]. eapply LedgerRow; [done|by apply Hnone| |reflexivity]. done.
Qed.

(** Ledger rows at the current version do not advance it. *)
Lemma current_rows_rv c s s' :
  ac_preserve_historical_bytes c = false -> ac_resource_version c = db_rv s -> forallb is_put_applied_outbox (ac_mutations c) = true ->
  applied_to c s s' -> db_rv s' = db_rv s.
Proof.
  intros Hp Hrv Hall [d c1 c2 s1 Hd Hn Hs Hb].
  assert (Hc1 : forallb is_put_applied_outbox (ac_mutations c1) = true /\ ac_resource_version c1 = db_rv s).
  { destruct d; [|injection Hn as <-; cbn; by rewrite finalizations_ledger..]. revert Hn. unfold resolve_noop_put_resources_in_tx.
    cbn [resolve_bound_pod_finalizations_in_tx set_mutations ac_mutations ac_preserve_historical_bytes]. rewrite Hp.
    rewrite finalizations_ledger, ledger_noops by done. by intros [= <-]. }
  destruct Hc1 as [Hall1 Hrv1].
  assert (s1 = s /\ ac_resource_version c2 = db_rv s /\ forallb is_put_applied_outbox (ac_mutations c2) = true) as (-> & Hrv2 & Hall2).
  { revert Hs. unfold stamp_provisional_resource_version_in_tx. rewrite Hall1, Hrv1, andb_true_r.
    destruct (Z.eqb_spec (db_rv s) 0); intros [= <- <-]; cbn; by rewrite stamp_rows_all. }
  rewrite Hrv2 in Hb. destruct Hb as [(w & _ & _ & ->)|[[_ ->]|(_ & emit & s2 & pending & Ha & ->)]].
  - by rewrite advance_current.
  - by rewrite advance_current.
  - apply ledger_mutations in Ha as [o Ho]; [|done]. cbn in Ho. subst s2. rewrite advance_current; by rewrite upsert_watermark_rv.
Qed.

Lemma attempt_after row c s s' o :
  one_row row (lc_mutations c) -> (forall template, row = Some template -> db_outbox s !! or_idempotency_key template = None) ->
  outbox_watermark_decision_in_tx (lc_outbox_watermark c) s <> Ok WDuplicate ->
  attempt parse_from_rfc3339 float_to_string merge encode decode c row s = Ok (s', o) -> ledger_after row s s'.
Proof.
  intros Hrow Hnone Hdup. unfold attempt, apply_commit_in_tx_returning_rv_and_mutation_with_context.
  destruct (from_live c) as [c1|e] eqn:Hl; cbn [result_bind].
  2:{ revert Hl. unfold from_live, validate_live. destruct (validate_live_template c) as [[]|]; [done|]. by intros [= <-]. }
  destruct (from_live_fresh c c1 s Hl) as (Hf & Hw & Hms).
  destruct (apply_commit_in_tx_with_watch_events _ _ _ _ _ c1 _ s) as [[s1 [[rv pending] resource]]|e] eqn:Ha.
  - apply apply_commit_applied in Ha. destruct (record_finalization encode row resource rv s1) as [s2|] eqn:Hr; [|done].
    intros [= <- <-]. destruct (applied_outbox row c1 s s1) as [rv' Ho]; [apply Hf|by rewrite Hms|by rewrite Hw|done|].
    by eapply finalized_after.
  - destruct e; try done. intros [= <- <-]. by apply rejected_after.
Qed.

Lemma ledger_only_after row c last incoming effect s s' o :
  one_row row (lc_mutations c) -> (forall template, row = Some template -> db_outbox s !! or_idempotency_key template = None) ->
  outbox_watermark_decision_in_tx (lc_outbox_watermark c) s <> Ok WDuplicate ->
  record_ledger_only parse_from_rfc3339 float_to_string merge encode decode c last incoming effect s = Ok (s', o) ->
  ledger_after row s s' /\ db_rv s' = db_rv s.
Proof.
  intros Hrow Hnone Hdup. unfold record_ledger_only. destruct (from_live _) as [c1|] eqn:Hl; [|done]. cbn [result_bind].
  destruct (from_live_fresh _ c1 s Hl) as (Hf & Hw & Hms). set (c2 := set_commit_rv (db_rv s) c1).
  destruct (apply_commit_in_tx_with_watch_events _ _ _ _ _ c2 true s) as [[s1 [[rv pending] resource]]|] eqn:Ha; [|done].
  cbn [result_bind]. apply apply_commit_applied in Ha. destruct (stamp_cmp last incoming); cbn [result_bind]; try done; intros [= <- <-].
  all: assert (Hall : forallb is_put_applied_outbox (ac_mutations c2) = true) by
    (cbn; rewrite Hms; apply forallb_forall; intros m Hm%list_elem_of_In; by apply list_elem_of_filter in Hm as [? _]).
  all: split; [|apply (current_rows_rv c2); [apply Hf|done|exact Hall|exact Ha]].
  all: destruct (applied_outbox row c2 s s1) as [rv' Ho];
    [apply Hf|cbn; rewrite Hms; by apply one_row_filter|change (ac_outbox_watermark c2) with (ac_outbox_watermark c1); by rewrite Hw|done|by eapply recorded_after].
Qed.

Lemma delivery_after row c s :
  one_row row (lc_mutations c) ->
  ledger_after row s (deliver_entry c s) /\ (is_Some (stale_stamp c s) -> db_rv (deliver_entry c s) = db_rv s).
Proof.
  intros Hrow. pose proof (one_row_template row c Hrow) as Ht. unfold delivery.
  assert (Hkept : ledger_after row s s /\ (is_Some (stale_stamp c s) -> db_rv s = db_rv s)) by (split; [by apply LedgerKept|done]).
  destruct (apply_commit_in_tx_for_raft_with_context _ _ _ _ _ c s) as [[s' o]|] eqn:Hr; [|done]. revert Hr.
  unfold apply_commit_in_tx_for_raft_with_context. destruct (validate_live c) as [[]|]; [|done]. cbn [result_bind].
  set (effect := endpoint_effect _ _ _). fold (ledger_template c). rewrite Ht.
  destruct (template ← row; db_outbox s !! or_idempotency_key template) as [existing|] eqn:Hans.
  { destruct (lc_mutations c), (lc_outbox_watermark c); try (by intros [= <- <-]); destruct (replay_from_ledger _ _ _); try done;
      by intros [= <- <-]. }
  assert (Hnone : forall template, row = Some template -> db_outbox s !! or_idempotency_key template = None) by (by intros template ->).
  destruct (outbox_watermark_decision_in_tx (lc_outbox_watermark c) s) as [d|] eqn:Hd; cbn [result_bind].
  2:{ destruct (lc_mutations c), (lc_outbox_watermark c); try done; by intros [= <- <-]. }
  intros H. assert (match d, stale_stamp c s with
    | WDuplicate, _ => s' = s
    | _, Some (last, incoming) => record_ledger_only parse_from_rfc3339 float_to_string merge encode decode c last incoming effect s = Ok (s', o)
    | _, None => attempt parse_from_rfc3339 float_to_string merge encode decode c row s = Ok (s', o)
    end \/ s' = s) as [Hcase| ->]; [| |done].
  { revert H. destruct (lc_mutations c), (lc_outbox_watermark c), d; try (by intros [= <- <-]; auto); intros H; left; by destruct (stale_stamp c s) as [[]|]. }
  assert (d = WDuplicate \/ outbox_watermark_decision_in_tx (lc_outbox_watermark c) s <> Ok WDuplicate) as [-> |Hdup]
    by (rewrite Hd; destruct d; auto; right; congruence); [by subst s'|].
  destruct (stale_stamp c s) as [[last incoming]|] eqn:Hst.
  - destruct (ledger_only_after row c last incoming effect s s' o) as [Ha Hrv]; [done..|by destruct d; [|rewrite Hd in Hdup|]|done].
  - split; [|by intros []]. eapply attempt_after; [done..|]. by destruct d; [|rewrite Hd in Hdup|].
Qed.

(** ** Histories *)

(** The stamp of an entry for a subject. *)
Definition stamp_on (subject : string) (c : LogApplyCommit) : option Z :=
  '(key, n) ← stamped_pod_status_subject_and_stamp c; if key =?s subject then Some n else None.

(** The entries that take effect: those that advance the version of the database. *)
Fixpoint effective (commits : list LogApplyCommit) (s : SqliteState) : list LogApplyCommit :=
  match commits with
  | [] => []
  | c :: commits' =>
      let s' := deliver_entry c s in
      if (db_rv s' =? db_rv s)%Z then effective commits' s' else c :: effective commits' s'
  end.

Lemma stamp_on_row subject c n row :
  one_row row (lc_mutations c) -> stamp_on subject c = Some n ->
  exists template, row = Some template /\ or_subject_key template = subject /\ or_status_stamp template = Some n.
Proof.
  intros (body & Hms & Hb). unfold stamp_on, stamped_pod_status_subject_and_stamp. rewrite Hms, omap_app.
  assert (omap stamped_row body = []) as -> by (clear -Hb; induction Hb as [|m l Hm _ IH]; [done|]; cbn; rewrite IH; by destruct m).
  destruct row as [template|]; [|done]. cbn. destruct (or_status_stamp template) as [n'|] eqn:Hn; [|done].
  destruct (_ && _ && _); [|done]. cbn. destruct (String.eqb_spec (or_subject_key template) subject); [|done]. intros [= <-]. by exists template.
Qed.

(** The newest recorded stamp, below any stamp when there is none. *)
Definition newest_below (subject : string) (s : SqliteState) (n : Z) : Prop :=
  forall top, max_status_stamp subject s = Some top -> (top < n)%Z.

Lemma newest_grows row subject s s' n : ledger_after row s s' -> newest_below subject s' n -> newest_below subject s n.
Proof.
  intros Ha Hb top Htop. destruct (max_status_stamp_spec subject s) as [Hex _]. rewrite Htop in Hex.
  destruct Hex as (key & r & Hk & Hs & Hn).
  assert (exists key' r', db_outbox s' !! key' = Some r' /\ or_subject_key r' = subject /\ or_status_stamp r' = Some top) as (key' & r' & Hk' & Hs' & Hn').
  { destruct Ha as [->|_ Ho|template row' _ Hnone _ Ho]; [by eauto|rewrite Ho; by eauto|]. exists key, r. rewrite Ho, lookup_insert_ne; [done|].
    intros Heq. congruence. }
  destruct (max_status_stamp_spec subject s') as [_ Hall]. destruct (Hall key' r' top Hk' Hs' Hn') as (top' & Htop' & Hle).
  apply Hb in Htop'. lia.
Qed.

(** An effective entry is newer than what is recorded, and is recorded. *)
Lemma effective_newer row subject c s n :
  one_row row (lc_mutations c) -> stamp_on subject c = Some n -> db_rv (deliver_entry c s) <> db_rv s ->
  newest_below subject s n /\ forall m, newest_below subject (deliver_entry c s) m -> (n < m)%Z.
Proof.
  intros Hrow Hn Hmoved. destruct (delivery_after row c s Hrow) as [Ha Hstale]. split.
  - intros top Htop. destruct (Z.ltb_spec top n); [done|]. exfalso. apply Hmoved, Hstale. revert Hn. unfold stamp_on, stale_stamp.
    destruct (stamped_pod_status_subject_and_stamp c) as [[key stamp]|] eqn:Hst; [|done]. cbn.
    destruct (String.eqb_spec key subject) as [->|]; [|done]. intros [= ->]. rewrite Htop. unfold decide_status_stamp.
    assert (0 < n)%Z as Hpos.
    { revert Hst. unfold stamped_pod_status_subject_and_stamp. generalize (lc_mutations c). clear. intros ms Hst.
      assert (Hin : (subject, n) ∈ omap stamped_row ms) by (destruct (omap stamped_row ms); [done|]; injection Hst as ->; by left).
      apply list_elem_of_omap in Hin as (m & _ & Hm). destruct m; try done. cbn in Hm. destruct (or_status_stamp row); [|done].
      destruct (Z.ltb_spec 0 z); [|done]. destruct (_ && _); [|done]. by injection Hm as _ ->. }
    destruct (Z.ltb_spec 0 n); [|lia]. destruct (Z.leb_spec n top); [by eexists|lia].
  - destruct (stamp_on_row subject c n row Hrow Hn) as (template & -> & Hsub & Hst). intros m Hm.
    destruct Ha as [Heq|? _|? row' [= <-] _ [Hs' Hn'] Ho]; [by rewrite Heq in Hmoved|done|].
    destruct (max_status_stamp_spec subject (deliver_entry c s)) as [_ Hall].
    destruct (Hall (or_idempotency_key template) row' n) as (top & Htop & Hle); [by rewrite Ho, lookup_insert_eq|congruence..|].
    apply Hm in Htop. lia.
Qed.

Lemma effective_sorted subject commits s :
  Forall (fun c => exists row, one_row row (lc_mutations c)) commits ->
  StronglySorted Z.lt (omap (stamp_on subject) (effective commits s))
  /\ Forall (newest_below subject s) (omap (stamp_on subject) (effective commits s)).
Proof.
  intros Hc. revert s. induction Hc as [|c commits [row Hrow] _ IH]; intros s; [repeat constructor|]. cbn [effective].
  specialize (IH (deliver_entry c s)). destruct IH as [Hsorted Hbelow]. destruct (delivery_after row c s Hrow) as [Ha _].
  assert (Hold : Forall (newest_below subject s) (omap (stamp_on subject) (effective commits (deliver_entry c s)))).
  { eapply Forall_impl; [exact Hbelow|]. intros n. by apply (newest_grows row). }
  destruct (Z.eqb_spec (db_rv (deliver_entry c s)) (db_rv s)) as [|Hmoved]; [done|]. cbn.
  destruct (stamp_on subject c) as [n|] eqn:Hn; [|done]. destruct (effective_newer row subject c s n Hrow Hn Hmoved) as [Hnew Hrec].
  split; [|by constructor]. constructor; [done|]. eapply Forall_impl; [exact Hbelow|]. apply Hrec.
Qed.

Context (chrono_format : string -> Instant -> string).
Context (new_v4 : nat -> string).
Context (from_slice : string -> result string Value).
Context (base64_decode : string -> option (list ascii)).
Context (json_to_string : Value -> string).
Context (call_error_text : string -> string).

Abbreviation proposed_entry :=
  (proposed parse_from_rfc3339 merge chrono_format new_v4 from_slice base64_decode encode decode json_to_string call_error_text).

Lemma proposed_one_row command operation node s c :
  collects command = false -> proposed_entry command operation node s c -> exists row, one_row row (lc_mutations c).
Proof.
  intros Hg Hp. destruct (proposed_rows _ _ _ _ _ _ _ _ _ _ _ _ _ _ _ Hp) as (body & row & Hms & Hb). exists row, body. split; [done|].
  destruct Hb as [->|(now & rv & Hb)]; [constructor|]. 
  pose proof (build_authors parse_from_rfc3339 merge chrono_format new_v4 from_slice base64_decode command operation node
    (resource_version_hint_in_tx s) now s) as Ha. rewrite Hb in Ha. destruct Ha as (ms & [= ->] & _ & _ & Hoff). by apply Hoff.
Qed.

(** C8.  The status of a Pod does not go back.  In any history of entries the leaders
    proposed, for any commands but the collection of the ledger and from whatever
    databases they had, the stamped status updates of one Pod that take effect do so
    in the strict order of their stamps.  An update that was overtaken, in the log or
    on its way to the leader, or that comes twice, leaves its ledger row only. *)
Theorem pod_status_never_regresses subject commits
  (Hproposed : Forall (fun c => exists command operation node s,
     collects command = false /\ proposed_entry command operation node s c) commits) :
  StronglySorted Z.lt (omap (stamp_on subject) (effective commits empty_db)).
Proof.
  apply effective_sorted. eapply Forall_impl; [exact Hproposed|]. intros c (command & operation & node & s & Hg & Hp).
  by eapply proposed_one_row.
Qed.

End Parameters.

(** ** Examples *)

(** A leader's database with one Pod, and stamped updates of its status. *)
Definition create_pod : LogApplyCommit :=
  direct_commit (sample_build_direct (Command.CreateResource "v1" "Pod" (Some "default") "p" (Object [])) "Direct" "n1" 0 empty_db).
Definition one_pod : SqliteState := sample_delivery create_pod empty_db.

Definition report (phase : string) (n : Z) : StorageCommand :=
  Command.UpdateStatus "v1" "Pod" (Some "default") "p" (Object [("phase", Str phase)]) None (mkPreconditions (Some "uid-0") None) (Some n).

Definition reported (key phase : string) (n : Z) : LogApplyCommit :=
  outbox_commit (sample_build_outbox key "PodStatus" (report phase n) "n1" None 0 one_pod).

(** The second report arrives first; the first one is only recorded. *)
Definition sample_reports : list LogApplyCommit := [create_pod; reported "k2" "Running" 2; reported "k1" "Pending" 1; reported "k3" "Succeeded" 3].

Abbreviation sample_effective := (effective (fun _ => None) (fun _ => "") sample_merge total_encode sample_decode).

Lemma pod_status_never_regresses_witness :
  omap (stamp_on "v1/Pod/default/p/uid-0") (sample_effective sample_reports empty_db) = [2; 3]%Z
  /\ StronglySorted Z.lt (omap (stamp_on "v1/Pod/default/p/uid-0") (sample_effective sample_reports empty_db)).
Proof.
  split; [vm_compute; reflexivity|].
  apply (pod_status_never_regresses (fun _ => None) (fun _ => "") sample_merge total_encode sample_decode sample_format sample_uuid
    (fun _ => Err "") (fun _ => None) (fun _ => "") (fun text => text)).
  constructor; [|constructor; [|constructor; [|constructor; [|constructor]]]].
  - exists (Command.CreateResource "v1" "Pod" (Some "default") "p" (Object [])), "Direct", "n1", empty_db. split; [reflexivity|].
    apply (ProposedDirect _ _ _ _ _ _ _ _ _ _ _ _ _ _ _ 0). vm_compute. reflexivity.
  - exists (report "Running" 2), "PodStatus", "n1", one_pod. split; [reflexivity|].
    eapply (ProposedDelivery _ _ _ _ _ _ _ _ _ _ _ _ _ _ _ "k2" None 0). vm_compute. reflexivity.
  - exists (report "Pending" 1), "PodStatus", "n1", one_pod. split; [reflexivity|].
    eapply (ProposedDelivery _ _ _ _ _ _ _ _ _ _ _ _ _ _ _ "k1" None 0). vm_compute. reflexivity.
  - exists (report "Succeeded" 3), "PodStatus", "n1", one_pod. split; [reflexivity|].
    eapply (ProposedDelivery _ _ _ _ _ _ _ _ _ _ _ _ _ _ _ "k3" None 0). vm_compute. reflexivity.
Defined.
