(* ===== verification/SnapshotCapture.v ===== *)
(** * Capturing a snapshot

    [klights-cluster-datastore/src/sqlite/recovery/]: a snapshot of the database
    is read in pages, table after table, each table in the order of its key and
    each page from behind the last key of the page before.  [capture.rs] steps
    through the phases, [store.rs] joins small pages of restore operations, and
    [klights-replication/src/snapshot.rs] writes the pages into one envelope.
    The value types are those of [klights-cluster-store/src/durable_recovery.rs].

    The read transaction is pinned when the session begins, so the pages read one
    database value.  Time is an argument: [expired] says that the deadline of the
    session has passed.  The encoder writes JSON text and compresses it; the model
    keeps the value that the text spells.  The types of the log position and of
    the consensus membership belong to [openraft] and are parameters, and so is
    the JSON text of a voter list.  Of the error texts the [Debug] renderings are
    left out. *)

From stdpp Require Import sorting.
From S2P Require Import Prelude Text Json Watch KeyCodec LogApply SqliteState Replay.

Local Open Scope string_scope.
Local Open Scope rs_scope.

(** ** Values *)

Record ClusterMembership := mkMembership {
  cm_cluster_id : string; cm_voters : list string; cm_term : Z; cm_leader_hint : option string
}.

Record ClusterMetadata := mkMetadata { md_cluster_id : string; md_leader_epoch : Z; md_current_rv : Z }.

Inductive SnapshotMembership :=
| LegacyOmitted
| AuthoritativeAbsent
| MembershipPresent (membership : ClusterMembership).

Inductive SnapshotMessage :=
| Text (text : string)
| BadNumber (raw : string)
| BadVoters (raw : string)
| BadPosition (position : WatchReplayPosition)
| BadReplayPosition (error : ReplayError)
| BadHistory (error : WatchHistoryError)
| StoreFailure (error : DbError)
| OutOfFuel.

Inductive SnapshotPersistenceError :=
| InvalidSnapshot (message : SnapshotMessage)
| PersistenceFailed (message : SnapshotMessage)
| CorruptSnapshot (message : SnapshotMessage)
| SnapshotTimeout
| SnapshotCancelled.

Abbreviation snapshot_result := (result SnapshotPersistenceError).

Definition invalid {A} (text : string) : snapshot_result A := Err (InvalidSnapshot (Text text)).

(** [text_error] of the text of an error. *)
Definition as_corrupt (e : SnapshotPersistenceError) : SnapshotPersistenceError :=
  match e with
  | InvalidSnapshot message | PersistenceFailed message | CorruptSnapshot message => CorruptSnapshot message
  | SnapshotTimeout => CorruptSnapshot (Text "snapshot persistence timed out")
  | SnapshotCancelled => CorruptSnapshot (Text "snapshot persistence was cancelled")
  end.

(** [text_error]. *)
Definition corrupt {A} (message : SnapshotMessage) : snapshot_result A := Err (CorruptSnapshot message).

Definition parse_or_corrupt {A} (parse : string -> option A) (raw : string) : snapshot_result A :=
  match parse raw with Some v => Ok v | None => corrupt (BadNumber raw) end.

Definition parse_u32 (s : string) : option Z :=
  v ← parse_unsigned match s with String "+" rest => rest | _ => s end; checked_u32 v.

Definition CLUSTER_ID_META_KEY : string := "cluster_id".
Definition LEADER_EPOCH_META_KEY : string := "leader_epoch".
Definition COMMAND_CODEC_ACTIVATION_VERSION_META_KEY : string := "command_codec_activation_version".
Definition COMMAND_CODEC_V3_ACTIVATION_VALUE : string := "3".
Definition RAFT_VOTERS_META_KEY : string := "voters".
Definition RAFT_TERM_META_KEY : string := "term".
Definition RAFT_LEADER_HINT_META_KEY : string := "leader_hint".

Definition MAX_SNAPSHOT_CAPTURE_PAGE : nat := 512.

Fixpoint has_duplicate (l : list string) : bool :=
  match l with [] => false | x :: l' => existsb (String.eqb x) l' || has_duplicate l' end.

Definition validate_snapshot_metadata (metadata : ClusterMetadata) (membership : SnapshotMembership)
    : snapshot_result unit :=
  if is_empty (md_cluster_id metadata) then invalid "authoritative snapshot cluster ID must not be empty"
  else if (md_current_rv metadata <? 0)%Z || (md_leader_epoch metadata <? 0)%Z
  then invalid ("authoritative snapshot numeric metadata must be non-negative, got epoch "
                +:+ to_string (md_leader_epoch metadata) +:+ " and resourceVersion "
                +:+ to_string (md_current_rv metadata))
  else
    match membership with
    | MembershipPresent m =>
        if negb (cm_cluster_id m =?s md_cluster_id metadata)
        then invalid "snapshot membership cluster ID does not match metadata cluster ID"
        else if (cm_term m <? 0)%Z || match cm_voters m with [] => true | _ => false end
                || existsb is_empty (cm_voters m) || has_duplicate (cm_voters m)
                || is_some_and (cm_leader_hint m) is_empty
        then invalid "snapshot membership has an invalid term, voter set, or leader hint"
        else Ok tt
    | _ => Ok tt
    end.

Record SnapshotCaptureHeader := mkHeader {
  ch_command_codec_activation_version : option Z;
  ch_position : WatchReplayPosition;
  ch_metadata : ClusterMetadata;
  ch_membership : SnapshotMembership
}.

Definition codec_not_v3 (version : option Z) : bool := is_some_and version (fun v => negb (v =? 3)%Z).

Definition SnapshotCaptureHeader_try_new (version : option Z) (position : WatchReplayPosition)
    (metadata : ClusterMetadata) (membership : SnapshotMembership) : snapshot_result SnapshotCaptureHeader :=
  if codec_not_v3 version then invalid "snapshot command codec activation version must be exact v3"
  else
    try? map_err (fun e => InvalidSnapshot (BadReplayPosition e)) (validate_replay_position position true) in
    try? validate_snapshot_metadata metadata membership in
    if negb (md_current_rv metadata =? pos_resource_version position)%Z
    then invalid "snapshot capture metadata does not match its allocator position"
    else Ok (mkHeader version position metadata membership).

(** *** Pages *)

Inductive SnapshotCapturePage :=
| Operations (rows : list SnapshotRestoreOperation)
| AppliedOutbox (rows : list LogApplyAppliedOutboxRow)
| OutboxWatermarks (rows : list OutboxStreamWatermark)
| ReplayFloors (rows : list DurableReplayFloor).

Definition validate_capture_len (len : nat) : snapshot_result unit :=
  if (len =? 0)%nat || (MAX_SNAPSHOT_CAPTURE_PAGE <? len)%nat
  then invalid ("snapshot capture page length " +:+ to_string (Z.of_nat len) +:+ " is outside 1..=512") else Ok tt.

(** [try_operations], [try_applied_outbox], [try_outbox_watermarks], [try_replay_floors]. *)
Definition try_page {A} (page : list A -> SnapshotCapturePage) (rows : list A) : snapshot_result SnapshotCapturePage :=
  try? validate_capture_len (length rows) in Ok (page rows).

Definition SnapshotPageLimit_try_new (value : nat) : snapshot_result nat :=
  if (value =? 0)%nat || (MAX_SNAPSHOT_CAPTURE_PAGE <? value)%nat
  then invalid ("snapshot page limit " +:+ to_string (Z.of_nat value) +:+ " is outside 1..=512") else Ok value.

(** ** Keyset queries *)

Class KeyCmp (K : Type) := key_cmp : K -> K -> comparison.

#[export] Instance string_key_cmp : KeyCmp string := String.compare.
#[export] Instance Z_key_cmp : KeyCmp Z := Z.compare.

(** SQLite compares row values column by column. *)
#[export] Instance pair_key_cmp {A B} `{KeyCmp A, KeyCmp B} : KeyCmp (A * B) := fun x y =>
  match key_cmp x.1 y.1 with Eq => key_cmp x.2 y.2 | c => c end.

Definition key_ltb {K} `{KeyCmp K} (a b : K) : bool := match key_cmp a b with Lt => true | _ => false end.

Definition row_le {K A} `{KeyCmp K} (a b : K * A) : Prop := key_ltb b.1 a.1 = false.

#[export] Instance row_le_dec {K A} `{KeyCmp K} : RelDecision (row_le (K := K) (A := A)).
Proof. intros a b. unfold row_le. apply _. Defined.

(** [SELECT .. WHERE key > after ORDER BY key LIMIT limit]. *)
Definition select_after {K A} `{Countable K, KeyCmp K} (after : K) (limit : nat) (rows : gmap K A) : list (K * A) :=
  take limit (merge_sort row_le (filter (fun e => key_ltb after e.1 = true) (map_to_list rows))).

(** ** Reading the database *)

Inductive Phase :=
| PNamespace (after : option string)
| PClusterResource (after : option (string * string * string))
| PNamespacedResource (after : option (string * string * string * string))
| PWatchEvent (after : Z)
| PNodeSubnet (after : option string)
| PNodeDataplane (after : option string)
| PPodCleanup (after : option (string * string * string * string * string))
| PAppliedOutbox (after : option string)
| PWatermark (after : option (string * Z))
| PReplayFloor (after : option (string * string * string))
| PComplete.

(** [resource_from_row]. *)
Definition namespace_resource (e : string * NamespaceRow) : Resource :=
  mkResource 0 "v1" "Namespace" None e.1 (ns_uid e.2) (ns_resource_version e.2) (ns_data e.2).

Definition cluster_resource (e : ClusterKey * ResRow) : Resource :=
  let '(api_version, kind, name) := e.1 in
  mkResource 0 api_version kind None name (rw_uid e.2) (rw_resource_version e.2) (rw_data e.2).

Definition namespaced_resource (e : NsKey * ResRow) : Resource :=
  let '(api_version, kind, namespace, name) := e.1 in
  mkResource 0 api_version kind (Some namespace) name (rw_uid e.2) (rw_resource_version e.2) (rw_data e.2).

Definition snapshot_operation (resource_version : Z) (mutations : list ClusterMutation) : SnapshotRestoreOperation :=
  mkRestore resource_version None (into_log_apply_mutation <$> mutations).

Definition watch_event_mutation (event_id : Z) (row : EventRow) : ClusterMutation :=
  FWatchHistory (WPutWatchEvent (mkWatchEventRow (Some event_id) (ev_api_version row) (ev_kind row) (ev_namespace row)
    (ev_name row) (ev_resource_version row) (ev_type row) (ev_data row))).

Definition event_operation (e : Z * EventRow) : SnapshotRestoreOperation :=
  snapshot_operation (ev_resource_version e.2) [watch_event_mutation e.1 e.2].

Definition cleanup_operation (e : (string * string * string * string * string) * CleanupRow) : SnapshotRestoreOperation :=
  let '(node_name, namespace, pod_name, pod_uid, reason) := e.1 in
  snapshot_operation (ci_resource_version e.2)
    [FPodCleanup (CPutPodCleanupIntent (mkCleanupRow node_name namespace pod_name pod_uid reason
       (ci_resource_version e.2) (ci_created_at_ms e.2) (ci_pod_data e.2)))].

Definition network_operation (current_rv : Z) (mutation : NetworkMutation) : SnapshotRestoreOperation :=
  snapshot_operation current_rv [FNetwork mutation].

(** [u16::try_from] of the stored port. *)
Definition dataplane_row (row : LogApplyNodeDataplaneRow) : snapshot_result LogApplyNodeDataplaneRow :=
  match dr_port row with
  | Some port => if (0 <=? port)%Z && (port <=? 65535)%Z then Ok row else corrupt (BadNumber (to_string port))
  | None => Ok row
  end.

Definition watermark_row (e : (string * Z) * Z) : OutboxStreamWatermark := mkWatermark e.1.1 e.1.2 e.2.

Definition floor_target_of (key : ClusterKey) : DurableReplayTarget :=
  let '(api_version, kind, namespace) := key in
  if (api_version =?s "*") && (kind =?s "*") && (namespace =?s "*") then ReplayAll
  else if namespace =?s "#cluster" then ReplayCluster api_version kind
  else ReplayNamespaced api_version kind namespace.

Definition floor_key (target : DurableReplayTarget) : ClusterKey :=
  match target with
  | ReplayAll => ("*", "*", "*")
  | ReplayCluster api_version kind => (api_version, kind, "#cluster")
  | ReplayNamespaced api_version kind namespace => (api_version, kind, namespace)
  end.

Definition floor_row (e : ClusterKey * FloorRow) : snapshot_result DurableReplayFloor :=
  map_err (fun e => CorruptSnapshot (BadHistory e))
    (DurableReplayFloor_new (floor_target_of e.1) (fl_rv e.2) (fl_event_id e.2) (fl_position_exact e.2)).

(** [collect::<Result<Vec<_>>>]. *)
Fixpoint collect_rows {A B} (f : A -> snapshot_result B) (rows : list A) : snapshot_result (list B) :=
  match rows with
  | [] => Ok []
  | row :: rows' => let? b := f row in let? bs := collect_rows f rows' in Ok (b :: bs)
  end.

(** A page of the rows read, and the phase behind its last row; without rows the
    next table. *)
Definition page_of {A B} (page : list B -> SnapshotCapturePage) (convert : A -> snapshot_result B)
    (cursor : A -> Phase) (empty_next : Phase) (rows : list A) : snapshot_result (option SnapshotCapturePage * Phase) :=
  let? converted := collect_rows convert rows in
  match last rows with
  | None => Ok (None, empty_next)
  | Some row => let? p := map_err as_corrupt (try_page page converted) in Ok (Some p, cursor row)
  end.

Definition read_page (s : SqliteState) (phase : Phase) (limit : nat) (current_rv high_event_id : Z)
    : snapshot_result (option SnapshotCapturePage * Phase) :=
  match phase with
  | PNamespace after =>
      page_of Operations (fun e => Ok (resource_snapshot_restore_operation (namespace_resource e)))
        (fun e => PNamespace (Some e.1)) (PClusterResource None)
        (select_after (unwrap_or "" after) limit (db_namespaces s))
  | PClusterResource after =>
      page_of Operations (fun e => Ok (resource_snapshot_restore_operation (cluster_resource e)))
        (fun e => PClusterResource (Some e.1)) (PNamespacedResource None)
        (select_after (unwrap_or ("", "", "") after) limit (cluster_resources (db_resources s)))
  | PNamespacedResource after =>
      page_of Operations (fun e => Ok (resource_snapshot_restore_operation (namespaced_resource e)))
        (fun e => PNamespacedResource (Some e.1)) (PWatchEvent 0)
        (select_after (unwrap_or ("", "", "", "") after) limit (namespaced_resources (db_resources s)))
  | PWatchEvent after =>
      page_of Operations (fun e => Ok (event_operation e)) (fun e => PWatchEvent e.1) (PNodeSubnet None)
        (take limit (List.filter (fun e => (after <? e.1)%Z && (e.1 <=? high_event_id)%Z) (watch_events (db_watch s))))
  | PNodeSubnet after =>
      page_of Operations (fun e => Ok (network_operation current_rv (NwPutNodeSubnet e.2)))
        (fun e => PNodeSubnet (Some e.1)) (PNodeDataplane None)
        (select_after (unwrap_or "" after) limit (db_subnets s))
  | PNodeDataplane after =>
      page_of Operations
        (fun e => let? row := dataplane_row e.2 in Ok (network_operation current_rv (NwPutNodeDataplane row)))
        (fun e => PNodeDataplane (Some e.1)) (PPodCleanup None)
        (select_after (unwrap_or "" after) limit (db_dataplane s))
  | PPodCleanup after =>
      page_of Operations (fun e => Ok (cleanup_operation e)) (fun e => PPodCleanup (Some e.1)) (PWatermark None)
        (select_after (unwrap_or ("", "", "", "", "") after) limit (db_cleanup s))
  | PWatermark after =>
      page_of OutboxWatermarks (fun e => Ok (watermark_row e)) (fun e => PWatermark (Some e.1)) (PAppliedOutbox None)
        (select_after (unwrap_or ("", 0%Z) after) limit (db_watermarks s))
  | PAppliedOutbox after =>
      page_of AppliedOutbox (fun e => Ok e.2) (fun e => PAppliedOutbox (Some e.1)) (PReplayFloor None)
        (select_after (unwrap_or "" after) limit (db_outbox s))
  | PReplayFloor after =>
      page_of ReplayFloors floor_row (fun e => PReplayFloor (Some (floor_key (floor_target_of e.1)))) PComplete
        (select_after (unwrap_or ("", "", "") after) limit (watch_replay_floors (db_watch s)))
  | PComplete => Ok (None, PComplete)
  end.

Section Capture.

(** [serde_json::from_str::<Vec<String>>]. *)
Context (voters_from_str : string -> option (list string)).

Definition header_membership (cluster_id : string) (meta : gmap string string) : snapshot_result SnapshotMembership :=
  match meta !! RAFT_VOTERS_META_KEY, meta !! RAFT_TERM_META_KEY, meta !! RAFT_LEADER_HINT_META_KEY with
  | None, None, None => Ok AuthoritativeAbsent
  | Some voters, Some term, Some hint =>
      let? parsed := match voters_from_str voters with Some v => Ok v | None => corrupt (BadVoters voters) end in
      let? term := parse_or_corrupt parse_i64 term in
      Ok (MembershipPresent (mkMembership cluster_id parsed term (if is_empty hint then None else Some hint)))
  | _, _, _ => corrupt (Text "membership metadata is incomplete")
  end.

Definition read_header (s : SqliteState) : snapshot_result SnapshotCaptureHeader :=
  let current_rv := db_rv s in
  let event_id := watch_seq (db_watch s) in
  let meta := db_meta s in
  let? version :=
    match meta !! COMMAND_CODEC_ACTIVATION_VERSION_META_KEY with
    | None => Ok None
    | Some raw => let? v := parse_or_corrupt parse_u32 raw in Ok (Some v)
    end in
  let? cluster_id :=
    match opt_filter (fun value => negb (is_empty value)) (meta !! CLUSTER_ID_META_KEY) with
    | Some id => Ok id
    | None => corrupt (Text "cluster_id is missing")
    end in
  let? leader_epoch :=
    match meta !! LEADER_EPOCH_META_KEY with
    | Some raw => parse_or_corrupt parse_i64 raw
    | None => corrupt (Text "leader_epoch is missing")
    end in
  let? membership := header_membership cluster_id meta in
  map_err as_corrupt
    (SnapshotCaptureHeader_try_new version (Position current_rv event_id 0)
       (mkMetadata cluster_id leader_epoch current_rv) membership).

(** ** The session *)

Inductive SessionState := Running | StateCancelled | StateTimeout | StateComplete.

Record SqliteSnapshotSession := mkSession {
  ss_state : SessionState;
  ss_header : SnapshotCaptureHeader;
  ss_phase : Phase;
  ss_page_limit : nat
}.

(** [begin_snapshot]: the header read in the transaction that stays open. *)
Definition begin_snapshot (limit : nat) (s : SqliteState) : snapshot_result SqliteSnapshotSession :=
  let? header := read_header s in
  Ok (mkSession Running header (PNamespace None) limit).

Definition set_phase (phase : Phase) (ss : SqliteSnapshotSession) : SqliteSnapshotSession :=
  mkSession (ss_state ss) (ss_header ss) phase (ss_page_limit ss).

(** [SessionCleanup::rollback]: the first outcome of a session is kept. *)
Definition rollback (state : SessionState) (ss : SqliteSnapshotSession) : SqliteSnapshotSession :=
  match ss_state ss with
  | Running => mkSession state (ss_header ss) (ss_phase ss) (ss_page_limit ss)
  | _ => ss
  end.

Definition cancel (ss : SqliteSnapshotSession) : SqliteSnapshotSession := rollback StateCancelled ss.

Definition is_complete (phase : Phase) : bool := match phase with PComplete => true | _ => false end.

(** The loop of [next_page]: read until a page or the end. *)
Fixpoint page_loop (fuel : nat) (s : SqliteState) (ss : SqliteSnapshotSession)
    : snapshot_result (option SnapshotCapturePage) * SqliteSnapshotSession :=
  match fuel with
  | O => (Err (PersistenceFailed OutOfFuel), ss)
  | S fuel' =>
      match read_page s (ss_phase ss) (ss_page_limit ss) (md_current_rv (ch_metadata (ss_header ss)))
              (pos_event_id (ch_position (ss_header ss))) with
      | Err e => (Err e, ss)
      | Ok (page, next) =>
          let ss := set_phase next ss in
          if opt_is_some page || is_complete next
          then (Ok page, if is_complete next then rollback StateComplete ss else ss)
          else page_loop fuel' s ss
      end
  end.

(** There are ten tables to find empty. *)
Definition PHASES : nat := 11.

Definition next_page (expired : bool) (s : SqliteState) (ss : SqliteSnapshotSession)
    : snapshot_result (option SnapshotCapturePage) * SqliteSnapshotSession :=
  match ss_state ss with
  | StateCancelled => (Err SnapshotCancelled, ss)
  | StateTimeout => (Err SnapshotTimeout, ss)
  | StateComplete => (Ok None, ss)
  | Running => if expired then (Err SnapshotTimeout, rollback StateTimeout ss) else page_loop PHASES s ss
  end.

(** ** Joined pages *)

Record NormalizingSnapshotCaptureSession := mkNormalizing {
  nz_inner : SqliteSnapshotSession;
  nz_buffered : option SnapshotCapturePage;
  nz_page_limit : nat
}.

Definition set_inner (inner : SqliteSnapshotSession) (nz : NormalizingSnapshotCaptureSession) :=
  mkNormalizing inner (nz_buffered nz) (nz_page_limit nz).

Definition set_buffered (page : option SnapshotCapturePage) (nz : NormalizingSnapshotCaptureSession) :=
  mkNormalizing (nz_inner nz) page (nz_page_limit nz).

Definition inner_next (expired : bool) (s : SqliteState) (nz : NormalizingSnapshotCaptureSession)
    : snapshot_result (option SnapshotCapturePage) * NormalizingSnapshotCaptureSession :=
  let '(page, inner) := next_page expired s (nz_inner nz) in (page, set_inner inner nz).

(** The loop that fills a page of operations. *)
Fixpoint fill_operations (fuel : nat) (expired : bool) (s : SqliteState) (operations : list SnapshotRestoreOperation)
    (nz : NormalizingSnapshotCaptureSession)
    : snapshot_result (list SnapshotRestoreOperation) * NormalizingSnapshotCaptureSession :=
  if (nz_page_limit nz <=? length operations)%nat then (Ok operations, nz)
  else
    match fuel with
    | O => (Err (PersistenceFailed OutOfFuel), nz)
    | S fuel' =>
        match inner_next expired s nz with
        | (Err e, nz) => (Err e, nz)
        | (Ok None, nz) => (Ok operations, nz)
        | (Ok (Some (Operations next)), nz) =>
            let remaining := (nz_page_limit nz - length operations)%nat in
            if (length next <=? remaining)%nat then fill_operations fuel' expired s (operations ++ next)%list nz
            else
              match try_page Operations (drop remaining next) with
              | Ok remainder => (Ok (operations ++ take remaining next)%list, set_buffered (Some remainder) nz)
              | Err e => (Err e, nz)
              end
        | (Ok (Some next), nz) => (Ok operations, set_buffered (Some next) nz)
        end
    end.

Definition next_normalized_page (expired : bool) (s : SqliteState) (nz : NormalizingSnapshotCaptureSession)
    : snapshot_result (option SnapshotCapturePage) * NormalizingSnapshotCaptureSession :=
  let '(first, nz) :=
    match nz_buffered nz with
    | Some page => (Ok (Some page), set_buffered None nz)
    | None => inner_next expired s nz
    end in
  match first with
  | Err e => (Err e, nz)
  | Ok None => (Ok None, nz)
  | Ok (Some (Operations operations)) =>
      let '(filled, nz) := fill_operations (nz_page_limit nz) expired s operations nz in
      (let? operations := filled in let? page := try_page Operations operations in Ok (Some page), nz)
  | Ok (Some page) => (Ok (Some page), nz)
  end.

Definition begin_capture (limit : nat) (s : SqliteState) : snapshot_result NormalizingSnapshotCaptureSession :=
  let? session := begin_snapshot limit s in Ok (mkNormalizing session None limit).

Definition cancel_normalized (nz : NormalizingSnapshotCaptureSession) : NormalizingSnapshotCaptureSession :=
  set_buffered None (set_inner (cancel (nz_inner nz)) nz).

(** ** The envelope *)

Record RaftSnapshotReplayFloor := mkRaftFloor {
  rf_api_version : string; rf_kind : string; rf_namespace_key : string;
  rf_floor_resource_version : Z; rf_floor_event_id : Z; rf_position_is_exact : bool
}.

Inductive RaftSnapshotMembership :=
| RaftAuthoritativeAbsent
| RaftPresent (membership : ClusterMembership).

Context {LogId StoredMembership : Type}.

Record RaftSnapshotData := mkRaftSnapshot {
  rd_last_applied : option LogId;
  rd_membership : StoredMembership;
  rd_current_rv : Z;
  rd_command_codec_activation_version : option Z;
  rd_watch_event_high_water : option Z;
  rd_watch_replay_floors : option (list RaftSnapshotReplayFloor);
  rd_cluster_metadata : option ClusterMetadata;
  rd_cluster_membership : option RaftSnapshotMembership;
  rd_operations : list SnapshotRestoreOperation
}.

Abbreviation CapturedRaftAppliedState := (option LogId * StoredMembership)%type.

(** [RaftJsonSnapshotEncoder], with the lists written so far in place of the
    text and its separators. *)
Record RaftJsonSnapshotEncoder := mkEncoder {
  en_captured_applied_state : option CapturedRaftAppliedState;
  en_header : option SnapshotCaptureHeader;
  en_operations : list SnapshotRestoreOperation;
  en_floors_open : bool;
  en_floors : list RaftSnapshotReplayFloor
}.

Definition encoder_new : RaftJsonSnapshotEncoder := mkEncoder None None [] false [].

Definition encoder_begin_capture (header : SnapshotCaptureHeader) (captured : CapturedRaftAppliedState)
    (en : RaftJsonSnapshotEncoder) : snapshot_result RaftJsonSnapshotEncoder :=
  if opt_is_some (en_header en) then Err (PersistenceFailed (Text "snapshot capture began more than once"))
  else Ok (mkEncoder (Some captured) (Some header) (en_operations en) (en_floors_open en) (en_floors en)).

Definition write_operation (operation : SnapshotRestoreOperation) (en : RaftJsonSnapshotEncoder)
    : snapshot_result RaftJsonSnapshotEncoder :=
  if en_floors_open en then Err (PersistenceFailed (Text "snapshot commit page followed replay-floor pages"))
  else Ok (mkEncoder (en_captured_applied_state en) (en_header en) (en_operations en ++ [operation])%list false
             (en_floors en)).

Definition open_floors (en : RaftJsonSnapshotEncoder) : RaftJsonSnapshotEncoder :=
  mkEncoder (en_captured_applied_state en) (en_header en) (en_operations en) true (en_floors en).

(** The floor as written: not beyond the position of the snapshot. *)
Definition clamp_floor (position : WatchReplayPosition) (floor : DurableReplayFloor) : RaftSnapshotReplayFloor :=
  let '(target, floor_resource_version, floor_event_id, position_is_exact) := DurableReplayFloor_into_parts floor in
  let '(floor_resource_version, floor_event_id) :=
    if position_is_exact && (pos_event_id position <? floor_event_id)%Z
    then (pos_resource_version position, pos_event_id position)
    else (Z.min floor_resource_version (pos_resource_version position), floor_event_id) in
  let '(api_version, kind, namespace_key) := floor_key target in
  mkRaftFloor api_version kind namespace_key floor_resource_version floor_event_id position_is_exact.

Definition write_floor (header : SnapshotCaptureHeader) (floor : DurableReplayFloor) (en : RaftJsonSnapshotEncoder)
    : RaftJsonSnapshotEncoder :=
  let en := open_floors en in
  mkEncoder (en_captured_applied_state en) (en_header en) (en_operations en) (en_floors_open en)
    (en_floors en ++ [clamp_floor (ch_position header) floor])%list.

Fixpoint write_operations (operations : list SnapshotRestoreOperation) (en : RaftJsonSnapshotEncoder)
    : snapshot_result RaftJsonSnapshotEncoder :=
  match operations with
  | [] => Ok en
  | operation :: operations' => let? en := write_operation operation en in write_operations operations' en
  end.

Definition outbox_operation (current_rv : Z) (row : LogApplyAppliedOutboxRow) : SnapshotRestoreOperation :=
  mkRestore current_rv None [PutAppliedOutbox row].

Definition watermark_operation (current_rv : Z) (watermark : OutboxStreamWatermark) : SnapshotRestoreOperation :=
  mkRestore current_rv (Some watermark) [].

Definition push_page (page : SnapshotCapturePage) (en : RaftJsonSnapshotEncoder)
    : snapshot_result RaftJsonSnapshotEncoder :=
  match en_header en with
  | None => Err (PersistenceFailed (Text "snapshot page arrived before capture header"))
  | Some header =>
      let current_rv := pos_resource_version (ch_position header) in
      match page with
      | Operations operations => write_operations operations en
      | AppliedOutbox rows => write_operations (outbox_operation current_rv <$> rows) en
      | OutboxWatermarks rows => write_operations (watermark_operation current_rv <$> rows) en
      | ReplayFloors floors => Ok (fold_left (fun en floor => write_floor header floor en) floors en)
      end
  end.

Definition raft_membership (membership : SnapshotMembership) : option RaftSnapshotMembership :=
  match membership with
  | LegacyOmitted => None
  | AuthoritativeAbsent => Some RaftAuthoritativeAbsent
  | MembershipPresent m => Some (RaftPresent m)
  end.

(** [finish], and the value that the text written since [begin_capture] spells.
    The header compared with itself is equal. *)
Definition encoder_finish (en : RaftJsonSnapshotEncoder) : snapshot_result RaftSnapshotData :=
  match en_header en, en_captured_applied_state en with
  | Some header, Some (last_applied, membership) =>
      let en := open_floors en in
      let position := ch_position header in
      Ok (mkRaftSnapshot last_applied membership (pos_resource_version position)
            (ch_command_codec_activation_version header) (Some (pos_event_id position)) (Some (en_floors en))
            (Some (ch_metadata header)) (raft_membership (ch_membership header)) (en_operations en))
  | _, _ => Err (PersistenceFailed (Text "snapshot capture omitted header"))
  end.

Fixpoint push_pages (pages : list SnapshotCapturePage) (en : RaftJsonSnapshotEncoder)
    : snapshot_result RaftJsonSnapshotEncoder :=
  match pages with
  | [] => Ok en
  | page :: pages' => let? en := push_page page en in push_pages pages' en
  end.

Definition encode_snapshot_pages (header : SnapshotCaptureHeader) (captured : CapturedRaftAppliedState)
    (pages : list SnapshotCapturePage) : snapshot_result RaftSnapshotData :=
  let? en := encoder_begin_capture header captured encoder_new in
  let? en := push_pages pages en in
  encoder_finish en.

(** ** Building a snapshot *)

(** [while let Some(page) = session.next_page().await?]. *)
Fixpoint drain (fuel : nat) (s : SqliteState) (nz : NormalizingSnapshotCaptureSession)
    : snapshot_result (list SnapshotCapturePage) :=
  match fuel with
  | O => Err (PersistenceFailed OutOfFuel)
  | S fuel' =>
      match next_normalized_page false s nz with
      | (Err e, _) => Err e
      | (Ok None, _) => Ok []
      | (Ok (Some page), nz) => let? pages := drain fuel' s nz in Ok (page :: pages)
      end
  end.

(** A page holds at least one row. *)
Definition row_count (s : SqliteState) : nat :=
  size (db_namespaces s) + size (cluster_resources (db_resources s)) + size (namespaced_resources (db_resources s))
  + length (watch_events (db_watch s)) + size (db_subnets s) + size (db_dataplane s) + size (db_cleanup s)
  + size (db_watermarks s) + size (db_outbox s) + size (watch_replay_floors (db_watch s)).

Definition is_missing_cluster_identity_error (e : SnapshotPersistenceError) : bool :=
  match e with
  | InvalidSnapshot (Text t) | PersistenceFailed (Text t) | CorruptSnapshot (Text t) => t =?s "cluster_id is missing"
  | _ => false
  end.

Context (pristine_membership : StoredMembership) `{EqDecision StoredMembership}.

Definition is_pristine_raft_state (captured : CapturedRaftAppliedState) : bool :=
  opt_is_none captured.1 && bool_decide (captured.2 = pristine_membership).

Definition pristine_bootstrap_snapshot (captured : CapturedRaftAppliedState) : RaftSnapshotData :=
  mkRaftSnapshot captured.1 captured.2 0 None (Some 0%Z) (Some []) None None [].

(** [serialize_from_backend_to_cursor_inner]. *)
Definition serialize_from_backend (limit : nat) (captured : CapturedRaftAppliedState) (s : SqliteState)
    : snapshot_result RaftSnapshotData :=
  let? limit := SnapshotPageLimit_try_new limit in
  match begin_capture limit s with
  | Ok session =>
      let? pages := drain (S (row_count s)) s session in
      encode_snapshot_pages (ss_header (nz_inner session)) captured pages
  | Err e =>
      if negb (is_pristine_raft_state captured) || negb (is_missing_cluster_identity_error e) then Err e
      else if negb (db_rv s =? 0)%Z || negb (watch_seq (db_watch s) =? 0)%Z then Err e
      else Ok (pristine_bootstrap_snapshot captured)
  end.

End Capture.
