(* ===== verification/SnapshotRestore.v ===== *)
(** * Restoring a snapshot

    What a member does with an envelope it received:
    [into_authoritative_snapshot] of [klights-replication/src/snapshot.rs] turns
    it into the persistence payload, [validate_snapshot] of
    [klights-cluster-store/src/durable_recovery.rs] checks it, and
    [klights-cluster-datastore/src/sqlite/recovery/restore.rs] replaces the
    replicated tables in one transaction: everything is deleted, the operations
    are applied in order, and counters, floors and cluster metadata are set.  A
    failed statement fails the whole function and the transaction is dropped.

    The JSON text of a voter list is a parameter, with the parameters of the
    state machine.  A failure of the transaction is kept as it is; the sorting of
    such failures by words of their text, in [store.rs], is left out. *)

From S2P Require Import Prelude Text Json Watch KeyCodec LogApply ResourceShape SqliteState CommittedApply Replay SnapshotCapture.

Local Open Scope string_scope.
Local Open Scope rs_scope.

(** ** The payload *)

Record AuthoritativeSnapshot := mkAuthoritative {
  as_operations : list SnapshotRestoreOperation;
  as_current_rv : Z;
  as_position : option WatchReplayPosition;
  as_replay_floors : option (list DurableReplayFloor);
  as_metadata : option ClusterMetadata;
  as_membership : SnapshotMembership;
  as_command_codec_activation_version : option Z
}.

Definition floor_resource_version (f : DurableReplayFloor) : Z :=
  match floor_boundary f with LegacyResourceVersion rv _ => rv | ExactBoundary p => pos_resource_version p end.

Definition floor_event_id (f : DurableReplayFloor) : Z :=
  match floor_boundary f with LegacyResourceVersion _ id => id | ExactBoundary p => pos_event_id p end.

Definition floor_is_exact (f : DurableReplayFloor) : bool :=
  match floor_boundary f with ExactBoundary _ => true | _ => false end.

#[export] Instance DurableReplayTarget_eq_dec : EqDecision DurableReplayTarget.
Proof. solve_decision. Defined.

Definition validate_position (current_rv : Z) (position : option WatchReplayPosition) : snapshot_result unit :=
  match position with
  | None => Ok tt
  | Some p =>
      if (pos_resource_version p <? 0)%Z || (pos_event_id p <? 0)%Z || negb (pos_filter_through p =? 0)%Z
      then Err (InvalidSnapshot (BadPosition p))
      else if negb (current_rv =? pos_resource_version p)%Z
      then invalid ("snapshot resourceVersion " +:+ to_string current_rv +:+ " does not match allocator position "
                    +:+ to_string (pos_resource_version p))
      else Ok tt
  end.

(** The watch rows of an operation; [seen] are the identifiers before it. *)
Fixpoint validate_events (position : option WatchReplayPosition) (mutations : list LogApplyMutation) (seen : list Z)
    : snapshot_result (list Z) :=
  match mutations with
  | [] => Ok seen
  | PutWatchEvent row :: mutations' =>
      match wr_event_id row, position with
      | None, Some _ => invalid "positioned authoritative snapshot watch row is missing its durable event ID"
      | None, None => validate_events position mutations' seen
      | Some event_id, _ =>
          if (event_id <=? 0)%Z || is_some_and position (fun p => (pos_event_id p <? event_id)%Z)
          then invalid ("snapshot watch event ID " +:+ to_string event_id +:+ " is outside its allocator boundary")
          else if existsb (Z.eqb event_id) seen
          then invalid ("snapshot contains duplicate watch event ID " +:+ to_string event_id)
          else validate_events position mutations' (event_id :: seen)
      end
  | _ :: mutations' => validate_events position mutations' seen
  end.

Fixpoint validate_operations (current_rv : Z) (position : option WatchReplayPosition)
    (operations : list SnapshotRestoreOperation) (seen : list Z) : snapshot_result unit :=
  match operations with
  | [] => Ok tt
  | operation :: operations' =>
      let rv := sro_resource_version operation in
      if (rv <=? 0)%Z || (current_rv <? rv)%Z
      then invalid ("snapshot commit resourceVersion " +:+ to_string rv +:+ " is outside 1..="
                    +:+ to_string current_rv)
      else
        let? seen := validate_events position (sro_mutations operation) seen in
        validate_operations current_rv position operations' seen
  end.

Fixpoint validate_floors (current_rv : Z) (position : option WatchReplayPosition) (floors : list DurableReplayFloor)
    (seen : list DurableReplayTarget) : snapshot_result unit :=
  match floors with
  | [] => Ok tt
  | floor :: floors' =>
      if bool_decide (floor_target floor ∈ seen) then invalid "snapshot contains duplicate replay-floor target"
      else if (current_rv <? floor_resource_version floor)%Z
      then invalid ("snapshot replay-floor resourceVersion " +:+ to_string (floor_resource_version floor)
                    +:+ " exceeds current resourceVersion " +:+ to_string current_rv)
      else
        try? (if floor_is_exact floor then
                match position with
                | None => invalid "exact replay floor requires a positioned snapshot"
                | Some p =>
                    if (pos_event_id p <? floor_event_id floor)%Z
                    then invalid ("snapshot replay-floor event ID " +:+ to_string (floor_event_id floor)
                                  +:+ " exceeds allocator high-water " +:+ to_string (pos_event_id p))
                    else Ok tt
                end
              else Ok tt) in
        validate_floors current_rv position floors' (floor_target floor :: seen)
  end.

Definition validate_snapshot (snapshot : AuthoritativeSnapshot) : snapshot_result unit :=
  let current_rv := as_current_rv snapshot in
  if (current_rv <? 0)%Z then invalid "authoritative snapshot resourceVersion must be non-negative"
  else if codec_not_v3 (as_command_codec_activation_version snapshot)
  then invalid "snapshot command codec activation version must be exact v3"
  else
    try? match as_metadata snapshot with
         | Some metadata =>
             try? validate_snapshot_metadata metadata (as_membership snapshot) in
             if negb (md_current_rv metadata =? current_rv)%Z
             then invalid ("snapshot metadata resourceVersion " +:+ to_string (md_current_rv metadata)
                           +:+ " does not match standalone resourceVersion " +:+ to_string current_rv)
             else Ok tt
         | None =>
             match as_membership snapshot with
             | LegacyOmitted => Ok tt
             | _ => invalid "snapshot without cluster metadata must use legacy-omitted membership"
             end
         end in
    try? validate_position current_rv (as_position snapshot) in
    try? validate_operations current_rv (as_position snapshot) (as_operations snapshot) [] in
    validate_floors current_rv (as_position snapshot) (unwrap_or [] (as_replay_floors snapshot)) [].

Definition try_new_restore_envelope (snapshot : AuthoritativeSnapshot) : snapshot_result AuthoritativeSnapshot :=
  try? validate_snapshot snapshot in Ok snapshot.

Definition raft_floor (f : RaftSnapshotReplayFloor) : snapshot_result DurableReplayFloor :=
  map_err (fun e => CorruptSnapshot (BadHistory e))
    (DurableReplayFloor_new (floor_target_of (rf_api_version f, rf_kind f, rf_namespace_key f))
       (rf_floor_resource_version f) (rf_floor_event_id f) (rf_position_is_exact f)).

Definition snapshot_membership (membership : option RaftSnapshotMembership) : SnapshotMembership :=
  match membership with
  | None => LegacyOmitted
  | Some RaftAuthoritativeAbsent => AuthoritativeAbsent
  | Some (RaftPresent m) => MembershipPresent m
  end.

Definition into_authoritative_snapshot {LogId StoredMembership}
    (data : @RaftSnapshotData LogId StoredMembership) : snapshot_result AuthoritativeSnapshot :=
  let position := (fun event_id => Position (rd_current_rv data) event_id 0) <$> rd_watch_event_high_water data in
  let? floors := match rd_watch_replay_floors data with
                 | None => Ok None
                 | Some floors => let? floors := collect_rows raft_floor floors in Ok (Some floors)
                 end in
  try_new_restore_envelope
    (mkAuthoritative (rd_operations data) (rd_current_rv data) position floors (rd_cluster_metadata data)
       (snapshot_membership (rd_cluster_membership data)) (rd_command_codec_activation_version data)).

(** ** The transaction *)

Record SnapshotReplayFloor := mkSnapshotFloor {
  sf_api_version : string; sf_kind : string; sf_namespace_key : string;
  sf_floor_resource_version : Z; sf_floor_event_id : Z; sf_position_is_exact : bool
}.

Record SnapshotMetadata := mkSnapshotMetadata {
  sm_cluster_id : string;
  sm_leader_epoch : Z;
  sm_membership : SnapshotMembership;
  sm_command_codec_activation_version : option Z
}.

Definition set_floors (floors : gmap ClusterKey FloorRow) (s : SqliteState) : SqliteState :=
  set_watch (mkWatchTables (watch_events (db_watch s)) (watch_seq (db_watch s)) floors) s.

Definition set_watch_event_allocator (high_water : Z) (s : SqliteState) : SqliteState :=
  set_watch (mkWatchTables (watch_events (db_watch s)) high_water (watch_replay_floors (db_watch s))) s.

Definition put_meta (key value : string) (s : SqliteState) : SqliteState := set_meta (<[key := value]> (db_meta s)) s.
Definition delete_meta (key : string) (s : SqliteState) : SqliteState := set_meta (delete key (db_meta s)) s.

Definition restore_codec_version (metadata : option SnapshotMetadata) (s : SqliteState) : result DbError SqliteState :=
  match metadata with
  | None => Ok s
  | Some m =>
      match sm_command_codec_activation_version m with
      | Some version =>
          if (version =? 3)%Z
          then Ok (put_meta COMMAND_CODEC_ACTIVATION_VERSION_META_KEY COMMAND_CODEC_V3_ACTIVATION_VALUE s)
          else Err (OtherError ("snapshot command codec activation version must be exact v3, got " +:+ to_string version))
      | None => Ok (delete_meta COMMAND_CODEC_ACTIVATION_VERSION_META_KEY s)
      end
  end.

(** The [DELETE]s and the reset of the event allocator. *)
Definition clear_replicated (s : SqliteState) : SqliteState :=
  mkDb (mkResTables ∅ ∅ ∅ ∅ ∅) ∅ (mkWatchTables [] 0 ∅) ∅ ∅ ∅ ∅ ∅ (db_meta s) (db_rv s).

(** [MIN(resource_version)] of the creations of a resource in the history; a UID
    in a body that is not a text is taken to differ. *)
Definition is_creation (api_version kind : string) (namespace : option string) (name uid : string) (row : EventRow) : bool :=
  (ev_type row =?s "ADDED") && (ev_api_version row =?s api_version) && (ev_kind row =?s kind)
  && (ev_namespace row =?os namespace) && (ev_name row =?s name)
  && (pointer_str ["metadata"; "uid"] (ev_data row) =?os Some uid).

Definition first_creation (api_version kind : string) (namespace : option string) (name uid : string)
    (events : list (Z * EventRow)) : option Z :=
  match (fun e => ev_resource_version e.2) <$> List.filter (fun e => is_creation api_version kind namespace name uid e.2) events with
  | [] => None
  | rv :: rvs => Some (fold_right Z.min rv rvs)
  end.

Definition with_created_rv (created : option Z) (row : ResRow) : ResRow :=
  match created with
  | Some rv => mkResRow (rw_id row) (rw_uid row) (rw_resource_version row) rv (rw_data row)
  | None => row
  end.

Definition restore_created_rv_from_watch_history (s : SqliteState) : SqliteState :=
  let t := db_resources s in
  let events := watch_events (db_watch s) in
  set_resources
    (mkResTables
       (map_imap (fun key row => let '(api_version, kind, namespace, name) := key in
          Some (with_created_rv (first_creation api_version kind (Some namespace) name (rw_uid row) events) row))
          (namespaced_resources t))
       (map_imap (fun key row => let '(api_version, kind, name) := key in
          Some (with_created_rv (first_creation api_version kind None name (rw_uid row) events) row))
          (cluster_resources t))
       (resource_labels t) (resource_fields t) (resource_owner_refs t)) s.

Definition restore_high_water (watch_event_high_water : option Z) (s : SqliteState) : result DbError SqliteState :=
  match watch_event_high_water with
  | None => Ok s
  | Some high_water =>
      if (high_water <? 0)%Z then Err (OtherError "snapshot watch_event_high_water must be non-negative")
      else
        let restored_max := max_event_id (watch_events (db_watch s)) in
        if (high_water <? restored_max)%Z
        then Err (OtherError ("snapshot watch_event_high_water " +:+ to_string high_water
                              +:+ " is below restored event ID " +:+ to_string restored_max))
        else Ok (set_watch_event_allocator high_water s)
  end.

Fixpoint restore_floors (watch_event_high_water : option Z) (floors : list SnapshotReplayFloor) (s : SqliteState)
    : result DbError SqliteState :=
  match floors with
  | [] => Ok s
  | floor :: floors' =>
      let exact := sf_position_is_exact floor in
      if (sf_floor_resource_version floor <? 0)%Z || (exact && (sf_floor_event_id floor <? 0)%Z)
      then Err (OtherError "snapshot watch replay floor must be non-negative")
      else if exact && is_some_and watch_event_high_water (fun high_water => (high_water <? sf_floor_event_id floor)%Z)
      then Err (OtherError ("snapshot replay floor event ID " +:+ to_string (sf_floor_event_id floor)
                            +:+ " exceeds allocator high-water " +:+ to_string (unwrap_or 0%Z watch_event_high_water)))
      else
        let key := (sf_api_version floor, sf_kind floor, sf_namespace_key floor) in
        let table := watch_replay_floors (db_watch s) in
        if opt_is_some (table !! key)
        then Err (SqliteError "UNIQUE constraint failed: watch_replay_floors")
        else
          restore_floors watch_event_high_water floors'
            (set_floors (<[key := mkFloor (sf_floor_resource_version floor) (sf_floor_event_id floor) exact]> table) s)
  end.

(** The scopes of the restored rows, for an envelope without floors. *)
Definition restored_scopes (s : SqliteState) : list ClusterKey :=
  ((fun e => event_scope e.2) <$> watch_events (db_watch s))
  ++ ((fun e => let '(api_version, kind, namespace, _) := e.1 in (api_version, kind, namespace))
        <$> map_to_list (namespaced_resources (db_resources s)))
  ++ ((fun e => let '(api_version, kind, _) := e.1 in (api_version, kind, "#cluster"))
        <$> map_to_list (cluster_resources (db_resources s)))
  ++ ((fun _ => ("v1", "Namespace", "#cluster")) <$> map_to_list (db_namespaces s)).

Definition legacy_floors (current_rv : Z) (watch_event_high_water : option Z) (s : SqliteState) : SqliteState :=
  let floor := mkFloor current_rv (unwrap_or (watch_event_allocator_high_water s) watch_event_high_water) true in
  set_floors (fold_left (fun floors scope => <[scope := floor]> floors) (restored_scopes s)
                (<[("*", "*", "*") := floor]> (watch_replay_floors (db_watch s)))) s.

Section Restore.

Context (parse_from_rfc3339 : string -> option Z).
Context (float_to_string : Z -> string).
Context (merge : Value -> Value -> Value).
Context (encode : StorageResponse -> result string string).
Context (decode : string -> result string StorageResponse).

(** [serde_json::to_string] of the voters. *)
Context (voters_to_string : list string -> string).

Fixpoint restore_operations (current_rv : Z) (emit_synthetic_watch_events : bool)
    (entries : list SnapshotRestoreOperation) (s : SqliteState) : result DbError SqliteState :=
  match entries with
  | [] => Ok s
  | operation :: entries' =>
      let rv := sro_resource_version operation in
      if (rv <=? 0)%Z
      then Err (OtherError ("snapshot entry has non-positive resourceVersion " +:+ to_string rv))
      else if (current_rv <? rv)%Z
      then Err (OtherError ("snapshot entry resourceVersion " +:+ to_string rv
                            +:+ " is ahead of leader current_rv " +:+ to_string current_rv))
      else
        let? applied :=
          apply_snapshot_restore_operation_in_tx parse_from_rfc3339 float_to_string merge encode decode operation
            emit_synthetic_watch_events s in
        restore_operations current_rv emit_synthetic_watch_events entries' applied.1
  end.

Definition restore_membership (membership : SnapshotMembership) (s : SqliteState) : SqliteState :=
  match membership with
  | LegacyOmitted => s
  | AuthoritativeAbsent =>
      delete_meta RAFT_LEADER_HINT_META_KEY (delete_meta RAFT_TERM_META_KEY (delete_meta RAFT_VOTERS_META_KEY s))
  | MembershipPresent m =>
      put_meta RAFT_LEADER_HINT_META_KEY (unwrap_or "" (cm_leader_hint m))
        (put_meta RAFT_TERM_META_KEY (to_string (cm_term m))
           (put_meta RAFT_VOTERS_META_KEY (voters_to_string (cm_voters m)) s))
  end.

Definition restore_metadata (metadata : option SnapshotMetadata) (s : SqliteState) : SqliteState :=
  match metadata with
  | None => s
  | Some m =>
      restore_membership (sm_membership m)
        (if is_empty (sm_cluster_id m) then s
         else put_meta LEADER_EPOCH_META_KEY (to_string (sm_leader_epoch m))
                (put_meta CLUSTER_ID_META_KEY (sm_cluster_id m) s))
  end.

Definition replace_resource_state_in_conn (entries : list SnapshotRestoreOperation) (current_rv : Z)
    (watch_event_high_water : option Z) (watch_replay_floors : option (list SnapshotReplayFloor))
    (metadata : option SnapshotMetadata) (s : SqliteState) : result DbError SqliteState :=
  if (current_rv <? 0)%Z then Err (OtherError "snapshot current_rv must be non-negative")
  else
    let? s := restore_codec_version metadata s in
    let s := clear_replicated s in
    let has_explicit_watch_history := existsb (fun operation => existsb is_put_watch_event (sro_mutations operation)) entries in
    let emit_synthetic_watch_events := opt_is_none watch_event_high_water && negb has_explicit_watch_history in
    let? s := restore_operations current_rv emit_synthetic_watch_events entries s in
    let s := if has_explicit_watch_history then restore_created_rv_from_watch_history s else s in
    let? s := restore_high_water watch_event_high_water s in
    let? s := match watch_replay_floors with
              | Some floors => restore_floors watch_event_high_water floors s
              | None => Ok (legacy_floors current_rv watch_event_high_water s)
              end in
    Ok (restore_metadata metadata (set_rv current_rv s)).

Definition snapshot_floor (floor : DurableReplayFloor) : SnapshotReplayFloor :=
  let '(target, floor_resource_version, floor_event_id, position_is_exact) := DurableReplayFloor_into_parts floor in
  let '(api_version, kind, namespace_key) := floor_key target in
  mkSnapshotFloor api_version kind namespace_key floor_resource_version floor_event_id position_is_exact.

Definition restore_canonical_snapshot (snapshot : AuthoritativeSnapshot) (s : SqliteState) : snapshot_result SqliteState :=
  let metadata :=
    mkSnapshotMetadata (unwrap_or "" (md_cluster_id <$> as_metadata snapshot))
      (unwrap_or 0%Z (md_leader_epoch <$> as_metadata snapshot)) (as_membership snapshot)
      (as_command_codec_activation_version snapshot) in
  map_err (fun e => PersistenceFailed (StoreFailure e))
    (replace_resource_state_in_conn (as_operations snapshot) (as_current_rv snapshot)
       (pos_event_id <$> as_position snapshot) (fmap (M := list) snapshot_floor <$> as_replay_floors snapshot)
       (Some metadata) s).

(** [RaftSnapshotRestoreAdapter::restore_snapshot], from the decoded envelope. *)
Definition restore_snapshot {LogId StoredMembership} (data : @RaftSnapshotData LogId StoredMembership) (s : SqliteState)
    : snapshot_result SqliteState :=
  let? snapshot := map_err as_corrupt (into_authoritative_snapshot data) in
  restore_canonical_snapshot snapshot s.

End Restore.
