(* ===== verification/SnapshotPages.v ===== *)
(** * What a capture reads

    The pages of a capture are, put together, the rows of all tables, each table
    in the order of its key, whatever the page limit: [serialized] says which
    envelope is built.  The steps: a keyset query started behind a key of a table
    continues exactly there ([scan_next]); the session reads every table once
    ([loop_reads]); joining pages loses and repeats nothing ([drained]); and the
    encoder keeps the order ([encoded]). *)

From stdpp Require Import sorting.
From S2P Require Import Prelude Text Json Watch KeyCodec LogApply SqliteState Replay SnapshotCapture.

Local Open Scope string_scope.
Local Open Scope rs_scope.
#[local] Set Default Proof Using "Type*".

(** ** Orders on keys *)

Class KeyOrder (K : Type) `{KeyCmp K} := {
  cmp_eq : forall x y : K, key_cmp x y = Eq <-> x = y;
  cmp_flip : forall x y : K, key_cmp y x = CompOpp (key_cmp x y);
  cmp_trans : forall x y z : K, key_cmp x y = Lt -> key_cmp y z = Lt -> key_cmp x z = Lt
}.

#[export] Instance Z_key_order : KeyOrder Z.
Proof.
  split; unfold key_cmp, Z_key_cmp; [apply Z.compare_eq_iff|intros; apply Z.compare_antisym|].
  intros x y z. rewrite !Z.compare_lt_iff. apply Z.lt_trans.
Qed.

#[export] Instance string_key_order : KeyOrder string.
Proof.
  split; unfold key_cmp, string_key_cmp; [apply str_compare_eq|intros; apply String.compare_antisym|].
  intros x y z. apply str_compare_trans.
Qed.

#[export] Instance pair_key_order {A B} `{KeyOrder A, KeyOrder B} : KeyOrder (A * B).
Proof.
  split; unfold key_cmp, pair_key_cmp.
  - intros [a b] [a' b']. cbn. destruct (key_cmp a a') eqn:Ha.
    + apply cmp_eq in Ha as ->. rewrite cmp_eq. split; congruence.
    + split; [done|]. intros [= -> ->]. by rewrite (proj2 (cmp_eq a' a') eq_refl) in Ha.
    + split; [done|]. intros [= -> ->]. by rewrite (proj2 (cmp_eq a' a') eq_refl) in Ha.
  - intros [a b] [a' b']. cbn. rewrite (cmp_flip a a'). destruct (key_cmp a a'); cbn; [apply cmp_flip|done..].
  - intros [a b] [a' b'] [a'' b'']. cbn.
    destruct (key_cmp a a') eqn:E1; [apply cmp_eq in E1 as ->| |done].
    + destruct (key_cmp a' a''); [apply cmp_trans|done..].
    + intros _. destruct (key_cmp a' a'') eqn:E2; [apply cmp_eq in E2 as ->; by rewrite E1| |done].
      by rewrite (cmp_trans a a' a'').
Qed.

Section Keys.

Context {K : Type} `{KeyOrder K}.

Lemma key_ltb_irrefl (k : K) : key_ltb k k = false.
Proof. unfold key_ltb. by rewrite (proj2 (cmp_eq k k) eq_refl). Qed.

Lemma key_ltb_trans (a b c : K) : key_ltb a b = true -> key_ltb b c = true -> key_ltb a c = true.
Proof.
  unfold key_ltb. destruct (key_cmp a b) eqn:?, (key_cmp b c) eqn:?; try done. intros _ _. by rewrite (cmp_trans a b c).
Qed.

Lemma key_ltb_total (a b : K) : key_ltb a b = false -> key_ltb b a = false -> a = b.
Proof.
  unfold key_ltb. rewrite (cmp_flip a b). destruct (key_cmp a b) eqn:E; cbn; try done. intros _ _. by apply cmp_eq.
Qed.

Lemma key_ltb_asym (a b : K) : key_ltb a b = true -> key_ltb b a = false.
Proof. unfold key_ltb. rewrite (cmp_flip a b). by destruct (key_cmp a b). Qed.

End Keys.

(** ** Keyset scans *)

Lemma filter_keeps {A} (P : A -> Prop) `{forall x, Decision (P x)} l : Forall P l -> filter P l = l.
Proof. induction 1 as [|x l Hx _ IH]; [done|]. rewrite filter_cons_True by done. by f_equal. Qed.

Lemma filter_drops {A} (P : A -> Prop) `{forall x, Decision (P x)} l : Forall (fun x => ~ P x) l -> filter P l = [].
Proof. induction 1 as [|x l Hx _ IH]; [done|]. by rewrite filter_cons_False. Qed.

Section Scans.

Context {K A : Type} `{Countable K, KeyOrder K}.

Definition row_lt (a b : K * A) : Prop := key_ltb a.1 b.1 = true.

Definition sorted_rows (m : gmap K A) : list (K * A) := merge_sort row_le (map_to_list m).

(** The rows behind a key. *)
Definition behind (after : K) (l : list (K * A)) : list (K * A) := filter (fun e => key_ltb after e.1 = true) l.

Lemma sorted_rows_perm m : sorted_rows m ≡ₚ map_to_list m.
Proof. apply merge_sort_Permutation. Qed.

Lemma sorted_rows_lookup m e : e ∈ sorted_rows m -> m !! e.1 = Some e.2.
Proof. rewrite sorted_rows_perm. destruct e. apply elem_of_map_to_list. Qed.

#[local] Instance row_le_total : Total (row_le (K := K) (A := A)).
Proof.
  intros a b. unfold row_le. destruct (key_ltb b.1 a.1) eqn:E; [|by left]. right. by apply key_ltb_asym.
Qed.

#[local] Instance row_le_trans : Transitive (row_le (K := K) (A := A)).
Proof.
  intros a b c. unfold row_le. intros Hab Hbc. apply not_true_iff_false. intros Hca.
  destruct (key_ltb b.1 c.1) eqn:E; [|by rewrite (key_ltb_total _ _ E Hbc), Hca in Hab].
  by rewrite (key_ltb_trans _ _ _ E Hca) in Hab.
Qed.

Lemma strict_of_sorted (l : list (K * A)) : NoDup l.*1 -> StronglySorted row_le l -> StronglySorted row_lt l.
Proof.
  intros Hnd Hs. induction Hs as [|a l Hs IH Hall]; [constructor|].
  cbn in Hnd. apply NoDup_cons in Hnd as [Hnin Hnd]. constructor; [by apply IH|].
  apply Forall_forall. intros b Hb. apply (proj1 (Forall_forall _ _) Hall) in Hb as Hle.
  unfold row_lt. destruct (key_ltb a.1 b.1) eqn:E; [done|]. exfalso. apply Hnin.
  rewrite (key_ltb_total _ _ E Hle). by apply list_elem_of_fmap_2.
Qed.

Lemma sorted_rows_strict m : StronglySorted row_lt (sorted_rows m).
Proof.
  apply strict_of_sorted; [rewrite sorted_rows_perm; apply NoDup_fst_map_to_list|].
  apply (StronglySorted_merge_sort row_le).
Qed.

Lemma strict_unique (l l' : list (K * A)) :
  StronglySorted row_lt l -> StronglySorted row_lt l' -> l ≡ₚ l' -> l = l'.
Proof.
  apply StronglySorted_unique_strong. intros a b _ _ Hab Hba. unfold row_lt in *. by rewrite (key_ltb_asym _ _ Hab) in Hba.
Qed.

Lemma behind_strict after l : StronglySorted row_lt l -> StronglySorted row_lt (behind after l).
Proof.
  intros Hs. unfold behind. induction Hs as [|a l Hs IH Hall]; [constructor|]. rewrite filter_cons.
  destruct (decide _); [|done]. constructor; [done|]. apply Forall_forall. intros b [_ Hb]%list_elem_of_filter.
  by apply (proj1 (Forall_forall _ _) Hall).
Qed.

(** A keyset query reads a prefix of what is behind its key. *)
Lemma select_after_rows after limit m :
  select_after after limit m = take limit (behind after (sorted_rows m)).
Proof.
  unfold select_after. f_equal. apply strict_unique; [|apply behind_strict, sorted_rows_strict|].
  - apply strict_of_sorted; [|apply (StronglySorted_merge_sort row_le)].
    rewrite merge_sort_Permutation. eapply sublist_NoDup; [apply (NoDup_fst_map_to_list m)|apply fmap_sublist, sublist_filter].
  - rewrite merge_sort_Permutation. unfold behind. by rewrite sorted_rows_perm.
Qed.

Lemma behind_suffix after l : StronglySorted row_lt l -> exists pre, l = (pre ++ behind after l)%list.
Proof.
  intros Hs. induction Hs as [|a l Hs [pre IH] Hall]; [by exists []|]. unfold behind. rewrite filter_cons.
  destruct (decide (key_ltb after a.1 = true)) as [Ha|Ha].
  - exists []. cbn. f_equal. symmetry. apply filter_keeps. apply Forall_forall. intros b Hb.
    apply (proj1 (Forall_forall _ _) Hall) in Hb. by eapply key_ltb_trans.
  - exists (a :: pre). cbn. by f_equal.
Qed.

Lemma behind_split pre k a post :
  StronglySorted row_lt (pre ++ (k, a) :: post)%list -> behind k (pre ++ (k, a) :: post)%list = post.
Proof.
  intros Hs. unfold behind. rewrite filter_app, filter_cons. cbn [fst].
  rewrite (decide_False (P := key_ltb k k = true)) by by rewrite key_ltb_irrefl.
  apply StronglySorted_app in Hs as (Hall & _ & Hs).
  apply StronglySorted_inv in Hs as [_ Hpost].
  rewrite (filter_drops _ pre), (filter_keeps _ post); [done|done|].
  apply Forall_forall. intros b Hb. specialize (Hall b (k, a) Hb (list_elem_of_here _ _)). unfold row_lt in Hall.
  cbn [fst] in Hall. by rewrite (key_ltb_asym _ _ Hall).
Qed.

(** The query behind the last row of a page continues the scan. *)
Lemma scan_next after limit l k a :
  StronglySorted row_lt l -> last (take limit (behind after l)) = Some (k, a) ->
  behind k l = drop limit (behind after l).
Proof.
  intros Hs Hlast. destruct (behind_suffix after l Hs) as [pre Hl].
  apply last_Some in Hlast as [page Hpage].
  set (r := behind after l) in *. clearbody r.
  assert (Hr : r = (page ++ (k, a) :: drop limit r)%list).
  { rewrite <- (take_drop limit r) at 1. rewrite Hpage. by rewrite <- (assoc_L (++)). }
  assert (Hl' : l = ((pre ++ page) ++ (k, a) :: drop limit r)%list) by (rewrite <- (assoc_L (++)), <- Hr; exact Hl).
  rewrite Hl' in Hs |- *. by rewrite behind_split.
Qed.

Lemma behind_all after l : Forall (fun e => key_ltb after e.1 = true) l -> behind after l = l.
Proof. apply filter_keeps. Qed.

End Scans.

(** ** What is left to read *)

Inductive Item :=
| IOperation (operation : SnapshotRestoreOperation)
| IWatermark (watermark : OutboxStreamWatermark)
| IOutbox (row : LogApplyAppliedOutboxRow)
| IFloor (floor : DurableReplayFloor).

Definition items (page : SnapshotCapturePage) : list Item :=
  match page with
  | Operations rows => IOperation <$> rows
  | AppliedOutbox rows => IOutbox <$> rows
  | OutboxWatermarks rows => IWatermark <$> rows
  | ReplayFloors rows => IFloor <$> rows
  end.

Lemma collect_rows_ok {A B} (f : A -> snapshot_result B) (conv : A -> B) rows :
  (forall e, e ∈ rows -> f e = Ok (conv e)) -> collect_rows f rows = Ok (conv <$> rows).
Proof.
  induction rows as [|e rows IH]; intros Hf; [done|]. cbn [collect_rows].
  rewrite Hf, IH by set_solver. done.
Qed.

Definition floor_value (e : ClusterKey * FloorRow) : DurableReplayFloor :=
  ReplayFloor (floor_target_of e.1)
    (if fl_position_exact e.2 then ExactBoundary (Position (fl_rv e.2) (fl_event_id e.2) 0)
     else LegacyResourceVersion (fl_rv e.2) (fl_event_id e.2)).

Lemma floor_key_target key : floor_key (floor_target_of key) = key.
Proof.
  destruct key as [[av kd] ns]. unfold floor_target_of.
  destruct ((av =?s "*") && (kd =?s "*") && (ns =?s "*")) eqn:E; [by to_prop; subst|].
  destruct (ns =?s "#cluster") eqn:E2; [by to_prop; subst|done].
Qed.

(** What a database needs for its rows to be read. *)
Record readable (s : SqliteState) : Prop := {
  rd_ports : forall name row, db_dataplane s !! name = Some row -> dataplane_row row = Ok row;
  rd_floors : forall key row, watch_replay_floors (db_watch s) !! key = Some row ->
    floor_row (key, row) = Ok (floor_value (key, row));
  rd_event_order : StronglySorted row_lt (watch_events (db_watch s));
  rd_event_ids : Forall (fun e => 0 < e.1 <= watch_seq (db_watch s))%Z (watch_events (db_watch s));
  rd_namespace_keys : is_Some (db_namespaces s !! "") -> False;
  rd_cluster_keys : is_Some (cluster_resources (db_resources s) !! ("", "", "")) -> False;
  rd_namespaced_keys : is_Some (namespaced_resources (db_resources s) !! ("", "", "", "")) -> False;
  rd_subnet_keys : is_Some (db_subnets s !! "") -> False;
  rd_dataplane_keys : is_Some (db_dataplane s !! "") -> False;
  rd_cleanup_keys : is_Some (db_cleanup s !! ("", "", "", "", "")) -> False;
  rd_watermark_keys : forall client stream, is_Some (db_watermarks s !! (client, stream)) -> client <> "" \/ (0 < stream)%Z;
  rd_outbox_keys : is_Some (db_outbox s !! "") -> False;
  rd_floor_keys : is_Some (watch_replay_floors (db_watch s) !! ("", "", "")) -> False
}.

Section Reading.

Context (s : SqliteState) (limit : nat).
Context (Hread : readable s) (Hlimit : (0 < limit <= MAX_SNAPSHOT_CAPTURE_PAGE)%nat).

Definition rest_floors (after : ClusterKey) : list Item :=
  (fun e => IFloor (floor_value e)) <$> behind after (sorted_rows (watch_replay_floors (db_watch s))).

Definition rest_outbox (after : string) : list Item :=
  ((fun e => IOutbox e.2) <$> behind after (sorted_rows (db_outbox s))) ++ rest_floors ("", "", "").

Definition rest_watermarks (after : string * Z) : list Item :=
  ((fun e => IWatermark (watermark_row e)) <$> behind after (sorted_rows (db_watermarks s))) ++ rest_outbox "".

Definition rest_cleanup (after : string * string * string * string * string) : list Item :=
  ((fun e => IOperation (cleanup_operation e)) <$> behind after (sorted_rows (db_cleanup s))) ++ rest_watermarks ("", 0%Z).

Definition rest_dataplane (after : string) : list Item :=
  ((fun e => IOperation (network_operation (db_rv s) (NwPutNodeDataplane e.2))) <$> behind after (sorted_rows (db_dataplane s)))
  ++ rest_cleanup ("", "", "", "", "").

Definition rest_subnets (after : string) : list Item :=
  ((fun e => IOperation (network_operation (db_rv s) (NwPutNodeSubnet e.2))) <$> behind after (sorted_rows (db_subnets s)))
  ++ rest_dataplane "".

Definition rest_events (after : Z) : list Item :=
  ((fun e => IOperation (event_operation e)) <$> behind after (watch_events (db_watch s))) ++ rest_subnets "".

Definition rest_namespaced (after : NsKey) : list Item :=
  ((fun e => IOperation (resource_snapshot_restore_operation (namespaced_resource e)))
     <$> behind after (sorted_rows (namespaced_resources (db_resources s)))) ++ rest_events 0.

Definition rest_cluster (after : ClusterKey) : list Item :=
  ((fun e => IOperation (resource_snapshot_restore_operation (cluster_resource e)))
     <$> behind after (sorted_rows (cluster_resources (db_resources s)))) ++ rest_namespaced ("", "", "", "").

Definition rest_namespaces (after : string) : list Item :=
  ((fun e => IOperation (resource_snapshot_restore_operation (namespace_resource e)))
     <$> behind after (sorted_rows (db_namespaces s))) ++ rest_cluster ("", "", "").

Definition rest (phase : Phase) : list Item :=
  match phase with
  | PNamespace after => rest_namespaces (unwrap_or "" after)
  | PClusterResource after => rest_cluster (unwrap_or ("", "", "") after)
  | PNamespacedResource after => rest_namespaced (unwrap_or ("", "", "", "") after)
  | PWatchEvent after => rest_events after
  | PNodeSubnet after => rest_subnets (unwrap_or "" after)
  | PNodeDataplane after => rest_dataplane (unwrap_or "" after)
  | PPodCleanup after => rest_cleanup (unwrap_or ("", "", "", "", "") after)
  | PWatermark after => rest_watermarks (unwrap_or ("", 0%Z) after)
  | PAppliedOutbox after => rest_outbox (unwrap_or "" after)
  | PReplayFloor after => rest_floors (unwrap_or ("", "", "") after)
  | PComplete => []
  end.

Definition rank (phase : Phase) : nat :=
  match phase with
  | PNamespace _ => 10 | PClusterResource _ => 9 | PNamespacedResource _ => 8 | PWatchEvent _ => 7 | PNodeSubnet _ => 6
  | PNodeDataplane _ => 5 | PPodCleanup _ => 4 | PWatermark _ => 3 | PAppliedOutbox _ => 2 | PReplayFloor _ => 1
  | PComplete => 0
  end.

(** A step of the reader: a page of the next rows, or the next table. *)
Inductive reads (phase : Phase) : option SnapshotCapturePage -> Phase -> Prop :=
| ReadsPage page next
    (reads_rows : rest phase = (items page ++ rest next)%list)
    (reads_some : items page <> [])
    (reads_len : (length (items page) <= limit)%nat)
    (reads_more : is_complete next = false) : reads phase (Some page) next
| ReadsNext next (reads_same : rest phase = rest next) (reads_rank : rank phase = S (rank next)) : reads phase None next.

Lemma table_page {K A B} `{Countable K, KeyOrder K} (mk : list B -> SnapshotCapturePage) (wrap : B -> Item) (conv : K * A -> B)
    (f : K * A -> snapshot_result B) (cursor : K * A -> Phase) (empty_next phase : Phase) (l : list (K * A)) (after : K)
    (left : K -> list Item) :
  StronglySorted row_lt l -> (forall e, e ∈ l -> f e = Ok (conv e)) ->
  (forall rows, items (mk rows) = wrap <$> rows) ->
  (forall k, left k = ((fun e => wrap (conv e)) <$> behind k l) ++ rest empty_next)%list ->
  rest phase = left after -> (forall e, rest (cursor e) = left e.1 /\ is_complete (cursor e) = false) ->
  rank phase = S (rank empty_next) ->
  exists page next, page_of mk f cursor empty_next (take limit (behind after l)) = Ok (page, next) /\ reads phase page next.
Proof using Hlimit.
  intros Hs Hf Hmk Hleft Hphase Hcursor Hrank. unfold page_of.
  rewrite (collect_rows_ok f conv).
  2:{ intros e He. apply Hf. assert (e ∈ behind after l) as [_ ?]%list_elem_of_filter; [|done].
      rewrite <- (take_drop limit (behind after l)). apply elem_of_app. by left. }
  cbn [result_bind]. destruct (last _) as [[k a]|] eqn:Hlast.
  - set (rows := take limit (behind after l)) in *.
    assert (Hlen : (0 < length rows <= limit)%nat).
    { split; [|unfold rows; rewrite length_take; lia]. destruct rows; [done|cbn; lia]. }
    unfold try_page, validate_capture_len. rewrite length_fmap.
    destruct (Nat.eqb_spec (length rows) 0); [lia|]. destruct (Nat.ltb_spec MAX_SNAPSHOT_CAPTURE_PAGE (length rows)); [lia|].
    cbn [orb result_bind]. eexists _, _. split; [done|]. destruct (Hcursor (k, a)) as [Hrest Hc].
    constructor; [|rewrite Hmk|rewrite Hmk, !length_fmap; lia|done].
    + rewrite Hphase, Hrest, !Hleft. cbn [fst]. rewrite (scan_next after limit l k a Hs Hlast), Hmk, <- list_fmap_compose.
      rewrite (assoc_L (++)), <- fmap_app. unfold rows. by rewrite take_drop.
    + destruct rows; [done|]. done.
  - exists None, empty_next. split; [done|]. constructor; [|done]. rewrite Hphase, Hleft.
    apply last_None in Hlast. destruct (behind after l); [done|]. destruct limit; [lia|done].
Qed.

Ltac keyed_page := rewrite select_after_rows; eapply table_page;
  [apply sorted_rows_strict|done|done|done|done|done|done].

Lemma events_behind after :
  List.filter (fun e => (after <? e.1)%Z && (e.1 <=? watch_seq (db_watch s))%Z) (watch_events (db_watch s))
  = behind after (watch_events (db_watch s)).
Proof using Hread.
  clear Hlimit. pose proof (rd_event_ids s Hread) as Hids. unfold behind. induction Hids as [|e l He _ IH]; [done|].
  rewrite filter_cons. cbn [List.filter]. rewrite IH. destruct (Z.leb_spec e.1 (watch_seq (db_watch s))); [|lia].
  rewrite andb_true_r. unfold key_ltb, key_cmp, Z_key_cmp, Z.ltb. by destruct (after ?= e.1)%Z.
Qed.

Lemma page_reads phase :
  is_complete phase = false ->
  exists page next, read_page s phase limit (db_rv s) (watch_seq (db_watch s)) = Ok (page, next) /\ reads phase page next.
Proof using Hlimit Hread.
  intros Hp. destruct phase as [after|after|after|after|after|after|after|after|after|after|]; cbn [read_page]; try done.
  - keyed_page.
  - keyed_page.
  - keyed_page.
  - rewrite events_behind. eapply table_page; [apply (rd_event_order s Hread)|done|done|done|done|done|done].
  - keyed_page.
  - rewrite select_after_rows. eapply (table_page Operations IOperation (fun e => network_operation (db_rv s) (NwPutNodeDataplane e.2)));
      [apply sorted_rows_strict| |done|done|done|done|done].
    intros e He%sorted_rows_lookup. by rewrite (rd_ports s Hread _ _ He).
  - keyed_page.
  - keyed_page.
  - keyed_page.
  - rewrite select_after_rows. apply (table_page ReplayFloors IFloor floor_value) with (left := rest_floors);
      [apply sorted_rows_strict| |done|intros k; by rewrite app_nil_r|done| |done].
    + intros [k r] He%sorted_rows_lookup. by apply (rd_floors s Hread).
    + intros e. cbn [rest unwrap_or]. by rewrite floor_key_target.
Qed.

(** ** The session *)

Record live (ss : SqliteSnapshotSession) : Prop := {
  live_limit : ss_page_limit ss = limit;
  live_rv : md_current_rv (ch_metadata (ss_header ss)) = db_rv s;
  live_seq : pos_event_id (ch_position (ss_header ss)) = watch_seq (db_watch s);
  live_state : (ss_state ss = Running /\ is_complete (ss_phase ss) = false) \/ ss_state ss = StateComplete
}.

Definition left_in (ss : SqliteSnapshotSession) : list Item :=
  match ss_state ss with Running => rest (ss_phase ss) | _ => [] end.

(** The next page of a session that holds the items [before]. *)
Definition gives (before : list Item) (page : option SnapshotCapturePage) (after : list Item) : Prop :=
  match page with
  | Some page => before = (items page ++ after)%list /\ items page <> [] /\ (length (items page) <= limit)%nat
  | None => before = [] /\ after = []
  end.

Lemma loop_reads fuel ss :
  live ss -> ss_state ss = Running -> (rank (ss_phase ss) < fuel)%nat ->
  exists page ss', page_loop fuel s ss = (Ok page, ss') /\ live ss' /\ ss_header ss' = ss_header ss
                   /\ gives (left_in ss) page (left_in ss').
Proof using Hlimit Hread.
  revert ss. induction fuel as [|fuel IH]; intros ss [Hl Hrv Hseq Hst] Hrun Hrank; [lia|].
  destruct Hst as [[_ Hphase]|]; [|congruence]. cbn [page_loop]. rewrite Hl, Hrv, Hseq.
  destruct (page_reads (ss_phase ss) Hphase) as (page & next & -> & Hreads).
  unfold left_in at 1. rewrite Hrun. destruct Hreads as [page next Hrows Hsome Hlen Hmore|next Hsame Hr].
  - cbn [opt_is_some orb]. rewrite Hmore. eexists _, _. split; [done|]. unfold left_in. cbn. rewrite Hrun.
    split; [|done]. split; cbn; try done. by left.
  - cbn [opt_is_some orb]. destruct (is_complete next) eqn:Hc.
    + destruct next; try done. eexists _, _. split; [done|]. unfold rollback, left_in. cbn. rewrite Hrun. cbn.
      split; [|done]. split; cbn; try done. by right.
    + destruct (IH (set_phase next ss)) as (page & ss' & Hloop & Hlive & Hh & Hg); [|done|cbn; lia|].
      { split; cbn; try done. by left. }
      exists page, ss'. split; [done|]. split; [done|]. split; [done|].
      unfold left_in at 1 in Hg. cbn in Hg. by rewrite Hrun, <- Hsame in Hg.
Qed.

Lemma next_page_reads ss :
  live ss ->
  exists page ss', next_page false s ss = (Ok page, ss') /\ live ss' /\ ss_header ss' = ss_header ss
                   /\ gives (left_in ss) page (left_in ss').
Proof using Hlimit Hread.
  intros Hlive. destruct (live_state ss Hlive) as [[Hrun Hp]|Hc]; unfold next_page.
  - rewrite Hrun. apply loop_reads; [done|done|]. destruct (ss_phase ss); cbn; unfold PHASES; lia.
  - rewrite Hc. exists None, ss. unfold left_in. by rewrite Hc.
Qed.

(** ** Joined pages *)

Definition left_of (nz : NormalizingSnapshotCaptureSession) : list Item :=
  (unwrap_or [] (items <$> nz_buffered nz) ++ left_in (nz_inner nz))%list.

Record joining (nz : NormalizingSnapshotCaptureSession) : Prop := {
  jo_live : live (nz_inner nz);
  jo_limit : nz_page_limit nz = limit;
  jo_buffered : forall page, nz_buffered nz = Some page -> items page <> [] /\ (length (items page) <= limit)%nat
}.

Lemma try_page_ok {A} (mk : list A -> SnapshotCapturePage) (rows : list A) :
  (0 < length rows <= limit)%nat -> try_page mk rows = Ok (mk rows).
Proof using Hlimit.
  intros Hlen. unfold try_page, validate_capture_len. destruct (Nat.eqb_spec (length rows) 0); [lia|].
  destruct (Nat.ltb_spec MAX_SNAPSHOT_CAPTURE_PAGE (length rows)); [lia|done].
Qed.

Lemma inner_reads nz :
  joining nz -> nz_buffered nz = None ->
  exists page nz', inner_next false s nz = (Ok page, nz') /\ joining nz' /\ nz_buffered nz' = None
    /\ gives (left_of nz) page (left_of nz').
Proof using Hlimit Hread.
  intros [Hlive Hl Hb] Hnone. destruct (next_page_reads (nz_inner nz) Hlive) as (page & ss' & Hn & Hlive' & _ & Hg).
  unfold inner_next. rewrite Hn. eexists _, _. split; [done|]. unfold left_of. cbn. rewrite Hnone. by split_and!; [split| |].
Qed.

Lemma buffers before nz page :
  joining nz -> nz_buffered nz = None -> gives before (Some page) (left_of nz) ->
  joining (set_buffered (Some page) nz) /\ before = left_of (set_buffered (Some page) nz).
Proof.
  intros [? ? ?] Hnone (-> & ? & ?). unfold left_of. cbn. rewrite Hnone. cbn.
  split; [|done]. split; [done|done|]. by intros page' [= <-].
Qed.

Lemma fill_reads fuel operations nz :
  joining nz -> nz_buffered nz = None -> (limit <= length operations + fuel)%nat -> (0 < length operations <= limit)%nat ->
  exists filled nz', fill_operations fuel false s operations nz = (Ok filled, nz') /\ joining nz'
    /\ ((IOperation <$> operations) ++ left_of nz)%list = ((IOperation <$> filled) ++ left_of nz')%list
    /\ (0 < length filled <= limit)%nat.
Proof using Hlimit Hread.
  revert operations nz. induction fuel as [|fuel IH]; intros operations nz Hj Hnone Hfuel Hlen; cbn [fill_operations];
    rewrite (jo_limit nz Hj); (destruct (Nat.leb_spec limit (length operations)); [by eexists _, _|]); [lia|].
  destruct (inner_reads nz Hj Hnone) as (page & nz' & -> & Hj' & Hnone' & Hg).
  destruct page as [[next|next|next|next]|]; cbn [gives] in Hg.
  - destruct Hg as (Hleft & Hsome & Hle). cbn [items] in *. rewrite length_fmap in Hle.
    assert (0 < length next)%nat by (destruct next; [done|cbn; lia]). rewrite (jo_limit nz' Hj').
    destruct (Nat.leb_spec (length next) (limit - length operations)).
    + destruct (IH (operations ++ next)%list nz' Hj' Hnone') as (filled & nz'' & -> & ? & Heq & ?);
        [rewrite length_app; lia..|].
      exists filled, nz''. split; [done|]. split; [done|]. split; [|done]. by rewrite Hleft, <- Heq, fmap_app, (assoc_L (++)).
    + rewrite try_page_ok by (rewrite length_drop; lia). eexists _, _. split; [done|]. split_and!.
      * destruct Hj' as [? ? ?]. split; [done|done|]. cbn. intros page [= <-]. cbn [items]. rewrite length_fmap, length_drop.
        split; [|lia]. intros Hnil%fmap_nil_inv. apply (f_equal length) in Hnil. rewrite length_drop in Hnil. cbn in Hnil. lia.
      * unfold left_of in *. cbn. rewrite Hnone' in Hleft. cbn in Hleft.
        rewrite Hleft, !fmap_app, <- (assoc_L (++)). f_equal. rewrite (assoc_L (++)), <- fmap_app. by rewrite take_drop.
      * rewrite length_app, length_take. lia.
      * rewrite length_app, length_take. lia.
  - destruct (buffers _ nz' _ Hj' Hnone' Hg) as [? ->]. by eexists _, _.
  - destruct (buffers _ nz' _ Hj' Hnone' Hg) as [? ->]. by eexists _, _.
  - destruct (buffers _ nz' _ Hj' Hnone' Hg) as [? ->]. by eexists _, _.
  - destruct Hg as [Hl Hl']. exists operations, nz'. by rewrite Hl, Hl'.
Qed.

Lemma normalized_reads nz :
  joining nz ->
  exists page nz', next_normalized_page false s nz = (Ok page, nz') /\ joining nz' /\ gives (left_of nz) page (left_of nz').
Proof using Hlimit Hread.
  intros Hj. unfold next_normalized_page.
  assert (exists first nz', match nz_buffered nz with Some page => (Ok (Some page), set_buffered None nz) | None => inner_next false s nz end
            = (Ok first, nz') /\ joining nz' /\ nz_buffered nz' = None /\ gives (left_of nz) first (left_of nz'))
    as (first & nz' & -> & Hj' & Hnone & Hg).
  { destruct (nz_buffered nz) as [page|] eqn:Hb; [|by apply inner_reads]. eexists _, _. split; [done|].
    destruct Hj as [? ? Hbuf]. destruct (Hbuf page Hb). unfold left_of. rewrite Hb. cbn. split_and!; try done. }
  destruct first as [[operations|rows|rows|rows]|]; try by eexists _, _.
  destruct Hg as (Hleft & Hsome & Hle). cbn [items] in *. rewrite length_fmap in Hle.
  assert (0 < length operations)%nat by (destruct operations; [done|cbn; lia]).
  destruct (fill_reads (nz_page_limit nz') operations nz' Hj' Hnone) as (filled & nz'' & -> & Hj'' & Heq & Hlen);
    [rewrite (jo_limit nz' Hj'); lia|lia|].
  cbn [result_bind]. rewrite try_page_ok by lia. cbn [result_bind]. eexists _, _. split; [done|]. split; [done|].
  cbn [gives items]. rewrite Hleft, Heq, length_fmap. split_and!; [done| |lia].
  destruct filled; [cbn in Hlen; lia|done].
Qed.

(** The pages of a session, put together. *)
Lemma drained fuel nz :
  joining nz -> (length (left_of nz) < fuel)%nat ->
  exists pages, drain fuel s nz = Ok pages /\ concat (items <$> pages) = left_of nz
                /\ Forall (fun page => items page <> []) pages.
Proof using Hlimit Hread.
  revert nz. induction fuel as [|fuel IH]; intros nz Hj Hf; [lia|]. cbn [drain].
  destruct (normalized_reads nz Hj) as (page & nz' & -> & Hj' & Hg). destruct page as [page|]; cbn [gives] in Hg.
  - destruct Hg as (Hleft & Hsome & _). rewrite Hleft, length_app in Hf.
    assert (0 < length (items page))%nat by (destruct (items page); [done|cbn; lia]).
    destruct (IH nz' Hj') as (pages & -> & Hpages & Hall); [lia|]. exists (page :: pages). cbn.
    rewrite Hpages, Hleft. by split_and!; [| |constructor].
  - destruct Hg as [-> _]. by exists [].
Qed.

End Reading.

(** ** The encoder *)

Definition item_operation (rv : Z) (item : Item) : option SnapshotRestoreOperation :=
  match item with
  | IOperation operation => Some operation
  | IWatermark watermark => Some (watermark_operation rv watermark)
  | IOutbox row => Some (outbox_operation rv row)
  | IFloor _ => None
  end.

Definition item_floor (item : Item) : option DurableReplayFloor := match item with IFloor floor => Some floor | _ => None end.

(** Once floors are written ([opened]) only floors follow. *)
Fixpoint ordered (opened : bool) (l : list Item) : bool :=
  match l with
  | [] => true
  | IFloor _ :: l' => ordered true l'
  | _ :: l' => negb opened && ordered opened l'
  end.

Lemma ordered_app l l' : forallb (fun item => opt_is_none (item_floor item)) l = true -> ordered false (l ++ l') = ordered false l'.
Proof. induction l as [|[] l IH]; [done|cbn; exact IH..|done]. Qed.

Lemma ordered_floors opened (l : list DurableReplayFloor) : ordered opened (IFloor <$> l) = true.
Proof. revert opened. induction l as [|f l IH]; intros opened; [done|]. apply IH. Qed.

Section Encoding.

Context {LogId StoredMembership : Type}.
Context (header : SnapshotCaptureHeader) (captured : option LogId * StoredMembership).

Definition rv_of : Z := pos_resource_version (ch_position header).

(** The encoder after writing [operations] and [floors]. *)
Definition holds (operations : list SnapshotRestoreOperation) (opened : bool) (floors : list RaftSnapshotReplayFloor) :=
  mkEncoder (Some captured) (Some header) operations opened floors.

Lemma write_rows {A} (wrap : A -> Item) (convert : A -> SnapshotRestoreOperation) rows l operations opened floors :
  (forall row, item_operation rv_of (wrap row) = Some (convert row)) ->
  ordered opened ((wrap <$> rows) ++ l)%list = true ->
  write_operations (convert <$> rows) (holds operations opened floors)
  = Ok (holds (operations ++ omap (item_operation rv_of) (wrap <$> rows))%list opened floors) /\ ordered opened l = true.
Proof.
  intros Hwrap. revert operations. induction rows as [|row rows IH]; intros operations Hord.
  - cbn. by rewrite app_nil_r.
  - cbn [fmap list_fmap app] in Hord |- *. specialize (Hwrap row) as Hrow.
    assert (opened = false /\ ordered opened ((wrap <$> rows) ++ l) = true) as [-> Hord'].
    { revert Hord Hrow. cbn [ordered]. destruct (wrap row); cbn; intros; to_prop; done. }
    cbn [write_operations write_operation holds en_floors_open result_bind]. destruct (IH (operations ++ [convert row])%list Hord') as [Hw Hl].
    unfold holds in *. cbn [en_captured_applied_state en_header en_operations en_floors].
    rewrite Hw. split; [|done]. do 2 f_equal. rewrite <- (assoc_L (++)). f_equal.
    change (omap (item_operation rv_of) (wrap row :: (wrap <$> rows))) with
      (match item_operation rv_of (wrap row) with Some y => y :: omap (item_operation rv_of) (wrap <$> rows)
       | None => omap (item_operation rv_of) (wrap <$> rows) end). by rewrite Hrow.
Qed.

Lemma write_floors (rows : list DurableReplayFloor) operations opened floors :
  rows <> [] ->
  fold_left (fun en floor => write_floor header floor en) rows (holds operations opened floors)
  = holds operations true (floors ++ (clamp_floor (ch_position header) <$> rows)).
Proof.
  revert opened floors. induction rows as [|row rows IH]; intros opened floors Hrows; [done|]. cbn [fold_left].
  change (write_floor header row (holds operations opened floors)) with
    (holds operations true (floors ++ [clamp_floor (ch_position header) row])).
  destruct rows as [|row' rows]; [done|]. rewrite IH by done. by rewrite <- (assoc_L (++)).
Qed.

Lemma floors_operations rv (rows : list DurableReplayFloor) : omap (item_operation rv) (IFloor <$> rows) = [].
Proof. by induction rows. Qed.

Lemma operations_floors {A} (wrap : A -> Item) rows :
  (forall row, item_floor (wrap row) = None) -> omap item_floor (wrap <$> rows) = [].
Proof. intros Hw. induction rows as [|row rows IH]; [done|]. cbn. by rewrite Hw. Qed.

Lemma floors_floors (rows : list DurableReplayFloor) : omap item_floor (IFloor <$> rows) = rows.
Proof. induction rows as [|row rows IH]; [done|]. cbn. by f_equal. Qed.

Lemma push_page_writes page l operations opened floors :
  items page <> [] -> ordered opened (items page ++ l)%list = true ->
  exists opened',
    push_page page (holds operations opened floors)
    = Ok (holds (operations ++ omap (item_operation rv_of) (items page)) opened'
            (floors ++ (clamp_floor (ch_position header) <$> omap item_floor (items page))))%list
    /\ ordered opened' l = true.
Proof.
  intros Hsome Hord. unfold push_page. cbn [holds en_header]. fold rv_of.
  destruct page as [rows|rows|rows|rows]; cbn [items] in *.
  - destruct (write_rows IOperation id rows l operations opened floors ltac:(done) Hord) as [Hw Hl].
    exists opened. rewrite list_fmap_id in Hw. by rewrite Hw, operations_floors, app_nil_r.
  - destruct (write_rows IOutbox (outbox_operation rv_of) rows l operations opened floors ltac:(done) Hord) as [Hw Hl].
    exists opened. by rewrite Hw, operations_floors, app_nil_r.
  - destruct (write_rows IWatermark (watermark_operation rv_of) rows l operations opened floors ltac:(done) Hord) as [Hw Hl].
    exists opened. by rewrite Hw, operations_floors, app_nil_r.
  - exists true. rewrite write_floors by (by intros ->). rewrite floors_operations, floors_floors, app_nil_r. split; [done|].
    revert Hord Hsome. destruct rows as [|row rows]; [done|]. intros Hord _. cbn in Hord.
    clear -Hord. induction rows as [|r rows IH]; [done|]. by apply IH.
Qed.

Lemma push_pages_write pages operations opened floors :
  Forall (fun page => items page <> []) pages -> ordered opened (concat (items <$> pages)) = true ->
  exists opened',
    push_pages pages (holds operations opened floors)
    = Ok (holds (operations ++ omap (item_operation rv_of) (concat (items <$> pages))) opened'
            (floors ++ (clamp_floor (ch_position header) <$> omap item_floor (concat (items <$> pages)))))%list.
Proof.
  intros Hs. revert operations opened floors. induction Hs as [|page pages Hpage _ IH]; intros operations opened floors Hord.
  - exists opened. cbn. by rewrite !app_nil_r.
  - cbn [fmap list_fmap concat] in Hord |- *. destruct (push_page_writes page _ operations opened floors Hpage Hord) as (opened' & Hp & Hord').
    cbn [push_pages]. rewrite Hp. cbn [result_bind]. 
    match goal with |- context [push_pages pages (holds ?o ?b ?f)] => destruct (IH o b f Hord') as (opened'' & ->) end.
    exists opened''. by rewrite !omap_app, fmap_app, !(assoc_L (++)).
Qed.

Lemma encoded pages :
  Forall (fun page => items page <> []) pages -> ordered false (concat (items <$> pages)) = true ->
  encode_snapshot_pages header captured pages
  = Ok (mkRaftSnapshot captured.1 captured.2 rv_of (ch_command_codec_activation_version header)
          (Some (pos_event_id (ch_position header)))
          (Some (clamp_floor (ch_position header) <$> omap item_floor (concat (items <$> pages))))
          (Some (ch_metadata header)) (raft_membership (ch_membership header))
          (omap (item_operation rv_of) (concat (items <$> pages)))).
Proof.
  intros Hs Hord. unfold encode_snapshot_pages. cbn [encoder_begin_capture encoder_new en_header opt_is_some result_bind].
  change (mkEncoder _ _ _ _ _) with (holds [] false []).
  destruct (push_pages_write pages [] false [] Hs Hord) as (opened & Hp).
  cbn [en_operations en_floors_open en_floors]. rewrite Hp. cbn. by destruct captured.
Qed.

End Encoding.

(** ** The envelope of a database *)

Definition minimal {K} `{KeyCmp K} (d : K) : Prop := forall k, k <> d -> key_ltb d k = true.

Lemma minimal_string : minimal "".
Proof. by intros [|c k] Hk. Qed.

Lemma minimal_pair {A B} `{KeyOrder A, KeyOrder B} (a : A) (b : B) : minimal a -> minimal b -> minimal (a, b).
Proof.
  intros Ha Hb [x y] Hne. unfold key_ltb, key_cmp, pair_key_cmp. cbn.
  destruct (key_cmp a x) eqn:E; [|done|].
  - apply cmp_eq in E as <-. apply Hb. congruence.
  - assert (Hx : x <> a) by (intros ->; by rewrite (proj2 (cmp_eq a a) eq_refl) in E).
    specialize (Ha x Hx). unfold key_ltb in Ha. by rewrite E in Ha.
Qed.

Lemma behind_minimal {K A} `{Countable K, KeyOrder K} (d : K) (m : gmap K A) :
  minimal d -> (is_Some (m !! d) -> False) -> behind d (sorted_rows m) = sorted_rows m.
Proof.
  intros Hd Hm. apply behind_all, Forall_forall. intros [k a] He%sorted_rows_lookup. cbn in *. apply Hd. intros ->. eauto.
Qed.

Definition network_operations (s : SqliteState) : list SnapshotRestoreOperation :=
  ((fun e => network_operation (db_rv s) (NwPutNodeSubnet e.2)) <$> sorted_rows (db_subnets s))
  ++ ((fun e => network_operation (db_rv s) (NwPutNodeDataplane e.2)) <$> sorted_rows (db_dataplane s)).

Definition ledger_operations (s : SqliteState) : list SnapshotRestoreOperation :=
  ((fun e => watermark_operation (db_rv s) (watermark_row e)) <$> sorted_rows (db_watermarks s))
  ++ ((fun e => outbox_operation (db_rv s) e.2) <$> sorted_rows (db_outbox s)).

Definition all_operations (s : SqliteState) : list SnapshotRestoreOperation :=
  ((fun e => resource_snapshot_restore_operation (namespace_resource e)) <$> sorted_rows (db_namespaces s))
  ++ ((fun e => resource_snapshot_restore_operation (cluster_resource e)) <$> sorted_rows (cluster_resources (db_resources s)))
  ++ ((fun e => resource_snapshot_restore_operation (namespaced_resource e)) <$> sorted_rows (namespaced_resources (db_resources s)))
  ++ (event_operation <$> watch_events (db_watch s))
  ++ network_operations s
  ++ (cleanup_operation <$> sorted_rows (db_cleanup s))
  ++ ledger_operations s.

Definition all_floors (s : SqliteState) : list DurableReplayFloor :=
  floor_value <$> sorted_rows (watch_replay_floors (db_watch s)).

Definition all_items (s : SqliteState) : list Item :=
  ((fun e => IOperation (resource_snapshot_restore_operation (namespace_resource e))) <$> sorted_rows (db_namespaces s))
  ++ ((fun e => IOperation (resource_snapshot_restore_operation (cluster_resource e))) <$> sorted_rows (cluster_resources (db_resources s)))
  ++ ((fun e => IOperation (resource_snapshot_restore_operation (namespaced_resource e))) <$> sorted_rows (namespaced_resources (db_resources s)))
  ++ ((fun e => IOperation (event_operation e)) <$> watch_events (db_watch s))
  ++ ((fun e => IOperation (network_operation (db_rv s) (NwPutNodeSubnet e.2))) <$> sorted_rows (db_subnets s))
  ++ ((fun e => IOperation (network_operation (db_rv s) (NwPutNodeDataplane e.2))) <$> sorted_rows (db_dataplane s))
  ++ ((fun e => IOperation (cleanup_operation e)) <$> sorted_rows (db_cleanup s))
  ++ ((fun e => IWatermark (watermark_row e)) <$> sorted_rows (db_watermarks s))
  ++ ((fun e => IOutbox e.2) <$> sorted_rows (db_outbox s))
  ++ ((fun e => IFloor (floor_value e)) <$> sorted_rows (watch_replay_floors (db_watch s))).

Lemma rest_start s : readable s -> rest s (PNamespace None) = all_items s.
Proof.
  intros Hread.
  unfold rest, rest_namespaces, rest_cluster, rest_namespaced, rest_events, rest_subnets, rest_dataplane, rest_cleanup,
    rest_watermarks, rest_outbox, rest_floors, all_items. cbn [unwrap_or].
  rewrite (behind_all 0%Z), (behind_all ("", 0%Z)).
  - rewrite !behind_minimal; [done|..]; try apply Hread; repeat apply minimal_pair; apply minimal_string.
  - apply Forall_forall. intros [[client stream] n] He%sorted_rows_lookup.
    destruct (rd_watermark_keys s Hread client stream) as [Hc|Hs]; [eauto|..]; unfold key_ltb, key_cmp, pair_key_cmp; cbn.
    + by destruct client.
    + destruct client; [|done]. apply Z.compare_lt_iff in Hs. by destruct stream.
  - eapply Forall_impl; [apply (rd_event_ids s Hread)|]. intros [[] ?] [Hpos _]; cbn in Hpos; done.
Qed.

Lemma fmap_none {A} (wrap : A -> Item) (l : list A) :
  (forall a, item_floor (wrap a) = None) -> forallb (fun item => opt_is_none (item_floor item)) (wrap <$> l) = true.
Proof. intros Hw. induction l as [|a l IH]; [done|]. cbn. by rewrite Hw. Qed.

Lemma all_items_ordered s : ordered false (all_items s) = true.
Proof.
  unfold all_items. rewrite !ordered_app by by apply fmap_none.
  rewrite (list_fmap_compose floor_value IFloor). apply ordered_floors.
Qed.

Lemma omap_wrapped {A} rv (wrap : A -> Item) (convert : A -> SnapshotRestoreOperation) (l : list A) :
  (forall a, item_operation rv (wrap a) = Some (convert a)) -> omap (item_operation rv) (wrap <$> l) = convert <$> l.
Proof. intros Hw. induction l as [|a l IH]; [done|]. cbn. rewrite Hw. by f_equal. Qed.

Lemma all_items_operations s : omap (item_operation (db_rv s)) (all_items s) = all_operations s.
Proof.
  unfold all_items, all_operations, network_operations, ledger_operations. rewrite !omap_app.
  rewrite (list_fmap_compose floor_value IFloor), floors_operations, app_nil_r, <- !(assoc_L (++)).
  repeat match goal with |- (omap _ _ ++ _)%list = _ => f_equal; [by apply omap_wrapped|] end. by apply omap_wrapped.
Qed.

Lemma all_items_floors s : omap item_floor (all_items s) = all_floors s.
Proof.
  unfold all_items, all_floors. rewrite !omap_app, (list_fmap_compose floor_value IFloor), floors_floors.
  rewrite !operations_floors by done. done.
Qed.

Lemma all_items_length s : length (all_items s) = row_count s.
Proof.
  unfold all_items, row_count. rewrite !length_app, !length_fmap, !sorted_rows_perm, !length_map_to_list. lia.
Qed.

Lemma map_err_ok {A E F} (f : E -> F) (r : result E A) v : map_err f r = Ok v -> r = Ok v.
Proof. by destruct r as [a|e]; [intros [= ->]|]. Qed.

Lemma read_header_position voters_from_str s header :
  read_header voters_from_str s = Ok header ->
  ch_position header = Position (db_rv s) (watch_seq (db_watch s)) 0 /\ md_current_rv (ch_metadata header) = db_rv s.
Proof.
  unfold read_header.
  repeat match goal with |- (let? _ := ?r in _) = _ -> _ => destruct r; [|done]; cbn [result_bind] end.
  intros Hnew%map_err_ok. revert Hnew. unfold SnapshotCaptureHeader_try_new. destruct (codec_not_v3 _); [done|].
  repeat match goal with |- (try? ?r in _) = _ -> _ => destruct r; [|done]; cbn [result_bind] end.
  destruct (negb _); [done|]. by intros [= <-].
Qed.

Lemma begin_joining voters_from_str limit s header :
  read_header voters_from_str s = Ok header ->
  let nz := mkNormalizing (mkSession Running header (PNamespace None) limit) None limit in
  begin_capture voters_from_str limit s = Ok nz /\ joining s limit nz /\ left_of s nz = rest s (PNamespace None).
Proof.
  intros Hh nz. unfold begin_capture, begin_snapshot. rewrite Hh. split; [done|]. split; [|done].
  destruct (read_header_position _ _ _ Hh) as [Hpos Hrv]. split; [|done|done].
  split; cbn; [done|done|by rewrite Hpos|by left].
Qed.

(** A capture builds the same envelope whatever its page limit. *)
Lemma serialized {LogId StoredMembership} voters_from_str (pristine : StoredMembership) `{EqDecision StoredMembership}
    limit (captured : option LogId * StoredMembership) s header :
  (0 < limit <= MAX_SNAPSHOT_CAPTURE_PAGE)%nat -> readable s -> read_header voters_from_str s = Ok header ->
  serialize_from_backend voters_from_str pristine limit captured s
  = Ok (mkRaftSnapshot captured.1 captured.2 (db_rv s) (ch_command_codec_activation_version header)
          (Some (watch_seq (db_watch s)))
          (Some (clamp_floor (Position (db_rv s) (watch_seq (db_watch s)) 0) <$> all_floors s))
          (Some (ch_metadata header)) (raft_membership (ch_membership header)) (all_operations s)).
Proof.
  intros Hlimit Hread Hh. unfold serialize_from_backend, SnapshotPageLimit_try_new.
  destruct (Nat.eqb_spec limit 0); [lia|]. destruct (Nat.ltb_spec MAX_SNAPSHOT_CAPTURE_PAGE limit); [lia|].
  cbn [orb result_bind]. destruct (begin_joining voters_from_str limit s header Hh) as (-> & Hj & Hleft).
  rewrite (rest_start s Hread) in Hleft.
  destruct (drained s limit Hread Hlimit (S (row_count s)) _ Hj) as (pages & -> & Hpages & Hall).
  { rewrite Hleft, all_items_length. lia. }
  cbn [result_bind nz_inner ss_header]. destruct (read_header_position _ _ _ Hh) as [Hpos _].
  rewrite Hleft in Hpages. rewrite (encoded header captured pages Hall) by (rewrite Hpages; apply all_items_ordered).
  unfold rv_of. rewrite Hpages, Hpos. cbn [pos_resource_version pos_event_id].
  by rewrite all_items_operations, all_items_floors.
Qed.
