(* ===== verification/SnapshotSpec.v ===== *)
(** * A restored snapshot is the captured database

    The round trip of [SnapshotCapture] and [SnapshotRestore]: a database that
    meets the constraints of its schema ([capturable]) can be captured with any
    page limit, and the envelope restored over any database gives that database
    back ([replica_of]): the same resources, index rows, namespaces, watch
    history, replay floors, stream positions, cleanup intents, network rows,
    version counter and cluster metadata.

    Not carried are the row numbers, and not always the version a resource was
    created at and the answers of the ledger: [rp_created] and [rp_ledger] say what
    becomes of them. *)

From stdpp Require Import sorting.
From S2P Require Import Prelude Text Json Watch Apply KeyCodec LogApply ResourceShape NodeSubnets SqliteState CommittedApply Replay SnapshotCapture SnapshotRestore SnapshotPages.

Local Open Scope string_scope.
Local Open Scope rs_scope.

(** ** Tables restored row by row *)

Lemma list_to_map_sorted {K A} `{Countable K, KeyOrder K} (m : gmap K A) :
  list_to_map (sorted_rows m) = m.
Proof.
  rewrite <- (list_to_map_to_list m) at 2. apply list_to_map_proper; [|apply sorted_rows_perm].
  rewrite sorted_rows_perm. apply NoDup_fst_map_to_list.
Qed.

Lemma sorted_rows_fresh {K A} `{Countable K, KeyOrder K} (m : gmap K A) before e after :
  sorted_rows m = (before ++ e :: after)%list -> e.1 ∉ before.*1.
Proof.
  intros Hm. pose proof (NoDup_fst_map_to_list m) as Hnd. rewrite <- sorted_rows_perm, Hm, fmap_app in Hnd.
  apply NoDup_app in Hnd as (_ & Hdis & _). intros Hin. apply (Hdis e.1 Hin). by left.
Qed.

(** Equal up to the version counter. *)
Definition but_rv (x : SqliteState) : SqliteState := set_rv 0 x.

Lemma but_rv_advance rv x : but_rv (advance_metadata_rv_to_at_least_tx rv x) = but_rv x.
Proof. unfold advance_metadata_rv_to_at_least_tx. by destruct (_ <? _)%Z. Qed.

Lemma advance_resources rv x : db_resources (advance_metadata_rv_to_at_least_tx rv x) = db_resources x.
Proof. unfold advance_metadata_rv_to_at_least_tx. by destruct (_ <? _)%Z. Qed.

Lemma app_assoc3 {A} (a b c d : list A) : (a ++ b ++ c ++ d = (a ++ b ++ c) ++ d)%list.
Proof. by rewrite <- !(assoc_L (++)). Qed.

Section Parameters.

Context (parse_from_rfc3339 : string -> option Z).
Context (float_to_string : Z -> string).
Context (merge : Value -> Value -> Value).
Context (encode : StorageResponse -> result string string).
Context (decode : string -> result string StorageResponse).
Context (voters_from_str : string -> option (list string)).
Context (voters_to_string : list string -> string).

Abbreviation restore_operations := (SnapshotRestore.restore_operations parse_from_rfc3339 float_to_string merge encode decode).
Abbreviation apply_restore := (apply_snapshot_restore_operation_in_tx parse_from_rfc3339 float_to_string merge encode decode).
Abbreviation apply_mutation := (apply_cluster_mutation parse_from_rfc3339 float_to_string merge).

Lemma restore_operations_app rv l l' x :
  restore_operations rv false (l ++ l') x = (let? y := restore_operations rv false l x in restore_operations rv false l' y).
Proof.
  revert x. induction l as [|operation l IH]; intros x; [done|]. cbn [app SnapshotRestore.restore_operations].
  destruct (_ <=? _)%Z; [done|]. destruct (_ <? _)%Z; [done|].
  destruct (apply_restore operation false x) as [[y out]|]; [|done]. apply IH.
Qed.

(** A table restored row by row under an invariant of the rows done. *)
Lemma restore_table_from {R} (rv : Z) (op : R -> SnapshotRestoreOperation) (I : list R -> SqliteState -> Prop) (l before : list R) x :
  (forall b row a y, (before ++ l = b ++ row :: a)%list -> I b y ->
     (0 < sro_resource_version (op row) <= rv)%Z /\
     exists z out, apply_restore (op row) false y = Ok (z, out) /\ I (b ++ [row])%list z) ->
  I before x -> exists y, restore_operations rv false (op <$> l) x = Ok y /\ I (before ++ l)%list y.
Proof.
  revert before x. induction l as [|row l IH]; intros before x Hstep Hx.
  - exists x. by rewrite app_nil_r.
  - destruct (Hstep before row l x eq_refl Hx) as [[Hlo Hhi] (z & out & Ha & Hz)].
    cbn [fmap list_fmap SnapshotRestore.restore_operations]. destruct (Z.leb_spec (sro_resource_version (op row)) 0); [lia|].
    destruct (Z.ltb_spec rv (sro_resource_version (op row))); [lia|]. rewrite Ha. cbn [result_bind fst].
    destruct (IH (before ++ [row])%list z) as (y & Hy & HI).
    + intros b r a w Heq. apply (Hstep b r a w). by rewrite <- Heq, <- (assoc_L (++)).
    + done.
    + exists y. by rewrite <- (assoc_L (++)) in HI.
Qed.

Lemma restore_table {R} (rv : Z) (I : list R -> SqliteState -> Prop) (op : R -> SnapshotRestoreOperation) (l : list R) x :
  (forall b row a y, l = (b ++ row :: a)%list -> I b y ->
     (0 < sro_resource_version (op row) <= rv)%Z /\
     exists z out, apply_restore (op row) false y = Ok (z, out) /\ I (b ++ [row])%list z) ->
  I [] x -> exists y, restore_operations rv false (op <$> l) x = Ok y /\ I l y.
Proof. apply (restore_table_from rv op I l []). Qed.

(** One mutation of a snapshot. *)
Lemma restore_single rv mutation x y effects :
  (0 < rv)%Z -> match mutation with FinalizeBoundPod _ => False | _ => True end ->
  apply_mutation rv (to_cluster_mutation (stamp_mutation encode decode rv true mutation)) false (x, []) = Ok (y, effects) ->
  exists out, apply_restore (mkRestore rv None [mutation]) false x = Ok (advance_metadata_rv_to_at_least_tx rv y, out).
Proof.
  intros Hrv Hm Ha. unfold apply_snapshot_restore_operation_in_tx, apply_commit_in_tx_with_watch_events, from_snapshot.
  cbn [ac_resource_version sro_resource_version sro_mutations sro_outbox_watermark].
  destruct (Z.ltb_spec rv 0); [lia|].
  assert (Hres : resolve_bound_pod_finalizations_in_tx (mkApplyCommit rv None [mutation] true) x = mkApplyCommit rv None [mutation] true).
  { unfold resolve_bound_pod_finalizations_in_tx. cbn. by destruct mutation. }
  rewrite Hres. cbn [ac_outbox_watermark].
  change (outbox_watermark_decision_in_tx None x) with (@Ok DbError _ WApply).
  unfold resolve_noop_put_resources_in_tx. cbn [ac_preserve_historical_bytes result_bind andb].
  unfold stamp_provisional_resource_version_in_tx. cbn [ac_resource_version ac_mutations ac_preserve_historical_bytes].
  destruct (Z.eqb_spec rv 0); [lia|]. cbn [andb set_commit_rv set_mutations ac_outbox_watermark ac_mutations ac_resource_version fmap list_fmap].
  cbn [apply_mutations]. rewrite Ha. cbn [result_bind]. eauto.
Qed.

Lemma restore_watermark rv w x :
  (0 < rv)%Z -> (0 < wm_stream_seq w)%Z ->
  exists out, apply_restore (mkRestore rv (Some w) []) false x
              = Ok (advance_metadata_rv_to_at_least_tx rv (upsert_outbox_watermark_in_tx w x), out).
Proof.
  intros Hrv Hseq. unfold apply_snapshot_restore_operation_in_tx, apply_commit_in_tx_with_watch_events, from_snapshot.
  cbn [ac_resource_version sro_resource_version sro_mutations sro_outbox_watermark].
  destruct (Z.ltb_spec rv 0); [lia|].
  change (resolve_bound_pod_finalizations_in_tx (mkApplyCommit rv (Some w) [] true) x) with (mkApplyCommit rv (Some w) [] true).
  cbn [ac_outbox_watermark andb]. destruct (outbox_watermark_decision_in_tx (Some w) x) as [d|e] eqn:Hd.
  2:{ exfalso. revert Hd. unfold outbox_watermark_decision_in_tx, decide_position, decide_outbox_watermark.
      by destruct (Z.leb_spec (wm_stream_seq w) 0); [lia|]. }
  cbn [result_bind].
  assert (Hc : match d with WApply => resolve_noop_put_resources_in_tx parse_from_rfc3339 (mkApplyCommit rv (Some w) [] true) x
               | _ => Ok (mkApplyCommit rv (Some w) [] true) end = Ok (mkApplyCommit rv (Some w) [] true)) by by destruct d.
  rewrite Hc. cbn [result_bind]. unfold stamp_provisional_resource_version_in_tx. cbn [ac_resource_version ac_mutations].
  destruct (Z.eqb_spec rv 0); [lia|]. cbn. eauto.
Qed.

(** *** The plain tables *)

Lemma stamp_same rv : (0 < rv)%Z -> stamp_rv rv rv = rv.
Proof. intros Hrv. unfold stamp_rv. by destruct (Z.eqb_spec rv 0). Qed.

Lemma stamp_data_kept rv row_rv data av kd ns nm : stamp_data rv row_rv true data av kd ns nm = data.
Proof. unfold stamp_data. by rewrite andb_false_r. Qed.

Lemma list_to_map_next {K A} `{Countable K, KeyOrder K} (m : gmap K A) b e a :
  sorted_rows m = (b ++ e :: a)%list ->
  (list_to_map b : gmap K A) !! e.1 = None /\ list_to_map (b ++ [e]) =@{gmap K A} <[e.1 := e.2]> (list_to_map b).
Proof.
  intros Hm. apply sorted_rows_fresh in Hm. split; [by apply not_elem_of_list_to_map_1|]. destruct e. by apply list_to_map_snoc.
Qed.

Lemma sorted_rows_row {K A} `{Countable K, KeyOrder K} (m : gmap K A) b e a :
  sorted_rows m = (b ++ e :: a)%list -> m !! e.1 = Some e.2.
Proof. intros Hm. apply sorted_rows_lookup. rewrite Hm. apply elem_of_app. right. by left. Qed.

(** A keyed table of the database. *)
Record Table (K V : Type) `{Countable K} := mkTable {
  tb_get : SqliteState -> gmap K V;
  tb_set : gmap K V -> SqliteState -> SqliteState;
  tb_get_set : forall m x, tb_get (tb_set m x) = m;
  tb_set_get : forall x, tb_set (tb_get x) x = x;
  tb_set_set : forall m m' x, tb_set m (tb_set m' x) = tb_set m x;
  tb_rv : forall m x, but_rv (tb_set m x) = tb_set m (but_rv x);
  tb_get_rv : forall x, tb_get (but_rv x) = tb_get x
}.
#[local] Arguments mkTable {K V _ _}.
#[local] Arguments tb_get {K V _ _}.
#[local] Arguments tb_set {K V _ _}.

Ltac table_laws := try by intros; repeat match goal with x : SqliteState |- _ => destruct x end.

Program Definition namespaces_table := mkTable db_namespaces set_namespaces _ _ _ _ _.
Solve All Obligations with table_laws.
Program Definition subnets_table := mkTable db_subnets set_subnets _ _ _ _ _.
Solve All Obligations with table_laws.
Program Definition dataplane_table := mkTable db_dataplane set_dataplane _ _ _ _ _.
Solve All Obligations with table_laws.
Program Definition cleanup_table := mkTable db_cleanup set_cleanup _ _ _ _ _.
Solve All Obligations with table_laws.
Program Definition watermarks_table := mkTable db_watermarks set_watermarks _ _ _ _ _.
Solve All Obligations with table_laws.
Program Definition outbox_table := mkTable db_outbox set_outbox _ _ _ _ _.
Solve All Obligations with table_laws.

(** Every row of a table put back through its operation, as [conv] has it. *)
Lemma restore_keyed {K V} `{Countable K, KeyOrder K} (tb : Table K V) (conv : V -> V) (op : K * V -> SnapshotRestoreOperation)
    rv (m : gmap K V) x :
  tb_get tb x = ∅ ->
  (forall e rest y, m !! e.1 = Some e.2 -> rest ⊆ m -> rest !! e.1 = None -> tb_get tb y = conv <$> rest ->
     (0 < sro_resource_version (op e) <= rv)%Z /\
     exists out, apply_restore (op e) false y
       = Ok (advance_metadata_rv_to_at_least_tx (sro_resource_version (op e)) (tb_set tb (<[e.1 := conv e.2]> (conv <$> rest)) y), out)) ->
  exists y, restore_operations rv false (op <$> sorted_rows m) x = Ok y /\ but_rv y = but_rv (tb_set tb (conv <$> m) x).
Proof.
  intros Hx Hop.
  destruct (restore_table rv (fun b y => but_rv y = but_rv (tb_set tb (conv <$> list_to_map b) x)) op (sorted_rows m) x)
    as (y & Hr & Hy); [| |exists y; by rewrite Hr, Hy, list_to_map_sorted].
  - intros b e a y Heq Hy. destruct (list_to_map_next _ _ _ _ Heq) as [Hfresh Hnext].
    assert (Hget : tb_get tb y = conv <$> list_to_map b) by by rewrite <- tb_get_rv, Hy, tb_get_rv, tb_get_set.
    assert (Hsub : list_to_map b ⊆ m).
    { rewrite <- (list_to_map_sorted m), Heq, list_to_map_app. apply map_union_subseteq_l. }
    destruct (Hop e (list_to_map b) y (sorted_rows_row _ _ _ _ Heq) Hsub Hfresh Hget) as [Hrv [out Hout]].
    split; [done|]. eexists _, out. split; [exact Hout|].
    by rewrite but_rv_advance, Hnext, fmap_insert, !tb_rv, Hy, tb_rv, tb_set_set.
  - cbn [list_to_map foldr]. by rewrite fmap_empty, <- Hx, tb_set_get.
Qed.

Lemma restore_kept {K V} `{Countable K, KeyOrder K} (tb : Table K V) (op : K * V -> SnapshotRestoreOperation) rv (m : gmap K V) x :
  tb_get tb x = ∅ ->
  (forall e rest y, m !! e.1 = Some e.2 -> rest ⊆ m -> rest !! e.1 = None -> tb_get tb y = rest ->
     (0 < sro_resource_version (op e) <= rv)%Z /\
     exists out, apply_restore (op e) false y
       = Ok (advance_metadata_rv_to_at_least_tx (sro_resource_version (op e)) (tb_set tb (<[e.1 := e.2]> rest) y), out)) ->
  exists y, restore_operations rv false (op <$> sorted_rows m) x = Ok y /\ but_rv y = but_rv (tb_set tb m x).
Proof.
  intros Hx Hop. destruct (restore_keyed tb id op rv m x Hx) as (y & Hr & Hy).
  - intros e rest y. rewrite map_fmap_id. apply Hop.
  - exists y. by rewrite Hy, map_fmap_id.
Qed.

Lemma restore_namespaces rv m x :
  db_namespaces x = ∅ -> (forall name row, m !! name = Some row -> 0 < ns_resource_version row <= rv)%Z ->
  exists y, restore_operations rv false
              ((fun e => resource_snapshot_restore_operation (namespace_resource e)) <$> sorted_rows m) x = Ok y
            /\ but_rv y = but_rv (set_namespaces m x).
Proof.
  intros Hx Hm. apply (restore_kept namespaces_table); [done|].
  intros [name row] rest y He _ Hfresh Hy. specialize (Hm _ _ He). split; [done|].
  eapply (restore_single _ (PutNamespace _) y _ []); [cbn in *; lia|done|].
  cbn [stamp_mutation to_cluster_mutation apply_cluster_mutation namespace_resource nr_name nr_uid nr_resource_version nr_data
    r_name r_uid r_resource_version r_data sro_resource_version].
  cbn in Hy, Hm. rewrite stamp_same, stamp_data_kept, Z.eqb_refl by (cbn; lia). cbn [negb]. unfold put_namespace_row.
  cbn. rewrite Hy. cbn in Hfresh. rewrite Hfresh. cbn. by destruct row.
Qed.

Lemma restore_subnets rv m x :
  (0 < rv)%Z -> db_subnets x = ∅ -> (forall name row, m !! name = Some row -> sr_node_name row = name) ->
  (forall n n' r r', m !! n = Some r -> m !! n' = Some r' -> sr_subnet r = sr_subnet r' -> n = n') ->
  exists y, restore_operations rv false ((fun e => network_operation rv (NwPutNodeSubnet e.2)) <$> sorted_rows m) x = Ok y
            /\ but_rv y = but_rv (set_subnets m x).
Proof.
  intros Hrv Hx Hkey Hinj. apply (restore_kept subnets_table); [done|].
  intros [name row] rest y He Hsub Hfresh Hy. cbn in He, Hfresh, Hy. split; [cbn; lia|].
  eapply (restore_single _ (PutNodeSubnet row) y _ []); [cbn; lia|done|]. cbn.
  unfold put_node_subnet. rewrite Hy, (Hkey _ _ He). destruct (existsb _ _) eqn:Hex; [|done]. exfalso.
  apply existsb_exists in Hex as ([n r] & Hin%list_elem_of_In%elem_of_map_to_list & Hne). cbn in Hne. to_prop.
  apply (lookup_weaken _ m) in Hin; [|done]. eauto.
Qed.

Lemma restore_dataplane rv m x :
  (0 < rv)%Z -> db_dataplane x = ∅ -> (forall name row, m !! name = Some row -> dr_node_name row = name
    /\ (dr_mode row = "root" \/ dr_mode row = "rootless") /\ (dr_encryption row = "enabled" \/ dr_encryption row = "disabled")) ->
  exists y, restore_operations rv false ((fun e => network_operation rv (NwPutNodeDataplane e.2)) <$> sorted_rows m) x = Ok y
            /\ but_rv y = but_rv (set_dataplane m x).
Proof.
  intros Hrv Hx Hrow. apply (restore_kept dataplane_table); [done|].
  intros [name row] rest y He Hsub Hfresh Hy. cbn in He, Hfresh, Hy. split; [cbn; lia|].
  destruct (Hrow _ _ He) as (Hname & Hmode & Henc).
  eapply (restore_single _ (PutNodeDataplane row) y _ []); [cbn; lia|done|]. cbn. unfold put_node_dataplane.
  rewrite Hy, Hname. by destruct Hmode as [-> | ->], Henc as [-> | ->].
Qed.

Lemma restore_cleanup rv m x :
  db_cleanup x = ∅ -> (forall key row, m !! key = Some row -> 0 < ci_resource_version row <= rv)%Z ->
  exists y, restore_operations rv false (cleanup_operation <$> sorted_rows m) x = Ok y
            /\ but_rv y = but_rv (set_cleanup m x).
Proof.
  intros Hx Hm. apply (restore_kept cleanup_table); [done|].
  intros [[[[[node ns] pod] uid] reason] row] rest y He _ Hfresh Hy. specialize (Hm _ _ He).
  cbn in Hm, Hy. split; [done|]. eapply (restore_single _ (PutPodCleanupIntent _) y _ []); [cbn; lia|done|].
  cbn. rewrite stamp_same, Z.eqb_refl by lia. cbn. unfold put_pod_cleanup_intent. cbn. rewrite Hy. by destruct row.
Qed.

Lemma restore_watermarks rv m x :
  (0 < rv)%Z -> db_watermarks x = ∅ -> (forall key seq, m !! key = Some seq -> 0 < seq)%Z ->
  exists y, restore_operations rv false ((fun e => watermark_operation rv (watermark_row e)) <$> sorted_rows m) x = Ok y
            /\ but_rv y = but_rv (set_watermarks m x).
Proof.
  intros Hrv Hx Hm. apply (restore_kept watermarks_table); [done|].
  intros [[client stream] seq] rest y He _ Hfresh Hy. specialize (Hm _ _ He).
  cbn in Hm, Hy. split; [cbn; lia|].
  destruct (restore_watermark rv (mkWatermark client stream seq) y Hrv Hm) as [out Hout]. exists out.
  unfold watermark_operation, watermark_row. cbn. rewrite Hout. cbn. unfold upsert_outbox_watermark_in_tx. by rewrite Hy.
Qed.

Lemma restore_outbox rv m x :
  (0 < rv)%Z -> db_outbox x = ∅ -> (forall key row, m !! key = Some row -> or_idempotency_key row = key) ->
  exists y, restore_operations rv false ((fun e => outbox_operation rv e.2) <$> sorted_rows m) x = Ok y
            /\ but_rv y = but_rv (set_outbox (stamp_outbox_row encode decode rv <$> m) x).
Proof.
  intros Hrv Hx Hm. apply (restore_keyed outbox_table); [done|].
  intros [key row] rest y He _ Hfresh Hy. specialize (Hm _ _ He). cbn in Hm, Hy. split; [cbn; lia|].
  eapply (restore_single _ (PutAppliedOutbox row) y _ []); [cbn; lia|done|]. cbn. unfold put_applied_outbox.
  rewrite Hy. cbn. by rewrite Hm.
Qed.

(** *** Resources *)

(** A row without its number, and a row as it is when it has just been created. *)
Definition numberless (row : ResRow) : ResRow :=
  mkResRow 0 (rw_uid row) (rw_resource_version row) (rw_created_rv row) (rw_data row).
Definition newborn (row : ResRow) : ResRow :=
  mkResRow 0 (rw_uid row) (rw_resource_version row) (rw_resource_version row) (rw_data row).

Definition restored_row (r : Resource) : LogApplyResourceRow :=
  mkResourceRow (r_api_version r) (r_kind r) (r_namespace r) (r_name r) (r_uid r) (r_resource_version r) (r_data r)
    false false None None false.

Lemma restore_resource r x :
  (0 < r_resource_version r)%Z -> (r_api_version r =?s "v1") && (r_kind r =?s "Namespace") && opt_is_none (r_namespace r) = false ->
  let i := resource_identity (r_api_version r) (r_kind r) (r_namespace r) (r_name r) in
  get_existing_resource i (db_resources x) = None ->
  exists out, apply_restore (resource_snapshot_restore_operation r) false x
    = Ok (advance_metadata_rv_to_at_least_tx (r_resource_version r)
            (write_resource float_to_string i (r_uid r) (r_resource_version r) (r_data r) x), out).
Proof.
  intros Hrv Hns i Hnone. unfold resource_snapshot_restore_operation. rewrite Hns.
  apply (restore_single _ (PutResource (restored_row r)) x _ []); [done|done|].
  cbn [stamp_mutation restored_row to_cluster_mutation apply_cluster_mutation rr_resource_version rr_data].
  rewrite stamp_same, stamp_data_kept, Z.eqb_refl by done. cbn [negb]. unfold apply_put_resource, row_identity.
  cbn [restored_row rr_api_version rr_kind rr_namespace rr_name]. unfold i in Hnone. rewrite Hnone. done.
Qed.

Lemma upsert_row_fresh {K} `{Countable K} (key : K) uid rv data (rows : gmap K ResRow) :
  rows !! key = None ->
  numberless <$> upsert_row key uid rv data rows = <[key := mkResRow 0 uid rv rv data]> (numberless <$> rows).
Proof. intros Hnone. unfold upsert_row. by rewrite Hnone, fmap_insert. Qed.

Lemma fmap_lookup_none {K A B} `{Countable K} (f g : A -> B) (m m' : gmap K A) k :
  f <$> m = g <$> m' -> m' !! k = None -> m !! k = None.
Proof.
  intros Heq Hnone. apply (f_equal (fun t => t !! k)) in Heq. rewrite !lookup_fmap, Hnone in Heq. by destruct (m !! k).
Qed.

Lemma restore_cluster (rv : Z) (m : gmap ClusterKey ResRow) (x : SqliteState) :
  cluster_resources (db_resources x) = ∅ -> index_ok float_to_string (db_resources x) ->
  (forall av kd nm row, m !! (av, kd, nm) = Some row ->
     (0 < rw_resource_version row <= rv)%Z /\ use_namespaced_table av kd None = false /\ ~ (av = "v1" /\ kd = "Namespace")) ->
  exists y, restore_operations rv false
      ((fun e => resource_snapshot_restore_operation (cluster_resource e)) <$> sorted_rows m) x = Ok y
    /\ but_rv y = but_rv (set_resources (db_resources y) x)
    /\ numberless <$> cluster_resources (db_resources y) = newborn <$> m
    /\ namespaced_resources (db_resources y) = namespaced_resources (db_resources x)
    /\ index_ok float_to_string (db_resources y).
Proof.
  intros Hx Hidx Hm.
  destruct (restore_table rv (fun b y => but_rv y = but_rv (set_resources (db_resources y) x)
      /\ numberless <$> cluster_resources (db_resources y) = newborn <$> list_to_map b
      /\ namespaced_resources (db_resources y) = namespaced_resources (db_resources x)
      /\ index_ok float_to_string (db_resources y))
    (fun e => resource_snapshot_restore_operation (cluster_resource e)) (sorted_rows m) x)
    as (y & Hr & Hy); [| |exists y; by rewrite list_to_map_sorted in Hy].
  2:{ rewrite Hx. cbn [list_to_map foldr]. rewrite !fmap_empty. by destruct x. }
  intros b [[[av kd] nm] row] a y Heq (Hy & Htab & Hother & Hok). destruct (list_to_map_next _ _ _ _ Heq) as [Hfresh Hnext].
  destruct (Hm _ _ _ _ (sorted_rows_row _ _ _ _ Heq)) as (Hrv & Hscope & Hns). cbn [fst snd] in *.
  split; [unfold resource_snapshot_restore_operation; by destruct (_ && _)|].
  set (r := cluster_resource (av, kd, nm, row)).
  assert (Hi : resource_identity (r_api_version r) (r_kind r) (r_namespace r) (r_name r) = mkIdentity av kd ClusterScope nm).
  { unfold resource_identity. cbn. by rewrite Hscope. }
  destruct (restore_resource r y) as [out Hout].
  { cbn. lia. }
  { cbn. apply not_true_iff_false. intros H. apply Hns. by to_prop. }
  { rewrite Hi. cbn. by eapply fmap_lookup_none. }
  rewrite Hi in Hout. eexists _, out. split; [exact Hout|].
  rewrite but_rv_advance, !advance_resources. split_and!.
  - unfold write_resource. change (but_rv (set_resources ?t y)) with (set_resources t (but_rv y)). by rewrite Hy.
  - rewrite Hnext, fmap_insert, <- Htab. apply upsert_row_fresh. by eapply fmap_lookup_none.
  - done.
  - by apply index_ok_write.
Qed.

Lemma restore_namespaced (rv : Z) (m : gmap NsKey ResRow) (x : SqliteState) :
  namespaced_resources (db_resources x) = ∅ -> index_ok float_to_string (db_resources x) ->
  (forall av kd ns nm row, m !! (av, kd, ns, nm) = Some row ->
     (0 < rw_resource_version row <= rv)%Z /\ use_namespaced_table av kd (Some ns) = true /\ ns <> "") ->
  exists y, restore_operations rv false
      ((fun e => resource_snapshot_restore_operation (namespaced_resource e)) <$> sorted_rows m) x = Ok y
    /\ but_rv y = but_rv (set_resources (db_resources y) x)
    /\ numberless <$> namespaced_resources (db_resources y) = newborn <$> m
    /\ cluster_resources (db_resources y) = cluster_resources (db_resources x)
    /\ index_ok float_to_string (db_resources y).
Proof.
  intros Hx Hidx Hm.
  destruct (restore_table rv (fun b y => but_rv y = but_rv (set_resources (db_resources y) x)
      /\ numberless <$> namespaced_resources (db_resources y) = newborn <$> list_to_map b
      /\ cluster_resources (db_resources y) = cluster_resources (db_resources x)
      /\ index_ok float_to_string (db_resources y))
    (fun e => resource_snapshot_restore_operation (namespaced_resource e)) (sorted_rows m) x)
    as (y & Hr & Hy); [| |exists y; by rewrite list_to_map_sorted in Hy].
  2:{ rewrite Hx. cbn [list_to_map foldr]. rewrite !fmap_empty. by destruct x. }
  intros b [[[[av kd] ns] nm] row] a y Heq (Hy & Htab & Hother & Hok). destruct (list_to_map_next _ _ _ _ Heq) as [Hfresh Hnext].
  destruct (Hm _ _ _ _ _ (sorted_rows_row _ _ _ _ Heq)) as (Hrv & Hscope & Hns). cbn [fst snd] in *.
  split; [unfold resource_snapshot_restore_operation; by destruct (_ && _)|].
  set (r := namespaced_resource (av, kd, ns, nm, row)).
  assert (Hi : resource_identity (r_api_version r) (r_kind r) (r_namespace r) (r_name r) = mkIdentity av kd (Namespaced ns) nm).
  { unfold resource_identity. cbn [r namespaced_resource fst r_api_version r_kind r_namespace r_name unwrap_or]. by rewrite Hscope. }
  destruct (restore_resource r y) as [out Hout].
  { cbn. lia. }
  { cbn. by rewrite andb_false_r. }
  { rewrite Hi. cbn. by eapply fmap_lookup_none. }
  rewrite Hi in Hout. eexists _, out. split; [exact Hout|]. rewrite but_rv_advance, !advance_resources. split_and!.
  - unfold write_resource. change (but_rv (set_resources ?t y)) with (set_resources t (but_rv y)). by rewrite Hy.
  - rewrite Hnext, fmap_insert, <- Htab. apply upsert_row_fresh. by eapply fmap_lookup_none.
  - done.
  - by apply index_ok_write.
Qed.

(** *** The watch history *)

(** The unique index on identity and version. *)
Definition distinct_events (events : list (Z * EventRow)) : Prop :=
  forall b e a e', events = (b ++ e :: a)%list -> e' ∈ b -> same_identity_rv e.2 e'.2 = false.

Lemma insert_event_last id row (events : list (Z * EventRow)) :
  Forall (fun e => e.1 < id)%Z events -> insert_event id row events = (events ++ [(id, row)])%list.
Proof.
  induction 1 as [|[id' row'] events Hid _ IH]; [done|]. cbn in *. destruct (Z.ltb_spec id id'); [lia|]. by f_equal.
Qed.

Lemma row_lt_id (a b : Z * EventRow) : row_lt a b <-> (a.1 < b.1)%Z.
Proof.
  unfold row_lt, key_ltb, key_cmp, Z_key_cmp. rewrite <- Z.compare_lt_iff. by destruct (a.1 ?= b.1)%Z.
Qed.

Lemma restore_events rv events (x : SqliteState) :
  watch_events (db_watch x) = [] -> StronglySorted row_lt events ->
  Forall (fun e => 0 < e.1 <= i64_max /\ 0 < ev_resource_version e.2 <= rv)%Z events -> distinct_events events ->
  exists y seq, restore_operations rv false (event_operation <$> events) x = Ok y
    /\ but_rv y = but_rv (set_watch (mkWatchTables events seq (watch_replay_floors (db_watch x))) x).
Proof.
  intros Hx Hsort Hall Hdist.
  destruct (restore_table rv (fun b y => exists seq,
      but_rv y = but_rv (set_watch (mkWatchTables b seq (watch_replay_floors (db_watch x))) x)) event_operation events x)
    as (y & Hr & seq & Hy); [| |by exists y, seq].
  2:{ exists (watch_seq (db_watch x)). rewrite <- Hx. by destruct x as [? ? [] ? ? ? ? ? ? ?]. }
  intros b [id row] a y Heq [seq Hy].
  assert (He : (id, row) ∈ events) by (rewrite Heq; apply elem_of_app; right; by left).
  rewrite Forall_forall in Hall. destruct (Hall _ He) as [Hid Hrv]. cbn in Hid, Hrv. split; [done|].
  assert (Hw : db_watch y = mkWatchTables b seq (watch_replay_floors (db_watch x)))
    by (change (db_watch (but_rv y) = mkWatchTables b seq (watch_replay_floors (db_watch x))); by rewrite Hy).
  assert (Hb : Forall (fun e => e.1 < id)%Z b).
  { rewrite Heq in Hsort. apply StronglySorted_app in Hsort as (Hlt & _). apply Forall_forall. intros e Hin.
    apply (row_lt_id e (id, row)), Hlt; [done|]. by left. }
  edestruct (restore_single (ev_resource_version row) (PutWatchEvent (mkWatchEventRow (Some id) (ev_api_version row) (ev_kind row)
    (ev_namespace row) (ev_name row) (ev_resource_version row) (ev_type row) (ev_data row))) y) as [out Hout];
    [lia|done| |eexists _, out; split; [exact Hout|]].
  - cbn [stamp_mutation to_cluster_mutation apply_cluster_mutation wr_event_id wr_api_version wr_kind wr_namespace wr_name
      wr_resource_version wr_event_type wr_data]. rewrite stamp_same, stamp_data_kept by lia.
    unfold apply_put_watch_event, insert_watch_event_in_conn. rewrite Hw.
    cbn [wr_event_id wr_api_version wr_kind wr_namespace wr_name wr_resource_version wr_event_type wr_data
      ev_api_version ev_kind ev_namespace ev_name ev_resource_version ev_type ev_data].
    unfold insert_event_row. cbn [unwrap_or watch_events watch_seq watch_replay_floors].
    destruct (Z.ltb_spec i64_max id); [lia|]. destruct (existsb _ b) eqn:Hex.
    { exfalso. apply existsb_exists in Hex as (e & Hin%list_elem_of_In & Heid%Z.eqb_eq).
      apply (proj1 (Forall_forall _ _) Hb) in Hin. lia. }
    destruct (List.find _ b) as [[id' row']|] eqn:Hf.
    { exfalso. apply List.find_some in Hf as [Hin%list_elem_of_In Hsame]. cbn in Hsame.
      pose proof (Hdist b (id, row) a (id', row') Heq Hin) as Hno. unfold same_identity_rv in Hsame, Hno. cbn in Hsame, Hno. congruence. }
    cbn [result_bind]. done.
  - exists (Z.max seq id). rewrite but_rv_advance, insert_event_last by done. cbn [fst].
    change (but_rv (set_watch ?t y)) with (set_watch t (but_rv y)). rewrite Hy. by destruct row.
Qed.

(** ** The envelope is accepted *)

Record capturable (s : SqliteState) : Prop := {
  ca_readable : readable s;
  ca_header : exists header, read_header voters_from_str s = Ok header;
  ca_rv : (0 < db_rv s)%Z;
  ca_seq : (watch_seq (db_watch s) <= i64_max)%Z;
  ca_namespaces : forall name row, db_namespaces s !! name = Some row -> (0 < ns_resource_version row <= db_rv s)%Z;
  ca_cluster : forall av kd nm row, cluster_resources (db_resources s) !! (av, kd, nm) = Some row ->
    (0 < rw_resource_version row <= db_rv s)%Z /\ use_namespaced_table av kd None = false /\ ~ (av = "v1" /\ kd = "Namespace");
  ca_namespaced : forall av kd ns nm row, namespaced_resources (db_resources s) !! (av, kd, ns, nm) = Some row ->
    (0 < rw_resource_version row <= db_rv s)%Z /\ use_namespaced_table av kd (Some ns) = true;
  ca_index : index_ok float_to_string (db_resources s);
  ca_events : Forall (fun e => 0 < ev_resource_version e.2 <= db_rv s)%Z (watch_events (db_watch s));
  ca_distinct : distinct_events (watch_events (db_watch s));
  ca_subnets : forall name row, db_subnets s !! name = Some row -> sr_node_name row = name;
  ca_subnets_unique : forall n n' r r', db_subnets s !! n = Some r -> db_subnets s !! n' = Some r' ->
    sr_subnet r = sr_subnet r' -> n = n';
  ca_dataplane : forall name row, db_dataplane s !! name = Some row -> dr_node_name row = name
    /\ (dr_mode row = "root" \/ dr_mode row = "rootless") /\ (dr_encryption row = "enabled" \/ dr_encryption row = "disabled");
  ca_cleanup : forall key row, db_cleanup s !! key = Some row -> (0 < ci_resource_version row <= db_rv s)%Z;
  ca_watermarks : forall key seq, db_watermarks s !! key = Some seq -> (0 < seq)%Z;
  ca_outbox : forall key row, db_outbox s !! key = Some row -> or_idempotency_key row = key;
  ca_floors : forall key row, watch_replay_floors (db_watch s) !! key = Some row ->
    (fl_rv row <= db_rv s)%Z /\ (fl_position_exact row = true -> fl_event_id row <= watch_seq (db_watch s))%Z
}.

Lemma header_valid s header :
  read_header voters_from_str s = Ok header ->
  codec_not_v3 (ch_command_codec_activation_version header) = false
  /\ validate_snapshot_metadata (ch_metadata header) (ch_membership header) = Ok tt
  /\ (0 <= db_rv s /\ 0 <= watch_seq (db_watch s))%Z.
Proof.
  unfold read_header.
  repeat match goal with |- (let? _ := ?r in _) = _ -> _ => destruct r; [|done]; cbn [result_bind] end.
  intros Hnew%map_err_ok. revert Hnew. unfold SnapshotCaptureHeader_try_new. destruct (codec_not_v3 _) eqn:Hc; [done|].
  destruct (map_err _ _) eqn:Hp; [|done]. cbn [result_bind]. destruct (validate_snapshot_metadata _ _) as [[]|] eqn:Hv; [|done].
  cbn [result_bind]. destruct (negb _); [done|]. intros [= <-]. split; [done|]. split; [done|].
  revert Hp. unfold validate_replay_position, validate_exact, validate. cbn.
  destruct (Z.ltb_spec (db_rv s) 0); [done|]. destruct (Z.ltb_spec (watch_seq (db_watch s)) 0); [done|]. lia.
Qed.

Lemma snapshot_membership_back membership : snapshot_membership (raft_membership membership) = membership.
Proof. by destruct membership. Qed.

(** Operations without watch rows. *)
Definition eventless (operation : SnapshotRestoreOperation) : Prop :=
  existsb is_put_watch_event (sro_mutations operation) = false.

Lemma validate_events_none position mutations seen :
  existsb is_put_watch_event mutations = false -> validate_events position mutations seen = Ok seen.
Proof. revert seen. induction mutations as [|[] mutations IH]; intros seen; cbn; try done; apply IH. Qed.

Lemma validate_eventless rv position l l' seen :
  Forall (fun operation => 0 < sro_resource_version operation <= rv /\ eventless operation)%Z l ->
  validate_operations rv position (l ++ l') seen = validate_operations rv position l' seen.
Proof.
  induction 1 as [|operation l [Hrv Hev] _ IH]; [done|]. cbn [app validate_operations].
  destruct (Z.leb_spec (sro_resource_version operation) 0); [lia|]. destruct (Z.ltb_spec rv (sro_resource_version operation)); [lia|].
  cbn [orb]. rewrite validate_events_none by done. apply IH.
Qed.

Lemma validate_history rv high events l' seen :
  StronglySorted row_lt events -> Forall (fun e => 0 < e.1 <= high /\ 0 < ev_resource_version e.2 <= rv)%Z events ->
  (forall id e, id ∈ seen -> e ∈ events -> id < e.1)%Z ->
  exists seen', validate_operations rv (Some (Position rv high 0)) ((event_operation <$> events) ++ l') seen
                = validate_operations rv (Some (Position rv high 0)) l' seen'.
Proof.
  intros Hs. revert seen. induction Hs as [|[id row] events Hs IH Hlt]; intros seen Hall Hseen; [by exists seen|].
  apply Forall_cons in Hall as [[Hid Hrv] Hall]. cbn in Hid, Hrv. cbn [fmap list_fmap app validate_operations].
  cbn [event_operation snapshot_operation sro_resource_version sro_mutations fst snd].
  destruct (Z.leb_spec (ev_resource_version row) 0); [lia|]. destruct (Z.ltb_spec rv (ev_resource_version row)); [lia|].
  cbn [orb fmap list_fmap watch_event_mutation into_log_apply_mutation validate_events wr_event_id is_some_and pos_event_id].
  destruct (Z.leb_spec id 0); [lia|]. destruct (Z.ltb_spec high id); [lia|]. cbn [orb].
  destruct (existsb (Z.eqb id) seen) eqn:Hex.
  { exfalso. apply existsb_exists in Hex as (id' & Hin%list_elem_of_In & ->%Z.eqb_eq).
    specialize (Hseen id' (id', row) Hin (list_elem_of_here _ _)). cbn in Hseen. lia. }
  cbn [result_bind]. apply IH; [done|]. intros id' e Hin He. apply elem_of_cons in Hin as [->|Hin].
  - by apply (row_lt_id (id, row)), (proj1 (Forall_forall _ _) Hlt).
  - apply (Hseen id' e); [done|]. by right.
Qed.

Lemma rows_forall {K A} `{Countable K, KeyOrder K} (m : gmap K A) (op : K * A -> SnapshotRestoreOperation) (P : SnapshotRestoreOperation -> Prop) :
  (forall k a, m !! k = Some a -> P (op (k, a))) -> Forall P (op <$> sorted_rows m).
Proof.
  intros HP. apply Forall_fmap, Forall_forall. intros [k a] He%sorted_rows_lookup. by apply HP.
Qed.

Lemma resource_operation_ok r rv :
  (0 < r_resource_version r <= rv)%Z ->
  (0 < sro_resource_version (resource_snapshot_restore_operation r) <= rv)%Z /\ eventless (resource_snapshot_restore_operation r).
Proof. intros Hrv. unfold resource_snapshot_restore_operation, eventless. by destruct (_ && _). Qed.

Lemma operations_valid s :
  capturable s ->
  validate_operations (db_rv s) (Some (Position (db_rv s) (watch_seq (db_watch s)) 0)) (all_operations s) [] = Ok tt.
Proof.
  intros Hs. pose proof (ca_rv s Hs) as Hpos. unfold all_operations.
  rewrite validate_eventless.
  2:{ apply rows_forall. intros name row Hrow. apply resource_operation_ok. by apply (ca_namespaces s Hs name). }
  rewrite validate_eventless.
  2:{ apply rows_forall. intros [[av kd] nm] row Hrow. apply resource_operation_ok. by apply (ca_cluster s Hs av kd nm). }
  rewrite validate_eventless.
  2:{ apply rows_forall. intros [[[av kd] ns] nm] row Hrow. apply resource_operation_ok. by apply (ca_namespaced s Hs av kd ns nm). }
  destruct (validate_history (db_rv s) (watch_seq (db_watch s)) (watch_events (db_watch s))
    (network_operations s ++ (cleanup_operation <$> sorted_rows (db_cleanup s)) ++ ledger_operations s) [])
    as [seen ->]; [apply (rd_event_order s (ca_readable s Hs))| |by intros id e Hin%not_elem_of_nil|].
  { pose proof (rd_event_ids s (ca_readable s Hs)) as Hids. pose proof (ca_events s Hs) as Hev. rewrite !Forall_forall in *. eauto. }
  rewrite <- (app_nil_r (_ ++ _ ++ _)). rewrite validate_eventless; [done|].
  unfold network_operations, ledger_operations.
  repeat (apply Forall_app; split); apply rows_forall.
  - intros k a _. by split; [cbn; lia|].
  - intros k a _. by split; [cbn; lia|].
  - intros [[[[node ns] pod] uid] reason] row Hrow. apply (ca_cleanup s Hs) in Hrow. by split.
  - intros k a _. by split; [cbn; lia|].
  - intros k a _. by split; [cbn; lia|].
Qed.

Lemma floor_new_ok target rv id exact floor :
  DurableReplayFloor_new target rv id exact = Ok floor -> (0 <= rv)%Z /\ (0 <= id)%Z.
Proof.
  unfold DurableReplayFloor_new. destruct (validate_replay_target target); [|done]. cbn [result_bind].
  destruct (Z.ltb_spec rv 0); [done|]. destruct (Z.ltb_spec id 0); [done|]. done.
Qed.

Lemma floor_clamped s key row :
  capturable s -> watch_replay_floors (db_watch s) !! key = Some row ->
  let '(av, kd, ns) := key in
  clamp_floor (Position (db_rv s) (watch_seq (db_watch s)) 0) (floor_value (key, row))
  = mkRaftFloor av kd ns (fl_rv row) (fl_event_id row) (fl_position_exact row).
Proof.
  intros Hs Hrow. destruct (ca_floors s Hs key row Hrow) as [Hrv Hid]. destruct key as [[av kd] ns].
  unfold clamp_floor, floor_value, DurableReplayFloor_into_parts. cbn [floor_boundary floor_target fst snd].
  pose proof (floor_key_target (av, kd, ns)) as Hk. destruct row as [rv id []];
    cbn [fl_rv fl_event_id fl_position_exact pos_event_id pos_resource_version andb] in *.
  - destruct (Z.ltb_spec (watch_seq (db_watch s)) id); [specialize (Hid eq_refl); lia|]. by rewrite Hk, Z.min_l.
  - by rewrite Hk, Z.min_l.
Qed.

Lemma floors_back s :
  capturable s ->
  collect_rows raft_floor (clamp_floor (Position (db_rv s) (watch_seq (db_watch s)) 0) <$> all_floors s) = Ok (all_floors s).
Proof.
  intros Hs. unfold all_floors. rewrite <- list_fmap_compose.
  assert (Hrows : forall e, e ∈ sorted_rows (watch_replay_floors (db_watch s)) ->
    raft_floor (clamp_floor (Position (db_rv s) (watch_seq (db_watch s)) 0) (floor_value e)) = Ok (floor_value e)).
  { intros [[[av kd] ns] row] He%sorted_rows_lookup. pose proof (floor_clamped s _ _ Hs He) as Hc. cbn beta iota in Hc.
    cbn [fst snd] in Hc, He. rewrite Hc. unfold raft_floor. cbn.
    by apply (rd_floors s (ca_readable s Hs)) in He. }
  induction (sorted_rows (watch_replay_floors (db_watch s))) as [|e l IH]; [done|]. cbn [fmap list_fmap collect_rows].
  unfold compose at 1. rewrite Hrows by by left. cbn [result_bind]. rewrite IH by (intros e' He'; apply Hrows; by right). done.
Qed.

Lemma floor_target_inj (k k' : ClusterKey) : floor_target_of k = floor_target_of k' -> k = k'.
Proof. intros Heq. by rewrite <- (floor_key_target k), Heq, floor_key_target. Qed.

Lemma validate_floors_ok rv high floors seen :
  NoDup (floor_target <$> floors) -> (forall t, t ∈ seen -> t ∉ floor_target <$> floors) ->
  Forall (fun f => floor_resource_version f <= rv /\ (floor_is_exact f = true -> floor_event_id f <= high))%Z floors ->
  validate_floors rv (Some (Position rv high 0)) floors seen = Ok tt.
Proof.
  intros Hnd Hseen Hall. revert seen Hnd Hseen. induction Hall as [|f floors [Hrv Hid] _ IH]; intros seen Hnd Hseen; [done|].
  cbn [fmap list_fmap] in Hnd, Hseen. apply NoDup_cons in Hnd as [Hnin Hnd]. cbn [validate_floors].
  rewrite bool_decide_false by (intros Hin; apply (Hseen _ Hin); by left).
  destruct (Z.ltb_spec rv (floor_resource_version f)); [lia|]. destruct (floor_is_exact f).
  - cbn [pos_event_id]. destruct (Z.ltb_spec high (floor_event_id f)); [specialize (Hid eq_refl); lia|]. cbn [result_bind].
    apply IH; [done|]. intros t [->|Hin]%elem_of_cons; [done|]. intros Hin'. apply (Hseen _ Hin). by right.
  - cbn [result_bind]. apply IH; [done|]. intros t [->|Hin]%elem_of_cons; [done|]. intros Hin'. apply (Hseen _ Hin). by right.
Qed.

Lemma floors_valid s :
  capturable s ->
  validate_floors (db_rv s) (Some (Position (db_rv s) (watch_seq (db_watch s)) 0)) (all_floors s) [] = Ok tt.
Proof.
  intros Hs. unfold all_floors. apply validate_floors_ok.
  - rewrite <- list_fmap_compose. change (floor_target ∘ floor_value) with (floor_target_of ∘ @fst ClusterKey FloorRow).
    rewrite list_fmap_compose. apply NoDup_fmap_2_strong; [intros k k' _ _; apply floor_target_inj|].
    rewrite sorted_rows_perm. apply NoDup_fst_map_to_list.
  - by intros t Hin%not_elem_of_nil.
  - apply Forall_fmap, Forall_forall. intros [key row] He%sorted_rows_lookup. apply (ca_floors s Hs) in He.
    unfold floor_value, floor_resource_version, floor_event_id, floor_is_exact. cbn. by destruct row as [rv id []].
Qed.

Lemma envelope_accepted {LogId StoredMembership} (captured : option LogId * StoredMembership) s header :
  capturable s -> read_header voters_from_str s = Ok header ->
  into_authoritative_snapshot
    (mkRaftSnapshot captured.1 captured.2 (db_rv s) (ch_command_codec_activation_version header)
       (Some (watch_seq (db_watch s)))
       (Some (clamp_floor (Position (db_rv s) (watch_seq (db_watch s)) 0) <$> all_floors s))
       (Some (ch_metadata header)) (raft_membership (ch_membership header)) (all_operations s))
  = Ok (mkAuthoritative (all_operations s) (db_rv s) (Some (Position (db_rv s) (watch_seq (db_watch s)) 0)) (Some (all_floors s))
          (Some (ch_metadata header)) (ch_membership header) (ch_command_codec_activation_version header)).
Proof.
  intros Hs Hh. destruct (header_valid s header Hh) as (Hcodec & Hmeta & Hrv & Hseq).
  destruct (read_header_position _ _ _ Hh) as [_ Hmrv]. unfold into_authoritative_snapshot. cbn.
  rewrite floors_back by done. cbn [result_bind]. unfold try_new_restore_envelope, validate_snapshot. cbn.
  destruct (Z.ltb_spec (db_rv s) 0); [lia|]. rewrite Hcodec, snapshot_membership_back, Hmeta. cbn [result_bind].
  rewrite Hmrv, Z.eqb_refl. cbn [negb result_bind]. destruct (Z.ltb_spec (watch_seq (db_watch s)) 0); [lia|]. cbn [orb negb result_bind].
  by rewrite operations_valid, floors_valid.
Qed.

(** ** The operations rebuild the tables *)

Lemma step_from rv l l' x y :
  restore_operations rv false l x = Ok y ->
  restore_operations rv false (l ++ l') x = restore_operations rv false l' y.
Proof. intros Hl. by rewrite restore_operations_app, Hl. Qed.

(** The tables before the history. *)
Lemma resources_rebuild s t :
  capturable s ->
  exists y, restore_operations (db_rv s) false
      (((fun e => resource_snapshot_restore_operation (namespace_resource e)) <$> sorted_rows (db_namespaces s))
       ++ ((fun e => resource_snapshot_restore_operation (cluster_resource e)) <$> sorted_rows (cluster_resources (db_resources s)))
       ++ ((fun e => resource_snapshot_restore_operation (namespaced_resource e)) <$> sorted_rows (namespaced_resources (db_resources s))))
      (clear_replicated t) = Ok y
    /\ but_rv y = mkDb (db_resources y) (db_namespaces s) (mkWatchTables [] 0 ∅) ∅ ∅ ∅ ∅ ∅ (db_meta t) 0
    /\ numberless <$> cluster_resources (db_resources y) = newborn <$> cluster_resources (db_resources s)
    /\ numberless <$> namespaced_resources (db_resources y) = newborn <$> namespaced_resources (db_resources s)
    /\ index_ok float_to_string (db_resources y).
Proof.
  intros Hs. set (x := clear_replicated t).
  destruct (restore_namespaces (db_rv s) (db_namespaces s) x) as (y1 & H1 & E1); [done|apply (ca_namespaces s Hs)|].
  assert (R1 : db_resources y1 = mkResTables ∅ ∅ ∅ ∅ ∅) by (change (db_resources (but_rv y1) = mkResTables ∅ ∅ ∅ ∅ ∅); by rewrite E1).
  destruct (restore_cluster (db_rv s) (cluster_resources (db_resources s)) y1) as (y2 & H2 & E2 & C2 & N2 & I2).
  { by rewrite R1. } { rewrite R1. apply index_ok_empty. } { apply (ca_cluster s Hs). }
  destruct (restore_namespaced (db_rv s) (namespaced_resources (db_resources s)) y2) as (y3 & H3 & E3 & C3 & N3 & I3).
  { by rewrite N2, R1. } { done. }
  { intros av kd ns nm row Hrow. destruct (ca_namespaced s Hs _ _ _ _ _ Hrow). split; [done|]. split; [done|].
    intros ->. by rewrite (namespaces_named _ _ (ca_index s Hs)) in Hrow. }
  exists y3. rewrite (step_from _ _ _ _ _ H1), (step_from _ _ _ _ _ H2). split; [done|]. split_and!; [|by rewrite N3|done|done].
  change (but_rv (set_resources ?r ?y)) with (set_resources r (but_rv y)) in E3, E2. rewrite E3, E2, E1. done.
Qed.

Lemma operations_rebuild s t :
  capturable s ->
  exists y seq, restore_operations (db_rv s) false (all_operations s) (clear_replicated t) = Ok y
    /\ but_rv y = mkDb (db_resources y) (db_namespaces s) (mkWatchTables (watch_events (db_watch s)) seq ∅)
                    (stamp_outbox_row encode decode (db_rv s) <$> db_outbox s) (db_watermarks s) (db_cleanup s)
                    (db_subnets s) (db_dataplane s) (db_meta t) 0
    /\ numberless <$> cluster_resources (db_resources y) = newborn <$> cluster_resources (db_resources s)
    /\ numberless <$> namespaced_resources (db_resources y) = newborn <$> namespaced_resources (db_resources s)
    /\ index_ok float_to_string (db_resources y).
Proof.
  intros Hs. pose proof (ca_rv s Hs) as Hpos.
  destruct (resources_rebuild s t Hs) as (y3 & H3 & E3 & C3 & N3 & I3).
  destruct (restore_events (db_rv s) (watch_events (db_watch s)) y3) as (y4 & seq & H4 & E4).
  { change (watch_events (db_watch (but_rv y3)) = []). by rewrite E3. }
  { apply (rd_event_order s (ca_readable s Hs)). }
  { pose proof (rd_event_ids s (ca_readable s Hs)) as Hids. pose proof (ca_events s Hs) as Hev. pose proof (ca_seq s Hs).
    rewrite !Forall_forall in *. intros e He. specialize (Hids e He). specialize (Hev e He). lia. }
  { apply (ca_distinct s Hs). }
  assert (F3 : watch_replay_floors (db_watch y3) = ∅) by (change (watch_replay_floors (db_watch (but_rv y3)) = ∅); by rewrite E3).
  change (but_rv (set_watch ?w ?y)) with (set_watch w (but_rv y)) in E4. rewrite E3, F3 in E4. cbn in E4.
  destruct (restore_subnets (db_rv s) (db_subnets s) y4) as (y5 & H5 & E5);
    [done|by change (db_subnets (but_rv y4) = ∅); rewrite E4|apply (ca_subnets s Hs)|apply (ca_subnets_unique s Hs)|].
  change (but_rv (set_subnets ?w ?y)) with (set_subnets w (but_rv y)) in E5. rewrite E4 in E5. cbn in E5.
  destruct (restore_dataplane (db_rv s) (db_dataplane s) y5) as (y6 & H6 & E6);
    [done|by change (db_dataplane (but_rv y5) = ∅); rewrite E5|apply (ca_dataplane s Hs)|].
  change (but_rv (set_dataplane ?w ?y)) with (set_dataplane w (but_rv y)) in E6. rewrite E5 in E6. cbn in E6.
  destruct (restore_cleanup (db_rv s) (db_cleanup s) y6) as (y7 & H7 & E7);
    [by change (db_cleanup (but_rv y6) = ∅); rewrite E6|apply (ca_cleanup s Hs)|].
  change (but_rv (set_cleanup ?w ?y)) with (set_cleanup w (but_rv y)) in E7. rewrite E6 in E7. cbn in E7.
  destruct (restore_watermarks (db_rv s) (db_watermarks s) y7) as (y8 & H8 & E8);
    [done|by change (db_watermarks (but_rv y7) = ∅); rewrite E7|apply (ca_watermarks s Hs)|].
  change (but_rv (set_watermarks ?w ?y)) with (set_watermarks w (but_rv y)) in E8. rewrite E7 in E8. cbn in E8.
  destruct (restore_outbox (db_rv s) (db_outbox s) y8) as (y9 & H9 & E9);
    [done|by change (db_outbox (but_rv y8) = ∅); rewrite E8|apply (ca_outbox s Hs)|].
  change (but_rv (set_outbox ?w ?y)) with (set_outbox w (but_rv y)) in E9. rewrite E8 in E9. cbn in E9.
  assert (R9 : db_resources y9 = db_resources y3) by (change (db_resources (but_rv y9) = db_resources y3); by rewrite E9).
  exists y9, seq. rewrite R9. split; [|done]. unfold all_operations, network_operations, ledger_operations.
  rewrite app_assoc3, (step_from _ _ _ _ _ H3), (step_from _ _ _ _ _ H4), <- app_assoc, (step_from _ _ _ _ _ H5),
    (step_from _ _ _ _ _ H6), (step_from _ _ _ _ _ H7), (step_from _ _ _ _ _ H8). done.
Qed.

(** ** Floors, history and counters *)

Lemma restore_floors_rows s b a y :
  capturable s -> sorted_rows (watch_replay_floors (db_watch s)) = (b ++ a)%list ->
  watch_replay_floors (db_watch y) = list_to_map b ->
  restore_floors (Some (watch_seq (db_watch s))) (snapshot_floor <$> (floor_value <$> a)) y
  = Ok (set_floors (watch_replay_floors (db_watch s)) y).
Proof.
  intros Hs. revert b y. induction a as [|[[[av kd] ns] row] a IH]; intros b y Heq Hy.
  - cbn. rewrite app_nil_r in Heq. rewrite <- (list_to_map_sorted (watch_replay_floors (db_watch s))), Heq, <- Hy.
    unfold set_floors. by destruct y as [? ? [] ? ? ? ? ? ? ?].
  - destruct (list_to_map_next _ _ _ _ Heq) as [Hfresh Hnext]. pose proof (sorted_rows_row _ _ _ _ Heq) as Hrow. cbn [fst snd] in *.
    assert (Hf : snapshot_floor (floor_value (av, kd, ns, row))
                 = mkSnapshotFloor av kd ns (fl_rv row) (fl_event_id row) (fl_position_exact row)).
    { pose proof (floor_key_target (av, kd, ns)) as Hk. unfold snapshot_floor, floor_value, DurableReplayFloor_into_parts.
      destruct row as [rv id []]; cbn [fl_position_exact floor_boundary floor_target fst snd]; by rewrite Hk. }
    destruct (ca_floors s Hs _ _ Hrow) as [_ Hid].
    pose proof (rd_floors s (ca_readable s Hs) _ _ Hrow) as Hnew. unfold floor_row in Hnew. cbn [fst snd] in Hnew.
    destruct (DurableReplayFloor_new _ _ _ _) as [f|] eqn:Hn; [|done]. apply floor_new_ok in Hn as [Hrv0 Hid0].
    cbn [fmap list_fmap restore_floors]. rewrite Hf.
    cbn [sf_position_is_exact sf_floor_resource_version sf_floor_event_id sf_api_version sf_kind sf_namespace_key is_some_and].
    destruct (Z.ltb_spec (fl_rv row) 0); [lia|]. destruct (Z.ltb_spec (fl_event_id row) 0); [lia|]. rewrite andb_false_r. cbn [orb].
    assert (Hex : fl_position_exact row && (watch_seq (db_watch s) <? fl_event_id row)%Z = false).
    { destruct (fl_position_exact row); [|done]. cbn. apply Z.ltb_ge. by apply Hid. }
    rewrite Hex, Hy, Hfresh. cbn [opt_is_some]. rewrite (IH (b ++ [(av, kd, ns, row)])%list).
    + done.
    + by rewrite <- (assoc_L (++)).
    + rewrite Hnext. cbn. by destruct row.
Qed.

Lemma max_event_bound (events : list (Z * EventRow)) high :
  (0 <= high)%Z -> Forall (fun e => e.1 <= high)%Z events -> (max_event_id events <= high)%Z.
Proof.
  intros Hhigh. destruct events as [|e events]; [done|]. intros [He Hall]%Forall_cons. cbn.
  induction Hall as [|e' events He' _ IH]; cbn; [done|lia].
Qed.

Lemma explicit_history s :
  existsb (fun operation => existsb is_put_watch_event (sro_mutations operation)) (all_operations s) = false ->
  watch_events (db_watch s) = [].
Proof.
  intros Hno. destruct (watch_events (db_watch s)) as [|e events] eqn:Hev; [done|]. exfalso.
  apply not_true_iff_false in Hno. apply Hno, existsb_exists. exists (event_operation e). split; [|done].
  apply list_elem_of_In. unfold all_operations. rewrite Hev. do 3 (apply elem_of_app; right). apply elem_of_app. left. by left.
Qed.

Lemma no_history_created y : watch_events (db_watch y) = [] -> restore_created_rv_from_watch_history y = y.
Proof.
  intros Hnone. unfold restore_created_rv_from_watch_history. rewrite Hnone.
  assert (Hn : map_imap (fun key row => let '(av, kd, ns, nm) := key in
    Some (with_created_rv (first_creation av kd (Some ns) nm (rw_uid row) []) row)) (namespaced_resources (db_resources y))
    = namespaced_resources (db_resources y)).
  { apply map_eq. intros [[[av kd] ns] nm]. rewrite map_lookup_imap. by destruct (_ !! _). }
  assert (Hc : map_imap (fun key row => let '(av, kd, nm) := key in
    Some (with_created_rv (first_creation av kd None nm (rw_uid row) []) row)) (cluster_resources (db_resources y))
    = cluster_resources (db_resources y)).
  { apply map_eq. intros [[av kd] nm]. rewrite map_lookup_imap. by destruct (_ !! _). }
  rewrite Hn, Hc. by destruct y as [[] ? ? ? ? ? ? ? ? ?].
Qed.

(** ** Cluster metadata *)

Definition replicated_meta_keys : list string :=
  [CLUSTER_ID_META_KEY; LEADER_EPOCH_META_KEY; COMMAND_CODEC_ACTIVATION_VERSION_META_KEY; RAFT_VOTERS_META_KEY;
   RAFT_TERM_META_KEY; RAFT_LEADER_HINT_META_KEY].

(** The rows of [_klights_meta] that hold a header. *)
Definition spells (meta : gmap string string) (header : SnapshotCaptureHeader) : Prop :=
  meta !! COMMAND_CODEC_ACTIVATION_VERSION_META_KEY
    = (fun _ => COMMAND_CODEC_V3_ACTIVATION_VALUE) <$> ch_command_codec_activation_version header
  /\ meta !! CLUSTER_ID_META_KEY = Some (md_cluster_id (ch_metadata header))
  /\ meta !! LEADER_EPOCH_META_KEY = Some (to_string (md_leader_epoch (ch_metadata header)))
  /\ match ch_membership header with
     | LegacyOmitted => False
     | AuthoritativeAbsent =>
         meta !! RAFT_VOTERS_META_KEY = None /\ meta !! RAFT_TERM_META_KEY = None /\ meta !! RAFT_LEADER_HINT_META_KEY = None
     | MembershipPresent m =>
         meta !! RAFT_VOTERS_META_KEY = Some (voters_to_string (cm_voters m))
         /\ meta !! RAFT_TERM_META_KEY = Some (to_string (cm_term m))
         /\ meta !! RAFT_LEADER_HINT_META_KEY = Some (unwrap_or "" (cm_leader_hint m))
     end.

Record header_ok (s : SqliteState) (header : SnapshotCaptureHeader) : Prop := {
  ho_position : ch_position header = Position (db_rv s) (watch_seq (db_watch s)) 0;
  ho_rv : md_current_rv (ch_metadata header) = db_rv s;
  ho_new : SnapshotCaptureHeader_try_new (ch_command_codec_activation_version header) (ch_position header)
             (ch_metadata header) (ch_membership header) = Ok header;
  ho_cluster : is_empty (md_cluster_id (ch_metadata header)) = false;
  ho_version : forall v, ch_command_codec_activation_version header = Some v -> v = 3%Z;
  ho_epoch : (0 <= md_leader_epoch (ch_metadata header) <= i64_max)%Z;
  ho_membership : match ch_membership header with
                  | LegacyOmitted => False
                  | AuthoritativeAbsent => True
                  | MembershipPresent m =>
                      cm_cluster_id m = md_cluster_id (ch_metadata header) /\ (0 <= cm_term m <= i64_max)%Z
                      /\ cm_leader_hint m <> Some ""
                  end
}.

Lemma parse_or_corrupt_ok {A} (parse : string -> option A) raw v : parse_or_corrupt parse raw = Ok v -> parse raw = Some v.
Proof. unfold parse_or_corrupt. destruct (parse raw); [by intros [= ->]|done]. Qed.

Lemma header_membership_ok cluster_id meta membership :
  header_membership voters_from_str cluster_id meta = Ok membership ->
  match membership with
  | LegacyOmitted => False
  | AuthoritativeAbsent => True
  | MembershipPresent m => cm_cluster_id m = cluster_id /\ in_i64 (cm_term m) /\ cm_leader_hint m <> Some ""
  end.
Proof.
  unfold header_membership.
  destruct (meta !! RAFT_VOTERS_META_KEY) as [voters|], (meta !! RAFT_TERM_META_KEY) as [term|],
    (meta !! RAFT_LEADER_HINT_META_KEY) as [hint|]; try done.
  - destruct (voters_from_str voters); [|done]. cbn [result_bind]. destruct (parse_or_corrupt parse_i64 term) as [z|] eqn:Ht; [|done].
    cbn [result_bind]. intros [= <-]. cbn. apply parse_or_corrupt_ok, parse_i64_range in Ht. split; [done|]. split; [done|]. by destruct hint.
  - by intros [= <-].
Qed.

Lemma read_header_ok s header : read_header voters_from_str s = Ok header -> header_ok s header.
Proof.
  intros Hh. destruct (header_valid s header Hh) as (Hcodec & Hmeta & _). revert Hh. unfold read_header.
  destruct (match _ !! COMMAND_CODEC_ACTIVATION_VERSION_META_KEY with Some _ => _ | None => _ end) as [version|]; [|done].
  cbn [result_bind]. destruct (match opt_filter _ _ with Some _ => _ | None => _ end) as [cid|] eqn:Hcid; [|done].
  cbn [result_bind]. destruct (match _ !! LEADER_EPOCH_META_KEY with Some _ => _ | None => _ end) as [epoch|] eqn:Hep; [|done].
  cbn [result_bind]. destruct (header_membership voters_from_str cid (db_meta s)) as [membership|] eqn:Hmem; [|done]. cbn [result_bind].
  intros Hnew%map_err_ok. assert (header = mkHeader version (Position (db_rv s) (watch_seq (db_watch s)) 0) (mkMetadata cid epoch (db_rv s)) membership) as ->.
  { clear Hcodec Hmeta. revert Hnew. unfold SnapshotCaptureHeader_try_new. destruct (codec_not_v3 version); [done|].
    destruct (map_err _ _); [|done]. cbn [result_bind]. destruct (validate_snapshot_metadata _ _); [|done]. cbn [result_bind].
    destruct (negb _); [done|]. by intros [= <-]. }
  cbn in Hcodec, Hmeta. apply header_membership_ok in Hmem. unfold validate_snapshot_metadata in Hmeta. cbn in Hmeta.
  destruct (is_empty cid) eqn:Hce; [done|]. destruct (Z.ltb_spec (db_rv s) 0); [done|]. destruct (Z.ltb_spec epoch 0); [done|].
  cbn [orb] in Hmeta. split; cbn; try done.
  - intros v ->. cbn in Hcodec. apply negb_false_iff, Z.eqb_eq in Hcodec. done.
  - split; [done|]. destruct (db_meta s !! LEADER_EPOCH_META_KEY); [|done]. apply parse_or_corrupt_ok, parse_i64_range in Hep. apply Hep.
  - destruct membership as [| |m]; try done. destruct Hmem as (Hc & [_ Hhi] & Hhint). split; [done|]. split; [|done].
    rewrite Hc, (proj2 (String.eqb_eq cid cid) eq_refl) in Hmeta. cbn [negb] in Hmeta. destruct (Z.ltb_spec (cm_term m) 0); [done|]. lia.
Qed.

Lemma spells_header s t header :
  header_ok s header -> spells (db_meta t) header -> db_rv t = db_rv s -> watch_seq (db_watch t) = watch_seq (db_watch s) ->
  (forall voters, voters_from_str (voters_to_string voters) = Some voters) ->
  read_header voters_from_str t = Ok header.
Proof.
  intros [Hpos Hrv Hnew Hce Hv Hep Hmem] (Sv & Sc & Se & Sm) Htrv Htseq Hback. unfold read_header. rewrite Sv, Sc, Se, Htrv, Htseq.
  assert (Hversion : match (fun _ : Z => COMMAND_CODEC_V3_ACTIVATION_VALUE) <$> ch_command_codec_activation_version header with
    | Some raw => let? v := parse_or_corrupt parse_u32 raw in Ok (Some v) | None => Ok None end
    = Ok (ch_command_codec_activation_version header)).
  { destruct (ch_command_codec_activation_version header) as [v|]; [|done]. by rewrite (Hv v eq_refl). }
  rewrite Hversion. cbn [result_bind opt_filter]. rewrite Hce. cbn [negb result_bind].
  unfold parse_or_corrupt at 1. rewrite parse_i64_to_string by done. cbn [result_bind].
  assert (Hm : header_membership voters_from_str (md_cluster_id (ch_metadata header)) (db_meta t) = Ok (ch_membership header)).
  { unfold header_membership. destruct (ch_membership header) as [| |m]; [done| |].
    - by destruct Sm as (-> & -> & ->).
    - destruct Sm as (-> & -> & ->), Hmem as (Hid & Hterm & Hhint). rewrite Hback. cbn [result_bind]. unfold parse_or_corrupt.
      rewrite parse_i64_to_string by done. cbn [result_bind]. rewrite <- Hid. destruct m as [? ? ? [[|]|]]; cbn; done. }
  rewrite Hm. cbn [result_bind]. rewrite <- Hpos, <- Hrv. destruct (ch_metadata header) as [id epoch rv]. cbn. cbn in Hnew. by rewrite Hnew.
Qed.

Definition header_metadata (header : SnapshotCaptureHeader) : SnapshotMetadata :=
  mkSnapshotMetadata (md_cluster_id (ch_metadata header)) (md_leader_epoch (ch_metadata header)) (ch_membership header)
    (ch_command_codec_activation_version header).

(** The metadata rows after a restore. *)
Definition meta_codec (header : SnapshotCaptureHeader) (m : gmap string string) : gmap string string :=
  match ch_command_codec_activation_version header with
  | Some _ => <[COMMAND_CODEC_ACTIVATION_VERSION_META_KEY := COMMAND_CODEC_V3_ACTIVATION_VALUE]> m
  | None => delete COMMAND_CODEC_ACTIVATION_VERSION_META_KEY m
  end.

Definition meta_membership (membership : SnapshotMembership) (m : gmap string string) : gmap string string :=
  match membership with
  | LegacyOmitted => m
  | AuthoritativeAbsent => delete RAFT_LEADER_HINT_META_KEY (delete RAFT_TERM_META_KEY (delete RAFT_VOTERS_META_KEY m))
  | MembershipPresent c =>
      <[RAFT_LEADER_HINT_META_KEY := unwrap_or "" (cm_leader_hint c)]>
        (<[RAFT_TERM_META_KEY := to_string (cm_term c)]> (<[RAFT_VOTERS_META_KEY := voters_to_string (cm_voters c)]> m))
  end.

Definition meta_identity (header : SnapshotCaptureHeader) (m : gmap string string) : gmap string string :=
  <[LEADER_EPOCH_META_KEY := to_string (md_leader_epoch (ch_metadata header))]>
    (<[CLUSTER_ID_META_KEY := md_cluster_id (ch_metadata header)]> m).

Lemma codec_restored s header t :
  header_ok s header -> restore_codec_version (Some (header_metadata header)) t = Ok (set_meta (meta_codec header (db_meta t)) t).
Proof.
  intros [_ _ _ _ Hv _ _]. unfold restore_codec_version, header_metadata, meta_codec. cbn.
  destruct (ch_command_codec_activation_version header) as [v|]; [|done]. by rewrite (Hv v eq_refl).
Qed.

Lemma metadata_restored s header x :
  header_ok s header ->
  restore_metadata voters_to_string (Some (header_metadata header)) x
  = set_meta (meta_membership (ch_membership header) (meta_identity header (db_meta x))) x.
Proof.
  intros [_ _ _ Hce _ _ _]. unfold restore_metadata, header_metadata. cbn [sm_membership sm_cluster_id sm_leader_epoch]. rewrite Hce.
  by destruct (ch_membership header).
Qed.

Lemma metadata_spells s header m :
  header_ok s header -> spells (meta_membership (ch_membership header) (meta_identity header (meta_codec header m))) header.
Proof.
  intros [_ _ _ _ _ _ Hmem]. unfold spells, meta_membership, meta_identity, meta_codec.
  destruct (ch_membership header) as [| |c]; [done| |]; repeat split;
    repeat (rewrite lookup_delete_eq || rewrite lookup_insert_eq
            || (rewrite lookup_delete_ne by done) || (rewrite lookup_insert_ne by done)); try done;
    (destruct (ch_command_codec_activation_version header); [apply lookup_insert_eq|apply lookup_delete_eq]).
Qed.

Lemma metadata_local header m key :
  key ∉ replicated_meta_keys ->
  meta_membership (ch_membership header) (meta_identity header (meta_codec header m)) !! key = m !! key.
Proof.
  intros Hk. unfold meta_membership, meta_identity, meta_codec.
  assert (Hne : forall other, other ∈ replicated_meta_keys -> other <> key) by (intros other Ho ->; done).
  assert (Hin : Forall (fun other => other <> key) replicated_meta_keys) by (apply Forall_forall; exact Hne).
  unfold replicated_meta_keys in Hin. rewrite !Forall_cons in Hin. destruct Hin as (? & ? & ? & ? & ? & ? & _).
  destruct (ch_membership header), (ch_command_codec_activation_version header);
    repeat ((rewrite lookup_delete_ne by done) || (rewrite lookup_insert_ne by done)); done.
Qed.

(** ** The database after a restore *)

Lemma replaced s t header :
  capturable s -> read_header voters_from_str s = Ok header ->
  exists y,
    replace_resource_state_in_conn parse_from_rfc3339 float_to_string merge encode decode voters_to_string (all_operations s) (db_rv s)
      (Some (watch_seq (db_watch s))) (Some (snapshot_floor <$> all_floors s)) (Some (header_metadata header)) t
    = Ok (mkDb (db_resources (restore_created_rv_from_watch_history y)) (db_namespaces s) (db_watch s)
            (stamp_outbox_row encode decode (db_rv s) <$> db_outbox s) (db_watermarks s) (db_cleanup s) (db_subnets s) (db_dataplane s)
            (meta_membership (ch_membership header) (meta_identity header (meta_codec header (db_meta t)))) (db_rv s))
    /\ watch_events (db_watch y) = watch_events (db_watch s)
    /\ numberless <$> cluster_resources (db_resources y) = newborn <$> cluster_resources (db_resources s)
    /\ numberless <$> namespaced_resources (db_resources y) = newborn <$> namespaced_resources (db_resources s)
    /\ index_ok float_to_string (db_resources y).
Proof.
  intros Hs Hh. pose proof (read_header_ok s header Hh) as Hok. pose proof (ca_rv s Hs) as Hpos.
  destruct (header_valid s header Hh) as (_ & _ & _ & Hseq).
  set (t0 := set_meta (meta_codec header (db_meta t)) t).
  destruct (operations_rebuild s t0 Hs) as (y & seq & Hy & Ey & Cy & Ny & Iy).
  assert (Wy : db_watch y = mkWatchTables (watch_events (db_watch s)) seq ∅)
    by (change (db_watch (but_rv y) = mkWatchTables (watch_events (db_watch s)) seq ∅); by rewrite Ey).
  exists y. split; [|by rewrite Wy]. unfold replace_resource_state_in_conn. destruct (Z.ltb_spec (db_rv s) 0); [lia|].
  rewrite (codec_restored s) by done. cbn [result_bind opt_is_none andb]. fold t0. cbv zeta. change (opt_is_none (Some _)) with false. cbn [andb]. rewrite Hy. cbn [result_bind].
  set (z := if existsb _ _ then _ else _). assert (Hz : z = restore_created_rv_from_watch_history y).
  { unfold z. destruct (existsb _ (all_operations s)) eqn:Hex; [done|]. apply explicit_history in Hex.
    rewrite no_history_created; [done|]. by rewrite Wy. }
  rewrite Hz. clear z Hz. unfold restore_high_water. destruct (Z.ltb_spec (watch_seq (db_watch s)) 0); [lia|].
  assert (Hmax : (max_event_id (watch_events (db_watch (restore_created_rv_from_watch_history y))) <= watch_seq (db_watch s))%Z).
  { change (db_watch (restore_created_rv_from_watch_history y)) with (db_watch y). rewrite Wy. apply max_event_bound; [done|].
    eapply Forall_impl; [apply (rd_event_ids s (ca_readable s Hs))|]. cbn. lia. }
  destruct (Z.ltb_spec (watch_seq (db_watch s)) (max_event_id (watch_events (db_watch (restore_created_rv_from_watch_history y))))); [lia|].
  cbn [result_bind]. unfold all_floors. rewrite (restore_floors_rows s []).
  - cbn [result_bind]. rewrite (metadata_restored s) by done. f_equal.
    destruct y as [ry ny wy oy ay cy sy dy my vy]. unfold but_rv in Ey. cbn in Ey, Wy. subst wy. injection Ey as -> -> -> -> -> -> ->.
    cbn. by destruct (db_watch s).
  - done.
  - done.
  - cbn. by rewrite Wy.
Qed.

(** ** The replica *)

(** A resource row without its number and the version it was created at. *)
Definition content (row : ResRow) : string * Z * Value := (rw_uid row, rw_resource_version row, rw_data row).

Record replica_of (s t t' : SqliteState) : Prop := {
  rp_cluster : content <$> cluster_resources (db_resources t') = content <$> cluster_resources (db_resources s);
  rp_namespaced : content <$> namespaced_resources (db_resources t') = content <$> namespaced_resources (db_resources s);
  rp_labels : forall key, rows_at key (resource_labels (db_resources t')) = rows_at key (resource_labels (db_resources s));
  rp_fields : forall key, rows_at key (resource_fields (db_resources t')) = rows_at key (resource_fields (db_resources s));
  rp_owners : forall key, rows_at key (resource_owner_refs (db_resources t')) = rows_at key (resource_owner_refs (db_resources s));
  rp_cluster_created : forall av kd nm row, cluster_resources (db_resources t') !! (av, kd, nm) = Some row ->
    rw_created_rv row = unwrap_or (rw_resource_version row) (first_creation av kd None nm (rw_uid row) (watch_events (db_watch s)));
  rp_namespaced_created : forall av kd ns nm row, namespaced_resources (db_resources t') !! (av, kd, ns, nm) = Some row ->
    rw_created_rv row = unwrap_or (rw_resource_version row) (first_creation av kd (Some ns) nm (rw_uid row) (watch_events (db_watch s)));
  rp_namespaces : db_namespaces t' = db_namespaces s;
  rp_watch : db_watch t' = db_watch s;
  rp_ledger : db_outbox t' = stamp_outbox_row encode decode (db_rv s) <$> db_outbox s;
  rp_watermarks : db_watermarks t' = db_watermarks s;
  rp_cleanup : db_cleanup t' = db_cleanup s;
  rp_subnets : db_subnets t' = db_subnets s;
  rp_dataplane : db_dataplane t' = db_dataplane s;
  rp_rv : db_rv t' = db_rv s;
  rp_header : read_header voters_from_str t' = read_header voters_from_str s;
  rp_local : forall key, key ∉ replicated_meta_keys -> db_meta t' !! key = db_meta t !! key
}.

Lemma newborn_content {K} `{Countable K} (m m' : gmap K ResRow) :
  numberless <$> m' = newborn <$> m -> content <$> m' = content <$> m.
Proof.
  intros Hm. apply map_eq. intros k. apply (f_equal (lookup k)) in Hm. rewrite !lookup_fmap in *.
  destruct (m' !! k), (m !! k); cbn in *; try done. injection Hm as Huid Hrv _ Hdata. unfold content. by rewrite Huid, Hrv, Hdata.
Qed.

Lemma newborn_created {K} `{Countable K} (m m' : gmap K ResRow) k row :
  numberless <$> m' = newborn <$> m -> m' !! k = Some row -> rw_created_rv row = rw_resource_version row.
Proof.
  intros Hm Hk. apply (f_equal (lookup k)) in Hm. rewrite !lookup_fmap, Hk in Hm. destruct (m !! k); [|done].
  injection Hm as _ Hrv Hc _. congruence.
Qed.

(** Rewriting the creation versions keeps the contents. *)
Lemma created_content {K} `{Countable K} (created : K -> ResRow -> option Z) (m : gmap K ResRow) :
  content <$> map_imap (fun key row => Some (with_created_rv (created key row) row)) m = content <$> m.
Proof.
  apply map_eq. intros k. rewrite !lookup_fmap, map_lookup_imap. destruct (m !! k) as [row|]; [|done]. cbn.
  by destruct (created k row).
Qed.

Lemma created_from {K} `{Countable K} (created : K -> string -> option Z) (m : gmap K ResRow) k row :
  (forall row, m !! k = Some row -> rw_created_rv row = rw_resource_version row) ->
  map_imap (fun key row => Some (with_created_rv (created key (rw_uid row)) row)) m !! k = Some row ->
  rw_created_rv row = unwrap_or (rw_resource_version row) (created k (rw_uid row)).
Proof.
  intros Hnew. rewrite map_lookup_imap. destruct (m !! k) as [old|] eqn:Hk; [|done]. cbn. intros [= <-].
  specialize (Hnew old eq_refl). unfold with_created_rv. destruct (created k (rw_uid old)) eqn:Hc; cbn; rewrite Hc; done.
Qed.

Lemma created_tables y :
  db_resources (restore_created_rv_from_watch_history y)
  = mkResTables
      (map_imap (fun key row => Some (with_created_rv
         ((fun k uid => first_creation k.1.1.1 k.1.1.2 (Some k.1.2) k.2 uid (watch_events (db_watch y))) key (rw_uid row)) row))
         (namespaced_resources (db_resources y)))
      (map_imap (fun key row => Some (with_created_rv
         ((fun k uid => first_creation k.1.1 k.1.2 None k.2 uid (watch_events (db_watch y))) key (rw_uid row)) row))
         (cluster_resources (db_resources y)))
      (resource_labels (db_resources y)) (resource_fields (db_resources y)) (resource_owner_refs (db_resources y)).
Proof.
  unfold restore_created_rv_from_watch_history. cbn. f_equal; apply map_imap_ext; intros k; [by destruct k as [[[]]]|by destruct k as [[]]].
Qed.

Lemma same_bodies t t' key :
  content <$> cluster_resources t' = content <$> cluster_resources t ->
  content <$> namespaced_resources t' = content <$> namespaced_resources t -> body_at key t' = body_at key t.
Proof.
  intros Hc Hn. destruct key as [[[av kd] ns] nm]. unfold body_at.
  assert (Hd : forall r : option ResRow, rw_data <$> r = snd <$> (content <$> r)) by (by intros []).
  rewrite !Hd. destruct (is_empty ns).
  - apply (f_equal (lookup (av, kd, nm))) in Hc. rewrite !lookup_fmap in Hc. by rewrite Hc.
  - apply (f_equal (lookup (av, kd, ns, nm))) in Hn. rewrite !lookup_fmap in Hn. by rewrite Hn.
Qed.

Lemma same_indexes t t' :
  index_ok float_to_string t -> index_ok float_to_string t' ->
  content <$> cluster_resources t' = content <$> cluster_resources t ->
  content <$> namespaced_resources t' = content <$> namespaced_resources t ->
  forall key, rows_at key (resource_labels t') = rows_at key (resource_labels t)
    /\ rows_at key (resource_fields t') = rows_at key (resource_fields t)
    /\ rows_at key (resource_owner_refs t') = rows_at key (resource_owner_refs t).
Proof.
  intros [Hl Hf Ho _] [Hl' Hf' Ho' _] Hc Hn [[[av kd] ns] nm].
  by rewrite Hl, Hl', Hf, Hf', Ho, Ho', (same_bodies t t').
Qed.

Lemma replica s t header y :
  capturable s -> read_header voters_from_str s = Ok header ->
  (forall voters, voters_from_str (voters_to_string voters) = Some voters) ->
  watch_events (db_watch y) = watch_events (db_watch s) ->
  numberless <$> cluster_resources (db_resources y) = newborn <$> cluster_resources (db_resources s) ->
  numberless <$> namespaced_resources (db_resources y) = newborn <$> namespaced_resources (db_resources s) ->
  index_ok float_to_string (db_resources y) ->
  replica_of s t (mkDb (db_resources (restore_created_rv_from_watch_history y)) (db_namespaces s) (db_watch s)
    (stamp_outbox_row encode decode (db_rv s) <$> db_outbox s) (db_watermarks s) (db_cleanup s) (db_subnets s) (db_dataplane s)
    (meta_membership (ch_membership header) (meta_identity header (meta_codec header (db_meta t)))) (db_rv s)).
Proof.
  intros Hs Hh Hback Hw Hc Hn Hi. pose proof (read_header_ok s header Hh) as Hok.
  pose proof (same_indexes _ _ (ca_index s Hs) Hi (newborn_content _ _ Hc) (newborn_content _ _ Hn)) as Hidx.
  constructor; cbn [db_resources db_namespaces db_watch db_outbox db_watermarks db_cleanup db_subnets db_dataplane db_meta db_rv]; try done;
    try (rewrite created_tables; cbn [cluster_resources namespaced_resources resource_labels resource_fields resource_owner_refs]).
  - rewrite created_content. by apply newborn_content.
  - rewrite created_content. by apply newborn_content.
  - apply Hidx.
  - apply Hidx.
  - apply Hidx.
  - intros av kd nm row. rewrite <- Hw.
    apply (created_from (fun k uid => first_creation k.1.1 k.1.2 None k.2 uid (watch_events (db_watch y))) _ (av, kd, nm)).
    intros old. by apply newborn_created with (m := cluster_resources (db_resources s)).
  - intros av kd ns nm row. rewrite <- Hw.
    apply (created_from (fun k uid => first_creation k.1.1.1 k.1.1.2 (Some k.1.2) k.2 uid (watch_events (db_watch y))) _ (av, kd, ns, nm)).
    intros old. by apply newborn_created with (m := namespaced_resources (db_resources s)).
  - rewrite Hh. apply (spells_header s); [done| |done|done|done]. by apply (metadata_spells s).
  - intros key. apply metadata_local.
Qed.

(** A snapshot gives back the database it was taken of.  For any page limit the
    capture of a database that meets the constraints of its schema ends with an
    envelope that carries the captured log position, and restoring that envelope
    over any database [t] succeeds.  The result has the resources, index rows,
    namespaces, watch history, event counter, replay floors, stream positions,
    cleanup intents, network rows, version counter and cluster identity of the
    captured database; a resource counts as created at its first [ADDED] event in
    the history, or else at its present version; the answers of the ledger are
    those of the snapshot's version; and the metadata rows outside the header are
    those of [t]. *)
Theorem snapshot_restores_database {LogId StoredMembership} (pristine : StoredMembership) `{EqDecision StoredMembership}
    (captured : option LogId * StoredMembership) (limit : nat) (s t : SqliteState) :
  (forall voters, voters_from_str (voters_to_string voters) = Some voters) ->
  (0 < limit <= MAX_SNAPSHOT_CAPTURE_PAGE)%nat -> capturable s ->
  exists data t',
    serialize_from_backend voters_from_str pristine limit captured s = Ok data
    /\ (rd_last_applied data, rd_membership data) = captured
    /\ restore_snapshot parse_from_rfc3339 float_to_string merge encode decode voters_to_string data t = Ok t'
    /\ replica_of s t t'.
Proof.
  intros Hback Hlimit Hs. destruct (ca_header s Hs) as [header Hh]. destruct (replaced s t header Hs Hh) as (y & Hy & Hw & Hc & Hn & Hi).
  eexists _, _. split; [by apply serialized; [|apply (ca_readable s Hs)|]|]. split; [by destruct captured|].
  split; [|by apply replica]. unfold restore_snapshot. rewrite envelope_accepted by done. cbn [result_bind].
  unfold restore_canonical_snapshot.
  cbn [as_operations as_current_rv as_position as_replay_floors as_metadata as_membership as_command_codec_activation_version].
  cbn. unfold header_metadata in Hy. cbn in Hy. rewrite Hy. done.
Qed.

End Parameters.

(** ** A database *)

(** Voter sets as text. *)
Fixpoint bits (p : positive) : string :=
  match p with xH => "" | xO p => String "0" (bits p) | xI p => String "1" (bits p) end.
Fixpoint of_bits (text : string) : positive :=
  match text with
  | "" => xH
  | String c text => if Ascii.eqb c "1" then xI (of_bits text) else xO (of_bits text)
  end.

Definition sample_voters_to_string (voters : list string) : string := bits (countable.encode voters).
Definition sample_voters_from_str (text : string) : option (list string) := countable.decode (of_bits text).

Lemma sample_voters_back voters : sample_voters_from_str (sample_voters_to_string voters) = Some voters.
Proof.
  unfold sample_voters_from_str, sample_voters_to_string.
  assert (Hb : forall p, of_bits (bits p) = p) by (induction p as [p IH|p IH|]; cbn; congruence).
  rewrite Hb. apply decode_encode.
Qed.

Definition sample_pod : Value :=
  Object [("metadata", Object [("uid", Str "u1"); ("labels", Object [("app", Str "web")])])].
Definition sample_node : Value := Object [("metadata", Object [("uid", Str "u2")])].

Definition sample_resources : ResourceTables :=
  let pod := resource_identity "v1" "Pod" (Some "default") "p" in
  let node := resource_identity "v1" "Node" None "n1" in
  upsert_indexes (fun _ => "") node sample_node (upsert_resource node "u2" 3 sample_node
    (upsert_indexes (fun _ => "") pod sample_pod (upsert_resource pod "u1" 5 sample_pod (mkResTables ∅ ∅ ∅ ∅ ∅)))).

Definition sample_db : SqliteState :=
  mkDb sample_resources {["default" := mkNsRow "u0" 1 (Object [])]}
    (mkWatchTables
       [(2%Z, mkEventRow "v1" "Pod" (Some "default") "p" 4 "ADDED" sample_pod);
        (4%Z, mkEventRow "v1" "Pod" (Some "default") "p" 5 "MODIFIED" sample_pod)]
       6 {[("v1", "Pod", "default") := mkFloor 2 1 true]})
    {["key" := mkOutboxRow "key" "default/p" "PodStatus" 100 (Some 5%Z) "ack" None]}
    {[("n1", 1%Z) := 7%Z]} {[("n1", "default", "q", "u3", "deleted") := mkCleanup 2 50 (Object [])]}
    {["n1" := mkNodeSubnetRow "n1" "10.0.1.0/24" 1 "10.0.1.1" "192.168.0.1" "root" None]}
    {["n1" := mkNodeDataplaneRow "n1" "root" "disabled" None "192.168.0.1" (Some 51820%Z)]}
    (<["cluster_id" := "c"]> (<["leader_epoch" := "2"]> (<["command_codec_activation_version" := "3"]>
       (<["voters" := sample_voters_to_string ["n1"; "n2"]]> (<["term" := "4"]> {["leader_hint" := "n2"]})))))
    8.

Ltac only_row Hrow :=
  unfold sample_db in Hrow;
  cbn [db_namespaces db_watch watch_replay_floors db_outbox db_watermarks db_cleanup db_subnets db_dataplane] in Hrow;
  apply lookup_singleton_Some in Hrow as [<- <-].

Lemma sample_readable : readable sample_db.
Proof.
  constructor; try (intros [? Hnone]; vm_compute in Hnone; discriminate).
  - intros name row Hrow. only_row Hrow. done.
  - intros key row Hrow. only_row Hrow. done.
  - repeat constructor.
  - repeat constructor; done.
  - intros client stream [seq Hrow]. unfold sample_db in Hrow. cbn in Hrow. apply lookup_singleton_Some in Hrow as [[= <- <-] _]. by left.
Qed.

Lemma sample_indexed : index_ok (fun _ => "") sample_resources.
Proof. do 2 (apply index_ok_write; [done|]). apply index_ok_empty. Qed.

Lemma sample_distinct : distinct_events (watch_events (db_watch sample_db)).
Proof.
  intros b e a e' Heq Hin. cbn in Heq. destruct b as [|e1 [|e2 [|e3 b]]]; [by apply elem_of_nil in Hin| | |]; simplify_list_eq.
  by apply list_elem_of_singleton in Hin as ->.
Qed.

Lemma sample_capturable : capturable (fun _ => "") sample_voters_from_str sample_db.
Proof.
  constructor; try done.
  - apply sample_readable.
  - eexists. vm_compute. reflexivity.
  - intros name row Hrow. only_row Hrow. done.
  - assert (H : map_Forall (fun (k : ClusterKey) row => (0 < rw_resource_version row <= 8)%Z
      /\ use_namespaced_table k.1.1 k.1.2 None = false /\ ~ (k.1.1 = "v1" /\ k.1.2 = "Namespace")) (cluster_resources sample_resources))
      by (apply (bool_decide_unpack _); vm_compute; done).
    intros av kd nm row. apply (H (av, kd, nm)).
  - assert (H : map_Forall (fun (k : NsKey) row => (0 < rw_resource_version row <= 8)%Z
      /\ use_namespaced_table k.1.1.1 k.1.1.2 (Some k.1.2) = true) (namespaced_resources sample_resources))
      by (apply (bool_decide_unpack _); vm_compute; done).
    intros av kd ns nm row. apply (H (av, kd, ns, nm)).
  - apply sample_indexed.
  - repeat constructor; done.
  - apply sample_distinct.
  - intros name row Hrow. only_row Hrow. done.
  - intros n n' r r' Hr Hr'. only_row Hr. only_row Hr'. done.
  - intros name row Hrow. only_row Hrow. cbn. auto.
  - intros key row Hrow. only_row Hrow. done.
  - intros key seq Hrow. only_row Hrow. done.
  - intros key row Hrow. only_row Hrow. done.
  - intros key row Hrow. only_row Hrow. done.
Qed.

Lemma snapshot_restores_database_witness :
  exists data t',
    serialize_from_backend sample_voters_from_str [] 2 (Some 9%Z, ["n1"; "n2"]) sample_db = Ok data
    /\ (rd_last_applied data, rd_membership data) = (Some 9%Z, ["n1"; "n2"])
    /\ restore_snapshot (fun _ => None) (fun _ => "") (fun target _ => target) (fun _ => Ok "ack") (fun _ => Ok (RespAck 0))
         sample_voters_to_string data empty_db = Ok t'
    /\ replica_of (fun _ => Ok "ack") (fun _ => Ok (RespAck 0)) sample_voters_from_str sample_db empty_db t'.
Proof.
  apply (snapshot_restores_database (fun _ => None) (fun _ => "") (fun target _ => target) (fun _ => Ok "ack") (fun _ => Ok (RespAck 0))
           sample_voters_from_str sample_voters_to_string [] (Some 9%Z, ["n1"; "n2"]) 2 sample_db empty_db).
  - apply sample_voters_back.
  - vm_compute. lia.
  - apply sample_capturable.
Defined.
