(* ===== verification/SnapshotExamples.v ===== *)
(** * What a snapshot does not carry

    Databases sent through a snapshot, evaluated: the answers of the ledger, the
    versions resources were created at, and the metadata rows that are not in a
    header.  They mark the edge of the round trip of [SnapshotSpec]. *)

From S2P Require Import Prelude Text Json Watch Apply KeyCodec LogApply ResourceShape ResourceIndex NodeSubnets NodeRouting Commands SqliteState CommittedApply EntryApply Materialize PodRebase MaterializeSpec EntryExamples SnapshotCapture SnapshotRestore SnapshotPages SnapshotSpec.

Local Open Scope string_scope.
Local Open Scope rs_scope.

(** Answers as text. *)
Definition answer_text (response : StorageResponse) : result string string :=
  match response with
  | RespAck rv => Ok (String "A" (to_string rv))
  | RespError message => Ok (String "E" message)
  | _ => Ok "?"
  end.
Definition answer_of (text : string) : result string StorageResponse :=
  match text with
  | String "A" rv => match parse_i64 rv with Some rv => Ok (RespAck rv) | None => Err text end
  | String "E" message => Ok (RespError message)
  | _ => Err text
  end.

(** A snapshot of [s] installed over [t]. *)
Definition through (s t : SqliteState) : option SqliteState :=
  match serialize_from_backend sample_voters_from_str tt 100 (Some 1%Z, tt) s with
  | Ok data =>
      match restore_snapshot (fun _ => None) (fun _ => "") sample_merge answer_text answer_of sample_voters_to_string data t with
      | Ok t' => Some t'
      | Err _ => None
      end
  | Err _ => None
  end.

Definition clustered : SqliteState :=
  write (Command.CreateResource "v1" "ConfigMap" (Some "default") "a" (config_map "x")) (write (Command.EnsureClusterMetadata "c") empty_db).

(** ** The ledger *)

(** A delivery applied at version 1, and one rejected. *)
Definition answered : SqliteState :=
  set_outbox
    (<["first" := mkOutboxRow "first" "default/a" "Create" 100 (Some 1%Z) "A1" None]>
       {["second" := mkOutboxRow "second" "default/b" "Create" 100 None "Econflict" None]}) clustered.

(** The replica answers a retry of the first delivery with another version, and has
    the rejected one as applied. *)
Lemma ledger_answers_change :
  (fun row => (or_applied_rv row, or_result_proto row)) <$> (db_outbox answered !! "first") = Some (Some 1%Z, "A1")
  /\ (t ← through answered empty_db; row ← db_outbox t !! "first"; Some (or_applied_rv row, or_result_proto row)) = Some (Some 1%Z, "A2")
  /\ (t ← through answered empty_db; row ← db_outbox t !! "second"; Some (or_applied_rv row, or_result_proto row))
     = Some (Some 2%Z, "Econflict").
Proof. vm_compute. done. Qed.

(** ** Creation versions *)

Definition updated : SqliteState :=
  write (Command.UpdateResource "v1" "ConfigMap" (Some "default") "a" (config_map "y") 2 (mkPreconditions None None) false) clustered.

(** The creation is no longer in the history. *)
Definition compacted : SqliteState :=
  set_watch (mkWatchTables (List.filter (fun e => (2 <? ev_resource_version e.2)%Z) (watch_events (db_watch updated)))
               (watch_seq (db_watch updated)) {[("v1", "ConfigMap", "default") := mkFloor 2 2 true]}) updated.

Definition created_at (s : SqliteState) : option Z :=
  rw_created_rv <$> get_existing_resource (resource_identity "v1" "ConfigMap" (Some "default") "a") (db_resources s).

Lemma creation_version_is_lost :
  created_at compacted = Some 2%Z
  /\ (t ← through updated empty_db; created_at t) = Some 2%Z /\ (t ← through compacted empty_db; created_at t) = Some 3%Z.
Proof. vm_compute. done. Qed.

(** ** Metadata *)

Definition admission : StorageCommand := Command.SetKlightsMeta "raft_member_admission/2" "{}".

(** A row written through the log is not in the replica, and one the leader does not
    have stays there. *)
Lemma metadata_rows_stay_behind :
  db_meta (write admission clustered) !! "raft_member_admission/2" = Some "{}"
  /\ (t ← through (write admission clustered) empty_db; db_meta t !! "raft_member_admission/2") = None
  /\ opt_is_some (through (write admission clustered) empty_db) = true
  /\ (t ← through clustered (write admission clustered); db_meta t !! "raft_member_admission/2") = Some "{}".
Proof. vm_compute. done. Qed.
