(* ===== verification/LogDatabase.v ===== *)
(** * The databases the log produces

    Entries keep a database in the shape a snapshot needs: [database_ok] holds of
    the empty database, of what the delivery of a well-formed entry makes of it,
    and of a database restored from a snapshot of such a database.  Whatever a
    member has applied and installed, it can send a snapshot that the others can
    restore. *)

From stdpp Require Import sorting.
From S2P Require Import Prelude Text Json Watch Apply KeyCodec LogApply ResourceShape NodeSubnets SqliteState CommittedApply Replay SnapshotCapture SnapshotRestore SnapshotPages SnapshotSpec.

Local Open Scope string_scope.
Local Open Scope rs_scope.

(** ** The shape *)

(** A text that a replay floor accepts as part of its scope. *)
Definition plain (value : string) : Prop := reserved_identity value = false.

Definition plain_namespace (namespace : option string) : Prop :=
  match namespace with Some ns => plain ns | None => True end.

Section Shape.

Context (float_to_string : Z -> string).
Context (bound : Z).

Definition in_bound (rv : Z) : Prop := (0 < rv <= bound)%Z.

Definition namespaced_ok (key : NsKey) (row : ResRow) : Prop :=
  let '(api_version, kind, namespace, _) := key in
  in_bound (rw_resource_version row) /\ use_namespaced_table api_version kind (Some namespace) = true
  /\ plain api_version /\ plain kind /\ plain namespace.

Definition cluster_ok (key : ClusterKey) (row : ResRow) : Prop :=
  let '(api_version, kind, _) := key in
  in_bound (rw_resource_version row) /\ use_namespaced_table api_version kind None = false
  /\ plain api_version /\ plain kind /\ ~ (api_version = "v1" /\ kind = "Namespace").

Definition event_ok (row : EventRow) : Prop :=
  in_bound (ev_resource_version row) /\ plain (ev_api_version row) /\ plain (ev_kind row) /\ plain_namespace (ev_namespace row).

Definition floor_ok (seq : Z) (key : ClusterKey) (row : FloorRow) : Prop :=
  validate_replay_target (floor_target_of key) = Ok tt /\ key <> ("", "", "")
  /\ (0 <= fl_rv row <= bound)%Z /\ (0 <= fl_event_id row <= seq)%Z.

Record watch_ok (w : WatchTables) : Prop := {
  wo_seq : (0 <= watch_seq w <= i64_max)%Z;
  wo_ids : Forall (fun e => 0 < e.1 <= watch_seq w)%Z (watch_events w);
  wo_events : Forall (fun e => event_ok e.2) (watch_events w);
  wo_order : StronglySorted row_lt (watch_events w);
  wo_distinct : distinct_events (watch_events w);
  wo_floors : map_Forall (floor_ok (watch_seq w)) (watch_replay_floors w)
}.

Record resources_ok (t : ResourceTables) : Prop := {
  ro_namespaced : map_Forall namespaced_ok (namespaced_resources t);
  ro_cluster : map_Forall cluster_ok (cluster_resources t);
  ro_index : index_ok float_to_string t
}.

Definition subnet_rows_ok (t : SubnetTable) : Prop :=
  map_Forall (fun name row => sr_node_name row = name /\ name <> "") t
  /\ forall n n' r r', t !! n = Some r -> t !! n' = Some r' -> sr_subnet r = sr_subnet r' -> n = n'.

Definition dataplane_ok (name : string) (row : LogApplyNodeDataplaneRow) : Prop :=
  dr_node_name row = name /\ name <> "" /\ is_some_and (dr_port row) (fun port => negb ((0 <=? port) && (port <=? 65535)))%Z = false
  /\ (dr_mode row = "root" \/ dr_mode row = "rootless") /\ (dr_encryption row = "enabled" \/ dr_encryption row = "disabled").

Record tables_ok (s : SqliteState) : Prop := {
  to_resources : resources_ok (db_resources s);
  to_namespaces : map_Forall (fun name row => name <> "" /\ in_bound (ns_resource_version row)) (db_namespaces s);
  to_watch : watch_ok (db_watch s);
  to_outbox : map_Forall (fun key row => or_idempotency_key row = key /\ key <> "") (db_outbox s);
  to_watermarks : map_Forall (fun (key : string * Z) seq => (key.1 <> "" \/ 0 < key.2)%Z /\ (0 < seq)%Z) (db_watermarks s);
  to_cleanup : map_Forall (fun (key : string * string * string * string * string) row =>
      key <> ("", "", "", "", "") /\ in_bound (ci_resource_version row)) (db_cleanup s);
  to_subnets : subnet_rows_ok (db_subnets s);
  to_dataplane : map_Forall dataplane_ok (db_dataplane s)
}.

(** ** Watch history *)

Lemma distinct_sorted events :
  distinct_events events <-> StronglySorted (fun e' e : Z * EventRow => same_identity_rv e.2 e'.2 = false) events.
Proof.
  split.
  - induction events as [|e events IH]; intros Hd; [constructor|]. constructor.
    + apply IH. intros b x a x' -> Hin. apply (Hd (e :: b) x a x'); [done|by right].
    + apply Forall_forall. intros x Hx. apply list_elem_of_split in Hx as (b & a & ->). apply (Hd (e :: b) x a e); [done|by left].
  - intros Hs b e a e' -> Hin. apply StronglySorted_app in Hs as (Hall & _). apply Hall; [done|by left].
Qed.

Lemma sorted_filter {A} (R : relation A) (P : A -> Prop) `{!forall x, Decision (P x)} l :
  StronglySorted R l -> StronglySorted R (filter P l).
Proof.
  induction 1 as [|x l _ IH Hx]; [constructor|]. rewrite filter_cons. destruct (decide (P x)); [|done]. constructor; [done|].
  apply Forall_forall. intros y [_ Hy]%list_elem_of_filter. by eapply Forall_forall in Hx.
Qed.

Lemma filter_forall {A} (Q P : A -> Prop) `{!forall x, Decision (P x)} l : Forall Q l -> Forall Q (filter P l).
Proof. intros Hl. apply Forall_forall. intros x [_ Hx]%list_elem_of_filter. by eapply Forall_forall in Hl. Qed.

Lemma sorted_snoc {A} (R : relation A) l x : StronglySorted R l -> Forall (fun y => R y x) l -> StronglySorted R (l ++ [x]).
Proof.
  intros Hl Hx. apply StronglySorted_app. split_and!; [|done|repeat constructor].
  intros y z Hy ->%list_elem_of_singleton. by eapply Forall_forall in Hx.
Qed.

Lemma insert_event_ok row w w' :
  watch_ok w -> event_ok row -> insert_event_row None row w = Ok w' -> watch_ok w'.
Proof.
  intros [Hseq Hids Hev Hord Hdist Hfl] Hrow. unfold insert_event_row. cbn [unwrap_or].
  set (id := (Z.max (watch_seq w) (max_event_id (watch_events w)) + 1)%Z).
  assert (Hmax : (max_event_id (watch_events w) <= watch_seq w)%Z).
  { apply max_event_bound; [lia|]. eapply Forall_impl; [exact Hids|]. cbn. lia. }
  assert (Hid : id = (watch_seq w + 1)%Z) by lia. destruct (Z.ltb_spec i64_max id); [done|]. destruct (existsb _ _); [done|].
  destruct (List.find _ _) as [[i existing]|] eqn:Hf; [destruct (_ && _); [by intros [= <-]|done]|]. intros [= <-].
  assert (Hlt : Forall (fun e => e.1 < id)%Z (watch_events w)) by (eapply Forall_impl; [exact Hids|]; cbn; lia).
  rewrite insert_event_last by done. split; cbn.
  - lia.
  - apply Forall_app. split; [eapply Forall_impl; [exact Hids|]; cbn; lia|]. apply Forall_singleton. cbn. lia.
  - apply Forall_app. split; [done|]. by apply Forall_singleton.
  - apply sorted_snoc; [done|]. eapply Forall_impl; [exact Hlt|]. intros e He. by apply row_lt_id.
  - apply distinct_sorted, sorted_snoc; [by apply distinct_sorted|]. apply Forall_forall. intros e He%list_elem_of_In.
    by apply (List.find_none _ _ Hf) in He.
  - eapply map_Forall_impl; [exact Hfl|]. intros key floor (Ht & Hk & Hrv & Hi). split_and!; try done; lia.
Qed.

Lemma insert_watch_ok canonicalize row s s' :
  watch_ok (db_watch s) -> event_ok row -> insert_watch_event_in_conn None canonicalize row s = Ok s' ->
  exists w, s' = set_watch w s /\ watch_ok w.
Proof.
  intros Hw Hrow. unfold insert_watch_event_in_conn. destruct (insert_event_row _ _ _) as [w|] eqn:Hi; [|done]. intros [= <-].
  exists w. split; [done|]. by apply insert_event_ok in Hi.
Qed.

(** The scope of an event is one a floor accepts. *)
Lemma event_scope_ok row : event_ok row -> validate_replay_target (floor_target_of (event_scope row)) = Ok tt /\ event_scope row <> ("", "", "").
Proof.
  intros (_ & Hav & Hkd & Hns). unfold event_scope, floor_target_of.
  assert (Hstar : (ev_api_version row =?s "*") = false).
  { destruct (String.eqb_spec (ev_api_version row) "*") as [He|]; [|done]. by rewrite He in Hav. }
  rewrite Hstar. cbn [andb]. split; [|intros [= He _ _]; by rewrite He in Hav].
  unfold plain in Hav, Hkd. destruct (ev_namespace row) as [ns|]; cbn [namespace_key unwrap_or].
  - destruct (String.eqb_spec ns "#cluster") as [->|]; cbn [validate_replay_target existsb]; [done|].
    cbn in Hns. unfold plain in Hns. by rewrite Hav, Hkd, Hns.
  - cbn [validate_replay_target existsb]. rewrite String.eqb_refl. cbn [validate_replay_target existsb]. by rewrite Hav, Hkd.
Qed.

Lemma raise_floor_ok seq e floors :
  map_Forall (floor_ok seq) floors -> event_ok e.2 -> (0 < e.1 <= seq)%Z -> map_Forall (floor_ok seq) (raise_floor floors e).
Proof.
  intros Hfl He Hid. destruct (event_scope_ok _ He) as [Ht Hk]. destruct He as [[Hlo Hhi] _]. unfold raise_floor.
  apply map_Forall_insert_2; [|done]. split; [done|]. split; [done|]. destruct (floors !! event_scope e.2) as [floor|] eqn:Hold; cbn.
  - destruct (Hfl _ _ Hold) as (_ & _ & Hrv & Hi). lia.
  - lia.
Qed.

Lemma gc_watch_ok max_rows batch_cap w : watch_ok w -> watch_ok (gc_watch_events_in_tx max_rows batch_cap w).
Proof.
  intros [Hseq Hids Hev Hord Hdist Hfl]. unfold gc_watch_events_in_tx. set (candidates := gc_candidates _ _ _ _).
  assert (Hin : forall e, e ∈ candidates -> e ∈ watch_events w).
  { intros e. unfold candidates, gc_candidates, sql_limit. destruct (batch_cap <? 0)%Z.
    - by intros [_ He]%list_elem_of_filter.
    - intros He. apply elem_of_take in He as (i & He & _). by apply list_elem_of_lookup_2, list_elem_of_filter in He as [_ He]. }
  split; cbn.
  - done.
  - by apply filter_forall.
  - by apply filter_forall.
  - by apply sorted_filter.
  - apply distinct_sorted, sorted_filter. by apply distinct_sorted.
  - clearbody candidates. revert Hfl. generalize (watch_replay_floors w). induction candidates as [|e candidates IH]; intros floors Hfl; [done|].
    cbn. apply IH; [intros e' He'; apply Hin; by right|]. rewrite Forall_forall in Hids, Hev.
    assert (He : e ∈ watch_events w) by (apply Hin; by left). apply raise_floor_ok; [done|by apply Hev|by apply Hids].
Qed.

(** ** Mutations *)

(** What the builders of entries keep to: identities and names that are not empty
    or reserved, events without an identifier, ports of sixteen bits. *)
Definition sound (mutation : LogApplyMutation) : Prop :=
  match mutation with
  | PutResource row =>
      plain (rr_api_version row) /\ plain (rr_kind row) /\ plain_namespace (rr_namespace row)
      /\ ~ (rr_api_version row = "v1" /\ rr_kind row = "Namespace")
  | PutNamespace row => nr_name row <> ""
  | PutNodeSubnet row => sr_node_name row <> ""
  | PutNodeDataplane row =>
      dr_node_name row <> "" /\ is_some_and (dr_port row) (fun port => negb ((0 <=? port) && (port <=? 65535)))%Z = false
  | PutAppliedOutbox row => or_idempotency_key row <> ""
  | PutWatchEvent row =>
      wr_event_id row = None /\ plain (wr_api_version row) /\ plain (wr_kind row) /\ plain_namespace (wr_namespace row)
  | PutPodCleanupIntent row => cr_node_name row <> ""
  | _ => True
  end.

(** Identities of rows and events. *)
Definition identity_ok (i : ResourceIdentity) : Prop :=
  plain (ri_api_version i) /\ plain (ri_kind i) /\
  match ri_scope i with
  | Namespaced namespace => plain namespace /\ use_namespaced_table (ri_api_version i) (ri_kind i) (Some namespace) = true
  | ClusterScope => use_namespaced_table (ri_api_version i) (ri_kind i) None = false
                    /\ ~ (ri_api_version i = "v1" /\ ri_kind i = "Namespace")
  end.

Lemma resource_identity_ok api_version kind namespace name :
  plain api_version -> plain kind -> plain_namespace namespace -> ~ (api_version = "v1" /\ kind = "Namespace") ->
  identity_ok (resource_identity api_version kind namespace name).
Proof.
  intros Hav Hkd Hns Hnot. unfold identity_ok, resource_identity, use_namespaced_table.
  destruct (is_dynamic_custom_resource api_version kind) eqn:Hdyn.
  - destruct namespace as [ns|]; cbn; rewrite Hdyn; done.
  - destruct (is_namespaced kind) eqn:Hk; cbn; rewrite Hdyn; [|done]. split_and!; [done..| |done]. by destruct namespace.
Qed.

Lemma existing_identity i t row : resources_ok t -> get_existing_resource i t = Some row -> identity_ok i.
Proof.
  intros [Hn Hc _]. destruct i as [av kd [ns|] nm]; unfold get_existing_resource, identity_ok; cbn.
  - intros (_ & Huse & Hav & Hkd & Hns)%Hn. done.
  - intros (_ & Huse & Hav & Hkd & Hnot)%Hc. done.
Qed.

Lemma identity_scope_ok i : identity_ok i -> scope_ok i.
Proof.
  intros (_ & _ & Hs). unfold scope_ok. destruct (ri_scope i) as [ns|]; [|done]. destruct Hs as [Hs _]. by intros ->.
Qed.

Lemma write_resources_ok i uid rv data t :
  identity_ok i -> in_bound rv -> resources_ok t ->
  resources_ok (upsert_indexes float_to_string i data (upsert_resource i uid rv data t)).
Proof.
  intros Hi Hrv [Hn Hc Hx]. split.
  - unfold upsert_resource, upsert_row. destruct i as [av kd [ns|] nm]; cbn; [|done]. apply map_Forall_insert_2; [|done].
    destruct Hi as (? & ? & ? & ?). cbn in *. split_and!; try done. by destruct (_ !! _).
  - unfold upsert_resource, upsert_row. destruct i as [av kd [ns|] nm]; cbn; [done|]. apply map_Forall_insert_2; [|done].
    destruct Hi as (? & ? & ? & ?). cbn in *. split_and!; try done. by destruct (_ !! _).
  - apply index_ok_write; [by apply identity_scope_ok|done].
Qed.

Lemma delete_resources_ok i t :
  identity_ok i -> resources_ok t -> resources_ok (delete_indexes (index_key i) (delete_resource_row i t)).
Proof.
  intros Hi [Hn Hc Hx]. split; [| |apply index_ok_delete; [by apply identity_scope_ok|done]].
  - unfold delete_resource_row. destruct (ri_scope i); cbn; [|done]. by apply map_Forall_delete.
  - unfold delete_resource_row. destruct (ri_scope i); cbn; [done|]. by apply map_Forall_delete.
Qed.

Lemma set_watch_ok w s : tables_ok s -> watch_ok w -> tables_ok (set_watch w s).
Proof. intros [] Hw. by split. Qed.

Lemma set_resources_ok t s : tables_ok s -> resources_ok t -> tables_ok (set_resources t s).
Proof. intros [] Ht. by split. Qed.

Lemma emit_watch_ok emit i rv event_type data s out :
  tables_ok s -> identity_ok i -> in_bound rv -> emit_watch emit i rv event_type data s = Ok out -> tables_ok out.1.
Proof.
  intros Hs (Hav & Hkd & Hsc) Hrv. unfold emit_watch. destruct emit; cbn [negb]; [|by intros [= <-]].
  destruct (insert_watch_event_in_conn _ _ _ _) as [s'|] eqn:Hi; [|done]. cbn. intros [= <-].
  apply insert_watch_ok in Hi as (w & -> & Hw); [by apply set_watch_ok|by apply to_watch|].
  split_and!; cbn; try done. unfold identity_namespace. by destruct (ri_scope i) as [ns|]; [destruct Hsc|].
Qed.

Lemma put_resource_ok parse_from_rfc3339 row emit s out :
  sound (PutResource row) -> in_bound (rr_resource_version row) -> tables_ok s ->
  apply_put_resource parse_from_rfc3339 float_to_string row emit s = Ok out -> tables_ok out.1.
Proof.
  intros (Hav & Hkd & Hns & Hnot) Hrv Hs. unfold apply_put_resource.
  pose proof (resource_identity_ok _ _ _ (rr_name row) Hav Hkd Hns Hnot) as Hi. fold (row_identity row) in Hi. set (i := row_identity row) in *.
  destruct (validate_put_resource_apply_preconditions _ _); [|done]. cbn [result_bind].
  destruct (normalize_committed_resource_for_apply _ _ _) as [row'|] eqn:Hn; [|done]. cbn [result_bind].
  rewrite <- (normalized_rv _ _ _ _ Hn) in Hrv.
  assert (Hwrite : forall uid event_type,
    emit_watch emit i (rr_resource_version row') event_type (rr_data row')
      (write_resource float_to_string i uid (rr_resource_version row') (rr_data row') s) = Ok out -> tables_ok out.1).
  { intros uid event_type. apply emit_watch_ok; [|done|done]. apply set_resources_ok; [done|].
    apply write_resources_ok; [done|done|by apply to_resources]. }
  unfold decide_resource_put. destruct (get_existing_resource i (db_resources s)) as [e|] eqn:He; cbn [opt_is_some is_some_and andb]; [|apply Hwrite].
  destruct (_ && bool_decide _) eqn:Hsame; [|apply Hwrite]. intros [= <-]. cbn.
  apply andb_true_iff in Hsame as [_ <-%bool_decide_eq_true]. apply set_resources_ok; [done|]. destruct (to_resources s Hs) as [Hnr Hcr Hx].
  split; [done|done|]. apply index_ok_refresh; [by apply identity_scope_ok|done|done].
Qed.

Lemma patch_resource_ok merge patch emit s out :
  in_bound (rp_resource_version patch) -> tables_ok s ->
  apply_patch_resource_latest float_to_string merge patch emit s = Ok out -> tables_ok out.1.
Proof.
  intros Hrv Hs. unfold apply_patch_resource_latest. set (i := resource_identity _ _ _ _).
  destruct (get_existing_resource i (db_resources s)) as [e|] eqn:He; [|destruct (rp_require_existing patch); [done|by intros [= <-]]].
  destruct (apply_latest_patch_to_current_resource _ _ _ _) as [data|]; [|done]. cbn [result_bind].
  assert (Hi : identity_ok i) by (by eapply existing_identity; [apply to_resources|]). apply emit_watch_ok; [|done|done].
  apply set_resources_ok; [done|]. apply write_resources_ok; [done|done|by apply to_resources].
Qed.

Lemma delete_resource_ok rv key emit s out :
  in_bound rv -> tables_ok s -> apply_delete_resource rv key emit s = Ok out -> tables_ok out.1.
Proof.
  intros Hrv Hs. unfold apply_delete_resource. set (i := resource_identity _ _ _ _).
  destruct (get_existing_resource i (db_resources s)) as [e|] eqn:He; [|by intros [= <-]].
  destruct (decide_resource_delete _ _ _) as [[|event_type]|]; [by intros [= <-]| |done].
  assert (Hi : identity_ok i) by (by eapply existing_identity; [apply to_resources|]). apply emit_watch_ok; [|done|done].
  apply set_resources_ok; [done|]. apply delete_resources_ok; [done|by apply to_resources].
Qed.

Lemma set_namespaces_ok t s :
  tables_ok s -> map_Forall (fun name row => name <> "" /\ in_bound (ns_resource_version row)) t -> tables_ok (set_namespaces t s).
Proof. intros [] Ht. by split. Qed.

Lemma namespace_event_ok name rv event_type data : in_bound rv -> event_ok (namespace_event name rv event_type data).
Proof. by intros Hrv. Qed.

Lemma put_namespace_ok row emit s out :
  nr_name row <> "" -> in_bound (nr_resource_version row) -> tables_ok s -> put_namespace_row row emit s = Ok out -> tables_ok out.1.
Proof.
  intros Hname Hrv Hs. unfold put_namespace_row. destruct (is_some_and _ _); [by intros [= <-]|].
  set (s1 := set_namespaces _ s). assert (Hs1 : tables_ok s1).
  { apply set_namespaces_ok; [done|]. apply map_Forall_insert_2; [done|by apply to_namespaces]. }
  destruct emit; cbn [negb]; [|by intros [= <-]].
  destruct (insert_watch_event_in_conn _ _ _ _) as [s'|] eqn:Hi; [|done]. cbn. intros [= <-].
  apply insert_watch_ok in Hi as (w & -> & Hw); [by apply set_watch_ok|by apply to_watch|]. by apply namespace_event_ok.
Qed.

Lemma delete_namespace_ok rv name emit s out :
  in_bound rv -> tables_ok s -> delete_namespace_row rv name emit s = Ok out -> tables_ok out.1.
Proof.
  intros Hrv Hs. unfold delete_namespace_row. destruct (_ !! name) as [e|]; [|by intros [= <-]].
  set (s1 := set_namespaces _ s). assert (Hs1 : tables_ok s1).
  { apply set_namespaces_ok; [done|]. apply map_Forall_delete. by apply to_namespaces. }
  destruct emit; cbn [negb]; [|by intros [= <-]].
  destruct (insert_watch_event_in_conn _ _ _ _) as [s'|] eqn:Hi; [|done]. cbn. intros [= <-].
  apply insert_watch_ok in Hi as (w & -> & Hw); [by apply set_watch_ok|by apply to_watch|]. by apply namespace_event_ok.
Qed.

Lemma forall_sub {K A} `{Countable K} (P : K -> A -> Prop) (m m' : gmap K A) : m' ⊆ m -> map_Forall P m -> map_Forall P m'.
Proof. intros Hsub Hm k x Hk. apply Hm. by eapply lookup_weaken. Qed.

Lemma contents_ok name t : resources_ok t -> resources_ok (delete_namespace_contents_rows name t).
Proof.
  intros [Hn Hc Hx]. split; [| |by apply index_ok_contents].
  all: unfold delete_namespace_contents_rows; set (t0 := mkResTables _ _ _ _ _); set (rows := filter _ (map_to_list _));
    destruct (delete_all_indexes rows t0 ("", "", "", "")) as (H1 & H2 & _); cbn zeta in H1, H2.
  - rewrite H1. unfold t0. cbn. by apply (forall_sub _ _ _ (map_filter_subseteq _ _)).
  - by rewrite H2.
Qed.

Lemma put_subnet_ok row t t' :
  sr_node_name row <> "" -> subnet_rows_ok t -> put_node_subnet row t = Ok t' -> subnet_rows_ok t'.
Proof.
  intros Hname [Ht Hu]. unfold put_node_subnet. destruct (existsb _ _) eqn:Hex; [done|]. intros [= <-].
  assert (Hother : forall n r, t !! n = Some r -> sr_subnet r = sr_subnet row -> n = sr_node_name row).
  { intros n r Hr Hsub. destruct (decide (n = sr_node_name row)) as [|Hne]; [done|]. exfalso. apply not_true_iff_false in Hex.
    apply Hex, existsb_exists. exists (n, r). rewrite <- list_elem_of_In, elem_of_map_to_list. split; [done|]. cbn.
    rewrite (proj2 (String.eqb_neq _ _) Hne), Hsub. apply String.eqb_refl. }
  split; [by apply map_Forall_insert_2|].
  intros n n' r r' [[<- <-]|[Hne Hr]]%lookup_insert_Some [[<- <-]|[Hne' Hr']]%lookup_insert_Some Hsub; eauto. by symmetry; eauto.
Qed.

Lemma allocate_subnet_ok a t t' : subnet_rows_ok t -> allocate_node_subnet a t = Ok t' -> subnet_rows_ok t'.
Proof.
  intros Ht. unfold allocate_node_subnet. destruct (allocate_node_subnet_row a t) as [row|] eqn:Hr; [|done]. cbn [result_bind].
  apply put_subnet_ok; [|done]. revert Hr. unfold allocate_node_subnet_row, map_parse.
  destruct (NodeName_parse _) as [name|] eqn:Hp; [|done]. cbn [result_bind]. destruct (ok_or _ _); [|done]. cbn [result_bind].
  destruct (ClusterCidr_parse _) as [c|]; [|done]. cbn [result_bind]. destruct (_ <? _)%Z; [done|].
  destruct (t !! name) as [existing|] eqn:He.
  - intros [= <-]. destruct Ht as [Ht _]. destruct (Ht _ _ He) as [-> Hne]. done.
  - destruct (first_free _ _ _ _); [|done]. destruct (PodSubnet_parse _); [|done]. intros [= <-]. cbn.
    intros ->. revert Hp. unfold NodeName_parse. destruct (is_empty (trim _)) eqn:He'; [done|].
    destruct (_ <? _)%Z; [done|]. destruct (negb _); [done|]. destruct (_ || _); [done|]. intros [= Ht']. by rewrite Ht' in He'.
Qed.

Lemma delete_subnet_ok name t : subnet_rows_ok t -> subnet_rows_ok (NodeSubnets.delete_node_subnet name t).
Proof.
  intros [Ht Hu]. unfold NodeSubnets.delete_node_subnet. split; [by apply map_Forall_delete|].
  intros n n' r r' [_ Hr]%lookup_delete_Some [_ Hr']%lookup_delete_Some. by apply Hu.
Qed.

Lemma with_subnets_step r s s' : with_subnets r s = Ok s' -> exists t, r = Ok t /\ s' = set_subnets t s.
Proof. unfold with_subnets. destruct r as [t|]; [|done]. intros [= <-]. eauto. Qed.

Lemma put_dataplane_ok row s s' :
  sound (PutNodeDataplane row) -> tables_ok s -> put_node_dataplane row s = Ok s' -> tables_ok s'.
Proof.
  intros [Hname Hport] [] . unfold put_node_dataplane. destruct (_ && _) eqn:Hc; [|done]. intros [= <-].
  split; try done. cbn. apply map_Forall_insert_2; [|done]. apply andb_true_iff in Hc as [Hmode Henc].
  rewrite orb_true_iff, !String.eqb_eq in Hmode, Henc. done.
Qed.

Lemma put_event_ok row s out :
  sound (PutWatchEvent row) -> in_bound (wr_resource_version row) -> tables_ok s ->
  apply_put_watch_event row s = Ok out -> tables_ok out.1.
Proof.
  intros (Hid & Hav & Hkd & Hns) Hrv Hs. unfold apply_put_watch_event. rewrite Hid.
  destruct (insert_watch_event_in_conn _ _ _ _) as [s'|] eqn:Hi; [|done]. cbn. intros [= <-].
  apply insert_watch_ok in Hi as (w & -> & Hw); [by apply set_watch_ok|by apply to_watch|done].
Qed.

Lemma mutation_ok parse_from_rfc3339 merge rv m emit s effects st :
  in_bound rv -> sound m -> event_stamped rv m -> tables_ok s ->
  apply_cluster_mutation parse_from_rfc3339 float_to_string merge rv (to_cluster_mutation m) emit (s, effects) = Ok st ->
  tables_ok st.1.
Proof.
  intros Hrv Hm Hst Hs. destruct m; cbn [to_cluster_mutation apply_cluster_mutation]; unfold silent.
  all: try (destruct (negb _) eqn:Heq; [done|]; apply negb_false_iff, Z.eqb_eq in Heq).
  all: try (intros (out & Hr & ->)%push_effect_ok).
  - eapply put_resource_ok; [done|by rewrite Heq|done|done].
  - eapply patch_resource_ok; [by rewrite Heq|done|done].
  - by eapply delete_resource_ok.
  - done.
  - eapply put_namespace_ok; [done|by rewrite Heq|done|done].
  - by eapply delete_namespace_ok.
  - intros [= <-]. cbn. apply set_resources_ok; [done|]. apply contents_ok. by apply to_resources.
  - destruct (with_subnets _ _) as [s'|] eqn:Hw; [|done]. apply with_subnets_step in Hw as (t & Ht & ->). intros [= <-].
    destruct Hs. split; try done. by eapply put_subnet_ok.
  - destruct (with_subnets _ _) as [s'|] eqn:Hw; [|done]. apply with_subnets_step in Hw as (t & Ht & ->). intros [= <-].
    destruct Hs. split; try done. by eapply allocate_subnet_ok.
  - intros [= <-]. destruct Hs. split; try done. by apply delete_subnet_ok.
  - destruct (put_node_dataplane _ _) as [s'|] eqn:Hd; [|done]. intros [= <-]. by eapply put_dataplane_ok.
  - intros [= <-]. destruct Hs. split; try done. by apply map_Forall_delete.
  - intros [= <-]. destruct Hs. split; try done. by apply map_Forall_insert_2.
  - intros [= <-]. destruct Hs. split; try done. by apply map_Forall_delete.
  - intros [= <-]. destruct Hs. split; try done. by apply (forall_sub _ _ _ (map_filter_subseteq _ _)).
  - intros [= <-]. destruct Hs. split; try done. by apply gc_watch_ok.
  - destruct (apply_put_watch_event row s) as [out|] eqn:Hp; [|done]. intros [= <-]. eapply put_event_ok; [done| |done|done].
    by cbn in Hst; rewrite Hst.
  - by intros [= <-].
  - intros [= <-]. by destruct Hs.
  - intros [= <-]. destruct Hs. split; try done. apply map_Forall_insert_2; [|done]. cbn in Hm |- *. split; [congruence|by rewrite Heq].
  - intros [= <-]. destruct Hs. split; try done. by apply map_Forall_delete.
  - intros [= <-]. destruct Hs. split; try done. by apply (forall_sub _ _ _ (map_filter_subseteq _ _)).
Qed.

Lemma mutations_ok parse_from_rfc3339 merge rv emit ms st st' :
  in_bound rv -> Forall sound ms -> Forall (event_stamped rv) ms -> tables_ok st.1 ->
  apply_mutations parse_from_rfc3339 float_to_string merge rv emit ms st = Ok st' -> tables_ok st'.1.
Proof.
  intros Hrv Hms. revert st. induction Hms as [|m ms Hm _ IH]; intros st Hev Hok; cbn [apply_mutations]; [by intros [= <-]|].
  apply Forall_cons in Hev as [He Hev]. destruct (apply_cluster_mutation _ _ _ _ _ _ st) as [st1|] eqn:H1; [|done]. cbn [result_bind].
  apply IH; [done|]. destruct st as [s effects]. by eapply mutation_ok.
Qed.

End Shape.

(** ** Deliveries *)

Lemma tables_mono float_to_string bound bound' s :
  (bound <= bound')%Z -> tables_ok float_to_string bound s -> tables_ok float_to_string bound' s.
Proof.
  intros Hle [[Hn Hc Hx] Hns [Hseq Hids Hev Hord Hdist Hfl] Ho Hw Hcl Hs Hd].
  assert (Hb : forall rv, in_bound bound rv -> in_bound bound' rv) by (unfold in_bound; lia).
  split; try done.
  - split; [| |done].
    + eapply map_Forall_impl; [exact Hn|]. intros [[[av kd] ns] nm] row (H & ?). split; [by apply Hb|done].
    + eapply map_Forall_impl; [exact Hc|]. intros [[av kd] nm] row (H & ?). split; [by apply Hb|done].
  - eapply map_Forall_impl; [exact Hns|]. intros name row [? H]. split; [done|by apply Hb].
  - split; try done.
    + eapply Forall_impl; [exact Hev|]. intros e [H ?]. split; [by apply Hb|done].
    + eapply map_Forall_impl; [exact Hfl|]. intros key floor (? & ? & ? & ?). split_and!; try done; lia.
  - eapply map_Forall_impl; [exact Hcl|]. intros key row [? H]. split; [done|by apply Hb].
Qed.

Lemma tables_set_rv float_to_string bound rv s : tables_ok float_to_string bound s -> tables_ok float_to_string bound (set_rv rv s).
Proof. intros []. by split. Qed.

Definition database_ok (float_to_string : Z -> string) (s : SqliteState) : Prop :=
  (0 <= db_rv s)%Z /\ tables_ok float_to_string (db_rv s) s.

Definition sound_watermark (w : option OutboxStreamWatermark) : Prop :=
  match w with Some w => (wm_client_id w <> "" \/ 0 < wm_stream_id w)%Z | None => True end.

Definition sound_commit (commit : LogApplyCommit) : Prop :=
  Forall sound (lc_mutations commit) /\ sound_watermark (lc_outbox_watermark commit).

Lemma stamp_sound encode decode rv preserve m : sound m -> sound (stamp_mutation encode decode rv preserve m).
Proof. by destruct m. Qed.

Lemma finalizations_sound float_to_string bound rv s ms :
  resources_ok float_to_string bound (db_resources s) -> Forall sound ms -> Forall sound (concat (resolve_finalization rv s <$> ms)).
Proof.
  intros [Hn _ _]. induction 1 as [|m ms Hm _ IH]; [constructor|]. cbn. apply Forall_app. split; [|done].
  destruct m; try by apply Forall_singleton. cbn.
  destruct (_ !! ("v1", "Pod", _, _)) as [current|] eqn:Hc; [|constructor]. destruct (negb _); [constructor|].
  destruct (negb _); [constructor|]. apply Hn in Hc as (_ & _ & _ & _ & Hns). repeat constructor; done.
Qed.

Lemma decided_positive w s d : outbox_watermark_decision_in_tx (Some w) s = Ok d -> (0 < wm_stream_seq w)%Z.
Proof.
  unfold outbox_watermark_decision_in_tx, decide_position, decide_outbox_watermark.
  destruct (Z.leb_spec (wm_stream_seq w) 0); [done|lia].
Qed.

Lemma upsert_ok float_to_string bound w s d :
  sound_watermark w -> outbox_watermark_decision_in_tx w s = Ok d -> forall t,
  tables_ok float_to_string bound t -> tables_ok float_to_string bound (upsert_watermark w t).
Proof.
  intros Hw Hd t [] . destruct w as [w|]; [|by split]. apply decided_positive in Hd. split; try done.
  cbn. by apply map_Forall_insert_2.
Qed.

Lemma ledger_mutations_ok parse_from_rfc3339 float_to_string merge bound rv emit ms st st' :
  forallb is_put_applied_outbox ms = true -> Forall sound ms -> tables_ok float_to_string bound st.1 ->
  apply_mutations parse_from_rfc3339 float_to_string merge rv emit ms st = Ok st' -> tables_ok float_to_string bound st'.1.
Proof.
  revert st. induction ms as [|m ms IH]; intros st; [intros _ _ ? [= <-]; done|].
  cbn [forallb]. rewrite andb_true_iff, Forall_cons. intros [Hrow Hall] [Hm Hms] Hst. destruct m; try done. destruct st as [s effects].
  cbn. apply IH; [done|done|]. destruct Hst. split; try done. by apply map_Forall_insert_2.
Qed.

Section Log.

Context (parse_from_rfc3339 : string -> option Z).
Context (float_to_string : Z -> string).
Context (merge : Value -> Value -> Value).
Context (encode : StorageResponse -> result string string).
Context (decode : string -> result string StorageResponse).

Abbreviation database_ok := (database_ok float_to_string).
Abbreviation delivery := (delivery parse_from_rfc3339 float_to_string merge encode decode).
Abbreviation deliver := (deliver parse_from_rfc3339 float_to_string merge encode decode).

Lemma ok_at rv t : (0 <= rv)%Z -> db_rv t = rv -> tables_ok float_to_string rv t -> database_ok t.
Proof. intros Hrv <- Ht. done. Qed.

Lemma applied_ok commit s s' :
  fresh commit s -> Forall sound (ac_mutations commit) -> sound_watermark (ac_outbox_watermark commit) -> database_ok s ->
  applied parse_from_rfc3339 float_to_string merge encode decode commit s s' -> database_ok s'.
Proof.
  intros Hf%fresh_finalizations Hms Hwm [Hpos Hok] [d c1 c2 s1 Hd Hn Hs Hb].
  assert (Hf1 : fresh c1 s) by (destruct d; [by eapply fresh_noops|..]; by injection Hn as <-).
  assert (Hms0 : Forall sound (ac_mutations (resolve_bound_pod_finalizations_in_tx commit s)))
    by (eapply finalizations_sound; [by apply to_resources|done]).
  assert (Hms1 : Forall sound (ac_mutations c1)).
  { destruct d; [|by injection Hn as <-..]. revert Hn. unfold resolve_noop_put_resources_in_tx. destruct (ac_preserve_historical_bytes _); [by intros [= <-]|].
    destruct (resolve_noops _ _ s) as [[ms b]|] eqn:Hr; [|done]. intros [= <-]. cbn. by eapply noops_forall. }
  assert (Hms2 : Forall sound (ac_mutations c2)).
  { revert Hs. unfold stamp_provisional_resource_version_in_tx. destruct (if _ && _ then _ else _) as [rv s2]. intros [= <- _].
    cbn. apply Forall_fmap. eapply Forall_impl; [exact Hms1|]. intros m. apply stamp_sound. }
  pose proof (upsert_ok float_to_string) as Hup.
  destruct (fresh_stamp _ _ _ _ _ _ Hf1 Hs) as [He [(-> & Hrv & Hall)|[-> Hrv]]]; rewrite Hrv in *.
  - destruct Hb as [(w & Hw & _ & ->)|[[-> ->]|(-> & emit & s2 & pending & Ha & ->)]].
    + rewrite advance_current by done. rewrite Hw in *. split; [done|]. by apply (Hup (db_rv s) (Some w) s d).
    + by rewrite advance_current.
    + assert (H2 : tables_ok float_to_string (db_rv s) s2) by (by eapply (ledger_mutations_ok _ _ _ _ _ _ _ (s, []) (s2, pending))).
      apply ledger_mutations in Ha as [o Ho]; [|done]. cbn in Ho. subst s2.
      rewrite advance_current by (rewrite upsert_watermark_rv; done). apply (ok_at (db_rv s)); [done|by rewrite upsert_watermark_rv|].
      by eapply Hup.
  - set (sv := set_rv (db_rv s + 1) s) in *. assert (Hsv : tables_ok float_to_string (db_rv s + 1) sv).
    { apply tables_set_rv. by apply (tables_mono _ (db_rv s)); [lia|]. }
    destruct Hb as [(w & Hw & _ & ->)|[[-> ->]|(-> & emit & s2 & pending & Ha & ->)]].
    + rewrite advance_current by done. rewrite Hw in *. apply (ok_at (db_rv s + 1)); [lia|done|]. by apply (Hup _ (Some w) s d).
    + rewrite advance_current by done. apply (ok_at (db_rv s + 1)); [lia|done|done].
    + assert (H2 : tables_ok float_to_string (db_rv s + 1) s2).
      { eapply (mutations_ok _ _ _ _ _ _ _ (sv, []) (s2, pending)); [|done|done|done|done]. unfold in_bound. lia. }
      apply mutations_write in Ha; [|done]. cbn in Ha. pose proof (writes_rv _ _ _ Ha) as Hrv2.
      rewrite advance_current by (rewrite upsert_watermark_rv, Hrv2; done).
      apply (ok_at (db_rv s + 1)); [lia|by rewrite upsert_watermark_rv, Hrv2|]. by eapply Hup.
Qed.

Lemma outbox_keys_ok bound o t :
  same_keys o (db_outbox t) -> tables_ok float_to_string bound t -> tables_ok float_to_string bound (set_outbox o t).
Proof.
  intros Hkeys [? ? ? Ho ? ? ? ?]. split; try done. cbn. intros key row Hrow. apply (f_equal (lookup key)) in Hkeys.
  rewrite !lookup_fmap, Hrow in Hkeys. destruct (db_outbox t !! key) as [old|] eqn:Hold; [|done]. injection Hkeys as ->. by apply Ho in Hold.
Qed.

Lemma delivery_ok commit s : sound_commit commit -> database_ok s -> database_ok (delivery commit s).
Proof.
  intros [Hms Hw] Hs. unfold CommittedApply.delivery.
  destruct (apply_commit_in_tx_for_raft_with_context _ _ _ _ _ commit s) as [[s' o]|] eqn:Hr; [|done]. apply raft_cases in Hr.
  destruct Hr as [outcome _|existing applied_rv message returned _ _|c s1 o' outcome _ Hf Hcw Hcms Ha Hkeys _|v code message Hd _]; [done|done| |].
  - assert (Hc : Forall sound (ac_mutations c)) by (destruct Hcms as [->| ->]; [done|by apply filter_forall]).
    rewrite <- Hcw in Hw. destruct (applied_ok c s s1 Hf Hc Hw Hs Ha) as [Hpos Hok]. split; [done|]. by apply outbox_keys_ok.
  - destruct Hs as [Hpos Hok]. unfold record_rejection. set (s1 := upsert_watermark _ s).
    assert (H1 : tables_ok float_to_string (db_rv s) s1) by (by eapply upsert_ok).
    assert (Hrv : db_rv s1 = db_rv s) by apply upsert_watermark_rv.
    destruct (ledger_template commit) as [template|] eqn:Ht; [|by apply (ok_at (db_rv s))].
    apply (ok_at (db_rv s)); [done|done|]. destruct H1. split; try done. cbn. apply map_Forall_insert_2; [|done]. cbn. split; [done|].
    revert Ht. unfold ledger_template. destruct (omap outbox_row (lc_mutations commit)) as [|row rows] eqn:Hrows; [done|]. intros [= ->].
    assert (Hin : template ∈ omap outbox_row (lc_mutations commit)) by (rewrite Hrows; by left).
    apply list_elem_of_omap in Hin as (m & Hm & Hrow). rewrite Forall_forall in Hms. specialize (Hms m Hm). destruct m; try done.
    by injection Hrow as ->.
Qed.

Lemma deliver_ok commits s : Forall sound_commit commits -> database_ok s -> database_ok (deliver commits s).2.
Proof.
  intros Hc. revert s. induction Hc as [|commit commits Hcommit _ IH]; intros s Hs; [done|]. cbn [CommittedApply.deliver].
  specialize (IH _ (delivery_ok commit s Hcommit Hs)). by destruct (deliver commits (delivery commit s)).
Qed.

Lemma empty_ok : database_ok empty_db.
Proof.
  split; [done|]. split; [| | |by apply map_Forall_empty..| |by apply map_Forall_empty].
  - split; [by apply map_Forall_empty..|apply index_ok_empty].
  - by apply map_Forall_empty.
  - split; [done|by apply Forall_nil..|by apply SSorted_nil| |by apply map_Forall_empty]. intros b e a e' Heq. by destruct b.
  - split; [by apply map_Forall_empty|]. intros n n' r r' Hr. cbn in Hr. by rewrite lookup_empty in Hr.
Qed.

(** ** Snapshots of such databases *)

Lemma floor_readable bound seq key row : floor_ok bound seq key row -> floor_row (key, row) = Ok (floor_value (key, row)).
Proof.
  intros (Ht & _ & Hrv & Hid). unfold floor_row, floor_value, DurableReplayFloor_new. cbn [fst snd]. rewrite Ht. cbn [result_bind].
  destruct (Z.ltb_spec (fl_rv row) 0); [lia|]. destruct (Z.ltb_spec (fl_event_id row) 0); [lia|]. cbn [orb].
  destruct (fl_position_exact row); [|done]. unfold validate_replay_position, validate_exact, validate. cbn.
  destruct (Z.ltb_spec (fl_rv row) 0); [lia|]. destruct (Z.ltb_spec (fl_event_id row) 0); [lia|]. done.
Qed.

Lemma no_key {K A} `{Countable K} (P : K -> A -> Prop) (m : gmap K A) k :
  map_Forall P m -> (forall x, ~ P k x) -> is_Some (m !! k) -> False.
Proof. intros Hm Hk [x Hx]. by apply (Hk x), Hm. Qed.

Lemma database_readable s : database_ok s -> readable s.
Proof.
  intros [Hpos [[Hn Hc Hx] Hns [Hseq Hids Hev Hord Hdist Hfl] Ho Hw Hcl [Hs _] Hd]]. split.
  - intros name row (_ & _ & Hp & _)%Hd. unfold dataplane_row. destruct (dr_port row) as [port|]; [|done]. cbn in Hp.
    by apply negb_false_iff in Hp as ->.
  - intros key row Hrow. by eapply floor_readable, Hfl.
  - done.
  - done.
  - by apply (no_key _ _ _ Hns); intros x [].
  - by apply (no_key _ _ _ Hc); intros x (_ & _ & H & _).
  - by apply (no_key _ _ _ Hn); intros x (_ & _ & H & _).
  - by apply (no_key _ _ _ Hs); intros x [].
  - by apply (no_key _ _ _ Hd); intros x (_ & H & _).
  - by apply (no_key _ _ _ Hcl); intros x [].
  - intros client stream [seq [H _]%Hw]. done.
  - by apply (no_key _ _ _ Ho); intros x [].
  - by apply (no_key _ _ _ Hfl); intros x (_ & H & _).
Qed.

Lemma database_capturable voters_from_str s :
  database_ok s -> (0 < db_rv s)%Z -> (exists header, read_header voters_from_str s = Ok header) ->
  capturable float_to_string voters_from_str s.
Proof.
  intros Hs Hrv Hh. pose proof (database_readable s Hs) as Hread.
  destruct Hs as [Hpos [[Hn Hc Hx] Hns [Hseq Hids Hev Hord Hdist Hfl] Ho Hw Hcl [Hs Hu] Hd]]. split; try done.
  - lia.
  - by intros name row [_ H]%Hns.
  - by intros av kd nm row (H & Huse & _ & _ & Hnot)%Hc.
  - by intros av kd ns nm row (H & Huse & _)%Hn.
  - eapply Forall_impl; [exact Hev|]. by intros e [H _].
  - by intros name row [H _]%Hs.
  - by intros name row (H & _ & _ & Hm & He)%Hd.
  - by intros key row [_ H]%Hcl.
  - by intros key seq [_ H]%Hw.
  - by intros key row [H _]%Ho.
  - intros key row (_ & _ & H & H')%Hfl. lia.
Qed.

(** A row of the replica is a row of the captured database up to its number and the
    version it was created at. *)
Lemma content_row {K} `{Countable K} (m m' : gmap K ResRow) k row :
  content <$> m' = content <$> m -> m' !! k = Some row ->
  exists old, m !! k = Some old /\ rw_resource_version old = rw_resource_version row.
Proof.
  intros Hm Hk. apply (f_equal (lookup k)) in Hm. rewrite !lookup_fmap, Hk in Hm. destruct (m !! k) as [old|]; [|done].
  injection Hm as _ Hrv _. eauto.
Qed.

Lemma replica_index voters_from_str s t t' :
  index_ok float_to_string (db_resources s) -> replica_of encode decode voters_from_str s t t' ->
  index_ok float_to_string (db_resources t').
Proof.
  intros [Hl Hf Ho Hn] Hr. pose proof (rp_cluster _ _ _ _ _ _ Hr) as Hc. pose proof (rp_namespaced _ _ _ _ _ _ Hr) as Hns.
  split.
  - intros av kd ns nm. by rewrite (rp_labels _ _ _ _ _ _ Hr), (same_bodies (db_resources s)), Hl.
  - intros av kd ns nm. by rewrite (rp_fields _ _ _ _ _ _ Hr), (same_bodies (db_resources s)), Hf.
  - intros av kd ns nm. by rewrite (rp_owners _ _ _ _ _ _ Hr), (same_bodies (db_resources s)), Ho.
  - intros av kd nm. destruct (_ !! _) as [row|] eqn:Hrow; [|done]. destruct (content_row _ _ _ _ Hns Hrow) as (old & Hold & _). by rewrite Hn in Hold.
Qed.

Lemma replica_ok voters_from_str s t t' : database_ok s -> replica_of encode decode voters_from_str s t t' -> database_ok t'.
Proof.
  intros [Hpos [[Hn Hc Hx] Hns Hwt Ho Hw Hcl Hs Hd]] Hr. pose proof (replica_index _ _ _ _ Hx Hr) as Hx'.
  destruct Hr as [Rc Rn _ _ _ _ _ Rns Rw Ro Rwm Rcl Rs Rd Rrv _ _]. unfold LogDatabase.database_ok. rewrite Rrv. split; [done|].
  split; rewrite ?Rns, ?Rw, ?Rwm, ?Rcl, ?Rs, ?Rd; try done.
  - split; [| |done].
    + intros key row Hrow. destruct (content_row _ _ _ _ Rn Hrow) as (old & Hold & Hrv). apply Hn in Hold.
      destruct key as [[[av kd] ns] nm]. unfold namespaced_ok in *. by rewrite <- Hrv.
    + intros key row Hrow. destruct (content_row _ _ _ _ Rc Hrow) as (old & Hold & Hrv). apply Hc in Hold.
      destruct key as [[av kd] nm]. unfold cluster_ok in *. by rewrite <- Hrv.
  - rewrite Ro. intros key row Hrow. rewrite lookup_fmap in Hrow. destruct (db_outbox s !! key) as [old|] eqn:Hold; [|done].
    injection Hrow as <-. by apply Ho in Hold.
Qed.

(** ** Members *)

Context (voters_from_str : string -> option (list string)).
Context (voters_to_string : list string -> string).
Context {LogId StoredMembership : Type} (pristine : StoredMembership) `{!EqDecision StoredMembership}.

Abbreviation serialize_from_backend := (serialize_from_backend voters_from_str pristine).
Abbreviation restore_snapshot := (restore_snapshot parse_from_rfc3339 float_to_string merge encode decode voters_to_string).

(** A database that knows its cluster and has handed out a version. *)
Definition established (s : SqliteState) : Prop :=
  (0 < db_rv s)%Z /\ exists header, read_header voters_from_str s = Ok header.

(** The databases of the members: entries are applied, and snapshots of other members
    are installed. *)
Inductive member : SqliteState -> Prop :=
| MemberNew : member empty_db
| MemberApplied s commit : member s -> sound_commit commit -> member (delivery commit s)
| MemberInstalled s t t' limit (captured : option LogId * StoredMembership) data :
    member s -> member t -> established s -> (0 < limit <= MAX_SNAPSHOT_CAPTURE_PAGE)%nat ->
    serialize_from_backend limit captured s = Ok data -> restore_snapshot data t = Ok t' -> member t'.

Context (voters_back : forall voters, voters_from_str (voters_to_string voters) = Some voters).

Lemma member_ok s : member s -> database_ok s.
Proof using voters_back.
  induction 1 as [|s commit _ IH Hc|s t t' limit captured data _ IHs _ _ [Hrv Hh] Hl Hser Hres].
  - apply empty_ok.
  - by apply delivery_ok.
  - pose proof (database_capturable voters_from_str s IHs Hrv Hh) as Hcap.
    destruct (snapshot_restores_database parse_from_rfc3339 float_to_string merge encode decode voters_from_str voters_to_string
      pristine captured limit s t voters_back Hl Hcap) as (data' & t'' & Hser' & _ & Hres' & Hrep).
    rewrite Hser in Hser'. injection Hser' as <-. rewrite Hres in Hres'. injection Hres' as <-. by eapply replica_ok.
Qed.

(** C6.  Every member can bring every other one up to date.  Whatever entries a member
    has applied and snapshots it has installed, once it knows its cluster its database
    can be captured with any page limit, the envelope carries the captured log
    position, and restoring it over the database of any other member succeeds and
    gives a replica, which is a member again. *)
Theorem members_exchange_snapshots (captured : option LogId * StoredMembership) (limit : nat) (s t : SqliteState) :
  member s -> member t -> established s -> (0 < limit <= MAX_SNAPSHOT_CAPTURE_PAGE)%nat ->
  exists data t',
    serialize_from_backend limit captured s = Ok data
    /\ (rd_last_applied data, rd_membership data) = captured
    /\ restore_snapshot data t = Ok t'
    /\ replica_of encode decode voters_from_str s t t' /\ member t'.
Proof using voters_back.
  intros Hs Ht [Hrv Hh] Hl. pose proof (database_capturable voters_from_str s (member_ok s Hs) Hrv Hh) as Hcap.
  destruct (snapshot_restores_database parse_from_rfc3339 float_to_string merge encode decode voters_from_str voters_to_string
    pristine captured limit s t voters_back Hl Hcap) as (data & t' & Hser & Hpos & Hres & Hrep).
  exists data, t'. do 4 (split; [done|]). apply (MemberInstalled s t t' limit captured data); [done|done|by split|done|done|done].
Qed.

End Log.

(** ** A cluster *)

Definition founding : LogApplyCommit :=
  mkCommit 0 None
    [PutKlightsMeta CLUSTER_ID_META_KEY "c"; PutKlightsMeta LEADER_EPOCH_META_KEY "1";
     PutNamespace (mkNamespaceRow "default" "u0" 0 (Object []));
     PutResource (mkResourceRow "v1" "ConfigMap" (Some "default") "a" "u1" 0
       (Object [("metadata", Object [("uid", Str "u1"); ("labels", Object [("app", Str "web")])])]) true false None None false)].

(** The database of a member that has applied it. *)
Definition founded : SqliteState :=
  delivery (fun _ => None) (fun _ => "") (fun target _ => target) (fun _ => Ok "A") (fun _ => Err "") founding empty_db.

Lemma founding_sound : sound_commit founding.
Proof. split; [|done]. repeat constructor; try done. by intros [_ ?]. Qed.

Lemma founded_member :
  member (fun _ => None) (fun _ => "") (fun target _ => target) (fun _ => Ok "A") (fun _ => Err "")
    sample_voters_from_str sample_voters_to_string (LogId := Z) tt founded.
Proof. apply MemberApplied; [apply MemberNew|apply founding_sound]. Qed.

Lemma founded_established : established sample_voters_from_str founded.
Proof. split; [by vm_compute|]. eexists. vm_compute. reflexivity. Qed.

Lemma members_exchange_snapshots_witness :
  exists data t',
    serialize_from_backend sample_voters_from_str tt 2 (Some 1%Z, tt) founded = Ok data
    /\ (rd_last_applied data, rd_membership data) = (Some 1%Z, tt)
    /\ restore_snapshot (fun _ => None) (fun _ => "") (fun target _ => target) (fun _ => Ok "A") (fun _ => Err "")
         sample_voters_to_string data empty_db = Ok t'
    /\ replica_of (fun _ => Ok "A") (fun _ => Err "") sample_voters_from_str founded empty_db t'
    /\ member (fun _ => None) (fun _ => "") (fun target _ => target) (fun _ => Ok "A") (fun _ => Err "")
         sample_voters_from_str sample_voters_to_string (LogId := Z) tt t'.
Proof.
  apply (members_exchange_snapshots (fun _ => None) (fun _ => "") (fun target _ => target) (fun _ => Ok "A") (fun _ => Err "")
           sample_voters_from_str sample_voters_to_string tt sample_voters_back (Some 1%Z, tt) 2 founded empty_db).
  - apply founded_member.
  - apply MemberNew.
  - apply founded_established.
  - vm_compute. lia.
Defined.
