(* ===== verification/LeaderEntries.v ===== *)
(** * Leaders write sound entries

    [LogDatabase] asks of an entry that it is [sound_commit].  The builders of
    [Materialize] keep to it for every well-formed command, whatever the database of
    the leader, so [cluster_database], where each entry is built by a leader from its
    own database, is covered by [LogDatabase.member]. *)

From S2P Require Import Prelude Text Json Watch Apply KeyCodec LogApply ResourceShape ResourceSemantics NodeSubnets Commands SqliteState CommittedApply Replay Materialize MaterializeSpec SnapshotCapture SnapshotRestore SnapshotSpec LogDatabase.

Local Open Scope string_scope.
Local Open Scope rs_scope.

(** ** Well-formed commands *)

Definition formed (api_version kind : string) (namespace : option string) : Prop :=
  plain api_version /\ plain kind /\ plain_namespace namespace.

(** Objects other than namespaces, which have a table and commands of their own. *)
Definition formed_object (api_version kind : string) (namespace : option string) : Prop :=
  formed api_version kind namespace /\ is_namespace_kind api_version kind = false.

Definition formed_operation (operation : ResourceBatchOperation) : Prop :=
  match operation with
  | BatchPut api_version kind namespace _ _ _ _ | BatchDelete api_version kind namespace _ _ =>
      formed_object api_version kind namespace
  end.

Section Parameters.

Context (parse_from_rfc3339 : string -> option Z).
Context (merge : Value -> Value -> Value).
Context (chrono_format : string -> Instant -> string).
Context (new_v4 : nat -> string).
Context (from_slice : string -> result string Value).
Context (base64_decode : string -> option (list ascii)).
Context (encode : StorageResponse -> result string string).
Context (decode : string -> result string StorageResponse).
Context (json_to_string : Value -> string).
Context (call_error_text : string -> string).
Context (float_to_string : Z -> string).

Definition well_formed (command : StorageCommand) : Prop :=
  match command with
  | Command.CreateResource api_version kind namespace name _
  | Command.UpdateResource api_version kind namespace name _ _ _ _ => formed api_version kind namespace /\ name <> ""
  | Command.DeleteResource api_version kind namespace _ _
  | Command.DeleteResourceWithTombstone api_version kind namespace _ _ _ => formed api_version kind namespace
  | Command.PatchResource api_version kind namespace _ _ _ _ _
  | Command.UpdateStatus api_version kind namespace _ _ _ _ _ => formed_object api_version kind namespace
  | Command.ApplyResourceBatch operations => Forall formed_operation operations
  | Command.CreateNamespace name _ | Command.UpdateNamespace name _ _ => name <> ""
  | Command.UpdateNodeDataplane node_name _ _ _ _ port =>
      node_name <> "" /\ is_some_and port (fun port => negb ((0 <=? port) && (port <=? 65535)))%Z = false
  | Command.MovePodToCleanupIntent node_name _ _ _ _ => node_name <> ""
  | Command.WatchEventAppend event_bytes _ =>
      forall event, from_slice event_bytes = Ok event ->
        formed (unwrap_or "" (get_str "api_version" event)) (unwrap_or "" (get_str "kind" event)) (get_str "namespace" event)
  | _ => True
  end.

(** ** What the builders author *)

Definition all_sound (ms : list ClusterMutation) : Prop := Forall sound (template ms).

Lemma no_namespace_kind api_version kind : is_namespace_kind api_version kind = false -> ~ (api_version = "v1" /\ kind = "Namespace").
Proof. by intros Hf [-> ->]. Qed.

Lemma sound_put api_version kind namespace name uid rv data absent precondition_uid precondition_rv status_only :
  formed api_version kind namespace -> is_namespace_kind api_version kind = false ->
  all_sound [put_row api_version kind namespace name uid rv data absent precondition_uid precondition_rv status_only].
Proof. intros (Ha & Hk & Hn) Hf%no_namespace_kind. by repeat constructor. Qed.

Lemma sound_namespace name uid rv data : name <> "" -> all_sound [put_namespace_mutation name uid rv data].
Proof. by repeat constructor. Qed.

Lemma sound_batch rv now draw operations s ms :
  Forall formed_operation operations -> batch_mutations chrono_format new_v4 rv now draw operations s = Ok ms -> all_sound ms.
Proof.
  intros Hops. revert draw ms. induction Hops as [|operation operations Hop _ IH]; intros draw ms; [intros [= <-]; constructor|].
  cbn [batch_mutations]. destruct (batch_mutation _ _ _ _ _ _ _) as [m|] eqn:Hm; [|done]. cbn [result_bind].
  destruct (batch_mutations _ _ _ _ _ _ _) as [rest|] eqn:Hrest; [|done]. intros [= <-]. apply Forall_cons. split; [|by eapply IH].
  revert Hm. destruct operation as [av kind ns name data mode pre|av kind ns name pre]; cbn [batch_mutation].
  - destruct (match mode with BatchCreate => _ | BatchUpdate => _ end) as [data'|]; [|done]. cbn [result_bind].
    destruct (ensure_metadata_uid _ _) as [data'' uid]. intros [= <-]. destruct Hop as [(Ha & Hk & Hn) Hf%no_namespace_kind]. done.
  - destruct (resource_row_for_update_in_tx _ _ _ _ _) as [row|]; [|done]. cbn [result_bind].
    destruct (validate_resource_preconditions _ _ _); [|done]. by intros [= <-].
Qed.

Abbreviation build :=
  (build_log_apply_commit_in_tx_from_command parse_from_rfc3339 merge chrono_format new_v4 from_slice base64_decode).

Lemma build_sound command operation node hint now s :
  well_formed command -> database_ok float_to_string s -> authors all_sound (build command operation node hint now s).
Proof.
  intros Hw Hs. unfold build_log_apply_commit_in_tx_from_command. destruct command; cbn zeta; cbn [well_formed] in Hw.
  all: unfold build_create_resource, build_update_resource, build_update_status, build_delete_resource,
    build_delete_with_tombstone, build_finalize_bound_pod, build_patch_resource, build_update_node_dataplane,
    build_update_node_peer_attributes, build_move_pod_to_cleanup_intent, build_watch_event_append,
    build_gc_applied_outbox, build_delete_cleanup_intents_for_node, build_ensure_cluster_metadata,
    build_create_namespace, build_update_namespace, build_delete_namespace.
  all: follow_builder; try (by repeat constructor);
    try (by apply sound_namespace; first [apply Hw|exact (proj2 Hw)]);
    try (by apply sound_put; first [apply Hw|exact (proj1 Hw)|done]).
  all: try (destruct Hw as (Ha & Hk & Hn); by repeat constructor).
  - by eapply sound_batch.
  - destruct (to_subnets _ _ _ (proj2 Hs)) as [Hrows _]. repeat constructor. cbn.
    by destruct (Hrows _ _ ltac:(eassumption)) as [-> ?].
  - destruct Hw as [Hn Hp]. constructor; [done|]. destruct (node_routing_metadata_resource_row_in_tx _ _ _ _) as [m|] eqn:Hm; [|constructor].
    apply node_row_put in Hm as (uid & data & ->). by apply sound_put.
  - match goal with H : map_err_text (from_slice _) = Ok _ |- _ => rename H into He end.
    destruct (from_slice event_bytes) as [event|]; [|done]. injection He as ->. destruct (Hw _ eq_refl) as (Ha & Hk & Hn). by repeat constructor.
Qed.

(** ** Entries *)

Abbreviation build_for_outbox :=
  (build_log_apply_commit_for_outbox_with_watermark parse_from_rfc3339 merge chrono_format new_v4 from_slice base64_decode
     encode decode json_to_string call_error_text).

(** An entry that a leader with database [l] proposes for a well-formed command. *)
Inductive led (l : SqliteState) (c : LogApplyCommit) : Prop :=
| LedCommand command operation node now :
    well_formed command ->
    build_log_apply_commit_for_command parse_from_rfc3339 merge chrono_format new_v4 from_slice base64_decode
      command operation node now l = Ok c -> led l c
| LedDelivery key command operation node w now rv error :
    well_formed command -> key <> "" -> sound_watermark w ->
    build_for_outbox key operation command node w now l = Ok (NeedsPropose c rv error) -> led l c.

Lemma led_sound l c : database_ok float_to_string l -> led l c -> sound_commit c.
Proof.
  intros Hl [command operation node now Hw H|key command operation node w now rv error Hw Hk Hwm [_ [body He]]%outbox_entry].
  - revert H. unfold build_log_apply_commit_for_command. pose proof (build_sound command operation node (resource_version_hint_in_tx l) now l Hw Hl) as Ha.
    destruct (build command operation node _ now l) as [[c' rv]|]; [|done]. destruct Ha as (ms & -> & _ & Hms). by intros [= <-].
  - destruct He as [[bytes ->] _ Hb _]. split; [|done]. cbn. apply Forall_app. split; [|by repeat constructor].
    destruct Hb as [->|[rv' Hb]]; [constructor|].
    pose proof (build_sound command operation node (resource_version_hint_in_tx l) now l Hw Hl) as Ha. rewrite Hb in Ha.
    by destruct Ha as (ms & [= ->] & _ & Hms).
Qed.

(** ** The cluster *)

Context (voters_from_str : string -> option (list string)).
Context (voters_to_string : list string -> string).
Context {LogId StoredMembership : Type} (pristine : StoredMembership) `{!EqDecision StoredMembership}.

(** The databases of a cluster: the entries that a member applies were built by
    members, from whatever they had then. *)
Inductive cluster_database : SqliteState -> Prop :=
| ClusterNew : cluster_database empty_db
| ClusterApplied s l c :
    cluster_database s -> cluster_database l -> led l c ->
    cluster_database (delivery parse_from_rfc3339 float_to_string merge encode decode c s)
| ClusterInstalled s t t' limit (captured : option LogId * StoredMembership) data :
    cluster_database s -> cluster_database t -> established voters_from_str s -> (0 < limit <= MAX_SNAPSHOT_CAPTURE_PAGE)%nat ->
    serialize_from_backend voters_from_str pristine limit captured s = Ok data ->
    restore_snapshot parse_from_rfc3339 float_to_string merge encode decode voters_to_string data t = Ok t' -> cluster_database t'.

Lemma cluster_member s :
  (forall voters, voters_from_str (voters_to_string voters) = Some voters) -> cluster_database s ->
  member (LogId := LogId) parse_from_rfc3339 float_to_string merge encode decode voters_from_str voters_to_string pristine s.
Proof.
  intros Hback. induction 1 as [|s l c _ IHs _ IHl Hled|s t t' limit captured data _ IHs _ IHt Hest Hl Hser Hres].
  - constructor.
  - apply MemberApplied; [done|]. eapply led_sound; [|done]. by eapply member_ok.
  - apply (MemberInstalled _ _ _ _ _ _ _ _ s t t' limit captured data); done.
Qed.

End Parameters.
