(* ===== verification/SnapshotConverge.v ===== *)
(** * Members converge

    A member that installed a snapshot and then applies the entries behind it agrees
    with a member that applied every entry: applying an entry depends only on what a
    snapshot carries.  [agree] compares two databases up to the numbers and creation
    versions of rows, the answers of the ledger and the metadata rows, none of which
    an entry reads. *)

From S2P Require Import Prelude Text Json Watch Apply KeyCodec LogApply ResourceShape NodeSubnets SqliteState CommittedApply Replay SnapshotCapture SnapshotRestore SnapshotPages SnapshotSpec LogDatabase.

Local Open Scope string_scope.
Local Open Scope rs_scope.

(** ** Agreement *)

(** A ledger row without its answer. *)
Definition answerless (row : LogApplyAppliedOutboxRow) : LogApplyAppliedOutboxRow :=
  mkOutboxRow (or_idempotency_key row) (or_subject_key row) (or_operation row) (or_first_seen_ms row) None "" (or_status_stamp row).

Record same_rows (t t' : ResourceTables) : Prop := {
  sr_namespaced : content <$> namespaced_resources t = content <$> namespaced_resources t';
  sr_cluster : content <$> cluster_resources t = content <$> cluster_resources t'
}.

Record agree (s t : SqliteState) : Prop := {
  ag_resources : same_rows (db_resources s) (db_resources t);
  ag_namespaces : db_namespaces s = db_namespaces t;
  ag_watch : db_watch s = db_watch t;
  ag_outbox : answerless <$> db_outbox s = answerless <$> db_outbox t;
  ag_watermarks : db_watermarks s = db_watermarks t;
  ag_cleanup : db_cleanup s = db_cleanup t;
  ag_subnets : db_subnets s = db_subnets t;
  ag_dataplane : db_dataplane s = db_dataplane t;
  ag_rv : db_rv s = db_rv t
}.

#[export] Instance same_rows_equiv : Equivalence same_rows.
Proof. split; [done|by intros ? ? []|intros ? ? ? [] []; split; congruence]. Qed.

#[export] Instance agree_equiv : Equivalence agree.
Proof.
  split.
  - done.
  - intros s t []. split; congruence || by symmetry.
  - intros s t u [] []. split; congruence || by etransitivity.
Qed.

(** Two results that agree. *)
Definition both {A B} (R : A -> B -> Prop) (r : result DbError A) (r' : result DbError B) : Prop :=
  match r, r' with Ok a, Ok b => R a b | Err e, Err e' => e = e' | _, _ => False end.

Lemma both_bind {A B C D} (R : A -> B -> Prop) (Q : C -> D -> Prop) r r' f g :
  both R r r' -> (forall a b, R a b -> both Q (f a) (g b)) -> both Q (result_bind r f) (result_bind r' g).
Proof. destruct r as [a|e], r' as [b|e']; cbn; [auto|done|done|by intros ->]. Qed.

(** ** Rows *)

Lemma content_lookup {K} `{Countable K} (m m' : gmap K ResRow) k :
  content <$> m = content <$> m' -> content <$> m !! k = content <$> m' !! k.
Proof. intros Hm. apply (f_equal (lookup k)) in Hm. by rewrite !lookup_fmap in Hm. Qed.

(** The row in both tables, or in neither. *)
Inductive same_row : option ResRow -> option ResRow -> Prop :=
| SameNone : same_row None None
| SameSome id id' uid rv created created' data :
    same_row (Some (mkResRow id uid rv created data)) (Some (mkResRow id' uid rv created' data)).

Lemma content_same (e e' : option ResRow) : content <$> e = content <$> e' -> same_row e e'.
Proof.
  destruct e as [[id uid rv created data]|], e' as [[id' uid' rv' created' data']|]; cbn; try done; [|constructor].
  unfold content. cbn. intros [= -> -> ->]. constructor.
Qed.

Lemma existing_same i t t' : same_rows t t' -> same_row (get_existing_resource i t) (get_existing_resource i t').
Proof. intros [Hn Hc]. apply content_same. unfold get_existing_resource. destruct (ri_scope i); by apply content_lookup. Qed.

Lemma upsert_same i uid rv data t t' :
  same_rows t t' -> same_rows (upsert_resource i uid rv data t) (upsert_resource i uid rv data t').
Proof.
  intros [Hn Hc]. unfold upsert_resource, upsert_row. destruct (ri_scope i); split; cbn; try done;
    rewrite !fmap_insert, ?Hn, ?Hc; (f_equal; by destruct (_ !! _), (_ !! _)).
Qed.

Lemma delete_same i t t' : same_rows t t' -> same_rows (delete_resource_row i t) (delete_resource_row i t').
Proof. intros [Hn Hc]. unfold delete_resource_row. destruct (ri_scope i); split; cbn; try done; by rewrite !fmap_delete, ?Hn, ?Hc. Qed.

Lemma filter_key_content {K} `{Countable K} (P : K -> bool) (m m' : gmap K ResRow) :
  content <$> m = content <$> m' ->
  content <$> filter (fun e => P e.1 = false) m = content <$> filter (fun e => P e.1 = false) m'.
Proof.
  intros Hm. apply map_eq. intros k. apply (f_equal (lookup k)) in Hm. rewrite !lookup_fmap in *. rewrite !map_lookup_filter.
  destruct (m !! k), (m' !! k); try done. cbn [mbind option_bind fst]. destruct (P k).
  - by rewrite !option_guard_False.
  - by rewrite !option_guard_True.
Qed.

Lemma contents_rows name t :
  namespaced_resources (delete_namespace_contents_rows name t)
  = filter (fun e => is_content name e.1 = false) (namespaced_resources t)
  /\ cluster_resources (delete_namespace_contents_rows name t) = cluster_resources t.
Proof.
  unfold delete_namespace_contents_rows. set (t0 := mkResTables _ _ _ _ _). set (rows := filter _ (map_to_list _)).
  by destruct (delete_all_indexes rows t0 ("", "", "", "")) as (-> & -> & _).
Qed.

Lemma contents_same name t t' : same_rows t t' -> same_rows (delete_namespace_contents_rows name t) (delete_namespace_contents_rows name t').
Proof.
  intros [Hn Hc]. destruct (contents_rows name t) as [E1 E2], (contents_rows name t') as [E1' E2'].
  split; [rewrite E1, E1'; by apply filter_key_content|by rewrite E2, E2'].
Qed.

(** ** Mutations *)

Section Mutations.

Context (parse_from_rfc3339 : string -> option Z).
Context (float_to_string : Z -> string).
Context (merge : Value -> Value -> Value).

(** The database, and equal effects. *)
Definition agree_with {A} (out out' : SqliteState * A) : Prop := agree out.1 out'.1 /\ out.2 = out'.2.

Lemma agree_set_resources t t' s s' : agree s s' -> same_rows t t' -> agree (set_resources t s) (set_resources t' s').
Proof. intros [] Ht. by split. Qed.

Lemma agree_set_watch w s s' : agree s s' -> agree (set_watch w s) (set_watch w s').
Proof. intros []. by split. Qed.

Lemma agree_set_namespaces n s s' : agree s s' -> agree (set_namespaces n s) (set_namespaces n s').
Proof. intros []. by split. Qed.

Lemma agree_insert_watch event_id canonicalize row s s' :
  agree s s' -> both agree (insert_watch_event_in_conn event_id canonicalize row s) (insert_watch_event_in_conn event_id canonicalize row s').
Proof.
  intros Hs. unfold insert_watch_event_in_conn. rewrite (ag_watch _ _ Hs). destruct (insert_event_row _ _ _); [|done]. by apply agree_set_watch.
Qed.

Lemma agree_emit emit i rv event_type data s s' :
  agree s s' -> both agree_with (emit_watch emit i rv event_type data s) (emit_watch emit i rv event_type data s').
Proof.
  intros Hs. unfold emit_watch. destruct (negb emit); [done|]. eapply both_bind; [by apply agree_insert_watch|]. done.
Qed.

Lemma agree_write i uid rv data s s' :
  agree s s' -> agree (write_resource float_to_string i uid rv data s) (write_resource float_to_string i uid rv data s').
Proof.
  intros Hs. apply agree_set_resources; [done|]. destruct (upsert_same i uid rv data _ _ (ag_resources _ _ Hs)) as [Hn Hc]. by split.
Qed.

Lemma agree_put row emit s s' :
  agree s s' -> both agree_with (apply_put_resource parse_from_rfc3339 float_to_string row emit s)
                  (apply_put_resource parse_from_rfc3339 float_to_string row emit s').
Proof.
  intros Hs. unfold apply_put_resource. set (i := row_identity row).
  destruct (existing_same i _ _ (ag_resources _ _ Hs)) as [|id id' uid rv created created' data].
  - destruct (validate_put_resource_apply_preconditions row None); [|done]. cbn [result_bind].
    destruct (normalize_committed_resource_for_apply _ _ None) as [row'|]; [|done]. cbn [result_bind opt_is_some is_some_and].
    unfold decide_resource_put. cbn. by apply agree_emit, agree_write.
  - change (validate_put_resource_apply_preconditions row (Some (mkResRow id uid rv created data)))
      with (validate_put_resource_apply_preconditions row (Some (mkResRow id' uid rv created' data))).
    destruct (validate_put_resource_apply_preconditions row _); [|done]. cbn [result_bind].
    change (normalize_committed_resource_for_apply parse_from_rfc3339 row (Some (mkResRow id uid rv created data)))
      with (normalize_committed_resource_for_apply parse_from_rfc3339 row (Some (mkResRow id' uid rv created' data))).
    destruct (normalize_committed_resource_for_apply _ _ _) as [row'|]; [|done]. cbn [result_bind opt_is_some is_some_and rw_resource_version rw_data].
    destruct (decide_resource_put _ _) as [|event_type]; [|by apply agree_emit, agree_write].
    split; [|done]. apply agree_set_resources; [done|]. destruct (ag_resources _ _ Hs). by split.
Qed.

Lemma agree_patch patch emit s s' :
  agree s s' -> both agree_with (apply_patch_resource_latest float_to_string merge patch emit s)
                  (apply_patch_resource_latest float_to_string merge patch emit s').
Proof.
  intros Hs. unfold apply_patch_resource_latest. set (i := resource_identity _ _ _ _).
  destruct (existing_same i _ _ (ag_resources _ _ Hs)) as [|id id' uid rv created created' data]; [by destruct (rp_require_existing patch)|].
  change (apply_latest_patch_to_current_resource merge patch (mkResRow id uid rv created data))
    with (apply_latest_patch_to_current_resource merge patch (mkResRow id' uid rv created' data)).
  destruct (apply_latest_patch_to_current_resource _ _ _ _) as [patched|]; [|done]. cbn [result_bind rw_uid]. by apply agree_emit, agree_write.
Qed.

Lemma agree_delete rv key emit s s' :
  agree s s' -> both agree_with (apply_delete_resource rv key emit s) (apply_delete_resource rv key emit s').
Proof.
  intros Hs. unfold apply_delete_resource. set (i := resource_identity _ _ _ _).
  destruct (existing_same i _ _ (ag_resources _ _ Hs)) as [|id id' uid row_rv created created' data]; [done|].
  cbn [rw_uid rw_resource_version rw_data]. destruct (decide_resource_delete _ _ _) as [[|event_type]|]; [done| |done].
  apply agree_emit, agree_set_resources; [done|]. destruct (delete_same i _ _ (ag_resources _ _ Hs)). by split.
Qed.

Lemma agree_put_namespace row emit s s' :
  agree s s' -> both agree_with (put_namespace_row row emit s) (put_namespace_row row emit s').
Proof.
  intros Hs. unfold put_namespace_row. rewrite (ag_namespaces _ _ Hs). destruct (is_some_and _ _); [done|].
  set (n := <[nr_name row := _]> _). pose proof (agree_set_namespaces n _ _ Hs) as H1. destruct (negb emit); [done|].
  eapply both_bind; [by apply agree_insert_watch|]. done.
Qed.

Lemma agree_delete_namespace rv name emit s s' :
  agree s s' -> both agree_with (delete_namespace_row rv name emit s) (delete_namespace_row rv name emit s').
Proof.
  intros Hs. unfold delete_namespace_row. rewrite (ag_namespaces _ _ Hs). destruct (_ !! name) as [e|]; [|done].
  set (n := delete name _). pose proof (agree_set_namespaces n _ _ Hs) as H1. destruct (negb emit); [done|].
  eapply both_bind; [by apply agree_insert_watch|]. done.
Qed.

Lemma agree_push effects r r' : both agree_with r r' -> both agree_with (push_effect effects r) (push_effect effects r').
Proof. intros Hr. eapply both_bind; [exact Hr|]. intros a b [H1 H2]. split; [done|]. cbn. by rewrite H2. Qed.

Lemma agree_subnets r r' effects s s' :
  agree s s' -> r = r' ->
  both agree_with (let? s := with_subnets r s in silent effects s) (let? s := with_subnets r' s' in silent effects s).
Proof. intros [] ->. unfold with_subnets. destruct r'; [|done]. by split; [split|]. Qed.

Lemma gc_ledger_answerless cutoff (o o' : gmap string LogApplyAppliedOutboxRow) :
  answerless <$> o = answerless <$> o' ->
  answerless <$> filter (fun e => negb (or_first_seen_ms e.2 <? cutoff)%Z = true) o
  = answerless <$> filter (fun e => negb (or_first_seen_ms e.2 <? cutoff)%Z = true) o'.
Proof.
  intros Ho. apply map_eq. intros k. apply (f_equal (lookup k)) in Ho. rewrite !lookup_fmap in *. rewrite !map_lookup_filter.
  destruct (o !! k) as [row|], (o' !! k) as [row'|]; try done. cbn [mbind option_bind snd fmap option_fmap option_map] in *.
  assert (Hms : or_first_seen_ms row = or_first_seen_ms row') by (injection Ho; congruence). rewrite Hms.
  destruct (or_first_seen_ms row' <? cutoff)%Z; cbn [negb].
  - by rewrite !option_guard_False.
  - by rewrite !option_guard_True.
Qed.

Lemma agree_mutation rv m emit s s' effects :
  agree s s' ->
  both agree_with (apply_cluster_mutation parse_from_rfc3339 float_to_string merge rv (to_cluster_mutation m) emit (s, effects))
    (apply_cluster_mutation parse_from_rfc3339 float_to_string merge rv (to_cluster_mutation m) emit (s', effects)).
Proof.
  intros Hs. destruct m; cbn [to_cluster_mutation apply_cluster_mutation].
  all: try (destruct (negb _); [done|]).
  - by apply agree_push, agree_put.
  - by apply agree_push, agree_patch.
  - by apply agree_push, agree_delete.
  - done.
  - by apply agree_push, agree_put_namespace.
  - by apply agree_push, agree_delete_namespace.
  - split; [|done]. apply agree_set_resources; [done|]. by apply contents_same, ag_resources.
  - apply agree_subnets; [done|]. by rewrite (ag_subnets _ _ Hs).
  - apply agree_subnets; [done|]. by rewrite (ag_subnets _ _ Hs).
  - split; [|done]. destruct Hs. split; try done. cbn. congruence.
  - unfold put_node_dataplane. destruct (_ && _); [|done]. split; [|done]. destruct Hs. split; try done. cbn. congruence.
  - split; [|done]. destruct Hs. split; try done. cbn. congruence.
  - split; [|done]. destruct Hs. split; try done. cbn. rewrite !fmap_insert. congruence.
  - split; [|done]. destruct Hs. split; try done. cbn. rewrite !fmap_delete. congruence.
  - split; [|done]. destruct Hs. split; try done. cbn. by apply gc_ledger_answerless.
  - split; [|done]. destruct Hs. split; try done. cbn. congruence.
  - apply (both_bind agree_with); [|intros a b [H1 H2]; split; [exact H1|cbn; by rewrite H2]]. unfold apply_put_watch_event.
    eapply both_bind; [by apply agree_insert_watch|]. done.
  - done.
  - split; [|done]. by destruct Hs.
  - split; [|done]. destruct Hs. split; try done. cbn. congruence.
  - split; [|done]. destruct Hs. split; try done. cbn. congruence.
  - split; [|done]. destruct Hs. split; try done. cbn. congruence.
Qed.

Lemma agree_mutations rv emit ms s s' effects :
  agree s s' ->
  both agree_with (apply_mutations parse_from_rfc3339 float_to_string merge rv emit ms (s, effects))
    (apply_mutations parse_from_rfc3339 float_to_string merge rv emit ms (s', effects)).
Proof.
  revert s s' effects. induction ms as [|m ms IH]; intros s s' effects Hs; cbn [apply_mutations]; [done|].
  eapply both_bind; [by apply agree_mutation|]. intros [a ea] [b eb] [H1 H2]. cbn in H1, H2. subst eb. by apply IH.
Qed.

End Mutations.

(** ** Commits *)

Definition unnumbered (r : Resource) : Resource :=
  mkResource 0 (r_api_version r) (r_kind r) (r_namespace r) (r_name r) (r_uid r) (r_resource_version r) (r_data r).

(** What applying a commit gives back. *)
Definition agree_applied (out out' : SqliteState * (Z * list StagedPostCommit * option Resource)) : Prop :=
  agree out.1 out'.1 /\ out.2.1 = out'.2.1 /\ unnumbered <$> out.2.2 = unnumbered <$> out'.2.2.

Lemma finalization_same rv s s' m : agree s s' -> resolve_finalization rv s m = resolve_finalization rv s' m.
Proof.
  intros Hs. destruct m; try done. cbn.
  by destruct (content_same _ _ (content_lookup _ _ ("v1", "Pod", pf_namespace finalization, pf_name finalization)
    (sr_namespaced _ _ (ag_resources _ _ Hs)))).
Qed.

Lemma resolved_same commit s s' :
  agree s s' -> resolve_bound_pod_finalizations_in_tx commit s = resolve_bound_pod_finalizations_in_tx commit s'.
Proof.
  intros Hs. unfold resolve_bound_pod_finalizations_in_tx. f_equal. f_equal. apply list_fmap_ext. intros _ m _. by apply finalization_same.
Qed.

Lemma decision_same w s s' : agree s s' -> outbox_watermark_decision_in_tx w s = outbox_watermark_decision_in_tx w s'.
Proof. intros Hs. unfold outbox_watermark_decision_in_tx. by rewrite (ag_watermarks _ _ Hs). Qed.

Lemma agree_upsert w s s' : agree s s' -> agree (upsert_watermark w s) (upsert_watermark w s').
Proof. intros Hs. destruct w; [|done]. destruct Hs. split; try done. cbn. congruence. Qed.

Lemma agree_set_rv rv s s' : agree s s' -> agree (set_rv rv s) (set_rv rv s').
Proof. intros []. by split. Qed.

Lemma agree_advance rv s s' :
  agree s s' -> agree (advance_metadata_rv_to_at_least_tx rv s) (advance_metadata_rv_to_at_least_tx rv s').
Proof.
  intros Hs. unfold advance_metadata_rv_to_at_least_tx. rewrite (ag_rv _ _ Hs). destruct (_ <? _)%Z; [|done]. by apply agree_set_rv.
Qed.

Lemma returned_same target s s' :
  agree s s' -> unnumbered <$> read_returned_resource_in_tx target s = unnumbered <$> read_returned_resource_in_tx target s'.
Proof.
  intros Hs. destruct (ag_resources _ _ Hs) as [Hn Hc]. destruct target as [av kd [ns|] nm|nm]; cbn.
  - by destruct (content_same _ _ (content_lookup _ _ (av, kd, ns, nm) Hn)).
  - by destruct (content_same _ _ (content_lookup _ _ (av, kd, nm) Hc)).
  - by rewrite (ag_namespaces _ _ Hs).
Qed.

Section Commits.

Context (parse_from_rfc3339 : string -> option Z).
Context (float_to_string : Z -> string).
Context (merge : Value -> Value -> Value).
Context (encode : StorageResponse -> result string string).
Context (decode : string -> result string StorageResponse).

Lemma noop_same row s s' :
  agree s s' -> resolve_noop_put_resource_in_tx parse_from_rfc3339 row s = resolve_noop_put_resource_in_tx parse_from_rfc3339 row s'.
Proof. intros Hs. unfold resolve_noop_put_resource_in_tx. by destruct (existing_same (row_identity row) _ _ (ag_resources _ _ Hs)). Qed.

Lemma noops_same ms s s' : agree s s' -> resolve_noops parse_from_rfc3339 ms s = resolve_noops parse_from_rfc3339 ms s'.
Proof.
  intros Hs. induction ms as [|m ms IH]; [done|]. cbn [resolve_noops]. rewrite IH. destruct m; try done. by rewrite (noop_same row s s').
Qed.

Lemma resolve_same commit s s' :
  agree s s' -> resolve_noop_put_resources_in_tx parse_from_rfc3339 commit s = resolve_noop_put_resources_in_tx parse_from_rfc3339 commit s'.
Proof. intros Hs. unfold resolve_noop_put_resources_in_tx. by rewrite (noops_same _ s s'), (ag_rv _ _ Hs). Qed.

Lemma agree_stamp commit s s' :
  agree s s' ->
  (stamp_provisional_resource_version_in_tx encode decode commit s).1 = (stamp_provisional_resource_version_in_tx encode decode commit s').1
  /\ agree (stamp_provisional_resource_version_in_tx encode decode commit s).2 (stamp_provisional_resource_version_in_tx encode decode commit s').2.
Proof.
  intros Hs. unfold stamp_provisional_resource_version_in_tx, next_resource_version_in_tx. rewrite (ag_rv _ _ Hs).
  destruct (_ =? 0)%Z, (forallb _ _); cbn; try done. split; [done|]. by apply agree_set_rv.
Qed.

Lemma agree_commit commit emit s s' :
  agree s s' ->
  both agree_applied (apply_commit_in_tx_with_watch_events parse_from_rfc3339 float_to_string merge encode decode commit emit s)
    (apply_commit_in_tx_with_watch_events parse_from_rfc3339 float_to_string merge encode decode commit emit s').
Proof.
  intros Hs. unfold apply_commit_in_tx_with_watch_events. destruct (_ <? 0)%Z; [done|]. rewrite (resolved_same _ s s') by done.
  rewrite (decision_same _ s s') by done. destruct (outbox_watermark_decision_in_tx _ s') as [d|]; [|done]. cbn [result_bind].
  rewrite (resolve_same _ s s') by done.
  destruct (match d with WApply => _ | _ => _ end) as [c1|]; [|done]. cbn [result_bind].
  destruct (agree_stamp c1 s s' Hs) as [E1 H1]. destruct (stamp_provisional_resource_version_in_tx _ _ c1 s) as [c2 s1].
  destruct (stamp_provisional_resource_version_in_tx _ _ c1 s') as [c2' s1']. cbn in E1, H1. subst c2'.
  set (main := fun x => match d with
    | WDuplicate => Ok (advance_metadata_rv_to_at_least_tx (ac_resource_version c2) x, (ac_resource_version c2, [], None))
    | WGap last_seq next_seq => Err (gap_error last_seq next_seq)
    | WApply =>
        let? applied := apply_mutations parse_from_rfc3339 float_to_string merge (ac_resource_version c2)
          (emit && negb (existsb is_put_watch_event (ac_mutations (resolve_bound_pod_finalizations_in_tx commit s')))) (ac_mutations c2) (x, []) in
        let '(s, pending) := applied in
        Ok (advance_metadata_rv_to_at_least_tx (ac_resource_version c2) (upsert_watermark (ac_outbox_watermark c2) s),
            (ac_resource_version c2, pending, or_else (deleted_resource_from_stamped_commit c2)
               (t ← returned_resource_target c2; read_returned_resource_in_tx t s)))
    end).
  assert (Hmain : both agree_applied (main s1) (main s1')).
  { destruct d; [|split_and!; [by apply agree_advance|done|done]|done].
    eapply both_bind; [by apply agree_mutations|]. intros [a ea] [b eb] [Hab He]. cbn in Hab, He. subst eb.
    split_and!; [by apply agree_advance, agree_upsert|done|]. cbn. destruct (deleted_resource_from_stamped_commit c2); [done|].
    cbn. destruct (returned_resource_target c2) as [target|]; [|done]. by apply returned_same. }
  destruct (ac_outbox_watermark c2) as [w|]; [|exact Hmain]. destruct (ac_mutations c2); [|exact Hmain].
  split_and!; [|done|done]. apply agree_advance. by apply (agree_upsert (Some w)).
Qed.

(** ** Deliveries *)

Lemma agree_finalization template resource resource' rv s s' :
  agree s s' -> unnumbered <$> resource = unnumbered <$> resource' ->
  both agree (record_finalization encode template resource rv s) (record_finalization encode template resource' rv s').
Proof.
  intros Hs Hr. unfold record_finalization. destruct template as [template|]; [|done].
  destruct resource as [r|], resource' as [r'|]; try done. injection Hr as Hav Hkd _ _ _ Hrv Hdata. rewrite Hav, Hkd, Hrv, Hdata.
  destruct (_ && _); [|done]. destruct (encode _); [|done].
  pose proof (f_equal (lookup (or_idempotency_key template)) (ag_outbox _ _ Hs)) as Hrow. rewrite !lookup_fmap in Hrow.
  destruct (db_outbox s !! _) as [row|], (db_outbox s' !! _) as [row'|]; try done. injection Hrow as Hkey _ Hop Hms _.
  destruct Hs. split; try done. cbn. rewrite !fmap_insert, Hkey, Hop, Hms. congruence.
Qed.

Lemma agree_rejection w template message s s' :
  agree s s' -> agree (record_rejection encode w template message s) (record_rejection encode w template message s').
Proof.
  intros Hs. unfold record_rejection. pose proof (agree_upsert w s s' Hs) as H1. destruct template as [row|]; [|done].
  destruct H1. split; try done. cbn. rewrite !fmap_insert. congruence.
Qed.

Lemma last_stamp_same subject s s' : agree s s' -> max_status_stamp subject s = max_status_stamp subject s'.
Proof.
  intros Hs. set (f := fun (_ : string) row (top : option Z) =>
    if or_subject_key row =?s subject
    then match or_status_stamp row, top with
         | Some stamp, Some top => Some (Z.max stamp top)
         | Some stamp, None => Some stamp
         | None, _ => top
         end
    else top).
  assert (Hf : forall o, map_fold f None (answerless <$> o) = map_fold f None o) by (intros o; by rewrite map_fold_fmap).
  unfold max_status_stamp. change (map_fold f None (db_outbox s) = map_fold f None (db_outbox s')).
  by rewrite <- (Hf (db_outbox s)), (ag_outbox _ _ Hs), Hf.
Qed.

Lemma stale_same commit s s' : agree s s' -> stale_stamp commit s = stale_stamp commit s'.
Proof.
  intros Hs. unfold stale_stamp. destruct (stamped_pod_status_subject_and_stamp commit) as [[subject stamp]|]; [|done].
  by rewrite (last_stamp_same _ s s').
Qed.

Abbreviation delivery := (delivery parse_from_rfc3339 float_to_string merge encode decode).
Abbreviation deliver := (deliver parse_from_rfc3339 float_to_string merge encode decode).

(** The database after an entry point. *)
Definition after {A} (r : result DbError (SqliteState * A)) (s : SqliteState) : SqliteState :=
  match r with Ok (s', _) => s' | Err _ => s end.

Lemma agree_attempt commit template s s' :
  agree s s' ->
  agree (after (attempt parse_from_rfc3339 float_to_string merge encode decode commit template s) s)
    (after (attempt parse_from_rfc3339 float_to_string merge encode decode commit template s') s').
Proof.
  intros Hs. unfold attempt, apply_commit_in_tx_returning_rv_and_mutation_with_context.
  destruct (from_live commit) as [c|e]; cbn [result_bind]; [|by destruct e; [by apply agree_rejection|..]].
  pose proof (agree_commit c (negb (existsb is_put_watch_event (lc_mutations commit))) s s' Hs) as Hc.
  destruct (apply_commit_in_tx_with_watch_events _ _ _ _ _ c _ s) as [[a [[rv pending] r]]|e],
    (apply_commit_in_tx_with_watch_events _ _ _ _ _ c _ s') as [[b [[rv' pending'] r']]|e']; try done.
  - destruct Hc as (Hab & Hout & Hr). cbn in Hab, Hout, Hr. injection Hout as -> ->.
    pose proof (agree_finalization template r r' rv' a b Hab Hr) as Hf.
    by destruct (record_finalization _ template r rv' a), (record_finalization _ template r' rv' b).
  - cbn in Hc. subst e'. destruct e; [by apply agree_rejection|done..].
Qed.

Lemma agree_ledger_only commit last incoming effect effect' s s' :
  agree s s' ->
  agree (after (record_ledger_only parse_from_rfc3339 float_to_string merge encode decode commit last incoming effect s) s)
    (after (record_ledger_only parse_from_rfc3339 float_to_string merge encode decode commit last incoming effect' s') s').
Proof.
  intros Hs. unfold record_ledger_only. destruct (from_live _) as [c|]; [|done]. cbn [result_bind]. rewrite (ag_rv _ _ Hs).
  pose proof (agree_commit (set_commit_rv (db_rv s') c) true s s' Hs) as Hc.
  destruct (apply_commit_in_tx_with_watch_events _ _ _ _ _ _ true s) as [[a [[rv pending] r]]|e],
    (apply_commit_in_tx_with_watch_events _ _ _ _ _ _ true s') as [[b [[rv' pending'] r']]|e']; try done.
  destruct Hc as (Hab & _). by destruct (stamp_cmp last incoming).
Qed.

Lemma answered_same commit s s' :
  agree s s' -> opt_is_some (ledger_answer commit s) = opt_is_some (ledger_answer commit s').
Proof.
  intros Hs. unfold ledger_answer. destruct (ledger_template commit) as [template|]; [|done]. cbn.
  pose proof (f_equal (lookup (or_idempotency_key template)) (ag_outbox _ _ Hs)) as Hrow. rewrite !lookup_fmap in Hrow.
  by destruct (db_outbox s !! _), (db_outbox s' !! _).
Qed.

(** An entry does the same to two databases that agree. *)
Lemma agree_delivery commit s s' : agree s s' -> agree (delivery commit s) (delivery commit s').
Proof.
  intros Hs. change (agree (after (apply_commit_in_tx_for_raft_with_context parse_from_rfc3339 float_to_string merge encode decode commit s) s)
    (after (apply_commit_in_tx_for_raft_with_context parse_from_rfc3339 float_to_string merge encode decode commit s') s')).
  unfold apply_commit_in_tx_for_raft_with_context. destruct (validate_live commit) as [[]|]; [|done]. cbn [result_bind].
  fold (ledger_template commit). set (main := fun x => match ledger_answer commit x with
    | Some existing => let? outcome := replay_from_ledger decode existing
        (endpoint_effect (pod_status_target commit) (pod_state_in_tx (pod_status_target commit) x) (pod_state_in_tx (pod_status_target commit) x)) in
        Ok (x, outcome)
    | None =>
        let? decision := outbox_watermark_decision_in_tx (lc_outbox_watermark commit) x in
        let effect := endpoint_effect (pod_status_target commit) (pod_state_in_tx (pod_status_target commit) x)
          (pod_state_in_tx (pod_status_target commit) x) in
        match decision, stale_stamp commit x with
        | WDuplicate, _ => Ok (x, outcome_try_new (NoPublicChange (db_rv x) DuplicateWatermark) [] effect)
        | _, Some (last, incoming) =>
            record_ledger_only parse_from_rfc3339 float_to_string merge encode decode commit last incoming effect x
        | _, None => attempt parse_from_rfc3339 float_to_string merge encode decode commit (ledger_template commit) x
        end
    end).
  assert (Hmain : agree (after (main s) s) (after (main s') s')).
  { unfold main. pose proof (answered_same commit s s' Hs) as Ha.
    destruct (ledger_answer commit s) as [row|], (ledger_answer commit s') as [row'|]; try done.
    - by destruct (replay_from_ledger decode row _), (replay_from_ledger decode row' _).
    - rewrite (decision_same _ s s'), (stale_same _ s s') by done. destruct (outbox_watermark_decision_in_tx _ s') as [d|]; [|done].
      cbn [result_bind]. destruct d, (stale_stamp commit s') as [[last incoming]|]; try done;
        (by apply agree_attempt || by apply agree_ledger_only). }
  destruct (lc_mutations commit), (lc_outbox_watermark commit); try exact Hmain. done.
Qed.

Lemma agree_deliver commits s s' : agree s s' -> agree (deliver commits s).2 (deliver commits s').2.
Proof.
  revert s s'. induction commits as [|commit commits IH]; intros s s' Hs; [done|]. cbn [CommittedApply.deliver].
  specialize (IH _ _ (agree_delivery commit s s' Hs)). by destruct (deliver commits (delivery commit s)), (deliver commits (delivery commit s')).
Qed.

Lemma deliver_app l l' s : (deliver (l ++ l') s).2 = (deliver l' (deliver l s).2).2.
Proof.
  revert s. induction l as [|commit l IH]; intros s; [done|]. cbn [app CommittedApply.deliver]. specialize (IH (delivery commit s)).
  destruct (deliver (l ++ l') (delivery commit s)), (deliver l (delivery commit s)). exact IH.
Qed.

End Commits.

(** ** Members *)

(** The index rows of two databases. *)
Definition same_index_rows (t t' : ResourceTables) : Prop :=
  forall key, rows_at key (resource_labels t') = rows_at key (resource_labels t)
    /\ rows_at key (resource_fields t') = rows_at key (resource_fields t)
    /\ rows_at key (resource_owner_refs t') = rows_at key (resource_owner_refs t).

Section Members.

Context (parse_from_rfc3339 : string -> option Z).
Context (float_to_string : Z -> string).
Context (merge : Value -> Value -> Value).
Context (encode : StorageResponse -> result string string).
Context (decode : string -> result string StorageResponse).
Context (voters_from_str : string -> option (list string)).
Context (voters_to_string : list string -> string).
Context {LogId StoredMembership : Type} (pristine : StoredMembership) `{!EqDecision StoredMembership}.

Abbreviation deliver := (deliver parse_from_rfc3339 float_to_string merge encode decode).
Abbreviation member := (member parse_from_rfc3339 float_to_string merge encode decode voters_from_str voters_to_string
  (LogId := LogId) pristine).

Lemma replica_agrees s t t' : replica_of encode decode voters_from_str s t t' -> agree s t'.
Proof.
  intros [Rc Rn _ _ _ _ _ Rns Rw Ro Rwm Rcl Rs Rd Rrv _ _]. split; try congruence; [by split|].
  rewrite Ro. symmetry. apply map_eq. intros k. rewrite !lookup_fmap. by destruct (db_outbox s !! k).
Qed.

(** C5.  A member that installs a snapshot has missed nothing.  From any two members,
    the one sends a snapshot to the other; whatever entries both apply from then on,
    rejected, repeated and failing ones included, their databases agree: the same
    resources with the same versions, namespaces, watch log with its positions and
    floors, ledger keys, stream positions, cleanup intents, network rows and version
    counter; and the same index rows when the entries are well formed. *)
Theorem members_converge (captured : option LogId * StoredMembership) (limit : nat) (s t : SqliteState) :
  (forall voters, voters_from_str (voters_to_string voters) = Some voters) ->
  member s -> member t -> established voters_from_str s -> (0 < limit <= MAX_SNAPSHOT_CAPTURE_PAGE)%nat ->
  exists data t',
    serialize_from_backend voters_from_str pristine limit captured s = Ok data
    /\ restore_snapshot parse_from_rfc3339 float_to_string merge encode decode voters_to_string data t = Ok t'
    /\ forall entries,
         agree (deliver entries s).2 (deliver entries t').2
         /\ (Forall sound_commit entries ->
             same_index_rows (db_resources (deliver entries s).2) (db_resources (deliver entries t').2)).
Proof.
  intros Hback Hs Ht [Hrv Hh] Hl. pose proof (member_ok _ _ _ _ _ _ _ _ Hback s Hs) as Hok.
  destruct (snapshot_restores_database parse_from_rfc3339 float_to_string merge encode decode voters_from_str voters_to_string
    pristine captured limit s t Hback Hl (database_capturable _ _ _ Hok Hrv Hh)) as (data & t' & Hser & _ & Hres & Hrep).
  exists data, t'. split; [done|]. split; [done|]. intros entries.
  assert (Hag : agree (deliver entries s).2 (deliver entries t').2) by by apply agree_deliver, (replica_agrees s t t').
  split; [done|]. intros Hsound.
  destruct (deliver_ok parse_from_rfc3339 float_to_string merge encode decode entries s Hsound Hok) as [_ [[_ _ Hx] _ _ _ _ _ _ _]].
  destruct (deliver_ok parse_from_rfc3339 float_to_string merge encode decode entries t' Hsound (replica_ok _ _ _ _ _ _ _ Hok Hrep))
    as [_ [[_ _ Hx'] _ _ _ _ _ _ _]].
  destruct (ag_resources _ _ Hag) as [Hn Hc]. intros key. by apply (same_indexes float_to_string).
Qed.

End Members.

Lemma members_converge_witness :
  exists data t',
    serialize_from_backend sample_voters_from_str tt 2 (Some 1%Z, tt) founded = Ok data
    /\ restore_snapshot (fun _ => None) (fun _ => "") (fun target _ => target) (fun _ => Ok "A") (fun _ => Err "")
         sample_voters_to_string data empty_db = Ok t'
    /\ forall entries,
         agree (deliver (fun _ => None) (fun _ => "") (fun target _ => target) (fun _ => Ok "A") (fun _ => Err "") entries founded).2
           (deliver (fun _ => None) (fun _ => "") (fun target _ => target) (fun _ => Ok "A") (fun _ => Err "") entries t').2
         /\ (Forall sound_commit entries ->
             same_index_rows
               (db_resources (deliver (fun _ => None) (fun _ => "") (fun target _ => target) (fun _ => Ok "A") (fun _ => Err "") entries founded).2)
               (db_resources (deliver (fun _ => None) (fun _ => "") (fun target _ => target) (fun _ => Ok "A") (fun _ => Err "") entries t').2)).
Proof.
  apply (members_converge (fun _ => None) (fun _ => "") (fun target _ => target) (fun _ => Ok "A") (fun _ => Err "")
           sample_voters_from_str sample_voters_to_string tt (Some 1%Z, tt) 2 founded empty_db).
  - apply sample_voters_back.
  - apply founded_member.
  - apply MemberNew.
  - apply founded_established.
  - vm_compute. lia.
Defined.
